(* ===== verification/_CoqProject ===== *)
-Q . S2P
Prelude.v
GoStrings.v
Version.v
Model.v
Notify.v
Objects.v
Store.v
Rows.v
RowWrites.v
Write.v
Review.v
Listing.v
Changes.v
Operations.v
Sync.v
Children.v
Lifecycle.v
Service.v
Decisions.v
Settlement.v
Outcomes.v
Typing.v
CardAction.v
ReviewService.v
Json.v
Documents.v
VersionArtifacts.v
Zip.v
Parse.v
ParseTasks.v
SkillTree.v
Rewriting.v
Auth.v
ReviewApi.v
InstallAttempts.v
Reads.v
Queries.v
Closure.v
Availability.v
Grid.v
CatalogService.v
Editing.v
SkillFiles.v
Saving.v
Importing.v
Administration.v
Uploads.v
Imported.v
ImportRollback.v
Submitting.v
Submission.v
Enabled.v
Scenario.v
ServiceScenario.v
CatalogScenario.v
EditorScenario.v
UploadScenario.v
Addresses.v
Sse.v
Probe.v
ProbeScenario.v
Metrics.v
Flush.v
