(* ===== verification/Prelude.v ===== *)
(** * OCTO Marketplace: verification of the catalog and publishing service

    The program (Go, under src/internal) is the marketplace of an organization:
    authors create plugins (skills, connectors, experts with bundled skills,
    expert teams), submit them for review, reviewers approve, reject or take
    them down, in the web or from a card in the chat, and members of the Space
    browse, install and count their use. Its state is a set of SQL tables,
    changed by the transactions of repository/plugin; service/plugin runs the
    business rules between those transactions, api/handler and middleware
    answer HTTP requests. Around it: uploaded archives are unpacked and parsed
    by a worker (service/parse), frozen files live in a bucket (storage),
    usage counters are written back from Redis (service/metrics), and remote
    MCP servers named by users are probed (service/probe.go).

    ** Files

    - Prelude.v: results of fallible functions, statements outside
      transactions, folds with early return, tactics, list lemmas.
    - GoStrings.v: what the code uses of Go's strings, strconv, path/filepath,
      path and unicode/utf8 packages, on byte strings and runes.
    - Version.v: model/version.go, the comparison of release labels.
    - Model.v: model/identity.go, plugin.go, plugin_review.go, plugin_name.go,
      plugin_snapshot.go, plugin_draft_revision.go: the row types, the review
      authority, the display status, name keys, the codec of frozen relations
      and the draft revision.
    - Notify.v: notify/signature.go, card.go, client.go: signatures of
      callbacks, card texts, requests to octo-server.
    - Store.v: the tables as finite maps, transactions as a state and error
      monad, faults of single statements.
    - Rows.v, RowWrites.v: the helpers of repository/plugin/write.go and
      create_name.go that read, lock and write rows.
    - Write.v: Create, CreateGraph, RebuildGraph, Update, UpdateRating, Delete,
      DeleteGraph (write.go).
    - Review.v: submission, approval, rejection, withdrawal, policy, receipts
      and the review reads (review.go, review_policy.go, visibility_group.go).
    - Listing.v: PublishPlugin, DelistPlugin, LatestReviewForPlugin
      (listing.go).
    - Changes.v: an abstract machine of atomic row changes, of a few kinds,
      each with what it may do to a row; [changes K] is a run of changes of
      the kinds [K].
    - Operations.v: the refinement of every helper and statement into that
      machine, and weakest-precondition lemmas.
    - Sync.v: relation synchronization. Children.v: embedded children and
      their promotion.
    - Lifecycle.v: the operations as one type [Op], [run], [step] and [steps],
      and the invariants of all runs.
    - Decisions.v, Settlement.v, Outcomes.v: what each committed operation did.
    - Typing.v: the relation types as a type system of the catalog.
    - Enabled.v: conditions under which operations must commit.
    - Reads.v: the catalog predicate and the review queue.
    - Queries.v: the other SELECTs of repository/plugin/read.go and
      references.go: filters, order, pages, owner and caller grids, relations,
      tags, the levels of the dependency graph. Closure.v: that graph as
      reachability. Availability.v: unavailable dependencies, for the gate of
      the catalog and for the diagnostics. Grid.v: the listings against each
      other. CatalogService.v: the catalog side of service/plugin/service.go
      and install.go over these queries.
    - Objects.v: storage/immutable.go, oss.go, oss_immutable.go, artifactscope,
      and the freezing of an artifact (service/plugin/artifact.go).
    - Json.v: JSON values as the code reads and rewrites them. Documents.v:
      the documents of a package: their canonical form, the split of storage
      keys out of a submitted package and their way back
      (service/plugin/documents.go). VersionArtifacts.v: the freezing of all
      artifacts of a package (version_artifacts.go).
    - Editing.v: the editor of service/plugin/service.go and validation.go,
      create, update and delete as programs over repository, bucket and host;
      Saving.v: its theorems.
    - SkillTree.v: an uploaded archive rewritten (service/skill/rewrite.go) and
      unpacked into attachments and staged objects (service/plugin/
      skill_tree.go); Rewriting.v: what rewriting changes. SkillFiles.v: the
      files of a stored skill and its download (skill_artifact.go, the file
      reads of version_management.go). Importing.v: import.go, over the
      tables, the bucket and the parse tasks. Uploads.v, Imported.v: from an
      upload to its downloads. ImportRollback.v: imports that fail.
    - Administration.v: the administrator's surface (service/plugin/admin.go,
      admin_import.go): listing, detail, creation, edits, ratings, deletion and
      skill imports, over the parts above.
    - Submitting.v: what is frozen and submitted for review, and the publish
      button (service/plugin/review.go and listing.go); Submission.v: its
      theorem.
    - Service.v: the service layer's errors, callers and monad.
    - ReviewService.v: service/plugin/review.go and listing.go on reviews.
    - CardAction.v: the decision taken on a card (review.go of the service and
      card_action.go of the handler).
    - Auth.v: auth/resolver.go, cached_resolver.go, bot_resolver.go and
      middleware/auth.go, admin.go.
    - ReviewApi.v: api/handler/plugin, from the middleware to the service.
    - InstallAttempts.v: the table of installation attempts and the dispatch
      protocol (repository and service install_attempt.go).
    - Addresses.v: the address policy of the MCP probe, with the spellings of
      IPv4 hosts. Sse.v: the reader of server-sent events. Probe.v: the probe
      (service/probe.go) as a client over any network.
    - Scenario.v, ServiceScenario.v, CatalogScenario.v, EditorScenario.v,
      UploadScenario.v, ProbeScenario.v: a concrete host, bucket, codec, session
      and runs, and the witnesses of the theorems with hypotheses.
    - Zip.v: service/parse/zip.go. Parse.v: worker.go, frontmatter.go,
      failure.go, markdown/sanitize.go, what a job makes of an archive.
      ParseTasks.v: repo.go, service.go and the queue of worker.go,
      repository/skill/parse_task.go, and the import of a parse result.
    - Metrics.v, Flush.v: redis/client.go, service/metrics/flush_worker.go,
      repository/metrics/repo.go; the model and its theorems.

    ** The model of the database

    [Db] has one finite map per table, keyed by its primary key. A statement
    is a function on [Db]; before it runs, the environment [Env] may make it
    fail with any MySQL error, so every error path of every operation is
    covered. [transact] begins, runs, commits or rolls back, and classifies
    lock races; begin and commit may fail too. A commit that reports an error
    has not committed: an answer lost after the commit is not modelled here
    (it is for the bucket, the flush worker, the installation attempts and the
    parse tasks). Generated identifiers and the
    clock are streams read by a step counter. Unique keys the code relies on
    are enforced by the inserts; string comparison is exact (no collation).
    Transactions run one after the other: the row locks (FOR UPDATE) the code
    takes first are what serializes two transactions on a plugin, and a
    transaction that loses a lock race is one of the faults. Where the code
    inspects the number of affected rows, matched and changed rows agree.
    JSON documents are opaque strings; decoding them, hashing, and Unicode
    normalization are the parameters [Host] and [TextNorm], used without
    hypotheses. Version management and reference pinning are off, as
    config.go sets them by default. Tables used by statements outside
    transactions (installation attempts, parse tasks) are run by [run_sql]:
    a statement runs, fails, or takes effect while its answer is lost.

    ** The model of concurrency

    Above the repository nothing is atomic. In Service.v each repository call
    is preceded by any operations of other requests and may fail; the steps of
    the bucket (Objects.v), the session cache (Auth.v), the installation
    protocol (InstallAttempts.v) and the parse pipeline (ParseTasks.v) are
    interleaved with those of other requests, workers and crashes: a request
    is a machine that advances one call at a time, and the theorems quantify
    over all schedules.

    ** Theorems

    Lifecycle.v: along every sequence of operations with any faults, only a
    review (or an administrator's save) lists a plugin, one request per plugin
    is open, decisions are final, approved labels are unique, history is
    append-only, versions are numbered without gaps, and no open request is left
    on a deleted plugin. They follow
    from the kinds of changes each operation is proved to be made of.
    Typing.v: every live edge stays well typed, so the dependency graph is
    acyclic and two levels deep. Decisions.v, Settlement.v and Outcomes.v: the functional outcome of
    approval, rejection, withdrawal, submission, save, publication, takedown
    and deletion, and that a card event decides once. Enabled.v: without server
    faults an admissible submission, an approvable approval and the closing of
    an open request do commit. Sync.v: synchronization leaves exactly the
    submitted edges. Reads.v: who reads what, and paging. Closure.v: the
    graph query answers what is reachable, and under concurrent changes only
    what its caller may read. Availability.v, Grid.v, CatalogService.v: the
    catalog's gate, its diagnostics, its pages and the resolution of an
    installation agree with each other.
    Documents.v: stored keys are accounted for, and fetching and saving a
    package restores it. VersionArtifacts.v: what a save freezes stays.
    Saving.v: a tenant's save stores what was submitted, on the row they were
    shown, with exactly the relations submitted, under every interleaving; a
    failed one changes nothing, and no editor lists a plugin. Administration.v:
    an administrator's edit stores what was submitted and leaves the owner, the
    Space and the listing of the row as they were. SkillTree.v and
    Rewriting.v: a build cleans up after itself, and rewriting an archive
    changes only SKILL.md. Imported.v: an imported archive can be downloaded
    again, file by file, for as long as its row is kept; the archive is the
    object of the task the request named, which it consumed. ImportRollback.v: a
    failed import changes nothing, and its upload can be imported again.
    Submission.v: a submission stores the frozen form of what was submitted,
    for the plugin submitted, with the relations given or the live ones.
    Addresses.v, Sse.v, Probe.v: the probe reaches no address outside the
    policy, whatever the servers and resolvers answer; the policy is one of
    address ranges; the event reader ends, and reads back what was sent.
    ReviewService.v, CardAction.v, Auth.v, ReviewApi.v: from the HTTP request
    to the tables: who can decide, what a decision through the service does and
    cleans up, that a card decision is authentic, idempotent and logged, and
    that cached sessions are fresh. Objects.v: version objects are written once
    and a frozen artifact stays what was hashed. InstallAttempts.v: an
    installation is counted once and refused only for certain. Zip.v, Parse.v,
    ParseTasks.v: accepted entries stay inside the package, extraction and
    parsing are bounded and sanitized, a result is imported once per parse.
    Notify.v, Version.v, Model.v: card texts, the label order, review
    authority, name keys and the snapshot codec. Flush.v: write-back loses and
    duplicates nothing, and an undisturbed flush settles everything. Several
    files also exhibit, as theorems on concrete runs, where the code deviates
    from its comments or its intent.

    ** Fuel

    String functions recurse on the string, or on its length where a step
    removes at least one byte. The event loops of the probe take the number of
    bytes of the stream: Probe.v proves that they end and that it is enough.
    Redirects are followed at most ten times, as the client limits them. The loops of the flush worker take the number
    of rounds: the safety theorem holds for any, the settling theorem for more
    rounds than there are members, since each round removes one. The protocols
    are runs of any length.

    ** Not modelled

    Version management, visibility plans and reference pinning (off by
    default); imports of whole containers; the
    planning of an installation ahead of its dispatch; the MCP registry around
    the probe; request decoding and rendering; the legacy stores, migration
    tools and other glue. The archive format, YAML and the contract library
    (octo-plugin-lib) are parameters; what the code relies on of them are the
    classes [PackageLaws] and [LibLaws]. *)

From stdpp Require Export base tactics strings list gmap sorting.
From Stdlib Require Export ZArith Lia.

Declare Scope market_scope.
Delimit Scope market_scope with market.
Open Scope market_scope.

(** ** Results of fallible Go functions

    A Go function returning [(T, error)] is modelled by a value of
    [result E T]: [Ok v] for a nil error, [Error e] otherwise. *)
Inductive result (E A : Type) : Type :=
| Ok (a : A)
| Error (e : E).
Arguments Ok {E A} a.
Arguments Error {E A} e.

#[export] Instance result_ret {E} : MRet (result E) := λ A a, Ok a.
#[export] Instance result_bind {E} : MBind (result E) := λ A B f m,
  match m with Ok a => f a | Error e => Error e end.
#[export] Instance result_fmap {E} : FMap (result E) := λ A B f m,
  match m with Ok a => Ok (f a) | Error e => Error e end.

(** Apply [f] to the error of a failed result (Go's wrapping of an error). *)
Definition map_error {E F A} (f : E → F) (m : result E A) : result F A :=
  match m with Ok a => Ok a | Error e => Error (f e) end.

Definition is_ok {E A} (m : result E A) : bool :=
  match m with Ok _ => true | Error _ => false end.

#[export] Instance result_eq_dec {E A} `{EqDecision E, EqDecision A} :
  EqDecision (result E A).
Proof. solve_decision. Defined.

(** ** Statements on their own

    A statement outside a transaction runs, fails without an effect, or takes
    effect and its answer is lost. [bool]: whether it changed a row. *)
Inductive SqlFault := SqlOk | SqlLost | SqlAmbiguous.
#[export] Instance SqlFault_eq_dec : EqDecision SqlFault.
Proof. solve_decision. Defined.

Definition run_sql {T : Type} (f : SqlFault) (m : T → bool * T) (t : T) : option bool * T :=
  match f with
  | SqlOk => let '(b, t') := m t in (Some b, t')
  | SqlLost => (None, t)
  | SqlAmbiguous => (None, (m t).2)
  end.

(** ** Tactics *)

(** Split the guards of a Go body: every [if]/[match] on which a hypothesis
    about the returned value depends, discarding the impossible branches. *)
Ltac split_guard H :=
  lazymatch type of H with
  | context [match ?x with _ => _ end] =>
      let E := fresh "E" in destruct x eqn:E; simpl in H; try discriminate H
  end.

Ltac split_guards H := repeat (split_guard H); simplify_eq.

Ltac bool_facts :=
  repeat match goal with
  | H : false = true |- _ => discriminate H
  | H : true = false |- _ => discriminate H
  | H : _ && _ = true |- _ => apply andb_true_iff in H as [? ?]
  | H : _ || _ = false |- _ => apply orb_false_iff in H as [? ?]
  | H : negb _ = true |- _ => apply negb_true_iff in H
  | H : negb _ = false |- _ => apply negb_false_iff in H
  | H : bool_decide _ = true |- _ => apply bool_decide_eq_true in H
  | H : bool_decide _ = false |- _ => apply bool_decide_eq_false in H
  | H : true = _ |- _ => symmetry in H
  | H : false = _ |- _ => symmetry in H
  end.

Create HintDb market.
Create Rewrite HintDb market.

(** ** Lists *)

(** Go's [for _, x := range xs { acc = f(acc, x) }] with early return. *)
Fixpoint foldM {E A B} (f : B → A → result E B) (b : B) (l : list A) : result E B :=
  match l with
  | [] => Ok b
  | x :: l' => match f b x with Ok b' => foldM f b' l' | Error e => Error e end
  end.

Lemma foldM_invariant {E A B} (f : B → A → result E B) (I : B → Prop) l b b' :
  (∀ b x b'', x ∈ l → I b → f b x = Ok b'' → I b'') →
  I b → foldM f b l = Ok b' → I b'.
Proof.
  revert b. induction l as [|x l IH]; intros b Hstep Hb; simpl; [by intros [= <-]|].
  destruct (f b x) as [b''|] eqn:Hf; [|done]. intros H.
  apply (IH b''); [|by eapply Hstep; eauto; constructor|done].
  intros ????; apply Hstep; by constructor.
Qed.

(** The same with the elements processed so far. *)
Lemma foldM_history {E A B} (f : B → A → result E B) (I : B → list A → Prop) l b b' :
  (∀ b done x b'', x ∈ l → I b done → f b x = Ok b'' → I b'' (done ++ [x])) →
  I b [] → foldM f b l = Ok b' → I b' l.
Proof.
  intros Hstep Hb. assert (∀ k b done, (∀ x, x ∈ k → x ∈ l) → I b done →
    foldM f b k = Ok b' → I b' (done ++ k)) as Hgen.
  { clear b Hb. induction k as [|x k IH]; intros b done Hk Hb; simpl.
    - intros [= <-]. by rewrite app_nil_r.
    - destruct (f b x) as [b''|] eqn:Hf; [|done]. intros H.
      change (x :: k) with ([x] ++ k). rewrite (assoc_L (++)). eapply IH; [|eapply Hstep; eauto|done].
      + intros y Hy. apply Hk. by right.
      + apply Hk. by left. }
  intros H. by apply (Hgen l b []).
Qed.

Definition mem `{EqDecision A} (x : A) (l : list A) : bool := bool_decide (x ∈ l).

Lemma mem_true `{EqDecision A} (x : A) l : mem x l = true ↔ x ∈ l.
Proof. apply bool_decide_eq_true. Qed.
Lemma mem_false `{EqDecision A} (x : A) l : mem x l = false ↔ x ∉ l.
Proof. apply bool_decide_eq_false. Qed.
#[export] Hint Rewrite @mem_true @mem_false : market.

(** Keep the first occurrence of every element. *)
Fixpoint nub `{EqDecision A} (seen l : list A) : list A :=
  match l with
  | [] => []
  | x :: l' => if mem x seen then nub seen l' else x :: nub (x :: seen) l'
  end.

Lemma elem_of_nub `{EqDecision A} (l seen : list A) x :
  x ∈ nub seen l ↔ x ∈ l ∧ x ∉ seen.
Proof.
  revert seen. induction l as [|y l IH]; intros seen; simpl; [set_solver|].
  destruct (mem y seen) eqn:E; autorewrite with market in E.
  - rewrite IH. set_solver.
  - rewrite !elem_of_cons, IH. destruct (decide (x = y)); set_solver.
Qed.

Lemma NoDup_nub `{EqDecision A} (l seen : list A) : NoDup (nub seen l).
Proof.
  revert seen. induction l as [|y l IH]; intros seen; simpl; [constructor|].
  destruct (mem y seen); [done|]. constructor; [|done].
  rewrite elem_of_nub. set_solver.
Qed.

(** Filters that keep everything. *)
Lemma filter_all {A} (P : A → Prop) `{!∀ x, Decision (P x)} (l : list A) :
  (∀ x, x ∈ l → P x) → filter P l = l.
Proof.
  induction l as [|y l IH]; intros Hall; [done|].
  rewrite filter_cons_True by (apply Hall; by left). rewrite IH; [done|].
  intros x Hx. apply Hall. by right.
Qed.

Lemma filter_length_eq {A} (P : A → Prop) `{!∀ x, Decision (P x)} (l : list A) :
  length (filter P l) = length l ↔ ∀ x, x ∈ l → P x.
Proof.
  split; [|intros Hall; by rewrite filter_all].
  intros Hl x Hx. destruct (decide (P x)) as [|Hn]; [done|].
  pose proof (length_filter_lt P l x Hx Hn). lia.
Qed.
