(* ===== verification/GoStrings.v ===== *)
(** * Go strings, paths and numbers

    The part of the Go standard library the modelled code calls: package
    [strings] on byte strings, [strconv.ParseUint] and the lexical path
    functions of [path] and [path/filepath] (on Unix, where the two agree).
    A Go [string] is a byte string, modelled by [string]. *)

From S2P Require Import Prelude.
From Stdlib Require Import Ascii.
Local Open Scope string_scope.

Module Go.

(** ** Bytes *)

Definition byte_of (n : nat) : ascii := ascii_of_nat n.
Definition is_digit (c : ascii) : bool :=
  ((48 <=? nat_of_ascii c) && (nat_of_ascii c <=? 57))%nat.
Definition lower (c : ascii) : ascii :=
  if ((65 <=? nat_of_ascii c) && (nat_of_ascii c <=? 90))%nat
  then ascii_of_nat (nat_of_ascii c + 32) else c.
Definition is_letter (c : ascii) : bool :=
  let n := nat_of_ascii c in
  (((65 <=? n) && (n <=? 90)) || ((97 <=? n) && (n <=? 122)))%nat.

Fixpoint of_bytes (l : list nat) : string :=
  match l with [] => "" | n :: l' => String (ascii_of_nat n) (of_bytes l') end.

(** ** [strings.HasPrefix], [Contains], [Cut], [Split], [ReplaceAll], [Join] *)

Fixpoint HasPrefix (s p : string) : bool :=
  match p, s with
  | "", _ => true
  | String a p', String b s' => Ascii.eqb a b && HasPrefix s' p'
  | String _ _, "" => false
  end.

Fixpoint drop (n : nat) (s : string) : string :=
  match n, s with
  | 0, _ => s
  | S n', String _ s' => drop n' s'
  | S _, "" => ""
  end.

Definition HasSuffix (s p : string) : bool :=
  (String.length p <=? String.length s)%nat
  && String.eqb (drop (String.length s - String.length p) s) p.

(** [strings.CutPrefix]: the remainder after [p], when [p] is a prefix. *)
Definition CutPrefix (s p : string) : option string :=
  if HasPrefix s p then Some (drop (String.length p) s) else None.

Fixpoint Contains (s sub : string) : bool :=
  HasPrefix s sub ||
  match s with "" => false | String _ s' => Contains s' sub end.

Fixpoint ContainsByte (s : string) (c : ascii) : bool :=
  match s with "" => false | String a s' => Ascii.eqb a c || ContainsByte s' c end.

(** [strings.ContainsAny] for a set of ASCII bytes. *)
Fixpoint ContainsAny (s : string) (cs : list ascii) : bool :=
  match s with "" => false | String a s' => mem a cs || ContainsAny s' cs end.

Fixpoint all_bytes (f : ascii → bool) (s : string) : bool :=
  match s with "" => true | String a s' => f a && all_bytes f s' end.

(** [strings.Split(s, sep)] for a one-byte separator: never empty. *)
Fixpoint Split (s : string) (sep : ascii) : list string :=
  match s with
  | "" => [""]
  | String a s' =>
      if Ascii.eqb a sep then "" :: Split s' sep
      else match Split s' sep with
           | h :: t => String a h :: t
           | [] => [String a ""]
           end
  end.

(** [strings.Cut] and [strings.SplitN(s, sep, 2)] for a one-byte separator. *)
Fixpoint Cut (s : string) (sep : ascii) : option (string * string) :=
  match s with
  | "" => None
  | String a s' =>
      if Ascii.eqb a sep then Some ("", s')
      else match Cut s' sep with
           | Some (h, t) => Some (String a h, t)
           | None => None
           end
  end.

Fixpoint ReplaceByte (s : string) (old new : ascii) : string :=
  match s with
  | "" => ""
  | String a s' => String (if Ascii.eqb a old then new else a) (ReplaceByte s' old new)
  end.

Fixpoint Join (l : list string) (sep : string) : string :=
  match l with
  | [] => ""
  | [x] => x
  | x :: l' => x ++ sep ++ Join l' sep
  end.

(** ** [strings.TrimSpace]

    Go trims every leading and trailing rune with the Unicode property White
    Space. In UTF-8 these runes are exactly the byte sequences below. *)
Definition space_runes : list string :=
  [of_bytes [9]; of_bytes [10]; of_bytes [11]; of_bytes [12]; of_bytes [13];
   of_bytes [32]; of_bytes [194;133]; of_bytes [194;160]; of_bytes [225;154;128];
   of_bytes [226;128;128]; of_bytes [226;128;129]; of_bytes [226;128;130];
   of_bytes [226;128;131]; of_bytes [226;128;132]; of_bytes [226;128;133];
   of_bytes [226;128;134]; of_bytes [226;128;135]; of_bytes [226;128;136];
   of_bytes [226;128;137]; of_bytes [226;128;138]; of_bytes [226;128;168];
   of_bytes [226;128;169]; of_bytes [226;128;175]; of_bytes [226;129;159];
   of_bytes [227;128;128]].

Definition leading_space (s : string) : nat :=
  match find (HasPrefix s) space_runes with
  | Some p => String.length p
  | None => 0
  end.

(** At most one byte is left to trim per unit of fuel, so the length is
    enough fuel. *)
Fixpoint trim_left (fuel : nat) (s : string) : string :=
  match fuel with
  | 0 => s
  | S f => match leading_space s with
           | 0 => s
           | n => trim_left f (drop n s)
           end
  end.

Fixpoint trim_right (s : string) : string :=
  match s with
  | "" => ""
  | String a s' =>
      let t := String a (trim_right s') in
      if mem t space_runes then "" else t
  end.

Definition TrimSpace (s : string) : string :=
  trim_left (String.length s) (trim_right s).

(** ** [strings.EqualFold] against an ASCII pattern

    Under Unicode simple folding the only non-ASCII runes that fold to an
    ASCII letter are U+017F (long s, bytes C5 BF) and U+212A (Kelvin sign,
    bytes E2 84 AA). [pat] is given in lower case. *)
Fixpoint EqualFold (s pat : string) : bool :=
  match pat with
  | "" => match s with "" => true | _ => false end
  | String p pat' =>
      match s with
      | "" => false
      | String a s' =>
          (if Ascii.eqb (lower a) p then EqualFold s' pat' else false)
          || (if Ascii.eqb p "s" && HasPrefix s (of_bytes [197;191])
              then match s' with String _ s2 => EqualFold s2 pat' | _ => false end else false)
          || (if Ascii.eqb p "k" && HasPrefix s (of_bytes [226;132;170])
              then match s' with
                   | String _ (String _ s3) => EqualFold s3 pat'
                   | _ => false
                   end
              else false)
      end
  end.

(** ** [utf8.RuneCountInString]

    The size of the first rune: a well-formed UTF-8 sequence, or one byte of
    a malformed one (which Go counts as one replacement rune). *)
Definition in_range (lo hi : nat) (c : ascii) : bool :=
  ((lo <=? nat_of_ascii c) && (nat_of_ascii c <=? hi))%nat.
Definition is_cont : ascii → bool := in_range 128 191.

Definition rune_size (s : string) : nat :=
  match s with
  | String b0 (String b1 s2) =>
      if in_range 194 223 b0 then if is_cont b1 then 2 else 1
      else if in_range 224 239 b0 then
        match s2 with
        | String b2 _ =>
            let lo := if in_range 224 224 b0 then 160 else 128 in
            let hi := if in_range 237 237 b0 then 159 else 191 in
            if in_range lo hi b1 && is_cont b2 then 3 else 1
        | "" => 1
        end
      else if in_range 240 244 b0 then
        match s2 with
        | String b2 (String b3 _) =>
            let lo := if in_range 240 240 b0 then 144 else 128 in
            let hi := if in_range 244 244 b0 then 143 else 191 in
            if in_range lo hi b1 && is_cont b2 && is_cont b3 then 4 else 1
        | _ => 1
        end
      else 1
  | _ => 1
  end.

(** Every rune takes at least one byte, so the length is enough fuel. *)
Fixpoint rune_count (fuel : nat) (s : string) : nat :=
  match fuel, s with
  | _, "" => 0
  | 0, _ => 0
  | S f, _ => S (rune_count f (drop (rune_size s) s))
  end.

Definition RuneCountInString (s : string) : nat := rune_count (String.length s) s.

(** [utf8.Valid]: every rune is an ASCII byte or a well-formed sequence. *)
Fixpoint valid_runes (fuel : nat) (s : string) : bool :=
  match fuel, s with
  | _, "" => true
  | 0, _ => false
  | S f, String b0 _ =>
      ((nat_of_ascii b0 <=? 127)%nat || (2 <=? rune_size s)%nat)
      && valid_runes f (drop (rune_size s) s)
  end.

Definition Valid (s : string) : bool := valid_runes (String.length s) s.

(** ** [[]rune(s)] and back

    Each rune is kept as the bytes [string(r)] encodes it with: the sequence it
    was read from, or U+FFFD for a malformed byte. *)
Fixpoint take (n : nat) (s : string) : string :=
  match n, s with
  | S m, String a s' => String a (take m s')
  | _, _ => ""
  end.

(** ** Lines *)

Definition lf : ascii := ascii_of_nat 10.
Definition cr : ascii := ascii_of_nat 13.

(** [bufio.ScanLines] drops the carriage return of a line. *)
Definition dropCR (line : string) : string :=
  if HasSuffix line (String cr "") then take (String.length line - 1) line else line.

Definition RuneError : string := of_bytes [239;191;189].

Definition well_formed (s : string) : bool :=
  match s with
  | "" => false
  | String b0 _ => (nat_of_ascii b0 <=? 127)%nat || (2 <=? rune_size s)%nat
  end.

Definition first_rune (s : string) : string :=
  if well_formed s then take (rune_size s) s else RuneError.

Fixpoint runes_of (fuel : nat) (s : string) : list string :=
  match fuel, s with
  | _, "" => []
  | 0, _ => []
  | S f, _ => first_rune s :: runes_of f (drop (rune_size s) s)
  end.

Definition Runes (s : string) : list string := runes_of (String.length s) s.

Definition of_runes (l : list string) : string := foldr String.append "" l.

(** [strings.ToLower], as far as ASCII bytes of the result go: U+0130 and
    U+212A are the only other runes with an ASCII lower case, and the lower case
    of any further rune, left as it is here, has no ASCII byte. *)
Definition lower_rune (r : string) : string :=
  match r with
  | String c "" => String (lower c) ""
  | _ => if String.eqb r (of_bytes [196;176]) then "i"
         else if String.eqb r (of_bytes [226;132;170]) then "k" else r
  end.
Definition ToLower (s : string) : string := of_runes (map lower_rune (Runes s)).

(** [strings.ToValidUTF8(s, "")] *)
Fixpoint drop_invalid (fuel : nat) (s : string) : string :=
  match fuel, s with
  | _, "" => ""
  | 0, _ => ""
  | S f, _ => (if well_formed s then take (rune_size s) s else "")
              ++ drop_invalid f (drop (rune_size s) s)
  end.
Definition ToValidUTF8 (s : string) : string := drop_invalid (String.length s) s.

(** ** [strconv.ParseInt(s, 10, 64)] and [strconv.ParseUint(s, 10, 64)] *)

Definition digit_value (c : ascii) : Z := Z.of_nat (nat_of_ascii c) - 48.
Definition max_uint64 : Z := 2 ^ 64 - 1.

Fixpoint parse_digits (acc : Z) (s : string) : option Z :=
  match s with
  | "" => Some acc
  | String c s' =>
      if is_digit c then
        let acc' := (acc * 10 + digit_value c)%Z in
        if (acc' <=? max_uint64)%Z then parse_digits acc' s' else None
      else None
  end.

Definition ParseUint (s : string) : option Z :=
  match s with "" => None | _ => parse_digits 0 s end.

Definition max_int64 : Z := 2 ^ 63 - 1.

(** An optional sign, then decimal digits; out of range is an error. *)
Definition ParseInt (s : string) : option Z :=
  let '(neg, digits) := match s with
    | String c s' => if Ascii.eqb c "-" then (true, s')
                     else if Ascii.eqb c "+" then (false, s') else (false, s)
    | "" => (false, s)
    end in
  match ParseUint digits with
  | Some n => if (neg : bool) then (if (n <=? max_int64 + 1)%Z then Some (- n)%Z else None)
              else (if (n <=? max_int64)%Z then Some n else None)
  | None => None
  end.

(** Wrap-around of a result in [int64]. *)
Definition int64 (z : Z) : Z := ((z + 2 ^ 63) mod 2 ^ 64 - 2 ^ 63)%Z.

(** ** [path.Clean], [filepath.Base], [filepath.Dir], [filepath.IsAbs] (Unix) *)

Definition slash : ascii := "/".

(** Process one path element: drop empty and "." elements, resolve ".."
    against the elements kept so far ([acc], innermost first). *)
Definition clean_elem (rooted : bool) (acc : list string) (e : string) : list string :=
  if String.eqb e "" || String.eqb e "." then acc
  else if String.eqb e ".." then
    match acc with
    | [] => if rooted then [] else [".."]
    | h :: t => if String.eqb h ".." then ".." :: acc else t
    end
  else e :: acc.

Definition IsAbs (p : string) : bool := HasPrefix p "/".

Definition clean_elems (p : string) : list string :=
  reverse (foldl (clean_elem (IsAbs p)) [] (Split p slash)).

Definition Clean (p : string) : string :=
  let body := Join (clean_elems p) "/" in
  if IsAbs p then "/" ++ body
  else if String.eqb body "" then "." else body.

(** Strip trailing slashes. *)
Fixpoint trim_slashes (s : string) : string :=
  match s with
  | "" => ""
  | String a s' =>
      let t := trim_slashes s' in
      if Ascii.eqb a slash && String.eqb t "" then "" else String a t
  end.

Definition Base (p : string) : string :=
  if String.eqb p "" then "."
  else match last (Split (trim_slashes p) slash) with
       | Some b => if String.eqb b "" then "/" else b
       | None => "/"
       end.

(** Everything up to and including the last slash. *)
Fixpoint upto_last_slash (s : string) : string :=
  match s with
  | "" => ""
  | String a s' =>
      if ContainsByte s' slash then String a (upto_last_slash s')
      else if Ascii.eqb a slash then "/" else ""
  end.

Definition Dir (p : string) : string := Clean (upto_last_slash p).

(** ** Lemmas *)

Lemma drop_length n s : String.length (drop n s) = (String.length s - n)%nat.
Proof. revert s. induction n; intros [|a s]; simpl; try done. Qed.

Lemma trim_right_idem s : trim_right (trim_right s) = trim_right s.
Proof.
  induction s as [|a s IH]; [done|]. simpl.
  destruct (mem (String a (trim_right s)) space_runes) eqn:E; [done|].
  simpl. by rewrite IH, E.
Qed.

(** A string with no trailing space has none after dropping a prefix. *)
Lemma trim_right_drop n s : trim_right s = s → trim_right (drop n s) = drop n s.
Proof.
  revert s. induction n as [|n IH]; intros [|a s]; try done.
  simpl. intros H. apply IH.
  destruct (mem (String a (trim_right s)) space_runes); by simplify_eq.
Qed.

Lemma trim_left_trim_right f s : trim_right s = s → trim_right (trim_left f s) = trim_left f s.
Proof.
  revert s. induction f as [|f IH]; intros s H; [done|]. simpl.
  destruct (leading_space s) as [|n]; [done|]. by apply IH, (trim_right_drop (S n)).
Qed.

Lemma leading_space_trim_left f s :
  (String.length s ≤ f)%nat → leading_space (trim_left f s) = 0%nat.
Proof.
  revert s. induction f as [|f IH]; intros s H.
  - destruct s; [done|simpl in H; lia].
  - simpl. destruct (leading_space s) as [|n] eqn:E; [done|].
    apply IH. pose proof (drop_length (S n) s) as Hd. simpl in Hd. rewrite Hd. lia.
Qed.

Lemma trim_right_length s : (String.length (trim_right s) ≤ String.length s)%nat.
Proof.
  induction s as [|a s IH]; [done|]. simpl.
  case_match; simpl; lia.
Qed.

Lemma TrimSpace_idem s : TrimSpace (TrimSpace s) = TrimSpace s.
Proof.
  unfold TrimSpace at 1.
  assert (trim_right (TrimSpace s) = TrimSpace s) as Hr.
  { apply trim_left_trim_right, trim_right_idem. }
  rewrite Hr.
  assert (leading_space (TrimSpace s) = 0%nat) as Hl.
  { apply leading_space_trim_left, trim_right_length. }
  destruct (String.length (TrimSpace s)); [done|]. simpl. by rewrite Hl.
Qed.

Lemma parse_digits_bounds s acc n :
  (0 ≤ acc ≤ max_uint64)%Z → parse_digits acc s = Some n → (acc ≤ n ≤ max_uint64)%Z.
Proof.
  revert acc. induction s as [|c s IH]; intros acc Hacc; simpl; [intros [= <-]; lia|].
  destruct (is_digit c) eqn:Hd; [|done].
  destruct (_ <=? max_uint64)%Z eqn:E; [|done]. apply Z.leb_le in E.
  unfold is_digit in Hd. bool_facts.
  rewrite Nat.leb_le in *. unfold digit_value in *.
  intros Hp%IH; lia.
Qed.

Lemma int64_small z : (- 2 ^ 63 ≤ z < 2 ^ 63)%Z → int64 z = z.
Proof. intros H. unfold int64. rewrite Z.mod_small; lia. Qed.

Lemma ParseUint_bounds s n : ParseUint s = Some n → (0 ≤ n ≤ max_uint64)%Z.
Proof.
  destruct s; [done|]. apply parse_digits_bounds. unfold max_uint64. lia.
Qed.

Lemma ParseInt_bounds s n : ParseInt s = Some n → (- 2 ^ 63 ≤ n < 2 ^ 63)%Z.
Proof.
  unfold ParseInt. case_match. destruct (ParseUint s0) as [m|] eqn:E; [|done].
  apply ParseUint_bounds in E as [? _]. unfold max_int64.
  repeat case_match; try done; intros [= <-]; rewrite Z.leb_le in *; lia.
Qed.

(** ** Runes *)

(** A sequence [c] read as one rune, whatever follows it. *)
Definition rune_chunk (c : string) : Prop :=
  c ≠ "" ∧ ∀ rest, rune_size (c ++ rest) = String.length c.

Lemma append_cons a s t : String a s ++ t = String a (s ++ t).
Proof. done. Qed.

Lemma drop_append c t : drop (String.length c) (c ++ t) = t.
Proof. by induction c. Qed.

Lemma append_length s t : String.length (s ++ t) = (String.length s + String.length t)%nat.
Proof. induction s as [|a s IH]; [done|]. rewrite append_cons. simpl. by rewrite IH. Qed.

Lemma append_nil_r s : s ++ "" = s.
Proof. induction s as [|c s IH]; [done|]. by rewrite append_cons, IH. Qed.

Lemma append_assoc s t u : (s ++ t) ++ u = s ++ (t ++ u).
Proof. induction s as [|a s IH]; [done|]. by rewrite !append_cons, IH. Qed.

Lemma rune_size_bounds s : (1 ≤ rune_size s ≤ 4)%nat.
Proof. unfold rune_size. repeat case_match; lia. Qed.



Lemma rune_size_ascii b s : (nat_of_ascii b <=? 127)%nat = true → rune_size (String b s) = 1%nat.
Proof.
  intros Hb%Nat.leb_le. unfold rune_size, in_range.
  assert ((194 <=? nat_of_ascii b)%nat = false) as -> by (apply Nat.leb_gt; lia).
  assert ((224 <=? nat_of_ascii b)%nat = false) as -> by (apply Nat.leb_gt; lia).
  assert ((240 <=? nat_of_ascii b)%nat = false) as -> by (apply Nat.leb_gt; lia).
  by destruct s.
Qed.

(** A sequence of at least two bytes is recognized from those bytes alone. *)
Lemma rune_size_take s n rest :
  rune_size s = S (S n) → rune_size (take (S (S n)) s ++ rest) = S (S n).
Proof.
  unfold rune_size.
  destruct s as [|b0 [|b1 s]]; [done..|].
  destruct (in_range 194 223 b0) eqn:E1.
  { destruct (is_cont b1) eqn:E; [|done]. intros [= <-]. cbn [take]; rewrite !append_cons; cbn -[in_range is_cont]. by rewrite E1, E. }
  destruct (in_range 224 239 b0) eqn:E2.
  { destruct s as [|b2 s]; [done|]. destruct (_ && _) eqn:E; [|done].
    intros [= <-]. cbn [take]; rewrite !append_cons; cbn -[in_range is_cont]. by rewrite E1, E2, E. }
  destruct (in_range 240 244 b0) eqn:E3; [|done].
  destruct s as [|b2 [|b3 s]]; [done..|]. destruct (_ && _) eqn:E; [|done].
  intros [= <-]. cbn [take]; rewrite !append_cons; cbn -[in_range is_cont]. by rewrite E1, E2, E3, E.
Qed.

Lemma rune_size_length s : s ≠ "" → (rune_size s ≤ String.length s)%nat.
Proof.
  intros Hs. unfold rune_size. destruct s as [|b0 [|b1 [|b2 [|b3 s]]]]; [done|..];
    simpl; repeat case_match; lia.
Qed.

Lemma take_length n s : (n ≤ String.length s)%nat → String.length (take n s) = n.
Proof. revert s. induction n; intros [|a s]; simpl; try lia. intros H. rewrite IHn; lia. Qed.

Lemma take_short n s : (String.length (take n s) < n)%nat → take n s = s.
Proof.
  revert s. induction n as [|n IH]; intros s Hl; [lia|]. destruct s as [|c s]; [done|]. simpl in *.
  rewrite IH; [done|lia].
Qed.
Lemma take_drop n s : take n s ++ drop n s = s.
Proof. revert s. induction n; intros [|a s]; simpl; try done.
  by rewrite append_cons, IHn. Qed.

Lemma well_formed_chunk s : well_formed s = true → rune_chunk (take (rune_size s) s).
Proof.
  intros Hw. destruct s as [|b s]; [done|]. unfold well_formed in Hw.
  pose proof (rune_size_length (String b s) ltac:(done)) as Hl.
  split.
  - pose proof (rune_size_bounds (String b s)). destruct (rune_size (String b s)); [lia|done].
  - intros rest. rewrite take_length by done.
    destruct (rune_size (String b s)) as [|[|n]] eqn:E.
    + pose proof (rune_size_bounds (String b s)). lia.
    + apply orb_true_iff in Hw as [Hb|?]; [|done]. by apply rune_size_ascii.
    + by apply rune_size_take.
Qed.

Lemma first_rune_chunk s : rune_chunk (first_rune s).
Proof. unfold first_rune. destruct (well_formed s) eqn:E; [by apply well_formed_chunk|]. split; [done|]. by intros. Qed.

Lemma runes_of_chunks f s : Forall rune_chunk (runes_of f s).
Proof.
  revert s. induction f; intros s; simpl; destruct s; constructor; auto using first_rune_chunk.
Qed.

(** Enough fuel is enough. *)
Lemma rune_count_fuel f s : (String.length s ≤ f)%nat → rune_count f s = RuneCountInString s.
Proof.
  unfold RuneCountInString. remember (String.length s) as n eqn:Hn.
  revert s f Hn. induction n as [n IH] using lt_wf_ind. intros s f -> Hf.
  destruct s as [|b s]; [by destruct f|]. destruct f as [|f]; [simpl in Hf; lia|].
  cbn [rune_count String.length]. f_equal.
  pose proof (rune_size_bounds (String b s)) as Hk. revert Hk.
  generalize (rune_size (String b s)). intros k Hk.
  pose proof (drop_length k (String b s)) as Hd. cbn [String.length] in *.
  rewrite (IH (String.length (drop k (String b s))) ltac:(lia) _ f eq_refl) by lia.
  symmetry. apply IH; lia.
Qed.

Lemma rune_count_step s : s ≠ "" → RuneCountInString s = S (RuneCountInString (drop (rune_size s) s)).
Proof.
  intros Hs. destruct s as [|b s]; [done|]. unfold RuneCountInString at 1. simpl String.length.
  cbn [rune_count]. f_equal. apply rune_count_fuel.
  pose proof (rune_size_bounds (String b s)) as Hk. revert Hk.
  generalize (rune_size (String b s)). intros k Hk.
  pose proof (drop_length k (String b s)). cbn [String.length] in *. lia.
Qed.

Lemma runes_of_length f s : List.length (runes_of f s) = rune_count f s.
Proof. revert s. induction f; intros [|b s]; simpl; try done. by rewrite IHf. Qed.

Lemma Runes_length s : List.length (Runes s) = RuneCountInString s.
Proof. apply runes_of_length. Qed.

(** Re-encoded runes are read back one by one. *)
Lemma rune_count_chunks l t :
  Forall rune_chunk l →
  RuneCountInString (of_runes l ++ t) = (List.length l + RuneCountInString t)%nat.
Proof.
  induction 1 as [|c l [Hne Hc] _ IH]; [done|]. simpl.
  rewrite append_assoc, rune_count_step.
  - rewrite Hc, drop_append, IH. done.
  - by destruct c.
Qed.

Lemma take_append k a b : (k ≤ String.length a)%nat → take k (a ++ b) = take k a.
Proof.
  revert a. induction k as [|k IH]; intros [|c a] H; try done; [simpl in H; lia|].
  rewrite append_cons. simpl in *. rewrite IH by lia. done.
Qed.

(** The encoding of a rune is read back as that rune. *)
Definition encoded (c : string) : Prop :=
  rune_chunk c ∧ ∀ rest, well_formed (c ++ rest) = true.

Lemma first_rune_encoded s : encoded (first_rune s).
Proof.
  unfold first_rune. destruct (well_formed s) eqn:Hw; [|by split; [split|]].
  pose proof (well_formed_chunk s Hw) as [Hne Hc]. split; [done|]. intros rest.
  specialize (Hc rest). rewrite take_length in Hc.
  2:{ apply rune_size_length. by intros ->. }
  destruct s as [|b s]; [done|]. unfold well_formed in Hw.
  pose proof (rune_size_bounds (String b s)) as Hb.
  destruct (rune_size (String b s)) as [|n] eqn:E; [lia|].
  simpl take in *. rewrite append_cons in *. unfold well_formed. by rewrite Hc.
Qed.

Lemma runes_of_fuel f s : (String.length s ≤ f)%nat → runes_of f s = Runes s.
Proof.
  unfold Runes. remember (String.length s) as n eqn:Hn.
  revert s f Hn. induction n as [n IH] using lt_wf_ind. intros s f -> Hf.
  destruct s as [|b s]; [by destruct f|]. destruct f as [|f]; [simpl in Hf; lia|].
  cbn [runes_of String.length]. f_equal.
  pose proof (rune_size_bounds (String b s)) as Hk. revert Hk.
  generalize (rune_size (String b s)). intros k Hk.
  pose proof (drop_length k (String b s)) as Hd. cbn [String.length] in *.
  rewrite (IH (String.length (drop k (String b s))) ltac:(lia) _ f eq_refl) by lia.
  symmetry. apply IH; lia.
Qed.

Lemma Runes_step s : s ≠ "" → Runes s = first_rune s :: Runes (drop (rune_size s) s).
Proof.
  intros Hs. destruct s as [|b s]; [done|]. unfold Runes at 1. simpl String.length.
  cbn [runes_of]. f_equal. apply runes_of_fuel.
  pose proof (rune_size_bounds (String b s)) as Hk. revert Hk.
  generalize (rune_size (String b s)). intros k Hk.
  pose proof (drop_length k (String b s)). cbn [String.length] in *. lia.
Qed.

Lemma Runes_of_runes l : Forall encoded l → Runes (of_runes l) = l.
Proof.
  induction 1 as [|c l [[Hne Hc] Hw] _ IH]; [done|]. simpl. rewrite Runes_step by (by destruct c).
  unfold first_rune. rewrite Hw, Hc, drop_append, IH. f_equal.
  rewrite take_append by done. clear. induction c as [|a c IH]; [done|]. simpl. by rewrite IH.
Qed.

Lemma Runes_encoded s : Forall encoded (Runes s).
Proof.
  unfold Runes. generalize (String.length s) as f. intros f. revert s.
  induction f; intros s; simpl; destruct s; constructor; auto using first_rune_encoded.
Qed.

(** Concatenation can only merge bytes into fewer runes. *)
Fixpoint conts (j : nat) (s : string) : bool :=
  match j, s with
  | 0, _ => true
  | S j', String b s' => is_cont b && conts j' s'
  | _, _ => false
  end.

Lemma in_range_sub lo hi lo' hi' b :
  (lo' <= lo)%nat → (hi <= hi')%nat → in_range lo hi b = true → in_range lo' hi' b = true.
Proof. unfold in_range. rewrite !andb_true_iff, !Nat.leb_le. lia. Qed.

Lemma rune_size_conts s : conts (rune_size s - 1) (drop 1 s) = true.
Proof.
  unfold rune_size, is_cont.
  repeat (case_match; try done); bool_facts; cbn [drop conts Nat.sub]; unfold is_cont;
    rewrite ?andb_true_r, ?andb_true_iff; repeat split; try done;
    (eapply in_range_sub; [..|eassumption]; simpl; lia).
Qed.

Lemma conts_append a b j :
  (String.length a ≤ j)%nat → conts j (a ++ b) = true → conts (j - String.length a) b = true.
Proof.
  revert j. induction a as [|c a IH]; intros j Hj.
  - by rewrite Nat.sub_0_r.
  - destruct j as [|j]; simpl in Hj; [lia|]. rewrite append_cons. simpl.
    intros [_ H]%andb_true_iff. apply IH; [lia|done].
Qed.

Lemma rune_count_conts j b :
  conts j b = true → RuneCountInString b = (j + RuneCountInString (drop j b))%nat.
Proof.
  revert b. induction j as [|j IH]; intros b; [done|]. destruct b as [|c b]; [done|].
  simpl conts. intros [Hc Hb]%andb_true_iff. rewrite rune_count_step by done.
  assert (rune_size (String c b) = 1%nat) as ->.
  { unfold rune_size. unfold is_cont, in_range in Hc. apply andb_true_iff in Hc as [_ Hc%Nat.leb_le].
    unfold in_range.
    assert ((194 <=? nat_of_ascii c)%nat = false) as -> by (apply Nat.leb_gt; lia).
    assert ((224 <=? nat_of_ascii c)%nat = false) as -> by (apply Nat.leb_gt; lia).
    assert ((240 <=? nat_of_ascii c)%nat = false) as -> by (apply Nat.leb_gt; lia).
    by destruct b. }
  simpl drop at 1. rewrite (IH b Hb). done.
Qed.

Lemma drop_append_le k a b : (k ≤ String.length a)%nat → drop k (a ++ b) = drop k a ++ b.
Proof.
  revert a. induction k as [|k IH]; intros [|c a] H; try done; [simpl in H; lia|].
  rewrite append_cons. simpl in *. apply IH. lia.
Qed.

Lemma drop_append_ge k a b :
  (String.length a ≤ k)%nat → drop k (a ++ b) = drop (k - String.length a) b.
Proof.
  revert k. induction a as [|c a IH]; intros k Hk; [by rewrite Nat.sub_0_r|].
  destruct k as [|k]; simpl in Hk; [lia|]. rewrite append_cons. simpl. apply IH. lia.
Qed.

(** The first rune of [a ++ b], when it lies in [a], is the first rune of [a]. *)
Lemma rune_size_append a b :
  a ≠ "" → (rune_size (a ++ b) ≤ String.length a)%nat → rune_size a = rune_size (a ++ b).
Proof.
  intros Ha Hk. pose proof (rune_size_bounds a). pose proof (rune_size_bounds (a ++ b)).
  destruct (rune_size (a ++ b)) as [|[|n]] eqn:E; [lia| |].
  - destruct (rune_size a) as [|[|n]] eqn:Ea; [lia|done|].
    pose proof (rune_size_take _ _ (drop (S (S n)) a ++ b) Ea) as Hr.
    rewrite <-append_assoc, take_drop in Hr. lia.
  - pose proof (rune_size_take _ _ (drop (S (S n)) a) E) as Hr.
    by rewrite (take_append _ _ _ Hk), take_drop in Hr.
Qed.

Lemma rune_count_append a b :
  (RuneCountInString (a ++ b) ≤ RuneCountInString a + RuneCountInString b)%nat.
Proof.
  remember (String.length a) as n eqn:Hn. revert a Hn.
  induction n as [n IH] using lt_wf_ind. intros a ->.
  destruct (decide (a = "")) as [->|Ha]; [done|].
  rewrite (rune_count_step a) by done.
  rewrite (rune_count_step (a ++ b)) by (by destruct a).
  pose proof (rune_size_bounds (a ++ b)) as Hb. pose proof (rune_size_conts (a ++ b)) as Hc.
  destruct (decide (rune_size (a ++ b) ≤ String.length a)%nat) as [Hk|Hk].
  - rewrite (rune_size_append a b) by done. rewrite drop_append_le by done.
    pose proof (drop_length (rune_size (a ++ b)) a).
    pose proof (IH (String.length (drop (rune_size (a ++ b)) a)) ltac:(lia) _ eq_refl). lia.
  - rewrite drop_append_ge by lia.
    destruct a as [|c a]; [done|]. rewrite append_cons in Hc. simpl drop in Hc.
    rewrite <-append_cons in Hc. simpl String.length in *.
    apply conts_append in Hc; [|lia].
    replace (rune_size (String c a ++ b) - 1 - String.length a)%nat
      with (rune_size (String c a ++ b) - S (String.length a))%nat in Hc by lia.
    rewrite (rune_count_conts _ b Hc). lia.
Qed.

(** ** Bytes of derived strings *)

Lemma string_snoc_ind (P : string → Prop) :
  P "" → (∀ s c, P s → P (s ++ String c "")) → ∀ s, P s.
Proof.
  intros H0 Hs s. assert (∀ t u, P u → P (u ++ t)) as H.
  { induction t as [|c t IH]; intros u Hu; [by rewrite append_nil_r|].
    assert (u ++ String c t = (u ++ String c "") ++ t) as -> by (by rewrite append_assoc). by apply IH, Hs. }
  exact (H s "" H0).
Qed.
Lemma HasPrefix_split p s : HasPrefix s p = true → ∃ t, s = p ++ t.
Proof.
  revert s. induction p as [|c p IH]; intros [|d s]; cbn [HasPrefix]; [by eexists|by eexists|done|].
  intros [->%Ascii.eqb_eq [t ->]%IH]%andb_true_iff. by exists t.
Qed.
Lemma CutPrefix_some p s r : CutPrefix s p = Some r ↔ s = p ++ r.
Proof.
  unfold CutPrefix. split.
  - destruct (HasPrefix s p) eqn:H; [|done]. apply HasPrefix_split in H as [t ->]. intros [= <-]. by rewrite drop_append.
  - intros ->. assert (HasPrefix (p ++ r) p = true) as ->; [|by rewrite drop_append].
    induction p as [|c p IH]; [by destruct r|]. rewrite append_cons. cbn [HasPrefix]. by rewrite Ascii.eqb_refl, IH.
Qed.
Lemma drop_all s : drop (String.length s) s = "".
Proof. by induction s. Qed.

Lemma all_bytes_append f a b : all_bytes f (a ++ b) = all_bytes f a && all_bytes f b.
Proof. induction a as [|c a IH]; [done|]. rewrite append_cons. simpl. by rewrite IH, andb_assoc. Qed.

Lemma all_bytes_drop f n s : all_bytes f s = true → all_bytes f (drop n s) = true.
Proof.
  revert s. induction n as [|n IH]; intros [|c s]; simpl; try done.
  intros [_ H]%andb_true_iff. by apply IH.
Qed.

Lemma all_bytes_take f n s : all_bytes f s = true → all_bytes f (take n s) = true.
Proof.
  revert s. induction n as [|n IH]; intros [|c s]; simpl; try done.
  intros [-> H]%andb_true_iff. by apply IH.
Qed.

Lemma all_bytes_TrimSpace f s : all_bytes f s = true → all_bytes f (TrimSpace s) = true.
Proof.
  intros H. assert (all_bytes f (trim_right s) = true) as Hr.
  { induction s as [|c s IH]; [done|]. simpl in *. apply andb_true_iff in H as [Hc Hs].
    specialize (IH Hs). case_match; [done|]. simpl. by rewrite Hc. }
  unfold TrimSpace. revert Hr. generalize (trim_right s), (String.length s). clear.
  intros t n. revert t. induction n as [|n IH]; intros t Ht; [done|]. cbn [trim_left].
  destruct (leading_space t); [done|]. apply IH. by apply all_bytes_drop.
Qed.

Lemma all_bytes_Runes f s n :
  all_bytes f RuneError = true → all_bytes f s = true →
  all_bytes f (of_runes (firstn n (Runes s))) = true.
Proof.
  intros He. unfold Runes. generalize (String.length s) as m. revert n s.
  intros n s m. revert n s. induction m as [|m IH]; intros n s Hs; [by destruct s, n|].
  destruct n as [|n]; [done|]. destruct s as [|c s]; [done|].
  cbn [runes_of firstn of_runes foldr]. rewrite all_bytes_append. apply andb_true_iff. split.
  - unfold first_rune. case_match; [by apply all_bytes_take|done].
  - apply IH. by apply all_bytes_drop.
Qed.

Lemma Split_none s c : all_bytes (λ b, negb (Ascii.eqb b c)) s = true → Split s c = [s].
Proof.
  induction s as [|b s IH]; [done|]. simpl. intros [Hb Hs]%andb_true_iff.
  apply negb_true_iff in Hb as ->. by rewrite IH.
Qed.

Lemma Split_append a b c :
  all_bytes (λ x, negb (Ascii.eqb x c)) a = true →
  Split (a ++ String c b) c = a :: Split b c.
Proof.
  induction a as [|x a IH]; intros Ha.
  - simpl. by rewrite Ascii.eqb_refl.
  - rewrite append_cons. simpl in *. apply andb_true_iff in Ha as [Hx Ha].
    apply negb_true_iff in Hx as ->. by rewrite IH.
Qed.

(** Parts free of the separator are split where they were joined. *)
Lemma Split_Join l c : l ≠ [] → Forall (λ s, all_bytes (λ b, negb (Ascii.eqb b c)) s = true) l →
  Split (Join l (String c "")) c = l.
Proof.
  intros Hne Hl. induction Hl as [|x l Hx Hl IH]; [done|]. destruct l as [|y l].
  - simpl. by apply Split_none.
  - change (Join (x :: y :: l) (String c "")) with (x ++ String c (Join (y :: l) (String c ""))).
    rewrite Split_append by done. f_equal. by apply IH.
Qed.


Lemma all_bytes_impl (f g : ascii → bool) s :
  (∀ c, f c = true → g c = true) → all_bytes f s = true → all_bytes g s = true.
Proof. intros Hfg. induction s as [|c s IH]; simpl; [done|]. rewrite !andb_true_iff. naive_solver. Qed.

(** ASCII text is valid. *)
Definition ascii7 (c : ascii) : bool := (nat_of_ascii c <=? 127)%nat.
Lemma Valid_ascii s : all_bytes ascii7 s = true → Valid s = true.
Proof.
  unfold Valid. induction s as [|c s IH]; [done|]. cbn [all_bytes String.length valid_runes].
  intros [Hc Hs]%andb_true_iff. unfold ascii7 in Hc. rewrite Hc. rewrite rune_size_ascii by done. simpl. auto.
Qed.

End Go.
