(* ===== verification/Version.v ===== *)
(** * Release labels: internal/model/version.go

    [ParseVersion], [VersionNotRegressed] and [VersionAdvanced]: the ordering
    rule shared by the unlocked service checks and the locked repository
    re-checks. *)

From S2P Require Import Prelude GoStrings.
From Stdlib Require Import Ascii.
Import Go.
Local Open Scope string_scope.
Local Open Scope Z_scope.

(** [[3]uint64], the three ordered parts of a label. *)
Definition Parts : Type := (Z * Z * Z)%type.

(** [ParseVersion]: [None] stands for [ok == false]. *)
Definition ParseVersion (v : string) : option Parts :=
  match Split (TrimSpace v) "."%char with
  | [a; b; c] =>
      match ParseUint a, ParseUint b, ParseUint c with
      | Some x, Some y, Some z => Some (x, y, z)
      | _, _, _ => None
      end
  | _ => None
  end.

(** The [for i := range currentParts] comparison of [VersionNotRegressed]:
    the first differing part decides, equal labels pass. *)
Definition parts_forward (cur nxt : Parts) : bool :=
  let '(c0, c1, c2) := cur in
  let '(n0, n1, n2) := nxt in
  if negb (n0 =? c0) then c0 <? n0
  else if negb (n1 =? c1) then c1 <? n1
  else if negb (n2 =? c2) then c2 <? n2
  else true.

Definition VersionNotRegressed (current next : string) : bool :=
  let cur := TrimSpace current in
  let nxt := TrimSpace next in
  if String.eqb cur nxt then true
  else match ParseVersion nxt with
       | None => false
       | Some nextParts =>
           match ParseVersion cur with
           | None => true
           | Some currentParts => parts_forward currentParts nextParts
           end
       end.

Definition VersionAdvanced (current next : string) : bool :=
  if negb (VersionNotRegressed current next) then false
  else match ParseVersion next with
       | None => false
       | Some b =>
           match ParseVersion current with
           | None => true
           | Some a => negb (bool_decide (a = b))
           end
       end.

(** ** Specification: the lexicographic order on parts *)

Definition parts_le (a b : Parts) : Prop :=
  let '(a0, a1, a2) := a in
  let '(b0, b1, b2) := b in
  a0 < b0 \/ (a0 = b0 /\ (a1 < b1 \/ (a1 = b1 /\ a2 <= b2))).

Lemma parts_forward_spec a b : parts_forward a b = true <-> parts_le a b.
Proof.
  destruct a as [[a0 a1] a2], b as [[b0 b1] b2]. simpl.
  destruct (Z.eqb_spec b0 a0); simpl; [|rewrite Z.ltb_lt; lia].
  destruct (Z.eqb_spec b1 a1); simpl; [|rewrite Z.ltb_lt; lia].
  destruct (Z.eqb_spec b2 a2); simpl; [|rewrite Z.ltb_lt]; split; intros; try done; lia.
Qed.

#[export] Instance parts_le_preorder : PreOrder parts_le.
Proof.
  split.
  - intros [[a b] c]. simpl. lia.
  - intros [[a0 a1] a2] [[b0 b1] b2] [[c0 c1] c2]. simpl. lia.
Qed.

#[export] Instance parts_le_antisymm : AntiSymm eq parts_le.
Proof.
  intros [[a0 a1] a2] [[b0 b1] b2]. simpl. intros. repeat f_equal; lia.
Qed.

Lemma ParseVersion_trim v : ParseVersion (TrimSpace v) = ParseVersion v.
Proof. unfold ParseVersion. by rewrite TrimSpace_idem. Qed.

(** The two branches of [VersionNotRegressed] in terms of parsed labels. *)
Lemma not_regressed_cases cur nxt :
  VersionNotRegressed cur nxt = true <->
  TrimSpace cur = TrimSpace nxt
  \/ exists b, ParseVersion nxt = Some b
       /\ forall a, ParseVersion cur = Some a -> parts_le a b.
Proof.
  unfold VersionNotRegressed. rewrite !ParseVersion_trim.
  destruct (String.eqb_spec (TrimSpace cur) (TrimSpace nxt)) as [|Hne]; [naive_solver|].
  destruct (ParseVersion nxt) as [b|]; [|naive_solver].
  destruct (ParseVersion cur) as [a|]; rewrite ?parts_forward_spec; naive_solver.
Qed.

Lemma not_regressed_parts cur nxt a :
  VersionNotRegressed cur nxt = true -> ParseVersion cur = Some a ->
  exists b, ParseVersion nxt = Some b /\ parts_le a b.
Proof.
  rewrite not_regressed_cases. intros [Heq|(b & Hb & Hle)] Ha; [|naive_solver].
  exists a. split; [|done]. by rewrite <-ParseVersion_trim, <-Heq, ParseVersion_trim.
Qed.

Lemma not_regressed_step cur nxt a :
  ParseVersion cur = Some a -> VersionNotRegressed cur nxt = true ->
  exists b, ParseVersion nxt = Some b /\ parts_le a b.
Proof. intros Ha Hn. by eapply not_regressed_parts. Qed.

(** Labels never move backwards. Along any history of labels in which each
    step passed [VersionNotRegressed], once a label is orderable every later
    label is orderable too and at least as high. *)
Theorem label_history_monotone (labels : list string) (first : string) (a : Parts) :
  ParseVersion first = Some a ->
  Forall2 (fun cur nxt => VersionNotRegressed cur nxt = true)
    (removelast (first :: labels)) labels ->
  forall l, l ∈ labels -> exists b, ParseVersion l = Some b /\ parts_le a b.
Proof.
  revert first a. induction labels as [|x labels IH]; intros first a Ha Hchain l Hl; [set_solver|].
  change (removelast (first :: x :: labels)) with (first :: removelast (x :: labels)) in Hchain.
  apply Forall2_cons in Hchain as [Hx Hrest].
  destruct (not_regressed_step _ _ _ Ha Hx) as (b & Hb & Hab).
  apply elem_of_cons in Hl as [->|Hl]; [by exists b|].
  destruct (IH x b Hb Hrest l Hl) as (c & Hc & Hbc). exists c. split; [done|]. by etrans.
Qed.

(** [VersionAdvanced] is the strict order. A label advances another exactly
    when it is orderable and, if the other is orderable too, strictly above it
    in the lexicographic order of the three parts. *)
Lemma version_advanced_spec (current next : string) :
  VersionAdvanced current next = true <->
  exists b, ParseVersion next = Some b
    /\ forall a, ParseVersion current = Some a -> parts_le a b /\ a <> b.
Proof.
  unfold VersionAdvanced. destruct (VersionNotRegressed current next) eqn:Hn; simpl.
  - apply not_regressed_cases in Hn.
    destruct (ParseVersion next) as [b|] eqn:Hb; [|naive_solver].
    destruct (ParseVersion current) as [a|] eqn:Ha; [|naive_solver].
    rewrite negb_true_iff, bool_decide_eq_false. split; [|naive_solver].
    intros Hne. exists b. split; [done|]. intros a' [= <-]. split; [|done].
    destruct Hn as [Heq|(b' & Hb' & Hle)]; [|naive_solver]. exfalso. apply Hne.
    assert (Some a = Some b) as [=]; [|done].
    by rewrite <-Ha, <-Hb, <-(ParseVersion_trim current), <-(ParseVersion_trim next), Heq.
  - split; [done|]. intros (b & Hb & Hall). exfalso.
    apply not_true_iff_false in Hn. apply Hn, not_regressed_cases. right. exists b. naive_solver.
Qed.
