(* ===== verification/Model.v ===== *)
(** * The domain model: internal/model

    The enumerations and records of model/plugin.go, model/plugin_review.go,
    model/plugin_snapshot.go and model/identity.go with their pure functions:
    the displayed status, legacy visibility, Space roles, review authority,
    the snapshot relation codec and the name reservation keys of
    model/plugin_name.go. *)

From S2P Require Import Prelude GoStrings.
Import Go.
Local Open Scope string_scope.

(** ** Enumerations (the ENUM columns and Go string constants) *)

Inductive PluginType := Expert | ExpertTeam | Skill | Connector.
Inductive PluginVisibility := VPublic | VSpace | VPrivate | VSystem.

(** [LUnset] is Go's zero value [""], which only an insert may carry. *)
Inductive PluginListingState := LUnset | Draft | Published | Delisted.

Inductive PluginDisplayStatus :=
| DisplayDraft | DisplayPendingReview | DisplayPublished | DisplayRejected | DisplayDelisted.

Inductive ReviewStatus := Pending | Approved | Rejected | Canceled.
Inductive ReviewKind := KindFirst | KindUpgrade | KindVisibility.
Inductive ReviewDecisionSource := SourceWeb | SourceIM | SourcePolicy.

#[export] Instance PluginType_eq_dec : EqDecision PluginType.
Proof. solve_decision. Defined.
#[export] Instance PluginVisibility_eq_dec : EqDecision PluginVisibility.
Proof. solve_decision. Defined.
#[export] Instance PluginListingState_eq_dec : EqDecision PluginListingState.
Proof. solve_decision. Defined.
#[export] Instance PluginDisplayStatus_eq_dec : EqDecision PluginDisplayStatus.
Proof. solve_decision. Defined.
#[export] Instance ReviewStatus_eq_dec : EqDecision ReviewStatus.
Proof. solve_decision. Defined.
#[export] Instance ReviewKind_eq_dec : EqDecision ReviewKind.
Proof. solve_decision. Defined.
#[export] Instance ReviewDecisionSource_eq_dec : EqDecision ReviewDecisionSource.
Proof. solve_decision. Defined.

(** ** Records *)

(** [json.RawMessage]: the bytes of a document, [""] when nil. *)
Abbreviation RawMessage := string (only parsing).

(** [model.Plugin]: the persisted columns of a [plugins] row. The derived
    fields a read adds (counters, review badge, icon URL) are not columns.
    [NameKey], [NameScope] are the name-uniqueness columns the writes stamp. *)
Record Plugin := mkPlugin {
  ID : string;
  Name : string;
  Type_ : PluginType;
  IsEmbedded : bool;
  CategoryID : option string;
  Tags : RawMessage;
  Publisher : string;
  OwnerUID : string;
  SpaceID : option string;
  Visibility : PluginVisibility;
  ListingState : PluginListingState;
  CreatorName : string;
  CreatedByType : string;
  CreatedByBotUID : option string;
  CreatedByBotName : option string;
  Icon : string;
  ToolCount : Z;
  Rating : option Z;
  Manifest : RawMessage;
  Package : RawMessage;
  AttachmentKeys : RawMessage;
  ManifestHash : string;
  PluginHash : string;
  CurrentVersionID : option string;
  PublishedVersionID : option string;
  CurrentVersion : option string;
  Status : Z;
  CreatedAt : Z;
  UpdatedAt : Z;
  DeletedAt : option Z;
  NameKey : option string;
  PublishedNameKey : option string;
  NameScope : string
}.

(** [model.PluginRelation]: one directed, one-level composition edge. *)
Record PluginRelation := mkRelation {
  RelID : string;
  SourcePluginID : string;
  SourcePluginType : option PluginType;
  TargetPluginID : string;
  TargetVersionID : option string;
  TargetPluginType : option PluginType;
  RelType : string;
  SortOrder : Z;
  Data : RawMessage;
  RelStatus : Z;
  RelCreatedBy : string;
  RelCreatedAt : Z;
  RelUpdatedAt : Z;
  RelDeletedAt : option Z
}.

(** Functional update of one field, for the SET clauses of the statements. *)
Definition set_Name (v : string) (p : Plugin) : Plugin :=
  mkPlugin (ID p) v (Type_ p) (IsEmbedded p) (CategoryID p) (Tags p) (Publisher p)
    (OwnerUID p) (SpaceID p) (Visibility p) (ListingState p) (CreatorName p)
    (CreatedByType p) (CreatedByBotUID p) (CreatedByBotName p) (Icon p) (ToolCount p)
    (Rating p) (Manifest p) (Package p) (AttachmentKeys p) (ManifestHash p) (PluginHash p)
    (CurrentVersionID p) (PublishedVersionID p) (CurrentVersion p) (Status p) (CreatedAt
    p) (UpdatedAt p) (DeletedAt p) (NameKey p) (PublishedNameKey p) (NameScope p).
Definition set_Type_ (v : PluginType) (p : Plugin) : Plugin :=
  mkPlugin (ID p) (Name p) v (IsEmbedded p) (CategoryID p) (Tags p) (Publisher p)
    (OwnerUID p) (SpaceID p) (Visibility p) (ListingState p) (CreatorName p)
    (CreatedByType p) (CreatedByBotUID p) (CreatedByBotName p) (Icon p) (ToolCount p)
    (Rating p) (Manifest p) (Package p) (AttachmentKeys p) (ManifestHash p) (PluginHash p)
    (CurrentVersionID p) (PublishedVersionID p) (CurrentVersion p) (Status p) (CreatedAt
    p) (UpdatedAt p) (DeletedAt p) (NameKey p) (PublishedNameKey p) (NameScope p).
Definition set_CategoryID (v : option string) (p : Plugin) : Plugin :=
  mkPlugin (ID p) (Name p) (Type_ p) (IsEmbedded p) v (Tags p) (Publisher p) (OwnerUID p)
    (SpaceID p) (Visibility p) (ListingState p) (CreatorName p) (CreatedByType p)
    (CreatedByBotUID p) (CreatedByBotName p) (Icon p) (ToolCount p) (Rating p) (Manifest
    p) (Package p) (AttachmentKeys p) (ManifestHash p) (PluginHash p) (CurrentVersionID p)
    (PublishedVersionID p) (CurrentVersion p) (Status p) (CreatedAt p) (UpdatedAt p)
    (DeletedAt p) (NameKey p) (PublishedNameKey p) (NameScope p).
Definition set_Tags (v : RawMessage) (p : Plugin) : Plugin :=
  mkPlugin (ID p) (Name p) (Type_ p) (IsEmbedded p) (CategoryID p) v (Publisher p)
    (OwnerUID p) (SpaceID p) (Visibility p) (ListingState p) (CreatorName p)
    (CreatedByType p) (CreatedByBotUID p) (CreatedByBotName p) (Icon p) (ToolCount p)
    (Rating p) (Manifest p) (Package p) (AttachmentKeys p) (ManifestHash p) (PluginHash p)
    (CurrentVersionID p) (PublishedVersionID p) (CurrentVersion p) (Status p) (CreatedAt
    p) (UpdatedAt p) (DeletedAt p) (NameKey p) (PublishedNameKey p) (NameScope p).
Definition set_Publisher (v : string) (p : Plugin) : Plugin :=
  mkPlugin (ID p) (Name p) (Type_ p) (IsEmbedded p) (CategoryID p) (Tags p) v (OwnerUID p)
    (SpaceID p) (Visibility p) (ListingState p) (CreatorName p) (CreatedByType p)
    (CreatedByBotUID p) (CreatedByBotName p) (Icon p) (ToolCount p) (Rating p) (Manifest
    p) (Package p) (AttachmentKeys p) (ManifestHash p) (PluginHash p) (CurrentVersionID p)
    (PublishedVersionID p) (CurrentVersion p) (Status p) (CreatedAt p) (UpdatedAt p)
    (DeletedAt p) (NameKey p) (PublishedNameKey p) (NameScope p).
Definition set_OwnerUID (v : string) (p : Plugin) : Plugin :=
  mkPlugin (ID p) (Name p) (Type_ p) (IsEmbedded p) (CategoryID p) (Tags p) (Publisher p)
    v (SpaceID p) (Visibility p) (ListingState p) (CreatorName p) (CreatedByType p)
    (CreatedByBotUID p) (CreatedByBotName p) (Icon p) (ToolCount p) (Rating p) (Manifest
    p) (Package p) (AttachmentKeys p) (ManifestHash p) (PluginHash p) (CurrentVersionID p)
    (PublishedVersionID p) (CurrentVersion p) (Status p) (CreatedAt p) (UpdatedAt p)
    (DeletedAt p) (NameKey p) (PublishedNameKey p) (NameScope p).
Definition set_SpaceID (v : option string) (p : Plugin) : Plugin :=
  mkPlugin (ID p) (Name p) (Type_ p) (IsEmbedded p) (CategoryID p) (Tags p) (Publisher p)
    (OwnerUID p) v (Visibility p) (ListingState p) (CreatorName p) (CreatedByType p)
    (CreatedByBotUID p) (CreatedByBotName p) (Icon p) (ToolCount p) (Rating p) (Manifest
    p) (Package p) (AttachmentKeys p) (ManifestHash p) (PluginHash p) (CurrentVersionID p)
    (PublishedVersionID p) (CurrentVersion p) (Status p) (CreatedAt p) (UpdatedAt p)
    (DeletedAt p) (NameKey p) (PublishedNameKey p) (NameScope p).
Definition set_Visibility (v : PluginVisibility) (p : Plugin) : Plugin :=
  mkPlugin (ID p) (Name p) (Type_ p) (IsEmbedded p) (CategoryID p) (Tags p) (Publisher p)
    (OwnerUID p) (SpaceID p) v (ListingState p) (CreatorName p) (CreatedByType p)
    (CreatedByBotUID p) (CreatedByBotName p) (Icon p) (ToolCount p) (Rating p) (Manifest
    p) (Package p) (AttachmentKeys p) (ManifestHash p) (PluginHash p) (CurrentVersionID p)
    (PublishedVersionID p) (CurrentVersion p) (Status p) (CreatedAt p) (UpdatedAt p)
    (DeletedAt p) (NameKey p) (PublishedNameKey p) (NameScope p).
Definition set_ListingState (v : PluginListingState) (p : Plugin) : Plugin :=
  mkPlugin (ID p) (Name p) (Type_ p) (IsEmbedded p) (CategoryID p) (Tags p) (Publisher p)
    (OwnerUID p) (SpaceID p) (Visibility p) v (CreatorName p) (CreatedByType p)
    (CreatedByBotUID p) (CreatedByBotName p) (Icon p) (ToolCount p) (Rating p) (Manifest
    p) (Package p) (AttachmentKeys p) (ManifestHash p) (PluginHash p) (CurrentVersionID p)
    (PublishedVersionID p) (CurrentVersion p) (Status p) (CreatedAt p) (UpdatedAt p)
    (DeletedAt p) (NameKey p) (PublishedNameKey p) (NameScope p).
Definition set_Icon (v : string) (p : Plugin) : Plugin :=
  mkPlugin (ID p) (Name p) (Type_ p) (IsEmbedded p) (CategoryID p) (Tags p) (Publisher p)
    (OwnerUID p) (SpaceID p) (Visibility p) (ListingState p) (CreatorName p)
    (CreatedByType p) (CreatedByBotUID p) (CreatedByBotName p) v (ToolCount p) (Rating p)
    (Manifest p) (Package p) (AttachmentKeys p) (ManifestHash p) (PluginHash p)
    (CurrentVersionID p) (PublishedVersionID p) (CurrentVersion p) (Status p) (CreatedAt
    p) (UpdatedAt p) (DeletedAt p) (NameKey p) (PublishedNameKey p) (NameScope p).
Definition set_ToolCount (v : Z) (p : Plugin) : Plugin :=
  mkPlugin (ID p) (Name p) (Type_ p) (IsEmbedded p) (CategoryID p) (Tags p) (Publisher p)
    (OwnerUID p) (SpaceID p) (Visibility p) (ListingState p) (CreatorName p)
    (CreatedByType p) (CreatedByBotUID p) (CreatedByBotName p) (Icon p) v (Rating p)
    (Manifest p) (Package p) (AttachmentKeys p) (ManifestHash p) (PluginHash p)
    (CurrentVersionID p) (PublishedVersionID p) (CurrentVersion p) (Status p) (CreatedAt
    p) (UpdatedAt p) (DeletedAt p) (NameKey p) (PublishedNameKey p) (NameScope p).
Definition set_Rating (v : option Z) (p : Plugin) : Plugin :=
  mkPlugin (ID p) (Name p) (Type_ p) (IsEmbedded p) (CategoryID p) (Tags p) (Publisher p)
    (OwnerUID p) (SpaceID p) (Visibility p) (ListingState p) (CreatorName p)
    (CreatedByType p) (CreatedByBotUID p) (CreatedByBotName p) (Icon p) (ToolCount p) v
    (Manifest p) (Package p) (AttachmentKeys p) (ManifestHash p) (PluginHash p)
    (CurrentVersionID p) (PublishedVersionID p) (CurrentVersion p) (Status p) (CreatedAt
    p) (UpdatedAt p) (DeletedAt p) (NameKey p) (PublishedNameKey p) (NameScope p).
Definition set_Manifest (v : RawMessage) (p : Plugin) : Plugin :=
  mkPlugin (ID p) (Name p) (Type_ p) (IsEmbedded p) (CategoryID p) (Tags p) (Publisher p)
    (OwnerUID p) (SpaceID p) (Visibility p) (ListingState p) (CreatorName p)
    (CreatedByType p) (CreatedByBotUID p) (CreatedByBotName p) (Icon p) (ToolCount p)
    (Rating p) v (Package p) (AttachmentKeys p) (ManifestHash p) (PluginHash p)
    (CurrentVersionID p) (PublishedVersionID p) (CurrentVersion p) (Status p) (CreatedAt
    p) (UpdatedAt p) (DeletedAt p) (NameKey p) (PublishedNameKey p) (NameScope p).
Definition set_Package (v : RawMessage) (p : Plugin) : Plugin :=
  mkPlugin (ID p) (Name p) (Type_ p) (IsEmbedded p) (CategoryID p) (Tags p) (Publisher p)
    (OwnerUID p) (SpaceID p) (Visibility p) (ListingState p) (CreatorName p)
    (CreatedByType p) (CreatedByBotUID p) (CreatedByBotName p) (Icon p) (ToolCount p)
    (Rating p) (Manifest p) v (AttachmentKeys p) (ManifestHash p) (PluginHash p)
    (CurrentVersionID p) (PublishedVersionID p) (CurrentVersion p) (Status p) (CreatedAt
    p) (UpdatedAt p) (DeletedAt p) (NameKey p) (PublishedNameKey p) (NameScope p).
Definition set_AttachmentKeys (v : RawMessage) (p : Plugin) : Plugin :=
  mkPlugin (ID p) (Name p) (Type_ p) (IsEmbedded p) (CategoryID p) (Tags p) (Publisher p)
    (OwnerUID p) (SpaceID p) (Visibility p) (ListingState p) (CreatorName p)
    (CreatedByType p) (CreatedByBotUID p) (CreatedByBotName p) (Icon p) (ToolCount p)
    (Rating p) (Manifest p) (Package p) v (ManifestHash p) (PluginHash p)
    (CurrentVersionID p) (PublishedVersionID p) (CurrentVersion p) (Status p) (CreatedAt
    p) (UpdatedAt p) (DeletedAt p) (NameKey p) (PublishedNameKey p) (NameScope p).
Definition set_ManifestHash (v : string) (p : Plugin) : Plugin :=
  mkPlugin (ID p) (Name p) (Type_ p) (IsEmbedded p) (CategoryID p) (Tags p) (Publisher p)
    (OwnerUID p) (SpaceID p) (Visibility p) (ListingState p) (CreatorName p)
    (CreatedByType p) (CreatedByBotUID p) (CreatedByBotName p) (Icon p) (ToolCount p)
    (Rating p) (Manifest p) (Package p) (AttachmentKeys p) v (PluginHash p)
    (CurrentVersionID p) (PublishedVersionID p) (CurrentVersion p) (Status p) (CreatedAt
    p) (UpdatedAt p) (DeletedAt p) (NameKey p) (PublishedNameKey p) (NameScope p).
Definition set_PluginHash (v : string) (p : Plugin) : Plugin :=
  mkPlugin (ID p) (Name p) (Type_ p) (IsEmbedded p) (CategoryID p) (Tags p) (Publisher p)
    (OwnerUID p) (SpaceID p) (Visibility p) (ListingState p) (CreatorName p)
    (CreatedByType p) (CreatedByBotUID p) (CreatedByBotName p) (Icon p) (ToolCount p)
    (Rating p) (Manifest p) (Package p) (AttachmentKeys p) (ManifestHash p) v
    (CurrentVersionID p) (PublishedVersionID p) (CurrentVersion p) (Status p) (CreatedAt
    p) (UpdatedAt p) (DeletedAt p) (NameKey p) (PublishedNameKey p) (NameScope p).
Definition set_CurrentVersionID (v : option string) (p : Plugin) : Plugin :=
  mkPlugin (ID p) (Name p) (Type_ p) (IsEmbedded p) (CategoryID p) (Tags p) (Publisher p)
    (OwnerUID p) (SpaceID p) (Visibility p) (ListingState p) (CreatorName p)
    (CreatedByType p) (CreatedByBotUID p) (CreatedByBotName p) (Icon p) (ToolCount p)
    (Rating p) (Manifest p) (Package p) (AttachmentKeys p) (ManifestHash p) (PluginHash p)
    v (PublishedVersionID p) (CurrentVersion p) (Status p) (CreatedAt p) (UpdatedAt p)
    (DeletedAt p) (NameKey p) (PublishedNameKey p) (NameScope p).
Definition set_PublishedVersionID (v : option string) (p : Plugin) : Plugin :=
  mkPlugin (ID p) (Name p) (Type_ p) (IsEmbedded p) (CategoryID p) (Tags p) (Publisher p)
    (OwnerUID p) (SpaceID p) (Visibility p) (ListingState p) (CreatorName p)
    (CreatedByType p) (CreatedByBotUID p) (CreatedByBotName p) (Icon p) (ToolCount p)
    (Rating p) (Manifest p) (Package p) (AttachmentKeys p) (ManifestHash p) (PluginHash p)
    (CurrentVersionID p) v (CurrentVersion p) (Status p) (CreatedAt p) (UpdatedAt p)
    (DeletedAt p) (NameKey p) (PublishedNameKey p) (NameScope p).
Definition set_CurrentVersion (v : option string) (p : Plugin) : Plugin :=
  mkPlugin (ID p) (Name p) (Type_ p) (IsEmbedded p) (CategoryID p) (Tags p) (Publisher p)
    (OwnerUID p) (SpaceID p) (Visibility p) (ListingState p) (CreatorName p)
    (CreatedByType p) (CreatedByBotUID p) (CreatedByBotName p) (Icon p) (ToolCount p)
    (Rating p) (Manifest p) (Package p) (AttachmentKeys p) (ManifestHash p) (PluginHash p)
    (CurrentVersionID p) (PublishedVersionID p) v (Status p) (CreatedAt p) (UpdatedAt p)
    (DeletedAt p) (NameKey p) (PublishedNameKey p) (NameScope p).
Definition set_Status (v : Z) (p : Plugin) : Plugin :=
  mkPlugin (ID p) (Name p) (Type_ p) (IsEmbedded p) (CategoryID p) (Tags p) (Publisher p)
    (OwnerUID p) (SpaceID p) (Visibility p) (ListingState p) (CreatorName p)
    (CreatedByType p) (CreatedByBotUID p) (CreatedByBotName p) (Icon p) (ToolCount p)
    (Rating p) (Manifest p) (Package p) (AttachmentKeys p) (ManifestHash p) (PluginHash p)
    (CurrentVersionID p) (PublishedVersionID p) (CurrentVersion p) v (CreatedAt p)
    (UpdatedAt p) (DeletedAt p) (NameKey p) (PublishedNameKey p) (NameScope p).
Definition set_CreatedAt (v : Z) (p : Plugin) : Plugin :=
  mkPlugin (ID p) (Name p) (Type_ p) (IsEmbedded p) (CategoryID p) (Tags p) (Publisher p)
    (OwnerUID p) (SpaceID p) (Visibility p) (ListingState p) (CreatorName p)
    (CreatedByType p) (CreatedByBotUID p) (CreatedByBotName p) (Icon p) (ToolCount p)
    (Rating p) (Manifest p) (Package p) (AttachmentKeys p) (ManifestHash p) (PluginHash p)
    (CurrentVersionID p) (PublishedVersionID p) (CurrentVersion p) (Status p) v (UpdatedAt
    p) (DeletedAt p) (NameKey p) (PublishedNameKey p) (NameScope p).
Definition set_UpdatedAt (v : Z) (p : Plugin) : Plugin :=
  mkPlugin (ID p) (Name p) (Type_ p) (IsEmbedded p) (CategoryID p) (Tags p) (Publisher p)
    (OwnerUID p) (SpaceID p) (Visibility p) (ListingState p) (CreatorName p)
    (CreatedByType p) (CreatedByBotUID p) (CreatedByBotName p) (Icon p) (ToolCount p)
    (Rating p) (Manifest p) (Package p) (AttachmentKeys p) (ManifestHash p) (PluginHash p)
    (CurrentVersionID p) (PublishedVersionID p) (CurrentVersion p) (Status p) (CreatedAt
    p) v (DeletedAt p) (NameKey p) (PublishedNameKey p) (NameScope p).
Definition set_DeletedAt (v : option Z) (p : Plugin) : Plugin :=
  mkPlugin (ID p) (Name p) (Type_ p) (IsEmbedded p) (CategoryID p) (Tags p) (Publisher p)
    (OwnerUID p) (SpaceID p) (Visibility p) (ListingState p) (CreatorName p)
    (CreatedByType p) (CreatedByBotUID p) (CreatedByBotName p) (Icon p) (ToolCount p)
    (Rating p) (Manifest p) (Package p) (AttachmentKeys p) (ManifestHash p) (PluginHash p)
    (CurrentVersionID p) (PublishedVersionID p) (CurrentVersion p) (Status p) (CreatedAt
    p) (UpdatedAt p) v (NameKey p) (PublishedNameKey p) (NameScope p).
Definition set_NameKey (v : option string) (p : Plugin) : Plugin :=
  mkPlugin (ID p) (Name p) (Type_ p) (IsEmbedded p) (CategoryID p) (Tags p) (Publisher p)
    (OwnerUID p) (SpaceID p) (Visibility p) (ListingState p) (CreatorName p)
    (CreatedByType p) (CreatedByBotUID p) (CreatedByBotName p) (Icon p) (ToolCount p)
    (Rating p) (Manifest p) (Package p) (AttachmentKeys p) (ManifestHash p) (PluginHash p)
    (CurrentVersionID p) (PublishedVersionID p) (CurrentVersion p) (Status p) (CreatedAt
    p) (UpdatedAt p) (DeletedAt p) v (PublishedNameKey p) (NameScope p).
Definition set_PublishedNameKey (v : option string) (p : Plugin) : Plugin :=
  mkPlugin (ID p) (Name p) (Type_ p) (IsEmbedded p) (CategoryID p) (Tags p) (Publisher p)
    (OwnerUID p) (SpaceID p) (Visibility p) (ListingState p) (CreatorName p)
    (CreatedByType p) (CreatedByBotUID p) (CreatedByBotName p) (Icon p) (ToolCount p)
    (Rating p) (Manifest p) (Package p) (AttachmentKeys p) (ManifestHash p) (PluginHash p)
    (CurrentVersionID p) (PublishedVersionID p) (CurrentVersion p) (Status p) (CreatedAt
    p) (UpdatedAt p) (DeletedAt p) (NameKey p) v (NameScope p).
Definition set_NameScope (v : string) (p : Plugin) : Plugin :=
  mkPlugin (ID p) (Name p) (Type_ p) (IsEmbedded p) (CategoryID p) (Tags p) (Publisher p)
    (OwnerUID p) (SpaceID p) (Visibility p) (ListingState p) (CreatorName p)
    (CreatedByType p) (CreatedByBotUID p) (CreatedByBotName p) (Icon p) (ToolCount p)
    (Rating p) (Manifest p) (Package p) (AttachmentKeys p) (ManifestHash p) (PluginHash p)
    (CurrentVersionID p) (PublishedVersionID p) (CurrentVersion p) (Status p) (CreatedAt
    p) (UpdatedAt p) (DeletedAt p) (NameKey p) (PublishedNameKey p) v.
Definition set_ID (v : string) (p : Plugin) : Plugin :=
  mkPlugin v (Name p) (Type_ p) (IsEmbedded p) (CategoryID p) (Tags p) (Publisher p)
    (OwnerUID p) (SpaceID p) (Visibility p) (ListingState p) (CreatorName p)
    (CreatedByType p) (CreatedByBotUID p) (CreatedByBotName p) (Icon p) (ToolCount p)
    (Rating p) (Manifest p) (Package p) (AttachmentKeys p) (ManifestHash p) (PluginHash p)
    (CurrentVersionID p) (PublishedVersionID p) (CurrentVersion p) (Status p) (CreatedAt
    p) (UpdatedAt p) (DeletedAt p) (NameKey p) (PublishedNameKey p) (NameScope p).

Definition set_RelID (v : string) (r : PluginRelation) : PluginRelation :=
  mkRelation v (SourcePluginID r) (SourcePluginType r) (TargetPluginID r) (TargetVersionID
    r) (TargetPluginType r) (RelType r) (SortOrder r) (Data r) (RelStatus r) (RelCreatedBy
    r) (RelCreatedAt r) (RelUpdatedAt r) (RelDeletedAt r).
Definition set_SourcePluginID (v : string) (r : PluginRelation) : PluginRelation :=
  mkRelation (RelID r) v (SourcePluginType r) (TargetPluginID r) (TargetVersionID r)
    (TargetPluginType r) (RelType r) (SortOrder r) (Data r) (RelStatus r) (RelCreatedBy r)
    (RelCreatedAt r) (RelUpdatedAt r) (RelDeletedAt r).
Definition set_TargetPluginID (v : string) (r : PluginRelation) : PluginRelation :=
  mkRelation (RelID r) (SourcePluginID r) (SourcePluginType r) v (TargetVersionID r)
    (TargetPluginType r) (RelType r) (SortOrder r) (Data r) (RelStatus r) (RelCreatedBy r)
    (RelCreatedAt r) (RelUpdatedAt r) (RelDeletedAt r).
Definition set_TargetVersionID (v : option string) (r : PluginRelation) : PluginRelation :=
  mkRelation (RelID r) (SourcePluginID r) (SourcePluginType r) (TargetPluginID r) v
    (TargetPluginType r) (RelType r) (SortOrder r) (Data r) (RelStatus r) (RelCreatedBy r)
    (RelCreatedAt r) (RelUpdatedAt r) (RelDeletedAt r).
Definition set_RelType (v : string) (r : PluginRelation) : PluginRelation :=
  mkRelation (RelID r) (SourcePluginID r) (SourcePluginType r) (TargetPluginID r)
    (TargetVersionID r) (TargetPluginType r) v (SortOrder r) (Data r) (RelStatus r)
    (RelCreatedBy r) (RelCreatedAt r) (RelUpdatedAt r) (RelDeletedAt r).
Definition set_SortOrder (v : Z) (r : PluginRelation) : PluginRelation :=
  mkRelation (RelID r) (SourcePluginID r) (SourcePluginType r) (TargetPluginID r)
    (TargetVersionID r) (TargetPluginType r) (RelType r) v (Data r) (RelStatus r)
    (RelCreatedBy r) (RelCreatedAt r) (RelUpdatedAt r) (RelDeletedAt r).
Definition set_Data (v : RawMessage) (r : PluginRelation) : PluginRelation :=
  mkRelation (RelID r) (SourcePluginID r) (SourcePluginType r) (TargetPluginID r)
    (TargetVersionID r) (TargetPluginType r) (RelType r) (SortOrder r) v (RelStatus r)
    (RelCreatedBy r) (RelCreatedAt r) (RelUpdatedAt r) (RelDeletedAt r).
Definition set_RelStatus (v : Z) (r : PluginRelation) : PluginRelation :=
  mkRelation (RelID r) (SourcePluginID r) (SourcePluginType r) (TargetPluginID r)
    (TargetVersionID r) (TargetPluginType r) (RelType r) (SortOrder r) (Data r) v
    (RelCreatedBy r) (RelCreatedAt r) (RelUpdatedAt r) (RelDeletedAt r).
Definition set_RelCreatedBy (v : string) (r : PluginRelation) : PluginRelation :=
  mkRelation (RelID r) (SourcePluginID r) (SourcePluginType r) (TargetPluginID r)
    (TargetVersionID r) (TargetPluginType r) (RelType r) (SortOrder r) (Data r) (RelStatus
    r) v (RelCreatedAt r) (RelUpdatedAt r) (RelDeletedAt r).
Definition set_RelCreatedAt (v : Z) (r : PluginRelation) : PluginRelation :=
  mkRelation (RelID r) (SourcePluginID r) (SourcePluginType r) (TargetPluginID r)
    (TargetVersionID r) (TargetPluginType r) (RelType r) (SortOrder r) (Data r) (RelStatus
    r) (RelCreatedBy r) v (RelUpdatedAt r) (RelDeletedAt r).
Definition set_RelUpdatedAt (v : Z) (r : PluginRelation) : PluginRelation :=
  mkRelation (RelID r) (SourcePluginID r) (SourcePluginType r) (TargetPluginID r)
    (TargetVersionID r) (TargetPluginType r) (RelType r) (SortOrder r) (Data r) (RelStatus
    r) (RelCreatedBy r) (RelCreatedAt r) v (RelDeletedAt r).
Definition set_RelDeletedAt (v : option Z) (r : PluginRelation) : PluginRelation :=
  mkRelation (RelID r) (SourcePluginID r) (SourcePluginType r) (TargetPluginID r)
    (TargetVersionID r) (TargetPluginType r) (RelType r) (SortOrder r) (Data r) (RelStatus
    r) (RelCreatedBy r) (RelCreatedAt r) (RelUpdatedAt r) v.

(** ** Displayed status and legacy visibility (model/plugin.go) *)

Definition DisplayStatus (p : Plugin) (hasPendingReview : bool)
    (latestReview : option ReviewStatus) : PluginDisplayStatus :=
  if hasPendingReview then DisplayPendingReview
  else if decide (ListingState p = Delisted) then DisplayDelisted
  else if decide (ListingState p = Published) then DisplayPublished
  else if decide (latestReview = Some Rejected) then DisplayRejected
  else DisplayDraft.

Definition NormalizeLegacyVisibility (v : PluginVisibility) : PluginVisibility :=
  match v with VPublic => VSystem | _ => v end.

(** ** Space roles (model/identity.go) *)

Definition SpaceRoleMember : Z := 0.
Definition SpaceRoleAdmin : Z := 1.
Definition SpaceRoleOwner : Z := 2.

Record Identity := mkIdentity {
  UID : string;
  IdName : string;
  Role : string;
  Spaces : list string;
  OwnedBotsBySpace : gmap string (list string);
  SpaceRoles : gmap string Z;
  ContextIncluded : bool
}.

Record BotIdentity := mkBotIdentity {
  BotUID : string;
  BotName : string;
  BotOwnerUID : string;
  BotOwnerName : string;
  BotSpaceID : string
}.

Definition ClampSpaceRole (r : Z) : Z * bool :=
  if ((r <? SpaceRoleMember) || (SpaceRoleOwner <? r))%Z then (SpaceRoleMember, true)
  else (r, false).

(** A missing map entry reads as Go's zero value. *)
Definition SpaceRole (i : Identity) (spaceID : string) : Z :=
  if String.eqb spaceID "" then SpaceRoleMember
  else (ClampSpaceRole (default 0%Z (SpaceRoles i !! spaceID))).1.

Definition CanReviewSpace (i : Identity) (spaceID : string) : bool :=
  (SpaceRoleAdmin <=? SpaceRole i spaceID)%Z.

(** ** The snapshot codec (model/plugin_snapshot.go)

    A [relations_json] column holds a JSON array of [SnapshotRelation]
    objects, modelled by the list of the objects. *)
Record SnapshotRelation := mkSnapshot {
  snap_relation_id : string;
  snap_source_plugin_id : string;
  snap_source_plugin_type : option PluginType;
  snap_target_plugin_id : string;
  snap_target_version_id : option string;
  snap_target_plugin_type : option PluginType;
  snap_relation_type : string;
  snap_sort_order : Z;
  snap_data : RawMessage;
  snap_status : Z;
  snap_created_by : string;
  snap_created_at : Z;
  snap_updated_at : Z;
  snap_deleted_at : option Z
}.

(** [json.Marshal] writes a nil [json.RawMessage] as [null]. *)
Definition marshal_raw (d : RawMessage) : RawMessage :=
  if String.eqb d "" then "null" else d.

Definition encode_relation (r : PluginRelation) : SnapshotRelation :=
  mkSnapshot (RelID r) (SourcePluginID r) (SourcePluginType r) (TargetPluginID r)
    (TargetVersionID r) (TargetPluginType r) (RelType r) (SortOrder r)
    (marshal_raw (Data r)) (RelStatus r) (RelCreatedBy r) (RelCreatedAt r)
    (RelUpdatedAt r) (RelDeletedAt r).

Definition decode_relation (r : SnapshotRelation) : PluginRelation :=
  mkRelation (snap_relation_id r) (snap_source_plugin_id r) (snap_source_plugin_type r)
    (snap_target_plugin_id r) (snap_target_version_id r) (snap_target_plugin_type r)
    (snap_relation_type r) (snap_sort_order r) (snap_data r) (snap_status r)
    (snap_created_by r) (snap_created_at r) (snap_updated_at r) (snap_deleted_at r).

Definition EncodeSnapshotRelations (rels : list PluginRelation) : list SnapshotRelation :=
  map encode_relation rels.
Definition DecodeSnapshotRelations (raw : list SnapshotRelation) : list PluginRelation :=
  map decode_relation raw.

(** ** Plugin names (model/plugin_name.go)

    [norm.NFKC] and [cases.Fold] come from golang.org/x/text. *)
Definition PluginNameMaxLength : nat := 160.

Inductive NameError := ErrPluginNameEmpty | ErrPluginNameTooLong.
#[export] Instance NameError_eq_dec : EqDecision NameError.
Proof. solve_decision. Defined.

(** The two Unicode transformations as an interface. *)
Class TextNorm := {
  NFKC : string → string;
  Fold : string → string
}.

Definition NormalizePluginName `{TextNorm} (name : string) : result NameError string :=
  let normalized := Fold (TrimSpace (NFKC name)) in
  if String.eqb normalized "" then Error ErrPluginNameEmpty
  else if (PluginNameMaxLength <? RuneCountInString normalized)%nat
  then Error ErrPluginNameTooLong
  else Ok normalized.

(** The closure [add] of [PluginNameReservationKeys]; [seen] and [keys] hold
    the same strings, so one list models both. *)
Definition add_key `{TextNorm} (keys : list string) (name : string) (optional : bool)
    : result NameError (list string) :=
  if String.eqb name "" && optional then Ok keys
  else match NormalizePluginName name with
       | Error e => Error e
       | Ok key => Ok (if mem key keys then keys else (keys ++ [key])%list)
       end.

Definition PluginNameReservationKeys `{TextNorm} (draft published : string)
    : result NameError (list string) :=
  keys ← add_key [] draft false;
  add_key keys published true.

(** ** Properties of the model *)

(** Review authority fails closed. A caller may review in a Space exactly
    when the Space is named and the role recorded for it is admin or owner; a
    missing, negative or unknown role grants nothing. *)
Theorem review_authority i spaceID :
  CanReviewSpace i spaceID = true ↔
  spaceID ≠ "" ∧ (SpaceRoles i !! spaceID = Some SpaceRoleAdmin
                  ∨ SpaceRoles i !! spaceID = Some SpaceRoleOwner).
Proof.
  unfold CanReviewSpace, SpaceRole, ClampSpaceRole, SpaceRoleAdmin, SpaceRoleOwner, SpaceRoleMember.
  destruct (String.eqb_spec spaceID ""); [naive_solver|].
  destruct (SpaceRoles i !! spaceID) as [r|]; simpl; [|naive_solver].
  destruct ((r <? 0) || (2 <? r))%Z eqn:E; simpl.
  - split; [done|]. intros [_ [[= ->]|[= ->]]]; done.
  - apply orb_false_iff in E as [E1 E2]. rewrite Z.ltb_ge in E1, E2. rewrite Z.leb_le.
    split; [|intros [_ [[= ->]|[= ->]]]; lia].
    intros Hr. split; [done|]. assert (r = 1 ∨ r = 2)%Z as [->| ->] by lia; auto.
Qed.

(** The relation a snapshot brings back: nil data reads back as [null]. *)
Definition snapshot_image (r : PluginRelation) : PluginRelation := set_Data (marshal_raw (Data r)) r.

Lemma marshal_raw_idem d : marshal_raw (marshal_raw d) = marshal_raw d.
Proof. unfold marshal_raw. destruct (String.eqb_spec d ""); [done|]. by apply String.eqb_neq in n as ->. Qed.

(** The frozen relations round trip. Decoding an encoded snapshot returns
    every relation in order, field for field, but for nil data, which reads back
    as the JSON [null]; encoding what was decoded reproduces the snapshot, so
    later copies are stable. *)
Theorem snapshot_roundtrip rels :
  DecodeSnapshotRelations (EncodeSnapshotRelations rels) = snapshot_image <$> rels
  ∧ EncodeSnapshotRelations (DecodeSnapshotRelations (EncodeSnapshotRelations rels))
    = EncodeSnapshotRelations rels.
Proof.
  split; unfold DecodeSnapshotRelations, EncodeSnapshotRelations; rewrite !map_map.
  - apply map_ext. by intros [].
  - apply map_ext. intros []. unfold encode_relation, decode_relation. simpl.
    by rewrite marshal_raw_idem.
Qed.

Lemma NormalizePluginName_Ok `{TextNorm} name key :
  NormalizePluginName name = Ok key →
  key ≠ "" ∧ (RuneCountInString key ≤ PluginNameMaxLength)%nat.
Proof.
  unfold NormalizePluginName. destruct (String.eqb_spec (Fold (TrimSpace (NFKC name))) ""); [done|].
  destruct (Nat.ltb_spec PluginNameMaxLength (RuneCountInString (Fold (TrimSpace (NFKC name))))); [done|].
  intros [= <-]. done.
Qed.

(** The keys a name reserves. On success they are the normalized draft
    name and, when there is one, the normalized published name, without
    repetition; each is non-empty and within the length limit. *)
Theorem reservation_keys `{TextNorm} draft published keys :
  PluginNameReservationKeys draft published = Ok keys →
  NoDup keys
  ∧ (∀ k, k ∈ keys ↔ NormalizePluginName draft = Ok k
                     ∨ (published ≠ "" ∧ NormalizePluginName published = Ok k))
  ∧ ∀ k, k ∈ keys → k ≠ "" ∧ (RuneCountInString k ≤ PluginNameMaxLength)%nat.
Proof.
  unfold PluginNameReservationKeys, add_key. rewrite andb_false_r. simpl.
  destruct (NormalizePluginName draft) as [dk|] eqn:Hd; simpl; [|done].
  intros Hk. assert (NoDup keys ∧ ∀ k, k ∈ keys ↔
    Ok (E:=NameError) dk = Ok k ∨ (published ≠ "" ∧ NormalizePluginName published = Ok k)) as [Hnd Hin].
  { destruct (String.eqb_spec published "") as [->|Hp]; simpl in Hk.
    - injection Hk as <-. split; [apply NoDup_singleton|set_solver].
    - destruct (NormalizePluginName published) as [pk|] eqn:Hpk; [|done].
      destruct (mem pk [dk]) eqn:Hm; injection Hk as <-; autorewrite with market in Hm.
      + assert (pk = dk) as -> by set_solver. split; [apply NoDup_singleton|].
        intros k. rewrite list_elem_of_singleton. naive_solver.
      + split; [|intros k; rewrite elem_of_cons, list_elem_of_singleton; naive_solver].
        apply NoDup_cons. split; [set_solver|apply NoDup_singleton]. }
  split_and!; [done|done|]. intros k [[= <-]|[_ Hpk]]%Hin; by eapply NormalizePluginName_Ok.
Qed.
