(* ===== verification/Notify.v ===== *)
(** * octo-server: internal/notify

    The authentication of card-action callbacks (signature.go), the bounded
    text of an approval card (card.go), and the client's checks around its two
    calls (client.go); the transport itself is a parameter. *)

From S2P Require Import Prelude GoStrings Model.
From Stdlib Require Import Ascii.
Import Go.
Local Open Scope string_scope.

Definition newline : ascii := "010".
Definition not_newline (b : ascii) : bool := negb (Ascii.eqb b newline).
Definition one_line (s : string) : bool := all_bytes not_newline s.

(** ** signature.go *)

(** [hex(sha256(body))] and [hex(hmac-sha256(secret, message))]. *)
Class Crypto := {
  sha256_hex : string → string;
  hmac_hex : string → string → string
}.

Section Signature.
Context `{Crypto}.

Definition signatureVersion : string := "v1".

(** [strings.ToUpper] of an HTTP method, an ASCII token. *)
Definition upper (c : ascii) : ascii :=
  let n := nat_of_ascii c in
  if ((97 <=? n) && (n <=? 122))%nat then ascii_of_nat (n - 32) else c.
Fixpoint ToUpper (s : string) : string :=
  match s with "" => "" | String c s' => String (upper c) (ToUpper s') end.

Definition CanonicalRequest (method path timestamp eventID body : string) : string :=
  Join [signatureVersion; ToUpper method; path; timestamp; eventID; sha256_hex body]
    (String newline "").

Definition Sign (secret method path timestamp eventID body : string) : string :=
  signatureVersion ++ "=" ++ hmac_hex secret (CanonicalRequest method path timestamp eventID body).

Definition Verify (secret signature method path timestamp eventID body : string) : bool :=
  if String.eqb secret "" || String.eqb signature "" then false
  else if negb (HasPrefix signature (signatureVersion ++ "=")) then false
  else String.eqb (Sign secret method path timestamp eventID body) signature.

(** [now] in Unix seconds, [maxSkew] in nanoseconds. *)
Definition second : Z := 1000000000.

Definition VerifyTimestampAt (header : string) (now maxSkew : Z) : bool :=
  if (maxSkew <=? 0)%Z then false
  else
    let header := TrimSpace header in
    if String.eqb header "" then false
    else match ParseInt header with
         | None => false
         | Some ts =>
             if (ts <=? 0)%Z then false
             else
               let delta := int64 (now - ts) in
               let delta := if (delta <? 0)%Z then int64 (- delta) else delta in
               ((0 <=? delta) && (delta <=? maxSkew / second))%Z
         end.

(** A callback timestamp is fresh exactly when it is a positive number of
    seconds within the configured window of the clock, in either direction; no
    value of the header, however large, wraps around into the window. *)
Theorem timestamp_window header now maxSkew :
  (0 <= now < 2 ^ 63)%Z →
  VerifyTimestampAt header now maxSkew = true ↔
  (0 < maxSkew)%Z ∧ ∃ ts, ParseInt (TrimSpace header) = Some ts ∧ (0 < ts)%Z
    ∧ (Z.abs (now - ts) <= maxSkew / second)%Z.
Proof.
  intros Hnow. unfold VerifyTimestampAt.
  destruct (maxSkew <=? 0)%Z eqn:Hs; [rewrite Z.leb_le in Hs; split; [done|lia]|].
  rewrite Z.leb_gt in Hs. case_match eqn:He.
  { apply String.eqb_eq in He as ->. split; [done|]. intros (_ & ts & Hp & _). done. }
  destruct (ParseInt _) as [ts|] eqn:Hp; [|split; [done|naive_solver]].
  pose proof (ParseInt_bounds _ _ Hp) as Hb.
  destruct (ts <=? 0)%Z eqn:Ht.
  { apply Z.leb_le in Ht. split; [done|]. intros (_ & ? & [= <-] & ? & _). lia. }
  apply Z.leb_gt in Ht. rewrite int64_small by lia. cbv zeta.
  assert ((if (now - ts <? 0)%Z then int64 (- (now - ts)) else (now - ts)%Z) = Z.abs (now - ts)) as ->.
  { destruct (now - ts <? 0)%Z eqn:E.
    - apply Z.ltb_lt in E. rewrite int64_small; lia.
    - apply Z.ltb_ge in E. lia. }
  rewrite andb_true_iff, !Z.leb_le. split.
  - intros [_ ?]. split; [done|]. by exists ts.
  - intros (_ & ? & [= <-] & _ & ?). split; [lia|done].
Qed.

(** Two header fields and a digest with no line break are determined by the
    signed message: a signature cannot be moved to another event or body. *)
Lemma canonical_injective method path ts ev body ts' ev' body' :
  one_line ts = true → one_line ts' = true → one_line ev = true → one_line ev' = true →
  CanonicalRequest method path ts ev body = CanonicalRequest method path ts' ev' body' →
  ts = ts' ∧ ev = ev' ∧ sha256_hex body = sha256_hex body'.
Proof.
  intros Ht Ht' He He'. unfold CanonicalRequest, Join.
  intros E. repeat (apply (inj (String.append _)) in E). rewrite !append_cons in E.
  assert (∀ a b x y : string, one_line a = true → one_line b = true →
    a ++ String newline x = b ++ String newline y → a = b ∧ x = y) as Hcut.
  { clear. induction a as [|c a IH]; intros [|c' b] x y Ha Hb; rewrite ?append_cons;
      cbn [String.append one_line all_bytes] in *; unfold not_newline in *.
    - by intros [= ->].
    - intros [= <- _]. by rewrite Ascii.eqb_refl in Hb.
    - intros [= -> _]. by rewrite Ascii.eqb_refl in Ha.
    - apply andb_true_iff in Ha as [_ Ha], Hb as [_ Hb]. intros [= -> E].
      by destruct (IH b x y Ha Hb E) as [-> ->]. }
  apply Hcut in E as [-> E]; [|done..]. apply Hcut in E as [-> E]; [|done..]. done.
Qed.

End Signature.

(** ** card.go *)

Definition titlePrefix : string := "插件上架申请 · ".
Definition maxTitleRunes : Z := 180.
Definition maxDescRunes : Z := 280.
Definition maxChangelogRunes : Z := 120.

Definition runeLen (s : string) : Z := Z.of_nat (List.length (Runes s)).

Definition trimRunes (s : string) (n : Z) : string :=
  if (n <=? 0)%Z then ""
  else if (runeLen s <=? n)%Z then s
  else of_runes (firstn (Z.to_nat n) (Runes s)).

(** [strings.NewReplacer("\r\n", " ", "\r", " ", "\n", " ", "\t", " ")]. *)
Definition carriage : ascii := "013".
Definition tab : ascii := "009".
Fixpoint flatten_lines (s : string) : string :=
  match s with
  | "" => ""
  | String a s' =>
      if Ascii.eqb a carriage then
        match s' with
        | String b s'' => if Ascii.eqb b newline then String " " (flatten_lines s'')
                          else String " " (flatten_lines s')
        | "" => " "
        end
      else if Ascii.eqb a newline || Ascii.eqb a tab then String " " (flatten_lines s')
      else String a (flatten_lines s')
  end.

Definition oneLine (s : string) : string := TrimSpace (flatten_lines s).

Definition CardTitle (pluginName : string) : string :=
  let budget := (maxTitleRunes - runeLen titlePrefix)%Z in
  titlePrefix ++ trimRunes (oneLine pluginName) budget.

Definition pluginTypeLabel (t : PluginType) : string :=
  match t with
  | Skill => "技能"
  | Connector => "连接器"
  | Expert => "专家"
  | ExpertTeam => "专家组"
  end.

Definition versionNote (kind : ReviewKind) (currentVersion : string) : string :=
  match kind with
  | KindVisibility => "仅修改可见范围：仅自己 → 本组织，内容版本不变"
  | KindFirst => "新上架"
  | KindUpgrade =>
      let cur := oneLine currentVersion in
      if negb (String.eqb cur "") then "当前 v" ++ trimRunes cur 40 else "新版本"
  end.

Definition CardDescription (pluginType : PluginType)
    (applicantName version currentVersion : string) (kind : ReviewKind) (changelog : string)
    : string :=
  let head := "类型:" ++ pluginTypeLabel pluginType ++ " · 申请人:"
    ++ trimRunes (oneLine applicantName) 40 ++ String newline ("版本:"
    ++ trimRunes (oneLine version) 40 ++ "(" ++ versionNote kind currentVersion ++ ")") in
  let log := trimRunes (oneLine changelog) maxChangelogRunes in
  let head := if negb (String.eqb log "") then head ++ String newline log else head in
  trimRunes head maxDescRunes.

Lemma flatten_one_line n s : (String.length s <= n)%nat → one_line (flatten_lines s) = true.
Proof.
  revert s. induction n as [|n IH]; intros [|a s] Hn; try done; [simpl in Hn; lia|].
  simpl in Hn. cbn [flatten_lines]. destruct (Ascii.eqb a carriage) eqn:Ha.
  - destruct s as [|b s]; [done|]. simpl in Hn. case_match; cbn [one_line all_bytes];
      unfold one_line; cbn [all_bytes]; apply IH; simpl; lia.
  - destruct (Ascii.eqb a newline) eqn:Hb; simpl; unfold one_line; cbn [all_bytes].
    + apply IH. lia.
    + case_match; cbn [all_bytes]; unfold not_newline at 1; rewrite ?Hb; apply IH; lia.
Qed.

Lemma oneLine_one_line s : one_line (oneLine s) = true.
Proof. apply all_bytes_TrimSpace. by eapply flatten_one_line. Qed.

Lemma trimRunes_one_line s n : one_line s = true → one_line (trimRunes s n) = true.
Proof.
  intros H. unfold trimRunes. case_match; [done|]. case_match; [done|].
  by apply all_bytes_Runes.
Qed.

Lemma trimRunes_count s n : (0 <= n)%Z → (Z.of_nat (RuneCountInString (trimRunes s n)) <= n)%Z.
Proof.
  intros Hn. unfold trimRunes. case_match eqn:H0; [change (RuneCountInString "") with 0%nat; lia|].
  apply Z.leb_gt in H0. unfold runeLen. rewrite Runes_length. case_match eqn:H1.
  - by apply Z.leb_le in H1.
  - assert (Forall rune_chunk (firstn (Z.to_nat n) (Runes s))) as Hf.
    { apply Forall_take. apply runes_of_chunks. }
    pose proof (rune_count_chunks _ "" Hf) as Hc.
    assert (∀ t : string, t ++ "" = t) as Happ.
    { induction t as [|x t IH]; [done|]. by rewrite append_cons, IH. }
    rewrite Happ in Hc. rewrite Hc, length_take, Runes_length. change (RuneCountInString "") with 0%nat. apply Z.leb_gt in H1. lia.
Qed.

(** A description of at most this many runes is not cut. *)
Lemma trimRunes_id s n : (0 < n)%Z → (Z.of_nat (RuneCountInString s) <= n)%Z → trimRunes s n = s.
Proof.
  intros Hn Hs. unfold trimRunes, runeLen. rewrite Runes_length.
  apply Z.leb_gt in Hn as ->. by apply Z.leb_le in Hs as ->.
Qed.

Lemma label_bounds t :
  (RuneCountInString (pluginTypeLabel t) <= 3)%nat ∧ one_line (pluginTypeLabel t) = true.
Proof. destruct t; (split; [by apply Nat.leb_le|done]). Qed.

Lemma note_bounds k cur :
  (RuneCountInString (versionNote k cur) <= 44)%nat ∧ one_line (versionNote k cur) = true.
Proof.
  destruct k; simpl; [split; [by apply Nat.leb_le|done]| |split; [by apply Nat.leb_le|done]].
  destruct (String.eqb (oneLine cur) ""); simpl; [split; [by apply Nat.leb_le|done]|].
  pose proof (rune_count_append "当前 v" (trimRunes (oneLine cur) 40)) as H.
  pose proof (trimRunes_count (oneLine cur) 40 ltac:(lia)).
  change (RuneCountInString "当前 v") with 4%nat in H.
  split; [lia|]. unfold one_line. rewrite all_bytes_append.
  by rewrite (trimRunes_one_line _ _ (oneLine_one_line cur)).
Qed.

(** The first two lines of a description. *)
Definition card_type_line (t : PluginType) (applicantName : string) : string :=
  "类型:" ++ pluginTypeLabel t ++ " · 申请人:" ++ trimRunes (oneLine applicantName) 40.
Definition card_version_line (version currentVersion : string) (kind : ReviewKind) : string :=
  "版本:" ++ trimRunes (oneLine version) 40 ++ "(" ++ versionNote kind currentVersion ++ ")".
Definition card_changelog (changelog : string) : string :=
  trimRunes (oneLine changelog) maxChangelogRunes.

Lemma type_line_bounds t name :
  (RuneCountInString (card_type_line t name) <= 53)%nat ∧ one_line (card_type_line t name) = true.
Proof.
  unfold card_type_line. destruct (label_bounds t) as [Hl Ho].
  pose proof (trimRunes_count (oneLine name) 40 ltac:(lia)).
  pose proof (rune_count_append "类型:" (pluginTypeLabel t ++ " · 申请人:" ++ trimRunes (oneLine name) 40)) as H1.
  pose proof (rune_count_append (pluginTypeLabel t) (" · 申请人:" ++ trimRunes (oneLine name) 40)) as H2.
  pose proof (rune_count_append " · 申请人:" (trimRunes (oneLine name) 40)) as H3.
  change (RuneCountInString "类型:") with 3%nat in H1.
  change (RuneCountInString " · 申请人:") with 7%nat in H3.
  split; [lia|]. unfold one_line in *. rewrite !all_bytes_append, Ho.
  by rewrite (trimRunes_one_line _ _ (oneLine_one_line name)).
Qed.

Lemma version_line_bounds v cur k :
  (RuneCountInString (card_version_line v cur k) <= 89)%nat
  ∧ one_line (card_version_line v cur k) = true.
Proof.
  unfold card_version_line. destruct (note_bounds k cur) as [Hl Ho].
  pose proof (trimRunes_count (oneLine v) 40 ltac:(lia)).
  pose proof (rune_count_append "版本:" (trimRunes (oneLine v) 40 ++ "(" ++ versionNote k cur ++ ")")) as H1.
  pose proof (rune_count_append (trimRunes (oneLine v) 40) ("(" ++ versionNote k cur ++ ")")) as H2.
  pose proof (rune_count_append "(" (versionNote k cur ++ ")")) as H3.
  pose proof (rune_count_append (versionNote k cur) ")") as H4.
  change (RuneCountInString "版本:") with 3%nat in H1.
  change (RuneCountInString "(") with 1%nat in H3.
  change (RuneCountInString ")") with 1%nat in H4.
  split; [lia|]. unfold one_line in *. rewrite !all_bytes_append, Ho.
  by rewrite (trimRunes_one_line _ _ (oneLine_one_line v)).
Qed.

Lemma changelog_bounds log :
  (RuneCountInString (card_changelog log) <= 120)%nat ∧ one_line (card_changelog log) = true.
Proof.
  unfold card_changelog. pose proof (trimRunes_count (oneLine log) maxChangelogRunes) as H.
  unfold maxChangelogRunes in *. split; [lia|]. apply trimRunes_one_line, oneLine_one_line.
Qed.

(** The text before the last cut. *)
Lemma description_head t name v cur k log :
  CardDescription t name v cur k log =
  trimRunes (let head := card_type_line t name ++ String newline (card_version_line v cur k) in
             if negb (String.eqb (card_changelog log) "")
             then head ++ String newline (card_changelog log) else head) maxDescRunes.
Proof.
  unfold CardDescription, card_type_line, card_version_line, card_changelog. cbv zeta.
  by rewrite !append_assoc.
Qed.

Lemma count_newline s : (RuneCountInString (String newline s) <= 1 + RuneCountInString s)%nat.
Proof.
  rewrite rune_count_step by done. rewrite rune_size_ascii by done. done.
Qed.

(** The card text is bounded and its layout cannot be forged. Whatever the
    plugin name, the applicant's name, the labels and the changelog contain,
    the title has at most 180 runes and one line; the description has at most
    280 runes, is never cut, and consists of exactly the type line, the version
    line and, if the changelog is not blank, one changelog line. *)
Theorem card_text_unforgeable name t applicant v cur k log :
  (RuneCountInString (CardTitle name) <= 180)%nat
  ∧ one_line (CardTitle name) = true
  ∧ (RuneCountInString (CardDescription t applicant v cur k log) <= 280)%nat
  ∧ Split (CardDescription t applicant v cur k log) newline
    = ([card_type_line t applicant; card_version_line v cur k]
       ++ if decide (card_changelog log = "") then [] else [card_changelog log])%list.
Proof.
  destruct (type_line_bounds t applicant) as [Ht Hto].
  destruct (version_line_bounds v cur k) as [Hv Hvo].
  destruct (changelog_bounds log) as [Hc Hco].
  assert (runeLen titlePrefix = 9%Z) as Hp by reflexivity.
  split_and!.
  - unfold CardTitle. rewrite Hp. cbv zeta.
    pose proof (rune_count_append titlePrefix (trimRunes (oneLine name) (maxTitleRunes - 9))) as H.
    pose proof (trimRunes_count (oneLine name) (maxTitleRunes - 9) ltac:(by unfold maxTitleRunes)).
    change (RuneCountInString titlePrefix) with 9%nat in H. unfold maxTitleRunes in *. lia.
  - unfold CardTitle, one_line. rewrite all_bytes_append. cbv zeta.
    by rewrite (trimRunes_one_line _ _ (oneLine_one_line name)).
  - pose proof (trimRunes_count (if negb (String.eqb (card_changelog log) "") then
      (card_type_line t applicant ++ String newline (card_version_line v cur k)) ++ String newline (card_changelog log)
      else card_type_line t applicant ++ String newline (card_version_line v cur k)) maxDescRunes
      ltac:(by unfold maxDescRunes)).
    rewrite description_head. cbv zeta. unfold maxDescRunes in *. lia.
  - rewrite description_head. cbv zeta.
    pose proof (rune_count_append (card_type_line t applicant) (String newline (card_version_line v cur k))) as H1.
    pose proof (count_newline (card_version_line v cur k)) as H2.
    destruct (String.eqb_spec (card_changelog log) "") as [E|E]; cbn [negb].
    + rewrite decide_True by done. rewrite trimRunes_id; unfold maxDescRunes; [|done|lia].
      rewrite Split_append by done. by rewrite Split_none.
    + rewrite decide_False by done.
      pose proof (rune_count_append (card_type_line t applicant ++ String newline (card_version_line v cur k))
        (String newline (card_changelog log))) as H3.
      pose proof (count_newline (card_changelog log)) as H4.
      rewrite trimRunes_id; unfold maxDescRunes; [|done|lia].
      rewrite append_assoc, append_cons, !Split_append by done. by rewrite Split_none.
Qed.

(** ** client.go

    [do] sends one request to octo-server and decodes its 2xx body; any
    transport fault, other status or undecodable body is its error. *)

Record Client := mkClient {
  baseURL : string;
  internalToken : string;
  notifyToken : string
}.

Fixpoint trim_right_slashes (s : string) : string :=
  match s with
  | "" => ""
  | String a s' => let t := trim_right_slashes s' in
                   if Ascii.eqb a "/" && String.eqb t "" then "" else String a t
  end.

Definition NewClient (baseURL internalToken notifyToken : string) : Client :=
  mkClient (trim_right_slashes (TrimSpace baseURL)) (TrimSpace internalToken)
    (TrimSpace notifyToken).

(** A nil client is [None]. *)
Definition NotifyEnabled (c : option Client) : bool :=
  match c with
  | Some c => negb (String.eqb (baseURL c) "") && negb (String.eqb (notifyToken c) "")
  | None => false
  end.
Definition RoleEnabled (c : option Client) : bool :=
  match c with
  | Some c => negb (String.eqb (baseURL c) "") && negb (String.eqb (internalToken c) "")
  | None => false
  end.

Inductive NotifyError :=
| errDisabled | errMissingSpace | errMissingCard | errMissingAction | errMissingSubject
| errNoData | errTransport.

(** The decoded [memberRoleEnvelope]: [data] and [data.role] may be absent. *)
Definition RoleEnvelope : Type := option (option Z).

Definition MemberRole (c : option Client)
    (do : string → string → result NotifyError RoleEnvelope) (spaceID uid : string)
    : result NotifyError (option Z) :=
  if negb (RoleEnabled c) then Error errDisabled
  else
    let spaceID := TrimSpace spaceID in
    let uid := TrimSpace uid in
    if String.eqb spaceID "" || String.eqb uid "" then Error errMissingSubject
    else
      env ← do spaceID uid;
      match env with
      | None => Error errNoData
      | Some None => mret None
      | Some (Some role) =>
          let '(clamped, bad) := ClampSpaceRole role in
          if (bad : bool) then mret (Some clamped) else mret (Some role)
      end.

Record ApprovalCard := mkCard {
  ActionType : string;
  CTitle : string;
  CDescription : string;
  CData : list (string * string)
}.

Record NotifyRequest := mkNotifyRequest {
  NSpaceID : string;
  NService : string;
  NActorUID : string;
  NApprovalCard : option ApprovalCard
}.

(** [notifyWire]: the body posted; the recipients are always a role. *)
Record NotifyWire := mkWire {
  w_space_id : string;
  w_service : string;
  w_target_role : string;
  w_actor_uid : string;
  w_card : ApprovalCard
}.

Record NotifyResponse := mkNotifyResponse {
  Delivered : list string;
  Filtered : list (string * string)
}.

Definition NotifySpaceAdmins (c : option Client)
    (do : NotifyWire → result NotifyError NotifyResponse) (req : NotifyRequest)
    : result NotifyError NotifyResponse :=
  if negb (NotifyEnabled c) then Error errDisabled
  else
    let spaceID := TrimSpace (NSpaceID req) in
    if String.eqb spaceID "" then Error errMissingSpace
    else match NApprovalCard req with
    | None => Error errMissingCard
    | Some card =>
        if String.eqb (TrimSpace (ActionType card)) "" then Error errMissingAction
        else
          let service := TrimSpace (NService req) in
          let service := if String.eqb service "" then "marketplace" else service in
          do (mkWire spaceID service "space_admin" (TrimSpace (NActorUID req)) card)
    end.

(** A role that grants review authority was reported by octo-server as such:
    whatever the upstream encoding drifts to, a value outside 0..2 reads as a
    plain member, and "not a member" and "could not find out" stay apart. *)
Lemma MemberRole_sound c do spaceID uid r :
  MemberRole c do spaceID uid = Ok (Some r) →
  (SpaceRoleAdmin <= r)%Z →
  RoleEnabled c = true ∧ do (TrimSpace spaceID) (TrimSpace uid) = Ok (Some (Some r))
  ∧ (r = SpaceRoleAdmin ∨ r = SpaceRoleOwner).
Proof.
  unfold MemberRole. destruct (RoleEnabled c); simpl; [|done].
  destruct (String.eqb (TrimSpace spaceID) "" || _); [done|].
  destruct (do _ _) as [[[role|]|]|]; simpl; try done. unfold ClampSpaceRole.
  destruct ((role <? SpaceRoleMember) || (SpaceRoleOwner <? role))%Z eqn:E; intros [= <-].
  - by unfold SpaceRoleMember, SpaceRoleAdmin; intros [].
  - intros Hr. split; [done|]. split; [done|]. apply orb_false_iff in E as [E1 E2].
    rewrite Z.ltb_ge in E1, E2. unfold SpaceRoleMember, SpaceRoleAdmin, SpaceRoleOwner in *. lia.
Qed.
