(* ===== verification/Objects.v ===== *)
(** * Object storage: internal/storage, internal/artifactscope, freezeArtifact

    The reserved namespace of immutable version objects, the S3-backed storage
    with its guards (the bucket itself is a map from physical keys to bytes,
    each client call may fail before or after it took effect), the ownership of
    artifact keys, and service/plugin/version_artifacts.go, freezeArtifact:
    the copy of a saved attachment under its digest. *)

From S2P Require Import Prelude GoStrings Model Notify.
From Stdlib Require Import Ascii.
Import Go.
Local Open Scope string_scope.

(** ** Key namespaces (immutable.go, artifactscope.go) *)

Definition alnum (c : ascii) : bool := is_letter c || is_digit c.
Definition segment_byte (c : ascii) : bool :=
  alnum c || Ascii.eqb c "." || Ascii.eqb c "_" || Ascii.eqb c "-".

(** [^[A-Za-z0-9][A-Za-z0-9._-]{0,127}$] *)
Definition segment (s : string) : bool :=
  match s with
  | "" => false
  | String c s' => alnum c && (String.length s' <=? 127)%nat && all_bytes segment_byte s'
  end.

Definition hex_byte (c : ascii) : bool := is_digit c || in_range 97 102 c.
(** [^[a-f0-9]{64}$] *)
Definition digest64 (s : string) : bool := (String.length s =? 64)%nat && all_bytes hex_byte s.

(** [strings.TrimLeft(s, "/")] *)
Fixpoint TrimLeftSlash (s : string) : string :=
  match s with
  | String a s' => if Ascii.eqb a slash then TrimLeftSlash s' else s
  | "" => ""
  end.

Definition IsImmutableArtifactKey (key : string) : bool :=
  let key := TrimLeftSlash (Clean key) in
  match CutPrefix key "platform/plugins/" with
  | Some rest =>
      match Cut rest slash with
      | Some (resource, tail) =>
          segment resource && match CutPrefix tail "attachments/versions/" with
                              | Some digest => digest64 digest
                              | None => false
                              end
      | None => false
      end
  | None =>
      match CutPrefix key "plugins/" with
      | Some rest =>
          match Cut rest slash with
          | Some (space, tail) =>
              segment space && match CutPrefix tail "attachments/versions/" with
                               | Some digest => negb (String.eqb digest "")
                               | None => false
                               end
          | None => false
          end
      | None => false
      end
  end.

(** [artifactscope.Prefix]; a nil plugin is [None]. *)
Definition Prefix (p : option Plugin) : string :=
  match p with
  | None => ""
  | Some p =>
      if decide (NormalizeLegacyVisibility (Visibility p) = VSystem) then
        if segment (ID p) then "platform/plugins/" ++ ID p ++ "/attachments/" else ""
      else match SpaceID p with
           | Some sp => if segment sp then "plugins/" ++ sp ++ "/attachments/" else ""
           | None => ""
           end
  end.

Definition unsafe_bytes : list ascii := ["\"%char; "000"%char; "?"%char; "#"%char].

Definition within (key prefix : string) : bool :=
  negb (String.eqb prefix "") && (String.length key <=? 512)%nat
  && negb (ContainsAny key unsafe_bytes) && negb (Contains key "://")
  && String.eqb (Clean key) key && HasPrefix key prefix
  && (String.length prefix <? String.length key)%nat.

Definition Allows (p : option Plugin) (key : string) : bool :=
  match p with
  | None => false
  | Some q =>
      within key (Prefix p)
      || (bool_decide (NormalizeLegacyVisibility (Visibility q) = VSystem)
          && match SpaceID q with
             | Some sp => segment sp && within key ("plugins/" ++ sp ++ "/attachments/")
             | None => false
             end)
  end.

(** ** Service-side key checks (artifact.go, documents.go) *)

Definition approvedAttachmentPrefix (spaceID : string) : string :=
  "plugins/" ++ spaceID ++ "/attachments/".

Definition validReferencedObjectKey (key spaceID : string) : bool :=
  let prefix := approvedAttachmentPrefix spaceID in
  if String.eqb key "" || ContainsAny key unsafe_bytes || Contains key "://"
     || HasPrefix key "/" || negb (HasPrefix key prefix) then false
  else
    let clean := Clean key in
    String.eqb clean key && HasPrefix clean prefix
    && (0 <? String.length (drop (String.length prefix) clean))%nat.

Definition artifactWriteScope (spaceID : string) (resources : list (option Plugin))
    (key : string) : bool :=
  match resources with
  | Some p :: _ => Allows (Some p) key
  | _ => false
  end
  || (segment spaceID && validReferencedObjectKey key spaceID).

(** ** The bucket (oss.go, oss_immutable.go) *)

Inductive fault := Clean_run | Lost | Ambiguous.
Inductive StorageError := ErrImmutableObject | ErrObjectNotFound | ErrClient.

Abbreviation Bucket := (gmap string string) (only parsing).

(** A client call that changes the bucket: it may fail without effect, or
    report a failure after taking effect. *)
Definition client_call (f : fault) (b b' : Bucket) : result StorageError unit * Bucket :=
  match f with
  | Clean_run => (Ok tt, b')
  | Lost => (Error ErrClient, b)
  | Ambiguous => (Error ErrClient, b')
  end.

Definition oss_key (keyPrefix key : string) : string :=
  let key := TrimLeftSlash key in
  if String.eqb keyPrefix "" then key else keyPrefix ++ "/" ++ key.

Section Oss.
Context (keyPrefix : string).

Definition PutObject (key body : string) (f : fault) (b : Bucket) : result StorageError unit * Bucket :=
  if IsImmutableArtifactKey key then (Error ErrImmutableObject, b)
  else client_call f b (<[oss_key keyPrefix key := body]> b).

Definition DeleteObject (key : string) (f : fault) (b : Bucket) : result StorageError unit * Bucket :=
  if IsImmutableArtifactKey key then (Error ErrImmutableObject, b)
  else client_call f b (delete (oss_key keyPrefix key) b).

Definition CopyObject (src dst : string) (f : fault) (b : Bucket) : result StorageError unit * Bucket :=
  if IsImmutableArtifactKey dst then (Error ErrImmutableObject, b)
  else match b !! oss_key keyPrefix src with
       | Some body => client_call f b (<[oss_key keyPrefix dst := body]> b)
       | None => (Error ErrClient, b)
       end.

(** A presigned URL, and the client's later upload through it. *)
Definition PresignPut (key : string) : result StorageError string :=
  if IsImmutableArtifactKey key then Error ErrImmutableObject else Ok (oss_key keyPrefix key).

Definition presigned_upload (key body : string) (f : fault) (b : Bucket)
    : result StorageError unit * Bucket :=
  match PresignPut key with
  | Ok physical => client_call f b (<[physical := body]> b)
  | Error e => (Error e, b)
  end.

(** [IfNoneMatch: "*"]: an existing object fails the precondition. A body that
    is not [size] bytes long fails in the client. *)
Definition PutImmutable (key body : string) (size : Z) (f : fault) (b : Bucket)
    : result StorageError bool * Bucket :=
  if negb (IsImmutableArtifactKey key) || (size <? 0)%Z then (Error ErrImmutableObject, b)
  else if negb (Z.of_nat (String.length body) =? size)%Z then (Error ErrClient, b)
  else match b !! oss_key keyPrefix key with
       | Some _ => match f with Clean_run => (Ok false, b) | _ => (Error ErrClient, b) end
       | None => let '(r, b') := client_call f b (<[oss_key keyPrefix key := body]> b) in
                 (match r with Ok _ => Ok true | Error e => Error e end, b')
       end.

Definition StatObject (key : string) (f : fault) (b : Bucket) : result StorageError Z :=
  match f, b !! oss_key keyPrefix key with
  | Clean_run, Some body => Ok (Z.of_nat (String.length body))
  | Clean_run, None => Error ErrObjectNotFound
  | _, _ => Error ErrClient
  end.

Definition GetObject (key : string) (f : fault) (b : Bucket) : result StorageError string :=
  match f, b !! oss_key keyPrefix key with
  | Clean_run, Some body => Ok body
  | _, _ => Error ErrClient
  end.

(** Everything that writes the bucket. *)
Inductive OssOp :=
| OPut (key body : string)
| ODelete (key : string)
| OCopy (src dst : string)
| OUpload (key body : string)
| OPutImmutable (key body : string) (size : Z).

Definition oss_run (o : OssOp) (f : fault) (b : Bucket) : Bucket :=
  match o with
  | OPut key body => (PutObject key body f b).2
  | ODelete key => (DeleteObject key f b).2
  | OCopy src dst => (CopyObject src dst f b).2
  | OUpload key body => (presigned_upload key body f b).2
  | OPutImmutable key body size => (PutImmutable key body size f b).2
  end.

Inductive oss_step : Bucket → Bucket → Prop :=
| oss_step_run o f b : oss_step b (oss_run o f b).

Definition oss_steps : Bucket → Bucket → Prop := rtc oss_step.
End Oss.

(** ** Canonical keys *)

(** An element that lexical cleaning keeps. *)
Definition normal_elem (e : string) : Prop :=
  e ≠ "" ∧ e ≠ "." ∧ e ≠ ".." ∧ all_bytes (λ b, negb (Ascii.eqb b slash)) e = true.

Definition canonical (key : string) : Prop :=
  ∃ l, l ≠ [] ∧ Forall normal_elem l ∧ key = Join l "/".

Lemma Split_elems l : l ≠ [] → Forall normal_elem l → Split (Join l "/") slash = l.
Proof. intros Hne Hl. apply Split_Join; [done|]. eapply Forall_impl; [exact Hl|]. by intros e (_ & _ & _ & He). Qed.

Lemma clean_fold_canonical rooted l acc :
  Forall normal_elem l → foldl (clean_elem rooted) acc l = (reverse l ++ acc)%list.
Proof.
  intros Hl. revert acc. induction Hl as [|e l (H1 & H2 & H3 & _) _ IH]; intros acc; [done|].
  simpl. unfold clean_elem at 2. apply String.eqb_neq in H1, H2, H3.
  rewrite H1, H2, H3. simpl. by rewrite IH, reverse_cons, <-(assoc_L (++)%list).
Qed.

Lemma Join_first e l sep : e ≠ "" → ∃ c t, Join (e :: l) sep = String c t ∧ ∃ t', e = String c t'.
Proof. destruct e as [|c e]; [done|]. intros _. destruct l; simpl; eauto. Qed.

Lemma canonical_first key : canonical key → ∃ c t, key = String c t ∧ Ascii.eqb c slash = false.
Proof.
  intros (l & Hne & Hl & ->). destruct Hl as [|e l (He & _ & _ & Hs) _]; [done|].
  destruct (Join_first e l "/" He) as (c & t & Hj & t' & ->). rewrite Hj. exists c, t. split; [done|].
  simpl in Hs. apply andb_true_iff in Hs as [Hs _]. by apply negb_true_iff in Hs.
Qed.

Fixpoint slashes (n : nat) (s : string) : string :=
  match n with 0 => s | S n' => String slash (slashes n' s) end.

Lemma TrimLeftSlash_slashes s : ∃ n, s = slashes n (TrimLeftSlash s).
Proof.
  induction s as [|c s [n IH]]; [by exists 0|]. simpl.
  destruct (Ascii.eqb_spec c slash) as [->|]; [exists (S n); simpl; congruence|by exists 0].
Qed.

Lemma canonical_trim key : canonical key → TrimLeftSlash key = key.
Proof. intros (c & t & -> & Hc)%canonical_first. simpl. by rewrite Hc. Qed.

(** Leading slashes are dropped by cleaning, but for one. *)
Lemma Clean_slashes n key : canonical key → TrimLeftSlash (Clean (slashes n key)) = key.
Proof.
  intros Hk. destruct (canonical_first _ Hk) as (c & t & Hck & Hc).
  destruct Hk as (l & Hne & Hl & Hkey). 
  assert (∀ r, reverse (foldl (clean_elem r) [] (Split (slashes n key) slash)) = l) as Hfold.
  { intros r. assert (∀ acc, foldl (clean_elem r) acc (Split (slashes n key) slash)
                     = foldl (clean_elem r) acc (Split key slash)) as ->.
    { induction n as [|m IH]; intros acc; [done|]. simpl. by rewrite IH. }
    rewrite Hkey, Split_elems, clean_fold_canonical by done. by rewrite app_nil_r, reverse_involutive. }
  unfold Clean, clean_elems. rewrite Hfold, <-Hkey.
  assert (TrimLeftSlash key = key) as Ht by (rewrite Hck; simpl; by rewrite Hc).
  destruct (IsAbs _); [done|]. by rewrite Hck; simpl; rewrite Hc.
Qed.

Lemma Clean_canonical key : canonical key → Clean key = key.
Proof.
  intros Hk. destruct (canonical_first _ Hk) as (c & t & Hck & Hc).
  destruct Hk as (l & Hne & Hl & Hkey). unfold Clean, clean_elems.
  assert (IsAbs key = false) as ->.
  { rewrite Hck. unfold IsAbs. cbn [HasPrefix]. apply andb_false_iff. left. by rewrite Ascii.eqb_sym. }
  rewrite Hkey, Split_elems, clean_fold_canonical, app_nil_r, reverse_involutive by done.
  rewrite <-Hkey, Hck. done.
Qed.

(** Two keys of one object, one of them canonical, are in the reserved
    namespace together: the guards cannot be bypassed by an alias. *)
Lemma immutable_alias keyPrefix key key' :
  canonical key → oss_key keyPrefix key' = oss_key keyPrefix key →
  IsImmutableArtifactKey key' = IsImmutableArtifactKey key.
Proof.
  intros Hk. unfold oss_key. intros E.
  assert (TrimLeftSlash key' = key) as Ht.
  { rewrite (canonical_trim key Hk) in E. destruct (String.eqb keyPrefix ""); [done|].
    apply (inj (String.append keyPrefix)) in E. by apply (inj (String.append "/")) in E. }
  destruct (TrimLeftSlash_slashes key') as [n Hn]. rewrite Ht in Hn.
  unfold IsImmutableArtifactKey. rewrite Hn, (Clean_slashes n key Hk), (Clean_canonical key Hk).
  by rewrite (canonical_trim key Hk).
Qed.

Lemma client_call_bucket f b b' : (client_call f b b').2 = b ∨ (client_call f b b').2 = b'.
Proof. destruct f; auto. Qed.

Lemma oss_run_keeps keyPrefix key body o f b :
  canonical key → IsImmutableArtifactKey key = true → b !! oss_key keyPrefix key = Some body →
  oss_run keyPrefix o f b !! oss_key keyPrefix key = Some body.
Proof.
  intros Hc Hi Hb.
  assert (∀ k, IsImmutableArtifactKey k = false → oss_key keyPrefix k ≠ oss_key keyPrefix key) as Hne.
  { intros k Hk E. rewrite (immutable_alias keyPrefix key k) in Hk by done. congruence. }
  destruct o; simpl; unfold PutObject, DeleteObject, CopyObject, presigned_upload, PresignPut, PutImmutable.
  - destruct (IsImmutableArtifactKey key0) eqn:E; [done|].
    destruct (client_call_bucket f b (<[oss_key keyPrefix key0:=body0]> b)) as [->| ->]; [done|].
    by rewrite lookup_insert_ne by auto.
  - destruct (IsImmutableArtifactKey key0) eqn:E; [done|].
    destruct (client_call_bucket f b (delete (oss_key keyPrefix key0) b)) as [->| ->]; [done|].
    by rewrite lookup_delete_ne by auto.
  - destruct (IsImmutableArtifactKey dst) eqn:E; [done|]. case_match; [|done].
    destruct (client_call_bucket f b (<[oss_key keyPrefix dst:=s]> b)) as [->| ->]; [done|].
    by rewrite lookup_insert_ne by auto.
  - destruct (IsImmutableArtifactKey key0) eqn:E; [done|]. cbv beta iota.
    destruct (client_call_bucket f b (<[oss_key keyPrefix key0:=body0]> b)) as [->| ->]; [done|].
    by rewrite lookup_insert_ne by auto.
  - case_match; [done|]. case_match; [done|]. case_match eqn:Hk; [by destruct f|].
    destruct (client_call f b _) as [r b'] eqn:E. simpl.
    assert (b' = (client_call f b (<[oss_key keyPrefix key0:=body0]> b)).2) as -> by by rewrite E.
    destruct (client_call_bucket f b (<[oss_key keyPrefix key0:=body0]> b)) as [->| ->]; [done|].
    rewrite lookup_insert_ne by congruence. done.
Qed.

(** C20: version objects are immutable. Once an object exists under a canonical
    key of the reserved namespace, no sequence of uploads (direct, presigned or
    conditional), copies and deletions, under any spelling of any key and with
    any client failures, changes or removes it. *)
Theorem version_objects_immutable keyPrefix key body b b' :
  canonical key → IsImmutableArtifactKey key = true →
  oss_steps keyPrefix b b' →
  b !! oss_key keyPrefix key = Some body → b' !! oss_key keyPrefix key = Some body.
Proof.
  intros Hc Hi. induction 1 as [|x y z [o f w] _ IH]; [done|]. intros Hb. apply IH.
  by apply oss_run_keeps.
Qed.

(** ** Freezing an artifact (version_artifacts.go) *)

Inductive FreezeError :=
| FInvalidRequest | FTooLarge | FIntegrity | FSpool | FStorage (e : StorageError)
| FDocument.

(** Faults of the client calls and of the spool file, and what other requests
    do to the bucket before each of the calls. *)
Record FreezeEnv := mkFreezeEnv {
  flt : nat → fault;
  spool_ok : bool;
  meanwhile : nat → list (OssOp * fault)
}.

Section Freeze.
Context `{Crypto} (keyPrefix : string).

Definition interfere (l : list (OssOp * fault)) (b : Bucket) : Bucket :=
  foldl (λ b op, oss_run keyPrefix op.1 op.2 b) b l.

Definition verifyFrozenArtifact (key : string) (size : Z) (hash : string) (f : fault) (b : Bucket)
    : result FreezeError unit :=
  match GetObject keyPrefix key f b with
  | Error _ => Error FIntegrity
  | Ok body =>
      let body := take (Z.to_nat (size + 1)) body in
      if negb (Z.of_nat (String.length body) =? size)%Z || negb (String.eqb (sha256_hex body) hash)
      then Error FIntegrity else Ok tt
  end.

(** The key a digest is frozen under. *)
Definition freeze_prefix (spaceID : string) (resources : list (option Plugin)) : string :=
  match resources with
  | Some _ :: _ => Prefix (default None (last resources))
  | _ => approvedAttachmentPrefix spaceID
  end.

(** The result, the running total and the bucket left. *)
Definition freezeArtifact (spaceID key : string) (limit total maxArchiveBytes : Z)
    (resources : list (option Plugin)) (e : FreezeEnv) (b : Bucket)
    : result FreezeError (string * Z * string) * Z * Bucket :=
  if negb (artifactWriteScope spaceID resources key) then (Error FInvalidRequest, total, b)
  else
    let remaining := (maxArchiveBytes - total)%Z in
    if (remaining <=? 0)%Z then (Error FTooLarge, total, b)
    else
      let limit := if (remaining <? limit)%Z then remaining else limit in
      let b := interfere (meanwhile e 0) b in
      match StatObject keyPrefix key (flt e 0) b with
      | Error ErrObjectNotFound => (Error FIntegrity, total, b)
      | Error err => (Error (FStorage err), total, b)
      | Ok _ =>
          let b := interfere (meanwhile e 1) b in
          match GetObject keyPrefix key (flt e 1) b with
          | Error err => (Error (FStorage err), total, b)
          | Ok body =>
              if negb (spool_ok e) then (Error FSpool, total, b)
              else
                let data := take (Z.to_nat (limit + 1)) body in
                let n := Z.of_nat (String.length data) in
                if (limit <? n)%Z then (Error FTooLarge, total, b)
                else
                  let total := (total + n)%Z in
                  let hash := sha256_hex data in
                  let digest := "sha256:" ++ hash in
                  let prefix := freeze_prefix spaceID resources in
                  if String.eqb prefix "" then (Error FInvalidRequest, total, b)
                  else
                    let frozen := prefix ++ "versions/" ++ hash in
                    if String.eqb key frozen then (Ok (frozen, n, digest), total, b)
                    else
                      let b := interfere (meanwhile e 2) b in
                      match PutImmutable keyPrefix frozen data n (flt e 2) b with
                      | (Error err, b) => (Error (FStorage err), total, b)
                      | (Ok true, b) => (Ok (frozen, n, digest), total, b)
                      | (Ok false, b) =>
                          let b := interfere (meanwhile e 3) b in
                          match verifyFrozenArtifact frozen n hash (flt e 3) b with
                          | Error err => (Error err, total, b)
                          | Ok _ => (Ok (frozen, n, digest), total, b)
                          end
                      end
          end
      end.

(** ** Frozen keys *)

Lemma CutPrefix_append p r : CutPrefix (p ++ r) p = Some r.
Proof.
  unfold CutPrefix. assert (HasPrefix (p ++ r) p = true) as ->.
  { induction p as [|a p IH]; [by destruct r|]. rewrite append_cons. simpl.
    by rewrite Ascii.eqb_refl. }
  by rewrite drop_append.
Qed.

Lemma Cut_append a b c :
  all_bytes (λ x, negb (Ascii.eqb x c)) a = true → Cut (a ++ String c b) c = Some (a, b).
Proof.
  induction a as [|x a IH]; intros Ha; [simpl; by rewrite Ascii.eqb_refl|].
  rewrite append_cons. simpl in *. apply andb_true_iff in Ha as [Hx Ha].
  apply negb_true_iff in Hx as ->. by rewrite IH.
Qed.

Lemma byte_not_slash (f : ascii → bool) :
  f slash = false → ∀ c, f c = true → negb (Ascii.eqb c slash) = true.
Proof. intros Hf c Hc. apply negb_true_iff. destruct (Ascii.eqb_spec c slash); congruence. Qed.

Lemma segment_normal s : segment s = true → normal_elem s.
Proof.
  destruct s as [|c s]; [done|]. unfold segment. intros [[Hc _]%andb_true_iff Hs]%andb_true_iff.
  split_and!; [done|intros [= -> _]; by vm_compute in Hc..|].
  simpl. rewrite (byte_not_slash alnum eq_refl _ Hc). simpl.
  eapply all_bytes_impl, Hs. by apply (byte_not_slash segment_byte).
Qed.

Lemma digest_normal s : digest64 s = true → normal_elem s.
Proof.
  unfold digest64. intros [Hl Hs]%andb_true_iff. apply Nat.eqb_eq in Hl.
  split_and!; [by intros ->..|]. eapply all_bytes_impl, Hs. by apply (byte_not_slash hex_byte).
Qed.

Lemma frozen_key_immutable ns sp hash :
  ns = "plugins/" ∨ ns = "platform/plugins/" → segment sp = true → digest64 hash = true →
  canonical (ns ++ sp ++ "/attachments/versions/" ++ hash)
  ∧ IsImmutableArtifactKey (ns ++ sp ++ "/attachments/versions/" ++ hash) = true.
Proof.
  intros Hns Hsp Hh. pose proof (segment_normal _ Hsp) as Hsn. pose proof (digest_normal _ Hh) as Hhn.
  assert (canonical (ns ++ sp ++ "/attachments/versions/" ++ hash)) as Hc.
  { destruct Hns as [->| ->].
    - exists ["plugins"; sp; "attachments"; "versions"; hash]. split; [done|].
      split; [|done]. repeat (apply Forall_cons; split); try apply Forall_nil; try done;
        by repeat split.
    - exists ["platform"; "plugins"; sp; "attachments"; "versions"; hash]. split; [done|].
      split; [|done]. repeat (apply Forall_cons; split); try apply Forall_nil; try done;
        by repeat split. }
  split; [done|]. unfold IsImmutableArtifactKey. rewrite Clean_canonical, canonical_trim by done.
  change ("/attachments/versions/" ++ hash) with (String slash ("attachments/versions/" ++ hash)).
  destruct Hns as [->| ->].
  - assert (CutPrefix ("plugins/" ++ sp ++ String slash ("attachments/versions/" ++ hash))
      "platform/plugins/" = None) as -> by done.
    rewrite CutPrefix_append, Cut_append by apply Hsn. rewrite Hsp, CutPrefix_append. simpl.
    by destruct hash.
  - rewrite CutPrefix_append, Cut_append by apply Hsn. by rewrite Hsp, CutPrefix_append, Hh.
Qed.

Lemma interfere_steps l b : oss_steps keyPrefix b (interfere l b).
Proof.
  revert b. induction l as [|[o f] l IH]; intros b; [done|].
  eapply rtc_l; [by constructor|apply IH].
Qed.

(** A write scope that admits a key resolves its destination to a Space or a
    platform resource. *)
Lemma freeze_prefix_shape spaceID resources key :
  artifactWriteScope spaceID resources key = true → freeze_prefix spaceID resources ≠ "" →
  ∃ ns sp, (ns = "plugins/" ∨ ns = "platform/plugins/") ∧ segment sp = true
    ∧ freeze_prefix spaceID resources = ns ++ sp ++ "/attachments/".
Proof.
  intros Hs Hp.
  assert (∀ o, Prefix o ≠ "" → ∃ ns sp, (ns = "plugins/" ∨ ns = "platform/plugins/")
    ∧ segment sp = true ∧ Prefix o = ns ++ sp ++ "/attachments/") as Hpre.
  { intros [p|]; [|done]. unfold Prefix. case_decide.
    - destruct (segment (ID p)) eqn:E; [|done]. exists "platform/plugins/", (ID p). auto.
    - destruct (SpaceID p) as [sp|]; [|done]. destruct (segment sp) eqn:E; [|done].
      exists "plugins/", sp. auto. }
  unfold freeze_prefix in *. unfold artifactWriteScope in Hs.
  destruct resources as [|[p|] l]; [|by apply Hpre|].
  - simpl in Hs. apply andb_true_iff in Hs as [Hs _]. exists "plugins/", spaceID. auto.
  - simpl in Hs. apply andb_true_iff in Hs as [Hs _]. exists "plugins/", spaceID. auto.
Qed.

End Freeze.

(** ** What a frozen artifact guarantees *)

(** SHA-256 in hexadecimal is 64 lower-case digits. *)
Class CryptoLaws `{Crypto} := { sha256_digest : ∀ s, digest64 (sha256_hex s) = true }.

(** The object under [frozen] is [n] bytes whose digest is recorded. *)
Definition frozen_object `{Crypto} (keyPrefix frozen : string) (n : Z) (digest : string) (b : Bucket) : Prop :=
  ∃ body, b !! oss_key keyPrefix frozen = Some body ∧ Z.of_nat (String.length body) = n
    ∧ digest = "sha256:" ++ sha256_hex body.

Section Frozen.
Context `{CryptoLaws} (keyPrefix : string).

Lemma take_all n s : (String.length (take n s) < n)%nat → take n s = s.
Proof.
  revert s. induction n as [|n IH]; intros [|c s]; simpl; try done; [lia|].
  intros Hl. rewrite IH by lia. done.
Qed.

(** Read in full: fewer bytes than one past the limit. *)
Lemma take_within limit s :
  (Z.of_nat (String.length (take (Z.to_nat (limit + 1)) s)) <= limit)%Z →
  take (Z.to_nat (limit + 1)) s = s.
Proof. intros Hl. apply take_all. lia. Qed.

Lemma verify_sound key size hash f b :
  verifyFrozenArtifact keyPrefix key size hash f b = Ok tt →
  ∃ body, b !! oss_key keyPrefix key = Some body ∧ Z.of_nat (String.length body) = size
    ∧ sha256_hex body = hash.
Proof.
  unfold verifyFrozenArtifact, GetObject. destruct f; [|done..].
  destruct (b !! _) as [body|] eqn:Hb; [|done]. intros Hv. exists body. split; [done|].
  destruct (negb (Z.of_nat _ =? size)%Z) eqn:E1; [done|].
  destruct (String.eqb_spec (sha256_hex (take (Z.to_nat (size + 1)) body)) hash) as [E2|]; [|done].
  apply negb_false_iff, Z.eqb_eq in E1. assert (take (Z.to_nat (size + 1)) body = body) as Ht by (apply take_within; lia).
  by rewrite Ht in E1, E2.
Qed.

Lemma PutImmutable_sound key body n f b r b' :
  PutImmutable keyPrefix key body n f b = (Ok r, b') →
  oss_steps keyPrefix b b' ∧ (r = true → b' !! oss_key keyPrefix key = Some body).
Proof.
  intros Hp. split.
  - apply rtc_once. replace b' with (oss_run keyPrefix (OPutImmutable key body n) f b); [constructor|].
    simpl. by rewrite Hp.
  - intros ->. revert Hp. unfold PutImmutable. do 2 (case_match; [done|]).
    case_match; [by destruct f|]. destruct f; simpl; intros [= <-]. by rewrite lookup_insert_eq.
Qed.

Definition version_object (key : string) (n : Z) (digest : string) (b : Bucket) : Prop :=
  canonical key ∧ IsImmutableArtifactKey key = true ∧ frozen_object keyPrefix key n digest b.

Lemma version_object_kept key n digest b b' :
  oss_steps keyPrefix b b' → version_object key n digest b → version_object key n digest b'.
Proof.
  intros Hs (Hc & Hi & body & Hb & Hn & Hd). split_and!; [done|done|]. exists body. split; [|done].
  revert Hb. induction Hs as [|x y z [o f w] _ IH]; [done|]. intros Hb. apply IH. by apply oss_run_keeps.
Qed.

Lemma freeze_steps spaceID key limit total maxBytes resources e b r total' b' :
  freezeArtifact keyPrefix spaceID key limit total maxBytes resources e b = (r, total', b') →
  oss_steps keyPrefix b b'.
Proof.
  assert (∀ key body n f x r x', PutImmutable keyPrefix key body n f x = (r, x') → oss_steps keyPrefix x x') as Hput.
  { intros k body n f x r0 x' Hp. apply rtc_once.
    replace x' with (oss_run keyPrefix (OPutImmutable k body n) f x); [constructor|]. simpl. by rewrite Hp. }
  unfold freezeArtifact. pose proof (interfere_steps keyPrefix (meanwhile e 0) b) as Hint.
  repeat case_match; intros; simplify_eq; try done;
    repeat first [done | etrans; [|apply interfere_steps] | etrans; [|by eapply Hput]].
Qed.

(** A frozen key is ASCII text. *)
Lemma freeze_key_text spaceID key limit total maxBytes resources e b frozen n digest total' b' :
  freezeArtifact keyPrefix spaceID key limit total maxBytes resources e b
    = (Ok (frozen, n, digest), total', b') → Valid frozen = true.
Proof.
  intros Hf. apply Valid_ascii.
  assert (∃ hash, frozen = freeze_prefix spaceID resources ++ "versions/" ++ hash ∧ digest64 hash = true
    ∧ artifactWriteScope spaceID resources key = true ∧ freeze_prefix spaceID resources ≠ "")
    as (hash & -> & Hd & Hs & Hp).
  { unfold freezeArtifact in Hf. destruct (artifactWriteScope spaceID resources key); simpl in Hf; [|done].
    destruct (String.eqb_spec (freeze_prefix spaceID resources) "") as [E|];
      [repeat case_match; simplify_eq/=; done|].
    repeat case_match; simplify_eq/=; eexists; (split; [reflexivity|]); (split; [apply sha256_digest|done]). }
  destruct (freeze_prefix_shape _ _ _ Hs Hp) as (ns & sp & Hns & Hsp & ->).
  assert (∀ c, segment_byte c = true → ascii7 c = true) as Hseg by (intros [[] [] [] [] [] [] [] []]; by vm_compute).
  assert (∀ c, hex_byte c = true → ascii7 c = true) as Hhex by (intros [[] [] [] [] [] [] [] []]; by vm_compute).
  assert (all_bytes ascii7 sp = true) as Ha.
  { destruct sp as [|c sp]; [done|]. simpl in Hsp. apply andb_true_iff in Hsp as [[Hc _]%andb_true_iff Hs'].
    simpl. rewrite (Hseg c) by (unfold segment_byte; by rewrite Hc). by apply (all_bytes_impl _ _ _ Hseg). }
  unfold digest64 in Hd. apply andb_true_iff in Hd as [_ Hd]. apply (all_bytes_impl _ _ _ Hhex) in Hd.
  destruct Hns as [->| ->]; rewrite !all_bytes_append, Ha, Hd; done.
Qed.

Lemma freeze_holds spaceID key limit total maxBytes resources e b frozen n digest total' b' :
  (0 <= limit)%Z →
  freezeArtifact keyPrefix spaceID key limit total maxBytes resources e b
    = (Ok (frozen, n, digest), total', b') →
  version_object frozen n digest b'
  ∧ (0 <= n <= limit)%Z ∧ total' = (total + n)%Z ∧ (total' <= maxBytes)%Z.
Proof.
  intros Hlim Hf. unfold freezeArtifact in Hf.
  destruct (artifactWriteScope spaceID resources key) eqn:Hscope; simpl in Hf; [|done].
  destruct (maxBytes - total <=? 0)%Z eqn:Hrem; [done|]. apply Z.leb_gt in Hrem.
  set (lim := if (maxBytes - total <? limit)%Z then (maxBytes - total)%Z else limit) in *.
  assert (lim <= limit ∧ lim <= maxBytes - total ∧ 0 <= lim)%Z as (Hl1 & Hl2 & Hl3).
  { unfold lim. destruct (maxBytes - total <? limit)%Z eqn:E; [apply Z.ltb_lt in E|apply Z.ltb_ge in E]; lia. }
  destruct (StatObject _ _ _ _) as [?|[]]; [|done..].
  set (b1 := interfere keyPrefix (meanwhile e 1) _) in *.
  destruct (GetObject _ _ _ _) as [body|] eqn:Hget; [|done].
  destruct (spool_ok e); simpl in Hf; [|done].
  set (data := take (Z.to_nat (lim + 1)) body) in *.
  destruct (lim <? Z.of_nat (String.length data))%Z eqn:Hn; [done|]. apply Z.ltb_ge in Hn.
  assert (data = body) as Hdata by (apply take_within, Hn).
  destruct (String.eqb_spec (freeze_prefix spaceID resources) "") as [|Hp]; [done|].
  destruct (freeze_prefix_shape _ _ _ Hscope Hp) as (ns & sp & Hns & Hsp & Hpre).
  assert (freeze_prefix spaceID resources ++ "versions/" ++ sha256_hex data
          = ns ++ sp ++ "/attachments/versions/" ++ sha256_hex data) as Hkey.
  { rewrite Hpre, !append_assoc. done. }
  destruct (frozen_key_immutable ns sp (sha256_hex data) Hns Hsp (sha256_digest _)) as [Hcan Himm].
  rewrite <-Hkey in Hcan, Himm.
  assert (∀ bb : Bucket, (∃ body', bb !! oss_key keyPrefix (freeze_prefix spaceID resources ++ "versions/" ++ sha256_hex data) = Some body'
      ∧ Z.of_nat (String.length body') = Z.of_nat (String.length data) ∧ sha256_hex body' = sha256_hex data) →
    frozen_object keyPrefix (freeze_prefix spaceID resources ++ "versions/" ++ sha256_hex data)
      (Z.of_nat (String.length data)) ("sha256:" ++ sha256_hex data) bb) as Hobj.
  { intros bb (body' & Hbody & Hlen & Hsha). exists body'. by rewrite Hsha. }
  destruct (String.eqb_spec key (freeze_prefix spaceID resources ++ "versions/" ++ sha256_hex data)) as [Hsame|].
  { injection Hf as <- <- <- <- <-. unfold version_object. split_and!; try done; try lia.
    apply (Hobj b1). exists body. rewrite <-Hsame. unfold GetObject in Hget.
    destruct (flt e 1); [|done..]. destruct (b1 !! _); [|done]. by rewrite Hdata; simplify_eq. }
  destruct (PutImmutable _ _ _ _ _ _) as [[[|]|] b2] eqn:Hput; [| |done].
  - injection Hf as <- <- <- <- <-. unfold version_object. split_and!; try done; try lia.
    apply (Hobj b2). exists data. by apply PutImmutable_sound in Hput as [_ ->].
  - destruct (verifyFrozenArtifact _ _ _ _ _ _) as [[]|] eqn:Hver; [|done].
    injection Hf as <- <- <- <- <-. unfold version_object. split_and!; try done; try lia.
    apply (Hobj _). by apply verify_sound in Hver.
Qed.

(** Freezing is sound. A successful freeze leaves under the returned key,
    which is canonical and in the reserved namespace, an object of exactly the
    returned size whose SHA-256 is the returned digest; the size is within the
    per-file limit, the running total within the archive limit; whatever other
    requests did to the bucket meanwhile. And it stays so ever after: every
    later sequence of storage operations keeps that object. *)
Theorem freeze_sound spaceID key limit total maxBytes resources e b frozen n digest total' b' b'' :
  (0 <= limit)%Z →
  freezeArtifact keyPrefix spaceID key limit total maxBytes resources e b
    = (Ok (frozen, n, digest), total', b') →
  oss_steps keyPrefix b' b'' →
  canonical frozen ∧ IsImmutableArtifactKey frozen = true
  ∧ frozen_object keyPrefix frozen n digest b''
  ∧ (0 <= n <= limit)%Z ∧ total' = (total + n)%Z ∧ (total' <= maxBytes)%Z.
Proof.
  intros Hlim Hf Hsteps. destruct (freeze_holds _ _ _ _ _ _ _ _ _ _ _ _ _ Hlim Hf) as [Hv Hb].
  by destruct (version_object_kept _ _ _ _ _ Hsteps Hv) as (? & ? & ?).
Qed.

End Frozen.
