(* ===== verification/Store.v ===== *)
(** * The MySQL store and its transactions

    The tables the plugin repository (internal/repository/plugin) reads and
    writes, one finite map per table keyed by its primary key, and the
    transaction monad its functions run in: a statement may fail with any
    MySQL error, a failed transaction leaves the tables as they were. *)

From S2P Require Import Prelude GoStrings Model.
Local Open Scope string_scope.

(** ** Rows *)

Record ReviewRow := mkReview {
  rr_id : string;
  rr_plugin_id : string;
  rr_space_id : string;
  rr_target_scope : string;
  rr_status : ReviewStatus;
  rr_kind : ReviewKind;
  rr_version : string;
  rr_changelog : option string;
  rr_manifest : RawMessage;
  rr_package : RawMessage;
  rr_attachment_keys : RawMessage;
  rr_relations : list SnapshotRelation;
  rr_manifest_hash : string;
  rr_plugin_hash : string;
  rr_applicant_uid : string;
  rr_applicant_name : string;
  rr_reviewer_uid : option string;
  rr_reviewer_name : option string;
  rr_reason : option string;
  rr_decision_source : option ReviewDecisionSource;
  rr_submitted_at : Z;
  rr_reviewed_at : option Z;
  rr_created_at : Z;
  rr_updated_at : Z;
  rr_deleted_at : option Z
}.

Definition set_rr_status (v : ReviewStatus) (r : ReviewRow) : ReviewRow :=
  mkReview (rr_id r) (rr_plugin_id r) (rr_space_id r) (rr_target_scope r) v (rr_kind r)
    (rr_version r) (rr_changelog r) (rr_manifest r) (rr_package r) (rr_attachment_keys r)
    (rr_relations r) (rr_manifest_hash r) (rr_plugin_hash r) (rr_applicant_uid r)
    (rr_applicant_name r) (rr_reviewer_uid r) (rr_reviewer_name r) (rr_reason r)
    (rr_decision_source r) (rr_submitted_at r) (rr_reviewed_at r) (rr_created_at r)
    (rr_updated_at r) (rr_deleted_at r).
Definition set_rr_reviewer_uid (v : option string) (r : ReviewRow) : ReviewRow :=
  mkReview (rr_id r) (rr_plugin_id r) (rr_space_id r) (rr_target_scope r) (rr_status r)
    (rr_kind r) (rr_version r) (rr_changelog r) (rr_manifest r) (rr_package r)
    (rr_attachment_keys r) (rr_relations r) (rr_manifest_hash r) (rr_plugin_hash r)
    (rr_applicant_uid r) (rr_applicant_name r) v (rr_reviewer_name r) (rr_reason r)
    (rr_decision_source r) (rr_submitted_at r) (rr_reviewed_at r) (rr_created_at r)
    (rr_updated_at r) (rr_deleted_at r).
Definition set_rr_reviewer_name (v : option string) (r : ReviewRow) : ReviewRow :=
  mkReview (rr_id r) (rr_plugin_id r) (rr_space_id r) (rr_target_scope r) (rr_status r)
    (rr_kind r) (rr_version r) (rr_changelog r) (rr_manifest r) (rr_package r)
    (rr_attachment_keys r) (rr_relations r) (rr_manifest_hash r) (rr_plugin_hash r)
    (rr_applicant_uid r) (rr_applicant_name r) (rr_reviewer_uid r) v (rr_reason r)
    (rr_decision_source r) (rr_submitted_at r) (rr_reviewed_at r) (rr_created_at r)
    (rr_updated_at r) (rr_deleted_at r).
Definition set_rr_reason (v : option string) (r : ReviewRow) : ReviewRow :=
  mkReview (rr_id r) (rr_plugin_id r) (rr_space_id r) (rr_target_scope r) (rr_status r)
    (rr_kind r) (rr_version r) (rr_changelog r) (rr_manifest r) (rr_package r)
    (rr_attachment_keys r) (rr_relations r) (rr_manifest_hash r) (rr_plugin_hash r)
    (rr_applicant_uid r) (rr_applicant_name r) (rr_reviewer_uid r) (rr_reviewer_name r) v
    (rr_decision_source r) (rr_submitted_at r) (rr_reviewed_at r) (rr_created_at r)
    (rr_updated_at r) (rr_deleted_at r).
Definition set_rr_decision_source (v : option ReviewDecisionSource) (r : ReviewRow) : ReviewRow :=
  mkReview (rr_id r) (rr_plugin_id r) (rr_space_id r) (rr_target_scope r) (rr_status r)
    (rr_kind r) (rr_version r) (rr_changelog r) (rr_manifest r) (rr_package r)
    (rr_attachment_keys r) (rr_relations r) (rr_manifest_hash r) (rr_plugin_hash r)
    (rr_applicant_uid r) (rr_applicant_name r) (rr_reviewer_uid r) (rr_reviewer_name r)
    (rr_reason r) v (rr_submitted_at r) (rr_reviewed_at r) (rr_created_at r)
    (rr_updated_at r) (rr_deleted_at r).
Definition set_rr_reviewed_at (v : option Z) (r : ReviewRow) : ReviewRow :=
  mkReview (rr_id r) (rr_plugin_id r) (rr_space_id r) (rr_target_scope r) (rr_status r)
    (rr_kind r) (rr_version r) (rr_changelog r) (rr_manifest r) (rr_package r)
    (rr_attachment_keys r) (rr_relations r) (rr_manifest_hash r) (rr_plugin_hash r)
    (rr_applicant_uid r) (rr_applicant_name r) (rr_reviewer_uid r) (rr_reviewer_name r)
    (rr_reason r) (rr_decision_source r) (rr_submitted_at r) v (rr_created_at r)
    (rr_updated_at r) (rr_deleted_at r).
Definition set_rr_updated_at (v : Z) (r : ReviewRow) : ReviewRow :=
  mkReview (rr_id r) (rr_plugin_id r) (rr_space_id r) (rr_target_scope r) (rr_status r)
    (rr_kind r) (rr_version r) (rr_changelog r) (rr_manifest r) (rr_package r)
    (rr_attachment_keys r) (rr_relations r) (rr_manifest_hash r) (rr_plugin_hash r)
    (rr_applicant_uid r) (rr_applicant_name r) (rr_reviewer_uid r) (rr_reviewer_name r)
    (rr_reason r) (rr_decision_source r) (rr_submitted_at r) (rr_reviewed_at r)
    (rr_created_at r) v (rr_deleted_at r).

(** [plugin_versions]: immutable snapshots. [pv_version] is the per-plugin
    counter, [pv_declared_version] the label. *)
Record VersionRow := mkVersion {
  pv_id : string;
  pv_plugin_id : string;
  pv_version : string;
  pv_manifest : RawMessage;
  pv_package : RawMessage;
  pv_attachment_keys : RawMessage;
  pv_manifest_hash : string;
  pv_plugin_hash : string;
  pv_relations : list SnapshotRelation;
  pv_changelog : option string;
  pv_created_by : string;
  pv_created_at : Z;
  pv_declared_version : string;
  pv_artifacts : RawMessage
}.

Record PlacementRow := mkPlacement {
  pl_id : string;
  pl_code : string;
  pl_plugin_id : string;
  pl_category_id : option string;
  pl_visible : bool;
  pl_sort_order : Z;
  pl_created_at : Z;
  pl_updated_at : Z
}.

Definition set_pl_category_id (v : option string) (r : PlacementRow) : PlacementRow :=
  mkPlacement (pl_id r) (pl_code r) (pl_plugin_id r) v (pl_visible r) (pl_sort_order r)
    (pl_created_at r) (pl_updated_at r).
Definition set_pl_visible (v : bool) (r : PlacementRow) : PlacementRow :=
  mkPlacement (pl_id r) (pl_code r) (pl_plugin_id r) (pl_category_id r) v (pl_sort_order
    r) (pl_created_at r) (pl_updated_at r).
Definition set_pl_updated_at (v : Z) (r : PlacementRow) : PlacementRow :=
  mkPlacement (pl_id r) (pl_code r) (pl_plugin_id r) (pl_category_id r) (pl_visible r)
    (pl_sort_order r) (pl_created_at r) v.

Record AuditRow := mkAudit {
  au_id : string;
  au_plugin_id : string;
  au_action : string;
  au_operator_id : string;
  au_operator_name : string;
  au_request_id : string;
  au_before_hash : option string;
  au_after_hash : option string;
  au_manifest : option RawMessage;
  au_package : option RawMessage;
  au_remark : option string;
  au_created_at : Z
}.

Record ReceiptRow := mkReceipt {
  rc_event_id : string;
  rc_review_id : string;
  rc_decision : string;
  rc_stored_response : string;
  rc_created_at : Z
}.

(** [plugin_visibility_review_groups], without the plan document. *)
Record GroupRow := mkGroup {
  g_root_review_id : string;
  g_plugin_id : string
}.

Record PolicyRow := mkPolicy {
  po_auto_approve : bool;
  po_updated_by : string;
  po_updated_by_name : string;
  po_created_at : Z;
  po_updated_at : Z
}.

Record CategoryRow := mkCategory {
  cat_status : Z;
  cat_deleted_at : option Z;
  cat_plugin_types : list PluginType
}.

Record Db := mkDb {
  plugins : gmap string Plugin;
  reviews : gmap string ReviewRow;
  relations : gmap string PluginRelation;
  versions : gmap string VersionRow;
  releases : gmap (string * string) string;
  placements : gmap string PlacementRow;
  audits : gmap string AuditRow;
  receipts : gmap string ReceiptRow;
  groups : gmap string GroupRow;
  policies : gmap string PolicyRow;
  categories : gmap string CategoryRow
}.

Definition set_plugins (v : gmap string Plugin) (d : Db) : Db :=
  mkDb v (reviews d) (relations d) (versions d) (releases d) (placements d) (audits d)
    (receipts d) (groups d) (policies d) (categories d).
Definition set_reviews (v : gmap string ReviewRow) (d : Db) : Db :=
  mkDb (plugins d) v (relations d) (versions d) (releases d) (placements d) (audits d)
    (receipts d) (groups d) (policies d) (categories d).
Definition set_relations (v : gmap string PluginRelation) (d : Db) : Db :=
  mkDb (plugins d) (reviews d) v (versions d) (releases d) (placements d) (audits d)
    (receipts d) (groups d) (policies d) (categories d).
Definition set_versions (v : gmap string VersionRow) (d : Db) : Db :=
  mkDb (plugins d) (reviews d) (relations d) v (releases d) (placements d) (audits d)
    (receipts d) (groups d) (policies d) (categories d).
Definition set_placements (v : gmap string PlacementRow) (d : Db) : Db :=
  mkDb (plugins d) (reviews d) (relations d) (versions d) (releases d) v (audits d)
    (receipts d) (groups d) (policies d) (categories d).
Definition set_audits (v : gmap string AuditRow) (d : Db) : Db :=
  mkDb (plugins d) (reviews d) (relations d) (versions d) (releases d) (placements d) v
    (receipts d) (groups d) (policies d) (categories d).
Definition set_receipts (v : gmap string ReceiptRow) (d : Db) : Db :=
  mkDb (plugins d) (reviews d) (relations d) (versions d) (releases d) (placements d)
    (audits d) v (groups d) (policies d) (categories d).
Definition set_policies (v : gmap string PolicyRow) (d : Db) : Db :=
  mkDb (plugins d) (reviews d) (relations d) (versions d) (releases d) (placements d)
    (audits d) (receipts d) (groups d) v (categories d).

(** ** Errors of the repository (repo.go) *)
Inductive Err :=
| ErrNotFound | ErrConflict | ErrNameTaken | ErrInvalidName | ErrRelationInUse
| ErrReviewPending | ErrListedRequiresReview | ErrVersionRegressed | ErrLabelTaken
| ErrReviewContentRequired | ErrDeadlock | ErrInvalidRelation | ErrInvalidCategory
| ErrGraphTooLarge
| ErrCardActionReplayed
| ErrName (e : NameError)
| ErrMySQL (number : Z) (key : string)
| ErrOther (msg : string).

#[export] Instance Err_eq_dec : EqDecision Err.
Proof. solve_decision. Defined.

(** [classifyDeadlock]: a deadlock victim (1213) or a lock wait timeout (1205)
    becomes the retryable [ErrDeadlock]; everything else passes through. *)
Definition classifyDeadlock (err : Err) : Err :=
  match err with
  | ErrMySQL n _ => if ((n =? 1213) || (n =? 1205))%Z then ErrDeadlock else err
  | _ => err
  end.

(** ** Transactions *)

(** What a transaction draws from its environment at each step: the fresh
    identifiers of [r.id], the clock [r.now] and, per statement, whether the
    server fails it (error number and the index it names). *)
Record Env := mkEnv {
  ids : nat → string;
  times : nat → Z;
  faults : nat → option (Z * string)
}.

Record St := mkSt { tick : nat; db : Db }.
Definition bump (s : St) : St := mkSt (S (tick s)) (db s).

Definition Tx (A : Type) : Type := Env → St → result Err (A * St).

#[export] Instance tx_ret : MRet Tx := λ A a _ s, Ok (a, s).
#[export] Instance tx_bind : MBind Tx := λ A B f m e s,
  match m e s with Ok (a, s') => f a e s' | Error err => Error err end.

Definition fail {A} (err : Err) : Tx A := λ _ _, Error err.
Definition require (b : bool) (err : Err) : Tx unit := if b then mret tt else fail err.

(** Run [m]; on an error continue with [h] from the state before [m]. *)
Definition catch {A} (m : Tx A) (h : Err → Tx A) : Tx A := λ e s,
  match m e s with Ok r => Ok r | Error err => h err e s end.

Definition newID : Tx string := λ e s, Ok (ids e (tick s), bump s).
Definition now : Tx Z := λ e s, Ok (times e (tick s), bump s).

(** A statement: fails as the environment says, otherwise runs [f] on the
    tables, which may itself report an error (a violated unique key). Every
    UPDATE whose row count the code inspects changes the rows it matches, so
    matched and changed rows are the same number there. *)
Definition statement {A} (f : Db → result Err (A * Db)) : Tx A := λ e s,
  match faults e (tick s) with
  | Some (n, key) => Error (ErrMySQL n key)
  | None => match f (db s) with
            | Ok (a, d) => Ok (a, mkSt (S (tick s)) d)
            | Error err => Error err
            end
  end.

Definition query {A} (f : Db → A) : Tx A := statement (λ d, Ok (f d, d)).
Definition exec (f : Db → Db) : Tx unit := statement (λ d, Ok (tt, f d)).
(** An UPDATE reporting its number of affected rows. *)
Definition execN (f : Db → nat * Db) : Tx nat := statement (λ d, Ok (f d)).
Definition execE (f : Db → result Err Db) : Tx unit :=
  statement (λ d, match f d with Ok d' => Ok (tt, d') | Error e => Error e end).

(** [BeginTx ... defer Rollback ... Commit], with [classifyDeadlock] deferred;
    beginning and committing may fail like a statement. An error means a
    rollback: an answer of the commit lost after it took effect is not modelled. *)
Definition transact {A} (m : Tx A) (e : Env) (d : Db) : result Err A * Db :=
  match (exec id;; a ← m; exec id;; mret a) e (mkSt 0 d) with
  | Ok (a, s) => (Ok a, db s)
  | Error err => (Error (classifyDeadlock err), d)
  end.

(** A single statement run outside a transaction ([r.db.ExecContext]): the
    error is returned as it is, and means no effect. *)
Definition autocommit {A} (m : Tx A) (e : Env) (d : Db) : result Err A * Db :=
  match m e (mkSt 0 d) with
  | Ok (a, s) => (Ok a, db s)
  | Error err => (Error err, d)
  end.

(** [for _, x := range xs { if err := f(x); err != nil { return err } }] *)
Fixpoint for_each {A} (l : list A) (f : A → Tx unit) : Tx unit :=
  match l with
  | [] => mret tt
  | x :: l' => f x;; for_each l' f
  end.

(** A primary-key collision is MySQL error 1062. *)
Definition ErrDuplicate (key : string) : Err := ErrMySQL 1062 key.

(** [mustAffect] (write.go) and [mustChangeState] (listing.go). *)
Definition mustAffect (n : nat) : Tx unit := require (negb (n =? 0)%nat) ErrNotFound.
Definition mustChangeState (n : nat) : Tx unit := require (negb (n =? 0)%nat) ErrConflict.

(** ** Weakest preconditions

    [wp m e s Q]: if [m] succeeds from [s], its result satisfies [Q]. *)
Definition wp {A} (m : Tx A) (e : Env) (s : St) (Q : A → St → Prop) : Prop :=
  match m e s with Ok (a, s') => Q a s' | Error _ => True end.

Lemma wp_ret {A} (a : A) e s (Q : A → St → Prop) : Q a s → wp (mret a) e s Q.
Proof. done. Qed.

Lemma wp_fail {A} err e s (Q : A → St → Prop) : wp (fail err) e s Q.
Proof. done. Qed.

Lemma wp_bind {A B} (m : Tx A) (f : A → Tx B) e s (Q : B → St → Prop) :
  wp m e s (λ a s', wp (f a) e s' Q) → wp (a ← m; f a) e s Q.
Proof. unfold wp, mbind, tx_bind. by destruct (m e s) as [[a s']|]. Qed.

Lemma wp_mono {A} (m : Tx A) e s (P Q : A → St → Prop) :
  wp m e s P → (∀ a s', P a s' → Q a s') → wp m e s Q.
Proof. unfold wp. destruct (m e s) as [[a s']|]; auto. Qed.

Lemma wp_and {A} (m : Tx A) e s (P Q : A → St → Prop) :
  wp m e s P → wp m e s Q → wp m e s (λ a s', P a s' ∧ Q a s').
Proof. unfold wp. destruct (m e s) as [[a s']|]; auto. Qed.

Lemma wp_require b err e s (Q : unit → St → Prop) :
  (b = true → Q tt s) → wp (require b err) e s Q.
Proof. destruct b; unfold wp; simpl; auto. Qed.

Lemma wp_newID e s (Q : string → St → Prop) :
  (∀ i, Q i (bump s)) → wp newID e s Q.
Proof. unfold wp. simpl. auto. Qed.

Lemma wp_now e s (Q : Z → St → Prop) :
  (∀ t, Q t (bump s)) → wp now e s Q.
Proof. unfold wp. simpl. auto. Qed.

Lemma wp_statement {A} (f : Db → result Err (A * Db)) e s (Q : A → St → Prop) :
  (∀ a d, f (db s) = Ok (a, d) → Q a (mkSt (S (tick s)) d)) → wp (statement f) e s Q.
Proof.
  intros H. unfold wp, statement. destruct (faults e (tick s)) as [[]|]; [done|].
  destruct (f (db s)) as [[a d]|] eqn:E; auto.
Qed.

Lemma wp_query {A} (f : Db → A) e s (Q : A → St → Prop) :
  Q (f (db s)) (bump s) → wp (query f) e s Q.
Proof. intros H. apply wp_statement. intros a d [= <- <-]. by destruct s. Qed.

Lemma wp_exec f e s (Q : unit → St → Prop) :
  Q tt (mkSt (S (tick s)) (f (db s))) → wp (exec f) e s Q.
Proof. intros H. apply wp_statement. by intros a d [= <- <-]. Qed.

Lemma wp_execN f e s (Q : nat → St → Prop) :
  (∀ n d, f (db s) = (n, d) → Q n (mkSt (S (tick s)) d)) → wp (execN f) e s Q.
Proof. intros H. apply wp_statement. intros a d [= ?]. by apply H. Qed.

Lemma wp_execE f e s (Q : unit → St → Prop) :
  (∀ d, f (db s) = Ok d → Q tt (mkSt (S (tick s)) d)) → wp (execE f) e s Q.
Proof.
  intros H. apply wp_statement. intros a d.
  destruct (f (db s)) eqn:E; [|done]. intros [= <- <-]. auto.
Qed.

Lemma wp_catch {A} (m : Tx A) h e s (Q : A → St → Prop) :
  wp m e s Q → (∀ err, wp (h err) e s Q) → wp (catch m h) e s Q.
Proof. unfold wp, catch. intros H1 H2. destruct (m e s) as [[a s']|err]; [done|apply H2]. Qed.

Lemma wp_for_each {A} (l : list A) (f : A → Tx unit) e s (I : St → Prop) :
  I s → (∀ x s', x ∈ l → I s' → wp (f x) e s' (λ _ s'', I s'')) →
  wp (for_each l f) e s (λ _ s', I s').
Proof.
  intros Hs Hf. revert s Hs. induction l as [|x l IH]; intros s Hs; simpl; [done|].
  apply wp_bind. eapply wp_mono; [apply Hf; [by constructor|done]|].
  simpl. intros _ s' Hs'. apply IH; [|done]. intros; apply Hf; [by constructor|done].
Qed.

(** A committed transaction satisfies every postcondition [wp] proves. *)
Lemma transact_ok {A} (m : Tx A) e d a d' (Q : A → Db → Prop) :
  transact m e d = (Ok a, d') →
  wp m e (mkSt 1 d) (λ a s, Q a (db s)) → Q a d'.
Proof.
  unfold transact, wp, mbind, tx_bind. unfold exec at 1, statement at 1. simpl.
  destruct (faults e 0) as [[]|]; [done|].
  destruct (m e (mkSt 1 d)) as [[a' s]|]; [|done].
  unfold exec, statement. destruct (faults e (tick s)) as [[]|]; [done|].
  simpl. intros [= <- <-] H. done.
Qed.

Lemma autocommit_ok {A} (m : Tx A) e d a d' (Q : A → Db → Prop) :
  autocommit m e d = (Ok a, d') →
  wp m e (mkSt 0 d) (λ a s, Q a (db s)) → Q a d'.
Proof.
  unfold autocommit, wp. destruct (m e (mkSt 0 d)) as [[a' s]|]; [|done].
  by intros [= <- <-].
Qed.

(** A failed transaction leaves the tables unchanged. *)
Lemma transact_error {A} (m : Tx A) e d err d' :
  transact m e d = (Error err, d') → d' = d.
Proof.
  unfold transact. case_match; [case_match|]; intros [= ? ?]; done.
Qed.

(** One symbolic step of a transaction. *)
Ltac wp_step :=
  lazymatch goal with
  | |- wp (mbind _ _) _ _ _ => apply wp_bind
  | |- wp (mret _) _ _ _ => apply wp_ret
  | |- wp (fail _) _ _ _ => apply wp_fail
  | |- wp (require _ _) _ _ _ => apply wp_require; intros ?
  | |- wp newID _ _ _ => apply wp_newID; intros ?
  | |- wp now _ _ _ => apply wp_now; intros ?
  | |- wp (query _) _ _ _ => apply wp_query
  | |- wp (exec _) _ _ _ => apply wp_exec
  | |- wp (execN _) _ _ _ => apply wp_execN; intros ? ? ?
  | |- wp (execE _) _ _ _ => apply wp_execE; intros ? ?
  | |- wp (match ?x with _ => _ end) _ _ _ =>
      let E := fresh "E" in destruct x eqn:E
  end.
Ltac wp_steps := repeat (wp_step; simpl; try done).
