(* ===== verification/Rows.v ===== *)
(** * Shared reads and writes of the plugin repository

    The helpers of internal/repository/plugin (write.go, review.go,
    create_name.go, references.go) that its operations are composed of, under
    the default rollout configuration of config.go: version management and
    independent references disabled ([r.versionManagement = false],
    [r.references = false]). *)

From stdpp Require Export pretty.
From S2P Require Import Prelude GoStrings Version Model Store.
Import Go.
Local Open Scope string_scope.

(** The inputs of [PluginDraftRevision] (model/plugin_draft_revision.go). *)
Record DraftState := mkDraftState {
  ds_id : string; ds_name : string; ds_publisher : string; ds_icon : string;
  ds_type : PluginType;
  ds_category_id : option string; ds_space_id : option string;
  ds_current_version_id : option string; ds_current_version : option string;
  ds_owner_uid : string;
  ds_visibility : PluginVisibility;
  ds_listing_state : PluginListingState;
  ds_manifest_hash : string; ds_plugin_hash : string;
  ds_tags : string; ds_attachment_keys : string;
  ds_status : Z
}.

(** ** What the repository calls outside itself

    Unicode normalization (golang.org/x/text), the decoding and encoding of
    JSON documents ([encoding/json] and MySQL's JSON functions), SHA-256, and
    two read-only verdicts of files modelled elsewhere or not yet: the
    artifact inventory of version_snapshot.go and the published incoming
    reference check of references.go. *)
Class Host := {
  host_text :: TextNorm;
  (** [json.Unmarshal] of a manifest into its name and labels (nil if absent). *)
  unmarshal_manifest : RawMessage → string * option (list string);
  marshal_labels : list string → RawMessage;
  (** [json.Unmarshal] into [map[string]string]: the entries filled in, and
      whether the error is nil. *)
  unmarshal_sidecar : RawMessage → gmap string string * bool;
  json_valid : string → bool;
  (** Re-marshalled document; [None] when it does not decode. *)
  json_canonical : RawMessage → option string;
  (** MySQL [COALESCE(JSON_UNQUOTE(JSON_EXTRACT(m,'$.plugin_name')),'')]. *)
  json_plugin_name : RawMessage → string;
  (** Hex SHA-256 of the marshalled draft state. *)
  revision_digest : DraftState → string;
  snapshotArtifacts : Plugin → result Err RawMessage;
  publishedIncoming : Db → string → option Err
}.

Section Rows.
Context `{Host}.

(** ** Draft revisions *)

Definition draftRevisionJSON (raw : RawMessage) : string :=
  if String.eqb raw "" then raw else default raw (json_canonical raw).

Definition PluginDraftRevision (p : Plugin) : string :=
  revision_digest (mkDraftState (ID p) (Name p) (Publisher p) (Icon p) (Type_ p)
    (CategoryID p) (SpaceID p) (CurrentVersionID p) (CurrentVersion p) (OwnerUID p)
    (Visibility p) (ListingState p) (ManifestHash p) (PluginHash p)
    (draftRevisionJSON (Tags p)) (draftRevisionJSON (AttachmentKeys p)) (Status p)).

(** ** Scope and visibility (repo.go) *)

Record Scope := mkScope { CallerUID : string; ScopeSpaceID : string; Admin : bool }.

(** The catalog predicate [visibilitySQL], with its two placeholders. *)
Definition visibilitySQL (spaceID callerUID : string) (p : Plugin) : bool :=
  bool_decide (Visibility p = VPublic ∨ Visibility p = VSystem)
  || (bool_decide (SpaceID p = Some spaceID)
      && ((bool_decide (Visibility p = VSpace) && bool_decide (ListingState p = Published))
          || String.eqb (OwnerUID p) callerUID)).

(** [status=1 AND deleted_at IS NULL]. *)
Definition live (p : Plugin) : bool :=
  bool_decide (Status p = 1%Z) && bool_decide (DeletedAt p = None).

Definition owned_by (scope : Scope) (p : Plugin) : bool :=
  Admin scope
  || (String.eqb (OwnerUID p) (CallerUID scope)
      && bool_decide (SpaceID p = Some (ScopeSpaceID scope))).

Definition find_plugin (P : Plugin → bool) (id : string) (d : Db) : option Plugin :=
  p ← plugins d !! id; if P p then Some p else None.

Definition getOwnedForUpdate (scope : Scope) (id : string) : Tx Plugin :=
  o ← query (find_plugin (λ p, owned_by scope p && live p) id);
  match o with Some p => mret p | None => fail ErrNotFound end.

Definition getReviewedPluginForUpdate (spaceID pluginID : string) : Tx Plugin :=
  o ← query (find_plugin (λ p, bool_decide (SpaceID p = Some spaceID) && live p) pluginID);
  match o with Some p => mret p | None => fail ErrNotFound end.

Definition lockPluginCategory (categoryID : option string) (typ : PluginType) : Tx unit :=
  match categoryID with
  | None => mret tt
  | Some c =>
      found ← query (λ d, match categories d !! c with
                          | Some row => bool_decide (cat_status row = 1%Z)
                                        && bool_decide (cat_deleted_at row = None)
                                        && mem typ (cat_plugin_types row)
                          | None => false
                          end);
      require found ErrInvalidCategory
  end.

(** ** UPDATE of one [plugins] row by primary key *)

Definition update_plugin (id : string) (P : Plugin → bool) (f : Plugin → Plugin) (d : Db)
    : nat * Db :=
  match plugins d !! id with
  | Some p => if P p then (1, set_plugins (<[id := f p]> (plugins d)) d) else (0, d)
  | None => (0, d)
  end.

Definition not_deleted (p : Plugin) : bool := bool_decide (DeletedAt p = None).
Definition in_space (spaceID : string) (p : Plugin) : bool :=
  bool_decide (SpaceID p = Some spaceID).

(** ** Names (write.go, create_name.go) *)

Definition pluginNameColumns (name : string) (spaceID : option string)
    : result Err (string * string) :=
  let scope := default "" spaceID in
  if String.eqb (TrimSpace name) "" then Error ErrInvalidName
  else match NormalizePluginName name with
       | Ok key => Ok (key, scope)
       | Error e => Error (ErrName e)
       end.

Definition mapPluginNameTaken (err : Err) : Err :=
  match err with
  | ErrMySQL n msg =>
      if (n =? 1062)%Z && (Contains msg "uq_plugins_active_name"
                           || Contains msg "uq_plugin_name_reservation")
      then ErrNameTaken else err
  | _ => err
  end.

(** The released display name joined through [published_version_id]. *)
Definition published_name (d : Db) (q : Plugin) : string :=
  match PublishedVersionID q with
  | Some vid =>
      match versions d !! vid with
      | Some v => if String.eqb (pv_plugin_id v) (ID q)
                  then json_plugin_name (pv_manifest v) else ""
      | None => ""
      end
  | None => ""
  end.

Definition normalizes_to (name wanted : string) : bool :=
  match NormalizePluginName name with Ok key => String.eqb key wanted | Error _ => false end.

(** One row of [rejectPluginNameCollision]'s result set. *)
Definition row_takes_name (d : Db) (wanted scope : string) (q : Plugin) : bool :=
  let published := published_name d q in
  let same := String.eqb (default "" (SpaceID q)) scope in
  let draftKey := if same then NameKey q else PublishedNameKey q in
  let draft := if same then Name q
               else if String.eqb published "" then Name q else published in
  bool_decide (draftKey = Some wanted) || bool_decide (PublishedNameKey q = Some wanted)
  || normalizes_to draft wanted || normalizes_to published wanted.

Definition name_collides (d : Db) (p : Plugin) (wanted scope : string) : bool :=
  existsb (λ kq, let q : Plugin := kq.2 in
    bool_decide (Type_ q = Type_ p) && negb (IsEmbedded q) && not_deleted q
    && negb (String.eqb (ID q) (ID p))
    && (String.eqb (default "" (SpaceID q)) scope
        || (bool_decide (Status q = 1%Z)
            && bool_decide (Visibility q = VPublic ∨ Visibility q = VSystem)
            && bool_decide (ListingState q = Published)))
    && row_takes_name d wanted scope q) (map_to_list (plugins d)).

Definition rejectPluginNameCollision (p : Plugin) (wanted scope : string) : Tx unit :=
  taken ← query (λ d, name_collides d p wanted scope);
  require (negb taken) ErrNameTaken.

(** The name columns of a write, with the collision check a standalone row
    takes before it. *)
Definition checkedNameColumns (p : Plugin) (name : string) (embedded : bool)
    : Tx (string * string) :=
  match pluginNameColumns name (SpaceID p) with
  | Error e => fail e
  | Ok (key, scope) =>
      (if embedded then mret tt else rejectPluginNameCollision p key scope);;
      mret (key, scope)
  end.

Definition insert_plugin_row (p : Plugin) (d : Db) : result Err Db :=
  match plugins d !! ID p with
  | Some _ => Error (ErrDuplicate "PRIMARY")
  | None => Ok (set_plugins (<[ID p := p]> (plugins d)) d)
  end.

Definition insertPlugin (t : Z) (p : Plugin) : Tx unit :=
  let listing := match ListingState p with LUnset => Draft | l => l end in
  '(key, scope) ← checkedNameColumns p (Name p) (IsEmbedded p);
  let row := set_ListingState listing (set_Rating None (set_PublishedVersionID None
               (set_CreatedAt t (set_UpdatedAt t (set_DeletedAt None
               (set_NameKey (Some key) (set_PublishedNameKey None (set_NameScope scope p)))))))) in
  catch (execE (insert_plugin_row row)) (λ err, fail (mapPluginNameTaken err)).

(** ** Relations (write.go) *)

Definition rel_live (r : PluginRelation) : bool := bool_decide (RelDeletedAt r = None).

Definition rels_where (P : PluginRelation → bool) (d : Db) : list PluginRelation :=
  filter (λ r, P r = true) (map_to_list (relations d)).*2.

(** Ascending byte order. *)
Definition string_le (a b : string) : Prop := String.leb a b = true.
#[export] Instance string_le_dec : RelDecision string_le.
Proof. unfold RelDecision, string_le. solve_decision. Defined.

(** ORDER BY sort_order, relation_id. *)
Definition rel_before (a b : PluginRelation) : Prop :=
  (SortOrder a < SortOrder b)%Z
  ∨ (SortOrder a = SortOrder b ∧ String.leb (RelID a) (RelID b) = true).
#[export] Instance rel_before_dec : RelDecision rel_before.
Proof. unfold RelDecision, rel_before. solve_decision. Defined.

Definition embedded_target (d : Db) (r : PluginRelation) : bool :=
  match plugins d !! TargetPluginID r with
  | Some p => IsEmbedded p && live p
  | None => false
  end.

Definition embeddedTargets (source relType : string) (d : Db) : list string :=
  TargetPluginID <$> merge_sort rel_before
    (rels_where (λ r, String.eqb (SourcePluginID r) source && String.eqb (RelType r) relType
                      && rel_live r && embedded_target d r) d).

Definition embeddedRelationTargets (source relType : string) : Tx (list string) :=
  query (embeddedTargets source relType).

Fixpoint members_with_skills (members : list string) : Tx (list string) :=
  match members with
  | [] => mret []
  | m :: ms =>
      skills ← embeddedRelationTargets m "expert_skill";
      rest ← members_with_skills ms;
      mret (m :: skills ++ rest)%list
  end.

Definition collectEmbeddedChildren (topID : string) (topType : PluginType) : Tx (list string) :=
  match topType with
  | Expert => embeddedRelationTargets topID "expert_skill"
  | ExpertTeam =>
      members ← embeddedRelationTargets topID "expert_team_expert";
      members_with_skills members
  | _ => mret []
  end.

Definition liveRelationTargetSet (source : string) : Tx (list string) :=
  query (λ d, TargetPluginID <$>
    rels_where (λ r, String.eqb (SourcePluginID r) source && rel_live r) d).

Definition source_live (d : Db) (r : PluginRelation) : bool :=
  match plugins d !! SourcePluginID r with Some p => live p | None => false end.

Definition rejectLiveIncomingRelations (pluginID : string) : Tx unit :=
  rows ← query (λ d, rels_where (λ r, String.eqb (TargetPluginID r) pluginID
    && bool_decide (RelStatus r = 1%Z) && rel_live r && source_live d r) d);
  match rows with [] => mret tt | _ => fail ErrRelationInUse end.

(** [rejectPublishedIncomingRelations]: a read-only verdict. *)
Definition rejectPublishedIncomingRelations (pluginID : string) : Tx unit :=
  o ← query (λ d, publishedIncoming d pluginID);
  match o with None => mret tt | Some err => fail err end.

Definition validPersistedRelation (relationType : string) (src tgt : PluginType) : bool :=
  if String.eqb relationType "expert_team_expert" then
    bool_decide (src = ExpertTeam) && bool_decide (tgt = Expert)
  else if String.eqb relationType "expert_skill" then
    bool_decide (src = Expert) && bool_decide (tgt = Skill)
  else if String.eqb relationType "expert_connector" then
    bool_decide (src = Expert) && bool_decide (tgt = Connector)
  else false.

(** [referenceVisibility] and [referenceAudience] (references.go). *)
Definition referenceVisibility (v : PluginVisibility) : PluginVisibility :=
  match v with VPublic => VSystem | _ => v end.

Definition referenceAudience (source target : Plugin) : bool :=
  let sv := referenceVisibility (Visibility source) in
  let tv := referenceVisibility (Visibility target) in
  if decide (tv = VSystem) then true
  else match SpaceID source, SpaceID target with
       | Some a, Some b =>
           if negb (String.eqb a b) then false
           else if decide (sv = VSystem) then false
           else if decide (tv = VSpace) then true
           else bool_decide (sv = VPrivate) && bool_decide (tv = VPrivate)
                && String.eqb (OwnerUID source) (OwnerUID target)
       | _, _ => false
       end.

(** The body of [lockRelationTargets]'s loop; [seen] holds the
    [type "\x00" target] keys already met. *)
Fixpoint lock_targets (scope : Scope) (source : Plugin) (inGraph : list string)
    (seen : list (string * string)) (rels : list PluginRelation) : Tx unit :=
  match rels with
  | [] => mret tt
  | r :: rels' =>
      let key := (RelType r, TargetPluginID r) in
      require (negb (String.eqb (TargetPluginID r) "")) ErrInvalidRelation;;
      require (negb (mem key seen)) ErrInvalidRelation;;
      o ← query (find_plugin (λ p, live p
            && (Admin scope || visibilitySQL (ScopeSpaceID scope) (CallerUID scope) p))
            (TargetPluginID r));
      match o with
      | None => fail ErrNotFound
      | Some target =>
          require (validPersistedRelation (RelType r) (Type_ source) (Type_ target))
            ErrInvalidRelation;;
          require (negb (IsEmbedded target) || mem (TargetPluginID r) inGraph)
            ErrInvalidRelation;;
          require (IsEmbedded target || referenceAudience source target) ErrNotFound;;
          lock_targets scope source inGraph (key :: seen) rels'
      end
  end.

Definition lockRelationTargets (scope : Scope) (source : Plugin)
    (rels : list PluginRelation) (inGraph : list string) : Tx unit :=
  lock_targets scope source inGraph [] rels.

(** [lockReferences] with [r.references = false]. *)
Definition lockReferences := lockRelationTargets.

Definition insert_relation (r : PluginRelation) (d : Db) : result Err Db :=
  match relations d !! RelID r with
  | Some _ => Error (ErrDuplicate "PRIMARY")
  | None => Ok (set_relations (<[RelID r := r]> (relations d)) d)
  end.

Definition insertRelationRow (t : Z) (source creator : string) (x : PluginRelation) : Tx unit :=
  execE (insert_relation (mkRelation (RelID x) source None (TargetPluginID x)
    (TargetVersionID x) None (RelType x) (SortOrder x) (Data x) (RelStatus x) creator t t None)).

(** Returns the relations with the identifiers assigned in place. *)
Fixpoint insertRelations (t : Z) (source creator : string) (rels : list PluginRelation)
    : Tx (list PluginRelation) :=
  match rels with
  | [] => mret []
  | r :: rels' =>
      i ← (if String.eqb (RelID r) "" then newID else mret (RelID r));
      let r' := set_RelID i r in
      insertRelationRow t source creator r';;
      rest ← insertRelations t source creator rels';
      mret (r' :: rest)
  end.

End Rows.
