(* ===== verification/RowWrites.v ===== *)
(** * Multi-statement writes shared by the plugin operations

    Relation synchronization, placements, audit rows, version snapshots,
    cascaded review cancellation and the promotion and demotion of embedded
    children (write.go, review.go). *)

From S2P Require Import Prelude GoStrings Version Model Store Rows.
Import Go.
Local Open Scope string_scope.

Section RowWrites.
Context `{Host}.

(** ** [syncRelations] (write.go) *)

(** [RelationSync]: what a synchronization did, and the rows it left. *)
Record RelationSync := mkSync {
  DraftRevision : string;
  Created : list string;
  Updated : list string;
  Deleted : list string;
  SyncRelations : list PluginRelation;
  NewVersionID : string
}.

Definition liveEdges (source : string) (d : Db) : gmap string PluginRelation :=
  filter (λ kr, String.eqb (SourcePluginID kr.2) source && rel_live kr.2 = true) (relations d).

Definition update_relation (id source : string) (f : PluginRelation → PluginRelation) (d : Db) : Db :=
  match relations d !! id with
  | Some r => if String.eqb (SourcePluginID r) source && rel_live r
              then set_relations (<[id := f r]> (relations d)) d else d
  | None => d
  end.

Definition option_string_eqb (a b : option string) : bool := bool_decide (a = b).

(** Whether the submitted edge equals the live one, so nothing is written. *)
Definition same_edge (edge rel : PluginRelation) (pinEqual : bool) : bool :=
  String.eqb (TargetPluginID edge) (TargetPluginID rel)
  && String.eqb (RelType edge) (RelType rel)
  && bool_decide (SortOrder edge = SortOrder rel)
  && bool_decide (RelStatus edge = RelStatus rel)
  && String.eqb (Data edge) (Data rel) && pinEqual.

(** The loop over [desired]; [edges] is the map of live edges not yet met.
    A row found by its primary key always belongs to [source] here, so the
    pin is read from it. *)
Fixpoint sync_desired (t : Z) (source creator : string)
    (edges : gmap string PluginRelation) (desired : list PluginRelation)
    : Tx (gmap string PluginRelation * (list string * list string * list PluginRelation)) :=
  match desired with
  | [] => mret (edges, ([], [], []))
  | rel :: rest =>
      if String.eqb (RelID rel) "" then
        i ← newID;
        let rel' := set_RelID i rel in
        insertRelationRow t source creator rel';;
        '(edges', (c, u, out)) ← sync_desired t source creator edges rest;
        mret (edges', (i :: c, u, rel' :: out))
      else
        match edges !! RelID rel with
        | None => fail ErrInvalidRelation
        | Some edge =>
            let edges1 := delete (RelID rel) edges in
            let pinAware := bool_decide (TargetVersionID rel ≠ None) in
            pinEqual ←
              (if pinAware then
                 old ← query (λ d, r ← relations d !! RelID rel; TargetVersionID r);
                 mret (option_string_eqb old (TargetVersionID rel))
               else mret true);
            changed ←
              (if same_edge edge rel pinEqual then mret false
               else
                 exec (update_relation (RelID rel) source (λ r,
                   set_TargetPluginID (TargetPluginID rel) (set_RelType (RelType rel)
                   (set_SortOrder (SortOrder rel) (set_Data (Data rel)
                   (set_RelStatus (RelStatus rel) (set_RelUpdatedAt t r)))))));;
                 (if pinAware then
                    exec (update_relation (RelID rel) source
                      (set_TargetVersionID (TargetVersionID rel)))
                  else mret tt);;
                 mret true);
            '(edges', (c, u, out)) ← sync_desired t source creator edges1 rest;
            mret (edges', (c, if changed : bool then RelID rel :: u else u, rel :: out))
        end
  end.

Definition syncRelations (t : Z) (source creator : string) (desired : list PluginRelation)
    : Tx RelationSync :=
  edges ← query (liveEdges source);
  '(remaining, (c, u, out)) ← sync_desired t source creator edges desired;
  let leftover := merge_sort string_le (map_to_list remaining).*1 in
  for_each leftover (λ id, exec (update_relation id source (λ r,
    set_RelDeletedAt (Some t) (set_RelUpdatedAt t r))));;
  mret (mkSync "" c u leftover out "").

(** Soft-delete every outgoing edge of a removed plugin. *)
Definition delete_outgoing (t : Z) (source : string) (d : Db) : Db :=
  set_relations ((λ r, if String.eqb (SourcePluginID r) source && rel_live r
                       then set_RelDeletedAt (Some t) (set_RelUpdatedAt t r) else r)
                 <$> relations d) d.

(** ** Placements (write.go) *)

Definition defaultPlacementCode : string := "default".

Definition has_placement (pluginID code : string) (d : Db) : bool :=
  existsb (λ kr, String.eqb (pl_plugin_id kr.2) pluginID && String.eqb (pl_code kr.2) code)
    (map_to_list (placements d)).

Definition insert_placement (x : PlacementRow) (d : Db) : result Err Db :=
  match placements d !! pl_id x with
  | Some _ => Error (ErrDuplicate "PRIMARY")
  | None =>
      if has_placement (pl_plugin_id x) (pl_code x) d
      then Error (ErrDuplicate "uq_plugin_placement")
      else Ok (set_placements (<[pl_id x := x]> (placements d)) d)
  end.

Definition insertPlacements (t : Z) (pluginID : string) (xs : list PlacementRow) : Tx unit :=
  for_each xs (λ x,
    i ← (if String.eqb (pl_id x) "" then newID else mret (pl_id x));
    execE (insert_placement (mkPlacement i (pl_code x) pluginID (pl_category_id x)
             (pl_visible x) (pl_sort_order x) t t))).

Definition update_placements (P : PlacementRow → bool) (f : PlacementRow → PlacementRow)
    (d : Db) : Db :=
  set_placements ((λ x, if P x then f x else x) <$> placements d) d.

Definition syncDefaultPlacement (t : Z) (pluginID : string) (categoryID : option string) : Tx unit :=
  exists_ ← query (has_placement pluginID defaultPlacementCode);
  (if exists_ : bool then mret tt
   else i ← newID;
        execE (insert_placement
          (mkPlacement i defaultPlacementCode pluginID categoryID true 0 t t)));;
  exec (update_placements
    (λ x, String.eqb (pl_plugin_id x) pluginID
          && negb (option_string_eqb (pl_category_id x) categoryID))
    (λ x, set_pl_category_id categoryID (set_pl_updated_at t x))).

(** INSERT ... ON DUPLICATE KEY UPDATE visible=1. *)
Definition insert_or_reveal (x : PlacementRow) (d : Db) : Db :=
  match insert_placement x d with
  | Ok d' => d'
  | Error _ =>
      update_placements
        (λ y, String.eqb (pl_id y) (pl_id x)
              || (String.eqb (pl_plugin_id y) (pl_plugin_id x)
                  && String.eqb (pl_code y) (pl_code x)))
        (λ y, set_pl_visible true (set_pl_updated_at (pl_updated_at x) y)) d
  end.

Definition ensureVisibleDefaultPlacement (t : Z) (pluginID : string)
    (categoryID : option string) : Tx unit :=
  exists_ ← query (has_placement pluginID defaultPlacementCode);
  if exists_ : bool then
    exec (update_placements
      (λ x, String.eqb (pl_plugin_id x) pluginID
            && String.eqb (pl_code x) defaultPlacementCode && negb (pl_visible x))
      (λ x, set_pl_visible true (set_pl_updated_at t x)))
  else
    i ← newID;
    exec (insert_or_reveal (mkPlacement i defaultPlacementCode pluginID categoryID true 0 t t)).

(** ** Audit rows (write.go) *)

Definition nonempty (s : string) : option string :=
  if String.eqb s "" then None else Some s.

(** The operator attribution of a [Mutation]. *)
Record Operator := mkOperator {
  OperatorID : string;
  OperatorName : string;
  RequestID : string;
  Remark : option string
}.

Definition insert_audit (x : AuditRow) (d : Db) : result Err Db :=
  match audits d !! au_id x with
  | Some _ => Error (ErrDuplicate "PRIMARY")
  | None => Ok (set_audits (<[au_id x := x]> (audits d)) d)
  end.

Definition insertAudit (t : Z) (p : Plugin) (action : string) (m : Operator)
    (before after : string) : Tx unit :=
  auditID ← newID;
  execE (insert_audit (mkAudit auditID (ID p) action (OperatorID m) (OperatorName m)
    (RequestID m) (nonempty before) (nonempty after) (nonempty (Manifest p))
    (nonempty (Package p)) (Remark m) t)).

(** ** Version snapshots (write.go) *)

Definition versions_of (pluginID : string) (d : Db) : list VersionRow :=
  filter (λ v, pv_plugin_id v = pluginID) (map_to_list (versions d)).*2.

Definition insert_version (v : VersionRow) (d : Db) : result Err Db :=
  match versions d !! pv_id v with
  | Some _ => Error (ErrDuplicate "PRIMARY")
  | None =>
      if existsb (λ w, String.eqb (pv_version w) (pv_version v)) (versions_of (pv_plugin_id v) d)
      then Error (ErrDuplicate "uq_plugin_versions_plugin_version")
      else Ok (set_versions (<[pv_id v := v]> (versions d)) d)
  end.

(** [strconv.Itoa] on a count. *)
Definition Itoa (n : nat) : string := pretty n.

(** The caller-declared label, defaulting to "1.0.0". *)
Definition declared_label (p : Plugin) : string :=
  match CurrentVersion p with
  | Some l => if String.eqb l "" then "1.0.0" else l
  | None => "1.0.0"
  end.

Definition advance_label (t : Z) (label : string) (p : Plugin) : Plugin :=
  set_CurrentVersion (Some label) (set_UpdatedAt t p).

Definition snapshotVersion (t : Z) (p : Plugin) (rels : list PluginRelation)
    (changelog : option string) (createdBy : string) : Tx string :=
  let currentVersion := declared_label p in
  if decide (Type_ p = Connector) then
    match CurrentVersion p with
    | None => mret ""
    | Some l =>
        if String.eqb l "" then mret ""
        else execN (update_plugin (ID p) not_deleted (advance_label t l));; mret ""
    end
  else
    count ← query (λ d, length (versions_of (ID p) d));
    let seq := Itoa (S count) in
    match snapshotArtifacts p with
    | Error err => fail err
    | Ok artifacts =>
        versionID ← newID;
        execE (insert_version (mkVersion versionID (ID p) seq (Manifest p) (Package p)
          (AttachmentKeys p) (ManifestHash p) (PluginHash p) (EncodeSnapshotRelations rels)
          changelog createdBy t currentVersion artifacts));;
        execN (update_plugin (ID p) not_deleted (λ q,
          set_CurrentVersionID (Some versionID) (advance_label t currentVersion q)));;
        mret versionID
    end.

(** The note of the editable baseline; a released note is never a draft's.
    [None] is SQL NULL. *)
Definition editableDraftChangelog (p : Plugin) : Tx (option string) :=
  match CurrentVersionID p with
  | None => mret None
  | Some vid =>
      o ← query (λ d, v ← versions d !! vid;
        if String.eqb (pv_plugin_id v) (ID p) then
          Some (match releases d !! (pv_plugin_id v, pv_id v) with
                | Some _ => None
                | None => pv_changelog v
                end)
        else None);
      match o with Some note => mret note | None => fail (ErrOther "sql: no rows in result set") end
  end.

(** ** Cascades onto review requests and embedded children (review.go) *)

Definition rr_open (pluginID : string) (r : ReviewRow) : bool :=
  String.eqb (rr_plugin_id r) pluginID && bool_decide (rr_status r = Pending)
  && bool_decide (rr_deleted_at r = None).

Definition cancel_open (t : Z) (pluginID operatorID operatorName reason : string) (d : Db) : Db :=
  set_reviews ((λ r, if rr_open pluginID r then
      set_rr_status Canceled (set_rr_reviewer_uid (Some operatorID)
        (set_rr_reviewer_name (Some operatorName) (set_rr_reason (Some reason)
        (set_rr_reviewed_at (Some t) (set_rr_updated_at t r)))))
    else r) <$> reviews d) d.

Definition cancelPendingReviewFor (t : Z) (pluginID operatorID operatorName reason : string)
    : Tx unit :=
  exec (cancel_open t pluginID operatorID operatorName reason).

Definition reasonCanceledOnDelist : string := "plugin delisted by a Space admin".
Definition reasonCanceledOnDelete : string := "plugin deleted".

Definition promoteEmbeddedIDs (childIDs : list string) (spaceID : string)
    (audience : PluginVisibility) (t : Z) : Tx unit :=
  for_each childIDs (λ id,
    execN (update_plugin id (λ p, in_space spaceID p && IsEmbedded p
             && negb (bool_decide (ListingState p = Published)) && not_deleted p)
           (λ p, set_Visibility audience (set_ListingState Published (set_UpdatedAt t p))));;
    mret tt).

Definition promoteEmbeddedChildren (topID : string) (topType : PluginType) (spaceID : string)
    (audience : PluginVisibility) (t : Z) : Tx unit :=
  childIDs ← collectEmbeddedChildren topID topType;
  promoteEmbeddedIDs childIDs spaceID audience t.

Definition demoteEmbeddedChildren (topID : string) (topType : PluginType) (spaceID : string)
    (t : Z) : Tx unit :=
  childIDs ← collectEmbeddedChildren topID topType;
  for_each childIDs (λ id,
    execN (update_plugin id (λ p, in_space spaceID p && IsEmbedded p
             && bool_decide (ListingState p = Published) && not_deleted p)
           (λ p, set_ListingState Delisted (set_UpdatedAt t p)));;
    mret tt).

End RowWrites.
