(* ===== verification/Write.v ===== *)
(** * The write operations: internal/repository/plugin/write.go

    [Create], [CreateGraph], [RebuildGraph], [Update], [UpdateRating],
    [Delete] and [DeleteGraph], each one transaction. *)

From S2P Require Import Prelude GoStrings Version Model Store Rows RowWrites.
Import Go.
Local Open Scope string_scope.

Section Write.
Context `{Host}.

(** [Mutation] *)
Record Mutation := mkMutation {
  ExpectedDraftRevision : option string;
  ExpectedCurrentVersionID : string;
  MPlugin : Plugin;
  MRelations : list PluginRelation;
  MPlacements : list PlacementRow;
  MOperator : Operator;
  SnapshotVersion : bool;
  MChangelog : option string;
  ResetListingToDraft : bool;
  RefusePendingReview : bool;
  EnforceListingGate : bool;
  EnforceForwardOnlyVersion : bool
}.

Definition MOperatorID (m : Mutation) : string := OperatorID (MOperator m).

(** Non-admin writes are pinned to the caller's identity and Space. *)
Definition pin_identity (scope : Scope) (p : Plugin) : Plugin :=
  if Admin scope then p
  else set_OwnerUID (CallerUID scope) (set_SpaceID (Some (ScopeSpaceID scope)) p).

(** The WHERE clause of an owner- or admin-scoped UPDATE. *)
Definition owned_where (scope : Scope) (p : Plugin) : bool := owned_by scope p && not_deleted p.

(** ** [Create] *)

Definition createInTx (scope : Scope) (m : Mutation) : Tx RelationSync :=
  t ← now;
  let p0 := pin_identity scope (MPlugin m) in
  i ← (if String.eqb (ID p0) "" then newID else mret (ID p0));
  let p := set_ID i p0 in
  lockPluginCategory (CategoryID p) (Type_ p);;
  lockReferences scope p (MRelations m) [];;
  insertPlugin t p;;
  rels ← insertRelations t (ID p) (MOperatorID m) (MRelations m);
  insertPlacements t (ID p) (MPlacements m);;
  v ← (if SnapshotVersion m
       then snapshotVersion t p rels (MChangelog m) (MOperatorID m) else mret "");
  insertAudit t p "create" (MOperator m) "" (PluginHash p);;
  mret (mkSync "" (RelID <$> rels) [] [] rels v).

Definition Create (scope : Scope) (m : Mutation) := transact (createInTx scope m).

(** ** [CreateGraph] *)

(** Phase 1 of a graph write: insert every row; [seen] are the IDs so far. *)
Fixpoint insert_nodes (t : Z) (scope : Scope) (seen : list string) (nodes : list Mutation)
    : Tx (list Plugin) :=
  match nodes with
  | [] => mret []
  | n :: nodes' =>
      let p := pin_identity scope (MPlugin n) in
      require (negb (String.eqb (ID p) "")) ErrInvalidRelation;;
      require (negb (mem (ID p) seen)) ErrConflict;;
      lockPluginCategory (CategoryID p) (Type_ p);;
      insertPlugin t p;;
      ps ← insert_nodes t scope (ID p :: seen) nodes';
      mret (p :: ps)
  end.

(** Phase 2: validate and insert the relations and placements of every node. *)
Fixpoint wire_nodes (t : Z) (scope : Scope) (inGraph : list string)
    (nodes : list (Mutation * Plugin)) : Tx (list RelationSync) :=
  match nodes with
  | [] => mret []
  | (n, p) :: nodes' =>
      lockReferences scope p (MRelations n) inGraph;;
      rels ← insertRelations t (ID p) (MOperatorID n) (MRelations n);
      insertPlacements t (ID p) (MPlacements n);;
      rest ← wire_nodes t scope inGraph nodes';
      mret (mkSync "" (RelID <$> rels) [] [] rels "" :: rest)
  end.

Fixpoint snapshot_nodes (t : Z) (nodes : list (Mutation * Plugin * RelationSync))
    : Tx (list RelationSync) :=
  match nodes with
  | [] => mret []
  | (n, p, s) :: nodes' =>
      v ← (if SnapshotVersion n
           then snapshotVersion t p (SyncRelations s) (MChangelog n) (MOperatorID n)
           else mret "");
      rest ← snapshot_nodes t nodes';
      mret (mkSync "" (Created s) [] [] (SyncRelations s) v :: rest)
  end.

Definition createGraphInTx (scope : Scope) (nodes : list Mutation) : Tx (list RelationSync) :=
  t ← now;
  ps ← insert_nodes t scope [] nodes;
  syncs ← wire_nodes t scope (ID <$> ps) (zip nodes ps);
  syncs' ← snapshot_nodes t (zip (zip nodes ps) syncs);
  for_each (zip nodes ps) (λ np,
    insertAudit t np.2 "create" (MOperator np.1) "" (PluginHash np.2));;
  mret syncs'.

Definition CreateGraph (scope : Scope) (nodes : list Mutation) (e : Env) (d : Db)
    : result Err (list RelationSync) * Db :=
  match nodes with
  | [] => (Error ErrInvalidRelation, d)
  | _ => transact (createGraphInTx scope nodes) e d
  end.

(** ** Content columns written by [Update] and [RebuildGraph] *)

Definition write_content (t : Z) (p : Plugin) (key scope : string) (q : Plugin) : Plugin :=
  set_Name (Name p) (set_Type_ (Type_ p) (set_CategoryID (CategoryID p) (set_Tags (Tags p)
  (set_Publisher (Publisher p) (set_Visibility (Visibility p) (set_Icon (Icon p)
  (set_ToolCount (ToolCount p) (set_Manifest (Manifest p) (set_Package (Package p)
  (set_AttachmentKeys (AttachmentKeys p) (set_ManifestHash (ManifestHash p)
  (set_PluginHash (PluginHash p) (set_Status (Status p) (set_UpdatedAt t
  (set_NameKey (Some key) (set_NameScope scope q)))))))))))))))).

(** The revision a save leaves behind, computed without re-reading the row. *)
Definition savedDraftRevision (before written : Plugin) (newVersion : string)
    (resetListing snapshotEnabled : bool) : string :=
  let requested := CurrentVersion written in
  let w1 := set_OwnerUID (OwnerUID before) (set_SpaceID (SpaceID before)
              (set_ListingState (ListingState before)
              (set_CurrentVersionID (CurrentVersionID before)
              (set_CurrentVersion (CurrentVersion before) written)))) in
  let w2 := if String.eqb newVersion "" then w1
            else set_CurrentVersionID (Some newVersion)
                   (set_CurrentVersion (Some (declared_label written)) w1) in
  let w3 := if snapshotEnabled && bool_decide (Type_ written = Connector)
               && negb (String.eqb (default "" requested) "")
            then set_CurrentVersion requested w2 else w2 in
  let w4 := if resetListing then set_ListingState Draft w3 else w3 in
  PluginDraftRevision w4.

Definition decodeSidecarMap (raw : RawMessage) : gmap string string :=
  if String.eqb raw "" then ∅ else (unmarshal_sidecar raw).1.

Definition sameAttachmentKeys (a b : RawMessage) : bool :=
  bool_decide (decodeSidecarMap a = decodeSidecarMap b).

(** ** [Delete] and the teardown of embedded children *)

Definition soft_delete (t : Z) (p : Plugin) : Plugin :=
  set_DeletedAt (Some t) (set_UpdatedAt t (set_ListingState Draft p)).

(** [softDeleteRebuiltChild]: a child already gone is a no-op. *)
Definition softDeleteRebuiltChild (t : Z) (scope : Scope) (id : string) (top : Operator) : Tx unit :=
  o ← catch (p ← getOwnedForUpdate scope id; mret (Some p))
        (λ err, if decide (err = ErrNotFound) then mret None else fail err);
  match o with
  | None => mret tt
  | Some before =>
      n ← execN (update_plugin id (owned_where scope) (soft_delete t));
      mustAffect n;;
      exec (delete_outgoing t id);;
      cancelPendingReviewFor t id (OperatorID top) (OperatorName top) reasonCanceledOnDelete;;
      insertAudit t before "delete" top (PluginHash before) ""
  end.

Definition deleteInTx (scope : Scope) (pluginID : string) (op : Operator) : Tx unit :=
  before ← getOwnedForUpdate scope pluginID;
  rejectPublishedIncomingRelations (ID before);;
  rejectLiveIncomingRelations pluginID;;
  t ← now;
  n ← execN (update_plugin pluginID (owned_where scope) (soft_delete t));
  mustAffect n;;
  exec (delete_outgoing t pluginID);;
  cancelPendingReviewFor t pluginID (OperatorID op) (OperatorName op) reasonCanceledOnDelete;;
  insertAudit t before "delete" op (PluginHash before) "".

Definition Delete (scope : Scope) (pluginID : string) (op : Operator) :=
  transact (deleteInTx scope pluginID op).

Definition deleteGraphInTx (scope : Scope) (topID : string) (op : Operator) : Tx unit :=
  before ← getOwnedForUpdate scope topID;
  rejectPublishedIncomingRelations (ID before);;
  rejectLiveIncomingRelations topID;;
  childIDs ← collectEmbeddedChildren topID (Type_ before);
  t ← now;
  n ← execN (update_plugin topID (owned_where scope) (soft_delete t));
  mustAffect n;;
  exec (delete_outgoing t topID);;
  cancelPendingReviewFor t topID (OperatorID op) (OperatorName op) reasonCanceledOnDelete;;
  insertAudit t before "delete" op (PluginHash before) "";;
  for_each childIDs (λ id, softDeleteRebuiltChild t scope id op).

Definition DeleteGraph (scope : Scope) (topID : string) (op : Operator) :=
  transact (deleteGraphInTx scope topID op).

(** ** [RebuildGraph] *)

Definition restamp_child (before : Plugin) (n : Mutation) : Mutation :=
  mkMutation (ExpectedDraftRevision n) (ExpectedCurrentVersionID n)
    (set_Visibility (NormalizeLegacyVisibility (Visibility before))
      (set_ListingState (ListingState before)
      (set_SpaceID (SpaceID before) (set_OwnerUID (OwnerUID before) (MPlugin n)))))
    (MRelations n) (MPlacements n) (MOperator n) (SnapshotVersion n) (MChangelog n)
    (ResetListingToDraft n) (RefusePendingReview n) (EnforceListingGate n)
    (EnforceForwardOnlyVersion n).

Fixpoint wire_children (t : Z) (scope : Scope) (inGraph : list string)
    (nodes : list (Mutation * Plugin)) : Tx unit :=
  match nodes with
  | [] => mret tt
  | (n, p) :: nodes' =>
      lockReferences scope p (MRelations n) inGraph;;
      insertRelations t (ID p) (MOperatorID n) (MRelations n);;
      wire_children t scope inGraph nodes'
  end.

(** The note of a snapshot: the submitted one, else the editable baseline's. *)
Definition carry_changelog (before : Plugin) (submitted : option string) : Tx (option string) :=
  match submitted with
  | Some c => mret (Some c)
  | None => editableDraftChangelog before
  end.

Definition rebuildGraphInTx (scope : Scope) (top : Mutation) (newChildren : list Mutation)
    : Tx RelationSync :=
  t ← now;
  before ← getOwnedForUpdate scope (ID (MPlugin top));
  require (bool_decide (Type_ (MPlugin top) = Type_ before)) ErrInvalidRelation;;
  oldChildIDs ← collectEmbeddedChildren (ID (MPlugin top)) (Type_ before);
  let topPlugin := set_Visibility (NormalizeLegacyVisibility (Visibility before))
                     (set_SpaceID (SpaceID before)
                     (set_OwnerUID (OwnerUID before) (MPlugin top))) in
  let children := restamp_child before <$> newChildren in
  ps ← insert_nodes t scope [ID topPlugin] children;
  let inGraph := ID topPlugin :: (ID <$> ps) in
  wire_children t scope inGraph (zip children ps);;
  lockPluginCategory (CategoryID topPlugin) (Type_ topPlugin);;
  '(key, nscope) ← checkedNameColumns topPlugin (Name topPlugin) (IsEmbedded before);
  catch (execN (update_plugin (ID topPlugin) (owned_where scope)
           (write_content t topPlugin key nscope)))
        (λ err, fail (mapPluginNameTaken err));;
  syncDefaultPlacement t (ID topPlugin) (CategoryID topPlugin);;
  lockReferences scope topPlugin (MRelations top) inGraph;;
  sync ← syncRelations t (ID topPlugin) (MOperatorID top) (MRelations top);
  for_each oldChildIDs (λ id, softDeleteRebuiltChild t scope id (MOperator top));;
  v ← (if SnapshotVersion top then
         note ← carry_changelog before (MChangelog top);
         snapshotVersion t topPlugin (SyncRelations sync) note (MOperatorID top)
       else mret "");
  insertAudit t topPlugin "update" (MOperator top) (PluginHash before) (PluginHash topPlugin);;
  for_each (zip children ps) (λ np,
    insertAudit t np.2 "create" (MOperator np.1) "" (PluginHash np.2));;
  mret (mkSync (savedDraftRevision before topPlugin v false (SnapshotVersion top))
          (Created sync) (Updated sync) (Deleted sync) (SyncRelations sync) v).

Definition RebuildGraph (scope : Scope) (top : Mutation) (newChildren : list Mutation) :=
  transact (rebuildGraphInTx scope top newChildren).

(** ** [Update] *)

Definition pending_exists (pluginID : string) (d : Db) : bool :=
  existsb (λ kr, rr_open pluginID kr.2) (map_to_list (reviews d)).

Definition checkPendingReview (pluginID : string) : Tx unit :=
  found ← query (pending_exists pluginID);
  require (negb found) ErrReviewPending.

Definition listed (p : Plugin) : bool :=
  bool_decide (ListingState p = Published) && bool_decide (Visibility p = VSpace).

(** The guards [updateInTx] evaluates on the locked row, returning whether the
    save un-lists the plugin. *)
Definition updateGuards (m : Mutation) (before : Plugin) : Tx bool :=
  let p := MPlugin m in
  require (match ExpectedDraftRevision m with
           | Some rev => String.eqb rev (PluginDraftRevision before)
           | None => true
           end) ErrConflict;;
  require (String.eqb (ExpectedCurrentVersionID m) ""
           || option_string_eqb (CurrentVersionID before) (Some (ExpectedCurrentVersionID m)))
    ErrConflict;;
  (if RefusePendingReview m then checkPendingReview (ID p) else mret tt);;
  require (negb (EnforceListingGate m && listed before)) ErrListedRequiresReview;;
  let resetListing :=
    if EnforceListingGate m
    then bool_decide (ListingState before = Published)
         && negb (bool_decide (Visibility p = Visibility before))
    else ResetListingToDraft m in
  require (negb (EnforceForwardOnlyVersion m
                 && match CurrentVersion before, CurrentVersion p with
                    | Some cur, Some nxt => negb (VersionNotRegressed cur nxt)
                    | _, _ => false
                    end)) ErrVersionRegressed;;
  mret resetListing.

(** Whether a save records a version: anything a version row holds differs. *)
Definition content_differs (p before : Plugin) (sync : RelationSync) (changelogChanged : bool) : bool :=
  negb (String.eqb (PluginHash p) (PluginHash before)
        && String.eqb (ManifestHash p) (ManifestHash before))
  || negb (option_string_eqb (CurrentVersion p) (CurrentVersion before))
  || negb (bool_decide (Created sync = [] ∧ Updated sync = [] ∧ Deleted sync = []))
  || negb (sameAttachmentKeys (AttachmentKeys p) (AttachmentKeys before))
  || changelogChanged.

(** The changelog decision: (changed, note to store). *)
Definition changelogDecision (m : Mutation) (before : Plugin) : Tx (bool * option string) :=
  if SnapshotVersion m || bool_decide (MChangelog m ≠ None) then
    previous ← editableDraftChangelog before;
    match MChangelog m with
    | Some c => mret (negb (String.eqb (default "" previous) c), Some c)
    | None => mret (false, previous)
    end
  else mret (false, MChangelog m).

Definition updateInTx (scope : Scope) (m : Mutation) : Tx RelationSync :=
  before ← getOwnedForUpdate scope (ID (MPlugin m));
  resetListing ← updateGuards m before;
  t ← now;
  let p := MPlugin m in
  require (bool_decide (Type_ p = Type_ before)) ErrInvalidRelation;;
  lockPluginCategory (CategoryID p) (Type_ p);;
  owned ← liveRelationTargetSet (ID p);
  lockReferences scope p (MRelations m) owned;;
  '(key, nscope) ← checkedNameColumns p (Name p) (IsEmbedded before);
  catch (execN (update_plugin (ID p) (owned_where scope) (λ q,
           write_content t p key nscope (if resetListing then set_ListingState Draft q else q))))
        (λ err, fail (mapPluginNameTaken err));;
  syncDefaultPlacement t (ID p) (CategoryID p);;
  sync ← syncRelations t (ID p) (MOperatorID m) (MRelations m);
  '(changelogChanged, note) ← changelogDecision m before;
  v ← (if SnapshotVersion m && content_differs p before sync changelogChanged
       then snapshotVersion t p (SyncRelations sync) note (MOperatorID m) else mret "");
  insertAudit t p "update" (MOperator m) (PluginHash before) (PluginHash p);;
  mret (mkSync (savedDraftRevision before p v resetListing (SnapshotVersion m))
          (Created sync) (Updated sync) (Deleted sync) (SyncRelations sync) v).

Definition Update (scope : Scope) (m : Mutation) := transact (updateInTx scope m).

(** ** [UpdateRating] *)

Definition ratingAuditValue (rating : option Z) : string :=
  match rating with None => "null" | Some n => pretty n end.

Definition updateRatingInTx (scope : Scope) (pluginID : string) (rating : option Z)
    (op : Operator) : Tx Plugin :=
  current ← getOwnedForUpdate scope pluginID;
  t ← now;
  execN (update_plugin pluginID not_deleted (λ q, set_Rating rating (set_UpdatedAt t q)));;
  let current' := set_Rating rating (set_UpdatedAt t current) in
  let remark := "rating:" ++ ratingAuditValue (Rating current) ++ "->" ++ ratingAuditValue rating in
  insertAudit t current' "rate"
    (mkOperator (OperatorID op) (OperatorName op) (RequestID op) (Some remark))
    (PluginHash current) (PluginHash current);;
  mret current'.

Definition UpdateRating (scope : Scope) (pluginID : string) (rating : option Z) (op : Operator) :=
  transact (updateRatingInTx scope pluginID rating op).

End Write.
