(* ===== verification/Review.v ===== *)
(** * Review requests: internal/repository/plugin/review.go

    Submission, approval, rejection and withdrawal of frozen submissions,
    card-action receipts, the review policy and the scoped reads. *)

From S2P Require Import Prelude GoStrings Version Model Store Rows RowWrites Write.
Import Go.
Local Open Scope string_scope.

Section Review.
Context `{Host}.

(** ** Submission *)

(** The caller-supplied fields of [model.PluginReviewRequest]. *)
Record SubmitRequest := mkSubmit {
  sub_plugin_id : string;
  sub_space_id : string;
  sub_target_scope : string;
  sub_version : string;
  sub_changelog : option string;
  sub_applicant_uid : string;
  sub_applicant_name : string
}.

Record FrozenSnapshot := mkFrozen {
  fs_expected_draft_revision : string;
  fs_manifest : RawMessage;
  fs_package : RawMessage;
  fs_attachment_keys : RawMessage;
  fs_relations : list PluginRelation;
  fs_manifest_hash : string;
  fs_plugin_hash : string;
  fs_declared_content : bool
}.

(** The labels the organization has already seen for this plugin. *)
Definition publishedLabels (pluginID : string) (current : Plugin) (d : Db) : list string :=
  (rr_version <$> filter (λ r, rr_plugin_id r = pluginID ∧ rr_status r = Approved
                               ∧ rr_deleted_at r = None) (map_to_list (reviews d)).*2)
  ++ (if decide (ListingState current = Draft) then []
      else match CurrentVersion current with
           | Some l => if String.eqb l "" then [] else [l]
           | None => []
           end).

Definition publishedVersionLabels (pluginID : string) (current : Plugin) : Tx (list string) :=
  query (publishedLabels pluginID current).

(** Rows that may become organization content through an approval. *)
Definition reviewable (p : Plugin) : bool :=
  bool_decide (Visibility p = VSpace)
  || (bool_decide (Visibility p = VPrivate) && bool_decide (ListingState p = Published)).

Definition not_regressed_from (current : option string) (next : string) : bool :=
  match current with Some cur => VersionNotRegressed cur next | None => true end.

(** The unique index on the generated column [pending_plugin_id]. *)
Definition insert_review (r : ReviewRow) (d : Db) : result Err Db :=
  match reviews d !! rr_id r with
  | Some _ => Error (ErrDuplicate "PRIMARY")
  | None =>
      if bool_decide (rr_status r = Pending) && bool_decide (rr_deleted_at r = None)
         && pending_exists (rr_plugin_id r) d
      then Error (ErrDuplicate "uq_review_plugin_pending")
      else Ok (set_reviews (<[rr_id r := r]> (reviews d)) d)
  end.

Definition mapPendingTaken (err : Err) : Err :=
  match err with
  | ErrMySQL n _ => if (n =? 1062)%Z then ErrReviewPending else err
  | _ => err
  end.

Definition insertReviewInTx (scope : Scope) (req : SubmitRequest) (snap : FrozenSnapshot)
    : Tx ReviewRow :=
  current ← getOwnedForUpdate scope (sub_plugin_id req);
  require (String.eqb (fs_expected_draft_revision snap) ""
           || String.eqb (PluginDraftRevision current) (fs_expected_draft_revision snap))
    ErrConflict;;
  require (reviewable current) ErrConflict;;
  let kind := if decide (ListingState current = Published) then KindUpgrade else KindFirst in
  require (fs_declared_content snap || negb (bool_decide (ListingState current = Published)))
    ErrReviewContentRequired;;
  require (not_regressed_from (CurrentVersion current) (sub_version req)) ErrVersionRegressed;;
  published ← publishedVersionLabels (sub_plugin_id req) current;
  require (negb (mem (sub_version req) published)) ErrLabelTaken;;
  checkPendingReview (sub_plugin_id req);;
  t ← now;
  reviewID ← newID;
  let targetScope := if String.eqb (sub_target_scope req) "" then "space"
                     else sub_target_scope req in
  let row := mkReview reviewID (sub_plugin_id req) (sub_space_id req) targetScope Pending kind
    (sub_version req) (nonempty (default "" (sub_changelog req)))
    (fs_manifest snap) (fs_package snap) (fs_attachment_keys snap)
    (EncodeSnapshotRelations (fs_relations snap)) (fs_manifest_hash snap) (fs_plugin_hash snap)
    (sub_applicant_uid req) (sub_applicant_name req) None None None None t None t t None in
  catch (execE (insert_review row)) (λ err, fail (mapPendingTaken err));;
  mret row.

Definition InsertReviewRequest (scope : Scope) (req : SubmitRequest) (snap : FrozenSnapshot) :=
  transact (insertReviewInTx scope req snap).

(** ** Card-action receipts *)

(** [model.CardActionReceipt]; a zero [CreatedAt] is [None]. *)
Record CardActionReceipt := mkCardReceipt {
  EventID : string;
  StoredResponse : string;
  ReceiptReviewID : string;
  Decision_ : string;
  ReceiptCreatedAt : option Z
}.

Definition insert_receipt (r : ReceiptRow) (d : Db) : result Err Db :=
  match receipts d !! rc_event_id r with
  | Some _ => Error (ErrDuplicate "PRIMARY")
  | None => Ok (set_receipts (<[rc_event_id r := r]> (receipts d)) d)
  end.

Definition insertCardActionReceipt (rec : CardActionReceipt) (t : Z) : Tx unit :=
  catch (execE (insert_receipt (mkReceipt (EventID rec) (ReceiptReviewID rec) (Decision_ rec)
           (StoredResponse rec) (default t (ReceiptCreatedAt rec)))))
        (λ err, match err with
                | ErrMySQL n _ => if (n =? 1062)%Z then fail ErrConflict else fail err
                | _ => fail err
                end).

Definition claimCardActionReceipt (rec : option CardActionReceipt) (reviewID decision : string)
    (source : option ReviewDecisionSource) (t : Z) : Tx unit :=
  match rec with
  | None => mret tt
  | Some rec =>
      require (bool_decide (source = Some SourceIM) && negb (String.eqb (EventID rec) "")
               && String.eqb (ReceiptReviewID rec) reviewID
               && String.eqb (Decision_ rec) decision && json_valid (StoredResponse rec))
        (ErrOther "invalid card action receipt binding");;
      catch (insertCardActionReceipt rec t)
        (λ err, if decide (err = ErrConflict) then fail ErrCardActionReplayed else fail err)
  end.

Definition GetCardActionReceipt (eventID : string) (d : Db) : option ReceiptRow :=
  receipts d !! eventID.

(** [InsertCardActionReceipt] runs the insert outside a transaction of its own. *)
Definition InsertCardActionReceipt (rec : CardActionReceipt) : Env → Db → result Err unit * Db :=
  autocommit (t ← now; insertCardActionReceipt rec t).

(** ** Decisions *)

(** [ApproveReviewParams] and [RejectReviewParams]; an empty [DecisionSource]
    and a zero [Now] are [None]. *)
Record DecisionParams := mkDecision {
  CardReceipt : option CardActionReceipt;
  ReviewID : string;
  ReviewerUID : string;
  ReviewerName : string;
  Reason : string;
  DecisionSource : option ReviewDecisionSource;
  DecisionRequestID : string;
  Now : option Z
}.

Definition find_review (P : ReviewRow → bool) (id : string) (d : Db) : option ReviewRow :=
  r ← reviews d !! id; if P r then Some r else None.

Definition rr_live (r : ReviewRow) : bool := bool_decide (rr_deleted_at r = None).
Definition rr_in_space (spaceID : string) (r : ReviewRow) : bool :=
  String.eqb (rr_space_id r) spaceID.

Definition classifyMissingPending {A} (reviewID spaceID : string) : Tx A :=
  o ← query (find_review (λ r, rr_in_space spaceID r && rr_live r) reviewID);
  match o with
  | None => fail ErrNotFound
  | Some r => if decide (rr_status r = Pending) then fail ErrNotFound else fail ErrConflict
  end.

(** The locked read of a pending request in a Space. *)
Definition lockPendingReview (reviewID spaceID : string) : Tx ReviewRow :=
  o ← query (find_review (λ r, bool_decide (rr_status r = Pending) && rr_live r
                               && rr_in_space spaceID r) reviewID);
  match o with
  | Some r => mret r
  | None => classifyMissingPending reviewID spaceID
  end.

Definition isJSONNullOrEmpty (raw : RawMessage) : bool :=
  String.eqb (TrimSpace raw) "" || String.eqb (TrimSpace raw) "null".

(** [reconcileFrozenRelations]: edges whose identifier is no longer live are
    inserted afresh. *)
Definition reconcile_relation (pluginID : string) (liveIDs : list string) (r : PluginRelation)
    : PluginRelation :=
  let r1 := if mem (RelID r) liveIDs then r else set_RelID "" r in
  let r2 := set_SourcePluginID pluginID r1 in
  let r3 := if decide (RelStatus r2 = 0%Z) then set_RelStatus 1 r2 else r2 in
  if isJSONNullOrEmpty (Data r3) then set_Data "" r3 else r3.

Definition reconcileFrozenRelations (pluginID : string) (frozen : list PluginRelation)
    : Tx (list PluginRelation) :=
  match frozen with
  | [] => mret []
  | _ =>
      liveIDs ← query (λ d, RelID <$>
        rels_where (λ r, String.eqb (SourcePluginID r) pluginID && rel_live r) d);
      mret (reconcile_relation pluginID liveIDs <$> frozen)
  end.

Definition manifestNameAndTags (manifest : RawMessage) : string * RawMessage :=
  let '(name, labels) := unmarshal_manifest manifest in
  (name, marshal_labels (default [] labels)).

(** The frozen content an approval stamps on the plugin row. *)
Definition apply_snapshot (rr : ReviewRow) (t : Z) (key nscope : string) (q : Plugin) : Plugin :=
  let '(frozenName, frozenTags) := manifestNameAndTags (rr_manifest rr) in
  set_Name frozenName (set_Tags frozenTags (set_Manifest (rr_manifest rr)
  (set_Package (rr_package rr) (set_AttachmentKeys (rr_attachment_keys rr)
  (set_ManifestHash (rr_manifest_hash rr) (set_PluginHash (rr_plugin_hash rr)
  (set_UpdatedAt t (set_NameKey (Some key) (set_NameScope nscope q))))))))).

Definition list_first (q : Plugin) : Plugin :=
  set_Visibility VSpace (set_ListingState Published q).

(** Apply the frozen documents: a first listing also stamps visibility and
    listing state, under a state CAS; an upgrade leaves them. *)
Definition applyApprovedSnapshot (spaceID : string) (current : Plugin) (rr : ReviewRow) (t : Z)
    (isFirst : bool) : Tx unit :=
  let '(frozenName, _) := manifestNameAndTags (rr_manifest rr) in
  '(key, nscope) ← checkedNameColumns current frozenName (IsEmbedded current);
  if isFirst then
    n ← catch (execN (update_plugin (rr_plugin_id rr)
                 (λ q, in_space spaceID q && not_deleted q && negb (listed q))
                 (λ q, list_first (apply_snapshot rr t key nscope q))))
              (λ err, fail (mapPluginNameTaken err));
    mustChangeState n
  else
    catch (execN (update_plugin (rr_plugin_id rr)
             (λ q, in_space spaceID q && not_deleted q)
             (apply_snapshot rr t key nscope)))
          (λ err, fail (mapPluginNameTaken err));;
    mret tt.

Definition decision_source (p : DecisionParams) : ReviewDecisionSource :=
  default SourceWeb (DecisionSource p).

Definition source_name (s : ReviewDecisionSource) : string :=
  match s with SourceWeb => "web" | SourceIM => "im" | SourcePolicy => "policy" end.

Definition decision_operator (p : DecisionParams) : Operator :=
  mkOperator (ReviewerUID p) (ReviewerName p) (DecisionRequestID p)
    (Some ("decision_source=" ++ source_name (decision_source p))).

(** UPDATE of one request row. *)
Definition update_review (id : string) (P : ReviewRow → bool) (f : ReviewRow → ReviewRow) (d : Db)
    : nat * Db :=
  match reviews d !! id with
  | Some r => if P r then (1, set_reviews (<[id := f r]> (reviews d)) d) else (0, d)
  | None => (0, d)
  end.

Definition settle (status : ReviewStatus) (p : DecisionParams) (reason : option string) (t : Z)
    (r : ReviewRow) : ReviewRow :=
  let r1 := set_rr_status status (set_rr_reviewer_uid (Some (ReviewerUID p))
              (set_rr_reviewer_name (Some (ReviewerName p))
              (set_rr_decision_source (Some (decision_source p))
              (set_rr_reviewed_at (Some t) (set_rr_updated_at t r))))) in
  match reason with Some _ => set_rr_reason reason r1 | None => r1 end.

(** The guards of [ApproveReview] on the locked plugin. *)
Definition approveGuards (current : Plugin) (rr : ReviewRow) : Tx unit :=
  require (negb (bool_decide (rr_kind rr = KindVisibility))) ErrConflict;;
  require (not_regressed_from (CurrentVersion current) (rr_version rr)) ErrVersionRegressed;;
  published ← publishedVersionLabels (rr_plugin_id rr) current;
  require (negb (mem (rr_version rr) published)) ErrLabelTaken.

(** The plugin value the release snapshot is taken from. *)
Definition snapshot_plugin (current : Plugin) (rr : ReviewRow) : Plugin :=
  let '(frozenName, frozenTags) := manifestNameAndTags (rr_manifest rr) in
  set_Name frozenName (set_Tags frozenTags (set_Manifest (rr_manifest rr)
  (set_Package (rr_package rr) (set_AttachmentKeys (rr_attachment_keys rr)
  (set_ManifestHash (rr_manifest_hash rr) (set_PluginHash (rr_plugin_hash rr)
  (set_CurrentVersion (Some (rr_version rr)) current))))))).

(** Mint the release, settle the request and append the audit row. *)
Definition approveFinish (p : DecisionParams) (current : Plugin) (rr : ReviewRow)
    (rels : list PluginRelation) (t : Z) : Tx unit :=
  let sp := snapshot_plugin current rr in
  snapshotVersion t sp rels (nonempty (default "" (rr_changelog rr))) (ReviewerUID p);;
  n ← execN (update_review (ReviewID p) (λ _, true) (settle Approved p None t));
  mustAffect n;;
  insertAudit t sp "review_approve" (decision_operator p) (PluginHash current) (rr_plugin_hash rr).

(** The decision itself, once the card receipt is claimed. *)
Definition approveBody (scope : Scope) (p : DecisionParams) : Tx Plugin :=
  rr ← lockPendingReview (ReviewID p) (ScopeSpaceID scope);
  current ← getReviewedPluginForUpdate (ScopeSpaceID scope) (rr_plugin_id rr);
  approveGuards current rr;;
  t ← (match Now p with Some t => mret t | None => now end);
  live ← liveRelationTargetSet (rr_plugin_id rr);
  frozen ← reconcileFrozenRelations (rr_plugin_id rr) (DecodeSnapshotRelations (rr_relations rr));
  lockRelationTargets (mkScope (OwnerUID current) (ScopeSpaceID scope) false)
    (set_Visibility VSpace current) frozen live;;
  let isFirst := negb (listed current) in
  applyApprovedSnapshot (ScopeSpaceID scope) current rr t isFirst;;
  ensureVisibleDefaultPlacement t (rr_plugin_id rr) (CategoryID current);;
  sync ← syncRelations t (rr_plugin_id rr) (OwnerUID current) frozen;
  (if isFirst then
     promoteEmbeddedChildren (rr_plugin_id rr) (Type_ current) (ScopeSpaceID scope)
       (Visibility current) t
   else mret tt);;
  approveFinish p current rr (SyncRelations sync) t;;
  getReviewedPluginForUpdate (ScopeSpaceID scope) (rr_plugin_id rr).

Definition approveInTx (scope : Scope) (p : DecisionParams) : Tx Plugin :=
  t0 ← now;
  claimCardActionReceipt (CardReceipt p) (ReviewID p) "approve" (DecisionSource p) t0;;
  approveBody scope p.

Definition ApproveReview (scope : Scope) (p : DecisionParams) := transact (approveInTx scope p).

(** ** Visibility groups (visibility_group.go) *)

Definition member_le (a b : string * string) : Prop := string_le a.2 b.2.
#[export] Instance member_le_dec : RelDecision member_le.
Proof. unfold RelDecision, member_le. solve_decision. Defined.

Definition group_members (root : string) (d : Db) : list (string * string) :=
  merge_sort member_le
    (omap (λ kg, let '(rid, g) := kg in
       if String.eqb (g_root_review_id g) root
       then (λ _, (rid, g_plugin_id g)) <$> (reviews d !! rid) else None)
    (map_to_list (groups d))).

(** [visibilityGroup]: the members of the group [reviewID] belongs to. *)
Definition visibilityGroup (reviewID : string) : Tx (list (string * string)) :=
  o ← query (λ d, groups d !! reviewID);
  match o with
  | None => mret []
  | Some g => query (group_members (g_root_review_id g))
  end.

Definition finishVisibilityGroup (reviewID spaceID : string) (status : ReviewStatus)
    (uid name reason : string) (t : Z) : Tx unit :=
  members ← visibilityGroup reviewID;
  for_each members (λ m,
    n ← execN (update_review m.1
          (λ r, rr_in_space spaceID r && bool_decide (rr_status r = Pending))
          (λ r, set_rr_status status (set_rr_reviewer_uid (Some uid)
             (set_rr_reviewer_name (Some name) (set_rr_reason (Some reason)
             (set_rr_reviewed_at (Some t) (set_rr_updated_at t r)))))));
    require (bool_decide (n = 1%nat) || String.eqb m.1 reviewID) ErrConflict).

(** ** Rejection and withdrawal *)

Definition sidecar_keys (raw : RawMessage) : list string :=
  if String.eqb raw "" then []
  else let '(m, ok) := unmarshal_sidecar raw in
       if ok : bool then filter (λ k, k ≠ "") (map_to_list m).*2 else [].

(** [retainedAttachmentKeys]: every storage key the plugin still references. *)
Definition retained_keys (pluginID : string) (live : RawMessage) (d : Db) : list string :=
  sidecar_keys live
  ++ concat ((λ v, sidecar_keys (pv_attachment_keys v)) <$> versions_of pluginID d).

Definition retainedAttachmentKeys (pluginID : string) (live : RawMessage) : Tx (list string) :=
  query (retained_keys pluginID live).

Definition rejectBody (scope : Scope) (p : DecisionParams) : Tx (RawMessage * list string) :=
  rr ← lockPendingReview (ReviewID p) (ScopeSpaceID scope);
  current ← getReviewedPluginForUpdate (ScopeSpaceID scope) (rr_plugin_id rr);
  t ← (match Now p with Some t => mret t | None => now end);
  n ← execN (update_review (ReviewID p) (λ _, true) (settle Rejected p (Some (Reason p)) t));
  mustAffect n;;
  insertAudit t current "review_reject" (decision_operator p) (PluginHash current)
    (PluginHash current);;
  finishVisibilityGroup (ReviewID p) (ScopeSpaceID scope) Rejected (ReviewerUID p)
    (ReviewerName p) (Reason p) t;;
  retained ← retainedAttachmentKeys (ID current) (AttachmentKeys current);
  mret (rr_attachment_keys rr, retained).

Definition rejectInTx (scope : Scope) (p : DecisionParams) : Tx (RawMessage * list string) :=
  t0 ← now;
  claimCardActionReceipt (CardReceipt p) (ReviewID p) "deny" (DecisionSource p) t0;;
  rejectBody scope p.

Definition RejectReview (scope : Scope) (p : DecisionParams) := transact (rejectInTx scope p).

Definition cancelInTx (scope : Scope) (reviewID callerUID : string) : Tx (RawMessage * list string) :=
  o ← query (find_review (λ r, rr_in_space (ScopeSpaceID scope) r
               && String.eqb (rr_applicant_uid r) callerUID && rr_live r) reviewID);
  match o with
  | None => fail ErrNotFound
  | Some rr =>
      require (bool_decide (rr_status rr = Pending)) ErrConflict;;
      current ← getReviewedPluginForUpdate (ScopeSpaceID scope) (rr_plugin_id rr);
      t ← now;
      n ← execN (update_review reviewID
            (λ r, String.eqb (rr_applicant_uid r) callerUID && bool_decide (rr_status r = Pending)
                  && rr_live r && rr_in_space (ScopeSpaceID scope) r)
            (λ r, set_rr_status Canceled (set_rr_reviewed_at (Some t) (set_rr_updated_at t r))));
      mustChangeState n;;
      finishVisibilityGroup reviewID (ScopeSpaceID scope) Canceled callerUID "" "" t;;
      retained ← retainedAttachmentKeys (ID current) (AttachmentKeys current);
      mret (rr_attachment_keys rr, retained)
  end.

Definition CancelReview (scope : Scope) (reviewID callerUID : string) :=
  transact (cancelInTx scope reviewID callerUID).

(** ** Review policy (review_policy.go) *)

(** The effective policy, enabled when no row exists; a failed read is an error. *)
Definition effective_policy (spaceID : string) (d : Db) : bool :=
  match policies d !! spaceID with Some row => po_auto_approve row | None => true end.

Definition GetReviewPolicy (scope : Scope) : Env → Db → result Err bool * Db :=
  autocommit (query (effective_policy (ScopeSpaceID scope))).

Definition upsert_policy (spaceID : string) (enabled : bool) (uid name : string) (t : Z) (d : Db) : Db :=
  let created := match policies d !! spaceID with
                 | Some row => po_created_at row | None => t end in
  set_policies (<[spaceID := mkPolicy enabled uid name created t]> (policies d)) d.

Definition UpsertReviewPolicy (scope : Scope) (enabled : bool) (uid name : string)
    : Env → Db → result Err bool * Db :=
  autocommit (t ← now;
            exec (upsert_policy (ScopeSpaceID scope) enabled uid name t);;
            mret enabled).

(** ** Scoped reads *)

(** [reviewWhereScope] *)
Definition reviewWhereScope (spaceID callerUID : string) (isReviewer : bool) (r : ReviewRow) : bool :=
  rr_in_space spaceID r && (isReviewer || String.eqb (rr_applicant_uid r) callerUID).

(** [JOIN plugins p ON p.plugin_id=rr.plugin_id WHERE p.deleted_at IS NULL]. *)
Definition plugin_not_deleted (d : Db) (r : ReviewRow) : bool :=
  match plugins d !! rr_plugin_id r with Some p => not_deleted p | None => false end.

Definition GetReviewRequest (scope : Scope) (reviewID : string) (isReviewer : bool) (d : Db)
    : result Err ReviewRow :=
  match find_review (λ r, rr_live r && plugin_not_deleted d r
          && reviewWhereScope (ScopeSpaceID scope) (CallerUID scope) isReviewer r) reviewID d with
  | Some r => Ok r
  | None => Error ErrNotFound
  end.

Definition GetReviewRequestAnySpace (reviewID : string) (d : Db) : result Err ReviewRow :=
  match find_review (λ r, rr_live r && plugin_not_deleted d r) reviewID d with
  | Some r => Ok r
  | None => Error ErrNotFound
  end.

Definition HasPendingReview (scope : Scope) (pluginID : string) (d : Db) : bool :=
  existsb (λ kr, rr_open pluginID kr.2) (map_to_list (reviews d))
  && match plugins d !! pluginID with
     | Some p => String.eqb (OwnerUID p) (CallerUID scope)
                 && in_space (ScopeSpaceID scope) p && not_deleted p
     | None => false
     end.

(** [ReviewListFilter] *)
Record ReviewListFilter := mkReviewFilter {
  rf_space_id : string;
  rf_applicant_uid : string;
  rf_status : option ReviewStatus;
  rf_limit : Z;
  rf_offset : Z
}.

(** ORDER BY submitted_at DESC, review_id DESC. *)
Definition review_newer (a b : ReviewRow) : Prop :=
  (rr_submitted_at b < rr_submitted_at a)%Z
  ∨ (rr_submitted_at a = rr_submitted_at b ∧ String.leb (rr_id b) (rr_id a) = true).
#[export] Instance review_newer_dec : RelDecision review_newer.
Proof. unfold RelDecision, review_newer. solve_decision. Defined.

Definition review_matches (f : ReviewListFilter) (d : Db) (r : ReviewRow) : bool :=
  rr_live r && plugin_not_deleted d r
  && (String.eqb (rf_space_id f) "" || rr_in_space (rf_space_id f) r)
  && (String.eqb (rf_applicant_uid f) "" || String.eqb (rr_applicant_uid r) (rf_applicant_uid f))
  && match rf_status f with Some st => bool_decide (rr_status r = st) | None => true end.

(** One page and the total of the same filter. *)
Definition ListReviewRequests (f : ReviewListFilter) (d : Db) : list ReviewRow * nat :=
  let rows := filter (λ r, review_matches f d r = true) (map_to_list (reviews d)).*2 in
  let limit := if ((rf_limit f <=? 0) || (100 <? rf_limit f))%Z then 20%nat
               else Z.to_nat (rf_limit f) in
  let offset := if (rf_offset f <? 0)%Z then 0%nat else Z.to_nat (rf_offset f) in
  (firstn limit (skipn offset (merge_sort review_newer rows)), length rows).

End Review.
