(* ===== verification/Listing.v ===== *)
(** * Listing: internal/repository/plugin/listing.go

    Publication of a private plugin by its owner, takedown of an
    organization plugin by a Space admin, and the request whose status the
    displayed listing status reflects. *)

From S2P Require Import Prelude GoStrings Version Model Store Rows RowWrites Write Review.
Import Go.
Local Open Scope string_scope.

Section Listing.
Context `{Host}.

Record PublishParams := mkPublish {
  pub_expected_draft_revision : string;
  pub_plugin_id : string;
  pub_operator : Operator
}.

Definition publishInTx (scope : Scope) (p : PublishParams) : Tx Plugin :=
  current ← getOwnedForUpdate scope (pub_plugin_id p);
  require (String.eqb (pub_expected_draft_revision p) ""
           || String.eqb (PluginDraftRevision current) (pub_expected_draft_revision p))
    ErrConflict;;
  t ← now;
  require (bool_decide (Visibility current = VPrivate)) ErrConflict;;
  checkPendingReview (pub_plugin_id p);;
  n ← execN (update_plugin (pub_plugin_id p)
        (λ q, String.eqb (OwnerUID q) (CallerUID scope) && in_space (ScopeSpaceID scope) q
              && bool_decide (Visibility q = VPrivate)
              && negb (bool_decide (ListingState q = Published)) && not_deleted q)
        (λ q, set_ListingState Published (set_UpdatedAt t q)));
  mustChangeState n;;
  ensureVisibleDefaultPlacement t (pub_plugin_id p) (CategoryID current);;
  insertAudit t current "publish" (pub_operator p) (PluginHash current) (PluginHash current);;
  getOwnedForUpdate scope (pub_plugin_id p).

Definition PublishPlugin (scope : Scope) (p : PublishParams) := transact (publishInTx scope p).

Record DelistParams := mkDelist {
  del_plugin_id : string;
  del_operator_id : string;
  del_operator_name : string;
  del_request_id : string;
  del_reason : string
}.

Definition delistInTx (scope : Scope) (p : DelistParams) : Tx Plugin :=
  current ← getReviewedPluginForUpdate (ScopeSpaceID scope) (del_plugin_id p);
  require (negb (IsEmbedded current)) ErrNotFound;;
  require (bool_decide (Visibility current = VSpace)) ErrNotFound;;
  t ← now;
  n ← execN (update_plugin (del_plugin_id p)
        (λ q, in_space (ScopeSpaceID scope) q && bool_decide (ListingState q = Published)
              && not_deleted q && bool_decide (Visibility q = VSpace) && negb (IsEmbedded q))
        (λ q, set_ListingState Delisted (set_UpdatedAt t q)));
  mustChangeState n;;
  demoteEmbeddedChildren (del_plugin_id p) (Type_ current) (ScopeSpaceID scope) t;;
  let reason := if String.eqb (del_reason p) "" then reasonCanceledOnDelist else del_reason p in
  cancelPendingReviewFor t (del_plugin_id p) (del_operator_id p) (del_operator_name p) reason;;
  let remark := if String.eqb (del_reason p) "" then None
                else Some ("reason=" ++ del_reason p) in
  insertAudit t current "delist"
    (mkOperator (del_operator_id p) (del_operator_name p) (del_request_id p) remark)
    (PluginHash current) (PluginHash current);;
  getReviewedPluginForUpdate (ScopeSpaceID scope) (del_plugin_id p).

Definition DelistPlugin (scope : Scope) (p : DelistParams) := transact (delistInTx scope p).

(** ORDER BY (status='pending') DESC, submitted_at DESC, review_id DESC. *)
Definition review_first (a b : ReviewRow) : Prop :=
  if decide (rr_status a = Pending) then
    if decide (rr_status b = Pending) then review_newer a b else True
  else if decide (rr_status b = Pending) then False else review_newer a b.
#[export] Instance review_first_dec : RelDecision review_first.
Proof. unfold RelDecision, review_first. intros a b. repeat case_decide; apply _. Defined.

Definition LatestReviewForPlugin (scope : Scope) (pluginID : string) (d : Db)
    : option (string * ReviewStatus) :=
  match plugins d !! pluginID with
  | Some p =>
      if in_space (ScopeSpaceID scope) p && not_deleted p then
        (λ r, (rr_id r, rr_status r)) <$> head (merge_sort review_first
          (filter (λ r, rr_plugin_id r = pluginID ∧ rr_deleted_at r = None)
             (map_to_list (reviews d)).*2))
      else None
  | None => None
  end.

End Listing.
