(* ===== verification/Changes.v ===== *)
(** * Table changes: an abstract machine for the repository

    Every operation of the plugin repository is a transaction of many SQL
    statements. This file states what a single statement may do to the tables
    ([change]), proves once that each helper of Rows.v and RowWrites.v only
    makes such changes, and to which tables ([evolves (changes T)]), and
    provides the automation ([evolve]) with which the operations inherit it.
    Lifecycle.v derives the history properties and invariants from it. *)

From S2P Require Import Prelude GoStrings Version Model Store Rows RowWrites Write Review Listing.
Import Go.
Local Open Scope string_scope.

(** ** Transactions that relate the tables before and after *)

(** Whenever [m] succeeds, the tables before and after are related by [R]. *)
Definition evolves (R : Db → Db → Prop) {A} (m : Tx A) : Prop :=
  ∀ e s, wp m e s (λ _ s', R (db s) (db s')).

Section Evolves.
Context (R : Db → Db → Prop) `{!PreOrder R}.

Lemma evolves_ret {A} (a : A) : evolves R (mret a).
Proof. intros e s. by apply wp_ret. Qed.
Lemma evolves_fail {A} err : evolves R (fail (A:=A) err).
Proof. intros e s. apply wp_fail. Qed.
Lemma evolves_bind {A B} (m : Tx A) (f : A → Tx B) :
  evolves R m → (∀ a, evolves R (f a)) → evolves R (a ← m; f a).
Proof.
  intros Hm Hf e s. apply wp_bind. eapply wp_mono; [apply Hm|]. simpl.
  intros a s' HR. eapply wp_mono; [apply Hf|]. simpl. intros ? s'' HR'. by etrans.
Qed.
Lemma evolves_require b err : evolves R (require b err).
Proof. intros e s. by apply wp_require. Qed.
Lemma evolves_newID : evolves R newID.
Proof. intros e s. by apply wp_newID. Qed.
Lemma evolves_now : evolves R now.
Proof. intros e s. by apply wp_now. Qed.
Lemma evolves_query {A} (f : Db → A) : evolves R (query f).
Proof. intros e s. by apply wp_query. Qed.
Lemma evolves_exec f : (∀ d, R d (f d)) → evolves R (exec f).
Proof. intros Hf e s. apply wp_exec. apply Hf. Qed.
Lemma evolves_execN f : (∀ d n d', f d = (n, d') → R d d') → evolves R (execN f).
Proof. intros Hf e s. apply wp_execN. intros n d ?. simpl. by eapply Hf. Qed.
Lemma evolves_execE f : (∀ d d', f d = Ok d' → R d d') → evolves R (execE f).
Proof. intros Hf e s. apply wp_execE. intros d ?. simpl. by apply Hf. Qed.
Lemma evolves_catch {A} (m : Tx A) h :
  evolves R m → (∀ err, evolves R (h err)) → evolves R (catch m h).
Proof. intros Hm Hh e s. apply wp_catch; [apply Hm|intros err; apply Hh]. Qed.
Lemma evolves_for_each {A} (l : list A) f :
  (∀ x, evolves R (f x)) → evolves R (for_each l f).
Proof.
  intros Hf. induction l; simpl; [apply evolves_ret|]. by apply evolves_bind.
Qed.
End Evolves.

Lemma evolves_mono (R R' : Db → Db → Prop) {A} (m : Tx A) :
  (∀ d d', R d d' → R' d d') → evolves R m → evolves R' m.
Proof. intros HR Hm e s. eapply wp_mono; [apply Hm|]. simpl. auto. Qed.

(** What evolves by equality only reads. *)
Abbreviation readonly := (evolves eq).

Lemma transact_evolves (R : Db → Db → Prop) `{!PreOrder R} {A} (m : Tx A) e d :
  evolves R m → R d (transact m e d).2.
Proof.
  intros Hm. destruct (transact m e d) as [[a|err] d'] eqn:E; simpl.
  - eapply (transact_ok m e d a d' (λ _ x, R d x)); [done|]. apply Hm.
  - by rewrite (transact_error _ _ _ _ _ E).
Qed.

Lemma autocommit_evolves (R : Db → Db → Prop) `{!PreOrder R} {A} (m : Tx A) e d :
  evolves R m → R d (autocommit m e d).2.
Proof.
  intros Hm. destruct (autocommit m e d) as [[a|err] d'] eqn:E; simpl.
  - eapply (autocommit_ok m e d a d' (λ _ x, R d x)); [done|]. apply Hm.
  - revert E. unfold autocommit. case_match; [by case_match|]. by intros [= _ <-].
Qed.

(** ** Changes *)

(** What never changes about a plugin row while it lives. *)
Definition same_identity (p p' : Plugin) : Prop :=
  ID p' = ID p ∧ IsEmbedded p' = IsEmbedded p ∧ OwnerUID p' = OwnerUID p
  ∧ SpaceID p' = SpaceID p ∧ CreatedAt p' = CreatedAt p
  ∧ CreatorName p' = CreatorName p ∧ CreatedByType p' = CreatedByType p
  ∧ CreatedByBotUID p' = CreatedByBotUID p ∧ CreatedByBotName p' = CreatedByBotName p.

(** The submission of a request: everything but its decision. *)
Definition same_submission (r r' : ReviewRow) : Prop :=
  rr_id r' = rr_id r ∧ rr_plugin_id r' = rr_plugin_id r ∧ rr_space_id r' = rr_space_id r
  ∧ rr_target_scope r' = rr_target_scope r ∧ rr_kind r' = rr_kind r
  ∧ rr_version r' = rr_version r ∧ rr_changelog r' = rr_changelog r
  ∧ rr_manifest r' = rr_manifest r ∧ rr_package r' = rr_package r
  ∧ rr_attachment_keys r' = rr_attachment_keys r ∧ rr_relations r' = rr_relations r
  ∧ rr_manifest_hash r' = rr_manifest_hash r ∧ rr_plugin_hash r' = rr_plugin_hash r
  ∧ rr_applicant_uid r' = rr_applicant_uid r ∧ rr_applicant_name r' = rr_applicant_name r
  ∧ rr_submitted_at r' = rr_submitted_at r ∧ rr_created_at r' = rr_created_at r
  ∧ rr_deleted_at r' = rr_deleted_at r.

Definition settled (r r' : ReviewRow) : Prop :=
  rr_status r = Pending ∧ rr_status r' ≠ Pending ∧ same_submission r r'.

(** An edge keeps its source, its author and its creation time; once removed
    it never changes. *)
Definition edge_kept (r r' : PluginRelation) : Prop :=
  r' = r ∨ (RelDeletedAt r = None ∧ RelID r' = RelID r
            ∧ SourcePluginID r' = SourcePluginID r
            ∧ RelCreatedBy r' = RelCreatedBy r ∧ RelCreatedAt r' = RelCreatedAt r).

(** No approved request of the same plugin carries the label of [r]. *)
Definition label_free (d : Db) (r : ReviewRow) : Prop :=
  ∀ j x, reviews d !! j = Some x → rr_plugin_id x = rr_plugin_id r →
    rr_status x = Approved → rr_deleted_at x = None → rr_version x ≠ rr_version r.

(** The kinds of change: a new plugin row; an update of a live row that does
    not list it, and one that may; a soft delete; a submission; the closing of
    pending requests other than by approval; an approval; edges; a version;
    placements; an audit row; a receipt; a review policy. *)
Inductive kind := KInsert | KQuiet | KList | KDelete | KSubmit | KClose | KApprove
  | KEdge | KVersion | KPlace | KAudit | KReceipt | KPolicy.
#[export] Instance kind_eq_dec : EqDecision kind.
Proof. solve_decision. Defined.

Inductive change : kind → Db → Db → Prop :=
| ch_insert d p :
    plugins d !! ID p = None → DeletedAt p = None → PublishedVersionID p = None →
    change KInsert d (set_plugins (<[ID p := p]> (plugins d)) d)
| ch_quiet d id p p' :
    plugins d !! id = Some p → DeletedAt p = None → DeletedAt p' = None → same_identity p p' →
    (listed p' = true → listed p = true) →
    change KQuiet d (set_plugins (<[id := p']> (plugins d)) d)
| ch_list d id p p' :
    plugins d !! id = Some p → DeletedAt p = None → DeletedAt p' = None → same_identity p p' →
    change KList d (set_plugins (<[id := p']> (plugins d)) d)
| ch_delete d id p p' :
    plugins d !! id = Some p → DeletedAt p = None → same_identity p p' → listed p' = false →
    change KDelete d (set_plugins (<[id := p']> (plugins d)) d)
| ch_submit d r :
    reviews d !! rr_id r = None → rr_status r = Pending → rr_deleted_at r = None →
    pending_exists (rr_plugin_id r) d = false →
    change KSubmit d (set_reviews (<[rr_id r := r]> (reviews d)) d)
| ch_close d f :
    (∀ r, f r = r ∨ (settled r (f r) ∧ rr_status (f r) ≠ Approved)) →
    change KClose d (set_reviews (f <$> reviews d) d)
| ch_close_one d id r r' :
    reviews d !! id = Some r → settled r r' → rr_status r' ≠ Approved →
    change KClose d (set_reviews (<[id := r']> (reviews d)) d)
| ch_approve d id r r' :
    reviews d !! id = Some r → settled r r' → rr_status r' = Approved → label_free d r →
    change KApprove d (set_reviews (<[id := r']> (reviews d)) d)
| ch_edges d m :
    (∀ id r, relations d !! id = Some r → ∃ r', m !! id = Some r' ∧ edge_kept r r') →
    (∀ id r, m !! id = Some r → relations d !! id = None → RelID r = id) →
    change KEdge d (set_relations m d)
| ch_version d v :
    versions d !! pv_id v = None →
    pv_version v = Itoa (S (length (versions_of (pv_plugin_id v) d))) →
    change KVersion d (set_versions (<[pv_id v := v]> (versions d)) d)
| ch_place d m : change KPlace d (set_placements m d)
| ch_audit d a :
    audits d !! au_id a = None →
    change KAudit d (set_audits (<[au_id a := a]> (audits d)) d)
| ch_receipt d r :
    receipts d !! rc_event_id r = None →
    change KReceipt d (set_receipts (<[rc_event_id r := r]> (receipts d)) d)
| ch_policy d m : change KPolicy d (set_policies m d).

(** Any number of changes of the kinds in [K]. *)
Definition changes (K : list kind) : Db → Db → Prop :=
  rtc (λ d d', ∃ k, k ∈ K ∧ change k d d').

#[export] Instance changes_preorder K : PreOrder (changes K).
Proof. unfold changes. apply _. Qed.

Lemma changes_once K k d d' : change k d d' → mem k K = true → changes K d d'.
Proof. intros Hc Hk. apply rtc_once. exists k. by rewrite <-mem_true. Qed.

Definition kinds_within (K K' : list kind) : bool := forallb (λ k, mem k K') K.

Lemma changes_mono K K' d d' :
  kinds_within K K' = true → changes K d d' → changes K' d d'.
Proof.
  intros Hsub. apply rtc_subrel. intros x y (k & Hk & Hc). exists k. split; [|done].
  apply mem_true. unfold kinds_within in Hsub. rewrite forallb_forall in Hsub.
  apply Hsub. by apply list_elem_of_In.
Qed.

Lemma evolves_within K K' {A} (m : Tx A) :
  evolves (changes K) m → kinds_within K K' = true → evolves (changes K') m.
Proof. intros Hm Hsub. eapply evolves_mono; [|apply Hm]. intros d d'. by apply changes_mono. Qed.

Lemma readonly_evolves (R : Db → Db → Prop) `{!PreOrder R} {A} (m : Tx A) :
  readonly m → evolves R m.
Proof. apply evolves_mono. by intros d d' ->. Qed.

(** A relation every allowed change respects holds across the changes. *)
Lemma changes_rel (R : Db → Db → Prop) `{!PreOrder R} K d d' :
  (∀ k x y, k ∈ K → change k x y → R x y) → changes K d d' → R d d'.
Proof.
  intros HR. induction 1 as [|x y z (k & Hk & Hc) _ IH]; [done|].
  etrans; [by eapply HR|done].
Qed.

(** ** Automation *)

Create HintDb evolve.
#[export] Hint Extern 0 (kinds_within _ _ = true) => reflexivity : evolve.
#[export] Hint Extern 0 (PreOrder _) => apply _ : evolve.

(** One step of an [evolves] goal: a helper with a lemma in [evolve], or the
    rule of the outermost construct. *)
Ltac evolve_step :=
  first
  [ solve [eauto 4 with evolve nocore]
  | lazymatch goal with
    | |- evolves _ (mbind _ _) => apply evolves_bind; [apply _| |intros ?]
    | |- evolves _ (mret _) => apply evolves_ret; apply _
    | |- evolves _ (fail _) => apply evolves_fail
    | |- evolves _ (require _ _) => apply evolves_require; apply _
    | |- evolves _ newID => apply evolves_newID; apply _
    | |- evolves _ now => apply evolves_now; apply _
    | |- evolves _ (query _) => apply evolves_query; apply _
    | |- evolves _ (catch _ _) => apply evolves_catch; [|intros ?]
    | |- evolves _ (for_each _ _) => apply evolves_for_each; [apply _|intros ?]
    | |- evolves _ (match ?x with _ => _ end) => destruct x
    | |- evolves _ (let _ := _ in _) => cbv zeta
    end ].
Ltac evolve := repeat evolve_step.

(** Updates of one plugin row. *)
Lemma quiet_update K id P f :
  mem KQuiet K = true →
  (∀ p, P p = true → DeletedAt p = None ∧ DeletedAt (f p) = None ∧ same_identity p (f p)
                     ∧ (listed (f p) = true → listed p = true)) →
  evolves (changes K) (execN (update_plugin id P f)).
Proof.
  intros HK Hf. apply evolves_execN. intros d n d'. unfold update_plugin.
  destruct (plugins d !! id) as [p|] eqn:Hp; [|by intros [= _ <-]].
  destruct (P p) eqn:HP; [|by intros [= _ <-]]. intros [= _ <-].
  destruct (Hf p HP) as (? & ? & ? & ?).
  eapply changes_once; [|done]. by eapply ch_quiet.
Qed.

Lemma delete_update K id P f :
  mem KDelete K = true →
  (∀ p, P p = true → DeletedAt p = None ∧ same_identity p (f p) ∧ listed (f p) = false) →
  evolves (changes K) (execN (update_plugin id P f)).
Proof.
  intros HK Hf. apply evolves_execN. intros d n d'. unfold update_plugin.
  destruct (plugins d !! id) as [p|] eqn:Hp; [|by intros [= _ <-]].
  destruct (P p) eqn:HP; [|by intros [= _ <-]]. intros [= _ <-].
  destruct (Hf p HP) as (? & ? & ?).
  eapply changes_once; [|done]. by eapply ch_delete.
Qed.

Lemma list_update K id P f :
  mem KList K = true →
  (∀ p, P p = true → DeletedAt p = None ∧ DeletedAt (f p) = None ∧ same_identity p (f p)) →
  evolves (changes K) (execN (update_plugin id P f)).
Proof.
  intros HK Hf. apply evolves_execN. intros d n d'. unfold update_plugin.
  destruct (plugins d !! id) as [p|] eqn:Hp; [|by intros [= _ <-]].
  destruct (P p) eqn:HP; [|by intros [= _ <-]]. intros [= _ <-].
  destruct (Hf p HP) as (? & ? & ?).
  eapply changes_once; [|done]. by eapply ch_list.
Qed.

Lemma not_deleted_true p : not_deleted p = true ↔ DeletedAt p = None.
Proof. apply bool_decide_eq_true. Qed.

(** Side conditions of the row updates: identity and listing by computation. *)
Ltac row_side :=
  let p := fresh "p" in let HP := fresh "HP" in
  intros p HP; unfold owned_where, not_deleted in HP; destruct p;
  unfold same_identity, listed in *; simpl in *; bool_facts;
  repeat split; try done; try (intros; bool_facts; simplify_eq; done).

(** ** Helpers that only read *)
Section Readers.
Context `{Host} (R : Db → Db → Prop) `{!PreOrder R}.

Lemma getOwnedForUpdate_ro scope id : evolves R (getOwnedForUpdate scope id).
Proof. unfold getOwnedForUpdate. evolve. Qed.
Lemma getReviewedPluginForUpdate_ro s id : evolves R (getReviewedPluginForUpdate s id).
Proof. unfold getReviewedPluginForUpdate. evolve. Qed.
Lemma lockPluginCategory_ro c t : evolves R (lockPluginCategory c t).
Proof. unfold lockPluginCategory. evolve. Qed.
Lemma checkedNameColumns_ro p n b : evolves R (checkedNameColumns p n b).
Proof. unfold checkedNameColumns, rejectPluginNameCollision. evolve. Qed.
Lemma embeddedRelationTargets_ro s t : evolves R (embeddedRelationTargets s t).
Proof. unfold embeddedRelationTargets. evolve. Qed.
Lemma members_with_skills_ro l : evolves R (members_with_skills l).
Proof. induction l; simpl; evolve; auto using embeddedRelationTargets_ro. Qed.
Lemma collectEmbeddedChildren_ro i t : evolves R (collectEmbeddedChildren i t).
Proof.
  unfold collectEmbeddedChildren.
  evolve; auto using embeddedRelationTargets_ro, members_with_skills_ro.
Qed.
Lemma liveRelationTargetSet_ro s : evolves R (liveRelationTargetSet s).
Proof. unfold liveRelationTargetSet. evolve. Qed.
Lemma rejectLiveIncomingRelations_ro i : evolves R (rejectLiveIncomingRelations i).
Proof. unfold rejectLiveIncomingRelations. evolve. Qed.
Lemma rejectPublishedIncomingRelations_ro i : evolves R (rejectPublishedIncomingRelations i).
Proof. unfold rejectPublishedIncomingRelations. evolve. Qed.
Lemma lock_targets_ro scope src g seen rels : evolves R (lock_targets scope src g seen rels).
Proof. revert seen. induction rels as [|r rels IH]; intros seen; simpl; evolve. Qed.
Lemma lockRelationTargets_ro scope src rels g : evolves R (lockRelationTargets scope src rels g).
Proof. apply lock_targets_ro. Qed.
Lemma lockReferences_ro scope src rels g : evolves R (lockReferences scope src rels g).
Proof. apply lock_targets_ro. Qed.
Lemma mustAffect_ro n : evolves R (mustAffect n).
Proof. unfold mustAffect. evolve. Qed.
Lemma mustChangeState_ro n : evolves R (mustChangeState n).
Proof. unfold mustChangeState. evolve. Qed.
Lemma editableDraftChangelog_ro p : evolves R (editableDraftChangelog p).
Proof. unfold editableDraftChangelog. evolve. Qed.
Lemma carry_changelog_ro p c : evolves R (carry_changelog p c).
Proof. unfold carry_changelog. evolve. apply editableDraftChangelog_ro. Qed.
Lemma checkPendingReview_ro i : evolves R (checkPendingReview i).
Proof. unfold checkPendingReview. evolve. Qed.
Lemma updateGuards_ro m p : evolves R (updateGuards m p).
Proof. unfold updateGuards. evolve; apply checkPendingReview_ro. Qed.
Lemma changelogDecision_ro m p : evolves R (changelogDecision m p).
Proof. unfold changelogDecision. evolve; apply editableDraftChangelog_ro. Qed.
Lemma publishedVersionLabels_ro i p : evolves R (publishedVersionLabels i p).
Proof. unfold publishedVersionLabels. evolve. Qed.
Lemma lockPendingReview_ro i s : evolves R (lockPendingReview i s).
Proof. unfold lockPendingReview, classifyMissingPending. evolve. Qed.
Lemma reconcileFrozenRelations_ro i l : evolves R (reconcileFrozenRelations i l).
Proof. unfold reconcileFrozenRelations. evolve. Qed.
Lemma approveGuards_ro p r : evolves R (approveGuards p r).
Proof. unfold approveGuards. evolve. apply publishedVersionLabels_ro. Qed.
Lemma visibilityGroup_ro i : evolves R (visibilityGroup i).
Proof. unfold visibilityGroup. evolve. Qed.
Lemma retainedAttachmentKeys_ro i l : evolves R (retainedAttachmentKeys i l).
Proof. unfold retainedAttachmentKeys. evolve. Qed.
End Readers.

#[export] Hint Resolve getOwnedForUpdate_ro getReviewedPluginForUpdate_ro lockPluginCategory_ro
  checkedNameColumns_ro embeddedRelationTargets_ro collectEmbeddedChildren_ro
  liveRelationTargetSet_ro rejectLiveIncomingRelations_ro rejectPublishedIncomingRelations_ro
  lockRelationTargets_ro lockReferences_ro mustAffect_ro mustChangeState_ro
  editableDraftChangelog_ro carry_changelog_ro checkPendingReview_ro updateGuards_ro
  changelogDecision_ro publishedVersionLabels_ro lockPendingReview_ro
  reconcileFrozenRelations_ro approveGuards_ro visibilityGroup_ro
  retainedAttachmentKeys_ro : evolve.

(** ** Helpers that write *)
Section Writers.
Context `{Host}.

Lemma insert_row K row :
  mem KInsert K = true → DeletedAt row = None → PublishedVersionID row = None →
  evolves (changes K) (execE (insert_plugin_row row)).
Proof.
  intros HK ??. apply evolves_execE. intros d d'. unfold insert_plugin_row.
  case_match eqn:Hp; [done|]. intros [= <-].
  eapply changes_once; [by apply ch_insert|done].
Qed.

Lemma insertPlugin_changes K t p :
  kinds_within [KInsert] K = true → evolves (changes K) (insertPlugin t p).
Proof.
  intros HK. unfold insertPlugin. evolve.
  apply insert_row; [by apply andb_true_iff in HK as [? _]|by destruct p..].
Qed.

Lemma edges_insert K r :
  mem KEdge K = true → evolves (changes K) (execE (insert_relation r)).
Proof.
  intros HK. apply evolves_execE. intros d d'. unfold insert_relation.
  case_match eqn:Hr; [done|]. intros [= <-]. eapply changes_once; [apply ch_edges|done].
  - intros id r0 Hr0. exists r0. split; [|by left]. rewrite lookup_insert_ne; naive_solver.
  - intros id r0 Hr0 Hr1. apply lookup_insert_Some in Hr0. naive_solver.
Qed.

Lemma edges_update K id source f :
  mem KEdge K = true →
  (∀ r, RelID (f r) = RelID r ∧ SourcePluginID (f r) = SourcePluginID r
        ∧ RelCreatedBy (f r) = RelCreatedBy r ∧ RelCreatedAt (f r) = RelCreatedAt r) →
  evolves (changes K) (exec (update_relation id source f)).
Proof.
  intros HK Hf. apply evolves_exec. intros d. unfold update_relation.
  destruct (relations d !! id) as [r|] eqn:Hr; [|done].
  case_match eqn:HP; [|done]. bool_facts.
  eapply changes_once; [apply ch_edges|done].
  - intros id0 r0 Hr0. destruct (decide (id0 = id)) as [->|].
    + simplify_eq. exists (f r). rewrite lookup_insert_eq. split; [done|right].
      destruct (Hf r) as (?&?&?&?). unfold rel_live in *. bool_facts. done.
    + exists r0. rewrite lookup_insert_ne by done. split; [done|by left].
  - intros id0 r0 Hr0 Hr1. apply lookup_insert_Some in Hr0. naive_solver.
Qed.

Lemma delete_outgoing_changes K t source :
  mem KEdge K = true → evolves (changes K) (exec (delete_outgoing t source)).
Proof.
  intros HK. apply evolves_exec. intros d. unfold delete_outgoing.
  eapply changes_once; [apply ch_edges|done].
  - intros id r Hr. rewrite lookup_fmap, Hr. eexists. split; [done|].
    case_match eqn:HP; [right|by left]. bool_facts. unfold rel_live in *. bool_facts.
    by destruct r.
  - intros id r Hr Hn. by rewrite lookup_fmap, Hn in Hr.
Qed.

Lemma insertRelationRow_changes K t s c x :
  kinds_within [KEdge] K = true → evolves (changes K) (insertRelationRow t s c x).
Proof. intros HK. apply edges_insert. by apply andb_true_iff in HK as [? _]. Qed.
#[local] Hint Resolve insertRelationRow_changes : evolve.

Lemma insertRelations_changes K t s c l :
  kinds_within [KEdge] K = true → evolves (changes K) (insertRelations t s c l).
Proof. intros HK. induction l; simpl; evolve. Qed.

Lemma sync_desired_changes K t s c edges l :
  kinds_within [KEdge] K = true → evolves (changes K) (sync_desired t s c edges l).
Proof.
  intros HK. assert (mem KEdge K = true) by by apply andb_true_iff in HK as [? _].
  revert edges. induction l as [|r l IH]; intros edges; simpl; evolve.
  all: apply edges_update; [done|by intros []].
Qed.
#[local] Hint Resolve sync_desired_changes : evolve.

Lemma syncRelations_changes K t s c l :
  kinds_within [KEdge] K = true → evolves (changes K) (syncRelations t s c l).
Proof.
  intros HK. assert (mem KEdge K = true) by by apply andb_true_iff in HK as [? _].
  unfold syncRelations. evolve. apply edges_update; [done|by intros []].
Qed.

Lemma place_exec K f :
  mem KPlace K = true → (∀ d, ∃ m, f d = set_placements m d) →
  evolves (changes K) (exec f).
Proof.
  intros HK Hf. apply evolves_exec. intros d. destruct (Hf d) as [m ->].
  eapply changes_once; [apply ch_place|done].
Qed.

Lemma place_insert K x :
  mem KPlace K = true → evolves (changes K) (execE (insert_placement x)).
Proof.
  intros HK. apply evolves_execE. intros d d'. unfold insert_placement.
  repeat case_match; try done. intros [= <-]. eapply changes_once; [apply ch_place|done].
Qed.

Lemma insert_or_reveal_shape x d : ∃ m, insert_or_reveal x d = set_placements m d.
Proof. unfold insert_or_reveal, insert_placement. repeat case_match; simplify_eq; by eexists. Qed.
#[local] Hint Resolve place_insert insert_or_reveal_shape : evolve.

Lemma insertPlacements_changes K t i l :
  kinds_within [KPlace] K = true → evolves (changes K) (insertPlacements t i l).
Proof.
  intros HK. assert (mem KPlace K = true) by by apply andb_true_iff in HK as [? _].
  unfold insertPlacements. evolve.
Qed.

Lemma syncDefaultPlacement_changes K t i c :
  kinds_within [KPlace] K = true → evolves (changes K) (syncDefaultPlacement t i c).
Proof.
  intros HK. assert (mem KPlace K = true) by by apply andb_true_iff in HK as [? _].
  unfold syncDefaultPlacement. evolve. apply place_exec; [done|]. by eexists.
Qed.

Lemma ensureVisibleDefaultPlacement_changes K t i c :
  kinds_within [KPlace] K = true → evolves (changes K) (ensureVisibleDefaultPlacement t i c).
Proof.
  intros HK. assert (mem KPlace K = true) by by apply andb_true_iff in HK as [? _].
  unfold ensureVisibleDefaultPlacement. evolve; apply place_exec; eauto using insert_or_reveal_shape.

Qed.

Lemma insertAudit_changes K t p a m b c :
  kinds_within [KAudit] K = true → evolves (changes K) (insertAudit t p a m b c).
Proof.
  intros HK. unfold insertAudit. evolve. apply evolves_execE. intros d d'.
  unfold insert_audit. case_match eqn:Ha; [done|]. intros [= <-].
  eapply changes_once; [by apply ch_audit|]. by apply andb_true_iff in HK as [? _].
Qed.

Lemma advance_quiet K id t l :
  mem KQuiet K = true →
  evolves (changes K) (execN (update_plugin id not_deleted (advance_label t l))).
Proof. intros HK. apply quiet_update; [done|]. row_side. Qed.

Lemma point_quiet K id t l v :
  mem KQuiet K = true →
  evolves (changes K) (execN (update_plugin id not_deleted
    (λ q, set_CurrentVersionID (Some v) (advance_label t l q)))).
Proof. intros HK. apply quiet_update; [done|]. row_side. Qed.

Lemma snapshotVersion_changes K t p rels c b :
  kinds_within [KVersion; KQuiet] K = true →
  evolves (changes K) (snapshotVersion t p rels c b).
Proof.
  intros HK. apply andb_true_iff in HK as [HV HK]. apply andb_true_iff in HK as [HQ _].
  unfold snapshotVersion.
  destruct (decide (Type_ p = Connector)).
  { evolve. by apply advance_quiet. }
  intros e s. do 2 wp_step. wp_step; [|wp_step]. do 3 wp_step.
  wp_step. simpl in *. apply wp_bind. eapply wp_mono; [by apply (point_quiet K)|].
  simpl. intros _ s' Hs'. apply wp_ret. etrans; [|exact Hs'].
  unfold insert_version in *. repeat case_match; simplify_eq.
  eapply changes_once; [by apply ch_version|done].
Qed.

Lemma cancelPendingReviewFor_changes K t i o n r :
  kinds_within [KClose] K = true → evolves (changes K) (cancelPendingReviewFor t i o n r).
Proof.
  intros HK. unfold cancelPendingReviewFor. apply evolves_exec. intros d. unfold cancel_open.
  eapply changes_once; [apply ch_close|by apply andb_true_iff in HK as [? _]].
  intros r0. destruct (rr_open i r0) eqn:Ho; [right|by left].
  unfold rr_open in Ho. bool_facts. by destruct r0.
Qed.

Lemma promoteEmbeddedChildren_changes K i ty sp a t :
  kinds_within [KList] K = true → evolves (changes K) (promoteEmbeddedChildren i ty sp a t).
Proof.
  intros HK. unfold promoteEmbeddedChildren, promoteEmbeddedIDs. evolve.
  apply list_update; [by apply andb_true_iff in HK as [? _]|]. row_side.
Qed.

Lemma demoteEmbeddedChildren_changes K i ty sp t :
  kinds_within [KQuiet] K = true → evolves (changes K) (demoteEmbeddedChildren i ty sp t).
Proof.
  intros HK. unfold demoteEmbeddedChildren. evolve.
  apply quiet_update; [by apply andb_true_iff in HK as [? _]|]. row_side.
Qed.

End Writers.

#[export] Hint Resolve insertPlugin_changes insertRelations_changes syncRelations_changes
  delete_outgoing_changes
  insertPlacements_changes syncDefaultPlacement_changes ensureVisibleDefaultPlacement_changes
  insertAudit_changes snapshotVersion_changes cancelPendingReviewFor_changes
  promoteEmbeddedChildren_changes demoteEmbeddedChildren_changes : evolve.
#[export] Hint Extern 0 (mem _ _ = true) => reflexivity : evolve.
