(* ===== verification/Operations.v ===== *)
(** * Every operation is a sequence of table changes

    For each exported operation of the plugin repository, the kinds of
    change its transaction may make: the refinement of the operations by the
    abstract machine of Changes.v. *)

From S2P Require Import Prelude GoStrings Version Model Store Rows RowWrites Write Review Listing Changes.
Import Go.
Local Open Scope string_scope.

(** Continue after a step of which only its changes matter. *)
Lemma wp_evolves (R : Db → Db → Prop) {A} (m : Tx A) e s (Q : A → St → Prop) :
  evolves R m → (∀ a s', R (db s) (db s') → Q a s') → wp m e s Q.
Proof. intros Hm HQ. eapply wp_mono; [apply Hm|]. simpl. auto. Qed.

(** The same, accumulating the changes made since [d]. *)
Lemma wp_pass K d {A} (m : Tx A) e s (Q : A → St → Prop) :
  changes K d (db s) → evolves (changes K) m →
  (∀ a s', changes K d (db s') → Q a s') → wp m e s Q.
Proof. intros Hd Hm HQ. eapply wp_evolves; [done|]. intros a s' Hs'. apply HQ. by etrans. Qed.

Lemma wp_pass_bind K d {A B} (m : Tx A) (f : A → Tx B) e s (Q : B → St → Prop) :
  changes K d (db s) → evolves (changes K) m →
  (∀ a s', changes K d (db s') → wp (f a) e s' Q) → wp (a ← m; f a) e s Q.
Proof. intros. apply wp_bind. by eapply wp_pass. Qed.

(** Step over the first part of a sequence, keeping only [changes]. *)
Ltac pass H :=
  let a := fresh "a" in let s := fresh "s" in
  eapply (wp_pass_bind _ _ _ _ _ _ _ H); [evolve|clear H; intros a s H].

(** ** What a set of kinds leaves alone *)

Definition review_free : list kind :=
  [KInsert; KQuiet; KList; KDelete; KEdge; KVersion; KPlace; KAudit; KReceipt; KPolicy].
Definition plugin_free : list kind :=
  [KSubmit; KClose; KApprove; KEdge; KVersion; KPlace; KAudit; KReceipt; KPolicy].

Definition keeps {A} (π : Db → A) (d d' : Db) : Prop := π d' = π d.
#[export] Instance keeps_preorder {A} (π : Db → A) : PreOrder (keeps π).
Proof. unfold keeps. split; [done|]. intros x y z H1 H2. congruence. Qed.

Lemma keeps_of_changes {A} (π : Db → A) K0 K d d' :
  (∀ k x y, k ∈ K0 → change k x y → π y = π x) →
  changes K d d' → kinds_within K K0 = true → π d' = π d.
Proof.
  intros Hk Hc Hsub. apply (changes_rel (keeps π) K0); [exact Hk|by eapply changes_mono].
Qed.

Lemma reviews_kept K d d' :
  changes K d d' → kinds_within K review_free = true → reviews d' = reviews d.
Proof. apply keeps_of_changes. intros k x y Hk Hc. destruct Hc; done || (exfalso; set_solver). Qed.

Lemma plugins_kept K d d' :
  changes K d d' → kinds_within K plugin_free = true → plugins d' = plugins d.
Proof. apply keeps_of_changes. intros k x y Hk Hc. destruct Hc; done || (exfalso; set_solver). Qed.

(** ** Row-level rules with a known row *)

Lemma plugin_update_wp K id P f e s :
  mem KQuiet K = true →
  (∀ p, plugins (db s) !! id = Some p → P p = true →
     DeletedAt p = None ∧ DeletedAt (f p) = None ∧ same_identity p (f p)
     ∧ (listed (f p) = true → listed p = true)) →
  wp (execN (update_plugin id P f)) e s (λ _ s', changes K (db s) (db s')).
Proof.
  intros HK Hf. apply wp_execN. intros n d. unfold update_plugin. simpl.
  destruct (plugins (db s) !! id) as [p|] eqn:Hp; [|by intros [= _ <-]].
  destruct (P p) eqn:HP; [|by intros [= _ <-]]. intros [= _ <-].
  destruct (Hf p eq_refl HP) as (? & ? & ? & ?). eapply changes_once; [by eapply ch_quiet|done].
Qed.

Lemma review_close_wp K id P f e s :
  mem KClose K = true →
  (∀ r, reviews (db s) !! id = Some r → P r = true →
        settled r (f r) ∧ rr_status (f r) ≠ Approved) →
  wp (execN (update_review id P f)) e s (λ _ s', changes K (db s) (db s')).
Proof.
  intros HK Hf. apply wp_execN. intros n d. unfold update_review. simpl.
  destruct (reviews (db s) !! id) as [r|] eqn:Hr; [|by intros [= _ <-]].
  destruct (P r) eqn:HP; [|by intros [= _ <-]]. intros [= _ <-].
  destruct (Hf r eq_refl HP) as [? ?]. eapply changes_once; [by eapply ch_close_one|done].
Qed.

Lemma lockPendingReview_wp id sp e s (Q : ReviewRow → St → Prop) :
  (∀ r, reviews (db s) !! id = Some r → rr_status r = Pending → rr_deleted_at r = None →
        rr_space_id r = sp → Q r (bump s)) →
  wp (lockPendingReview id sp) e s Q.
Proof.
  intros HQ. unfold lockPendingReview. do 2 wp_step. unfold find_review.
  destruct (reviews (db s) !! id) as [r|] eqn:Hr; simpl.
  2:{ unfold classifyMissingPending. do 2 wp_step. by repeat case_match. }
  destruct (_ && _) eqn:HP; simpl.
  - wp_step. unfold rr_live, rr_in_space in HP. bool_facts. apply String.eqb_eq in H0. auto.
  - unfold classifyMissingPending. do 2 wp_step. repeat case_match; done.
Qed.

Lemma getReviewed_wp sp id e s (Q : Plugin → St → Prop) :
  (∀ p, plugins (db s) !! id = Some p → SpaceID p = Some sp → Status p = 1%Z →
        DeletedAt p = None → Q p (bump s)) →
  wp (getReviewedPluginForUpdate sp id) e s Q.
Proof.
  intros HQ. unfold getReviewedPluginForUpdate. do 2 wp_step. unfold find_plugin.
  destruct (plugins (db s) !! id) as [p|] eqn:Hp; simpl; [|done].
  destruct (_ && _) eqn:HP; simpl; [|done]. wp_step.
  unfold live in HP. bool_facts. auto.
Qed.

Lemma getOwned_wp scope id e s (Q : Plugin → St → Prop) :
  (∀ p, plugins (db s) !! id = Some p → owned_by scope p = true → Status p = 1%Z →
        DeletedAt p = None → Q p (bump s)) →
  wp (getOwnedForUpdate scope id) e s Q.
Proof.
  intros HQ. unfold getOwnedForUpdate. do 2 wp_step. unfold find_plugin.
  destruct (plugins (db s) !! id) as [p|] eqn:Hp; simpl; [|done].
  destruct (_ && _) eqn:HP; simpl; [|done]. wp_step.
  unfold live in HP. bool_facts. auto.
Qed.

(** Kinds that leave existing plugin rows alone. *)
Definition row_free : list kind := KInsert :: plugin_free.

Lemma rows_kept K d d' :
  changes K d d' → kinds_within K row_free = true → plugins d ⊆ plugins d'.
Proof.
  intros Hc Hsub. set (R := λ x y : Db, plugins x ⊆ plugins y).
  assert (PreOrder R) by (split; unfold R; [intros x|intros x y z]; [done|by etrans]).
  apply (changes_rel R row_free); [|by eapply changes_mono].
  intros k x y Hk Hxy. unfold R. destruct Hxy; try done; try (exfalso; set_solver).
  by apply insert_subseteq.
Qed.

Section Ops.
Context `{Host}.

(** ** Creation *)

Lemma insert_nodes_changes K t scope seen nodes :
  kinds_within [KInsert] K = true → evolves (changes K) (insert_nodes t scope seen nodes).
Proof. intros HK. revert seen. induction nodes as [|n l IH]; intros seen; simpl; evolve. Qed.

Lemma wire_nodes_changes K t scope g nodes :
  kinds_within [KEdge] K = true → kinds_within [KPlace] K = true →
  evolves (changes K) (wire_nodes t scope g nodes).
Proof. intros ??. induction nodes as [|[] l IH]; simpl; evolve. Qed.

Lemma wire_children_changes K t scope g nodes :
  kinds_within [KEdge] K = true → evolves (changes K) (wire_children t scope g nodes).
Proof. intros HK. induction nodes as [|[] l IH]; simpl; evolve. Qed.

Lemma snapshot_nodes_changes K t nodes :
  kinds_within [KVersion; KQuiet] K = true → evolves (changes K) (snapshot_nodes t nodes).
Proof. intros HK. induction nodes as [|[[]] l IH]; simpl; evolve. Qed.
#[local] Hint Resolve insert_nodes_changes wire_nodes_changes wire_children_changes
  snapshot_nodes_changes : evolve.

Definition create_kinds : list kind := [KInsert; KEdge; KPlace; KVersion; KQuiet; KAudit].

Lemma createInTx_changes scope m : evolves (changes create_kinds) (createInTx scope m).
Proof. unfold createInTx. evolve. Qed.

Lemma createGraphInTx_changes scope l : evolves (changes create_kinds) (createGraphInTx scope l).
Proof. unfold createGraphInTx. evolve. Qed.

(** ** Deletion *)

Lemma soft_delete_changes K t scope id :
  mem KDelete K = true →
  evolves (changes K) (execN (update_plugin id (owned_where scope) (soft_delete t))).
Proof. intros HK. apply delete_update; [done|]. row_side. Qed.
#[local] Hint Resolve soft_delete_changes : evolve.

Definition delete_kinds : list kind := [KDelete; KEdge; KClose; KAudit].

Lemma softDeleteRebuiltChild_changes K t scope id op :
  kinds_within delete_kinds K = true →
  evolves (changes K) (softDeleteRebuiltChild t scope id op).
Proof.
  intros HK. eapply evolves_within; [|exact HK]. unfold softDeleteRebuiltChild. evolve.
Qed.
#[local] Hint Resolve softDeleteRebuiltChild_changes : evolve.

Lemma deleteInTx_changes scope id op : evolves (changes delete_kinds) (deleteInTx scope id op).
Proof. unfold deleteInTx. evolve. Qed.

Lemma deleteGraphInTx_changes scope id op :
  evolves (changes delete_kinds) (deleteGraphInTx scope id op).
Proof. unfold deleteGraphInTx. evolve. Qed.

(** ** Edits *)

Lemma write_content_identity t p key ns q : same_identity q (write_content t p key ns q).
Proof. by destruct q. Qed.
Lemma write_content_deleted t p key ns q : DeletedAt (write_content t p key ns q) = DeletedAt q.
Proof. by destruct q. Qed.
Lemma write_content_listed t p key ns q :
  listed (write_content t p key ns q)
  = bool_decide (ListingState q = Published) && bool_decide (Visibility p = VSpace).
Proof. by destruct q. Qed.

(** The write of an ordinary edit. *)
Lemma content_update K t p key ns scope id (reset : bool) :
  mem KList K = true →
  evolves (changes K) (execN (update_plugin id (owned_where scope) (λ q,
    write_content t p key ns (if reset then set_ListingState Draft q else q)))).
Proof.
  intros HK. apply list_update; [done|]. intros q Hq. unfold owned_where in Hq. bool_facts.
  rewrite write_content_deleted. destruct reset, q; unfold not_deleted in *; simpl in *;
    bool_facts; done.
Qed.
#[local] Hint Resolve content_update : evolve.

Definition update_kinds : list kind := [KList; KEdge; KPlace; KVersion; KQuiet; KAudit].

Lemma updateInTx_changes scope m : evolves (changes update_kinds) (updateInTx scope m).
Proof. unfold updateInTx. evolve. Qed.

Lemma updateRatingInTx_changes scope id r op :
  evolves (changes [KQuiet; KAudit]) (updateRatingInTx scope id r op).
Proof. unfold updateRatingInTx. evolve. apply quiet_update; [done|]. row_side. Qed.

(** ** Requests *)

Lemma insert_review_changes K row :
  mem KSubmit K = true → rr_status row = Pending → rr_deleted_at row = None →
  evolves (changes K) (execE (insert_review row)).
Proof.
  intros HK Hs Hd. apply evolves_execE. intros d d'. unfold insert_review.
  rewrite Hs, Hd, !bool_decide_true by done. simpl.
  case_match eqn:Hr; [done|]. case_match eqn:Hp; [done|]. intros [= <-].
  eapply changes_once; [by apply ch_submit|done].
Qed.

Lemma insertReviewInTx_changes scope req snap :
  evolves (changes [KSubmit]) (insertReviewInTx scope req snap).
Proof. unfold insertReviewInTx. evolve. by apply insert_review_changes. Qed.

Lemma claimCardActionReceipt_changes K r id dec src t :
  kinds_within [KReceipt] K = true →
  evolves (changes K) (claimCardActionReceipt r id dec src t).
Proof.
  intros HK. unfold claimCardActionReceipt, insertCardActionReceipt. evolve.
  apply evolves_execE. intros d d'. unfold insert_receipt.
  case_match eqn:Hr; [done|]. intros [= <-].
  eapply changes_once; [by apply ch_receipt|]. by apply andb_true_iff in HK as [? _].
Qed.
#[local] Hint Resolve claimCardActionReceipt_changes : evolve.

Lemma finishVisibilityGroup_changes K id sp st uid name reason t :
  mem KClose K = true → st ≠ Pending → st ≠ Approved →
  evolves (changes K) (finishVisibilityGroup id sp st uid name reason t).
Proof.
  intros HK Hst Ha. unfold finishVisibilityGroup. evolve.
  intros e s. apply review_close_wp; [done|]. intros r _ HP. bool_facts.
  by destruct r.
Qed.

End Ops.

#[export] Hint Resolve insert_nodes_changes wire_nodes_changes wire_children_changes
  snapshot_nodes_changes soft_delete_changes softDeleteRebuiltChild_changes
  claimCardActionReceipt_changes finishVisibilityGroup_changes : evolve.

Section Ops2.
Context `{Host}.

(** ** Decisions *)

Lemma apply_snapshot_identity rr t key ns q :
  same_identity q (apply_snapshot rr t key ns q)
  ∧ DeletedAt (apply_snapshot rr t key ns q) = DeletedAt q
  ∧ listed (apply_snapshot rr t key ns q) = listed q.
Proof. unfold apply_snapshot. destruct (manifestNameAndTags _). by destruct q. Qed.

Lemma list_first_identity q :
  same_identity q (list_first q) ∧ DeletedAt (list_first q) = DeletedAt q.
Proof. by destruct q. Qed.

Lemma same_identity_trans p q r : same_identity p q → same_identity q r → same_identity p r.
Proof. unfold same_identity. naive_solver congruence. Qed.

Lemma applyApprovedSnapshot_changes K sp current rr t b :
  kinds_within [KList; KQuiet] K = true →
  evolves (changes K) (applyApprovedSnapshot sp current rr t b).
Proof.
  intros HK. apply andb_true_iff in HK as [HL HQ]. apply andb_true_iff in HQ as [HQ _].
  unfold applyApprovedSnapshot. evolve.
  - apply list_update; [done|]. intros q Hq. bool_facts. unfold not_deleted in *. bool_facts.
    edestruct (apply_snapshot_identity rr t) as (? & Hd & _).
    edestruct list_first_identity as [? Hd']. rewrite Hd', Hd.
    repeat split; try done; by eapply same_identity_trans.
  - apply quiet_update; [done|]. intros q Hq. bool_facts. unfold not_deleted in *. bool_facts.
    edestruct (apply_snapshot_identity rr t) as (? & Hd & Hl). by rewrite Hl, Hd.
Qed.
#[local] Hint Resolve applyApprovedSnapshot_changes : evolve.

Lemma settle_settled r st p reason t :
  rr_status r = Pending → st ≠ Pending → settled r (settle st p reason t r).
Proof. intros Hr Hst. unfold settle. destruct reason, r; simpl in *; done. Qed.

Lemma settle_status r st p reason t : rr_status (settle st p reason t r) = st.
Proof. unfold settle. by destruct reason. Qed.

Lemma review_approve_wp K id f e s r :
  mem KApprove K = true → reviews (db s) !! id = Some r → label_free (db s) r →
  settled r (f r) → rr_status (f r) = Approved →
  wp (execN (update_review id (λ _, true) f)) e s (λ _ s', changes K (db s) (db s')).
Proof.
  intros HK Hr Hl Hs Ha. apply wp_execN. intros n d. unfold update_review. simpl.
  rewrite Hr. intros [= _ <-]. eapply changes_once; [by eapply ch_approve|done].
Qed.

Lemma label_free_kept d d' r : reviews d' = reviews d → label_free d r → label_free d' r.
Proof. unfold label_free. by intros ->. Qed.

(** An approval settles its request last, so the decision falls on the pending
    row it locked. *)
Lemma approveFinish_wp p current rr rels t e s K r :
  kinds_within [KQuiet; KVersion; KApprove; KAudit] K = true →
  reviews (db s) !! ReviewID p = Some r → rr_status r = Pending → label_free (db s) r →
  wp (approveFinish p current rr rels t) e s (λ _ s', changes K (db s) (db s')).
Proof.
  intros HK Hr Hp Hl. assert (∀ d d', changes [KQuiet; KVersion; KApprove; KAudit] d d' → changes K d d')
    as Hup by (intros ??; by apply changes_mono).
  unfold approveFinish. cbv zeta. apply wp_bind.
  eapply (wp_evolves (changes [KVersion; KQuiet])); [evolve|]. intros _ s1 H1.
  assert (reviews (db s1) = reviews (db s)) as Hk by exact (reviews_kept _ _ _ H1 eq_refl).
  apply wp_bind. eapply wp_mono.
  { apply (review_approve_wp [KApprove] _ _ _ _ r); [done|by rewrite Hk|by eapply label_free_kept|
      by apply settle_settled|apply settle_status]. }
  simpl. intros n s2 H2.
  apply wp_bind. eapply (wp_evolves (changes [KAudit])); [evolve|]. intros _ s3 H3.
  eapply (wp_evolves (changes [KAudit])); [evolve|]. intros _ s4 H4.
  apply Hup. etrans; [by eapply changes_mono, H1|]. etrans; [by eapply changes_mono, H2|].
  etrans; [by eapply changes_mono, H3|]. by eapply changes_mono, H4.
Qed.

(** The guards of an approval leave the tables alone and free the label. *)
Lemma approveGuards_wp current rr e s :
  wp (approveGuards current rr) e s (λ _ s', db s' = db s ∧ label_free (db s) rr
    ∧ rr_kind rr ≠ KindVisibility
    ∧ not_regressed_from (CurrentVersion current) (rr_version rr) = true
    ∧ rr_version rr ∉ publishedLabels (rr_plugin_id rr) current (db s)).
Proof.
  unfold approveGuards, publishedVersionLabels. do 3 (apply wp_bind; wp_step). wp_step.
  simpl. bool_facts. match goal with Hm : mem _ _ = false |- _ => apply mem_false in Hm end.
  split; [done|]. split; [|done]. intros j x Hx Hp Ha Hd Hv.
  apply H2. unfold publishedLabels. apply elem_of_app. left. rewrite <-Hv.
  apply list_elem_of_fmap_2, list_elem_of_filter. split; [done|].
  apply list_elem_of_fmap. exists (j, x). split; [done|]. by apply elem_of_map_to_list.
Qed.

(** An approval after its card receipt is claimed, and with the claim. *)
Definition approve_body_kinds : list kind :=
  [KList; KQuiet; KEdge; KVersion; KPlace; KApprove; KAudit].
Definition approve_kinds : list kind := KReceipt :: approve_body_kinds.
Definition approve_pre : list kind := [KList; KQuiet; KEdge; KPlace].

Lemma approveBody_changes scope p : evolves (changes approve_body_kinds) (approveBody scope p).
Proof.
  unfold approveBody. intros e s0. apply wp_bind. apply lockPendingReview_wp. intros rr Hrr Hpend _ _.
  apply wp_bind. apply getReviewed_wp. simpl. intros current _ _ _ _.
  apply wp_bind. eapply wp_mono; [apply approveGuards_wp|]. simpl.
  intros _ s (Hs & Hl & _). assert (changes approve_pre (db s0) (db s)) as Hc by (by rewrite Hs).
  do 8 pass Hc.
  apply wp_bind. eapply wp_mono.
  { eapply (approveFinish_wp _ _ _ _ _ _ _ approve_body_kinds); [done| |done|].
    - by rewrite (reviews_kept _ _ _ Hc eq_refl).
    - eapply label_free_kept, Hl. exact (reviews_kept _ _ _ Hc eq_refl). }
  simpl. intros _ s1' H1.
  eapply (wp_evolves eq); [evolve|]. intros _ s2' <-.
  etrans; [by eapply changes_mono, Hc|done].
Qed.

Lemma approveInTx_changes scope p : evolves (changes approve_kinds) (approveInTx scope p).
Proof.
  unfold approveInTx. evolve. eapply evolves_within; [apply approveBody_changes|done].
Qed.

Definition decide_body_kinds : list kind := [KClose; KAudit].
Definition decide_kinds : list kind := KReceipt :: decide_body_kinds.

Lemma rejectBody_changes scope p : evolves (changes decide_body_kinds) (rejectBody scope p).
Proof.
  unfold rejectBody. intros e s0. apply wp_bind. apply lockPendingReview_wp. intros rr Hrr Hpend _ _.
  assert (changes decide_body_kinds (db s0) (db (bump s0))) as Hc by done. revert Hc.
  assert (reviews (db (bump s0)) = reviews (db s0)) as Hk by done. revert Hk.
  generalize (bump s0) as s. intros s Hk Hc.
  apply wp_bind. apply getReviewed_wp. intros current _ _ _ _.
  apply wp_bind. eapply (wp_evolves eq); [evolve|]. intros t s1 Hs1.
  apply wp_bind. eapply wp_mono.
  { apply (review_close_wp decide_body_kinds); [done|]. simpl in Hs1. rewrite <-Hs1, Hk, Hrr.
    intros r' [= <-] _. split; [by apply settle_settled|by rewrite settle_status]. }
  simpl. intros n s2 H2. simpl in Hs1. rewrite <-Hs1 in H2.
  assert (changes decide_body_kinds (db s0) (db s2)) as Hd by (by etrans).
  do 3 pass Hd.
  - by apply finishVisibilityGroup_changes.
  - pass Hd. by apply wp_ret.
Qed.

Lemma rejectInTx_changes scope p : evolves (changes decide_kinds) (rejectInTx scope p).
Proof. unfold rejectInTx. evolve. eapply evolves_within; [apply rejectBody_changes|done]. Qed.

Lemma cancelInTx_changes scope id uid : evolves (changes [KClose]) (cancelInTx scope id uid).
Proof.
  unfold cancelInTx. evolve; [|by apply finishVisibilityGroup_changes].
  intros e s. apply review_close_wp; [done|]. intros r0 _ HP. bool_facts. by destruct r0.
Qed.

(** ** Listing *)

Lemma publishInTx_changes scope p : evolves (changes [KQuiet; KPlace; KAudit]) (publishInTx scope p).
Proof.
  unfold publishInTx. evolve. apply quiet_update; [done|]. intros q HP. bool_facts.
  unfold not_deleted, listed in *. bool_facts. destruct q; simpl in *; subst. repeat split; done.
Qed.

Lemma delistInTx_changes scope p :
  evolves (changes [KQuiet; KClose; KAudit]) (delistInTx scope p).
Proof.
  unfold delistInTx. evolve. apply quiet_update; [done|]. intros q HP. bool_facts.
  unfold not_deleted, listed in *. bool_facts. destruct q; simpl in *; subst. repeat split; done.
Qed.

End Ops2.

Section Ops3.
Context `{Host}.

(** ** Edits that never list a plugin *)

Lemma updateGuards_wp m before e s :
  wp (updateGuards m before) e s (λ reset s', db s' = db s
    ∧ (EnforceListingGate m = true → listed before = false
       ∧ reset = bool_decide (ListingState before = Published)
                 && negb (bool_decide (Visibility (MPlugin m) = Visibility before)))).
Proof.
  unfold updateGuards. cbv zeta. do 2 (apply wp_bind; wp_step).
  apply wp_bind. eapply (wp_evolves eq); [evolve|]. intros _ s1 Hs1.
  apply wp_bind; wp_step. apply wp_bind; wp_step. apply wp_ret.
  split; [done|]. intros HG. rewrite HG in *. split; [|done].
  by destruct (listed before).
Qed.

Definition gated_kinds : list kind := [KEdge; KPlace; KVersion; KQuiet; KAudit].

Lemma updateInTx_gated scope m :
  EnforceListingGate m = true → evolves (changes gated_kinds) (updateInTx scope m).
Proof.
  intros HG e s. unfold updateInTx.
  apply wp_bind, getOwned_wp. intros before Hb Hown _ Hlive.
  apply wp_bind. eapply wp_mono; [apply updateGuards_wp|]. simpl.
  intros reset s1 [Hs1 Hgate]. destruct (Hgate HG) as [Hnl Hreset]. rewrite <-Hs1 in Hb.
  assert (db s1 = db s) as Heq by done. clear Hgate Hs1. rewrite <-Heq. clear Heq s.
  apply wp_bind. eapply (wp_evolves eq); [evolve|]. intros t s2 Hs2. rewrite Hs2 in *. clear Hs2 s1.
  do 5 (apply wp_bind; eapply (wp_evolves eq); [evolve|]; 
        let x := fresh "x" in let s' := fresh "s" in let E := fresh "E" in
        intros x s' E; rewrite E in *; clear E).
  destruct x3 as [key ns].
  apply wp_bind. eapply wp_mono.
  { apply wp_catch; [|by intros err].
    apply (plugin_update_wp gated_kinds); [done|]. rewrite Hb. intros q [= <-] _.
    rewrite write_content_listed, write_content_deleted.
    destruct reset; symmetry in Hreset; bool_facts.
    - split; [done|]. split; [by destruct before|]. split; [by destruct before|]. by destruct before.
    - split; [done|]. split; [done|]. split; [apply write_content_identity|]. intros Hl. bool_facts.
      rewrite bool_decide_true in Hreset by done. simpl in Hreset. bool_facts.
      unfold listed. by rewrite !bool_decide_true by congruence. }
  simpl. intros n s9 Hc. do 3 pass Hc. destruct a1. do 2 pass Hc. by apply wp_ret.
Qed.

Definition rebuild_kinds : list kind :=
  [KInsert; KQuiet; KDelete; KEdge; KPlace; KVersion; KClose; KAudit].

Lemma rebuildGraphInTx_changes scope top l :
  evolves (changes rebuild_kinds) (rebuildGraphInTx scope top l).
Proof.
  intros e s. unfold rebuildGraphInTx. cbv zeta.
  apply wp_bind. eapply (wp_evolves eq); [evolve|]. intros t s0 Hs0. rewrite Hs0. clear Hs0.
  apply wp_bind, getOwned_wp. intros before Hb Hown _ Hlive.
  assert (changes [KInsert; KEdge] (db s0) (db (bump s0))) as Hc by done. revert Hc.
  generalize (bump s0). intros s1 Hc.
  do 6 pass Hc. destruct a4 as [key ns].
  assert (plugins (db s7) !! ID (MPlugin top) = Some before) as Hrow.
  { eapply lookup_weaken; [exact Hb|]. exact (rows_kept _ _ _ Hc eq_refl). }
  apply wp_bind. eapply wp_mono.
  { apply wp_catch; [|by intros err].
    apply (plugin_update_wp rebuild_kinds); [done|]. simpl. rewrite Hrow. intros q [= <-] _.
    rewrite write_content_listed. simpl.
    split; [done|]. split; [done|]. split; [apply write_content_identity|]. intros Hl. bool_facts.
    unfold listed. destruct (Visibility before); simplify_eq. by rewrite !bool_decide_true. }
  simpl. intros n s8 Hd.
  assert (changes rebuild_kinds (db s0) (db s8)) as Hall.
  { etrans; [by eapply changes_mono, Hc|done]. }
  do 7 pass Hall. by apply wp_ret.
Qed.

End Ops3.
