(* ===== verification/Sync.v ===== *)
(** * Relation synchronization is exact

    [syncRelations] (write.go) turns the live edges of a plugin into exactly
    the submitted ones: it inserts the edges without identifier, updates the
    known ones and soft-deletes the rest. *)

From S2P Require Import Prelude GoStrings Model Store Rows RowWrites.
Local Open Scope string_scope.

Section Sync.

(** The live edge [row] is as [r] asked; an absent pin asks nothing. *)
Definition matches_edge (r row : PluginRelation) : Prop :=
  TargetPluginID row = TargetPluginID r ∧ RelType row = RelType r ∧ SortOrder row = SortOrder r
  ∧ Data row = Data r ∧ RelStatus row = RelStatus r
  ∧ (TargetVersionID r ≠ None → TargetVersionID row = TargetVersionID r).

(** [r'] is the submitted [r] with its identifier assigned. *)
Definition assigned (r r' : PluginRelation) : Prop :=
  r' = r ∨ (RelID r = "" ∧ ∃ i, r' = set_RelID i r).

Definition edge_live (source : string) (r : PluginRelation) : Prop :=
  SourcePluginID r = source ∧ RelDeletedAt r = None.

Lemma liveEdges_Some source d k r :
  liveEdges source d !! k = Some r ↔ relations d !! k = Some r ∧ edge_live source r.
Proof.
  unfold liveEdges, edge_live, rel_live. rewrite map_lookup_filter_Some. simpl.
  rewrite andb_true_iff, String.eqb_eq, bool_decide_eq_true. done.
Qed.

Lemma liveEdges_insert source d i r :
  edge_live source r →
  liveEdges source (set_relations (<[i := r]> (relations d)) d) = <[i := r]> (liveEdges source d).
Proof.
  intros Hl. apply map_eq. intros k. apply option_eq. intros x.
  rewrite liveEdges_Some, !lookup_insert_Some, liveEdges_Some. simpl.
  rewrite lookup_insert_Some. naive_solver.
Qed.

Lemma liveEdges_update source d i r f :
  liveEdges source d !! i = Some r → edge_live source (f r) →
  liveEdges source (update_relation i source f d) = <[i := f r]> (liveEdges source d).
Proof.
  intros Hr Hf. apply liveEdges_Some in Hr as [Hr [Hs Hd]]. unfold update_relation.
  rewrite Hr, Hs, String.eqb_refl. unfold rel_live. rewrite bool_decide_true by done. simpl.
  by apply liveEdges_insert.
Qed.

Lemma liveEdges_drop source d i f :
  (∀ r, RelDeletedAt (f r) ≠ None) →
  liveEdges source (update_relation i source f d) = delete i (liveEdges source d).
Proof.
  intros Hf. apply map_eq. intros k. apply option_eq. intros x.
  rewrite lookup_delete_Some, !liveEdges_Some. unfold update_relation, edge_live.
  destruct (relations d !! i) as [r|] eqn:Hr; [|naive_solver].
  destruct (_ && _) eqn:HP; simpl.
  - rewrite lookup_insert_Some. naive_solver.
  - split; [|naive_solver]. intros (Hx & Hs & Hd). split; [|done]. intros ->. simplify_eq.
    unfold rel_live in HP. by rewrite String.eqb_refl, bool_decide_true in HP.
Qed.

(** What the loop over the submitted edges guarantees, from the live edges [L]
    to [L'], with [edges] the ones not yet met. *)
Record synced (desired out : list PluginRelation) (edges edges' L L' : gmap string PluginRelation)
    : Prop := {
  sy_assigned : Forall2 assigned desired out;
  sy_matches : ∀ r, r ∈ out → ∃ row, L' !! RelID r = Some row ∧ matches_edge r row;
  sy_rest : ∀ k, edges' !! k = if decide (k ∈ RelID <$> out) then None else edges !! k;
  sy_kept : ∀ k, k ∉ RelID <$> out → L' !! k = L !! k;
  sy_origin : ∀ k, k ∈ RelID <$> out → is_Some (edges !! k) ∨ L !! k = None
}.

Lemma synced_cons rel rel' row desired out edges edges1 edges' L L1 L' :
  assigned rel rel' → matches_edge rel' row →
  L1 = <[RelID rel' := row]> L →
  edges1 = delete (RelID rel') edges →
  is_Some (edges !! RelID rel') ∨ L !! RelID rel' = None →
  synced desired out edges1 edges' L1 L' →
  synced (rel :: desired) (rel' :: out) edges edges' L L'.
Proof.
  intros Ha Hm -> -> Ho [H1 H2 H3 H4 H5].
  assert (RelID rel' ∉ RelID <$> out) as Hnot.
  { intros Hin. destruct (H5 _ Hin) as [Hs|Hn].
    - rewrite lookup_delete_eq in Hs. by destruct Hs.
    - by rewrite lookup_insert_eq in Hn. }
  split.
  - by constructor.
  - intros r [->|Hr]%elem_of_cons; [|by apply H2]. exists row.
    rewrite H4 by done. by rewrite lookup_insert_eq.
  - intros k. rewrite H3, fmap_cons. destruct (decide (k = RelID rel')) as [->|Hne].
    + rewrite decide_False, decide_True, lookup_delete_eq by (done || apply elem_of_cons; auto).
      done.
    + rewrite lookup_delete_ne by done. destruct (decide (k ∈ RelID <$> out)).
      * by rewrite decide_True by (apply elem_of_cons; auto).
      * rewrite decide_False; [done|]. rewrite elem_of_cons. tauto.
  - intros k Hk. rewrite fmap_cons, not_elem_of_cons in Hk. destruct Hk.
    rewrite H4 by done. by rewrite lookup_insert_ne.
  - intros k. rewrite fmap_cons, elem_of_cons. intros [->|Hk]; [done|].
    destruct (decide (k = RelID rel')) as [->|]; [done|].
    specialize (H5 _ Hk). by rewrite lookup_delete_ne, lookup_insert_ne in H5.
Qed.

Lemma same_edge_matches edge rel pin :
  same_edge edge rel pin = true →
  (TargetVersionID rel ≠ None → pin = true → TargetVersionID edge = TargetVersionID rel) →
  matches_edge rel edge.
Proof.
  unfold same_edge. intros Hs Hpin. bool_facts.
  repeat match goal with Hx : (_ =? _)%string = true |- _ => apply String.eqb_eq in Hx end.
  unfold matches_edge. auto 10.
Qed.

(** The row an update of a known edge leaves. *)
Definition rewritten (t : Z) (rel edge : PluginRelation) : PluginRelation :=
  let r1 := set_TargetPluginID (TargetPluginID rel) (set_RelType (RelType rel)
              (set_SortOrder (SortOrder rel) (set_Data (Data rel)
              (set_RelStatus (RelStatus rel) (set_RelUpdatedAt t edge))))) in
  if decide (TargetVersionID rel = None) then r1 else set_TargetVersionID (TargetVersionID rel) r1.

Lemma rewritten_live t rel edge source : edge_live source edge → edge_live source (rewritten t rel edge).
Proof. unfold rewritten. case_decide; by destruct edge. Qed.
Lemma rewritten_matches t rel edge : matches_edge rel (rewritten t rel edge).
Proof. unfold rewritten. case_decide; by destruct edge. Qed.

(** The branch of a known edge, as one step on the live edges. *)
Lemma known_edge_wp t source rel edge {A} (k : bool → Tx A) e s (Q : A → St → Prop) :
  liveEdges source (db s) !! RelID rel = Some edge →
  (∀ b row s', matches_edge rel row →
     liveEdges source (db s') = <[RelID rel := row]> (liveEdges source (db s)) → wp (k b) e s' Q) →
  wp (pinEqual ←
        (if bool_decide (TargetVersionID rel ≠ None) then
           old ← query (λ d, r ← relations d !! RelID rel; TargetVersionID r);
           mret (option_string_eqb old (TargetVersionID rel))
         else mret true);
      changed ←
        (if same_edge edge rel pinEqual then mret false
         else
           exec (update_relation (RelID rel) source (λ r,
             set_TargetPluginID (TargetPluginID rel) (set_RelType (RelType rel)
             (set_SortOrder (SortOrder rel) (set_Data (Data rel)
             (set_RelStatus (RelStatus rel) (set_RelUpdatedAt t r)))))));;
           (if bool_decide (TargetVersionID rel ≠ None) then
              exec (update_relation (RelID rel) source (set_TargetVersionID (TargetVersionID rel)))
            else mret tt);;
           mret true);
      k changed) e s Q.
Proof.
  intros He Hk. pose proof (proj1 (liveEdges_Some _ _ _ _) He) as [Hr Hlive].
  apply wp_bind. eapply (wp_mono _ _ _ (λ pin s', db s' = db s
    ∧ (TargetVersionID rel ≠ None → pin = true → TargetVersionID edge = TargetVersionID rel))).
  { case_bool_decide; [|by apply wp_ret]. apply wp_bind, wp_query, wp_ret. rewrite Hr. simpl.
    split; [done|]. intros _ Hp. unfold option_string_eqb in Hp. by bool_facts. }
  intros pin s1 [Hs1 Hpin]. apply wp_bind. destruct (same_edge edge rel pin) eqn:Hsame.
  - apply wp_ret. apply (Hk _ edge); [by eapply same_edge_matches|]. rewrite Hs1.
    by rewrite insert_id.
  - apply wp_bind, wp_exec. apply wp_bind. rewrite Hs1.
    pose proof (rewritten_live t rel _ _ Hlive) as Hrl.
    case_bool_decide as Hpa; [apply wp_exec|apply wp_ret]; apply wp_ret;
      apply (Hk _ (rewritten t rel edge)); try apply rewritten_matches; simpl;
      unfold rewritten in *; case_decide; try done.
    + erewrite (liveEdges_update _ (update_relation _ _ _ _)).
      * erewrite liveEdges_update by (done || by destruct edge). by rewrite insert_insert_eq.
      * erewrite liveEdges_update by (done || by destruct edge). by rewrite lookup_insert_eq.
      * done.
    + by erewrite liveEdges_update by (done || by destruct edge).
Qed.

Lemma insert_relation_live source creator t x d d' :
  insert_relation (mkRelation (RelID x) source None (TargetPluginID x) (TargetVersionID x) None
    (RelType x) (SortOrder x) (Data x) (RelStatus x) creator t t None) d = Ok d' →
  liveEdges source d !! RelID x = None
  ∧ ∃ row, matches_edge x row ∧ liveEdges source d' = <[RelID x := row]> (liveEdges source d).
Proof.
  unfold insert_relation. simpl. destruct (relations d !! RelID x) eqn:Hn; [done|].
  intros [= <-]. split.
  - apply eq_None_not_Some. intros [r [Hr _]%liveEdges_Some]. congruence.
  - eexists. rewrite liveEdges_insert; [|done]. split; [|done]. done.
Qed.

Lemma sync_desired_wp t source creator desired edges e s :
  edges ⊆ liveEdges source (db s) →
  wp (sync_desired t source creator edges desired) e s (λ r s',
    synced desired r.2.2 edges r.1 (liveEdges source (db s)) (liveEdges source (db s'))).
Proof.
  revert edges s. induction desired as [|rel desired IH]; intros edges s Hsub; simpl.
  { apply wp_ret. split; try done; simpl; set_solver. }
  destruct (String.eqb_spec (RelID rel) "") as [Hid|Hid].
  - apply wp_bind. wp_step. unfold insertRelationRow. apply wp_bind, wp_execE. intros d1 Hins.
    apply insert_relation_live in Hins as (Hnone & row & Hm & HL). simpl in Hnone, HL.
    apply wp_bind. eapply wp_mono.
    { apply IH. simpl. rewrite HL. etrans; [exact Hsub|]. by apply insert_subseteq. }
    simpl. intros [edges' [[c u] out]] s1 Hsy. apply wp_ret. simpl in *.
    assert (edges !! i = None) as Hei by by eapply lookup_weaken_None.
    eapply synced_cons; [right; eauto|exact Hm|exact HL|by rewrite delete_id|by right|done].
  - destruct (edges !! RelID rel) as [edge|] eqn:He; [|apply wp_fail].
    pose proof (lookup_weaken _ _ _ _ He Hsub) as HeL.
    eapply (known_edge_wp _ _ _ edge); [exact HeL|]. intros b row s1 Hm HL.
    apply wp_bind. eapply wp_mono.
    { apply IH. rewrite HL. apply map_subseteq_spec. intros k x Hx.
      apply lookup_delete_Some in Hx as [? Hx]. rewrite lookup_insert_ne by done.
      by eapply lookup_weaken. }
    simpl. intros [edges' [[c u] out]] s2 Hsy. apply wp_ret. simpl in *.
    eapply synced_cons; [by left|exact Hm|exact HL|done|by left; rewrite He|done].
Qed.

(** Dropping the leftover edges. *)
Lemma drop_leftover_wp t source l e s :
  wp (for_each l (λ id, exec (update_relation id source (λ r,
        set_RelDeletedAt (Some t) (set_RelUpdatedAt t r))))) e s (λ _ s',
    ∀ k, liveEdges source (db s') !! k
         = if decide (k ∈ l) then None else liveEdges source (db s) !! k).
Proof.
  revert s. induction l as [|i l IH]; intros s; simpl; [by apply wp_ret|].
  apply wp_bind, wp_exec. eapply wp_mono; [apply IH|]. simpl. intros _ s' Hk k.
  rewrite Hk. rewrite liveEdges_drop by done. destruct (decide (k = i)) as [->|Hne].
  - rewrite lookup_delete_eq. rewrite (decide_True (P:=i ∈ i :: l)) by (by left).
    by case_decide.
  - rewrite lookup_delete_ne by done. destruct (decide (k ∈ l)).
    + by rewrite decide_True by (by right).
    + rewrite decide_False; [done|]. rewrite elem_of_cons. tauto.
Qed.

Lemma leftover_keys (m : gmap string PluginRelation) k :
  k ∈ merge_sort string_le (map_to_list m).*1 ↔ is_Some (m !! k).
Proof.
  rewrite merge_sort_Permutation, list_elem_of_fmap. split.
  - intros ([k' r] & -> & Hr%elem_of_map_to_list). by exists r.
  - intros [r Hr]. exists (k, r). by rewrite elem_of_map_to_list.
Qed.

Lemma syncRelations_wp t source creator desired e s :
  wp (syncRelations t source creator desired) e s (λ sync s', ∃ edges' L',
    synced desired (SyncRelations sync) (liveEdges source (db s)) edges'
      (liveEdges source (db s)) L'
    ∧ ∀ k, liveEdges source (db s') !! k = if decide (is_Some (edges' !! k)) then None else L' !! k).
Proof.
  unfold syncRelations. apply wp_bind, wp_query. apply wp_bind.
  eapply wp_mono; [by apply sync_desired_wp|]. simpl.
  intros [edges' [[c u] out]] s1 Hsy. apply wp_bind. eapply wp_mono; [apply drop_leftover_wp|].
  simpl. intros _ s2 Hdrop. apply wp_ret. simpl in *. eexists edges', _. split; [exact Hsy|].
  intros k. rewrite Hdrop. apply decide_ext. apply leftover_keys.
Qed.

(** The live edges of [source] are those of [out] and no other, each as asked. *)
Definition edges_are (source : string) (out : list PluginRelation) (d : Db) : Prop :=
  (∀ r, r ∈ out → ∃ row, liveEdges source d !! RelID r = Some row ∧ matches_edge r row)
  ∧ (∀ k, is_Some (liveEdges source d !! k) ↔ k ∈ RelID <$> out).

Lemma edges_are_kept source out d d' : relations d' = relations d → edges_are source out d → edges_are source out d'.
Proof. unfold edges_are, liveEdges. by intros ->. Qed.

Lemma syncRelations_exact_wp t source creator desired e s :
  wp (syncRelations t source creator desired) e s (λ sync s',
    Forall2 assigned desired (SyncRelations sync) ∧ edges_are source (SyncRelations sync) (db s')).
Proof.
  eapply wp_mono; [apply syncRelations_wp|]. simpl. intros sync s' (edges' & L' & [H1 H2 H3 H4 _] & Hlive).
  assert (∀ k, k ∈ RelID <$> SyncRelations sync →
            liveEdges source (db s') !! k = L' !! k) as Hout.
  { intros k Hk. rewrite Hlive, decide_False; [done|]. rewrite H3, decide_True by done. by intros []. }
  split; [done|]. split.
  - intros r Hr. destruct (H2 _ Hr) as (row & Hrow & Hm). exists row. split; [|done].
    rewrite Hout; [done|]. by apply list_elem_of_fmap_2.
  - intros k. split.
    + intros [r Hr]. rewrite Hlive in Hr. case_decide as Hk; [done|].
      destruct (decide (k ∈ RelID <$> SyncRelations sync)) as [|Hn]; [done|].
      rewrite H3, decide_False in Hk by done. rewrite H4 in Hr by done. by rewrite Hr in Hk; destruct Hk.
    + intros Hk. rewrite Hout by done. apply list_elem_of_fmap in Hk as (r & -> & Hr).
      destruct (H2 _ Hr) as (row & -> & _). done.
Qed.

(** Synchronization is exact. After [syncRelations] succeeds, the live
    edges of the source are exactly the submitted ones: the returned relations
    are the submitted ones with identifiers assigned, each is live with the
    submitted target, type, order, data, status and pin, and no other edge of
    the source is live. *)
Theorem sync_relations_exact t source creator desired e s sync s' :
  syncRelations t source creator desired e s = Ok (sync, s') →
  Forall2 assigned desired (SyncRelations sync) ∧ edges_are source (SyncRelations sync) (db s').
Proof.
  intros Hrun. pose proof (syncRelations_exact_wp t source creator desired e s) as Hwp.
  unfold wp in Hwp. by rewrite Hrun in Hwp.
Qed.

End Sync.
