(* ===== verification/Children.v ===== *)
(** * The embedded children of a container

    What [collectEmbeddedChildren] computes, and that promotion (approval)
    publishes every child of a container. *)

From S2P Require Import Prelude GoStrings Version Model Store Rows RowWrites Write Review Listing Changes Operations.
Import Go.
Local Open Scope string_scope.

Section Children.
Context `{Host}.

(** ** The embedded children of a container *)

(** What [collectEmbeddedChildren] computes on tables [d]. *)
Definition children (id : string) (ty : PluginType) (d : Db) : list string :=
  match ty with
  | Expert => embeddedTargets id "expert_skill" d
  | ExpertTeam =>
      concat ((λ m, m :: embeddedTargets m "expert_skill" d)
              <$> embeddedTargets id "expert_team_expert" d)
  | _ => []
  end.

Lemma members_with_skills_wp l e s :
  wp (members_with_skills l) e s (λ r s',
    r = concat ((λ m, m :: embeddedTargets m "expert_skill" (db s)) <$> l) ∧ db s' = db s).
Proof.
  revert s. induction l as [|m l IH]; intros s; simpl; [by apply wp_ret|].
  unfold embeddedRelationTargets. apply wp_bind, wp_query. apply wp_bind.
  eapply wp_mono; [apply IH|]. simpl. intros r s' [-> Hs']. by apply wp_ret.
Qed.

Lemma collect_wp id ty e s :
  wp (collectEmbeddedChildren id ty) e s (λ l s', l = children id ty (db s) ∧ db s' = db s).
Proof.
  unfold collectEmbeddedChildren, children. destruct ty; try (by apply wp_ret).
  - unfold embeddedRelationTargets. by apply wp_query.
  - unfold embeddedRelationTargets. apply wp_bind, wp_query. eapply wp_mono; [apply members_with_skills_wp|]. done.
Qed.

(** Tables with the same edges and the same live embedded rows. *)
Definition same_graph (d d' : Db) : Prop :=
  relations d' = relations d ∧ ∀ r, embedded_target d' r = embedded_target d r.

Lemma embeddedTargets_kept d d' src ty :
  same_graph d d' → embeddedTargets src ty d' = embeddedTargets src ty d.
Proof.
  intros [Hr He]. unfold embeddedTargets, rels_where. rewrite Hr. do 2 f_equal.
  apply list_filter_iff. intros r. by rewrite He.
Qed.

Lemma children_kept d d' id ty : same_graph d d' → children id ty d' = children id ty d.
Proof.
  intros Hg. unfold children. destruct ty; try done; [by apply embeddedTargets_kept|].
  rewrite (embeddedTargets_kept d d') by done. f_equal.
  apply list_fmap_ext. intros ? m _. by rewrite (embeddedTargets_kept d d').
Qed.

(** Updating a row in a way that keeps what [embedded_target] reads. *)
Lemma same_graph_update d id p p' :
  plugins d !! id = Some p → IsEmbedded p' = IsEmbedded p → live p' = live p →
  same_graph d (set_plugins (<[id := p']> (plugins d)) d).
Proof.
  intros Hp He Hl. split; [done|]. intros r. unfold embedded_target. simpl.
  destruct (decide (id = TargetPluginID r)) as [<-|Hne].
  - by rewrite lookup_insert_eq, Hp, He, Hl.
  - by rewrite lookup_insert_ne.
Qed.

Lemma embeddedTargets_live d src ty c :
  c ∈ embeddedTargets src ty d → ∃ q, plugins d !! c = Some q ∧ IsEmbedded q = true ∧ live q = true.
Proof.
  unfold embeddedTargets, rels_where. rewrite list_elem_of_fmap. intros (r & -> & Hr).
  rewrite merge_sort_Permutation, list_elem_of_filter in Hr. destruct Hr as [Hr _].
  bool_facts. unfold embedded_target in *. case_match; [|done]. bool_facts. eauto.
Qed.

Lemma children_live d id ty c :
  c ∈ children id ty d → ∃ q, plugins d !! c = Some q ∧ IsEmbedded q = true ∧ live q = true.
Proof.
  unfold children. destruct ty; [apply embeddedTargets_live| |set_solver..].
  rewrite list_elem_of_In, in_concat. intros (l & Hl & Hc).
  apply list_elem_of_In, list_elem_of_fmap in Hl as (m & -> & Hm).
  apply list_elem_of_In, elem_of_cons in Hc as [->|Hc]; by eapply embeddedTargets_live.
Qed.

(** A loop that establishes [P x] for each element and preserves the others. *)
Lemma wp_for_each_all {A} (l : list A) (f : A → Tx unit) e s (I : St → Prop) (P : A → St → Prop) :
  I s →
  (∀ x s', I s' → wp (f x) e s' (λ _ s'', I s'' ∧ P x s'' ∧ ∀ y, P y s' → P y s'')) →
  wp (for_each l f) e s (λ _ s', I s' ∧ (∀ x, x ∈ l → P x s') ∧ ∀ y, P y s → P y s').
Proof.
  intros Hs Hf. revert s Hs. induction l as [|x l IH]; intros s Hs; simpl.
  { apply wp_ret. split_and!; set_solver. }
  apply wp_bind. eapply wp_mono; [by apply Hf|]. simpl. intros _ s1 (H1 & Hx & Hk).
  eapply wp_mono; [by apply IH|]. simpl. intros _ s2 (H2 & Hl & Hk'). split_and!; auto.
  intros y [->|Hy]%elem_of_cons; auto.
Qed.

(** ** Promotion *)

(** An embedded row of the Space is published. *)
Definition published_in (sp c : string) (d : Db) : Prop :=
  ∀ q, plugins d !! c = Some q → SpaceID q = Some sp → IsEmbedded q = true →
    DeletedAt q = None → ListingState q = Published.

#[export] Instance same_graph_preorder : PreOrder same_graph.
Proof.
  split; [done|]. intros x y z [H1 H2] [H3 H4]. split; [congruence|]. intros r. by rewrite H4.
Qed.

Lemma promote_one_wp sp a t id e s :
  wp (execN (update_plugin id (λ p, in_space sp p && IsEmbedded p
        && negb (bool_decide (ListingState p = Published)) && not_deleted p)
        (λ p, set_Visibility a (set_ListingState Published (set_UpdatedAt t p))))) e s
    (λ _ s', same_graph (db s) (db s') ∧ published_in sp id (db s')
             ∧ ∀ y, published_in sp y (db s) → published_in sp y (db s')).
Proof.
  apply wp_execN. intros n d. unfold update_plugin, published_in. simpl.
  destruct (plugins (db s) !! id) as [p|] eqn:Hp.
  2:{ intros [= _ <-]. split_and!; try done. intros q Hq. congruence. }
  destruct (_ && _) eqn:HP; intros [= _ <-]; simpl.
  - bool_facts. split_and!.
    + by apply (same_graph_update _ _ p).
    + intros q. rewrite lookup_insert_eq. by intros [= <-].
    + intros y Hy q. rewrite lookup_insert_Some. intros [[<- <-]|[_ Hq]]; [done|by apply Hy].
  - split_and!; try done. intros q Hq Hs He Hd. rewrite Hp in Hq. injection Hq as <-.
    unfold in_space, not_deleted in HP.
    rewrite He, (bool_decide_true (SpaceID p = Some sp)), (bool_decide_true (DeletedAt p = None)) in HP
      by done. rewrite andb_true_r in HP. simpl in HP. by bool_facts.
Qed.

Lemma promote_wp id ty sp a t e s :
  wp (promoteEmbeddedChildren id ty sp a t) e s (λ _ s', same_graph (db s) (db s')
    ∧ ∀ c, c ∈ children id ty (db s') → published_in sp c (db s')).
Proof.
  unfold promoteEmbeddedChildren, promoteEmbeddedIDs. apply wp_bind.
  eapply wp_mono; [apply collect_wp|]. simpl. intros l s1 [-> Hs1].
  eapply wp_mono; [apply (wp_for_each_all _ _ _ _ (λ s', same_graph (db s) (db s'))
                            (λ c s', published_in sp c (db s')))|].
  - by rewrite Hs1.
  - intros x s2 H2. apply wp_bind. eapply wp_mono; [apply promote_one_wp|]. simpl.
    intros _ s3 (H3 & Hx & Hk). apply wp_ret. split_and!; [by etrans|done|done].
  - simpl. intros _ s2 (H2 & Hall & _). split; [done|]. intros c.
    rewrite (children_kept _ _ _ _ H2). apply Hall.
Qed.

(** ** Changes the market does not see *)

Definition market_view (p : Plugin) :=
  (SpaceID p, IsEmbedded p, live p, DeletedAt p, ListingState p, Visibility p).

(** The same edges, and every row the same to the market. *)
Definition views_kept (d d' : Db) : Prop :=
  relations d' = relations d ∧ market_view <$> plugins d' = market_view <$> plugins d.
#[export] Instance views_kept_preorder : PreOrder views_kept.
Proof. split; [done|]. intros x y z [H1 H2] [H3 H4]. split; congruence. Qed.

Lemma views_row d d' c q :
  views_kept d d' → plugins d' !! c = Some q →
  ∃ q0, plugins d !! c = Some q0 ∧ market_view q0 = market_view q.
Proof.
  intros [_ Hv] Hq. assert ((market_view <$> plugins d) !! c = Some (market_view q)) as Hc.
  { rewrite <-Hv, lookup_fmap, Hq. done. }
  rewrite lookup_fmap in Hc. destruct (plugins d !! c) as [q0|]; simpl in Hc; [|done].
  exists q0. split; [done|]. congruence.
Qed.

Lemma views_graph d d' : views_kept d d' → same_graph d d'.
Proof.
  intros Hv. split; [apply Hv|]. intros r. unfold embedded_target.
  destruct (plugins d' !! TargetPluginID r) as [q|] eqn:Hq.
  - destruct (views_row _ _ _ _ Hv Hq) as (q0 & -> & Hm). unfold market_view in Hm. congruence.
  - destruct Hv as [_ Hv]. apply (f_equal (.!! TargetPluginID r)) in Hv.
    rewrite !lookup_fmap, Hq in Hv. by destruct (plugins d !! TargetPluginID r).
Qed.

Lemma views_published sp d d' c : views_kept d d' → published_in sp c d → published_in sp c d'.
Proof.
  intros Hv Hp q Hq Hs He Hd. destruct (views_row _ _ _ _ Hv Hq) as (q0 & Hq0 & Hm).
  unfold market_view in Hm. simplify_eq. rewrite <-(Hp q0); congruence.
Qed.

Lemma view_update id P f :
  (∀ p, market_view (f p) = market_view p) → evolves views_kept (execN (update_plugin id P f)).
Proof.
  intros Hf. apply evolves_execN. intros d n d'. unfold update_plugin.
  destruct (plugins d !! id) as [p|] eqn:Hp; [|by intros [= _ <-]].
  case_match; intros [= _ <-]; [|done]. split; [done|]. simpl.
  rewrite fmap_insert, Hf. apply insert_id. by rewrite lookup_fmap, Hp.
Qed.

Lemma changes_views K d d' :
  changes K d d' → kinds_within K [KSubmit; KClose; KApprove; KVersion; KPlace; KAudit; KReceipt; KPolicy] = true →
  views_kept d d'.
Proof.
  intros Hc HK. eapply (changes_rel views_kept); [|by eapply changes_mono].
  intros k x y Hk Hxy. destruct Hxy; done || (exfalso; set_solver).
Qed.

Lemma evolves_views K {A} (m : Tx A) :
  evolves (changes K) m →
  kinds_within K [KSubmit; KClose; KApprove; KVersion; KPlace; KAudit; KReceipt; KPolicy] = true →
  evolves views_kept m.
Proof. intros Hm HK. eapply evolves_mono; [|exact Hm]. intros d d' Hc. by eapply changes_views. Qed.

Lemma insert_version_views v : evolves views_kept (execE (insert_version v)).
Proof.
  apply evolves_execE. intros d d'. unfold insert_version. repeat case_match; try done.
  by intros [= <-].
Qed.

Lemma snapshotVersion_views t p rels c b : evolves views_kept (snapshotVersion t p rels c b).
Proof.
  unfold snapshotVersion. evolve.
  all: apply insert_version_views || (apply view_update; by intros []).
Qed.

Lemma approveFinish_views p current rr rels t : evolves views_kept (approveFinish p current rr rels t).
Proof.
  unfold approveFinish. evolve.
  - apply snapshotVersion_views.
  - apply evolves_execN. intros d n d'. unfold update_review.
    repeat case_match; intros [= _ <-]; done.
  - eapply (evolves_views [KAudit]); [evolve|done].
Qed.

End Children.
