(* ===== verification/Lifecycle.v ===== *)
(** * The life of the catalog: operations, histories and invariants

    The exported operations of the plugin repository as steps of a state
    machine over the tables, and what holds along every run of it: which rows
    are immutable, that a decision is final, that at most one request is
    pending per plugin and none on a deleted one, that no label is approved
    twice, that versions are numbered without gaps, and that only an approval
    lists a plugin to its organization. *)

From S2P Require Import Prelude GoStrings Version Model Store Rows RowWrites Write Review Listing Changes Operations.
Import Go.
Local Open Scope string_scope.

Section Lifecycle.
Context `{Host}.

(** ** Operations as steps *)

Inductive Op :=
| OpCreate (scope : Scope) (m : Mutation)
| OpCreateGraph (scope : Scope) (nodes : list Mutation)
| OpRebuildGraph (scope : Scope) (top : Mutation) (children : list Mutation)
| OpUpdate (scope : Scope) (m : Mutation)
| OpUpdateRating (scope : Scope) (id : string) (rating : option Z) (op : Operator)
| OpDelete (scope : Scope) (id : string) (op : Operator)
| OpDeleteGraph (scope : Scope) (id : string) (op : Operator)
| OpSubmit (scope : Scope) (req : SubmitRequest) (snap : FrozenSnapshot)
| OpApprove (scope : Scope) (p : DecisionParams)
| OpReject (scope : Scope) (p : DecisionParams)
| OpCancel (scope : Scope) (reviewID callerUID : string)
| OpReceipt (rec : CardActionReceipt)
| OpPolicy (scope : Scope) (enabled : bool) (uid name : string)
| OpPublish (scope : Scope) (p : PublishParams)
| OpDelist (scope : Scope) (p : DelistParams).

(** The tables after an operation, committed or not. *)
Definition run (o : Op) (e : Env) (d : Db) : Db :=
  match o with
  | OpCreate scope m => (Create scope m e d).2
  | OpCreateGraph scope nodes => (CreateGraph scope nodes e d).2
  | OpRebuildGraph scope top l => (RebuildGraph scope top l e d).2
  | OpUpdate scope m => (Update scope m e d).2
  | OpUpdateRating scope id r op => (UpdateRating scope id r op e d).2
  | OpDelete scope id op => (Delete scope id op e d).2
  | OpDeleteGraph scope id op => (DeleteGraph scope id op e d).2
  | OpSubmit scope req snap => (InsertReviewRequest scope req snap e d).2
  | OpApprove scope p => (ApproveReview scope p e d).2
  | OpReject scope p => (RejectReview scope p e d).2
  | OpCancel scope id uid => (CancelReview scope id uid e d).2
  | OpReceipt rec => (InsertCardActionReceipt rec e d).2
  | OpPolicy scope b uid name => (UpsertReviewPolicy scope b uid name e d).2
  | OpPublish scope p => (PublishPlugin scope p e d).2
  | OpDelist scope p => (DelistPlugin scope p e d).2
  end.

Definition op_kinds (o : Op) : list kind :=
  match o with
  | OpCreate _ _ | OpCreateGraph _ _ => create_kinds
  | OpRebuildGraph _ _ _ => rebuild_kinds
  | OpUpdate _ m => if EnforceListingGate m then gated_kinds else update_kinds
  | OpUpdateRating _ _ _ _ => [KQuiet; KAudit]
  | OpDelete _ _ _ | OpDeleteGraph _ _ _ => delete_kinds
  | OpSubmit _ _ _ => [KSubmit]
  | OpApprove _ _ => approve_kinds
  | OpReject _ _ => decide_kinds
  | OpCancel _ _ _ => [KClose]
  | OpReceipt _ => [KReceipt]
  | OpPolicy _ _ _ _ => [KPolicy]
  | OpPublish _ _ => [KQuiet; KPlace; KAudit]
  | OpDelist _ _ => [KQuiet; KClose; KAudit]
  end.

Lemma insertCardActionReceipt_changes rec t :
  evolves (changes [KReceipt]) (insertCardActionReceipt rec t).
Proof.
  unfold insertCardActionReceipt. evolve. apply evolves_execE. intros d d'.
  unfold insert_receipt. case_match eqn:Hr; [done|]. intros [= <-].
  eapply changes_once; [by apply ch_receipt|done].
Qed.

Lemma run_changes o e d : changes (op_kinds o) d (run o e d).
Proof.
  destruct o; simpl; try apply (transact_evolves (changes _)).
  - apply createInTx_changes.
  - unfold CreateGraph. destruct nodes; [done|]. apply (transact_evolves (changes _)).
    apply createGraphInTx_changes.
  - apply rebuildGraphInTx_changes.
  - destruct (EnforceListingGate m) eqn:E; [by apply updateInTx_gated|apply updateInTx_changes].
  - apply updateRatingInTx_changes.
  - apply deleteInTx_changes.
  - apply deleteGraphInTx_changes.
  - apply insertReviewInTx_changes.
  - apply approveInTx_changes.
  - apply rejectInTx_changes.
  - apply cancelInTx_changes.
  - apply (autocommit_evolves (changes _)). evolve. apply insertCardActionReceipt_changes.
  - apply (autocommit_evolves (changes _)). evolve. apply evolves_exec. intros x.
    eapply changes_once; [apply ch_policy|done].
  - apply publishInTx_changes.
  - apply delistInTx_changes.
Qed.

Inductive step : Db → Db → Prop :=
| step_op o e d : step d (run o e d).

(** Any number of operations, in any order, with any arguments and faults. *)
Definition steps : Db → Db → Prop := rtc step.

(** A relation every change respects holds along every run. *)
Lemma steps_rel (R : Db → Db → Prop) `{!PreOrder R} d d' :
  (∀ k x y, change k x y → R x y) → steps d d' → R d d'.
Proof.
  intros HR. induction 1 as [|x y z [o e x'] _ IH]; [done|]. etrans; [|done].
  eapply changes_rel; [apply _|intros k u v _; apply HR|apply run_changes].
Qed.

Lemma steps_invariant (I : Db → Prop) d d' :
  (∀ k x y, change k x y → I x → I y) → steps d d' → I d → I d'.
Proof.
  intros HI. set (R := λ x y, I x → I y).
  assert (PreOrder R) by (split; unfold R; [by intros x|intros x y z; auto]).
  by apply (steps_rel R).
Qed.

(** ** What is immutable *)

(** A plugin row keeps its identity, and never changes again once deleted. *)
Definition plugins_persist (d d' : Db) : Prop :=
  ∀ id p, plugins d !! id = Some p →
    ∃ p', plugins d' !! id = Some p' ∧ same_identity p p' ∧ (DeletedAt p ≠ None → p' = p).

(** A request keeps its frozen submission, and never changes once decided. *)
Definition reviews_persist (d d' : Db) : Prop :=
  ∀ id r, reviews d !! id = Some r →
    ∃ r', reviews d' !! id = Some r' ∧ same_submission r r' ∧ (rr_status r ≠ Pending → r' = r).

Definition edges_persist (d d' : Db) : Prop :=
  ∀ id r, relations d !! id = Some r →
    ∃ r', relations d' !! id = Some r' ∧ SourcePluginID r' = SourcePluginID r
      ∧ (RelDeletedAt r ≠ None → r' = r).

(** Versions, audit rows and receipts are only ever added. *)
Definition append_only (d d' : Db) : Prop :=
  versions d ⊆ versions d' ∧ audits d ⊆ audits d' ∧ receipts d ⊆ receipts d'.

Lemma same_identity_refl p : same_identity p p.
Proof. by unfold same_identity. Qed.
Lemma same_submission_refl r : same_submission r r.
Proof. by unfold same_submission. Qed.
Lemma same_submission_trans p q r :
  same_submission p q → same_submission q r → same_submission p r.
Proof. unfold same_submission. naive_solver congruence. Qed.

#[export] Instance plugins_persist_preorder : PreOrder plugins_persist.
Proof.
  split.
  - intros d id p Hp. eauto using same_identity_refl.
  - intros x y z H1 H2 id p Hp. destruct (H1 _ _ Hp) as (q & Hq & Hi & Hd).
    destruct (H2 _ _ Hq) as (r & Hr & Hi' & Hd'). exists r.
    split; [done|]. split; [by eapply same_identity_trans|].
    intros Hn. specialize (Hd Hn) as ->. by apply Hd'.
Qed.

#[export] Instance reviews_persist_preorder : PreOrder reviews_persist.
Proof.
  split.
  - intros d id p Hp. eauto using same_submission_refl.
  - intros x y z H1 H2 id p Hp. destruct (H1 _ _ Hp) as (q & Hq & Hi & Hd).
    destruct (H2 _ _ Hq) as (r & Hr & Hi' & Hd'). exists r.
    split; [done|]. split; [by eapply same_submission_trans|].
    intros Hn. specialize (Hd Hn) as ->. by apply Hd'.
Qed.

#[export] Instance edges_persist_preorder : PreOrder edges_persist.
Proof.
  split.
  - intros d id p Hp. eauto.
  - intros x y z H1 H2 id p Hp. destruct (H1 _ _ Hp) as (q & Hq & Hi & Hd).
    destruct (H2 _ _ Hq) as (r & Hr & Hi' & Hd'). exists r.
    split; [done|]. split; [congruence|]. intros Hn. specialize (Hd Hn) as ->. by apply Hd'.
Qed.

#[export] Instance append_only_preorder : PreOrder append_only.
Proof.
  split; [done|]. intros x y z (?&?&?) (?&?&?). split; [|split]; by etrans.
Qed.

(** Existing rows of a table updated at one key. *)
Lemma updated_row {A} (m : gmap string A) (P : A → A → Prop) id a a' :
  m !! id = Some a → (∀ x, P x x) → P a a' →
  ∀ k x, m !! k = Some x → ∃ x', <[id := a']> m !! k = Some x' ∧ P x x'.
Proof.
  intros Ha Hrefl HP k x Hx. destruct (decide (k = id)) as [->|Hne].
  - simplify_eq. exists a'. by rewrite lookup_insert_eq.
  - exists x. by rewrite lookup_insert_ne.
Qed.

Lemma inserted_row {A} (m : gmap string A) (P : A → A → Prop) id a :
  m !! id = None → (∀ x, P x x) →
  ∀ k x, m !! k = Some x → ∃ x', <[id := a]> m !! k = Some x' ∧ P x x'.
Proof.
  intros Ha Hrefl k x Hx. exists x. split; [|done]. rewrite lookup_insert_ne; naive_solver.
Qed.

Lemma change_plugins k d d' : change k d d' → plugins_persist d d'.
Proof.
  unfold plugins_persist.
  destruct 1; simpl; try (intros; eauto using same_identity_refl; fail).
  { apply (inserted_row _ (λ p p', _ ∧ _)); naive_solver auto using same_identity_refl. }
  all: apply (updated_row _ (λ p p', same_identity p p' ∧ (DeletedAt p ≠ None → p' = p)) _ p);
    naive_solver auto using same_identity_refl.
Qed.

Lemma change_reviews k d d' : change k d d' → reviews_persist d d'.
Proof.
  unfold reviews_persist.
  destruct 1 as [| | | | |d f Hf| | | | | | | |]; simpl;
    try (intros; eauto using same_submission_refl; fail).
  { apply (inserted_row _ (λ p p', _ ∧ _)); naive_solver auto using same_submission_refl. }
  { intros id r Hr. exists (f r). rewrite lookup_fmap, Hr. split; [done|].
    destruct (Hf r) as [->|[(?&?&?) _]]; naive_solver auto using same_submission_refl. }
  all: apply (updated_row _ (λ r r', same_submission r r' ∧ (rr_status r ≠ Pending → r' = r)) _ r);
    unfold settled in *; naive_solver auto using same_submission_refl.
Qed.

Lemma change_edges k d d' : change k d d' → edges_persist d d'.
Proof.
  unfold edges_persist. destruct 1 as [| | | | | | | |d m Hm _| | | | |]; simpl; try (intros; eauto; fail).
  intros id r Hr. destruct (Hm _ _ Hr) as (r' & Hr' & He). exists r'. split; [done|].
  unfold edge_kept in He. naive_solver.
Qed.

Lemma change_appends k d d' : change k d d' → append_only d d'.
Proof. unfold append_only. destruct 1; simpl; split_and!; done || by apply insert_subseteq. Qed.

(** Whatever operations run, with whatever outcome, a plugin row is never
    removed, keeps its identifier, owner, Space, creator and embedded flag, and
    once soft-deleted is never changed again (no operation revives it). *)
Theorem plugin_rows_persist d d' : steps d d' → plugins_persist d d'.
Proof. apply steps_rel; [apply _|]. apply change_plugins. Qed.

(** C11: a review request is never removed, its frozen submission (documents,
    relations, hashes, label, applicant) never changes, and a settled request
    (approved, rejected or canceled) never changes again: decisions are final. *)
Theorem review_decisions_final d d' : steps d d' → reviews_persist d d'.
Proof. apply steps_rel; [apply _|]. apply change_reviews. Qed.

(** Version snapshots, audit rows and card-action receipts are append-only:
    no operation alters or removes one, and a removed relation edge is never
    changed or revived. *)
Theorem history_append_only d d' : steps d d' → append_only d d' ∧ edges_persist d d'.
Proof.
  intros Hs. split.
  - revert Hs. apply steps_rel; [apply _|]. apply change_appends.
  - revert Hs. apply steps_rel; [apply _|]. apply change_edges.
Qed.

(** ** Invariants *)

(** At most one open request per plugin (the index on [pending_plugin_id]). *)
Definition one_pending (d : Db) : Prop :=
  ∀ i j r r', reviews d !! i = Some r → reviews d !! j = Some r' →
    rr_open (rr_plugin_id r') r = true → rr_open (rr_plugin_id r') r' = true → i = j.

(** No two approved requests of a plugin carry the same label. *)
Definition labels_unique (d : Db) : Prop :=
  ∀ i j r r', reviews d !! i = Some r → reviews d !! j = Some r' →
    rr_plugin_id r = rr_plugin_id r' → rr_status r = Approved → rr_status r' = Approved →
    rr_deleted_at r = None → rr_deleted_at r' = None → rr_version r = rr_version r' → i = j.

(** The versions of each plugin carry the counters 1, ..., n. *)
Definition numbered (d : Db) : Prop :=
  ∀ id, pv_version <$> versions_of id d ≡ₚ Itoa <$> seq 1 (length (versions_of id d)).

Lemma rr_open_true pid r :
  rr_open pid r = true ↔ rr_plugin_id r = pid ∧ rr_status r = Pending ∧ rr_deleted_at r = None.
Proof.
  unfold rr_open. rewrite !andb_true_iff, !bool_decide_eq_true, String.eqb_eq. naive_solver.
Qed.

Lemma pending_exists_false pid d :
  pending_exists pid d = false ↔ ∀ i r, reviews d !! i = Some r → rr_open pid r = false.
Proof.
  unfold pending_exists. rewrite <-not_true_iff_false, existsb_exists. split.
  - intros Hn i r Hr. apply not_true_iff_false. intros Ho. apply Hn. exists (i, r).
    split; [|done]. by apply list_elem_of_In, elem_of_map_to_list.
  - intros Hall ([i r] & Hin & Ho). apply list_elem_of_In, elem_of_map_to_list in Hin.
    simpl in Ho. by rewrite (Hall _ _ Hin) in Ho.
Qed.

(** Open requests after the closing of some: they were open before. *)
Lemma settled_not_open pid r r' : settled r r' → rr_open pid r' = false.
Proof.
  intros (_ & Hs & _). apply not_true_iff_false. rewrite rr_open_true. naive_solver.
Qed.

(** Closing requests: every open row afterwards was there before. *)
Definition opens_within (d d' : Db) : Prop :=
  ∀ i r pid, reviews d' !! i = Some r → rr_open pid r = true → reviews d !! i = Some r.

Lemma change_opens k d d' : change k d d' → k ≠ KSubmit → opens_within d d'.
Proof.
  intros Hc Hk i x pid. destruct Hc as [| | | | |d f Hf|d id r r' Hr Hs _|d id r r' Hr Hs _ _| | | | | |];
    simpl; try done.
  - rewrite lookup_fmap. destruct (reviews d !! i) as [r|] eqn:Hr; simpl; [|done].
    intros [= <-] Ho. destruct (Hf r) as [->|[Hs _]]; [done|].
    by rewrite (settled_not_open _ _ _ Hs) in Ho.
  - destruct (decide (i = id)) as [->|]; [|by rewrite lookup_insert_ne].
    rewrite lookup_insert_eq. intros [= <-] Ho. by rewrite (settled_not_open _ _ _ Hs) in Ho.
  - destruct (decide (i = id)) as [->|]; [|by rewrite lookup_insert_ne].
    rewrite lookup_insert_eq. intros [= <-] Ho. by rewrite (settled_not_open _ _ _ Hs) in Ho.
Qed.

Lemma change_one_pending k d d' : change k d d' → one_pending d → one_pending d'.
Proof.
  intros Hc HI. destruct (decide (k = KSubmit)) as [->|Hk].
  - inversion Hc as [| | | |d0 r Hfresh Hst Hdel Hno| | | | | | | | |]; subst.
    rewrite pending_exists_false in Hno. intros i j x y. simpl.
    rewrite !lookup_insert_Some.
    intros [[<- <-]|[Hi Hx]] [[<- <-]|[Hj Hy]] Ho Ho'; try done.
    + exfalso. apply rr_open_true in Ho as (Hp & _). rewrite <-Hp in Ho'.
      by rewrite (Hno _ _ Hy) in Ho'.
    + exfalso. by rewrite (Hno _ _ Hx) in Ho.
    + by eapply HI.
  - intros i j x y Hx Hy Ho Ho'. pose proof (change_opens _ _ _ Hc Hk) as Hw.
    eapply HI; eauto.
Qed.

(** An approved row after a change was approved before, or has just been. *)
Lemma change_labels k d d' : change k d d' → labels_unique d → labels_unique d'.
Proof.
  intros Hc HI. destruct Hc as [| | | |d r Hfresh Hst Hdel Hno|d f Hf|d id r r' Hr Hs Hna
    |d id r r' Hr Hs Ha Hl| | | | | |]; try exact HI.
  - intros i j x y. simpl. rewrite !lookup_insert_Some. intros [[<- <-]|[Hi Hx]] [[<- <-]|[Hj Hy]] ? Hax Hay; try congruence.
    by eapply HI.
  - intros i j x y. simpl. rewrite !lookup_fmap.
    destruct (reviews d !! i) as [x0|] eqn:Hx; [|done].
    destruct (reviews d !! j) as [y0|] eqn:Hy; [|done]. simpl. intros [= <-] [= <-].
    destruct (Hf x0) as [->|[_ ?]], (Hf y0) as [->|[_ ?]]; try done. by eapply HI.
  - intros i j x y. simpl. rewrite !lookup_insert_Some.
    intros [[<- <-]|[Hi Hx]] [[<- <-]|[Hj Hy]]; try done. by eapply HI.
  - destruct Hs as (_ & _ & Hsub). destruct Hsub as (_ & Hpid & _ & _ & _ & Hver & _).
    intros i j x y. simpl. rewrite !lookup_insert_Some.
    intros [[<- <-]|[Hi Hx]] [[<- <-]|[Hj Hy]] Hp Hax Hay Hdx Hdy Hv; [done| | |by eapply HI].
    + exfalso. eapply (Hl j y); [done|congruence..].
    + exfalso. eapply (Hl i x); [done|congruence..].
Qed.

Lemma versions_of_insert id v d :
  versions d !! pv_id v = None →
  versions_of id (set_versions (<[pv_id v := v]> (versions d)) d)
  ≡ₚ if decide (pv_plugin_id v = id) then v :: versions_of id d else versions_of id d.
Proof.
  intros Hv. unfold versions_of. simpl. rewrite map_to_list_insert by done. simpl.
  rewrite filter_cons. by case_decide.
Qed.

Lemma change_numbered k d d' : change k d d' → numbered d → numbered d'.
Proof.
  intros Hc HI. destruct Hc as [| | | | | | | | |d v Hv Hn| | | |]; try exact HI.
  intros id. rewrite (versions_of_insert id v d Hv). case_decide as Hid; [|apply HI].
  rewrite fmap_cons, Hn, Hid. change (length (v :: ?l)) with (S (length l)).
  rewrite seq_S, fmap_app, (HI id). simpl. by rewrite <-Permutation_cons_append.
Qed.

(** C3: whatever operations run, at most one request per plugin is open
    (pending and not deleted): the single-pending rule the unique index and the
    locked checks enforce together. *)
Theorem single_pending d d' : steps d d' → one_pending d → one_pending d'.
Proof. apply steps_invariant. apply change_one_pending. Qed.

(** C13: no release label is ever approved twice for a plugin, and decisions
    being final, an approved label names one frozen content for good. *)
Theorem approved_labels_unique d d' : steps d d' → labels_unique d → labels_unique d'.
Proof. apply steps_invariant. apply change_labels. Qed.

(** The version rows of every plugin are numbered 1, ..., n without gaps or
    repetitions, so the counter of the next snapshot never collides. *)
Theorem versions_numbered d d' : steps d d' → numbered d → numbered d'.
Proof. apply steps_invariant. apply change_numbered. Qed.

(** ** No request is open on a deleted plugin *)

(** Every open request is on an undeleted plugin, those of [X] excepted. *)
Definition open_on_live (X : list string) (d : Db) : Prop :=
  ∀ i r, reviews d !! i = Some r → rr_open (rr_plugin_id r) r = true →
    rr_plugin_id r ∈ X ∨ ∃ p, plugins d !! rr_plugin_id r = Some p ∧ DeletedAt p = None.

Definition live_kept (X : list string) (d d' : Db) : Prop := open_on_live X d → open_on_live X d'.
#[export] Instance live_kept_preorder X : PreOrder (live_kept X).
Proof. unfold live_kept. split; [by intros d|]. intros x y z; auto. Qed.

(** Plugin rows that were undeleted still are, those of [X] excepted. *)
Definition undeleted_kept (X : list string) (d d' : Db) : Prop :=
  ∀ id p, plugins d !! id = Some p → DeletedAt p = None →
    id ∈ X ∨ ∃ p', plugins d' !! id = Some p' ∧ DeletedAt p' = None.

Lemma change_undeleted X k d d' : change k d d' → k ≠ KDelete → undeleted_kept X d d'.
Proof.
  intros Hc Hk. unfold undeleted_kept. destruct Hc; simpl; try done; try (intros; eauto; fail).
  all: intros i q Hq Hd; right; destruct (decide (i = id)) as [->|] || destruct (decide (i = ID p)) as [->|];
    try congruence; rewrite ?lookup_insert_eq, ?lookup_insert_ne by done; eauto.
Qed.

Lemma open_on_live_trans X d d' :
  opens_within d d' → undeleted_kept X d d' → open_on_live X d → open_on_live X d'.
Proof.
  intros Ho Hu HI i r Hr Hop. pose proof (Ho _ _ _ Hr Hop) as Hr'.
  destruct (HI _ _ Hr' Hop) as [?|(p & Hp & Hd)]; [by left|].
  destruct (Hu _ _ Hp Hd) as [?|?]; auto.
Qed.

Definition live_kinds : list kind :=
  [KInsert; KQuiet; KList; KClose; KApprove; KEdge; KVersion; KPlace; KAudit; KReceipt; KPolicy].

Lemma changes_live X K d d' :
  changes K d d' → kinds_within K live_kinds = true → live_kept X d d'.
Proof.
  intros Hc Hsub. apply (changes_rel _ live_kinds); [|by eapply changes_mono].
  intros k x y Hk Hxy HI. eapply open_on_live_trans; [| |exact HI].
  - eapply change_opens; [done|]. intros ->. unfold live_kinds in Hk. set_solver.
  - eapply change_undeleted; [done|]. intros ->. unfold live_kinds in Hk. set_solver.
Qed.

Lemma evolves_live X K {A} (m : Tx A) :
  evolves (changes K) m → kinds_within K live_kinds = true → evolves (live_kept X) m.
Proof. intros Hm HK. eapply evolves_mono; [|exact Hm]. intros d d' Hc. by eapply changes_live. Qed.

(** The soft delete of a row, the removal of its edges and the cancellation of
    its open request, as the three deleting operations run them. *)
Lemma teardown_live t scope id opID opName reason {A} (rest : Tx A) :
  evolves (live_kept []) rest →
  evolves (live_kept []) (n ← execN (update_plugin id (owned_where scope) (soft_delete t));
    mustAffect n;; exec (delete_outgoing t id);;
    cancelPendingReviewFor t id opID opName reason;; rest).
Proof.
  intros Hrest e s. apply wp_bind, wp_execN. intros n d1 Hupd.
  apply wp_bind. eapply (wp_evolves eq); [evolve|]. simpl. intros _ s1 Hs1.
  apply wp_bind, wp_exec. apply wp_bind, wp_exec. simpl.
  eapply wp_mono; [apply Hrest|]. simpl. intros _ s2 H2 HI. apply H2. clear H2.
  assert (open_on_live [id] d1) as H1.
  { intros i r Hr Ho. assert (reviews (db s) !! i = Some r) as Hr0.
    { revert Hupd. unfold update_plugin. repeat case_match; intros [= _ <-]; done. }
    destruct (HI _ _ Hr0 Ho) as [?|(p & Hp & Hd)]; [set_solver|].
    destruct (decide (rr_plugin_id r = id)) as [|Hne]; [set_solver|right].
    exists p. split; [|done]. revert Hupd. unfold update_plugin.
    repeat case_match; intros [= _ <-]; simpl; by rewrite ?lookup_insert_ne by done. }
  rewrite <-Hs1. intros i r. simpl. rewrite lookup_fmap.
  destruct (reviews d1 !! i) as [r0|] eqn:Hr; simpl; [|done]. intros [= <-].
  destruct (rr_open id r0) eqn:Hid.
  { intros Ho. exfalso. apply rr_open_true in Ho as (_ & Hs & _). by destruct r0. }
  intros Ho. destruct (H1 _ _ Hr Ho) as [Heq%list_elem_of_singleton|]; [by rewrite Heq, Hid in Ho|by right].
Qed.

Ltac evolve_live :=
  repeat first
  [ lazymatch goal with
    | |- evolves _ (mbind _ (execN (update_plugin _ _ (soft_delete _)))) => apply teardown_live
    end
  | evolve_step
  | solve [eapply (evolves_live _ [KAudit]); [evolve|done]] ].

Lemma softDelete_live t scope id op : evolves (live_kept []) (softDeleteRebuiltChild t scope id op).
Proof. unfold softDeleteRebuiltChild. evolve_live. Qed.
#[local] Hint Resolve softDelete_live : evolve.

Lemma deleteInTx_live scope id op : evolves (live_kept []) (deleteInTx scope id op).
Proof. unfold deleteInTx. evolve_live. Qed.

Lemma deleteGraphInTx_live scope id op : evolves (live_kept []) (deleteGraphInTx scope id op).
Proof. unfold deleteGraphInTx. evolve_live. Qed.

(** The part of a rebuild around the teardown of the old children makes only
    changes that keep undeleted rows undeleted. *)
Ltac live_part K := solve [eapply (evolves_live _ K); [evolve|done]].

Lemma rebuildGraphInTx_live scope top l : evolves (live_kept []) (rebuildGraphInTx scope top l).
Proof.
  unfold rebuildGraphInTx. cbv zeta.
  repeat first
  [ evolve_step
  | live_part [KInsert] | live_part [KEdge] | live_part [KPlace] | live_part [KAudit]
  | live_part [KVersion; KQuiet] ].
  eapply (evolves_live _ [KList]); [|done].
  apply (list_update [KList]); [done|]. intros q Hq. unfold owned_where in Hq. bool_facts.
  apply not_deleted_true in H1. rewrite write_content_deleted.
  auto using write_content_identity.
Qed.

Lemma insert_review_shape r d d' :
  insert_review r d = Ok d' → d' = set_reviews (<[rr_id r := r]> (reviews d)) d.
Proof. unfold insert_review. repeat case_match; congruence. Qed.

(** A submission inserts its request while holding the live plugin row. *)
Lemma insertReviewInTx_live scope req snap :
  evolves (live_kept []) (insertReviewInTx scope req snap).
Proof.
  intros e s. unfold insertReviewInTx. cbv zeta.
  apply wp_bind, getOwned_wp. intros p Hp _ _ Hd.
  do 8 (apply wp_bind; eapply (wp_evolves eq); [evolve|]; simpl;
        let x := fresh "x" in let s' := fresh "s" in let E := fresh "E" in
        intros x s' E; rewrite E in *; clear E).
  apply wp_bind. eapply (wp_evolves eq); [evolve|]. intros i s9 Hs9. rewrite Hs9 in *.
  apply wp_bind, wp_catch; [|by intros err]. apply wp_execE. intros d Hins. apply wp_ret.
  intros HI. rewrite (insert_review_shape _ _ _ Hins). intros j r. simpl. rewrite lookup_insert_Some. intros [[<- <-]|[_ Hr]] Ho; [right; eauto|].
  by apply (HI j).
Qed.

Lemma run_live o e d : open_on_live [] d → open_on_live [] (run o e d).
Proof.
  destruct (kinds_within (op_kinds o) live_kinds) eqn:Hk.
  { eapply changes_live; [apply run_changes|done]. }
  destruct o; simpl in *; try done; try (destruct (EnforceListingGate m); done);
    apply (transact_evolves (live_kept [])).
  - apply rebuildGraphInTx_live.
  - apply deleteInTx_live.
  - apply deleteGraphInTx_live.
  - apply insertReviewInTx_live.
Qed.

(** No request is left open on a deleted plugin: every operation that
    deletes a plugin cancels its open request in the same transaction, and a
    submission holds the live row. *)
Theorem open_requests_on_live_plugins d d' :
  steps d d' → open_on_live [] d → open_on_live [] d'.
Proof. induction 1 as [|x y z [o e x'] _ IH]; [done|]. intros Hx. by apply IH, run_live. Qed.

(** ** Only review lists a plugin *)

(** Existing rows that are listed afterwards were listed before. *)
Definition no_new_listing (d d' : Db) : Prop :=
  ∀ id p, plugins d !! id = Some p →
    ∃ p', plugins d' !! id = Some p' ∧ (listed p' = true → listed p = true).
#[export] Instance no_new_listing_preorder : PreOrder no_new_listing.
Proof.
  split; [intros d id p Hp; eauto|]. intros x y z H1 H2 id p Hp.
  destruct (H1 _ _ Hp) as (q & Hq & ?). destruct (H2 _ _ Hq) as (r & Hr & ?). eauto.
Qed.

Lemma change_listing k d d' : change k d d' → k ≠ KList → no_new_listing d d'.
Proof.
  intros Hc Hk. unfold no_new_listing. destruct Hc; simpl; try done; try (intros; eauto; fail).
  { apply (inserted_row _ (λ p p', listed p' = true → listed p = true)); auto. }
  all: apply (updated_row _ (λ p p', listed p' = true → listed p = true) _ p); auto; congruence.
Qed.

(** Operations whose kinds may list an existing row. *)
Definition may_list (o : Op) : bool :=
  match o with
  | OpApprove _ _ => true
  | OpUpdate _ m => negb (EnforceListingGate m)
  | _ => false
  end.

Lemma run_listing o e d : may_list o = false → no_new_listing d (run o e d).
Proof.
  intros Hm. apply (changes_rel _ (op_kinds o)); [|apply run_changes].
  intros k x y Hk Hc. eapply change_listing; [done|]. intros ->. revert Hk. apply mem_false.
  destruct o; try done. simpl in *. by destruct (EnforceListingGate m).
Qed.

(** C1: the review gate. If an operation turns an existing unlisted plugin into
    one listed to its organization (visibility space and published), it is the
    approval of a review request, or a save for which the listing gate is off
    (the administrator's). *)
Theorem only_review_lists o e d id p p' :
  plugins d !! id = Some p → listed p = false →
  plugins (run o e d) !! id = Some p' → listed p' = true →
  (∃ scope q, o = OpApprove scope q)
  ∨ (∃ scope m, o = OpUpdate scope m ∧ EnforceListingGate m = false).
Proof.
  intros Hp Hl Hp' Hl'. destruct (may_list o) eqn:Hm.
  - destruct o; try done; [right|left]; eauto. simpl in Hm. bool_facts. eauto.
  - destruct (run_listing o e d Hm _ _ Hp) as (q & Hq & Hi). simplify_eq. naive_solver congruence.
Qed.

(** Rows are stored under their own identifier. *)
Definition keyed (d : Db) : Prop :=
  (∀ id p, plugins d !! id = Some p → ID p = id)
  ∧ (∀ id r, reviews d !! id = Some r → rr_id r = id)
  ∧ (∀ id v, versions d !! id = Some v → pv_id v = id)
  ∧ (∀ id r, relations d !! id = Some r → RelID r = id).

Lemma change_keyed k d d' : change k d d' → keyed d → keyed d'.
Proof.
  intros Hc (Hp & Hr & Hv & He). destruct Hc as [d p|d id p p' ? ? ? [? _]|d id p p' ? ? ? [? _]
    |d id p p' ? ? [? _]|d r|d f Hf|d id r r' ? (_ & _ & ? & _)|d id r r' ? (_ & _ & ? & _)
    | |d v| | | |]; split_and!; simpl; try done;
    try (intros i x; rewrite lookup_insert_Some; intros [[<- <-]|[_ Hx]]; etrans; eauto; fail);
    try (intros i x; rewrite lookup_insert_Some; intros [[<- <-]|[_ Hx]]; eauto; fail).
  - intros i x. rewrite lookup_fmap. destruct (reviews d !! i) as [r|] eqn:Hi; simpl; [|done].
    intros [= <-]. destruct (Hf r) as [->|[(_ & _ & Hs & _) _]]; [|rewrite Hs]; auto.
  - intros i x Hx. destruct (relations d !! i) as [r|] eqn:Hi; [|by eauto].
    match goal with Hold : ∀ id r, relations d !! id = Some r → ∃ _, _ |- _ =>
      destruct (Hold _ _ Hi) as (r' & Hr' & [->|(_ & Hid & _)]) end; simplify_eq; [|rewrite Hid]; auto.
Qed.

(** Every plugin, request, version and relation row is stored under its own
    identifier, along every run. *)
Lemma rows_keyed d d' : steps d d' → keyed d → keyed d'.
Proof. apply steps_invariant. apply change_keyed. Qed.

End Lifecycle.
