(* ===== verification/Service.v ===== *)
(** * The service layer: internal/service/plugin/service.go

    The business rules run between repository calls. Each repository call is a
    transaction of its own, so the requests of other users are interleaved with
    the calls of a service operation: [between n] are the operations other
    requests complete before the [n]-th call. Errors of the layer, the
    translation of repository errors, the caller, and the monad of service
    operations with its weakest preconditions. *)

From S2P Require Import Prelude GoStrings Model Notify Store Rows RowWrites Write Review Listing Changes Operations Lifecycle.
Import Go.
Local Open Scope string_scope.

(** ** Errors (service.go, review.go) *)

Inductive SvcErr :=
| SErrNotFound | SErrConflict | SErrNameTaken | SErrInvalidRequest | SErrRelationInUse
| SErrDeadlock | SErrReviewPending | SErrListedRequiresReview | SErrVersionRegressed
| SErrLabelTaken | SErrReviewContentRequired | SErrGraphTooLarge | SErrDependencyHidden
| SErrReviewInvalid | SErrReviewForbidden | SErrReviewPolicyForbidden | SErrReasonRequired
| SErrCardBadDecision | SErrAlreadyPublished | SErrNotPublished
| SErrField (field reason : string)
| SErrNotify (e : NotifyError)
| SErrStore (e : Err)
| SErrOther (msg : string).

#[export] Instance NotifyError_eq_dec : EqDecision NotifyError.
Proof. solve_decision. Defined.
#[export] Instance SvcErr_eq_dec : EqDecision SvcErr.
Proof. solve_decision. Defined.

(** Errors the modelled repository cannot return have no row. *)
Definition mapStoreError (err : Err) : SvcErr :=
  match err with
  | ErrNotFound => SErrNotFound
  | ErrConflict => SErrConflict
  | ErrNameTaken => SErrNameTaken
  | ErrInvalidName | ErrName _ => SErrInvalidRequest
  | ErrRelationInUse => SErrRelationInUse
  | ErrGraphTooLarge => SErrGraphTooLarge
  | ErrDeadlock => SErrDeadlock
  | ErrReviewPending => SErrReviewPending
  | ErrListedRequiresReview => SErrListedRequiresReview
  | ErrVersionRegressed => SErrVersionRegressed
  | ErrLabelTaken => SErrLabelTaken
  | ErrReviewContentRequired => SErrReviewContentRequired
  | ErrInvalidRelation | ErrInvalidCategory => SErrInvalidRequest
  | ErrCardActionReplayed | ErrMySQL _ _ | ErrOther _ => SErrStore err
  end.

(** ** Callers *)

Record Caller := mkCaller {
  CUID : string;
  CName : string;
  CSpaceID : string;
  CBotUID : string;
  CBotName : string;
  CRequestID : string;
  CIsSystemAdmin : bool;
  CSpaceRole : Z
}.

(** Go's [scope(c)]. *)
Definition caller_scope (c : Caller) : Scope := mkScope (CUID c) (CSpaceID c) false.

Definition validateCaller (c : Caller) : result SvcErr unit :=
  if String.eqb (TrimSpace (CUID c)) "" || String.eqb (TrimSpace (CSpaceID c)) ""
  then Error SErrInvalidRequest else Ok tt.

Section Service.
Context `{Host}.

(** ** Operations of the service *)

(** What a service operation draws from outside: the operations of other
    requests, the environment of each of its own repository calls, the clock,
    the octo-server client and its replies. *)
Record SvcEnv := mkSvcEnv {
  between : nat → list (Op * Env);
  call_env : nat → Env;
  svc_now : nat → Z;
  notify : option Client;
  role_reply : nat → string → string → result NotifyError RoleEnvelope
}.

(** What an operation does outside the tables, in order: the deletion of a
    storage object, an approval card queued, a consumed parse task released. *)
Inductive Effect :=
| EDelete (key : string)
| ECard (req : NotifyRequest)
| ERelease (taskID : string).

Record SvcSt := mkSvcSt {
  calls : nat;
  tables : Db;
  effects : list Effect
}.

(** An error does not undo what earlier calls committed. *)
Definition Svc (A : Type) : Type := SvcEnv → SvcSt → result SvcErr A * SvcSt.

#[export] Instance svc_ret : MRet Svc := λ A a _ s, (Ok a, s).
#[export] Instance svc_bind : MBind Svc := λ A B f m e s,
  match m e s with (Ok a, s') => f a e s' | (Error err, s') => (Error err, s') end.

Definition svc_fail {A} (err : SvcErr) : Svc A := λ _ s, (Error err, s).
Definition svc_require (b : bool) (err : SvcErr) : Svc unit := if b then mret tt else svc_fail err.
Definition lift {A} (r : result SvcErr A) : Svc A := λ _ s, (r, s).

(** Go's [x, err := m] whose error the caller inspects. *)
Definition try {A} (m : Svc A) : Svc (result SvcErr A) := λ e s,
  let '(r, s') := m e s in (Ok r, s').

Definition others (l : list (Op * Env)) (d : Db) : Db := foldl (λ d oe, run oe.1 oe.2 d) d l.

(** One repository call, after the operations of other requests. *)
Definition call {A} (f : Env → Db → result Err A * Db) : Svc (result Err A) := λ e s,
  let '(r, d) := f (call_env e (calls s)) (others (between e (calls s)) (tables s)) in
  (Ok r, mkSvcSt (S (calls s)) d (effects s)).

(** One SELECT of the repository. *)
Definition read_db {A} (f : Db → result Err A) (e : Env) (d : Db) : result Err A * Db :=
  autocommit (statement (λ d, match f d with Ok a => Ok (a, d) | Error err => Error err end)) e d.
Definition read {A} (f : Db → result Err A) : Svc (result Err A) := call (read_db f).

(** A repository error returned as it is, or through [mapStoreError]. *)
Definition raw_error {A} (r : result Err A) : Svc A := lift (map_error SErrStore r).
Definition mapped {A} (r : result Err A) : Svc A := lift (map_error mapStoreError r).

Definition clock : Svc Z := λ e s,
  (Ok (svc_now e (calls s)), mkSvcSt (S (calls s)) (tables s) (effects s)).

Definition emit (l : list Effect) : Svc unit := λ _ s,
  (Ok tt, mkSvcSt (calls s) (tables s) (effects s ++ l)).

(** Best effort: failures of the storage are ignored. *)
Definition deleteObjects (keys : list string) : Svc unit := emit (EDelete <$> keys).

(** [bestEffort("review.submit", ...)]: queued after the commit, never fails. *)
Definition bestEffort (req : NotifyRequest) : Svc unit := emit [ECard req].

Definition ask_notify {A} (f : option Client → A) : Svc A := λ e s, (Ok (f (notify e)), s).

Definition ask_role (spaceID uid : string) : Svc (option Z) := λ e s,
  (map_error SErrNotify (MemberRole (notify e) (role_reply e (calls s)) spaceID uid),
   mkSvcSt (S (calls s)) (tables s) (effects s)).

(** ** Weakest preconditions: [Q] holds of the answer and the state left. *)

Definition swp {A} (m : Svc A) (e : SvcEnv) (s : SvcSt) (Q : result SvcErr A → SvcSt → Prop) : Prop :=
  Q (m e s).1 (m e s).2.

Lemma swp_ret {A} (a : A) e s (Q : result SvcErr A → SvcSt → Prop) : Q (Ok a) s → swp (mret a) e s Q.
Proof. done. Qed.
Lemma swp_fail {A} err e s (Q : result SvcErr A → SvcSt → Prop) : Q (Error err) s → swp (svc_fail err) e s Q.
Proof. done. Qed.
Lemma swp_lift {A} r e s (Q : result SvcErr A → SvcSt → Prop) : Q r s → swp (lift r) e s Q.
Proof. done. Qed.

Lemma swp_bind {A B} (m : Svc A) (f : A → Svc B) e s (Q : result SvcErr B → SvcSt → Prop) :
  swp m e s (λ r s', match r with Ok a => swp (f a) e s' Q | Error err => Q (Error err) s' end) →
  swp (a ← m; f a) e s Q.
Proof. unfold swp, mbind, svc_bind. by destruct (m e s) as [[a|err] s']. Qed.

Lemma swp_ok {A} (m : Svc A) e s a s' (Q : SvcSt → Prop) :
  swp m e s (λ r x, r = Ok a → Q x) → m e s = (Ok a, s') → Q s'.
Proof. unfold swp. intros HQ Hr. rewrite Hr in HQ. by apply HQ. Qed.

Lemma swp_mono {A} (m : Svc A) e s (P Q : result SvcErr A → SvcSt → Prop) :
  swp m e s P → (∀ r s', P r s' → Q r s') → swp m e s Q.
Proof. unfold swp. auto. Qed.

Lemma swp_require b err e s (Q : result SvcErr unit → SvcSt → Prop) :
  (b = true → Q (Ok tt) s) → (b = false → Q (Error err) s) → swp (svc_require b err) e s Q.
Proof. destruct b; unfold swp; simpl; auto. Qed.

Lemma swp_try {A} (m : Svc A) e s (Q : result SvcErr (result SvcErr A) → SvcSt → Prop) :
  swp m e s (λ r s', Q (Ok r) s') → swp (try m) e s Q.
Proof. unfold swp, try. by destruct (m e s). Qed.

(** A call: other requests run first, then the repository operation. *)
Lemma swp_call {A} (f : Env → Db → result Err A * Db) e s (Q : result SvcErr (result Err A) → SvcSt → Prop) :
  (∀ r d, f (call_env e (calls s)) (others (between e (calls s)) (tables s)) = (r, d) →
     Q (Ok r) (mkSvcSt (S (calls s)) d (effects s))) →
  swp (call f) e s Q.
Proof. intros HQ. unfold swp, call. destruct (f _ _) as [r d]. by apply HQ. Qed.

Lemma swp_clock e s (Q : result SvcErr Z → SvcSt → Prop) :
  (∀ t, Q (Ok t) (mkSvcSt (S (calls s)) (tables s) (effects s))) → swp clock e s Q.
Proof. intros HQ. apply HQ. Qed.

Lemma swp_emit l e s (Q : result SvcErr unit → SvcSt → Prop) :
  Q (Ok tt) (mkSvcSt (calls s) (tables s) (effects s ++ l)) → swp (emit l) e s Q.
Proof. done. Qed.

Lemma read_db_same {A} (f : Db → result Err A) e d r d' :
  read_db f e d = (r, d') → d' = d ∧ (∀ a, r = Ok a → f d = Ok a).
Proof.
  unfold read_db, autocommit, statement. simpl. destruct (faults e 0) as [[]|].
  { by intros [= <- <-]. }
  destruct (f d) as [a|err] eqn:Hf; intros [= <- <-]; (split; [done|]); naive_solver.
Qed.

(** ** Runs: which operations a service operation performs *)

Inductive opstep (P : Op → Prop) : Db → Db → Prop :=
| opstep_run o e d : P o → opstep P d (run o e d).

Definition runs_of (P : Op → Prop) : Db → Db → Prop := rtc (opstep P).
#[export] Instance runs_of_preorder P : PreOrder (runs_of P).
Proof. unfold runs_of. apply _. Qed.

Lemma runs_steps P d d' : runs_of P d d' → steps d d'.
Proof. apply rtc_subrel. intros x y [o e z _]. constructor. Qed.

Lemma runs_rel P (R : Db → Db → Prop) `{!PreOrder R} d d' :
  (∀ o e x, P o → R x (run o e x)) → runs_of P d d' → R d d'.
Proof. intros HR. induction 1 as [|x y z [o e w HP] _ IH]; [done|]. etrans; [by apply HR|done]. Qed.

(** Other requests only perform operations of [P]. *)
Definition polite (P : Op → Prop) (e : SvcEnv) : Prop := ∀ n, Forall (λ oe, P oe.1) (between e n).

Lemma others_runs P l d : Forall (λ oe, P oe.1) l → runs_of P d (others l d).
Proof.
  intros Hl. revert d. induction Hl as [|[o e] l HP _ IH]; intros d; simpl; [done|].
  etrans; [apply rtc_once; by constructor|apply IH].
Qed.

(** [m] takes the tables only through operations of [P]. *)
Definition performs (P : Op → Prop) {A} (m : Svc A) : Prop :=
  ∀ e s, polite P e → runs_of P (tables s) (tables (m e s).2).

Section Performs.
Context (P : Op → Prop).

Lemma performs_ret {A} (a : A) : performs P (mret a).
Proof. by intros e s _. Qed.
Lemma performs_fail {A} err : performs P (svc_fail (A:=A) err).
Proof. by intros e s _. Qed.
Lemma performs_lift {A} (r : result SvcErr A) : performs P (lift r).
Proof. by intros e s _. Qed.
Lemma performs_require b err : performs P (svc_require b err).
Proof. destruct b; [apply performs_ret|apply performs_fail]. Qed.
Lemma performs_clock : performs P clock.
Proof. by intros e s _. Qed.
Lemma performs_emit l : performs P (emit l).
Proof. by intros e s _. Qed.
Lemma performs_notify {A} (f : option Client → A) : performs P (ask_notify f).
Proof. by intros e s _. Qed.
Lemma performs_role a b : performs P (ask_role a b).
Proof. by intros e s _. Qed.
Lemma performs_bind {A B} (m : Svc A) (f : A → Svc B) :
  performs P m → (∀ a, performs P (f a)) → performs P (a ← m; f a).
Proof.
  intros Hm Hf e s He. specialize (Hm e s He). unfold mbind, svc_bind.
  destruct (m e s) as [[a|err] s']; [|done]. simpl in Hm. etrans; [done|]. by apply Hf.
Qed.
Lemma performs_try {A} (m : Svc A) : performs P m → performs P (try m).
Proof. intros Hm e s He. specialize (Hm e s He). unfold try. by destruct (m e s). Qed.
Lemma performs_call {A} (f : Env → Db → result Err A * Db) o :
  P o → (∀ e d, (f e d).2 = run o e d) → performs P (call f).
Proof.
  intros HP Hf e s He. unfold call.
  specialize (Hf (call_env e (calls s)) (others (between e (calls s)) (tables s))).
  destruct (f _ _) as [r d]. simpl in *. subst d. etrans; [apply others_runs, He|].
  apply rtc_once. by constructor.
Qed.
Lemma performs_read {A} (f : Db → result Err A) : performs P (read f).
Proof.
  intros e s He. unfold read, call. destruct (read_db _ _ _) as [r d] eqn:E. simpl.
  apply read_db_same in E as [-> _]. apply others_runs, He.
Qed.
End Performs.

End Service.

(** One step of a [performs] goal. *)
Ltac performs_step :=
  lazymatch goal with
  | |- performs _ (mbind _ _) => apply performs_bind; [|intros ?]
  | |- performs _ (mret _) => apply performs_ret
  | |- performs _ (svc_fail _) => apply performs_fail
  | |- performs _ (lift _) => apply performs_lift
  | |- performs _ (raw_error _) => apply performs_lift
  | |- performs _ (mapped _) => apply performs_lift
  | |- performs _ (svc_require _ _) => apply performs_require
  | |- performs _ clock => apply performs_clock
  | |- performs _ (emit _) => apply performs_emit
  | |- performs _ (deleteObjects _) => apply performs_emit
  | |- performs _ (bestEffort _) => apply performs_emit
  | |- performs _ (ask_notify _) => apply performs_notify
  | |- performs _ (ask_role _ _) => apply performs_role
  | |- performs _ (read _) => apply performs_read
  | |- performs _ (try _) => apply performs_try
  | |- performs _ (match ?x with _ => _ end) => destruct x
  | |- performs _ (let _ := _ in _) => cbv zeta
  end.
Ltac performs := repeat performs_step.

(** One symbolic step of a service operation. *)
Ltac swp_step :=
  lazymatch goal with
  | |- swp (mbind _ _) _ _ _ => apply swp_bind
  | |- swp (mret _) _ _ _ => apply swp_ret
  | |- swp (svc_fail _) _ _ _ => apply swp_fail
  | |- swp (lift _) _ _ _ => apply swp_lift
  | |- swp (raw_error _) _ _ _ => apply swp_lift
  | |- swp (mapped _) _ _ _ => apply swp_lift
  | |- swp (try _) _ _ _ => apply swp_try
  | |- swp (svc_require _ _) _ _ _ => apply swp_require; intros ?
  | |- swp (match ?x with _ => _ end) _ _ _ =>
      let E := fresh "E" in destruct x eqn:E
  end.
