(* ===== verification/Decisions.v ===== *)
(** * What a decision does

    The functional behaviour of the review decisions: an approval ships exactly
    the frozen submission, lists it and mints its release; a rejection and a
    withdrawal leave the catalog alone; a card action decides at most once;
    publication and takedown move the listing state as promised. *)

From S2P Require Import Prelude GoStrings Version Model Store Rows RowWrites Write Review Listing Changes Operations Sync Children.
Import Go.
Local Open Scope string_scope.

Section Decisions.
Context `{Host}.

(** ** Snapshots of a live row *)

Definition version_of (vid seq : string) (p : Plugin) (rels : list PluginRelation)
    (note : option string) (by_ : string) (t : Z) (artifacts : RawMessage) : VersionRow :=
  mkVersion vid (ID p) seq (Manifest p) (Package p) (AttachmentKeys p) (ManifestHash p)
    (PluginHash p) (EncodeSnapshotRelations rels) note by_ t (declared_label p) artifacts.

(** A snapshot of [p], whose row [q] is not deleted, advances the label of the
    row and, but for a connector, stores a version and points the row to it. *)
Definition snapshot_done (t : Z) (p q : Plugin) (rels : list PluginRelation)
    (note : option string) (by_ : string) (vid : string) (d' : Db) : Prop :=
  if decide (Type_ p = Connector)
  then plugins d' !! ID p = Some (advance_label t (declared_label p) q)
  else plugins d' !! ID p
         = Some (set_CurrentVersionID (Some vid) (advance_label t (declared_label p) q))
       ∧ ∃ seq artifacts, snapshotArtifacts p = Ok artifacts
           ∧ versions d' !! vid = Some (version_of vid seq p rels note by_ t artifacts).

Lemma update_plugin_row id P f d p :
  plugins d !! id = Some p → P p = true →
  update_plugin id P f d = (1, set_plugins (<[id := f p]> (plugins d)) d).
Proof. intros Hp HP. unfold update_plugin. by rewrite Hp, HP. Qed.

Lemma snapshotVersion_wp t p q rels note by_ label e s :
  plugins (db s) !! ID p = Some q → DeletedAt q = None →
  CurrentVersion p = Some label → label ≠ "" →
  wp (snapshotVersion t p rels note by_) e s
    (λ vid s', snapshot_done t p q rels note by_ vid (db s')).
Proof.
  intros Hq Hd Hcv Hne. apply String.eqb_neq in Hne.
  assert (not_deleted q = true) as Hnd by by apply not_deleted_true.
  unfold snapshotVersion, snapshot_done. 
  destruct (decide (Type_ p = Connector)) as [Ht|Ht].
  - assert (declared_label p = label) as -> by (unfold declared_label; by rewrite Hcv, Hne).
    rewrite Hcv, Hne. apply wp_bind, wp_execN. intros n d'.
    rewrite (update_plugin_row _ _ _ _ q) by done. intros [= _ <-]. apply wp_ret.
    simpl. by rewrite lookup_insert_eq.
  - do 2 wp_step. wp_step; [|wp_step]. do 3 wp_step. wp_step.
    match goal with Hi : insert_version _ _ = _ |- _ => revert Hi end.
    unfold insert_version. repeat case_match; try done. intros [= <-].
    apply wp_bind, wp_execN. intros n d'.
    rewrite (update_plugin_row _ _ _ _ q) by done. intros [= _ <-]. apply wp_ret.
    simpl. rewrite !lookup_insert_eq. split; [done|]. by eexists _, _.
Qed.

(** ** The row an approval leaves *)

(** The plugin row carries the frozen submission. *)
Definition ships (rr : ReviewRow) (q : Plugin) : Prop :=
  (Name q, Tags q) = manifestNameAndTags (rr_manifest rr)
  ∧ Manifest q = rr_manifest rr ∧ Package q = rr_package rr
  ∧ AttachmentKeys q = rr_attachment_keys rr
  ∧ ManifestHash q = rr_manifest_hash rr ∧ PluginHash q = rr_plugin_hash rr.

(** Shipped, listed, alive and the same plugin as [current]. *)
Definition listed_as (rr : ReviewRow) (current q : Plugin) : Prop :=
  ships rr q ∧ listed q = true ∧ DeletedAt q = None ∧ same_identity current q.

Lemma apply_snapshot_ships rr t key ns q : ships rr (apply_snapshot rr t key ns q).
Proof. unfold ships, apply_snapshot. by destruct (manifestNameAndTags _). Qed.

Lemma list_first_ships rr q : ships rr q → ships rr (list_first q).
Proof. by destruct q. Qed.

Lemma applyApprovedSnapshot_wp sp current rr t e s :
  plugins (db s) !! rr_plugin_id rr = Some current →
  SpaceID current = Some sp → DeletedAt current = None →
  wp (applyApprovedSnapshot sp current rr t (negb (listed current))) e s
    (λ _ s', ∃ q, plugins (db s') !! rr_plugin_id rr = Some q ∧ listed_as rr current q).
Proof.
  intros Hc Hsp Hd. assert (not_deleted current = true) as Hnd by by apply not_deleted_true.
  assert (in_space sp current = true) as His by by apply bool_decide_eq_true.
  unfold applyApprovedSnapshot. destruct (manifestNameAndTags _) as [fname _].
  apply wp_bind. eapply (wp_evolves eq); [evolve|]. intros [key ns] s1 Hs1. rewrite Hs1 in Hc.
  destruct (apply_snapshot_identity rr t key ns current) as (Hid & Hdel & Hlist).
  destruct (listed current) eqn:Hl; simpl.
  - apply wp_bind, wp_catch; [|by intros]. apply wp_execN. intros n d'.
    rewrite (update_plugin_row _ _ _ _ current) by (done || by rewrite His, Hnd).
    intros [= _ <-]. apply wp_ret. simpl. rewrite lookup_insert_eq.
    eexists. split; [done|]. unfold listed_as. rewrite Hlist, Hdel.
    auto using apply_snapshot_ships.
  - apply wp_bind, wp_catch; [|by intros]. apply wp_execN. intros n d'.
    rewrite (update_plugin_row _ _ _ _ current) by (done || by rewrite His, Hnd, Hl).
    intros [= <- <-]. eapply (wp_evolves eq); [evolve|]. simpl. intros _ s2 <-. simpl.
    rewrite lookup_insert_eq. eexists. split; [done|]. unfold listed_as.
    destruct (list_first_identity (apply_snapshot rr t key ns current)) as [Hid' Hdel'].
    rewrite Hdel', Hdel. split; [apply list_first_ships, apply_snapshot_ships|].
    split; [done|]. split; [done|]. by eapply same_identity_trans.
Qed.

(** Promotion of embedded children never touches a published row. *)
Definition published_kept (d d' : Db) : Prop :=
  ∀ id p, plugins d !! id = Some p → ListingState p = Published → plugins d' !! id = Some p.
#[export] Instance published_kept_preorder : PreOrder published_kept.
Proof. split; [by intros d id p|]. intros x y z H1 H2 id p Hp Hl. by apply H2, Hl; apply H1. Qed.

Lemma promote_published i ty sp a t : evolves published_kept (promoteEmbeddedChildren i ty sp a t).
Proof.
  unfold promoteEmbeddedChildren, promoteEmbeddedIDs. evolve.
  apply evolves_execN. intros d n d'. unfold update_plugin.
  repeat case_match; intros [= _ <-]; try done. bool_facts.
  intros id q Hq Hl. simpl. rewrite lookup_insert_ne; [done|]. naive_solver.
Qed.

Lemma listed_published p : listed p = true → ListingState p = Published ∧ Visibility p = VSpace.
Proof. unfold listed. intros Hl. bool_facts. done. Qed.

(** ** Visible placements *)

Definition placed (id : string) (d : Db) : Prop :=
  ∃ k x, placements d !! k = Some x ∧ pl_plugin_id x = id
    ∧ pl_code x = defaultPlacementCode ∧ pl_visible x = true.

Lemma has_placement_true id code d :
  has_placement id code d = true ↔
  ∃ k x, placements d !! k = Some x ∧ pl_plugin_id x = id ∧ pl_code x = code.
Proof.
  unfold has_placement. rewrite existsb_exists. split.
  - intros ([k x] & Hin & Hx). apply list_elem_of_In, elem_of_map_to_list in Hin.
    simpl in Hx. bool_facts. apply String.eqb_eq in H0, H1. eauto.
  - intros (k & x & Hk & <- & <-). exists (k, x).
    split; [by apply list_elem_of_In, elem_of_map_to_list|]. simpl. by rewrite !String.eqb_refl.
Qed.

Lemma ensureVisible_wp t id c e s :
  (∀ n, placements (db s) !! ids e n = None) →
  wp (ensureVisibleDefaultPlacement t id c) e s (λ _ s', placed id (db s')).
Proof.
  intros Hfresh. unfold ensureVisibleDefaultPlacement. do 2 wp_step. simpl.
  destruct (has_placement _ _ _) eqn:Hh.
  - apply has_placement_true in Hh as (k & x & Hk & Hp & Hcode). wp_step.
    unfold placed, update_placements. simpl. exists k. rewrite lookup_fmap, Hk. simpl.
    eexists. split; [done|]. rewrite Hp, Hcode, !String.eqb_refl. simpl.
    destruct (pl_visible x) eqn:Hv; by destruct x.
  - apply wp_bind. unfold newID, wp. simpl. fold (wp (exec (insert_or_reveal
      (mkPlacement (ids e (S (tick s))) defaultPlacementCode id c true 0 t t))) e
      (bump (bump s)) (λ _ s', placed id (db s'))). wp_step. simpl.
    unfold insert_or_reveal, insert_placement. simpl. rewrite Hfresh, Hh.
    exists (ids e (S (tick s))). eexists. simpl. by rewrite lookup_insert_eq.
Qed.

Definition place_free : list kind :=
  [KInsert; KQuiet; KList; KDelete; KSubmit; KClose; KApprove; KEdge; KVersion; KAudit; KReceipt; KPolicy].
Definition version_free : list kind :=
  [KInsert; KQuiet; KList; KDelete; KSubmit; KClose; KApprove; KEdge; KPlace; KAudit; KReceipt; KPolicy].

Lemma placements_kept K d d' :
  changes K d d' → kinds_within K place_free = true → placements d' = placements d.
Proof. apply keeps_of_changes. intros k x y Hk Hc. destruct Hc; done || (exfalso; set_solver). Qed.
Lemma versions_kept K d d' :
  changes K d d' → kinds_within K version_free = true → versions d' = versions d.
Proof. apply keeps_of_changes. intros k x y Hk Hc. destruct Hc; done || (exfalso; set_solver). Qed.

Definition edge_free : list kind :=
  [KInsert; KQuiet; KList; KDelete; KSubmit; KClose; KApprove; KPlace; KVersion; KAudit; KReceipt; KPolicy].
Lemma edges_kept K d d' :
  changes K d d' → kinds_within K edge_free = true → relations d' = relations d.
Proof. apply keeps_of_changes. intros k x y Hk Hc. destruct Hc; done || (exfalso; set_solver). Qed.

Lemma snapshot_done_kept t p q rels note by_ vid d d' :
  plugins d' = plugins d → versions d' = versions d →
  snapshot_done t p q rels note by_ vid d → snapshot_done t p q rels note by_ vid d'.
Proof. unfold snapshot_done. intros -> ->. done. Qed.

Lemma update_review_row id P f d r :
  reviews d !! id = Some r → P r = true →
  update_review id P f d = (1, set_reviews (<[id := f r]> (reviews d)) d).
Proof. intros Hr HP. unfold update_review. by rewrite Hr, HP. Qed.

Lemma insertAudit_wp t p a m b c e s :
  wp (insertAudit t p a m b c) e s (λ _ s', changes [KAudit] (db s) (db s')).
Proof. eapply (wp_evolves (changes [KAudit])); [evolve|]. done. Qed.

Lemma snapshot_plugin_fields current rr :
  ID (snapshot_plugin current rr) = ID current
  ∧ Type_ (snapshot_plugin current rr) = Type_ current
  ∧ CurrentVersion (snapshot_plugin current rr) = Some (rr_version rr).
Proof. unfold snapshot_plugin. by destruct (manifestNameAndTags _). Qed.

Lemma approveFinish_spec p current rr q rels t e s :
  plugins (db s) !! ID current = Some q → DeletedAt q = None → rr_version rr ≠ "" →
  reviews (db s) !! ReviewID p = Some rr →
  wp (approveFinish p current rr rels t) e s (λ _ s',
    reviews (db s') !! ReviewID p = Some (settle Approved p None t rr)
    ∧ placements (db s') = placements (db s)
    ∧ relations (db s') = relations (db s)
    ∧ ∃ vid, snapshot_done t (snapshot_plugin current rr) q rels
               (nonempty (default "" (rr_changelog rr))) (ReviewerUID p) vid (db s')).
Proof.
  intros Hq Hd Hv Hr. destruct (snapshot_plugin_fields current rr) as (Hid & Hty & Hcv).
  unfold approveFinish. cbv zeta. apply wp_bind.
  set (sp := snapshot_plugin current rr) in *.
  set (note := nonempty (default "" (rr_changelog rr))).
  assert (wp (snapshotVersion t sp rels note (ReviewerUID p)) e s (λ vid s',
    snapshot_done t sp q rels note (ReviewerUID p) vid (db s')
    ∧ changes [KVersion; KQuiet] (db s) (db s'))) as Hsnap.
  { apply wp_and; [|apply snapshotVersion_changes; done].
    eapply snapshotVersion_wp; [by rewrite Hid|done..]. }
  eapply wp_mono; [exact Hsnap|]. simpl. intros vid s1 [Hdone H1].
  apply wp_bind, wp_execN. intros n d1.
  rewrite (update_review_row _ _ _ _ rr); [|by rewrite (reviews_kept _ _ _ H1 eq_refl)|done].
  intros [= <- <-]. apply wp_bind. eapply (wp_evolves eq); [evolve|]. simpl. intros _ s2 Hs2.
  eapply wp_mono; [apply insertAudit_wp|]. simpl. intros _ s3 H3.
  rewrite (reviews_kept _ _ _ H3 eq_refl), (placements_kept _ _ _ H3 eq_refl), <-Hs2. simpl.
  rewrite lookup_insert_eq, (placements_kept _ _ _ H1 eq_refl).
  rewrite (edges_kept _ _ _ H3 eq_refl), <-Hs2. simpl. rewrite (edges_kept _ _ _ H1 eq_refl).
  split; [done|]. split; [done|]. split; [done|]. exists vid. eapply snapshot_done_kept, Hdone.
  - by rewrite (plugins_kept _ _ _ H3 eq_refl), <-Hs2.
  - by rewrite (versions_kept _ _ _ H3 eq_refl), <-Hs2.
Qed.

(** ** Approval *)

(** The identifier of a live edge of [source]. *)
Definition live_edge_id (source : string) (d : Db) (i : string) : Prop :=
  ∃ k row, relations d !! k = Some row ∧ edge_live source row ∧ RelID row = i.

(** The edge [r] the frozen relation [f] is shipped as: its target, type, order
    and pin; its status, a missing one being active; its data, blank and null
    being none; and its identifier, as long as an edge of the plugin still has
    it. *)
Definition ships_edge (source : string) (d : Db) (f : SnapshotRelation) (r : PluginRelation) : Prop :=
  TargetPluginID r = snap_target_plugin_id f ∧ RelType r = snap_relation_type f
  ∧ SortOrder r = snap_sort_order f ∧ TargetVersionID r = snap_target_version_id f
  ∧ RelStatus r = (if decide (snap_status f = 0%Z) then 1%Z else snap_status f)
  ∧ Data r = (if decide (TrimSpace (snap_data f) = "" ∨ TrimSpace (snap_data f) = "null") then "" else snap_data f)
  ∧ (live_edge_id source d (snap_relation_id f) → snap_relation_id f ≠ "" → RelID r = snap_relation_id f).

Lemma reconcile_wp source l e s :
  wp (reconcileFrozenRelations source l) e s (λ frozen s', db s' = db s
    ∧ ∃ ids, (∀ i, i ∈ ids ↔ live_edge_id source (db s) i) ∧ frozen = reconcile_relation source ids <$> l).
Proof.
  set (ids := RelID <$> rels_where (λ r, String.eqb (SourcePluginID r) source && rel_live r) (db s)).
  assert (∀ i, i ∈ ids ↔ live_edge_id source (db s) i) as Hids.
  { intros i. unfold ids, live_edge_id, edge_live, rels_where, rel_live. rewrite list_elem_of_fmap. split.
    - intros (r & -> & [HP ([k r'] & -> & Hk%elem_of_map_to_list)%list_elem_of_fmap]%list_elem_of_filter).
      bool_facts. apply String.eqb_eq in H0. by exists k, r'.
    - intros (k & r & Hk & [Hs Hd] & <-). exists r. split; [done|]. apply list_elem_of_filter.
      rewrite Hs, String.eqb_refl, bool_decide_true by done. split; [done|]. apply list_elem_of_fmap. exists (k, r).
      by rewrite elem_of_map_to_list. }
  unfold reconcileFrozenRelations. destruct l as [|x l].
  - apply wp_ret. split; [done|]. by exists ids.
  - apply wp_bind, wp_query, wp_ret. split; [done|]. by exists ids.
Qed.

Lemma assigned_ships source d f r r' :
  ships_edge source d f r → assigned r r' → ships_edge source d f r'.
Proof.
  intros Hs [->|[Hi [j ->]]]; [done|]. unfold ships_edge in *.
  destruct Hs as (?&?&?&?&?&?&Hid). split_and!; try done. intros Hl Hne. specialize (Hid Hl Hne). congruence.
Qed.

Lemma reconcile_ships source d ids f :
  (∀ i, i ∈ ids ↔ live_edge_id source d i) →
  ships_edge source d f (reconcile_relation source ids (decode_relation f)).
Proof.
  intros Hids.
  assert (isJSONNullOrEmpty (snap_data f) = bool_decide (TrimSpace (snap_data f) = "" ∨ TrimSpace (snap_data f) = "null")) as Hj.
  { unfold isJSONNullOrEmpty. apply eq_true_iff_eq. by rewrite orb_true_iff, bool_decide_eq_true, !String.eqb_eq. }
  assert (live_edge_id source d (snap_relation_id f) → mem (snap_relation_id f) ids = true) as Hm by (by rewrite mem_true, Hids).
  unfold ships_edge, reconcile_relation. cbv zeta.
  assert (RelID (decode_relation f) = snap_relation_id f) as -> by done.
  destruct (mem (snap_relation_id f) ids);
    (repeat match goal with |- context [isJSONNullOrEmpty ?x] => progress change (isJSONNullOrEmpty x) with (isJSONNullOrEmpty (snap_data f)) end).
  all: destruct f as [i sp st tg tv tt ty so da stt cb ca ua de]; simpl in *.
  all: destruct (decide (stt = 0%Z)); simpl; rewrite Hj; case_bool_decide; simpl; split_and!; try done.
  all: try (intros Hl; specialize (Hm Hl); done).
  all: by rewrite ?decide_True, ?decide_False by done.
Qed.

Lemma reconciled_ships source d ids l out :
  (∀ i, i ∈ ids ↔ live_edge_id source d i) →
  Forall2 assigned (reconcile_relation source ids <$> DecodeSnapshotRelations l) out →
  Forall2 (ships_edge source d) l out.
Proof.
  intros Hids Hl. unfold DecodeSnapshotRelations in Hl. revert out Hl.
  induction l as [|f l IH]; intros out Hl; inversion Hl as [|? r ? ? Ha Hr]; subst; constructor; [|by apply IH].
  eapply assigned_ships, Ha. by apply reconcile_ships.
Qed.

(** What an approval promises of the tables it leaves. *)
Record approval (scope : Scope) (p : DecisionParams) (d d' : Db) (plugin : Plugin)
    (rr : ReviewRow) (current : Plugin) : Prop := {
  ap_request : reviews d !! ReviewID p = Some rr;
  ap_pending : rr_status rr = Pending;
  ap_space : rr_space_id rr = ScopeSpaceID scope;
  ap_before : plugins d !! rr_plugin_id rr = Some current;
  ap_live : DeletedAt current = None ∧ SpaceID current = Some (ScopeSpaceID scope);
  ap_forward : not_regressed_from (CurrentVersion current) (rr_version rr) = true;
  ap_new_label : rr_version rr ∉ publishedLabels (rr_plugin_id rr) current d;
  ap_row : plugins d' !! rr_plugin_id rr = Some plugin;
  ap_ships : ships rr plugin;
  ap_listed : listed plugin = true;
  ap_identity : same_identity current plugin;
  ap_label : CurrentVersion plugin = Some (rr_version rr);
  ap_settled : ∃ t, reviews d' !! ReviewID p = Some (settle Approved p None t rr);
  ap_placed : placed (rr_plugin_id rr) d';
  ap_children : listed current = false →
    ∀ c q, c ∈ children (rr_plugin_id rr) (Type_ current) d' → plugins d' !! c = Some q →
      SpaceID q = Some (ScopeSpaceID scope) → ListingState q = Published;
  ap_relations : ∃ out, Forall2 (ships_edge (rr_plugin_id rr) d) (rr_relations rr) out
    ∧ edges_are (rr_plugin_id rr) out d'
    ∧ (Type_ current ≠ Connector → ∃ vid v, CurrentVersionID plugin = Some vid ∧ versions d' !! vid = Some v
        ∧ pv_relations v = EncodeSnapshotRelations out);
  ap_version : Type_ current ≠ Connector →
    ∃ vid v, CurrentVersionID plugin = Some vid ∧ versions d' !! vid = Some v
      ∧ pv_plugin_id v = rr_plugin_id rr ∧ pv_declared_version v = rr_version rr
      ∧ pv_manifest v = rr_manifest rr ∧ pv_package v = rr_package rr
      ∧ pv_attachment_keys v = rr_attachment_keys rr
      ∧ pv_manifest_hash v = rr_manifest_hash rr ∧ pv_plugin_hash v = rr_plugin_hash rr
      ∧ pv_created_by v = ReviewerUID p
}.

(** The row a snapshot leaves is the shipped row with its label advanced. *)
Lemma snapshot_done_row t current rr q rels note by_ vid d' :
  listed_as rr current q → rr_version rr ≠ "" →
  snapshot_done t (snapshot_plugin current rr) q rels note by_ vid d' →
  ∃ q', plugins d' !! ID current = Some q' ∧ listed_as rr current q'
    ∧ CurrentVersion q' = Some (rr_version rr)
    ∧ (Type_ current ≠ Connector → ∃ seq artifacts, CurrentVersionID q' = Some vid
        ∧ versions d' !! vid
          = Some (version_of vid seq (snapshot_plugin current rr) rels note by_ t artifacts)).
Proof.
  intros Hl Hv Hdone. destruct (snapshot_plugin_fields current rr) as (Hid & Hty & Hcv).
  assert (declared_label (snapshot_plugin current rr) = rr_version rr) as Hlab.
  { unfold declared_label. rewrite Hcv. by apply String.eqb_neq in Hv as ->. }
  unfold snapshot_done in Hdone. rewrite Hid, Hty, Hlab in Hdone. case_decide.
  - eexists. split; [done|]. split; [by destruct q|]. done.
  - destruct Hdone as (Hrow & seq & art & _ & Hver). eexists. split; [done|].
    split; [by destruct q|]. split; [done|]. eauto.
Qed.

Lemma wp_promote_first (b : bool) id ty sp a t e s :
  wp (if negb b then promoteEmbeddedChildren id ty sp a t else mret tt) e s (λ _ s',
    published_kept (db s) (db s') ∧ changes [KList] (db s) (db s')
    ∧ (b = false → ∀ c, c ∈ children id ty (db s') → published_in sp c (db s'))).
Proof.
  destruct b; simpl; [by apply wp_ret|].
  apply wp_and; [eapply (wp_evolves published_kept); [apply promote_published|done]|].
  apply wp_and; [eapply (wp_evolves (changes [KList])); [evolve|done]|].
  eapply wp_mono; [apply promote_wp|]. simpl. by intros _ s' [_ ?] _.
Qed.

Definition listing_kinds : list kind := [KReceipt; KList; KQuiet; KPlace; KEdge].

(** The middle of an approval: stamp the row, reveal its placement, synchronize
    the frozen edges and, on a first listing, promote the embedded children. *)
Lemma approve_listing_wp sp current rr frozen t d {B} (k : RelationSync → Tx B) e s
    (Q : B → St → Prop) :
  plugins d !! rr_plugin_id rr = Some current → SpaceID current = Some sp →
  DeletedAt current = None → (∀ n, placements d !! ids e n = None) →
  changes [KReceipt] d (db s) →
  (∀ sync q s', changes listing_kinds d (db s') → plugins (db s') !! rr_plugin_id rr = Some q →
     listed_as rr current q → placed (rr_plugin_id rr) (db s') →
     (listed current = false → ∀ c, c ∈ children (rr_plugin_id rr) (Type_ current) (db s') →
        published_in sp c (db s')) →
     Forall2 assigned frozen (SyncRelations sync) → edges_are (rr_plugin_id rr) (SyncRelations sync) (db s') →
     wp (k sync) e s' Q) →
  wp (applyApprovedSnapshot sp current rr t (negb (listed current));;
      ensureVisibleDefaultPlacement t (rr_plugin_id rr) (CategoryID current);;
      sync ← syncRelations t (rr_plugin_id rr) (OwnerUID current) frozen;
      (if negb (listed current) then
         promoteEmbeddedChildren (rr_plugin_id rr) (Type_ current) sp (Visibility current) t
       else mret tt);;
      k sync) e s Q.
Proof.
  intros Hcur Hsp Hlive Hfresh Hc Hk.
  assert (plugins (db s) !! rr_plugin_id rr = Some current) as Hrow
    by by rewrite (plugins_kept _ _ _ Hc eq_refl).
  apply wp_bind. eapply wp_mono.
  { apply wp_and; [by apply applyApprovedSnapshot_wp|].
    apply (applyApprovedSnapshot_changes [KList; KQuiet]); done. }
  simpl. intros _ s7 [(q & Hq & Hlist) Hc7].
  assert (changes listing_kinds d (db s7)) as Hd7.
  { etrans; [by eapply changes_mono, Hc|by eapply changes_mono, Hc7]. }
  apply wp_bind. eapply wp_mono.
  { apply wp_and; [apply ensureVisible_wp|apply (ensureVisibleDefaultPlacement_changes [KPlace]); done].
    by rewrite (placements_kept _ _ _ Hc7 eq_refl), (placements_kept _ _ _ Hc eq_refl). }
  simpl. intros _ s8 [Hpl H8].
  apply wp_bind. eapply wp_mono.
  { apply wp_and; [apply syncRelations_exact_wp|by apply (syncRelations_changes [KEdge])]. }
  simpl. intros sync s9 [[Has Hedges] H9].
  apply wp_bind. eapply wp_mono.
  { apply (wp_promote_first (listed current)). }
  simpl. intros _ s10 (Hpub & H10 & Hkids). apply (Hk sync q); [| |done| |done|done|].
  - repeat (etrans; [by eapply changes_mono; [|eassumption]|]). done.
  - apply Hpub; [|by apply listed_published; apply Hlist].
    by rewrite (plugins_kept _ _ _ H9 eq_refl), (plugins_kept _ _ _ H8 eq_refl).
  - unfold placed in *. by rewrite (placements_kept _ _ _ H10 eq_refl),
      (placements_kept _ _ _ H9 eq_refl).
  - by apply (edges_are_kept _ _ (db s9)); [apply (edges_kept _ _ _ H10 eq_refl)|].
Qed.

(** C2: a committed approval ships exactly what was reviewed. The request was
    pending in the reviewer's Space; its label is new and does not regress; the
    plugin row now carries the frozen manifest, package, sidecar, hashes, name
    and tags under the same identity, is listed to the organization with a
    visible default placement and the request's label; its live relations are
    those frozen in the request, one for one and no other, each with its target,
    type, order, status, data and pin; the request is approved with the reviewer
    recorded; and, but for connectors, the current version row holds the same
    frozen content and those relations. The returned plugin is that row. *)
Theorem approval_ships_frozen scope p e d plugin d' :
  (∀ id q, plugins d !! id = Some q → ID q = id) →
  (∀ n, placements d !! ids e n = None) →
  (∀ r, reviews d !! ReviewID p = Some r → rr_version r ≠ "") →
  ApproveReview scope p e d = (Ok plugin, d') →
  ∃ rr current, approval scope p d d' plugin rr current.
Proof.
  intros Hkey Hfresh Hlabel Hrun.
  apply (transact_ok _ _ _ _ _ (λ a x, ∃ rr current, approval scope p d x a rr current) Hrun).
  clear Hrun d' plugin. unfold approveInTx, approveBody.
  apply wp_bind; wp_step. apply wp_bind.
  eapply (wp_evolves (changes [KReceipt])); [evolve|]. simpl. intros _ s1 Hc1.
  apply wp_bind, lockPendingReview_wp. rewrite (reviews_kept _ _ _ Hc1 eq_refl). simpl.
  intros rr Hrr Hpend Hdel Hsp. specialize (Hlabel _ Hrr).
  apply wp_bind, getReviewed_wp. simpl. rewrite (plugins_kept _ _ _ Hc1 eq_refl). simpl.
  intros current Hcur Hspc _ Hlive.
  apply wp_bind. eapply wp_mono; [apply approveGuards_wp|]. simpl.
  intros _ s2 (Hs2 & _ & _ & Hforward & Hnew).
  assert (publishedLabels (rr_plugin_id rr) current (db s1)
          = publishedLabels (rr_plugin_id rr) current d) as Hpl.
  { unfold publishedLabels. by rewrite (reviews_kept _ _ _ Hc1 eq_refl). }
  rewrite Hpl in Hnew.
  rewrite <-Hs2 in Hc1. clear Hs2 Hpl s1. rename Hc1 into Hc.
  do 2 pass Hc. apply wp_bind. eapply wp_mono; [apply reconcile_wp|].
  simpl. intros frozen s5 (Hs5 & lids & Hlids & ->). rewrite <-Hs5 in Hc, Hlids. clear Hs5.
  assert (relations (db s5) = relations d) as Hrels by apply (edges_kept _ _ _ Hc eq_refl).
  unfold live_edge_id in Hlids. rewrite Hrels in Hlids. clear Hrels. pass Hc.
  apply (approve_listing_wp _ _ _ _ _ d); [done..|]. intros sync q s10 Hd10 Hq10 Hlist Hplaced Hkids Has Hedges.
  pose proof (Hkey _ _ Hcur) as Hid. rewrite <-Hid in Hq10.
  apply wp_bind. eapply wp_mono.
  { apply (wp_and _ _ _ (λ _ s', views_kept (db s10) (db s'))).
    - eapply (wp_evolves views_kept); [apply approveFinish_views|done].
    - apply (approveFinish_spec p current rr q); [done|by apply Hlist|done|].
      by rewrite (reviews_kept _ _ _ Hd10 eq_refl). }
  simpl. intros _ s11 (Hview & Hrev & Hpl11 & Hrel11 & vid & Hdone).
  destruct (snapshot_done_row _ _ _ _ _ _ _ _ _ Hlist Hlabel Hdone)
    as (q' & Hq' & (Hsh & Hli & Hde & Hidn) & Hcv & Hver).
  apply getReviewed_wp. rewrite <-Hid, Hq'. simpl. intros plugin [= <-] _ _ _.
  exists rr, current. split; try done.
  - by rewrite <-Hid.
  - eauto.
  - unfold placed in *. by rewrite Hpl11.
  - intros Hun c x Hch Hx Hs. destruct (children_live _ _ _ _ Hch) as (x' & Hx' & He & Hl).
    simplify_eq. unfold live in Hl. bool_facts. eapply views_published; try done.
    apply (Hkids Hun). by rewrite <-(children_kept _ _ _ _ (views_graph _ _ Hview)).
  - exists (SyncRelations sync). split; [by eapply reconciled_ships|]. split; [by eapply edges_are_kept|].
    intros Ht. destruct (Hver Ht) as (seq & art & Hvid & Hv). by eexists _, _.
  - intros Ht. destruct (Hver Ht) as (seq & art & Hvid & Hv). exists vid. eexists.
    split; [done|]. split; [done|]. unfold version_of, declared_label, snapshot_plugin. simpl.
    destruct (manifestNameAndTags _). simpl. by apply String.eqb_neq in Hlabel as ->.
Qed.

(** ** Rejection and withdrawal *)

Definition catalog_kept (d d' : Db) : Prop :=
  plugins d' = plugins d ∧ relations d' = relations d ∧ versions d' = versions d
  ∧ placements d' = placements d.
#[export] Instance catalog_kept_preorder : PreOrder catalog_kept.
Proof.
  unfold catalog_kept. split; [done|]. intros x y z (?&?&?&?) (?&?&?&?).
  split_and!; congruence.
Qed.

Lemma changes_catalog K d d' :
  changes K d d' → kinds_within K [KReceipt; KSubmit; KClose; KApprove; KAudit; KPolicy] = true →
  catalog_kept d d'.
Proof.
  intros Hc HK. eapply (changes_rel catalog_kept); [|by eapply changes_mono].
  intros k x y Hk Hxy. destruct Hxy; done || (exfalso; set_solver).
Qed.

(** Every storage key of a decodable sidecar. *)
Lemma retained_keys_spec pid live d k :
  k ∈ retained_keys pid live d ↔
  k ∈ sidecar_keys live
  ∨ ∃ v, v ∈ versions_of pid d ∧ k ∈ sidecar_keys (pv_attachment_keys v).
Proof.
  unfold retained_keys. rewrite elem_of_app. f_equiv. rewrite list_elem_of_In, in_concat.
  setoid_rewrite <-list_elem_of_In. setoid_rewrite list_elem_of_fmap. naive_solver.
Qed.

Lemma versions_of_kept pid d d' : versions d' = versions d → versions_of pid d' = versions_of pid d.
Proof. unfold versions_of. by intros ->. Qed.

(** No operation modelled here writes the groups. *)
Lemma groups_kept K d d' : changes K d d' → groups d' = groups d.
Proof. apply (changes_rel (keeps groups) K). by intros k x y _ []. Qed.

(** The requests of the visibility group of [reviewID], itself among them. *)
Definition in_visibility_group (d : Db) (reviewID id : string) : Prop :=
  ∃ g g', groups d !! reviewID = Some g ∧ groups d !! id = Some g'
          ∧ g_root_review_id g' = g_root_review_id g ∧ is_Some (reviews d !! id).

Lemma group_members_spec root d id :
  id ∈ (group_members root d).*1
  ↔ ∃ g, groups d !! id = Some g ∧ g_root_review_id g = root ∧ is_Some (reviews d !! id).
Proof.
  unfold group_members. rewrite list_elem_of_fmap. setoid_rewrite (merge_sort_Permutation member_le).
  setoid_rewrite list_elem_of_omap. split.
  - intros ([i pid] & -> & [rid g] & Hg%elem_of_map_to_list & Hm). simpl.
    destruct (String.eqb_spec (g_root_review_id g) root); [|done].
    destruct (reviews d !! rid) eqn:Hr; [|done]. injection Hm as -> <-. exists g. rewrite Hr. by split_and!.
  - intros (g & Hg & Hroot & r & Hr). exists (id, g_plugin_id g). split; [done|]. exists (id, g).
    split; [by apply elem_of_map_to_list|]. by rewrite (proj2 (String.eqb_eq _ _) Hroot), Hr.
Qed.

(** A member of the group of a settled request: pending before, settled with it
    after. *)
Definition settled_with (spaceID : string) (status : ReviewStatus) (d d' : Db) (id : string) : Prop :=
  ∃ r r', reviews d !! id = Some r ∧ rr_status r = Pending ∧ rr_space_id r = spaceID
          ∧ reviews d' !! id = Some r' ∧ rr_status r' = status ∧ same_submission r r'.

Lemma settle_members_wp id sp st f (l : list (string * string)) e s :
  st ≠ Pending → (∀ r, rr_status (f r) = st ∧ same_submission r (f r)) →
  wp (for_each l (λ m,
        n ← execN (update_review m.1 (λ r, rr_in_space sp r && bool_decide (rr_status r = Pending)) f);
        require (bool_decide (n = 1%nat) || String.eqb m.1 id) ErrConflict)) e s
    (λ _ s', ∀ i, i ≠ id →
       (i ∈ l.*1 → settled_with sp st (db s) (db s') i)
       ∧ (i ∉ l.*1 → reviews (db s') !! i = reviews (db s) !! i)).
Proof.
  intros Hst Hf. revert s. induction l as [|m l IH]; intros s; cbn [for_each].
  { apply wp_ret. intros i _. split; [by intros ?%elem_of_nil|done]. }
  apply wp_bind, wp_bind, wp_execN. intros n d1 Hu. apply wp_require. intros Hn.
  eapply wp_mono; [apply IH|]. simpl. intros _ s' Hs' i Hi. destruct (Hs' i Hi) as [Hin Hout].
  unfold update_review in Hu. assert (i ≠ m.1 → reviews d1 !! i = reviews (db s) !! i) as Hkeep.
  { intros Hne. destruct (reviews (db s) !! m.1) as [r|]; [destruct (_ && _)|]; injection Hu as <- <-; [|done..].
    simpl. by rewrite lookup_insert_ne by congruence. }
  split.
  - intros Hm. destruct (decide (i = m.1)) as [->|Hne].
    + destruct (reviews (db s) !! m.1) as [r|] eqn:Hr; [destruct (_ && _) eqn:HP|]; injection Hu as <- <-; simpl in Hn;
        [|by apply String.eqb_eq in Hn..].
      unfold rr_in_space in HP. bool_facts. apply String.eqb_eq in H0. destruct (Hf r) as [Hfs Hsub].
      destruct (decide (m.1 ∈ l.*1)) as [Hl|Hl].
      * destruct (Hin Hl) as (r0 & _ & Hr0 & Hp0 & _). simpl in Hr0. rewrite lookup_insert_eq in Hr0. congruence.
      * exists r, (f r). rewrite (Hout Hl). simpl. rewrite lookup_insert_eq. by split_and!.
    + apply elem_of_cons in Hm as [|Hm]; [done|]. unfold settled_with in *. by rewrite <-Hkeep by done; apply Hin.
  - intros [Hne Hl]%not_elem_of_cons. by rewrite Hout, Hkeep.
Qed.

Lemma finishVisibilityGroup_wp id sp st uid name reason t e s :
  st ≠ Pending →
  wp (finishVisibilityGroup id sp st uid name reason t) e s (λ _ s', ∀ i, i ≠ id →
    (in_visibility_group (db s) id i → settled_with sp st (db s) (db s') i)
    ∧ (¬ in_visibility_group (db s) id i → reviews (db s') !! i = reviews (db s) !! i)).
Proof.
  intros Hst. unfold finishVisibilityGroup, visibilityGroup, in_visibility_group. apply wp_bind, wp_bind, wp_query.
  destruct (groups (db s) !! id) as [g|] eqn:Hg.
  - apply wp_query. eapply wp_mono; [apply settle_members_wp; [done|by intros []]|]. simpl. intros _ s' Hs' i Hi.
    destruct (Hs' i Hi) as [Hin Hout]. rewrite group_members_spec in Hin, Hout. split.
    + intros (? & g' & [= <-] & Hg' & Hr & Hrow). apply Hin. by exists g'.
    + intros Hno. apply Hout. intros (g' & Hg' & Hr & Hrow). apply Hno. by exists g, g'.
  - apply wp_ret, wp_ret. intros i _. split; [by intros (? & ? & ? & _)|done].
Qed.

(** What a rejection or a withdrawal promises: the catalog is untouched, the
    request was pending and is closed with the given status, and with it the
    other requests of its visibility group, which were pending too; no other
    request is touched; and the returned keys are the request's sidecar and
    everything the plugin still uses. *)
Record closing (reviewID spaceID : string) (status : ReviewStatus) (d d' : Db)
    (keys : RawMessage * list string) (rr : ReviewRow) (current : Plugin) : Prop := {
  cl_request : reviews d !! reviewID = Some rr;
  cl_pending : rr_status rr = Pending;
  cl_space : rr_space_id rr = spaceID;
  cl_plugin : plugins d !! rr_plugin_id rr = Some current ∧ SpaceID current = Some spaceID
              ∧ DeletedAt current = None;
  cl_catalog : catalog_kept d d';
  cl_closed : ∃ rr', reviews d' !! reviewID = Some rr' ∧ rr_status rr' = status
              ∧ same_submission rr rr';
  cl_members : ∀ id, id ≠ reviewID → in_visibility_group d reviewID id → settled_with spaceID status d d' id;
  cl_others : ∀ id, id ≠ reviewID → ¬ in_visibility_group d reviewID id → reviews d' !! id = reviews d !! id;
  cl_sidecar : keys.1 = rr_attachment_keys rr;
  cl_retained : ∀ k, k ∈ keys.2 ↔ k ∈ sidecar_keys (AttachmentKeys current)
    ∨ ∃ v, v ∈ versions_of (ID current) d ∧ k ∈ sidecar_keys (pv_attachment_keys v)
}.

(** A settled request survives the closing of its group. *)
Definition decided_kept (d d' : Db) : Prop :=
  ∀ id r, reviews d !! id = Some r → rr_status r ≠ Pending → reviews d' !! id = Some r.
#[export] Instance decided_kept_preorder : PreOrder decided_kept.
Proof. split; [by intros d id r|]. intros x y z H1 H2 id r Hr Hs. by apply H2, Hs; apply H1. Qed.

Lemma changes_decided K d d' : changes K d d' → decided_kept d d'.
Proof.
  intros Hc. eapply (changes_rel decided_kept); [|exact Hc]. clear.
  intros k x y _ Hxy id r Hr Hs.
  destruct Hxy as [| | | |d r0|d f Hf|d i r0 r' Hi (Hp & _)|d i r0 r' Hi (Hp & _)| | | | | |]; simpl; try done.
  - rewrite lookup_insert_ne; [done|]. naive_solver.
  - rewrite lookup_fmap, Hr. simpl. by destruct (Hf r) as [->|[(? & _) _]].
  - rewrite lookup_insert_ne; [done|]. naive_solver.
  - rewrite lookup_insert_ne; [done|]. naive_solver.
Qed.

(** The end of both: from the closed row to the returned keys. *)
Lemma closing_wp reviewID sp status uid name reason t d s rr rr' current e :
  catalog_kept d (db s) → groups (db s) = groups d →
  reviews (db s) = <[reviewID := rr']> (reviews d) → rr_status rr' = status →
  status ≠ Pending → status ≠ Approved → same_submission rr rr' →
  reviews d !! reviewID = Some rr → rr_status rr = Pending → rr_space_id rr = sp →
  plugins d !! rr_plugin_id rr = Some current → SpaceID current = Some sp →
  DeletedAt current = None →
  wp (finishVisibilityGroup reviewID sp status uid name reason t;;
      retained ← retainedAttachmentKeys (ID current) (AttachmentKeys current);
      mret (rr_attachment_keys rr, retained)) e s
    (λ keys s', closing reviewID sp status d (db s') keys rr current).
Proof.
  intros Hcat Hg Hrr' Hst Hne Hna Hsub Hrr Hp Hsp Hcur Hs Hd. apply wp_bind.
  eapply wp_mono; [apply wp_and; [by apply (finishVisibilityGroup_wp reviewID sp status)|
    by apply (finishVisibilityGroup_changes [KClose])]|].
  simpl. intros _ s1 [Hgr Hc].
  unfold retainedAttachmentKeys. apply wp_bind, wp_query, wp_ret.
  assert (catalog_kept d (db s1)) as Hcat1 by (etrans; [done|]; by eapply changes_catalog).
  assert (∀ id, id ≠ reviewID → reviews (db s) !! id = reviews d !! id) as Hkeep.
  { intros id Hid. rewrite Hrr'. by rewrite lookup_insert_ne by congruence. }
  assert (∀ id, id ≠ reviewID → in_visibility_group (db s) reviewID id ↔ in_visibility_group d reviewID id) as Hgroup.
  { intros id Hid. unfold in_visibility_group. by rewrite Hg, Hkeep. }
  split; simpl; try done.
  - exists rr'. split; [|done]. eapply changes_decided; [done|by rewrite Hrr', lookup_insert_eq|]. congruence.
  - intros id Hid Hin%Hgroup; [|done]. apply (Hgr id Hid) in Hin. unfold settled_with in *. by rewrite <-Hkeep.
  - intros id Hid Hno. rewrite <-Hkeep by done. apply (Hgr id Hid). by rewrite Hgroup.
  - intros k. rewrite retained_keys_spec.
    rewrite (versions_of_kept _ d) by apply Hcat1. done.
Qed.

(** A committed rejection closes the pending request of the reviewer's
    Space as rejected, leaves the catalog (plugins, relations, versions,
    placements) untouched, and reports as retained exactly the storage keys the
    plugin's live sidecar and version rows still reference. *)
Lemma rejection_leaves_catalog scope p e d keys d' :
  RejectReview scope p e d = (Ok keys, d') →
  ∃ rr current, closing (ReviewID p) (ScopeSpaceID scope) Rejected d d' keys rr current.
Proof.
  intros Hrun.
  apply (transact_ok _ _ _ _ _ (λ a x, ∃ rr current,
    closing (ReviewID p) (ScopeSpaceID scope) Rejected d x a rr current) Hrun).
  clear Hrun d' keys. unfold rejectInTx, rejectBody.
  apply wp_bind; wp_step. apply wp_bind.
  eapply (wp_evolves (changes [KReceipt])); [evolve|]. simpl. intros _ s1 Hc1.
  apply wp_bind, lockPendingReview_wp. rewrite (reviews_kept _ _ _ Hc1 eq_refl). simpl.
  intros rr Hrr Hpend Hdel Hsp.
  apply wp_bind, getReviewed_wp. simpl. rewrite (plugins_kept _ _ _ Hc1 eq_refl). simpl.
  intros current Hcur Hspc _ Hlive.
  apply wp_bind. eapply (wp_evolves eq); [evolve|]. simpl. intros t1 s2 Hs2.
  apply wp_bind, wp_execN. intros n d2.
  rewrite (update_review_row _ _ _ _ rr); [|by rewrite <-Hs2, (reviews_kept _ _ _ Hc1 eq_refl)|done].
  intros [= <- <-]. apply wp_bind. eapply (wp_evolves eq); [evolve|]. simpl. intros _ s3 Hs3.
  apply wp_bind. eapply wp_mono; [apply insertAudit_wp|]. simpl. intros _ s4 H4.
  eapply wp_mono; [apply (closing_wp (ReviewID p) (ScopeSpaceID scope) Rejected _ _ _ _ d _ rr
    (settle Rejected p (Some (Reason p)) t1 rr) current)|simpl; intros keys s' Hcl; by exists rr, current]; try done.
  - etrans; [by eapply changes_catalog|]. rewrite Hs2. etrans; [|by eapply changes_catalog].
    rewrite <-Hs3. done.
  - by rewrite (groups_kept _ _ _ H4), <-Hs3; simpl; rewrite <-Hs2, (groups_kept _ _ _ Hc1).
  - by rewrite (reviews_kept _ _ _ H4 eq_refl), <-Hs3; simpl; rewrite <-Hs2, (reviews_kept _ _ _ Hc1 eq_refl).
Qed.

(** A committed withdrawal is made by the applicant, closes the pending
    request as canceled, leaves the catalog untouched and reports exactly the
    storage keys still referenced. *)
Lemma withdrawal_leaves_catalog scope id uid e d keys d' :
  CancelReview scope id uid e d = (Ok keys, d') →
  ∃ rr current, rr_applicant_uid rr = uid
    ∧ closing id (ScopeSpaceID scope) Canceled d d' keys rr current.
Proof.
  intros Hrun.
  apply (transact_ok _ _ _ _ _ (λ a x, ∃ rr current, rr_applicant_uid rr = uid
    ∧ closing id (ScopeSpaceID scope) Canceled d x a rr current) Hrun).
  clear Hrun d' keys. unfold cancelInTx. apply wp_bind, wp_query. simpl. unfold find_review.
  destruct (reviews d !! id) as [rr|] eqn:Hrr; simpl; [|done].
  destruct (_ && _) eqn:HP; simpl; [|done]. unfold rr_in_space, rr_live in HP. bool_facts.
  apply String.eqb_eq in H0, H2. apply wp_bind, wp_require. intros Hpend. bool_facts.
  apply wp_bind, getReviewed_wp. simpl. intros current Hcur Hspc _ Hlive.
  apply wp_bind; wp_step. apply wp_bind, wp_execN. intros n d2.
  rewrite (update_review_row _ _ _ _ rr); [|done|].
  2:{ unfold rr_in_space, rr_live. by rewrite H0, H2, !String.eqb_refl, !bool_decide_true. }
  intros [= <- <-]. apply wp_bind. eapply (wp_evolves eq); [evolve|]. simpl. intros _ s3 Hs3.
  eapply wp_mono; [apply (closing_wp id (ScopeSpaceID scope) Canceled _ _ _ _ d _ rr
    (set_rr_status Canceled (set_rr_reviewed_at (Some t) (set_rr_updated_at t rr))) current)|simpl; intros keys s' Hcl; by exists rr, current];
    try done.
  - by rewrite <-Hs3.
  - by rewrite <-Hs3.
  - by rewrite <-Hs3.
Qed.

End Decisions.
