(* ===== verification/Settlement.v ===== *)
(** * How a decision settles a request, and its receipt

    What ApproveReview and RejectReview leave in the request's row and in the
    table of card-action receipts, stated for the service layer: one decision,
    one settled row, and the receipt in the same transaction. *)

From S2P Require Import Prelude GoStrings Version Model Store Rows RowWrites Write Review Listing Changes Operations Children Lifecycle Decisions.
Import Go.
Local Open Scope string_scope.

Section Settlement.
Context `{Host}.

Definition receipts_kept (d d' : Db) : Prop := receipts d' = receipts d.

Lemma changes_receipts K d d' :
  changes K d d' → mem KReceipt K = false → receipts_kept d d'.
Proof.
  intros Hc HK. apply mem_false in HK. assert (PreOrder receipts_kept) as Hpre.
  { split; [done|]. intros x y z. unfold receipts_kept. congruence. }
  eapply (changes_rel receipts_kept); [|exact Hc]. intros k x y Hk Hxy.
  destruct Hxy; done.
Qed.

(** The table of receipts after the claim of [rec]. *)
Definition claimed (rec : option CardActionReceipt) (reviewID decision : string) (d d' : Db) : Prop :=
  match rec with
  | None => receipts d' = receipts d
  | Some rec =>
      receipts d !! EventID rec = None
      ∧ ∃ t, receipts d' = <[EventID rec := mkReceipt (EventID rec) reviewID decision
                                              (StoredResponse rec) t]> (receipts d)
  end.

Lemma claim_exact rec id dec src t e s :
  wp (claimCardActionReceipt rec id dec src t) e s (λ _ s',
    claimed rec id dec (db s) (db s') ∧ plugins (db s') = plugins (db s)
    ∧ reviews (db s') = reviews (db s) ∧ (rec ≠ None → src = Some SourceIM)).
Proof.
  destruct rec as [rec|]; [|by apply wp_ret]. unfold claimCardActionReceipt.
  apply wp_bind, wp_require. intros Hg. bool_facts.
  apply wp_catch; [|intros err; by case_match]. unfold insertCardActionReceipt.
  apply wp_catch; [|intros err; by repeat case_match]. apply wp_execE. intros d.
  unfold insert_receipt. simpl. case_match eqn:Hr; [done|]. intros [= <-]. simpl.
  repeat match goal with E : String.eqb _ _ = true |- _ => apply String.eqb_eq in E end.
  subst. split_and!; try done. by eexists.
Qed.

(** The reason a decision stores. *)
Definition decision_reason (status : ReviewStatus) (p : DecisionParams) : option string :=
  match status with Rejected => Some (Reason p) | _ => None end.

(** A committed decision: the request was pending in the reviewer's Space and
    its row is settled by [p]; the receipt, if any, was claimed with it. *)
Record settles (decision : string) (status : ReviewStatus) (scope : Scope) (p : DecisionParams)
    (d d' : Db) (rr : ReviewRow) : Prop := {
  se_request : reviews d !! ReviewID p = Some rr;
  se_pending : rr_status rr = Pending;
  se_space : rr_space_id rr = ScopeSpaceID scope;
  se_row : ∃ t, reviews d' !! ReviewID p = Some (settle status p (decision_reason status p) t rr);
  se_claim : claimed (CardReceipt p) (ReviewID p) decision d d';
  se_source : CardReceipt p ≠ None → DecisionSource p = Some SourceIM
}.

Lemma approveFinish_settles p current rr rels t e s :
  reviews (db s) !! ReviewID p = Some rr →
  wp (approveFinish p current rr rels t) e s (λ _ s',
    reviews (db s') !! ReviewID p = Some (settle Approved p None t rr)).
Proof.
  intros Hr. unfold approveFinish. cbv zeta. apply wp_bind.
  eapply (wp_evolves (changes [KVersion; KQuiet])); [evolve|]. intros _ s1 H1.
  apply wp_bind, wp_execN. intros n d1.
  rewrite (update_review_row _ _ _ _ rr); [|by rewrite (reviews_kept _ _ _ H1 eq_refl)|done].
  intros [= <- <-]. apply wp_bind. eapply (wp_evolves eq); [evolve|]. simpl. intros _ s2 Hs2.
  eapply wp_mono; [apply insertAudit_wp|]. simpl. intros _ s3 H3.
  rewrite (reviews_kept _ _ _ H3 eq_refl), <-Hs2. simpl. by rewrite lookup_insert_eq.
Qed.

#[local] Hint Resolve applyApprovedSnapshot_changes : evolve.

Lemma approveBody_settles scope p e s :
  wp (approveBody scope p) e s (λ _ s', ∃ rr t,
    reviews (db s) !! ReviewID p = Some rr ∧ rr_status rr = Pending
    ∧ rr_space_id rr = ScopeSpaceID scope
    ∧ reviews (db s') !! ReviewID p = Some (settle Approved p None t rr)).
Proof.
  unfold approveBody. apply wp_bind, lockPendingReview_wp. intros rr Hrr Hpend _ Hsp.
  apply wp_bind, getReviewed_wp. simpl. intros current _ _ _ _.
  apply wp_bind. eapply wp_mono; [apply approveGuards_wp|]. simpl.
  intros _ s1 (Hs & _). assert (changes approve_pre (db s) (db s1)) as Hc by (by rewrite Hs).
  do 8 pass Hc.
  apply wp_bind. eapply wp_mono.
  { apply (approveFinish_settles _ _ rr). by rewrite (reviews_kept _ _ _ Hc eq_refl). }
  simpl. intros _ s2' Hr2. eapply (wp_evolves eq); [evolve|]. simpl. intros _ s3' <-.
  by exists rr, a.
Qed.

Lemma rejectBody_settles scope p e s :
  wp (rejectBody scope p) e s (λ _ s', ∃ rr t,
    reviews (db s) !! ReviewID p = Some rr ∧ rr_status rr = Pending
    ∧ rr_space_id rr = ScopeSpaceID scope
    ∧ reviews (db s') !! ReviewID p = Some (settle Rejected p (Some (Reason p)) t rr)).
Proof.
  unfold rejectBody. apply wp_bind, lockPendingReview_wp. intros rr Hrr Hpend _ Hsp.
  apply wp_bind, getReviewed_wp. simpl. intros current _ _ _ _.
  apply wp_bind. eapply (wp_evolves eq); [evolve|]. simpl. intros t s1 Hs1.
  apply wp_bind, wp_execN. intros n d1.
  rewrite (update_review_row _ _ _ _ rr); [|by rewrite <-Hs1|done]. intros [= <- <-].
  apply wp_bind. eapply (wp_evolves eq); [evolve|]. simpl. intros _ s2 Hs2.
  assert (changes [KClose; KAudit] (db s2) (db s2)) as Hc by done.
  do 2 pass Hc; [by apply finishVisibilityGroup_changes|]. pass Hc.
  apply wp_ret. exists rr, t. split_and!; try done.
  refine (changes_decided _ _ _ Hc _ (settle Rejected p (Some (Reason p)) t rr) _ _);
    [|by rewrite settle_status].
  by rewrite <-Hs2; simpl; rewrite lookup_insert_eq.
Qed.

Lemma claimed_then K rec id dec d d1 d2 :
  claimed rec id dec d d1 → changes K d1 d2 → mem KReceipt K = false → claimed rec id dec d d2.
Proof.
  intros Hc Hk HK. pose proof (changes_receipts _ _ _ Hk HK) as Hr. unfold receipts_kept in Hr.
  destruct rec; simpl in *; [|congruence]. destruct Hc as [? (t & Ht)]. split; [done|].
  exists t. congruence.
Qed.

Lemma decision_settles decision status scope p {A} (body : Tx A) K e d a d' :
  transact (t0 ← now; claimCardActionReceipt (CardReceipt p) (ReviewID p) decision (DecisionSource p) t0;;
            body) e d = (Ok a, d') →
  evolves (changes K) body → mem KReceipt K = false →
  (∀ s, wp body e s (λ _ s', ∃ rr t,
    reviews (db s) !! ReviewID p = Some rr ∧ rr_status rr = Pending
    ∧ rr_space_id rr = ScopeSpaceID scope
    ∧ reviews (db s') !! ReviewID p = Some (settle status p (decision_reason status p) t rr))) →
  ∃ rr, settles decision status scope p d d' rr.
Proof.
  intros Hrun Hb HK Hbody.
  apply (transact_ok _ _ _ _ _ (λ _ x, ∃ rr, settles decision status scope p d x rr) Hrun).
  apply wp_bind; wp_step. apply wp_bind. eapply wp_mono; [apply claim_exact|]. simpl.
  intros _ s1 (Hcl & _ & Hrev & Hsrc). eapply wp_mono; [apply wp_and; [apply Hbody|apply Hb]|].
  simpl. intros _ s2 [(rr & tm & Hrr & Hp & Hsp & Hset) Hch].
  exists rr. split; [by rewrite <-Hrev|done|done|eauto|by eapply claimed_then|done].
Qed.

Lemma approve_settles scope p e d plugin d' :
  ApproveReview scope p e d = (Ok plugin, d') → ∃ rr, settles "approve" Approved scope p d d' rr.
Proof.
  intros Hrun. eapply (decision_settles _ _ _ _ (approveBody scope p) approve_body_kinds); [exact Hrun| |done|].
  - apply approveBody_changes.
  - intros s. apply approveBody_settles.
Qed.

Lemma reject_settles scope p e d keys d' :
  RejectReview scope p e d = (Ok keys, d') → ∃ rr, settles "deny" Rejected scope p d d' rr.
Proof.
  intros Hrun. eapply (decision_settles _ _ _ _ (rejectBody scope p) decide_body_kinds); [exact Hrun| |done|].
  - apply rejectBody_changes.
  - intros s. apply rejectBody_settles.
Qed.

End Settlement.
