(* ===== verification/Outcomes.v ===== *)
(** * Outcomes of submission, publication, takedown, editing and deletion

    Card-action idempotence and the functional behaviour of InsertReviewRequest, PublishPlugin, DelistPlugin,
    Update and Delete on success. *)

From S2P Require Import Prelude GoStrings Version Model Store Rows RowWrites Write Review Listing Changes Operations Sync Children Lifecycle Decisions.
Import Go.
Local Open Scope string_scope.

Section Outcomes.
Context `{Host}.

(** ** Card actions *)

Lemma claim_wp rec id dec src t e s :
  wp (claimCardActionReceipt (Some rec) id dec src t) e s (λ _ s',
    receipts (db s) !! EventID rec = None ∧ is_Some (receipts (db s') !! EventID rec)).
Proof.
  unfold claimCardActionReceipt, insertCardActionReceipt. apply wp_bind; wp_step.
  apply wp_catch; [|intros err; by case_match]. apply wp_catch; [|intros err; by repeat case_match].
  apply wp_execE. intros d. unfold insert_receipt. simpl. case_match eqn:Hr; [done|].
  intros [= <-]. simpl. by rewrite lookup_insert_eq.
Qed.

(** A decision that claims an event finds it unclaimed and leaves it claimed. *)
Lemma claimed_wp K rec id dec src {A} (body : Tx A) e d :
  evolves (changes K) body →
  wp (t0 ← now; claimCardActionReceipt (Some rec) id dec src t0;; body) e (mkSt 1 d)
    (λ _ s', receipts d !! EventID rec = None ∧ is_Some (receipts (db s') !! EventID rec)).
Proof.
  intros Hb. apply wp_bind; wp_step. apply wp_bind. eapply wp_mono; [apply claim_wp|].
  simpl. intros _ s [Hn [r Hr]]. eapply wp_evolves; [exact Hb|]. simpl. intros a s' Hc.
  split; [done|]. exists r. eapply lookup_weaken; [exact Hr|].
  eapply (changes_rel append_only); [|exact Hc]. intros k x y _. apply change_appends.
Qed.

(** The event of [p] is already on record. *)
Definition event_claimed (p : DecisionParams) (d : Db) : Prop :=
  ∃ rec, CardReceipt p = Some rec ∧ is_Some (receipts d !! EventID rec).

Lemma claimed_refused scope p e d :
  event_claimed p d →
  (∃ err, ApproveReview scope p e d = (Error err, d))
  ∧ (∃ err, RejectReview scope p e d = (Error err, d)).
Proof.
  intros (rec & Hc & [r Hr]). split.
  - destruct (ApproveReview scope p e d) as [[a|err] d'] eqn:E.
    + exfalso. unfold ApproveReview, approveInTx in E. rewrite Hc in E.
      apply (transact_ok _ _ _ _ _ (λ _ _, False) E).
      eapply wp_mono; [apply (claimed_wp _ _ _ _ _ _ _ _ (approveBody_changes scope p))|].
      simpl. intros ?? [Hn _]. congruence.
    + by rewrite (transact_error _ _ _ _ _ E); eauto.
  - destruct (RejectReview scope p e d) as [[a|err] d'] eqn:E.
    + exfalso. unfold RejectReview, rejectInTx in E. rewrite Hc in E.
      apply (transact_ok _ _ _ _ _ (λ _ _, False) E).
      eapply wp_mono; [apply (claimed_wp _ _ _ _ _ _ _ _ (rejectBody_changes scope p))|].
      simpl. intros ?? [Hn _]. congruence.
    + by rewrite (transact_error _ _ _ _ _ E); eauto.
Qed.

Lemma success_claims scope p rec e d d' :
  CardReceipt p = Some rec →
  (∃ a, ApproveReview scope p e d = (Ok a, d')) ∨ (∃ a, RejectReview scope p e d = (Ok a, d')) →
  is_Some (receipts d' !! EventID rec).
Proof.
  intros Hc [[a E]|[a E]].
  - unfold ApproveReview, approveInTx in E. rewrite Hc in E.
    apply (transact_ok _ _ _ _ _ (λ _ x, is_Some (receipts x !! EventID rec)) E).
    eapply wp_mono; [apply (claimed_wp _ _ _ _ _ _ _ _ (approveBody_changes scope p))|].
    by intros ?? [_ ?].
  - unfold RejectReview, rejectInTx in E. rewrite Hc in E.
    apply (transact_ok _ _ _ _ _ (λ _ x, is_Some (receipts x !! EventID rec)) E).
    eapply wp_mono; [apply (claimed_wp _ _ _ _ _ _ _ _ (rejectBody_changes scope p))|].
    by intros ?? [_ ?].
Qed.

(** A card action decides at most once. After a decision committed with the
    receipt of an event, whatever operations follow, any decision carrying the
    same event is refused and changes nothing. *)
Theorem card_event_decides_once scope p rec e d d1 d2 scope2 p2 rec2 e2 :
  CardReceipt p = Some rec →
  (∃ a, ApproveReview scope p e d = (Ok a, d1)) ∨ (∃ a, RejectReview scope p e d = (Ok a, d1)) →
  steps d1 d2 →
  CardReceipt p2 = Some rec2 → EventID rec2 = EventID rec →
  (∃ err, ApproveReview scope2 p2 e2 d2 = (Error err, d2))
  ∧ (∃ err, RejectReview scope2 p2 e2 d2 = (Error err, d2)).
Proof.
  intros Hc Hok Hsteps Hc2 Hev. apply claimed_refused. exists rec2. split; [done|].
  destruct (success_claims _ _ _ _ _ _ Hc Hok) as [r Hr]. exists r. rewrite Hev.
  eapply lookup_weaken; [exact Hr|].
  revert Hsteps. generalize d1 d2. clear. intros d1 d2 Hs.
  enough (append_only d1 d2) as (_ & _ & ?) by done.
  revert Hs. apply steps_rel; [apply _|]. apply change_appends.
Qed.

(** ** Takedown *)

(** A row of the Space that takedown reaches is no longer published. *)
Definition unpublished (sp c : string) (s : St) : Prop :=
  ∀ q, plugins (db s) !! c = Some q → SpaceID q = Some sp → IsEmbedded q = true →
    DeletedAt q = None → ListingState q ≠ Published.

(** Rows that are not embedded are untouched, and edges too. *)
Definition containers_kept (d d' : Db) : Prop :=
  same_graph d d' ∧ reviews d' = reviews d
  ∧ ∀ id p, plugins d !! id = Some p → IsEmbedded p = false → plugins d' !! id = Some p.
#[export] Instance containers_kept_preorder : PreOrder containers_kept.
Proof.
  split; [done|]. intros x y z [[H1 H2] [H3 H4]] [[H5 H6] [H7 H8]].
  split; [split; [congruence|intros r; by rewrite H6]|]. split; [congruence|auto].
Qed.

Lemma demote_one_wp sp t id e s :
  wp (execN (update_plugin id (λ p, in_space sp p && IsEmbedded p
        && bool_decide (ListingState p = Published) && not_deleted p)
        (λ p, set_ListingState Delisted (set_UpdatedAt t p)))) e s
    (λ _ s', containers_kept (db s) (db s') ∧ unpublished sp id s'
             ∧ ∀ y, unpublished sp y s → unpublished sp y s').
Proof.
  apply wp_execN. intros n d. unfold update_plugin, unpublished. simpl.
  destruct (plugins (db s) !! id) as [p|] eqn:Hp.
  2:{ intros [= _ <-]. split_and!; try done. intros q Hq. congruence. }
  destruct (_ && _) eqn:HP; intros [= _ <-]; simpl.
  - bool_facts. split_and!.
    + split; [by apply (same_graph_update _ _ p)|]. split; [done|].
      intros i q Hq He. simpl. rewrite lookup_insert_ne; [done|]. naive_solver congruence.
    + intros q. rewrite lookup_insert_eq. by intros [= <-].
    + intros y Hy q. rewrite lookup_insert_Some. intros [[<- <-]|[_ Hq]]; [done|by apply Hy].
  - split_and!; try done. intros q Hq Hs He Hd. rewrite Hp in Hq. injection Hq as <-. unfold in_space, not_deleted in HP.
    rewrite He, (bool_decide_true (SpaceID p = Some sp)), (bool_decide_true (DeletedAt p = None)) in HP
      by done. rewrite andb_true_r in HP. simpl in HP. by bool_facts.
Qed.

Lemma demote_wp id ty sp t e s :
  wp (demoteEmbeddedChildren id ty sp t) e s (λ _ s', containers_kept (db s) (db s')
    ∧ ∀ c, c ∈ children id ty (db s) → unpublished sp c s').
Proof.
  unfold demoteEmbeddedChildren. apply wp_bind. eapply wp_mono; [apply collect_wp|].
  simpl. intros l s1 [-> Hs1].
  eapply wp_mono; [apply (wp_for_each_all _ _ _ _ (λ s', containers_kept (db s) (db s'))
                            (λ c s', unpublished sp c s'))|].
  - by rewrite Hs1.
  - intros x s2 H2. apply wp_bind. eapply wp_mono; [apply demote_one_wp|]. simpl.
    intros _ s3 (H3 & Hx & Hk). apply wp_ret. split_and!; [by etrans|done|done].
  - simpl. intros _ s2 (H2 & Hall & _). auto.
Qed.

Lemma cancel_open_none t pid o n r d : pending_exists pid (cancel_open t pid o n r d) = false.
Proof.
  apply pending_exists_false. intros i x. simpl. rewrite lookup_fmap.
  destruct (reviews d !! i) as [y|]; simpl; [|done]. intros [= <-].
  destruct (rr_open pid y) eqn:Ho; [|done].
  apply not_true_iff_false. rewrite rr_open_true. intros (_ & Hs & _). by destruct y.
Qed.

(** A committed takedown applies to a listed, standalone organization
    plugin of the Space; it changes nothing of that row but the listing state
    (now delisted) and the time, leaves no open request on it, takes its
    embedded children off the market with it, and keeps every version. *)
Theorem takedown_delists scope p e d plugin d' :
  DelistPlugin scope p e d = (Ok plugin, d') →
  ∃ current t, plugins d !! del_plugin_id p = Some current
    ∧ SpaceID current = Some (ScopeSpaceID scope) ∧ listed current = true
    ∧ IsEmbedded current = false ∧ DeletedAt current = None
    ∧ plugin = set_ListingState Delisted (set_UpdatedAt t current)
    ∧ plugins d' !! del_plugin_id p = Some plugin
    ∧ pending_exists (del_plugin_id p) d' = false
    ∧ versions d' = versions d
    ∧ ∀ c q, c ∈ children (del_plugin_id p) (Type_ current) d → plugins d' !! c = Some q →
        SpaceID q = Some (ScopeSpaceID scope) → DeletedAt q = None → ListingState q ≠ Published.
Proof.
  intros Hrun.
  assert (versions d' = versions d) as Hv.
  { pose proof (transact_evolves (changes _) _ e d (delistInTx_changes scope p)) as Hc.
    replace d' with (DelistPlugin scope p e d).2 by by rewrite Hrun.
    exact (versions_kept _ _ _ Hc eq_refl). }
  assert (plugins_persist d d') as Hpers.
  { replace d' with (DelistPlugin scope p e d).2 by by rewrite Hrun.
    apply (transact_evolves plugins_persist). eapply evolves_mono, delistInTx_changes.
    intros x y. apply changes_rel; [apply _|]. intros k u v _. apply change_plugins. }
  revert Hpers Hv.
  apply (transact_ok _ _ _ _ _ (λ a x, plugins_persist d x → versions x = versions d → ∃ current t, _) Hrun).
  clear Hrun d' plugin. unfold delistInTx.
  apply wp_bind, getReviewed_wp. simpl. intros current Hcur Hsp _ Hlive.
  apply wp_bind, wp_require. intros He. apply wp_bind, wp_require. intros Hvis. bool_facts.
  apply wp_bind; wp_step. apply wp_bind, wp_execN. intros n d1. simpl. unfold update_plugin.
  rewrite Hcur. destruct (_ && _) eqn:HP; intros [= <- <-].
  2:{ apply wp_bind. unfold mustChangeState. by wp_step. }
  bool_facts. apply wp_bind. eapply (wp_evolves eq); [evolve|]. simpl. intros _ s1 Hs1.
  apply wp_bind. eapply wp_mono; [apply demote_wp|]. simpl. intros _ s2 [(Hg2 & _ & Hk2) Hch].
  apply wp_bind, wp_exec. apply wp_bind. eapply wp_mono; [apply insertAudit_wp|].
  simpl. intros _ s3 Hc3.
  assert (plugins (db s3) = plugins (db s2)) as Hp3 by by rewrite (plugins_kept _ _ _ Hc3 eq_refl).
  apply getReviewed_wp. simpl. rewrite Hp3.
  rewrite (Hk2 (del_plugin_id p) (set_ListingState Delisted (set_UpdatedAt t current))); 
    [|by rewrite <-Hs1; simpl; rewrite lookup_insert_eq|done].
  intros q [= <-] _ _ _ Hpers Hv. exists current, t. split_and!; try done.
  - unfold listed. by rewrite !bool_decide_true.
  - unfold pending_exists. rewrite (reviews_kept _ _ _ Hc3 eq_refl). apply cancel_open_none.
  - intros c q Hc Hq Hs Hdel. destruct (children_live _ _ _ _ Hc) as (q0 & Hq0 & Hem & Hl).
    destruct (Hpers _ _ Hq0) as (q' & Hq' & Hid & _). rewrite Hp3 in Hq'. simplify_eq.
    apply (Hch c); try done; [|by destruct Hid as (_ & -> & _)].
    rewrite <-Hs1. erewrite children_kept; [exact Hc|]. by apply (same_graph_update _ _ current).
Qed.

(** ** Submission *)

(** The row a submission stores: the frozen content and the applicant's label. *)
Definition freezes (req : SubmitRequest) (snap : FrozenSnapshot) (row : ReviewRow) : Prop :=
  rr_plugin_id row = sub_plugin_id req ∧ rr_space_id row = sub_space_id req
  ∧ rr_status row = Pending ∧ rr_deleted_at row = None ∧ rr_version row = sub_version req
  ∧ rr_manifest row = fs_manifest snap ∧ rr_package row = fs_package snap
  ∧ rr_attachment_keys row = fs_attachment_keys snap
  ∧ rr_relations row = EncodeSnapshotRelations (fs_relations snap)
  ∧ rr_manifest_hash row = fs_manifest_hash snap ∧ rr_plugin_hash row = fs_plugin_hash snap
  ∧ rr_applicant_uid row = sub_applicant_uid req.

(** A committed submission stores one new pending request with the frozen
    content and changes nothing else. The plugin is the submitter's, alive and
    reviewable; the label does not regress and was never published; no request
    was open; an upgrade of a published plugin declared its own content; and the
    kind recorded is upgrade exactly for a published plugin. *)
Theorem submission_freezes scope req snap e d row d' :
  InsertReviewRequest scope req snap e d = (Ok row, d') →
  ∃ current, plugins d !! sub_plugin_id req = Some current
    ∧ owned_by scope current = true ∧ DeletedAt current = None ∧ reviewable current = true
    ∧ not_regressed_from (CurrentVersion current) (sub_version req) = true
    ∧ (sub_version req ∉ publishedLabels (sub_plugin_id req) current d)
    ∧ pending_exists (sub_plugin_id req) d = false
    ∧ (ListingState current = Published → fs_declared_content snap = true)
    ∧ (rr_kind row = KindUpgrade ↔ ListingState current = Published)
    ∧ freezes req snap row
    ∧ reviews d !! rr_id row = None
    ∧ d' = set_reviews (<[rr_id row := row]> (reviews d)) d.
Proof.
  intros Hrun. apply (transact_ok _ _ _ _ _ (λ row d', ∃ current, _) Hrun). clear Hrun row d'.
  unfold insertReviewInTx. apply wp_bind, getOwned_wp. simpl. intros current Hcur Hown _ Hlive.
  do 4 (apply wp_bind; wp_step). unfold publishedVersionLabels, checkPendingReview.
  apply wp_bind, wp_query. apply wp_bind; wp_step. apply wp_bind, wp_bind, wp_query; wp_step.
  do 2 (apply wp_bind; wp_step). simpl.
  apply wp_bind, wp_catch; [|by intros]. apply wp_execE. intros d1 Hins. apply wp_ret.
  pose proof (insert_review_shape _ _ _ Hins) as ->. simpl in *.
  exists current. bool_facts. split_and!; try done.
  - by apply mem_false.
  - intros Hp. rewrite (bool_decide_true _ Hp), orb_false_r in H2. done.
  - case_decide; naive_solver.
  - unfold insert_review in Hins. simpl in Hins. by case_match.
Qed.

(** ** Publication of a private plugin *)

(** A committed publication is the owner's, of a private plugin that was
    not published and has no open request; it changes only the listing state
    (and time) of the row, which stays private and so is not listed to the
    organization, and gives it a visible placement. *)
Theorem publication_stays_private scope p e d plugin d' :
  (∀ n, placements d !! ids e n = None) →
  PublishPlugin scope p e d = (Ok plugin, d') →
  ∃ current t, plugins d !! pub_plugin_id p = Some current
    ∧ OwnerUID current = CallerUID scope ∧ SpaceID current = Some (ScopeSpaceID scope)
    ∧ Visibility current = VPrivate ∧ ListingState current ≠ Published
    ∧ pending_exists (pub_plugin_id p) d = false
    ∧ plugin = set_ListingState Published (set_UpdatedAt t current)
    ∧ listed plugin = false
    ∧ plugins d' = <[pub_plugin_id p := plugin]> (plugins d)
    ∧ placed (pub_plugin_id p) d' ∧ reviews d' = reviews d ∧ versions d' = versions d.
Proof.
  intros Hfresh Hrun. apply (transact_ok _ _ _ _ _ (λ plugin d', ∃ current t, _) Hrun).
  clear Hrun plugin d'. unfold publishInTx.
  apply wp_bind, getOwned_wp. simpl. intros current Hcur Hown _ Hlive.
  do 3 (apply wp_bind; wp_step). unfold checkPendingReview.
  apply wp_bind, wp_bind, wp_query; wp_step. apply wp_bind, wp_execN. intros n d1.
  unfold update_plugin. simpl in *. rewrite Hcur.
  destruct (_ && _) eqn:HP; intros [= <- <-].
  2:{ apply wp_bind. unfold mustChangeState. by wp_step. }
  unfold in_space in HP. bool_facts. apply String.eqb_eq in H3.
  apply wp_bind. eapply (wp_evolves eq); [evolve|]. simpl. intros _ s1 Hs1.
  apply wp_bind. eapply wp_mono.
  { apply wp_and; [apply ensureVisible_wp|apply (ensureVisibleDefaultPlacement_changes [KPlace]); done].
    by rewrite <-Hs1. }
  simpl. intros _ s2 [Hpl Hc2]. apply wp_bind. eapply wp_mono; [apply insertAudit_wp|].
  simpl. intros _ s3 Hc3.
  assert (plugins (db s3) = <[pub_plugin_id p := set_ListingState Published (set_UpdatedAt t current)]>
            (plugins d)) as Hp3.
  { by rewrite (plugins_kept _ _ _ Hc3 eq_refl), (plugins_kept _ _ _ Hc2 eq_refl), <-Hs1. }
  apply getOwned_wp. simpl. rewrite Hp3, lookup_insert_eq. intros q [= <-] _ _ _.
  exists current, t. split_and!; try done.
  - unfold listed. simpl. rewrite (bool_decide_false (Visibility current = VSpace)) by congruence. done.
  - unfold placed in *. by rewrite (placements_kept _ _ _ Hc3 eq_refl).
  - by rewrite (reviews_kept _ _ _ Hc3 eq_refl), (reviews_kept _ _ _ Hc2 eq_refl), <-Hs1.
  - by rewrite (versions_kept _ _ _ Hc3 eq_refl), (versions_kept _ _ _ Hc2 eq_refl), <-Hs1.
Qed.

(** ** Saving a draft *)

(** The columns a save writes. *)
Definition content_view (p : Plugin) :=
  (Name p, Tags p, Manifest p, Package p, AttachmentKeys p, ManifestHash p, PluginHash p,
   CategoryID p, Icon p, Publisher p, Visibility p, ListingState p, DeletedAt p,
   (OwnerUID p, SpaceID p, Type_ p, IsEmbedded p)).

Definition contents_kept (d d' : Db) : Prop := content_view <$> plugins d' = content_view <$> plugins d.
#[export] Instance contents_kept_preorder : PreOrder contents_kept.
Proof. unfold contents_kept. split; [done|]. intros x y z; congruence. Qed.

Lemma contents_row d d' c q :
  contents_kept d d' → plugins d !! c = Some q →
  ∃ q', plugins d' !! c = Some q' ∧ content_view q' = content_view q.
Proof.
  intros Hv Hq. assert ((content_view <$> plugins d') !! c = Some (content_view q)) as Hc.
  { rewrite Hv, lookup_fmap, Hq. done. }
  rewrite lookup_fmap in Hc. destruct (plugins d' !! c) as [q0|]; simpl in Hc; [|done].
  exists q0. split; [done|]. congruence.
Qed.

Lemma snapshotVersion_contents t p rels c b : evolves contents_kept (snapshotVersion t p rels c b).
Proof.
  assert (∀ id f, (∀ q, content_view (f q) = content_view q) →
            evolves contents_kept (execN (update_plugin id not_deleted f))) as Hupd.
  { intros id f Hf. apply evolves_execN. intros d n d'. unfold update_plugin.
    destruct (plugins d !! id) as [q|] eqn:Hq; [|by intros [= _ <-]].
    case_match; intros [= _ <-]; [|done]. unfold contents_kept. simpl.
    rewrite fmap_insert, Hf. apply insert_id. by rewrite lookup_fmap, Hq. }
  unfold snapshotVersion. evolve; try (apply Hupd; by intros []).
  apply evolves_execE. intros d d'. unfold insert_version. repeat case_match; try done.
  by intros [= <-].
Qed.

Lemma evolves_contents K {A} (m : Tx A) :
  evolves (changes K) m → kinds_within K plugin_free = true → evolves contents_kept m.
Proof.
  intros Hm HK. eapply evolves_mono; [|exact Hm]. intros d d' Hc. unfold contents_kept.
  by rewrite (plugins_kept _ _ _ Hc HK).
Qed.

(** What the saved row holds. *)
Definition saved (m : Mutation) (before p' : Plugin) : Prop :=
  let p := MPlugin m in
  content_view p' = (Name p, Tags p, Manifest p, Package p, AttachmentKeys p, ManifestHash p,
    PluginHash p, CategoryID p, Icon p, Publisher p, Visibility p,
    (if bool_decide (ListingState before = Published)
        && negb (bool_decide (Visibility p = Visibility before))
     then Draft else ListingState before), None,
    (OwnerUID before, SpaceID before, Type_ p, IsEmbedded before)).

(** The checks a gated save passed on the locked row. *)
Lemma updateGuards_checks m before e s :
  wp (updateGuards m before) e s (λ _ _,
    (∀ rev, ExpectedDraftRevision m = Some rev → rev = PluginDraftRevision before)
    ∧ (RefusePendingReview m = true → pending_exists (ID (MPlugin m)) (db s) = false)
    ∧ (EnforceForwardOnlyVersion m = true → ∀ cur nxt, CurrentVersion before = Some cur →
         CurrentVersion (MPlugin m) = Some nxt → VersionNotRegressed cur nxt = true)).
Proof.
  unfold updateGuards. cbv zeta. apply wp_bind; wp_step. apply wp_bind; wp_step.
  apply wp_bind. eapply (wp_mono _ _ _ (λ _ _,
    RefusePendingReview m = true → pending_exists (ID (MPlugin m)) (db s) = false)).
  { destruct (RefusePendingReview m); [|by apply wp_ret]. unfold checkPendingReview.
    apply wp_bind, wp_query; wp_step. bool_facts. done. }
  intros _ s1 Hpend. apply wp_bind; wp_step. apply wp_bind; wp_step. apply wp_ret.
  split_and!; [|done|].
  - intros rev Hrev. rewrite Hrev in H0. by apply String.eqb_eq.
  - intros Hf cur nxt Hc Hn. rewrite Hf, Hc, Hn in H3. simpl in H3. bool_facts. done.
Qed.

(** What [updateGuards] answers, with the listing gate and without. *)
Lemma updateGuards_reset m before e s :
  wp (updateGuards m before) e s (λ reset s', db s' = db s
    ∧ if EnforceListingGate m then listed before = false
        ∧ reset = bool_decide (ListingState before = Published)
                  && negb (bool_decide (Visibility (MPlugin m) = Visibility before))
      else reset = ResetListingToDraft m).
Proof.
  destruct (EnforceListingGate m) eqn:HG.
  - eapply wp_mono; [apply updateGuards_wp|]. naive_solver.
  - unfold updateGuards. cbv zeta. do 2 (apply wp_bind; wp_step).
    apply wp_bind. eapply (wp_evolves eq); [evolve|]. intros _ s1 Hs1.
    apply wp_bind; wp_step. apply wp_bind; wp_step. apply wp_ret. by rewrite HG.
Qed.

(** What the row of a committed save holds; [reset]: whether it returns to draft. *)
Definition saved_as (m : Mutation) (reset : bool) (before p' : Plugin) : Prop :=
  let p := MPlugin m in
  content_view p' = (Name p, Tags p, Manifest p, Package p, AttachmentKeys p, ManifestHash p,
    PluginHash p, CategoryID p, Icon p, Publisher p, Visibility p,
    (if reset then Draft else ListingState before), None,
    (OwnerUID before, SpaceID before, Type_ p, IsEmbedded before)).

(** A committed save, by a tenant or an administrator. *)
Lemma committed_save scope m e d sync d' :
  Update scope m e d = (Ok sync, d') →
  ∃ before p' reset, plugins d !! ID (MPlugin m) = Some before
    ∧ owned_by scope before = true ∧ Type_ (MPlugin m) = Type_ before
    ∧ (if EnforceListingGate m then listed before = false
         ∧ reset = bool_decide (ListingState before = Published)
                   && negb (bool_decide (Visibility (MPlugin m) = Visibility before))
       else reset = ResetListingToDraft m)
    ∧ (∀ rev, ExpectedDraftRevision m = Some rev → rev = PluginDraftRevision before)
    ∧ (RefusePendingReview m = true → pending_exists (ID (MPlugin m)) d = false)
    ∧ (EnforceForwardOnlyVersion m = true → ∀ cur nxt, CurrentVersion before = Some cur →
         CurrentVersion (MPlugin m) = Some nxt → VersionNotRegressed cur nxt = true)
    ∧ plugins d' !! ID (MPlugin m) = Some p' ∧ saved_as m reset before p'.
Proof.
  intros Hrun. apply (transact_ok _ _ _ _ _ (λ _ d', ∃ before p' reset, _) Hrun). clear Hrun sync d'.
  unfold updateInTx. apply wp_bind, getOwned_wp. simpl. intros before Hb Hown _ Hlive.
  apply wp_bind. eapply wp_mono; [apply wp_and; [apply updateGuards_reset|apply updateGuards_checks]|].
  simpl. intros reset s1 [[Hs1 Hg] (Hrev & Hpend & Hfwd)].
  apply wp_bind, wp_now. intros t. cbv zeta. apply wp_bind, wp_require. intros Hty%bool_decide_eq_true.
  do 3 (apply wp_bind; eapply (wp_evolves eq); [evolve|];
        let x := fresh "x" in let s' := fresh "s" in let E := fresh "E" in
        intros x s' E; simpl in E; rewrite E in *; clear E).
  apply wp_bind; eapply (wp_evolves eq); [evolve|]. intros [key ns] s9 Hs9.
  rewrite Hs1 in Hs9. apply wp_bind, wp_catch; [|by intros]. apply wp_execN. intros n d1.
  rewrite (update_plugin_row _ _ _ _ before).
  2:{ by rewrite <-Hs9. }
  2:{ unfold owned_where. by rewrite Hown, (proj2 (not_deleted_true before) Hlive). }
  intros [= _ <-].
  match goal with |- wp _ _ ?s _ => set (s10 := s) end.
  assert (∃ p', plugins (db s10) !! ID (MPlugin m) = Some p' ∧ saved_as m reset before p') as Hsaved.
  { eexists. unfold s10. simpl. rewrite lookup_insert_eq. split; [done|].
    unfold saved_as, content_view. destruct reset; simpl; by rewrite Hlive. }
  eapply (wp_evolves contents_kept).
  { evolve; try apply snapshotVersion_contents;
      (eapply (evolves_contents [KPlace; KEdge; KAudit]); [evolve|done]). }
  intros _ s11 Hc. destruct Hsaved as (p1 & Hp1 & Hsv).
  destruct (contents_row _ _ _ _ Hc Hp1) as (p2 & Hp2 & Hcv).
  exists before, p2, reset. unfold saved_as in *. rewrite Hcv. split_and!; done.
Qed.

Lemma wp_any {A} (m : Tx A) e s (Q : A → St → Prop) : (∀ a s', Q a s') → wp m e s Q.
Proof. intros HQ. unfold wp. destruct (m e s) as [[a s']|]; [apply HQ|done]. Qed.

(** A committed save leaves exactly the submitted relations. *)
Lemma committed_edges scope m e d sync d' :
  Update scope m e d = (Ok sync, d') →
  Forall2 assigned (MRelations m) (SyncRelations sync) ∧ edges_are (ID (MPlugin m)) (SyncRelations sync) d'.
Proof.
  intros Hrun. apply (transact_ok _ _ _ _ _ (λ sync d', Forall2 assigned (MRelations m) (SyncRelations sync)
    ∧ edges_are (ID (MPlugin m)) (SyncRelations sync) d') Hrun). clear Hrun sync d'.
  unfold updateInTx. do 3 (apply wp_bind, wp_any; intros ? ?). cbv zeta. do 4 (apply wp_bind, wp_any; intros ? ?).
  apply wp_bind, wp_any. intros [key ns] s1. do 2 (apply wp_bind, wp_any; intros ? ?).
  apply wp_bind. eapply wp_mono; [apply syncRelations_exact_wp|]. intros sync s2 [Ha He].
  apply wp_bind. eapply (wp_evolves eq); [evolve|]. intros [changed note] s3 Hs3.
  apply wp_bind. eapply (wp_evolves (changes [KVersion; KQuiet])); [evolve|]. intros v s4 H4.
  apply wp_bind. eapply wp_mono; [apply insertAudit_wp|]. simpl. intros _ s5 H5. apply wp_ret. simpl.
  split; [done|]. eapply edges_are_kept, He.
  by rewrite (edges_kept _ _ _ H5 eq_refl), (edges_kept _ _ _ H4 eq_refl), <-Hs3.
Qed.

Lemma gated_save scope m e d sync d' :
  EnforceListingGate m = true →
  Update scope m e d = (Ok sync, d') →
  ∃ before p', plugins d !! ID (MPlugin m) = Some before
    ∧ owned_by scope before = true ∧ listed before = false
    ∧ (∀ rev, ExpectedDraftRevision m = Some rev → rev = PluginDraftRevision before)
    ∧ (RefusePendingReview m = true → pending_exists (ID (MPlugin m)) d = false)
    ∧ (EnforceForwardOnlyVersion m = true → ∀ cur nxt, CurrentVersion before = Some cur →
         CurrentVersion (MPlugin m) = Some nxt → VersionNotRegressed cur nxt = true)
    ∧ plugins d' !! ID (MPlugin m) = Some p' ∧ saved m before p'.
Proof.
  intros HG (before & p' & reset & Hb & Ho & _ & Hg & ? & ? & ? & ? & Hs)%committed_save. rewrite HG in Hg.
  destruct Hg as [Hl ->]. exists before, p'. by split_and!.
Qed.

(** A committed save under the listing gate. The saver owns the row, the
    row was not listed, the expected draft revision (when given) was current,
    no request was open (when pending saves are refused) and the label does not
    regress (when enforced); the row afterwards holds exactly the submitted
    content, and its listing state is unchanged unless a published row changed
    audience, which returns it to draft. *)
Theorem gated_save_outcome scope m e d sync d' :
  EnforceListingGate m = true →
  Update scope m e d = (Ok sync, d') →
  ∃ before p', plugins d !! ID (MPlugin m) = Some before
    ∧ owned_by scope before = true ∧ listed before = false
    ∧ (∀ rev, ExpectedDraftRevision m = Some rev → rev = PluginDraftRevision before)
    ∧ (RefusePendingReview m = true → pending_exists (ID (MPlugin m)) d = false)
    ∧ (EnforceForwardOnlyVersion m = true → ∀ cur nxt, CurrentVersion before = Some cur →
         CurrentVersion (MPlugin m) = Some nxt → VersionNotRegressed cur nxt = true)
    ∧ plugins d' !! ID (MPlugin m) = Some p' ∧ saved m before p'.
Proof. apply gated_save. Qed.

(** The row a creation inserts, for its caller, as submitted. *)
Definition created_row (scope : Scope) (m : Mutation) : Plugin :=
  let p := pin_identity scope (MPlugin m) in
  set_DeletedAt None (set_ListingState (match ListingState p with LUnset => Draft | l => l end) p).

Lemma insertPlugin_wp t p e s :
  wp (insertPlugin t p) e s (λ _ s', plugins (db s) !! ID p = None
    ∧ content_view <$> plugins (db s') = <[ID p := content_view
        (set_DeletedAt None (set_ListingState (match ListingState p with LUnset => Draft | l => l end) p))]>
        (content_view <$> plugins (db s))).
Proof.
  unfold insertPlugin. apply wp_bind; eapply (wp_evolves eq); [evolve|]. intros [key ns] s1 Hs1.
  apply wp_catch; [|by intros]. apply wp_execE. intros d'. unfold insert_plugin_row. rewrite <-Hs1.
  destruct p as []. simpl. case_match eqn:Hp; [done|]. intros [= <-]. split; [done|]. simpl.
  by rewrite fmap_insert.
Qed.

(** A committed creation adds one row, the submitted one, and changes the
    content of no other; its identifier is the submitted one, if there is one. *)
Lemma creation_outcome scope m e d sync d' :
  Create scope m e d = (Ok sync, d') →
  ∃ i, (ID (MPlugin m) ≠ "" → i = ID (MPlugin m)) ∧ plugins d !! i = None
    ∧ content_view <$> plugins d' = <[i := content_view (created_row scope m)]> (content_view <$> plugins d).
Proof.
  intros Hrun.
  apply (transact_ok _ _ _ _ _ (λ _ d', ∃ i, (ID (MPlugin m) ≠ "" → i = ID (MPlugin m))
    ∧ plugins d !! i = None
    ∧ content_view <$> plugins d' = <[i := content_view (created_row scope m)]> (content_view <$> plugins d)) Hrun).
  clear Hrun sync d'.
  unfold createInTx. apply wp_bind, wp_now. intros t. cbv zeta.
  assert (ID (pin_identity scope (MPlugin m)) = ID (MPlugin m)) as Hpin by (unfold pin_identity; by case_match).
  rewrite Hpin. apply wp_bind.
  eapply (wp_mono _ _ _ (λ i s1, db s1 = d ∧ (ID (MPlugin m) ≠ "" → i = ID (MPlugin m)))).
  { destruct (String.eqb_spec (ID (MPlugin m)) ""); [apply wp_newID; by intros|by apply wp_ret]. }
  intros i s1 [Hs1 Hi]. set (p := set_ID i _). assert (ID p = i) as Hpi by by destruct (pin_identity scope (MPlugin m)).
  do 2 (apply wp_bind; eapply (wp_evolves eq); [evolve|];
        let x := fresh "x" in let s' := fresh "s" in let E := fresh "E" in
        intros x s' E; simpl in E; rewrite ?E in *; clear E).
  apply wp_bind. eapply wp_mono; [apply insertPlugin_wp|]. simpl. intros _ s4 (Hnone & Hv1).
  eapply (wp_evolves contents_kept).
  { evolve; try apply snapshotVersion_contents;
      (eapply (evolves_contents [KPlace; KEdge; KAudit]); [evolve|done]). }
  intros _ s5 Hc. exists i. rewrite <-Hs1. split_and!; [done|done|].
  unfold contents_kept in Hc. rewrite Hc, Hv1. do 2 f_equal.
Qed.

(** ** Deletion *)

Lemma rels_where_empty P d r k :
  rels_where P d = [] → relations d !! k = Some r → P r = false.
Proof.
  unfold rels_where. intros Hnil Hr. apply not_true_iff_false. intros HP.
  assert (r ∈ filter (λ r, P r = true) (map_to_list (relations d)).*2) as Hin.
  { apply list_elem_of_filter. split; [done|]. apply list_elem_of_fmap. exists (k, r).
    by rewrite elem_of_map_to_list. }
  rewrite Hnil in Hin. set_solver.
Qed.

(** A committed deletion soft-deletes a row its caller owns that no live
    plugin references; afterwards the row is deleted and unlisted, no edge out
    of it is live, no request on it is open, and every version is kept. *)
Theorem deletion_complete scope id op e d u d' :
  Delete scope id op e d = (Ok u, d') →
  ∃ before t, plugins d !! id = Some before ∧ owned_by scope before = true
    ∧ DeletedAt before = None
    ∧ (∀ k r, relations d !! k = Some r → TargetPluginID r = id → RelStatus r = 1%Z →
         RelDeletedAt r = None → source_live d r = false)
    ∧ plugins d' = <[id := soft_delete t before]> (plugins d)
    ∧ (∀ k r, relations d' !! k = Some r → SourcePluginID r = id → RelDeletedAt r ≠ None)
    ∧ pending_exists id d' = false ∧ versions d' = versions d.
Proof.
  intros Hrun. apply (transact_ok _ _ _ _ _ (λ _ d', ∃ before t, _) Hrun). clear Hrun u d'.
  unfold deleteInTx. apply wp_bind, getOwned_wp. simpl. intros before Hb Hown _ Hlive.
  apply wp_bind. eapply (wp_evolves eq); [evolve|]. simpl. intros _ s1 Hs1.
  unfold rejectLiveIncomingRelations. apply wp_bind, wp_bind, wp_query. simpl. rewrite <-Hs1.
  destruct (rels_where _ d) as [|] eqn:Hin; [|apply wp_fail]. apply wp_ret.
  apply wp_bind; wp_step. apply wp_bind, wp_execN. intros n d1. simpl. rewrite <-Hs1.
  rewrite (update_plugin_row _ _ _ _ before) by
    (done || unfold owned_where; by rewrite Hown, (proj2 (not_deleted_true before) Hlive)).
  intros [= <- <-]. apply wp_bind. eapply (wp_evolves eq); [evolve|]. simpl. intros _ s2 Hs2.
  apply wp_bind, wp_exec. apply wp_bind, wp_exec. eapply wp_mono; [apply insertAudit_wp|].
  simpl. intros _ s3 Hc3. exists before, t.
  assert (relations (db s3) = relations (delete_outgoing t id (db s2))) as Hr3.
  { refine (keeps_of_changes relations [KAudit] _ _ _ _ Hc3 eq_refl).
    intros k x y Hk Hc. destruct Hc; done || (exfalso; set_solver). }
  split_and!; try done.
  - intros k r Hr Ht Hst Hdel. pose proof (rels_where_empty _ _ _ _ Hin Hr) as HP. simpl in HP.
    unfold rel_live in HP. rewrite Ht, String.eqb_refl, !bool_decide_true in HP by done. done.
  - by rewrite (plugins_kept _ _ _ Hc3 eq_refl), <-Hs2.
  - intros k r. rewrite Hr3. simpl. rewrite lookup_fmap.
    destruct (relations (db s2) !! k) as [r0|]; simpl; [|done]. intros [= <-].
    destruct (_ && _) eqn:HP; [done|]. intros Hsrc Hdel.
    unfold rel_live in HP. by rewrite Hsrc, String.eqb_refl, bool_decide_true in HP.
  - unfold pending_exists. rewrite (reviews_kept _ _ _ Hc3 eq_refl). apply cancel_open_none.
  - by rewrite (versions_kept _ _ _ Hc3 eq_refl), <-Hs2.
Qed.

(** ** Relation targets *)

(** What the lock of the targets establishes about one edge. *)
Definition target_allowed (scope : Scope) (source : Plugin) (inGraph : list string) (d : Db)
    (r : PluginRelation) : Prop :=
  ∃ target, plugins d !! TargetPluginID r = Some target ∧ live target = true
    ∧ (Admin scope = true ∨ visibilitySQL (ScopeSpaceID scope) (CallerUID scope) target = true)
    ∧ validPersistedRelation (RelType r) (Type_ source) (Type_ target) = true
    ∧ (if IsEmbedded target then TargetPluginID r ∈ inGraph
       else referenceAudience source target = true).

Lemma lock_targets_wp scope source g seen rels e s :
  wp (lock_targets scope source g seen rels) e s (λ _ s', db s' = db s
    ∧ Forall (target_allowed scope source g (db s)) rels
    ∧ NoDup ((λ r, (RelType r, TargetPluginID r)) <$> rels)
    ∧ ∀ r, r ∈ rels → (RelType r, TargetPluginID r) ∉ seen).
Proof.
  revert seen s. induction rels as [|r rels IH]; intros seen s; simpl.
  { apply wp_ret. split_and!; [done|constructor|constructor|set_solver]. }
  apply wp_bind; wp_step. apply wp_bind; wp_step. apply wp_bind, wp_query.
  unfold find_plugin. destruct (plugins (db s) !! TargetPluginID r) as [target|] eqn:Ht; simpl; [|done].
  destruct (_ && _) eqn:HP; simpl; [|done]. apply andb_true_iff in HP as [Hl Hv].
  do 3 (apply wp_bind; wp_step). eapply wp_mono; [apply IH|]. simpl.
  intros _ s' (Hs & Hall & Hnd & Hns). bool_facts. apply mem_false in H1.
  split_and!; [done| | |].
  - constructor; [|done]. exists target. apply orb_true_iff in Hv. split_and!; try done.
    destruct (IsEmbedded target); [|done]. simpl in *. by apply mem_true.
  - simpl. apply NoDup_cons. split; [|done]. rewrite list_elem_of_fmap.
    intros (r' & Heq & Hr'). apply (Hns _ Hr'). rewrite <-Heq. by left.
  - intros r' [->|Hr']%elem_of_cons; [done|]. specialize (Hns _ Hr'). set_solver.
Qed.

(** Edges are checked at the persistence boundary. When the targets of a
    write's edges are locked successfully, every edge names a live plugin its
    caller may see (or the caller is an administrator), of a type the relation
    allows, an embedded one only inside the same graph and an independent one
    only within the source's audience; and no edge is repeated. *)
Theorem relation_targets_checked scope source rels g e s u s' :
  lockRelationTargets scope source rels g e s = Ok (u, s') →
  db s' = db s ∧ Forall (target_allowed scope source g (db s)) rels
  ∧ NoDup ((λ r, (RelType r, TargetPluginID r)) <$> rels).
Proof.
  intros Hrun. pose proof (lock_targets_wp scope source g [] rels e s) as Hwp. unfold wp in Hwp.
  unfold lockRelationTargets in Hrun. rewrite Hrun in Hwp. naive_solver.
Qed.

End Outcomes.
