(* ===== verification/Typing.v ===== *)
(** * Every edge is typed

    The writers check the type of an edge against its endpoints where the edge
    is written; nothing checks it where it is read. This file proves that the
    check lasts: along every run of the repository each live edge joins two
    stored plugins whose types its relation allows, so dependency chains are
    at most two edges long and the two levels the catalog reads are all there
    is. *)

From S2P Require Import Prelude GoStrings Version Model Store Rows RowWrites Write Review Listing Changes Operations Lifecycle Outcomes.
Import Go.
Local Open Scope string_scope.

(** ** Typed tables *)

Definition type_of (d : Db) (id : string) : option PluginType := Type_ <$> plugins d !! id.

(** An edge from a plugin of type [s] to one of type [t]. *)
Definition typed_edge (d : Db) (source target typ : string) : Prop :=
  ∃ s t, type_of d source = Some s ∧ type_of d target = Some t ∧ validPersistedRelation typ s t = true.

Definition well_typed (d : Db) : Prop := ∀ k r,
  relations d !! k = Some r → RelDeletedAt r = None →
  typed_edge d (SourcePluginID r) (TargetPluginID r) (RelType r).

(** No row is lost and none changes its type. *)
Definition types_kept (d d' : Db) : Prop := ∀ id t, type_of d id = Some t → type_of d' id = Some t.
#[export] Instance types_kept_preorder : PreOrder types_kept.
Proof. split; [by intros d id t|]. intros x y z H1 H2 id t Ht. auto. Qed.

Lemma typed_edge_kept d d' source target typ :
  types_kept d d' → typed_edge d source target typ → typed_edge d' source target typ.
Proof. intros Hk (s & t & Hs & Ht & Hv). exists s, t. auto. Qed.

(** What every statement of the repository does. *)
Definition typing (d d' : Db) : Prop := types_kept d d' ∧ (well_typed d → well_typed d').
#[export] Instance typing_preorder : PreOrder typing.
Proof. split; [done|]. intros x y z [H1 H2] [H3 H4]. split; [by etrans|auto]. Qed.

(** Live edges only disappear. *)
Lemma typing_edges d d' :
  types_kept d d' →
  (∀ k r, relations d' !! k = Some r → RelDeletedAt r = None →
     ∃ r0, relations d !! k = Some r0 ∧ RelDeletedAt r0 = None ∧ SourcePluginID r0 = SourcePluginID r
       ∧ TargetPluginID r0 = TargetPluginID r ∧ RelType r0 = RelType r) →
  typing d d'.
Proof.
  intros Hk He. split; [done|]. intros Hw k r Hr Hl. destruct (He k r Hr Hl) as (r0 & Hr0 & Hl0 & <- & <- & <-).
  eapply typed_edge_kept; [done|]. by eapply Hw.
Qed.

Lemma typing_same d d' : plugins d' = plugins d → relations d' = relations d → typing d d'.
Proof.
  intros Hp Hr. apply typing_edges; [|rewrite Hr; eauto 10]. intros id t. unfold type_of. by rewrite Hp.
Qed.

(** ** The edges of one source *)

Definition allowed (source : string) (l : list PluginRelation) (d : Db) : Prop :=
  Forall (λ r, typed_edge d source (TargetPluginID r) (RelType r)) l.

Lemma allowed_kept source l d d' : types_kept d d' → allowed source l d → allowed source l d'.
Proof. intros Hk Ha. eapply Forall_impl; [exact Ha|]. intros r. by apply typed_edge_kept. Qed.

(** Writing edges that are allowed. *)
Definition typing_if (source : string) (l : list PluginRelation) (d d' : Db) : Prop :=
  plugins d' = plugins d ∧ (allowed source l d → well_typed d → well_typed d').

Section Edges.
Context (source : string) (l : list PluginRelation).

#[export] Instance typing_if_preorder : PreOrder (typing_if source l).
Proof.
  split; [done|]. intros x y z [H1 H2] [H3 H4]. split; [congruence|]. intros Ha Hw.
  apply H4; [|by apply H2]. revert Ha. apply allowed_kept. intros id t. unfold type_of. by rewrite H1.
Qed.

(** One edge written under its key. *)
Lemma write_edge d k r :
  (RelDeletedAt r = None → ∃ x, x ∈ l ∧ SourcePluginID r = source ∧ TargetPluginID r = TargetPluginID x ∧ RelType r = RelType x) →
  typing_if source l d (set_relations (<[k := r]> (relations d)) d).
Proof.
  intros Hr. split; [done|]. intros Ha Hw k' r' Hk Hl. simpl in Hk.
  apply lookup_insert_Some in Hk as [[<- <-]|[_ Hk]]; [|by apply (Hw k' r')].
  destruct (Hr Hl) as (x & Hx & -> & -> & ->). unfold allowed in Ha. rewrite Forall_forall in Ha. by apply Ha.
Qed.

Lemma update_edge id f d :
  (∀ r, RelDeletedAt r = None → SourcePluginID r = source → RelDeletedAt (f r) = None →
     SourcePluginID (f r) = source ∧ ((∃ x, x ∈ l ∧ TargetPluginID (f r) = TargetPluginID x ∧ RelType (f r) = RelType x)
       ∨ TargetPluginID (f r) = TargetPluginID r ∧ RelType (f r) = RelType r)) →
  typing_if source l d (update_relation id source f d).
Proof.
  intros Hf. unfold update_relation. destruct (relations d !! id) as [r|] eqn:Hr; [|done].
  destruct (_ && _) eqn:HP; [|done]. unfold rel_live in HP. bool_facts. apply String.eqb_eq in H as Hs.
  split; [done|]. intros Ha Hw k' r' Hk Hl. simpl in Hk.
  apply lookup_insert_Some in Hk as [[<- <-]|[_ Hk]]; [|by apply (Hw k' r')].
  destruct (Hf r) as (-> & [(x & Hx & -> & ->)|[-> ->]]); [done..| |].
  - unfold allowed in Ha. rewrite Forall_forall in Ha. by apply Ha.
  - rewrite <-Hs. by apply (Hw id r).
Qed.

Lemma insertRelationRow_typing t c x : x ∈ l → ∀ i, evolves (typing_if source l) (insertRelationRow t source c (set_RelID i x)).
Proof.
  intros Hx i. apply evolves_execE. intros d d'. unfold insert_relation. simpl.
  destruct (relations d !! _); [done|]. intros [= <-]. apply write_edge. intros _. exists x. by destruct x.
Qed.

Lemma insertRelations_typing t c m :
  m ⊆ l → evolves (typing_if source l) (insertRelations t source c m).
Proof.
  induction m as [|x m IH]; intros Hm; simpl; [evolve|].
  assert (x ∈ l) by (apply Hm; by left). assert (m ⊆ l) by (intros y Hy; apply Hm; by right).
  evolve; by apply insertRelationRow_typing.
Qed.

Lemma sync_desired_typing t c edges m :
  m ⊆ l → evolves (typing_if source l) (sync_desired t source c edges m).
Proof.
  revert edges. induction m as [|x m IH]; intros edges Hm; simpl; [evolve|].
  assert (x ∈ l) as Hx by (apply Hm; by left). assert (m ⊆ l) by (intros y Hy; apply Hm; by right).
  evolve; try by apply insertRelationRow_typing.
  all: apply evolves_exec; intros d; apply update_edge; intros r; destruct r; simpl; eauto 10.
Qed.

Lemma syncRelations_typing t c : evolves (typing_if source l) (syncRelations t source c l).
Proof.
  unfold syncRelations. evolve; [by apply sync_desired_typing|].
  apply evolves_exec; intros d; apply update_edge; intros r; by destruct r.
Qed.
End Edges.

(** ** The helpers *)

Lemma type_update d id p p' :
  plugins d !! id = Some p → Type_ p' = Type_ p → types_kept d (set_plugins (<[id := p']> (plugins d)) d).
Proof.
  intros Hp Ht i t. unfold type_of. simpl. destruct (decide (i = id)) as [->|Hne].
  - rewrite lookup_insert_eq, Hp. simpl. by rewrite Ht.
  - by rewrite lookup_insert_ne.
Qed.

Lemma typing_plugins d m : types_kept d (set_plugins m d) → typing d (set_plugins m d).
Proof. intros Hk. apply typing_edges; [done|]. simpl. eauto 10. Qed.

Lemma update_typing id P f :
  (∀ q, P q = true → Type_ (f q) = Type_ q) → evolves typing (execN (update_plugin id P f)).
Proof.
  intros Hf. apply evolves_execN. intros d n d'. unfold update_plugin.
  destruct (plugins d !! id) as [p|] eqn:Hp; [|by intros [= _ <-]].
  destruct (P p) eqn:HP; intros [= _ <-]; [|done]. apply typing_plugins. eapply type_update; eauto.
Qed.

Lemma insert_row_typed row d d' :
  insert_plugin_row row d = Ok d' → typing d d' ∧ type_of d' (ID row) = Some (Type_ row).
Proof.
  unfold insert_plugin_row. destruct (plugins d !! ID row) eqn:Hn; [done|]. intros [= <-]. split.
  - apply typing_plugins. intros i t. unfold type_of. simpl. intros Ht. rewrite lookup_insert_ne; [done|].
    intros <-. by rewrite Hn in Ht.
  - unfold type_of. simpl. by rewrite lookup_insert_eq.
Qed.

Lemma insert_typing row : evolves typing (execE (insert_plugin_row row)).
Proof. apply evolves_execE. intros d d' Hi. by apply insert_row_typed in Hi as [? _]. Qed.

Lemma delete_outgoing_typing t source : evolves typing (exec (delete_outgoing t source)).
Proof.
  apply evolves_exec. intros d. apply typing_edges; [by intros i x|]. intros k r. simpl. rewrite lookup_fmap.
  destruct (relations d !! k) as [r0|]; [|done]. simpl. intros [= <-] Hl.
  exists r0. destruct (_ && _); [by destruct r0|done].
Qed.

(** Statements on the other tables. *)
Definition other_kinds : list kind := [KSubmit; KClose; KApprove; KVersion; KPlace; KAudit; KReceipt; KPolicy].

Lemma other_typing {A} (m : Tx A) : evolves (changes other_kinds) m → evolves typing m.
Proof.
  apply evolves_mono. intros d d'. apply changes_rel; [apply _|]. intros k x y Hk Hc.
  destruct Hc; try by apply typing_same. all: exfalso; unfold other_kinds in Hk; set_solver.
Qed.

#[export] Hint Extern 1 (evolves typing (execN (update_plugin _ _ _))) =>
  (apply update_typing; intros []; done) : evolve.
#[export] Hint Resolve delete_outgoing_typing insert_typing : evolve.

Section Operations_typing.
Context `{Host}.

Lemma insertPlacements_typing t i l : evolves typing (insertPlacements t i l).
Proof. apply other_typing. by apply insertPlacements_changes. Qed.
Lemma syncDefaultPlacement_typing t i c : evolves typing (syncDefaultPlacement t i c).
Proof. apply other_typing. by apply syncDefaultPlacement_changes. Qed.
Lemma ensureVisible_typing t i c : evolves typing (ensureVisibleDefaultPlacement t i c).
Proof. apply other_typing. by apply ensureVisibleDefaultPlacement_changes. Qed.
Lemma insertAudit_typing t p a m b c : evolves typing (insertAudit t p a m b c).
Proof. apply other_typing. by apply insertAudit_changes. Qed.
Lemma cancelPending_typing t i o n r : evolves typing (cancelPendingReviewFor t i o n r).
Proof. apply other_typing. by apply cancelPendingReviewFor_changes. Qed.

#[local] Hint Resolve insertPlacements_typing syncDefaultPlacement_typing ensureVisible_typing insertAudit_typing
  cancelPending_typing : evolve.

Lemma insertPlugin_typing t p : evolves typing (insertPlugin t p).
Proof. unfold insertPlugin. evolve. Qed.

Lemma snapshotVersion_typing t p rels c b : evolves typing (snapshotVersion t p rels c b).
Proof.
  unfold snapshotVersion. destruct (decide _); [evolve|]. evolve. apply evolves_execE. intros d d'.
  unfold insert_version. repeat case_match; try done. intros [= <-]. by apply typing_same.
Qed.

Lemma promote_typing i ty sp a t : evolves typing (promoteEmbeddedChildren i ty sp a t).
Proof. unfold promoteEmbeddedChildren, promoteEmbeddedIDs. evolve. Qed.
Lemma demote_typing i ty sp t : evolves typing (demoteEmbeddedChildren i ty sp t).
Proof. unfold demoteEmbeddedChildren. evolve. Qed.
Lemma softDeleteRebuiltChild_typing t scope i top : evolves typing (softDeleteRebuiltChild t scope i top).
Proof. unfold softDeleteRebuiltChild. evolve. Qed.
#[local] Hint Resolve insertPlugin_typing snapshotVersion_typing promote_typing demote_typing
  softDeleteRebuiltChild_typing : evolve.

Lemma applyApprovedSnapshot_typing sp p rr t first : evolves typing (applyApprovedSnapshot sp p rr t first).
Proof.
  unfold applyApprovedSnapshot, apply_snapshot, list_first. destruct (manifestNameAndTags _). evolve.
Qed.

Lemma delete_typing scope i op : evolves typing (deleteInTx scope i op).
Proof. unfold deleteInTx. evolve. Qed.
Lemma deleteGraph_typing scope i op : evolves typing (deleteGraphInTx scope i op).
Proof. unfold deleteGraphInTx. evolve. Qed.
Lemma rating_typing scope i r op : evolves typing (updateRatingInTx scope i r op).
Proof. unfold updateRatingInTx. evolve. Qed.
Lemma publish_typing scope p : evolves typing (publishInTx scope p).
Proof. unfold publishInTx. evolve. Qed.
Lemma delist_typing scope p : evolves typing (delistInTx scope p).
Proof. unfold delistInTx. evolve. Qed.

(** ** Operations that write edges *)

Lemma wp_typed d {A B} (m : Tx A) (f : A → Tx B) e s (Q : B → St → Prop) :
  typing d (db s) → evolves typing m →
  (∀ a s', typing d (db s') → typing (db s) (db s') → wp (f a) e s' Q) → wp (a ← m; f a) e s Q.
Proof.
  intros Hd Hm HQ. apply wp_bind. eapply wp_evolves; [done|]. intros a s' Hs. apply HQ; [by etrans|done].
Qed.

(** The edges fit a source of type [ty]. *)
Definition checked (ty : PluginType) (l : list PluginRelation) (d : Db) : Prop :=
  Forall (λ r, ∃ t, type_of d (TargetPluginID r) = Some t ∧ validPersistedRelation (RelType r) ty t = true) l.

Lemma checked_kept ty l d d' : types_kept d d' → checked ty l d → checked ty l d'.
Proof.
  intros Hk Hc. eapply Forall_impl; [exact Hc|]. intros r (t & Ht & Hv). eauto.
Qed.
Lemma checked_allowed ty l d source : checked ty l d → type_of d source = Some ty → allowed source l d.
Proof.
  intros Hc Hs. eapply Forall_impl; [exact Hc|]. intros r (t & Ht & Hv). exists ty, t. auto.
Qed.

Lemma lock_typed scope source rels g {B} (f : unit → Tx B) e s (Q : B → St → Prop) :
  (∀ s', db s' = db s → checked (Type_ source) rels (db s') → wp (f tt) e s' Q) →
  wp (u ← lockRelationTargets scope source rels g; f u) e s Q.
Proof.
  intros HQ. apply wp_bind. eapply wp_mono; [apply lock_targets_wp|]. intros [] s' (Hs & Hall & _).
  apply HQ; [done|]. rewrite Hs. eapply Forall_impl; [exact Hall|].
  intros r (t & Ht & _ & _ & Hv & _). exists (Type_ t). unfold type_of. by rewrite Ht.
Qed.

(** Writing checked edges of a row that is there. *)
Lemma edges_typed d source ty l {A B} (m : Tx A) (f : A → Tx B) e s (Q : B → St → Prop) :
  typing d (db s) → checked ty l (db s) → type_of (db s) source = Some ty →
  evolves (typing_if source l) m →
  (∀ a s', typing d (db s') → plugins (db s') = plugins (db s) → wp (f a) e s' Q) →
  wp (a ← m; f a) e s Q.
Proof.
  intros [Hk Hw] Hc Hs Hm HQ. apply wp_bind. eapply wp_evolves; [done|]. intros a s' [Hp Hw'].
  assert (types_kept (db s) (db s')) as Hk' by (intros i t; unfold type_of; by rewrite Hp).
  apply HQ; [|done]. split; [by etrans|]. intros Hd. apply Hw'; [by eapply checked_allowed|by apply Hw].
Qed.

Lemma row_type (d : Db) i p : plugins d !! i = Some p → type_of d i = Some (Type_ p).
Proof. unfold type_of. by intros ->. Qed.

(** An inserted row is there. *)
Lemma inserted_typed d t p {B} (f : unit → Tx B) e s (Q : B → St → Prop) :
  typing d (db s) →
  (∀ s', typing d (db s') → typing (db s) (db s') → type_of (db s') (ID p) = Some (Type_ p) → wp (f tt) e s' Q) →
  wp (u ← insertPlugin t p; f u) e s Q.
Proof.
  intros Hd HQ. apply wp_bind. unfold insertPlugin. apply wp_bind. eapply (wp_evolves eq); [evolve|].
  intros [key nscope] s1 Hs1. apply wp_catch; [|intros; apply wp_fail].
  apply wp_execE. intros d1 Hins.
  apply insert_row_typed in Hins as [Ht Hty].
  rewrite <-Hs1 in Ht. apply HQ; simpl; [by etrans|done|by destruct p].
Qed.

Lemma finish_typed d {A} (m : Tx A) e s : typing d (db s) → evolves typing m → wp m e s (λ _ s', typing d (db s')).
Proof. intros Hd Hm. eapply wp_evolves; [done|]. intros _ s' Hs. by etrans. Qed.

(** The part of an operation that writes no edges: only the typing it keeps. *)
Ltac typed_part d :=
  apply (wp_typed d); [first [assumption|reflexivity]|solve [evolve]|]; intros ? ? ? ?.

Lemma create_typed scope m e s : wp (createInTx scope m) e s (λ _ s', typing (db s) (db s')).
Proof.
  unfold createInTx. typed_part (db s). cbv zeta. typed_part (db s).
  set (p := set_ID _ _). typed_part (db s). apply lock_typed. intros s3 Hs3 Hc.
  apply (inserted_typed (db s)); [by rewrite Hs3|]. intros s4 Hs4 [Hk4 _] Hty.
  apply (edges_typed (db s) (ID p) (Type_ p) (MRelations m)); [done|by eapply checked_kept|done|by apply insertRelations_typing|].
  intros rels s5 Hs5 _. apply finish_typed; [done|evolve].
Qed.

(** *** Graphs *)

Definition row_typed (d : Db) (p : Plugin) : Prop := type_of d (ID p) = Some (Type_ p).

Lemma typed_rows_kept (d d' : Db) (ps : list Plugin) : types_kept d d' → Forall (row_typed d) ps → Forall (row_typed d') ps.
Proof. intros Hk Hp. eapply Forall_impl; [exact Hp|]. intros p. apply Hk. Qed.

Lemma insert_nodes_typed t scope seen nodes e s :
  wp (insert_nodes t scope seen nodes) e s (λ ps s', typing (db s) (db s') ∧ Forall (row_typed (db s')) ps).
Proof.
  revert seen s. induction nodes as [|n nodes IH]; intros seen s; simpl; [by apply wp_ret|].
  typed_part (db s). typed_part (db s). typed_part (db s).
  apply (inserted_typed (db s)); [done|]. intros s4 Hs4 _ Hty.
  apply wp_bind. eapply wp_mono; [apply IH|]. simpl. intros ps s5 [Hs5 Hps]. apply wp_ret.
  split; [by etrans|]. constructor; [|done]. by apply Hs5.
Qed.

(** The rows whose edges are written are there. *)
Definition wired (nodes : list (Mutation * Plugin)) (d : Db) : Prop := Forall (λ np, row_typed d np.2) nodes.

Lemma wired_kept nodes d d' : types_kept d d' → wired nodes d → wired nodes d'.
Proof. intros Hk Hw. eapply Forall_impl; [exact Hw|]. intros np. apply Hk. Qed.
Lemma wired_zip (nodes : list Mutation) ps d : Forall (row_typed d) ps → wired (zip nodes ps) d.
Proof.
  intros Hp. revert nodes. induction Hp as [|p ps Hp _ IH]; intros [|n nodes]; simpl; try constructor; [done|apply IH].
Qed.

Lemma wire_one t scope g n p d {B} (f : list PluginRelation → Tx B) e s (Q : B → St → Prop) :
  typing d (db s) → row_typed (db s) p →
  (∀ rels s', typing d (db s') → types_kept (db s) (db s') → wp (f rels) e s' Q) →
  wp (lockReferences scope p (MRelations n) g;;
      rels ← insertRelations t (ID p) (MOperatorID n) (MRelations n); f rels) e s Q.
Proof.
  intros Hd Hp HQ. apply lock_typed. intros s1 Hs1 Hc.
  apply (edges_typed d (ID p) (Type_ p) (MRelations n));
    [by rewrite Hs1|done|by rewrite Hs1|by apply insertRelations_typing|].
  intros rels s2 Hs2 Hk. apply HQ; [done|]. intros i x. unfold type_of. by rewrite Hk, Hs1.
Qed.

Lemma wire_nodes_typed t scope g nodes d e s :
  typing d (db s) → wired nodes (db s) → wp (wire_nodes t scope g nodes) e s (λ _ s', typing d (db s')).
Proof.
  revert s. induction nodes as [|[n p] nodes IH]; intros s Hd Hw; simpl; [by apply wp_ret|].
  apply Forall_cons in Hw as [Hp Hw]. apply (wire_one t scope g n p d); [done..|].
  intros rels s1 Hs1 Hk1. typed_part d. apply wp_bind. eapply wp_mono.
  { apply IH; [done|]. eapply wired_kept; [|exact Hw]. etrans; [exact Hk1|]. match goal with H : typing (db s1) _ |- _ => apply H end. }
  intros. by apply wp_ret.
Qed.

Lemma wire_children_typed t scope g nodes d e s :
  typing d (db s) → wired nodes (db s) →
  wp (wire_children t scope g nodes) e s (λ _ s', typing d (db s') ∧ types_kept (db s) (db s')).
Proof.
  revert s. induction nodes as [|[n p] nodes IH]; intros s Hd Hw; simpl; [by apply wp_ret|].
  apply Forall_cons in Hw as [Hp Hw]. apply (wire_one t scope g n p d); [done..|].
  intros rels s1 Hs1 Hk1. eapply wp_mono.
  { apply IH; [done|]. by eapply wired_kept. }
  simpl. intros _ s2 [Hs2 Hk2]. split; [done|]. by etrans.
Qed.

Lemma snapshot_nodes_typing t nodes : evolves typing (snapshot_nodes t nodes).
Proof. induction nodes as [|[[n p] y] nodes IH]; simpl; evolve. Qed.
#[local] Hint Resolve snapshot_nodes_typing : evolve.

Lemma createGraph_typed scope nodes e s : wp (createGraphInTx scope nodes) e s (λ _ s', typing (db s) (db s')).
Proof.
  unfold createGraphInTx. typed_part (db s). apply wp_bind. eapply wp_mono; [apply insert_nodes_typed|].
  simpl. intros ps s2 [Hs2 Hps]. apply wp_bind. eapply wp_mono.
  { apply (wire_nodes_typed _ _ _ _ (db s)); [by etrans|by apply wired_zip]. }
  simpl. intros syncs s3 Hs3. apply finish_typed; [done|evolve].
Qed.

(** *** Updates of a container and of a row *)

(** The content columns may restate the type of the row as it is. *)
Lemma write_typed d p scope before g {B} (f : nat → Tx B) e s (Q : B → St → Prop) :
  typing d (db s) → type_of (db s) (ID p) = Some (Type_ before) → Type_ p = Type_ before →
  (∀ q, Type_ (g q) = Type_ p) →
  (∀ n s', typing d (db s') → types_kept (db s) (db s') → wp (f n) e s' Q) →
  wp (n ← catch (execN (update_plugin (ID p) (owned_where scope) g)) (λ err, fail (mapPluginNameTaken err)); f n) e s Q.
Proof.
  intros Hd Hty Heq Hg HQ. apply wp_bind, wp_catch; [|intros; apply wp_fail]. apply wp_execN. intros n d1.
  unfold update_plugin. unfold type_of in Hty. destruct (plugins (db s) !! ID p) as [q|] eqn:Hq; [|done].
  injection Hty as Hty. destruct (owned_where scope q); intros [= _ <-]; [|apply HQ; done].
  assert (types_kept (db s) (set_plugins (<[ID p := g q]> (plugins (db s))) (db s))) as Hk.
  { eapply type_update; [done|]. by rewrite Hg, Heq, Hty. }
  apply HQ; [|done]. etrans; [exact Hd|by apply typing_plugins].
Qed.

(** Locking and synchronizing the edges of a row that is there. *)
Lemma sync_typed d scope p t c rels g {B} (f : RelationSync → Tx B) e s (Q : B → St → Prop) :
  typing d (db s) → row_typed (db s) p →
  (∀ r s', typing d (db s') → wp (f r) e s' Q) →
  wp (lockReferences scope p rels g;; r ← syncRelations t (ID p) c rels; f r) e s Q.
Proof.
  intros Hd Hp HQ. apply lock_typed. intros s1 Hs1 Hc.
  apply (edges_typed d (ID p) (Type_ p) rels); [by rewrite Hs1|done|by rewrite Hs1|apply syncRelations_typing|].
  intros r s2 Hs2 _. by apply HQ.
Qed.

Lemma rebuild_typed scope top l e s : wp (rebuildGraphInTx scope top l) e s (λ _ s', typing (db s) (db s')).
Proof.
  unfold rebuildGraphInTx. typed_part (db s). apply wp_bind, getOwned_wp. intros before Hb _ _ _.
  apply wp_bind; wp_step. bool_facts. typed_part (db s).
  match goal with H : typing (db (bump _)) _ |- _ => destruct H as [Hk1 _] end.
  apply row_type, Hk1 in Hb. cbv zeta. set (top' := set_Visibility _ _).
  apply wp_bind. eapply wp_mono; [apply insert_nodes_typed|]. simpl. intros ps s3 [Hs3 Hps].
  apply wp_bind. eapply wp_mono.
  { apply (wire_children_typed _ _ _ _ (db s)); [by etrans|by apply wired_zip]. }
  simpl. intros _ s4 [Hs4 Hk4]. apply (proj1 Hs3), Hk4 in Hb. change (ID (MPlugin top)) with (ID top') in *.
  typed_part (db s).
  apply (wp_typed (db s)); [done|solve [evolve]|]. intros [key nscope] s5' ? [Hk5' _].
  match goal with H : typing (db s4) _ |- _ => apply (proj1 H), Hk5' in Hb end.
  apply (write_typed (db s) top' scope before); [done|done|done|by intros []|]. intros n s5 Hs5 Hk5. apply Hk5 in Hb.
  apply (wp_typed (db s)); [done|solve [evolve]|]. intros _ s6 Hs6 [Hk6 _]. apply Hk6 in Hb.
  apply (sync_typed (db s)); [done| |].
  { unfold row_typed. rewrite Hb. f_equal. symmetry. done. }
  intros sync s7 Hs7. apply finish_typed; [done|]. evolve.
Qed.

Lemma update_typed scope m e s : wp (updateInTx scope m) e s (λ _ s', typing (db s) (db s')).
Proof.
  unfold updateInTx. apply wp_bind, getOwned_wp. intros before Hb _ _ _. apply row_type in Hb.
  change (db s) with (db (bump s)) in Hb. typed_part (db s).
  match goal with H : typing (db (bump _)) _ |- _ => apply (proj1 H) in Hb end.
  apply (wp_typed (db s)); [done|solve [evolve]|]. intros t s2 Hs2 [Hk2 _]. apply Hk2 in Hb. cbv zeta.
  apply wp_bind; wp_step. bool_facts.
  apply (wp_typed (db s)); [done|solve [evolve]|]. intros _ s3 Hs3 [Hk3 _]. apply Hk3 in Hb.
  apply (wp_typed (db s)); [done|solve [evolve]|]. intros owned s4 Hs4 [Hk4 _]. apply Hk4 in Hb.
  apply lock_typed. intros s5 Hs5 Hc. rewrite <-Hs5 in Hs4, Hb.
  apply (wp_typed (db s)); [done|solve [evolve]|]. intros [key nscope] s6 Hs6 [Hk6 _].
  apply Hk6 in Hb. eapply checked_kept in Hc; [|exact Hk6].
  apply (write_typed (db s) (MPlugin m) scope before); [done|done|done|by intros q; repeat case_match; destruct q|].
  intros n s7 Hs7 Hk7. apply Hk7 in Hb. eapply checked_kept in Hc; [|exact Hk7].
  apply (wp_typed (db s)); [done|solve [evolve]|]. intros _ s8 Hs8 [Hk8 _].
  apply Hk8 in Hb. eapply checked_kept in Hc; [|exact Hk8].
  apply (edges_typed (db s) (ID (MPlugin m)) (Type_ (MPlugin m)) (MRelations m));
    [done|done|by rewrite Hb; f_equal|apply syncRelations_typing|].
  intros sync s9 Hs9 _. apply finish_typed; [done|]. evolve.
Qed.

Lemma approveFinish_typing p current rr rels t : evolves typing (approveFinish p current rr rels t).
Proof.
  unfold approveFinish. evolve. apply evolves_execN. intros d n d'. unfold update_review.
  repeat case_match; intros [= _ <-]; done || by apply typing_same.
Qed.

Lemma approveBody_typed scope p e s : wp (approveBody scope p) e s (λ _ s', typing (db s) (db s')).
Proof.
  unfold approveBody. typed_part (db s). apply wp_bind, getReviewed_wp. intros current Hb _ _ _.
  apply row_type in Hb. match goal with Hb : type_of (db ?x) _ = _ |- _ => change (db x) with (db (bump x)) in Hb; set (s1 := bump x) in * end.
  apply (wp_typed (db s)); [done|solve [evolve]|]. intros _ s2 Hs2 [Hk2 _]. apply Hk2 in Hb.
  apply (wp_typed (db s)); [done|solve [evolve]|]. intros t s3 Hs3 [Hk3 _]. apply Hk3 in Hb.
  apply (wp_typed (db s)); [done|solve [evolve]|]. intros live s4 Hs4 [Hk4 _]. apply Hk4 in Hb.
  apply (wp_typed (db s)); [done|apply reconcileFrozenRelations_ro; apply _|]. intros frozen s5 Hs5 [Hk5 _]. apply Hk5 in Hb.
  apply lock_typed. intros s6 Hs6 Hc. rewrite <-Hs6 in Hs5, Hb. cbv zeta.
  apply (wp_typed (db s)); [done|apply applyApprovedSnapshot_typing|]. intros _ s7 Hs7 [Hk7 _].
  apply Hk7 in Hb. eapply checked_kept in Hc; [|exact Hk7].
  apply (wp_typed (db s)); [done|solve [evolve]|]. intros _ s8 Hs8 [Hk8 _].
  apply Hk8 in Hb. eapply checked_kept in Hc; [|exact Hk8].
  apply (edges_typed (db s) (rr_plugin_id a) (Type_ current) frozen); [done|by destruct current|done|apply syncRelations_typing|].
  intros sync s9 Hs9 _. apply finish_typed; [done|]. evolve. apply approveFinish_typing.
Qed.

Lemma transact_typed {A} (m : Tx A) e d :
  (∀ s, wp m e s (λ _ s', typing (db s) (db s'))) → typing d (transact m e d).2.
Proof.
  intros Hm. destruct (transact m e d) as [[a|err] d'] eqn:E; simpl.
  - eapply (transact_ok m e d a d' (λ _ x, typing d x)); [done|]. apply (Hm (mkSt 1 d)).
  - by rewrite (transact_error _ _ _ _ _ E).
Qed.

Lemma run_typing o e d : typing d (run o e d).
Proof.
  destruct o; simpl.
  - apply transact_typed. intros s. apply create_typed.
  - unfold CreateGraph. destruct nodes; [done|]. apply transact_typed. intros s. apply createGraph_typed.
  - apply transact_typed. intros s. apply rebuild_typed.
  - apply transact_typed. intros s. apply update_typed.
  - apply (transact_evolves typing), rating_typing.
  - apply (transact_evolves typing), delete_typing.
  - apply (transact_evolves typing), deleteGraph_typing.
  - apply (transact_evolves typing), other_typing. eapply evolves_within; [apply insertReviewInTx_changes|done].
  - apply transact_typed. intros s. unfold approveInTx. typed_part (db s).
    apply (wp_typed (db s)); [done|apply other_typing, claimCardActionReceipt_changes; done|].
    intros _ s2 Hs2 _. eapply wp_mono; [apply approveBody_typed|]. simpl. intros _ s3 Hs3. by etrans.
  - apply (transact_evolves typing), other_typing. eapply evolves_within; [apply rejectInTx_changes|done].
  - apply (transact_evolves typing), other_typing. eapply evolves_within; [apply cancelInTx_changes|done].
  - apply (autocommit_evolves typing). evolve. apply other_typing.
    eapply evolves_within; [apply insertCardActionReceipt_changes|done].
  - apply (autocommit_evolves typing). evolve. apply evolves_exec. intros x. by apply typing_same.
  - apply (transact_evolves typing), publish_typing.
  - apply (transact_evolves typing), delist_typing.
Qed.

(** ** Chains of dependencies *)

(** Consecutive live edges. *)
Fixpoint chain (d : Db) (from : string) (l : list PluginRelation) : Prop :=
  match l with
  | [] => True
  | r :: l' => (∃ k, relations d !! k = Some r) ∧ RelDeletedAt r = None ∧ SourcePluginID r = from
               ∧ chain d (TargetPluginID r) l'
  end.

(** How far below a plugin of a type its dependencies can go. *)
Definition depth (t : PluginType) : nat := match t with ExpertTeam => 2 | Expert => 1 | _ => 0 end.

Lemma typed_depth typ s t : validPersistedRelation typ s t = true → depth s = S (depth t).
Proof. unfold validPersistedRelation. repeat case_match; intros Hb; try done; bool_facts; by subst. Qed.

Lemma chain_depth d from l : well_typed d → chain d from l → l ≠ [] →
  ∃ t, type_of d from = Some t ∧ (length l ≤ depth t)%nat.
Proof.
  intros Hw. revert from. induction l as [|r l IH]; intros from; simpl; [done|].
  intros ((k & Hk) & Hl & <- & Hc) _. destruct (Hw k r Hk Hl) as (s & t & Hs & Ht & Hv).
  exists s. split; [done|]. rewrite (typed_depth _ _ _ Hv). destruct l as [|r' l]; [simpl; lia|].
  destruct (IH _ Hc) as (t' & Ht' & Hlen); [done|]. simplify_eq. lia.
Qed.

(** C10: the relation types are a type system for the catalog. Whatever
    operations run from well-typed tables, no plugin row is lost or changes its
    type, and every live edge joins two stored plugins whose types its relation
    allows, though it is checked only when it is written. So a chain of live edges is
    at most as long as its first plugin's type says, and never longer than two: there
    is no cycle, and two levels are the whole graph. *)
Theorem edges_typed_forever d d' :
  steps d d' → well_typed d →
  types_kept d d' ∧ well_typed d'
  ∧ ∀ from l, chain d' from l → l ≠ [] → ∃ t, type_of d' from = Some t ∧ (length l ≤ depth t ≤ 2)%nat.
Proof.
  intros Hs Hw. assert (typing d d') as [Hk Hw'].
  { induction Hs as [|x y z [o e x'] _ IH]; [done|]. assert (typing x' (run o e x')) as Ht by apply run_typing.
    etrans; [exact Ht|]. apply IH. by apply Ht. }
  specialize (Hw' Hw). split_and!; [done..|]. intros from l Hc Hn.
  destruct (chain_depth d' from l Hw' Hc Hn) as (t & Ht & Hl). exists t. split_and!; [done..|]. by destruct t; simpl; lia.
Qed.

End Operations_typing.
