(* ===== verification/CardAction.v ===== *)
(** * Card decisions: service/plugin/review.go and handler/plugin/card_action.go

    An administrator approves or denies a request by clicking a card;
    octo-server delivers the click as a signed event, possibly many times. The
    HTTP handler, [DecideReviewFromCard] with its receipts, and the decision
    itself, composed with the repository's transactions. *)

From S2P Require Import Prelude GoStrings Model Notify Store Rows RowWrites Write Review Listing Changes Operations Lifecycle Service Decisions Settlement.
From Stdlib Require Import Ascii.
Import Go.
Local Open Scope string_scope.

(** ** Results *)

Record CardActionResult := mkCardResult {
  Disposition : string;
  State : string;
  Requester : string;
  Display : gmap string string
}.

(** The stored form adds the actor, which never goes on the wire. *)
Record storedCardAction := mkStored {
  sc_result : CardActionResult;
  sc_operator : string
}.

Definition cardDispositionApplied : string := "applied".
Definition cardDispositionForbidden : string := "forbidden".
Definition cardDispositionConflict : string := "conflict".
Definition cardDispositionNotFound : string := "not_found".
Definition cardStatePending : string := "pending".
Definition cardStateApproved : string := "approved".
Definition cardStateDenied : string := "denied".
Definition cardStateCancelled : string := "cancelled".

Definition cardState (status : ReviewStatus) : string :=
  match status with
  | Approved => cardStateApproved
  | Rejected => cardStateDenied
  | Canceled => cardStateCancelled
  | Pending => cardStatePending
  end.

(** What package encoding/json makes of a Go string: bytes that are not UTF-8
    are replaced by U+FFFD. *)
Definition json_text (s : string) : string := of_runes (Runes s).
Definition wire (r : CardActionResult) : CardActionResult :=
  mkCardResult (json_text (Disposition r)) (json_text (State r)) (json_text (Requester r))
    (json_text <$> Display r).
Definition wire_stored (a : storedCardAction) : storedCardAction :=
  mkStored (wire (sc_result a)) (json_text (sc_operator a)).

(** [json.Marshal] and [json.Unmarshal] at [storedCardAction]. *)
Class CardCodec := {
  marshal_card : storedCardAction → string;
  unmarshal_card : string → option storedCardAction
}.
Class CardCodecLaws `{CardCodec} := {
  card_roundtrip : ∀ a, unmarshal_card (marshal_card a) = Some (wire_stored a)
}.

Section CardAction.
Context `{Host, CardCodec}.

(** ** Receipts *)

Definition cardActionReceipt (eventID reviewID decision operatorUID : string)
    (r : CardActionResult) (t : Z) : CardActionReceipt :=
  mkCardReceipt eventID (marshal_card (mkStored r operatorUID)) reviewID decision (Some t).

Definition decodeCardActionReceipt (rec : ReceiptRow) (reviewID decision operatorUID : string)
    : result SvcErr CardActionResult :=
  if negb (String.eqb (rc_review_id rec) reviewID) || negb (String.eqb (rc_decision rec) decision)
  then Error SErrCardBadDecision
  else match unmarshal_card (rc_stored_response rec) with
       | None => Error (SErrOther "unmarshal receipt")
       | Some stored =>
           if negb (String.eqb (sc_operator stored) "")
              && negb (String.eqb (sc_operator stored) operatorUID)
           then Error SErrCardBadDecision
           else Ok (sc_result stored)
       end.

(** [GetCardActionReceipt] as a call. *)
Definition receiptFor (eventID : string) : Svc (option ReceiptRow) :=
  r ← read (λ d, Ok (GetCardActionReceipt eventID d)); raw_error r.

Definition replayCardAction (eventID reviewID decision operatorUID : string) : Svc CardActionResult :=
  existing ← receiptFor eventID;
  match existing with
  | None => svc_fail (SErrOther "card action receipt unavailable")
  | Some rec => lift (decodeCardActionReceipt rec reviewID decision operatorUID)
  end.

(** ** The decision *)

(** [GetReviewRequestAnySpace] with the plugin's name it joins. *)
Definition load_any_space (reviewID : string) (d : Db) : result Err (ReviewRow * string) :=
  match GetReviewRequestAnySpace reviewID d with
  | Ok rr => Ok (rr, default "" (Name <$> plugins d !! rr_plugin_id rr))
  | Error err => Error err
  end.

Definition operatorRole (spaceID uid : string) : Svc (option Z) :=
  enabled ← ask_notify RoleEnabled;
  if negb enabled then svc_fail (SErrOther "space role lookup is not configured")
  else ask_role spaceID uid.

Definition card_title (title : string) : gmap string string := {[ "title" := title ]}.

Definition cardConflict (req : ReviewRow) (title : string) : Svc CardActionResult :=
  cur ← read (load_any_space (rr_id req));
  match cur with
  | Error ErrNotFound =>
      mret (mkCardResult cardDispositionNotFound cardStateCancelled (rr_applicant_uid req)
              (card_title title))
  | Error err => svc_fail (SErrStore err)
  | Ok (settled, title') =>
      mret (mkCardResult cardDispositionConflict (cardState (rr_status settled))
              (rr_applicant_uid settled) (card_title title'))
  end.

Definition attachmentKeyMap (raw : RawMessage) : gmap string string :=
  if String.eqb raw "" then ∅
  else let '(m, ok) := unmarshal_sidecar raw in if ok : bool then m else ∅.

Definition cleanupOrphanedReviewObjects (frozenKeys : RawMessage) (retained : list string) : Svc unit :=
  deleteObjects (filter (λ k, k ≠ "" ∧ k ∉ retained)
                   (map_to_list (attachmentKeyMap frozenKeys)).*2).

Definition DefaultIMDenyReason : string := "管理员在消息卡片中拒绝,未填写原因".

Definition card_decision (receipt : CardActionReceipt) (reviewID operatorUID reason : string) : DecisionParams :=
  mkDecision (Some receipt) reviewID operatorUID operatorUID reason (Some SourceIM) "" None.

(** Apply the decision; the error of the repository, if any. *)
Definition applyCardAction (scope : Scope) (receipt : CardActionReceipt)
    (decision reviewID operatorUID : string) : Svc (result Err unit) :=
  if String.eqb decision "approve" then
    r ← call (ApproveReview scope (card_decision receipt reviewID operatorUID ""));
    mret (match r with Ok _ => Ok tt | Error err => Error err end)
  else
    r ← call (RejectReview scope (card_decision receipt reviewID operatorUID DefaultIMDenyReason));
    match r with
    | Ok (frozenKeys, retained) => cleanupOrphanedReviewObjects frozenKeys retained;; mret (Ok tt)
    | Error err => mret (Error err)
    end.

(** The refusal of a pending request. *)
Definition card_refusal (req : ReviewRow) (title reason : string) : CardActionResult :=
  mkCardResult cardDispositionForbidden cardStatePending (rr_applicant_uid req)
    (<["reason" := reason]> (card_title title)).

Definition decideCardAction (eventID operatorUID decision reviewID : string) : Svc CardActionResult :=
  loaded ← read (load_any_space reviewID);
  match loaded with
  | Error err =>
      if decide (mapStoreError err = SErrNotFound)
      then mret (mkCardResult cardDispositionNotFound cardStateCancelled "" ∅)
      else svc_fail (mapStoreError err)
  | Ok (req, title) =>
      role ← operatorRole (rr_space_id req) operatorUID;
      if match role with None => true | Some r => (r <? SpaceRoleAdmin)%Z end
      then mret (mkCardResult cardDispositionForbidden cardStatePending "" ∅)
      else if negb (bool_decide (rr_status req = Pending)) then cardConflict req title
      else
        let state := if String.eqb decision "deny" then cardStateDenied else cardStateApproved in
        let answer := mkCardResult cardDispositionApplied state (rr_applicant_uid req)
                        (card_title title) in
        t ← clock;
        applied ← applyCardAction (mkScope operatorUID (rr_space_id req) false)
                    (cardActionReceipt eventID reviewID decision operatorUID answer t)
                    decision reviewID operatorUID;
        match applied with
        | Ok _ => mret answer
        | Error err =>
            match mapStoreError err with
            | SErrNotFound =>
                mret (mkCardResult cardDispositionNotFound cardStateCancelled
                        (rr_applicant_uid req) (card_title title))
            | SErrConflict => cardConflict req title
            | SErrVersionRegressed =>
                mret (card_refusal req title "version_moved_past_resubmit_required")
            | SErrLabelTaken =>
                mret (card_refusal req title "version_label_taken_resubmit_required")
            | other => svc_fail other
            end
        end
  end.

Definition DecideReviewFromCard (eventID operatorUID decision reviewID : string)
    : Svc CardActionResult :=
  let eventID := TrimSpace eventID in
  let operatorUID := TrimSpace operatorUID in
  let reviewID := TrimSpace reviewID in
  let decision := TrimSpace decision in
  if String.eqb eventID "" || String.eqb operatorUID "" || String.eqb reviewID ""
  then svc_fail SErrCardBadDecision
  else if negb (String.eqb decision "approve") && negb (String.eqb decision "deny")
  then svc_fail SErrCardBadDecision
  else
    existing ← receiptFor eventID;
    match existing with
    | Some rec => lift (decodeCardActionReceipt rec reviewID decision operatorUID)
    | None =>
        decided ← try (decideCardAction eventID operatorUID decision reviewID);
        match decided with
        | Error err =>
            if decide (err = SErrStore ErrCardActionReplayed)
            then replayCardAction eventID reviewID decision operatorUID
            else svc_fail err
        | Ok answer =>
            if String.eqb (Disposition answer) cardDispositionApplied then mret answer
            else
              t ← clock;
              stored ← call (InsertCardActionReceipt
                         (cardActionReceipt eventID reviewID decision operatorUID answer t));
              match stored with
              | Ok _ => mret answer
              | Error ErrConflict => replayCardAction eventID reviewID decision operatorUID
              | Error err => svc_fail (SErrStore err)
              end
        end
    end.

(** ** The HTTP handler (card_action.go) *)

Definition maxCardActionBody : nat := Nat.mul 64 1024.
Definition CardActionPath : string := "/v1/card-actions/decide".

Record CardActionHandler := mkCardHandler { h_secret : string; h_maxSkew : Z; h_path : string }.

Definition NewCardAction (secret : string) (maxSkew : Z) : CardActionHandler :=
  mkCardHandler (TrimSpace secret) (if (maxSkew <=? 0)%Z then 5 * 60 * second else maxSkew)%Z
    CardActionPath.

(** [decisionRequest]; [Data["review_id"]] is [""] unless it is a string. *)
Record DecisionRequest := mkDecisionRequest {
  dr_event_id : string;
  dr_decision : string;
  dr_operator_uid : string;
  dr_review_id : string
}.

(** A request as it reaches the handler: the body ([None] when reading it
    fails), the three headers, and the clock in seconds. *)
Record CardRequest := mkCardRequest {
  q_body : option string;
  q_signature : string;
  q_timestamp : string;
  q_event_id : string;
  q_now : Z
}.

Section Handler.
Context `{Crypto} (decode_body : string → option DecisionRequest).

(** Everything before the service is called: the status of a refusal, or the
    decoded decision of an authentic event. *)
Definition authenticate_card (h : CardActionHandler) (q : CardRequest)
    : result Z (string * DecisionRequest) :=
  match q_body q with
  | None => Error 503%Z
  | Some raw =>
      if (maxCardActionBody <? String.length raw)%nat then Error 413%Z
      else
        let eventID := TrimSpace (q_event_id q) in
        if String.eqb (h_secret h) "" then Error 401%Z
        else if negb (VerifyTimestampAt (q_timestamp q) (q_now q) (h_maxSkew h)) then Error 401%Z
        else if negb (Verify (h_secret h) (q_signature q) "POST" (h_path h) (q_timestamp q) eventID raw)
        then Error 401%Z
        else match decode_body raw with
        | None => Error 400%Z
        | Some body =>
            if negb (String.eqb (TrimSpace (dr_event_id body)) eventID) then Error 401%Z
            else match ParseInt eventID with
                 | None => Error 400%Z
                 | Some _ => Ok (eventID, body)
                 end
        end
  end.

(** The status and, for a handled event, the answer in the body. *)
Definition Decide (h : CardActionHandler) (q : CardRequest) : Svc (Z * option CardActionResult) :=
  match authenticate_card h q with
  | Error status => mret (status, None)
  | Ok (eventID, body) =>
      r ← try (DecideReviewFromCard eventID (dr_operator_uid body) (dr_decision body)
                 (TrimSpace (dr_review_id body)));
      match r with
      | Ok answer => mret (200%Z, Some answer)
      | Error SErrCardBadDecision => mret (400%Z, None)
      | Error SErrReviewInvalid =>
          mret (200%Z, Some (mkCardResult cardDispositionForbidden cardStatePending "" ∅))
      | Error _ => mret (503%Z, None)
      end
  end.

(** An accepted signature is the version tag and the keyed digest, under a
    configured secret, of the six lines a request is signed by. *)
Lemma Verify_signed secret signature path ts ev body :
  Verify secret signature "POST" path ts ev body = true →
  secret ≠ ""
  ∧ signature = "v1=" ++ hmac_hex secret (Join ["v1"; "POST"; path; ts; ev; sha256_hex body] (String newline "")).
Proof.
  unfold Verify, Sign, CanonicalRequest. change (ToUpper "POST") with "POST".
  destruct (String.eqb_spec secret ""); [done|]. cbn [orb]. destruct (String.eqb signature ""); [done|].
  destruct (negb _); [done|]. by intros <-%String.eqb_eq.
Qed.

(** C33: only an authentic event reaches the service. Whenever the callback is
    answered with 200 or changes anything, its body has at most 64 KiB, a
    secret is configured, the header's timestamp is a positive number of
    seconds within the configured distance of the clock (itself a
    non-negative 64-bit number of seconds), the header's signature is the one
    of this path, this timestamp, this event identifier and the digest of
    exactly the bytes received, and the body decodes and names the same event,
    a decimal number. *)
Theorem card_callback_authentic h q e s st r s' :
  (0 <= q_now q < 2 ^ 63)%Z →
  Decide h q e s = (Ok (st, r), s') →
  st = 200%Z ∨ s' ≠ s →
  ∃ raw body ts, q_body q = Some raw ∧ (String.length raw <= 65536)%nat
    ∧ h_secret h ≠ ""
    ∧ ParseInt (TrimSpace (q_timestamp q)) = Some ts ∧ (0 < ts)%Z
    ∧ (0 < h_maxSkew h)%Z ∧ (Z.abs (q_now q - ts) <= h_maxSkew h / second)%Z
    ∧ q_signature q = "v1=" ++ hmac_hex (h_secret h)
        (Join ["v1"; "POST"; h_path h; q_timestamp q; TrimSpace (q_event_id q); sha256_hex raw]
           (String newline ""))
    ∧ decode_body raw = Some body
    ∧ TrimSpace (dr_event_id body) = TrimSpace (q_event_id q)
    ∧ ParseInt (TrimSpace (q_event_id q)) ≠ None.
Proof.
  intros Hnow. unfold Decide. destruct (authenticate_card h q) as [[ev body]|status] eqn:Ha.
  2:{ intros [= <- <- <-]. intros [->|Hn]; [|done]. exfalso. revert Ha. unfold authenticate_card.
      by repeat case_match. }
  intros _ _. revert Ha. unfold authenticate_card.
  destruct (q_body q) as [raw|]; [|done]. destruct (_ <? _)%nat eqn:Hl; [done|].
  destruct (String.eqb (h_secret h) ""); [done|].
  destruct (VerifyTimestampAt _ _ _) eqn:Ht; [|done].
  destruct (Verify _ _ _ _ _ _ _) eqn:Hv; [|done]. simpl.
  destruct (decode_body raw) as [b|] eqn:Hd; [|done].
  destruct (String.eqb_spec (TrimSpace (dr_event_id b)) (TrimSpace (q_event_id q))); [|done]. simpl.
  destruct (ParseInt (TrimSpace (q_event_id q))) eqn:Hp; [|done]. intros [= <- <-].
  apply timestamp_window in Ht as (Hskew & ts & Hts & Hpos & Hwin); [|exact Hnow].
  apply Verify_signed in Hv as [Hsec Hsig].
  exists raw, b, ts. split_and!; try done. by apply Nat.ltb_ge.
Qed.
End Handler.

(** ** Answers are recorded *)

Lemma json_text_idem s : json_text (json_text s) = json_text s.
Proof. unfold json_text. by rewrite Runes_of_runes by apply Runes_encoded. Qed.

(** The text of a literal determines the text before encoding: where json_text
    gives ASCII, nothing was replaced. *)
Lemma json_text_const s c :
  all_bytes (λ b, (nat_of_ascii b <=? 127)%nat) c = true → json_text s = c → s = c.
Proof.
  unfold json_text. remember (String.length s) as n eqn:Hn. revert s c Hn.
  induction (lt_wf n) as [n _ IH]. intros s c Hn Hc Hs.
  destruct (decide (s = "")) as [->|Hne]; [done|].
  pose proof (rune_size_length s Hne). pose proof (rune_size_bounds s).
  rewrite (Runes_step s Hne) in Hs. cbn [of_runes foldr] in Hs. fold (of_runes (Runes (drop (rune_size s) s))) in Hs.
  rewrite <-Hs, all_bytes_append in Hc. apply andb_true_iff in Hc as [Hf Hr].
  unfold first_rune in *. destruct (well_formed s); [|by vm_compute in Hf].
  pose proof (drop_length (rune_size s) s).
  rewrite <-Hs, <-(IH (String.length (drop (rune_size s) s)) ltac:(lia) _ _ eq_refl Hr eq_refl).
  by rewrite take_drop.
Qed.

Lemma wire_idem r : wire (wire r) = wire r.
Proof.
  unfold wire. simpl. rewrite !json_text_idem. f_equal. rewrite <-map_fmap_compose.
  apply map_fmap_ext. intros k x _. apply json_text_idem.
Qed.

Context `{!CardCodecLaws}.

(** A delivery of this event with these inputs reads this answer from the log
    of receipts. *)
Definition logged (d : Db) (eventID reviewID decision operatorUID : string)
    (answer : CardActionResult) : Prop :=
  ∃ rec stored, receipts d !! eventID = Some rec
    ∧ decodeCardActionReceipt rec reviewID decision operatorUID = Ok stored
    ∧ wire stored = wire answer.

Lemma decode_fresh ev rid dec op r t tm :
  json_text op = op →
  decodeCardActionReceipt (mkReceipt ev rid dec (StoredResponse (cardActionReceipt ev rid dec op r t)) tm)
    rid dec op = Ok (wire r).
Proof.
  intros Hop. unfold decodeCardActionReceipt. simpl. rewrite !String.eqb_refl. simpl.
  rewrite card_roundtrip. simpl. by rewrite Hop, String.eqb_refl, andb_false_r.
Qed.

Lemma receiptFor_swp ev e s (Q : result SvcErr (option ReceiptRow) → SvcSt → Prop) :
  (∀ s' err, Q (Error err) s') →
  (∀ s', Q (Ok (receipts (tables s') !! ev)) s') →
  swp (receiptFor ev) e s Q.
Proof.
  intros Herr Hok. unfold receiptFor. apply swp_bind. unfold read. apply swp_call.
  intros r d Hr. apply read_db_same in Hr as [-> Hr]. swp_step.
  destruct r as [o|err]; simpl; [|apply Herr].
  specialize (Hr o eq_refl). injection Hr as <-.
  apply (Hok (mkSvcSt (S (calls s)) (others (between e (calls s)) (tables s)) (effects s))).
Qed.

Lemma decoded_logged d ev rec rid dec op r :
  receipts d !! ev = Some rec → decodeCardActionReceipt rec rid dec op = Ok r → logged d ev rid dec op r.
Proof. intros. by exists rec, r. Qed.

Lemma replay_logged ev rid dec op e s :
  swp (replayCardAction ev rid dec op) e s (λ r s', ∀ a, r = Ok a → logged (tables s') ev rid dec op a).
Proof.
  unfold replayCardAction. apply swp_bind. apply receiptFor_swp; [done|]. intros s'.
  destruct (receipts (tables s') !! ev) as [rec|] eqn:Hrec; [|done]. swp_step.
  intros a Ha. by eapply decoded_logged.
Qed.

(** A decision committed with its receipt is logged. *)
Lemma settled_logged dec status scope rid op reason d d' rr ev answer t :
  json_text op = op →
  settles dec status scope (card_decision (cardActionReceipt ev rid dec op answer t) rid op reason) d d' rr →
  logged d' ev rid dec op answer.
Proof.
  intros Hop Hs. destruct (se_claim _ _ _ _ _ _ _ Hs) as [_ (tm & Hr)]. simpl in Hr.
  exists (mkReceipt ev rid dec (StoredResponse (cardActionReceipt ev rid dec op answer t)) tm), (wire answer).
  split; [by rewrite Hr, lookup_insert_eq|]. split; [by apply decode_fresh|]. apply wire_idem.
Qed.

Lemma apply_logged scope ev dec rid op answer t e s :
  json_text op = op → dec = "approve" ∨ dec = "deny" →
  swp (applyCardAction scope (cardActionReceipt ev rid dec op answer t) dec rid op) e s
    (λ r s', r = Ok (Ok tt) → logged (tables s') ev rid dec op answer).
Proof.
  intros Hop Hdec. unfold applyCardAction. destruct (String.eqb_spec dec "approve") as [->|Hne].
  - apply swp_bind, swp_call. intros [p|err] d Hr; swp_step; [|done]. intros _. simpl.
    apply approve_settles in Hr as [rr Hs]. by eapply settled_logged.
  - destruct Hdec as [->| ->]; [done|].
    apply swp_bind, swp_call. intros [[frozen retained]|err] d Hr; [|by swp_step].
    apply swp_bind. unfold cleanupOrphanedReviewObjects, deleteObjects, emit, swp. simpl.
    intros _. apply reject_settles in Hr as [rr Hs]. by eapply settled_logged.
Qed.

Lemma cardConflict_swp req title e s :
  swp (cardConflict req title) e s (λ r _, ∀ a, r = Ok a → Disposition a ≠ cardDispositionApplied).
Proof.
  unfold cardConflict. apply swp_bind, swp_call. intros r d _.
  destruct r as [[rr t]|err]; [swp_step; by intros a [= <-]|].
  destruct err; swp_step; by try intros a [= <-].
Qed.

Lemma operatorRole_swp sp uid e s (Q : result SvcErr (option Z) → SvcSt → Prop) :
  (∀ r s', tables s' = tables s → effects s' = effects s → Q r s') →
  swp (operatorRole sp uid) e s Q.
Proof.
  intros HQ. unfold operatorRole. apply swp_bind. unfold ask_notify, swp. simpl.
  destruct (RoleEnabled _); simpl; by apply HQ.
Qed.

Lemma decideCardAction_logged ev op dec rid e s :
  json_text op = op → dec = "approve" ∨ dec = "deny" →
  swp (decideCardAction ev op dec rid) e s (λ r s', ∀ a, r = Ok a →
    Disposition a = cardDispositionApplied → logged (tables s') ev rid dec op a).
Proof.
  intros Hop Hdec. unfold decideCardAction. apply swp_bind, swp_call. intros r d _.
  destruct r as [[req title]|err]; [|case_decide; swp_step; by try intros a [= <-]].
  apply swp_bind, operatorRole_swp. intros [role|err] s1 _ _; [|done].
  destruct (match role with None => true | Some r => _ end); [swp_step; by intros a [= <-]|].
  destruct (negb _).
  { eapply swp_mono; [apply cardConflict_swp|]. simpl. intros r s' Hr a Ha Hd. by destruct (Hr a Ha). }
  apply swp_bind, swp_clock. intros t. apply swp_bind.
  eapply swp_mono; [by apply apply_logged|]. simpl. intros r s' Hr.
  destruct r as [[[]|err]|err]; [swp_step; intros a [= <-] _; by apply Hr| |done].
  destruct (mapStoreError err); try (swp_step; by try intros a [= <-]).
  eapply swp_mono; [apply cardConflict_swp|]. simpl. intros r s'' Hc a Ha Hd. by destruct (Hc a Ha).
Qed.

Lemma stored_logged ev rid dec op answer t e d d' :
  json_text op = op →
  InsertCardActionReceipt (cardActionReceipt ev rid dec op answer t) e d = (Ok tt, d') →
  logged d' ev rid dec op answer.
Proof.
  intros Hop Hrun.
  apply (autocommit_ok _ _ _ _ _ (λ _ x, logged x ev rid dec op answer) Hrun).
  apply wp_bind; wp_step. unfold insertCardActionReceipt.
  apply wp_catch; [|intros err; by repeat case_match]. apply wp_execE. intros d1.
  unfold insert_receipt. simpl. case_match; [done|]. intros [= <-].
  eexists _, (wire answer). simpl. rewrite lookup_insert_eq. split; [done|].
  split; [exact (decode_fresh ev rid dec op answer t _ Hop)|]. apply wire_idem.
Qed.

Lemma DecideReviewFromCard_logged ev op dec rid e s :
  json_text (TrimSpace op) = TrimSpace op →
  swp (DecideReviewFromCard ev op dec rid) e s (λ r s', ∀ a, r = Ok a →
    logged (tables s') (TrimSpace ev) (TrimSpace rid) (TrimSpace dec) (TrimSpace op) a).
Proof.
  intros Hop. unfold DecideReviewFromCard. cbv zeta.
  destruct (_ || _ || _); [done|].
  destruct (String.eqb_spec (TrimSpace dec) "approve") as [Hdec|Hna];
    [|destruct (String.eqb_spec (TrimSpace dec) "deny") as [Hdec|Hnd]; [|done]]; cbn [negb andb];
    (apply swp_bind, receiptFor_swp; [done|]; intros s1;
     destruct (receipts (tables s1) !! TrimSpace ev) as [rec|] eqn:Hrec;
       [swp_step; intros a Ha; by eapply decoded_logged|];
     apply swp_bind, swp_try; eapply swp_mono; [apply decideCardAction_logged; [done|by rewrite Hdec; auto]|];
     simpl; intros [answer|err] s2 Hlog;
       [|case_decide; [apply replay_logged|done]];
     destruct (String.eqb_spec (Disposition answer) cardDispositionApplied) as [Ha|Ha];
       [swp_step; intros a [= <-]; by apply Hlog|];
     apply swp_bind, swp_clock; intros t; apply swp_bind, swp_call;
     intros [[]|err'] d Hr; [swp_step; intros a [= <-]; by eapply stored_logged|];
     destruct err'; try done; apply replay_logged).
Qed.

(** ** The endpoint refines a log of answered events

    The specification: events are answered from an append-only log. An entry
    binds an event to one request, one decision, one operator and one answer;
    every answer given for an event is the logged one. *)

Record LogEntry := mkEntry {
  le_review : string;
  le_decision : string;
  le_answer : option storedCardAction
}.

Definition log_entry (rec : ReceiptRow) : LogEntry :=
  mkEntry (rc_review_id rec) (rc_decision rec) (unmarshal_card (rc_stored_response rec)).

Definition event_log (d : Db) : gmap string LogEntry := log_entry <$> receipts d.

(** What the log says to a delivery. Entries written before operators were
    recorded carry none. *)
Definition answers (entry : LogEntry) (reviewID decision operatorUID : string)
    (answer : CardActionResult) : Prop :=
  le_review entry = reviewID ∧ le_decision entry = decision
  ∧ ∃ stored, le_answer entry = Some stored
    ∧ (sc_operator stored = "" ∨ sc_operator stored = operatorUID)
    ∧ wire (sc_result stored) = wire answer.

Lemma logged_answers d ev rid dec op a :
  logged d ev rid dec op a → ∃ entry, event_log d !! ev = Some entry ∧ answers entry rid dec op a.
Proof.
  intros (rec & stored & Hrec & Hdec & Hw). exists (log_entry rec). unfold event_log.
  rewrite lookup_fmap, Hrec. split; [done|]. unfold decodeCardActionReceipt in Hdec.
  destruct (String.eqb_spec (rc_review_id rec) rid); [|done].
  destruct (String.eqb_spec (rc_decision rec) dec); [|done]. simpl in Hdec.
  split; [done|]. split; [done|]. simpl. destruct (unmarshal_card _) as [x|]; [|done].
  exists x. split; [done|].
  destruct (String.eqb_spec (sc_operator x) ""); simpl in Hdec.
  - injection Hdec as ->. auto.
  - destruct (String.eqb_spec (sc_operator x) op); [|done]. injection Hdec as ->. auto.
Qed.

Lemma steps_log d d' : steps d d' → event_log d ⊆ event_log d'.
Proof.
  intros Hs. apply map_fmap_mono.
  enough (append_only d d') as (_ & _ & ?) by done.
  revert Hs. apply steps_rel; [apply _|]. apply change_appends.
Qed.

Definition any_op (o : Op) : Prop := True.

Lemma polite_any e : polite any_op e.
Proof. intros n. apply Forall_forall. done. Qed.

Lemma cleanup_performs P k r : performs P (cleanupOrphanedReviewObjects k r).
Proof. apply performs_emit. Qed.

(** The operations the endpoint performs: a decision that carries the receipt
    of its own application, or a receipt of another answer. *)
Definition card_op (ev op dec rid : string) (o : Op) : Prop :=
  match o with
  | OpApprove _ p => dec = "approve" ∧ ∃ answer t reason,
      p = card_decision (cardActionReceipt ev rid dec op answer t) rid op reason
      ∧ Disposition answer = cardDispositionApplied ∧ State answer = cardStateApproved
  | OpReject _ p => dec ≠ "approve" ∧ ∃ answer t reason,
      p = card_decision (cardActionReceipt ev rid dec op answer t) rid op reason
      ∧ Disposition answer = cardDispositionApplied
      ∧ State answer = if String.eqb dec "deny" then cardStateDenied else cardStateApproved
  | OpReceipt rec => ∃ answer t, rec = cardActionReceipt ev rid dec op answer t
      ∧ Disposition answer ≠ cardDispositionApplied
  | _ => False
  end.

Lemma decideCardAction_performs (P : Op → Prop) ev op dec rid :
  (∀ o, card_op ev op dec rid o → P o) → performs P (decideCardAction ev op dec rid).
Proof.
  intros HP. unfold decideCardAction, operatorRole, cardConflict, applyCardAction.
  performs_step; [performs_step|]. performs_step; [|by performs]. destruct a as [req title].
  performs_step; [by performs|]. performs_step; [by performs|]. performs_step; [by performs|].
  cbv zeta. performs_step; [by performs_step|]. intros. performs_step; [|by performs].
  destruct (String.eqb_spec dec "approve") as [->|Hne].
  - performs_step; [|by performs]. eapply (performs_call _ _ (OpApprove _ _)); [|done].
    apply HP. split; [done|]. eexists _, _, _. split; [done|]. done.
  - performs_step; [|performs; apply cleanup_performs]. eapply (performs_call _ _ (OpReject _ _)); [|done].
    apply HP. split; [done|]. eexists _, _, _. split; [done|]. done.
Qed.

Lemma DecideReviewFromCard_performs (P : Op → Prop) ev op dec rid :
  (∀ o, card_op (TrimSpace ev) (TrimSpace op) (TrimSpace dec) (TrimSpace rid) o → P o) →
  performs P (DecideReviewFromCard ev op dec rid).
Proof.
  intros HP. unfold DecideReviewFromCard, replayCardAction, receiptFor. cbv zeta.
  performs_step; [by performs|]. performs_step; [by performs|]. performs_step; [by performs|].
  performs_step; [by performs|]. performs_step; [performs_step; by apply decideCardAction_performs|].
  performs_step; [|by performs].
  destruct (String.eqb_spec (Disposition a) cardDispositionApplied) as [|Hna]; [by performs|].
  performs_step; [by performs|]. performs_step; [|by performs].
  eapply (performs_call _ _ (OpReceipt _)); [|done]. apply HP. by eexists _, _.
Qed.

(** C5: the card endpoint refines the log of events. Whatever requests run in
    between (other deliveries of the same event included) and whatever fails,
    a delivery only appends to the log; when it answers, the log then holds an
    entry for the event, bound to the delivered request, decision and
    operator, with this answer; and every later delivery of the event that
    answers gives the same answer for the same request and decision. *)
Theorem card_endpoint_refines_log ev op dec rid e s r s' :
  json_text (TrimSpace op) = TrimSpace op →
  DecideReviewFromCard ev op dec rid e s = (r, s') →
  event_log (tables s) ⊆ event_log (tables s')
  ∧ (∀ a, r = Ok a → ∃ entry, event_log (tables s') !! TrimSpace ev = Some entry
       ∧ answers entry (TrimSpace rid) (TrimSpace dec) (TrimSpace op) a)
  ∧ (∀ a, r = Ok a → ∀ ev2 op2 dec2 rid2 e2 s2 a2 s2',
       TrimSpace ev2 = TrimSpace ev →
       json_text (TrimSpace op2) = TrimSpace op2 →
       DecideReviewFromCard ev2 op2 dec2 rid2 e2 s2 = (Ok a2, s2') →
       steps (tables s') (tables s2') →
       wire a2 = wire a ∧ TrimSpace rid2 = TrimSpace rid ∧ TrimSpace dec2 = TrimSpace dec).
Proof.
  intros Hop Hrun.
  assert (∀ ev op dec rid e s r s', json_text (TrimSpace op) = TrimSpace op →
    DecideReviewFromCard ev op dec rid e s = (r, s') → ∀ a, r = Ok a →
    ∃ entry, event_log (tables s') !! TrimSpace ev = Some entry
       ∧ answers entry (TrimSpace rid) (TrimSpace dec) (TrimSpace op) a) as Hans.
  { clear Hrun Hop r s' s e ev op dec rid. intros ev op dec rid e s r s' Hop Hrun a ->. apply logged_answers.
    pose proof (DecideReviewFromCard_logged ev op dec rid e s Hop) as Hl.
    unfold swp in Hl. rewrite Hrun in Hl. by apply Hl. }
  split; [|split; [by apply (Hans ev op dec rid e s)|]].
  - apply steps_log, (runs_steps any_op).
    replace s' with (DecideReviewFromCard ev op dec rid e s).2 by by rewrite Hrun.
    by apply DecideReviewFromCard_performs; [|apply polite_any].
  - intros a Ha ev2 op2 dec2 rid2 e2 s2 a2 s2' Hev Hop2 Hrun2 Hs.
    destruct (Hans ev op dec rid e s _ _ Hop Hrun a Ha) as (en & Hen & Hr & Hd & st & Hst & _ & Hw).
    destruct (Hans ev2 op2 dec2 rid2 e2 s2 _ _ Hop2 Hrun2 a2 eq_refl)
      as (en2 & Hen2 & Hr2 & Hd2 & st2 & Hst2 & _ & Hw2).
    rewrite Hev in Hen2. pose proof (lookup_weaken _ _ _ _ Hen (steps_log _ _ Hs)) as Hen'.
    rewrite Hen' in Hen2. injection Hen2 as <-. rewrite Hst in Hst2. injection Hst2 as <-.
    split_and!; congruence.
Qed.

(** ** An applied answer is a committed decision *)

(** The receipt says its event was applied. *)
Definition applied (rec : ReceiptRow) (a : storedCardAction) : Prop :=
  unmarshal_card (rc_stored_response rec) = Some a
  ∧ Disposition (sc_result a) = cardDispositionApplied.

(** What a decision and the answer to it are, for each button. *)
Definition outcome_of (decision : string) (status : ReviewStatus) (state : string) : Prop :=
  (decision = "approve" ∧ status = Approved ∧ state = cardStateApproved)
  ∨ (decision = "deny" ∧ status = Rejected ∧ state = cardStateDenied).

Definition decided_by (rec : ReceiptRow) (a : storedCardAction) (d : Db) : Prop :=
  ∃ rr, reviews d !! rc_review_id rec = Some rr ∧ rr_decision_source rr = Some SourceIM
    ∧ rr_reviewer_uid rr = Some (sc_operator a) ∧ sc_operator a ≠ ""
    ∧ outcome_of (rc_decision rec) (rr_status rr) (State (sc_result a)).

(** Every event answered "applied" decided its request, and no other did. *)
Definition events_decide (d : Db) : Prop :=
  (∀ ev rec a, receipts d !! ev = Some rec → applied rec a → decided_by rec a d)
  ∧ (∀ ev1 ev2 rec1 rec2 a1 a2, receipts d !! ev1 = Some rec1 → applied rec1 a1 →
       receipts d !! ev2 = Some rec2 → applied rec2 a2 →
       rc_review_id rec1 = rc_review_id rec2 → ev1 = ev2).

(** A decision carries, if any, the receipt of its own application; a receipt
    inserted on its own does not claim one. *)
Definition carries (p : DecisionParams) (state : string) : Prop :=
  match CardReceipt p with
  | None => True
  | Some rec => ∃ a, StoredResponse rec = marshal_card a
      ∧ Disposition (sc_result a) = cardDispositionApplied ∧ State (sc_result a) = state
      ∧ sc_operator a = ReviewerUID p ∧ ReviewerUID p ≠ ""
      ∧ json_text (ReviewerUID p) = ReviewerUID p
  end.

Definition honest (o : Op) : Prop :=
  match o with
  | OpApprove _ p => carries p cardStateApproved
  | OpReject _ p => carries p cardStateDenied
  | OpReceipt rec => ∀ a, unmarshal_card (StoredResponse rec) = Some a →
      Disposition (sc_result a) ≠ cardDispositionApplied
  | _ => True
  end.

Lemma decided_kept_by rec a d d' : reviews_persist d d' → decided_by rec a d → decided_by rec a d'.
Proof.
  intros Hp (rr & Hrr & Hs & Hu & Hne & Ho). destruct (Hp _ _ Hrr) as (r' & Hr' & _ & Hfin).
  assert (r' = rr) as -> by (apply Hfin; unfold outcome_of in Ho; naive_solver congruence).
  by exists rr.
Qed.

Lemma decided_not_pending rec a d rr :
  decided_by rec a d → reviews d !! rc_review_id rec = Some rr → rr_status rr ≠ Pending.
Proof. intros (r & Hr & _ & _ & _ & Ho) Hrr. unfold outcome_of in Ho. naive_solver congruence. Qed.

(** At most one receipt is new; if it is applied, its request was pending and
    is decided now. *)
Lemma events_extend d d' :
  events_decide d → reviews_persist d d' →
  (receipts d' = receipts d ∨ ∃ ev rec, receipts d !! ev = None ∧ receipts d' = <[ev := rec]> (receipts d)
     ∧ ∀ a, applied rec a → decided_by rec a d'
         ∧ ∃ rr, reviews d !! rc_review_id rec = Some rr ∧ rr_status rr = Pending) →
  events_decide d'.
Proof.
  intros [Hdec Huni] Hp [Hsame|(ev & rec & Hnone & Hnew & Happ)].
  - split; rewrite Hsame; [|exact Huni]. intros ev rec a Hr Ha. eapply decided_kept_by; [done|].
    by eapply Hdec.
  - assert (∀ ev' rec' a', receipts d' !! ev' = Some rec' → applied rec' a' →
      (ev' = ev ∧ rec' = rec) ∨ (ev' ≠ ev ∧ receipts d !! ev' = Some rec')) as Hcase.
    { intros ev' rec' a' Hr _. rewrite Hnew in Hr. apply lookup_insert_Some in Hr. naive_solver. }
    split.
    + intros ev' rec' a' Hr Ha. destruct (Hcase _ _ _ Hr Ha) as [[-> ->]|[_ Hold]].
      * by apply Happ.
      * eapply decided_kept_by; [done|]. by eapply Hdec.
    + assert (∀ ev' rec' a' b, receipts d !! ev' = Some rec' → applied rec' a' → applied rec b →
        rc_review_id rec' ≠ rc_review_id rec) as Hdiff.
      { intros ev' rec' a' b Hr Ha Hb E. destruct (Happ b Hb) as (_ & rr & Hrr & Hpend).
        rewrite <-E in Hrr. by apply (decided_not_pending _ _ _ _ (Hdec _ _ _ Hr Ha) Hrr). }
      intros ev1 ev2 rec1 rec2 a1 a2 H1' A1 H2' A2 E.
      destruct (Hcase _ _ _ H1' A1) as [[-> ->]|[_ O1]], (Hcase _ _ _ H2' A2) as [[-> ->]|[_ O2]].
      * done.
      * by destruct (Hdiff _ _ _ _ O2 A2 A1).
      * by destruct (Hdiff _ _ _ _ O1 A1 A2).
      * by eapply Huni.
Qed.

Lemma run_reviews_persist o e d : reviews_persist d (run o e d).
Proof.
  eapply (changes_rel reviews_persist); [|apply run_changes]. intros k x y _. apply change_reviews.
Qed.

(** A committed decision whose receipt is its own. *)
Lemma settles_extend dec status state scope p d d' rr :
  settles dec status scope p d d' rr → carries p state → outcome_of dec status state →
  reviews_persist d d' → events_decide d → events_decide d'.
Proof.
  intros Hs Hc Ho Hp Hev. apply (events_extend d); [done..|].
  pose proof (se_claim _ _ _ _ _ _ _ Hs) as Hcl. pose proof (se_source _ _ _ _ _ _ _ Hs) as Hsrc.
  unfold carries in Hc. destruct (CardReceipt p) as [rec|]; simpl in Hcl; [|by left].
  right. destruct Hcl as [Hnone (t & Hr)]. eexists _, _. split; [exact Hnone|]. split; [exact Hr|].
  intros a [Hu Hd]. simpl in Hu. destruct Hc as (b & Hb & Hbd & Hbs & Hbo & Hne & Hjt).
  rewrite Hb, card_roundtrip in Hu. injection Hu as <-. split.
  - destruct (se_row _ _ _ _ _ _ _ Hs) as (tm & Hrow).
    eexists. split; [exact Hrow|]. unfold settle, decision_source. rewrite (Hsrc ltac:(done)).
    assert (outcome_of dec status (json_text state)) as Ho'.
    { destruct Ho as [(-> & -> & ->)|(-> & -> & ->)]; [by left|by right]. }
    simpl. rewrite Hbo, Hbs, Hjt. by destruct status.
  - exists rr. split; [apply (se_request _ _ _ _ _ _ _ Hs)|apply (se_pending _ _ _ _ _ _ _ Hs)].
Qed.

Lemma insert_receipt_outcome rec e d :
  let d' := (InsertCardActionReceipt rec e d).2 in
  receipts d' = receipts d
  ∨ ∃ t, receipts d !! EventID rec = None ∧ receipts d'
      = <[EventID rec := mkReceipt (EventID rec) (ReceiptReviewID rec) (Decision_ rec)
                           (StoredResponse rec) t]> (receipts d).
Proof.
  unfold InsertCardActionReceipt, autocommit, insertCardActionReceipt, catch, execE, statement,
    insert_receipt, fail. unfold mbind, tx_bind, now. cbn [tick bump db].
  simpl. destruct (faults e 1) as [[n k]|]; simpl.
  - left. by destruct (n =? 1062)%Z.
  - destruct (receipts d !! EventID rec) eqn:E; simpl; [by left|]. right. eauto.
Qed.

Lemma honest_step o e d : honest o → events_decide d → events_decide (run o e d).
Proof.
  intros Ho Hev. pose proof (run_reviews_persist o e d) as Hp.
  assert (mem KReceipt (op_kinds o) = false → events_decide (run o e d)) as Hquiet.
  { intros HK. apply (events_extend d); [done..|]. left. eapply changes_receipts; [apply run_changes|done]. }
  destruct o; try (by apply Hquiet); simpl in *.
  - apply Hquiet. by destruct (EnforceListingGate m).
  - destruct (ApproveReview scope p e d) as [[q|err] d'] eqn:E; simpl in *.
    + apply approve_settles in E as [rr Hs].
      eapply (settles_extend _ _ cardStateApproved); [exact Hs|done|by left|done|done].
    + by rewrite (transact_error _ _ _ _ _ E).
  - destruct (RejectReview scope p e d) as [[q|err] d'] eqn:E; simpl in *.
    + apply reject_settles in E as [rr Hs].
      eapply (settles_extend _ _ cardStateDenied); [exact Hs|done|by right|done|done].
    + by rewrite (transact_error _ _ _ _ _ E).
  - apply (events_extend d); [done..|].
    destruct (insert_receipt_outcome rec e d) as [?|(t & Hn & Hr)]; [by left|right].
    eexists _, _. split; [exact Hn|]. split; [exact Hr|]. intros a [Hu Hd]. simpl in Hu.
    by destruct (Ho a Hu).
Qed.

Lemma card_op_honest ev op dec rid o :
  op ≠ "" → json_text op = op → dec = "approve" ∨ dec = "deny" →
  card_op ev op dec rid o → honest o.
Proof.
  intros Hne Hjt Hdec. destruct o; try done; simpl.
  - intros (-> & answer & t & reason & -> & Hd & Hs). unfold carries. simpl. by eexists.
  - intros (Hna & answer & t & reason & -> & Hd & Hs). destruct Hdec as [->| ->]; [done|].
    unfold carries. simpl. by eexists.
  - intros (answer & t & -> & Hd) a. simpl. rewrite card_roundtrip. intros [= <-]. simpl.
    intros Hj. apply Hd. by apply (json_text_const _ cardDispositionApplied).
Qed.

(** C9: an applied answer is a committed decision. Along every run in which the
    requests in between are honest about receipts, every event answered
    "applied" decided its request, by IM, with the status and the operator of
    its receipt, and no two events decide one request; a delivery keeps this
    true, and when it answers "applied" its request is decided accordingly:
    approved for the button "approve", rejected for "deny". *)
Theorem card_applied_means_decided ev op dec rid e s r s' :
  json_text (TrimSpace op) = TrimSpace op →
  polite honest e → events_decide (tables s) →
  DecideReviewFromCard ev op dec rid e s = (r, s') →
  events_decide (tables s')
  ∧ ∀ a, r = Ok a → json_text (Disposition a) = cardDispositionApplied →
      ∃ rr, reviews (tables s') !! TrimSpace rid = Some rr
        ∧ rr_decision_source rr = Some SourceIM ∧ rr_reviewer_uid rr = Some (TrimSpace op)
        ∧ outcome_of (TrimSpace dec) (rr_status rr) (json_text (State a)).
Proof.
  intros Hop He Hev Hrun.
  assert (events_decide (tables s')) as Hev'.
  { destruct (decide (TrimSpace op = "" ∨ ¬ (TrimSpace dec = "approve" ∨ TrimSpace dec = "deny"))) as [Hbad|Hok].
    - enough (s' = s) as -> by done. revert Hrun. unfold DecideReviewFromCard. cbv zeta.
      destruct (String.eqb_spec (TrimSpace op) ""); [rewrite orb_true_r; simpl; by intros [= _ <-]|].
      destruct Hbad as [?|Hbad]; [done|]. case_match; [by intros [= _ <-]|].
      destruct (String.eqb_spec (TrimSpace dec) "approve"); [naive_solver|].
      destruct (String.eqb_spec (TrimSpace dec) "deny"); [naive_solver|]. by intros [= _ <-].
    - assert (TrimSpace op ≠ "" ∧ (TrimSpace dec = "approve" ∨ TrimSpace dec = "deny")) as [Hne Hdec]
        by (destruct (decide (TrimSpace op = "")), (decide (TrimSpace dec = "approve")),
              (decide (TrimSpace dec = "deny")); naive_solver).
      assert (performs honest (DecideReviewFromCard ev op dec rid)) as Hperf.
      { apply DecideReviewFromCard_performs. intros o. by apply card_op_honest. }
      specialize (Hperf e s He). rewrite Hrun in Hperf. simpl in Hperf. revert Hev.
      assert (PreOrder (λ x y, events_decide x → events_decide y)) as Hpre
        by (split; [by intros x|intros x y z; auto]).
      apply (runs_rel honest (λ x y, events_decide x → events_decide y)); [|done].
      intros o env x. apply honest_step. }
  split; [done|]. intros a -> Hd.
  pose proof (DecideReviewFromCard_logged ev op dec rid e s Hop) as Hl.
  unfold swp in Hl. rewrite Hrun in Hl. specialize (Hl a eq_refl).
  destruct Hl as (rec & stored & Hrec & Hdec & Hw). unfold decodeCardActionReceipt in Hdec.
  destruct (String.eqb_spec (rc_review_id rec) (TrimSpace rid)) as [Hrid|]; [|done].
  destruct (String.eqb_spec (rc_decision rec) (TrimSpace dec)) as [Hrd|]; [|done]. simpl in Hdec.
  destruct (unmarshal_card (rc_stored_response rec)) as [x|] eqn:Hu; [|done].
  assert (sc_result x = stored ∧ (sc_operator x = "" ∨ sc_operator x = TrimSpace op)) as [Hx Hxo].
  { destruct (String.eqb_spec (sc_operator x) ""); simpl in Hdec; [injection Hdec as ->; auto|].
    destruct (String.eqb_spec (sc_operator x) (TrimSpace op)); [|done]. injection Hdec as ->. auto. }
  assert (json_text (Disposition stored) = json_text (Disposition a)
          ∧ json_text (State stored) = json_text (State a)) as [Hwd Hws]
    by (unfold wire in Hw; by injection Hw).
  destruct (proj1 Hev' _ rec x Hrec) as (rr & Hrr & Hsrc & Hru & Hne & Hout).
  { split; [done|]. rewrite Hx. apply json_text_const; [done|]. congruence. }
  rewrite Hrid in Hrr. exists rr. split_and!; [done..| |].
  - rewrite Hru. f_equal. naive_solver.
  - rewrite Hrd, Hx in Hout. rewrite <-Hws. unfold outcome_of in *.
    destruct Hout as [(-> & -> & ->)|(-> & -> & ->)]; [by left|by right].
Qed.
End CardAction.
