(* ===== verification/ReviewService.v ===== *)
(** * The review queue: service/plugin/review.go, review_policy.go, listing.go

    What a Space's members and reviewers may do with review requests: list and
    read them, decide and withdraw them, take a listed plugin down, and set the
    automatic-review policy; the automatic approval of a submission with its
    compensation. Each operation is the service's guards around repository
    transactions that other requests interleave with. *)

From S2P Require Import Prelude GoStrings Model Notify Store Rows RowWrites Write Review Listing Changes Operations Lifecycle Service Decisions Settlement CardAction.
Import Go.
Local Open Scope string_scope.

Definition maxRejectReasonRunes : nat := 1000.
Definition maxListLimit : Z := 100.

Definition isReviewer (caller : Caller) : bool :=
  CIsSystemAdmin caller || (SpaceRoleAdmin <=? CSpaceRole caller)%Z.

(** The response projection of a stored request that a card is built from. *)
Record ReviewProjection := mkProjection {
  pj_row : ReviewRow;
  pj_plugin_name : string;
  pj_plugin_type : PluginType;
  pj_current_version : option string
}.

Definition CardActionTypeReviewDecision : string := "marketplace.plugin_review.decision".

Section ReviewService.
Context `{Host}.

Definition authorized (caller : Caller) : Svc unit := lift (validateCaller caller).

(** ** Reads *)

(** [offset] is an int: a page number large enough wraps around. *)
Definition review_filter (caller : Caller) (applicant : string) (status : option ReviewStatus)
    (page pageSize : Z) : ReviewListFilter :=
  let pageSize := if (pageSize <=? 0)%Z || (maxListLimit <? pageSize)%Z then 20%Z else pageSize in
  let page := if (page <? 1)%Z then 1%Z else page in
  mkReviewFilter (CSpaceID caller) applicant status pageSize
    (int64 (int64 (page - 1) * pageSize)%Z).

Definition ListReviews (caller : Caller) (mode : string) (status : option ReviewStatus)
    (page pageSize : Z) : Svc (list ReviewRow * nat) :=
  authorized caller;;
  applicant ← (if String.eqb mode "mine" then mret (CUID caller)
               else if String.eqb mode "space" then
                 svc_require (isReviewer caller) SErrReviewForbidden;; mret ""
               else svc_fail SErrReviewInvalid);
  r ← read (λ d, Ok (ListReviewRequests (review_filter caller applicant status page pageSize) d));
  mapped r.

Definition GetReview (caller : Caller) (reviewID : string) : Svc ReviewRow :=
  authorized caller;;
  let reviewID := TrimSpace reviewID in
  svc_require (negb (String.eqb reviewID "")) SErrReviewInvalid;;
  r ← read (GetReviewRequest (caller_scope caller) reviewID (isReviewer caller));
  mapped r.

(** ** Decisions *)

Definition svcApproveReview (caller : Caller) (reviewID : string) : Svc Plugin :=
  authorized caller;;
  let reviewID := TrimSpace reviewID in
  svc_require (negb (String.eqb reviewID "")) SErrReviewInvalid;;
  svc_require (isReviewer caller) SErrReviewForbidden;;
  r ← call (ApproveReview (caller_scope caller)
              (mkDecision None reviewID (CUID caller) (CName caller) "" (Some SourceWeb)
                 (CRequestID caller) None));
  mapped r.

Definition svcRejectReview (caller : Caller) (reviewID reason : string) : Svc unit :=
  authorized caller;;
  let reviewID := TrimSpace reviewID in
  svc_require (negb (String.eqb reviewID "")) SErrReviewInvalid;;
  let reason := TrimSpace reason in
  svc_require (negb (String.eqb reason "")) SErrReasonRequired;;
  svc_require (negb (maxRejectReasonRunes <? RuneCountInString reason)%nat) SErrReviewInvalid;;
  svc_require (isReviewer caller) SErrReviewForbidden;;
  r ← call (RejectReview (caller_scope caller)
              (mkDecision None reviewID (CUID caller) (CName caller) reason (Some SourceWeb)
                 (CRequestID caller) None));
  keys ← mapped r;
  cleanupOrphanedReviewObjects keys.1 keys.2.

Definition svcCancelReview (caller : Caller) (reviewID : string) : Svc unit :=
  authorized caller;;
  let reviewID := TrimSpace reviewID in
  svc_require (negb (String.eqb reviewID "")) SErrReviewInvalid;;
  r ← call (CancelReview (caller_scope caller) reviewID (CUID caller));
  keys ← mapped r;
  cleanupOrphanedReviewObjects keys.1 keys.2.

(** ** Takedown (listing.go) *)

Definition Delist (caller : Caller) (pluginID reason : string) : Svc Plugin :=
  authorized caller;;
  let pluginID := TrimSpace pluginID in
  let reason := TrimSpace reason in
  svc_require (negb (String.eqb pluginID "")) SErrInvalidRequest;;
  svc_require (negb (maxRejectReasonRunes <? RuneCountInString reason)%nat)
    (SErrField "reason" "too_long");;
  svc_require (isReviewer caller) SErrReviewForbidden;;
  r ← call (DelistPlugin (caller_scope caller)
              (mkDelist pluginID (CUID caller) (CName caller) (CRequestID caller) reason));
  match r with
  | Error ErrConflict => svc_fail SErrNotPublished
  | _ => mapped r
  end.

(** ** The automatic-review policy (review_policy.go) *)

Definition svcGetReviewPolicy (caller : Caller) : Svc bool :=
  authorized caller;;
  r ← call (GetReviewPolicy (caller_scope caller)); mapped r.

Definition UpdateReviewPolicy (caller : Caller) (enabled : bool) : Svc bool :=
  authorized caller;;
  svc_require (SpaceRoleAdmin <=? CSpaceRole caller)%Z SErrReviewPolicyForbidden;;
  r ← call (UpsertReviewPolicy (caller_scope caller) enabled (CUID caller) (CName caller));
  mapped r.

(** ** Approval cards and automatic approval *)

(** The card queued for the administrators, when notification is configured. *)
Definition dispatchReviewCard (caller : Caller) (stored : ReviewProjection) (plugin : option Plugin)
    : Svc unit :=
  enabled ← ask_notify NotifyEnabled;
  if negb enabled then mret tt
  else
    let rr := pj_row stored in
    let name := if String.eqb (pj_plugin_name stored) ""
                then default "" (Name <$> plugin) else pj_plugin_name stored in
    bestEffort (mkNotifyRequest (rr_space_id rr) "marketplace" (CUID caller)
      (Some (mkCard CardActionTypeReviewDecision (CardTitle name)
        (CardDescription (pj_plugin_type stored) (CName caller) (rr_version rr)
           (default "" (pj_current_version stored)) (rr_kind rr) (default "" (rr_changelog rr)))
        [("review_id", rr_id rr); ("plugin_id", rr_plugin_id rr)]))).

(** Approve under the policy. When the approval fails, withdraw the request,
    delete its orphaned objects, and then make the upload retryable; when
    even the withdrawal fails, send the request to the administrators. *)
Definition autoApproveReview (caller : Caller) (review : ReviewProjection) (parseTaskID : string)
    : Svc Plugin :=
  let id := rr_id (pj_row review) in
  approved ← call (ApproveReview (caller_scope caller)
    (mkDecision None id (CUID caller) (CName caller) "" (Some SourcePolicy) (CRequestID caller) None));
  match approved with
  | Ok published => mret published
  | Error approveErr =>
      canceled ← call (CancelReview (caller_scope caller) id (CUID caller));
      match canceled with
      | Error _ =>
          dispatchReviewCard caller review None;; svc_fail (mapStoreError approveErr)
      | Ok (frozenKeys, retained) =>
          cleanupOrphanedReviewObjects frozenKeys retained;;
          let parseTaskID := TrimSpace parseTaskID in
          (if String.eqb parseTaskID "" then mret tt else emit [ERelease parseTaskID]);;
          svc_fail (mapStoreError approveErr)
      end
  end.

(** ** Guards *)

(** The tables a call of the operation finds, other requests having run. *)
Definition found (e : SvcEnv) (s : SvcSt) : Db := others (between e (calls s)) (tables s).

(** Nothing of the operation's own happened: other requests at most. *)
Definition idle (e : SvcEnv) (s s' : SvcSt) : Prop :=
  effects s' = effects s ∧ (tables s' = tables s ∨ tables s' = found e s).

Definition discard {A} (m : Svc A) : Svc unit := λ e s,
  let '(r, s') := m e s in (match r with Ok _ => Ok tt | Error err => Error err end, s').

Inductive WebOp :=
| WApprove (reviewID : string)
| WReject (reviewID reason : string)
| WCancel (reviewID : string)
| WDelist (pluginID reason : string)
| WPolicy (enabled : bool).

Definition web_op (caller : Caller) (o : WebOp) : Svc unit :=
  match o with
  | WApprove id => discard (svcApproveReview caller id)
  | WReject id reason => svcRejectReview caller id reason
  | WCancel id => svcCancelReview caller id
  | WDelist id reason => discard (Delist caller id reason)
  | WPolicy b => discard (UpdateReviewPolicy caller b)
  end.

(** The authority an operation asks for. *)
Definition may (caller : Caller) (o : WebOp) : bool :=
  match o with
  | WCancel _ => true
  | WPolicy _ => (SpaceRoleAdmin <=? CSpaceRole caller)%Z
  | _ => isReviewer caller
  end.

Definition identified (caller : Caller) : bool :=
  negb (String.eqb (TrimSpace (CUID caller)) "") && negb (String.eqb (TrimSpace (CSpaceID caller)) "").

Lemma validate_identified caller :
  validateCaller caller = if identified caller then Ok tt else Error SErrInvalidRequest.
Proof. unfold validateCaller, identified. by destruct (String.eqb _ _), (String.eqb _ _). Qed.

(** A repository call that fails leaves the tables as other requests left them. *)
Lemma call_idle {A} (f : Env → Db → result Err A * Db) e s (Q : result SvcErr (result Err A) → SvcSt → Prop) :
  (∀ e d err d', f e d = (Error err, d') → d' = d) →
  (∀ err, Q (Ok (Error err)) (mkSvcSt (S (calls s)) (found e s) (effects s))) →
  (∀ a d, f (call_env e (calls s)) (found e s) = (Ok a, d) →
     Q (Ok (Ok a)) (mkSvcSt (S (calls s)) d (effects s))) →
  swp (call f) e s Q.
Proof.
  intros Hf He Ho. apply swp_call. intros [a|err] d Hr; [by apply Ho|].
  pose proof (Hf _ _ _ _ Hr) as ->. apply He.
Qed.

(** How an operation answers a caller: refused without a call when the caller
    may not ask for it, and without a change of its own whenever it fails. *)
Definition guarded {A} (ok : bool) (e : SvcEnv) (s : SvcSt) (r : result SvcErr A) (s' : SvcSt) : Prop :=
  (ok = false → s' = s ∧ ∃ err, r = Error err) ∧ (∀ err, r = Error err → idle e s s').

Lemma guarded_refuse {A} ok e s err : guarded (A:=A) ok e s (Error err) s.
Proof. split; [intros _; split; [done|by eexists]|]. intros _ _. split; auto. Qed.
Lemma guarded_fail {A} e s n err : guarded (A:=A) true e s (Error err) (mkSvcSt n (found e s) (effects s)).
Proof. split; [done|]. intros _ _. split; auto. Qed.
Lemma guarded_ok {A} e s (a : A) s' : guarded true e s (Ok a) s'.
Proof. by split. Qed.

Lemma guarded_discard {A} (m : Svc A) ok e s :
  swp m e s (guarded ok e s) → swp (discard m) e s (guarded ok e s).
Proof.
  unfold swp, discard. destruct (m e s) as [[a|err] s']; simpl; intros [Hr Hi].
  - split; [|done]. intros Hok. destruct (Hr Hok) as (_ & ? & ?). done.
  - split; [intros Hok; destruct (Hr Hok) as (-> & _); split; [done|by eexists]|].
    intros err' [= ->]. by eapply Hi.
Qed.

Lemma transact_unchanged {A} (m : Tx A) e d err d' : transact m e d = (Error err, d') → d' = d.
Proof. intros Hr. by rewrite <-(transact_error _ _ _ _ _ Hr). Qed.
Lemma autocommit_unchanged {A} (m : Tx A) e d err d' : autocommit m e d = (Error err, d') → d' = d.
Proof. unfold autocommit. destruct (m e (mkSt 0 d)) as [[a s]|]; intros H0; by injection H0. Qed.

(** The guards before the call of an operation. *)
Lemma swp_authorized caller ok e s {A} (k : Svc A) :
  (identified caller = true → swp k e s (guarded ok e s)) →
  swp (authorized caller;; k) e s (guarded ok e s).
Proof.
  intros Hk. apply swp_bind, swp_lift. rewrite validate_identified.
  destruct (identified caller); [by apply Hk|apply guarded_refuse].
Qed.

Lemma swp_guard b err ok e s {A} (k : Svc A) :
  (b = true → swp k e s (guarded ok e s)) →
  swp (svc_require b err;; k) e s (guarded ok e s).
Proof. intros Hk. apply swp_bind, swp_require; [done|]. intros _. apply guarded_refuse. Qed.

Ltac guards :=
  repeat first [ apply swp_authorized; intros ?
               | apply swp_guard; intros ? | progress cbv zeta ].

Lemma web_op_guarded caller o e s :
  swp (web_op caller o) e s (guarded (identified caller && may caller o) e s).
Proof.
  destruct o; unfold web_op; cbn [may]; try apply guarded_discard;
    unfold svcApproveReview, svcRejectReview, svcCancelReview, Delist, UpdateReviewPolicy; guards;
    repeat match goal with Hb : ?b = true |- context [?b] => rewrite Hb end; simpl; apply swp_bind;
    (apply call_idle; [intros ? ? ? ?; first [apply transact_unchanged|apply autocommit_unchanged]|..];
     intros; cbn [mapped map_error]; repeat swp_step; try apply guarded_ok; try apply guarded_fail).
Qed.

(** ** What a closed request leaves behind *)

(** A storage key of the request's sidecar that its plugin does not use: neither
    the live sidecar nor that of any of its versions names it. Other plugins
    and other requests are not asked, as the code does not ask them. *)
Definition orphan (rr : ReviewRow) (current : Plugin) (d : Db) (k : string) : Prop :=
  k ∈ sidecar_keys (rr_attachment_keys rr)
  ∧ k ∉ sidecar_keys (AttachmentKeys current)
  ∧ ∀ v, v ∈ versions_of (ID current) d → k ∉ sidecar_keys (pv_attachment_keys v).

(** The request is closed, with the group it leads or belongs to, the catalog
    and every other request are untouched, and the objects deleted after it are
    the orphans, no other. *)
Definition closed_cleanly (reviewID : string) (status : ReviewStatus) (caller : Caller)
    (d : Db) (s' : SvcSt) (rr : ReviewRow) (deleted : list string) : Prop :=
  ∃ current keys,
    closing reviewID (CSpaceID caller) status d (tables s') keys rr current
    ∧ (status = Canceled → rr_applicant_uid rr = CUID caller)
    ∧ ∀ k, k ∈ deleted ↔ orphan rr current d k.

Lemma sidecar_of_map raw k :
  k ∈ sidecar_keys raw ↔ k ≠ "" ∧ k ∈ (map_to_list (attachmentKeyMap raw)).*2.
Proof.
  unfold sidecar_keys, attachmentKeyMap. destruct (String.eqb_spec raw ""); simpl.
  - rewrite map_to_list_empty. set_solver.
  - destruct (unmarshal_sidecar raw) as [m [|]]; simpl.
    + by rewrite list_elem_of_filter.
    + rewrite map_to_list_empty. set_solver.
Qed.

Lemma cleanup_wp frozen retained e s :
  swp (cleanupOrphanedReviewObjects frozen retained) e s (λ r s',
    r = Ok tt ∧ tables s' = tables s ∧ ∃ deleted, effects s' = (effects s ++ (EDelete <$> deleted))%list
      ∧ (∀ k, k ∈ deleted ↔ (k ∈ sidecar_keys frozen ∧ k ∉ retained))).
Proof.
  apply swp_emit. split_and!; [done..|]. eexists. split; [done|]. intros k.
  rewrite list_elem_of_filter, sidecar_of_map. naive_solver.
Qed.

Lemma cleaned reviewID status caller d s' rr current keys deleted :
  (closing reviewID (CSpaceID caller) status d (tables s') keys rr current) →
  (status = Canceled → rr_applicant_uid rr = CUID caller) →
  (∀ k, k ∈ deleted ↔ (k ∈ sidecar_keys keys.1 ∧ k ∉ keys.2)) →
  closed_cleanly reviewID status caller d s' rr deleted.
Proof.
  intros Hc Ha Hd. exists current, keys. split_and!; [done..|]. intros k.
  rewrite Hd, (cl_sidecar _ _ _ _ _ _ _ _ Hc), (cl_retained _ _ _ _ _ _ _ _ Hc).
  unfold orphan. naive_solver.
Qed.


(** A withdrawal through the service is the applicant's own: it closes the
    pending request of the caller's Space as canceled, touches nothing else of
    the catalog, and deletes exactly the objects of its sidecar its plugin does not use. *)
Theorem withdrawal_by_applicant caller reviewID e s s' :
  web_op caller (WCancel reviewID) e s = (Ok tt, s') →
  ∃ rr deleted, closed_cleanly (TrimSpace reviewID) Canceled caller (found e s) s' rr deleted
    ∧ effects s' = (effects s ++ (EDelete <$> deleted))%list.
Proof.
  intros Hrun. pattern s'. eapply swp_ok; [|exact Hrun]. clear Hrun s'.
  simpl. unfold svcCancelReview. apply swp_bind, swp_lift.
  destruct (validateCaller caller); [|done]. cbv zeta.
  apply swp_bind, swp_require; intros ?; [|done].
  apply swp_bind, swp_call. intros [keys|err] d Hcall; [|done]. repeat swp_step.
  eapply swp_mono; [apply cleanup_wp|]. intros [[]|?] s2 (Hok & Ht & deleted & Heff & Hdel); [|done].
  intros _. apply withdrawal_leaves_catalog in Hcall as (rr & current & Happ & Hcl).
  exists rr, deleted. simpl in *. split; [|done]. eapply cleaned; [by rewrite Ht|done|exact Hdel].
Qed.

(** ** Automatic approval *)

(** Other requests have run before the second call of an operation. *)
Definition found_second (e : SvcEnv) (s : SvcSt) (d : Db) : Db := others (between e (S (calls s))) d.

(** What a failed automatic approval leaves: the request withdrawn, its orphans
    deleted and only then the upload released; or, when it could not be
    withdrawn, a card queued for the administrators if cards can be sent. *)
Inductive compensated (caller : Caller) (review : ReviewProjection) (parseTaskID : string)
    (e : SvcEnv) (s s' : SvcSt) : Prop :=
| comp_withdrawn rr deleted :
    closed_cleanly (rr_id (pj_row review)) Canceled caller (found_second e s (found e s)) s' rr deleted →
    effects s' = (effects s ++ (EDelete <$> deleted)
                  ++ (if String.eqb (TrimSpace parseTaskID) "" then []
                      else [ERelease (TrimSpace parseTaskID)]))%list →
    compensated caller review parseTaskID e s s'
| comp_reported req :
    tables s' = found_second e s (found e s) →
    NSpaceID req = rr_space_id (pj_row review) →
    (CData <$> NApprovalCard req)
      = Some [("review_id", rr_id (pj_row review)); ("plugin_id", rr_plugin_id (pj_row review))] →
    effects s' = (effects s ++ (if NotifyEnabled (notify e) then [ECard req] else []))%list →
    compensated caller review parseTaskID e s s'.

(** An automatic approval never strands a submission. It either approves the
    pending request by policy, or reports an error after compensating: the
    request is withdrawn, its orphans are deleted, and after that
    the upload becomes retryable; or, if the withdrawal failed too, the
    administrators are sent the request. *)
Theorem auto_approval_compensates caller review parseTaskID e s r s' :
  autoApproveReview caller review parseTaskID e s = (r, s') →
  match r with
  | Ok plugin => effects s' = effects s
      ∧ ∃ rr p t, reviews (found e s) !! rr_id (pj_row review) = Some rr ∧ rr_status rr = Pending
        ∧ decision_source p = SourcePolicy
        ∧ reviews (tables s') !! rr_id (pj_row review) = Some (settle Approved p None t rr)
  | Error _ => compensated caller review parseTaskID e s s'
  end.
Proof.
  intros Hrun.
  enough (swp (autoApproveReview caller review parseTaskID) e s (λ r s', match r with
    | Ok plugin => effects s' = effects s
        ∧ ∃ rr p t, reviews (found e s) !! rr_id (pj_row review) = Some rr ∧ rr_status rr = Pending
          ∧ decision_source p = SourcePolicy
          ∧ reviews (tables s') !! rr_id (pj_row review) = Some (settle Approved p None t rr)
    | Error _ => compensated caller review parseTaskID e s s' end)) as Hs
    by (unfold swp in Hs; by rewrite Hrun in Hs).
  clear Hrun r s'. unfold autoApproveReview. cbv zeta. apply swp_bind, call_idle.
  { intros ? ? ? ?. apply transact_unchanged. }
  - intros approveErr. apply swp_bind, call_idle.
    { intros ? ? ? ?. apply transact_unchanged. }
    + intros cancelErr. simpl. apply swp_bind. unfold dispatchReviewCard. apply swp_bind.
      unfold swp at 1, ask_notify. simpl. destruct (NotifyEnabled (notify e)) eqn:Hn; simpl.
      * unfold bestEffort. apply swp_emit. apply swp_fail. eapply comp_reported; cycle 3; [by rewrite Hn|done..].
      * apply swp_ret. apply swp_fail.
        apply (comp_reported _ _ _ _ _ _ (mkNotifyRequest (rr_space_id (pj_row review)) "" ""
          (Some (mkCard "" "" "" [("review_id", rr_id (pj_row review));
                                  ("plugin_id", rr_plugin_id (pj_row review))]))));
          [done..|]. by rewrite Hn, app_nil_r.
    + intros [frozen retained] d Hcall. simpl. apply swp_bind.
      eapply swp_mono; [apply cleanup_wp|]. intros [[]|?] s2 (Hok & Ht & deleted & Heff & Hdel); [|done].
      apply withdrawal_leaves_catalog in Hcall as (rr & current & Happ & Hcl).
      simpl in Ht, Heff. apply swp_bind.
      assert (∀ s3, tables s3 = tables s2 →
        closed_cleanly (rr_id (pj_row review)) Canceled caller (found_second e s (found e s)) s3 rr deleted) as Hclean.
      { intros s3 Hs3. eapply cleaned; [by rewrite Hs3, Ht|done|exact Hdel]. }
      destruct (String.eqb (TrimSpace parseTaskID) "") eqn:Hp.
      * apply swp_ret, swp_fail. eapply comp_withdrawn; [by apply Hclean|].
        by rewrite Hp, app_nil_r.
      * apply swp_emit, swp_fail. eapply comp_withdrawn; [by apply Hclean|]. simpl.
        by rewrite Hp, Heff, <-app_assoc.
  - intros plugin d Hcall. simpl. apply approve_settles in Hcall as [rr Hset].
    split; [done|]. destruct (se_row _ _ _ _ _ _ _ Hset) as (t & Hrow).
    eexists rr, _, t. split; [apply (se_request _ _ _ _ _ _ _ Hset)|].
    split; [apply (se_pending _ _ _ _ _ _ _ Hset)|]. split; [|exact Hrow]. done.
Qed.

End ReviewService.
