(* ===== verification/Json.v ===== *)
(** * JSON documents as Go decodes them

    The services of the catalog take JSON documents apart with [encoding/json]:
    into maps of raw messages, slices of them, structs and plain strings. This
    file models the values, those decodings and the printing of a map, the text
    form being a parameter, with the laws the other files rely on. *)

From S2P Require Import Prelude GoStrings Model Rows.
From Stdlib Require Import Ascii.
Import Go.
Local Open Scope string_scope.

(** ** JSON values

    A decoded document; a member list keeps the order and the repetitions of
    the text, a number its spelling. *)

Inductive json :=
| JNull
| JBool (b : bool)
| JNum (text : string)
| JStr (s : string)
| JArr (l : list json)
| JObj (members : list (string * json)).

(** [encoding/json]: the text of a value and back. *)
Class JsonText := {
  json_parse : string → option json;
  json_print : json → string
}.

(** Every string of the value is valid UTF-8. *)
Fixpoint text_ok (v : json) : bool :=
  match v with
  | JStr s => Valid s
  | JArr l => forallb text_ok l
  | JObj l => forallb (λ kv, Valid kv.1 && text_ok kv.2) l
  | _ => true
  end.

(** *** [map[string]json.RawMessage]: [None] is the nil map. *)

Abbreviation GoMap := (option (gmap string json)) (only parsing).

(** Of repeated members the last one counts. *)
Definition members_map (l : list (string * json)) : gmap string json := list_to_map (reverse l).

(** [json.Unmarshal] into such a map, and into a slice of them. *)
Definition as_fields (v : json) : option GoMap :=
  match v with
  | JNull => Some None
  | JObj l => Some (Some (members_map l))
  | _ => None
  end.

Definition as_maps (v : json) : option (list GoMap) :=
  match v with
  | JNull => Some []
  | JArr l => mapM as_fields l
  | _ => None
  end.

Definition field (m : GoMap) (k : string) : option json := m ≫= lookup k.

(** [_ = json.Unmarshal(raw, &s)] into a fresh string. *)
Definition as_string (v : json) : string := match v with JStr s => s | _ => "" end.
Definition string_field (m : GoMap) (k : string) : string := default "" (as_string <$> field m k).

(** [json.Marshal] of a map sorts its keys; a nil map is null. *)
Definition key_le (a b : string * json) : Prop := String.leb a.1 b.1 = true.
#[export] Instance key_le_dec : RelDecision key_le.
Proof. intros a b. unfold key_le. apply _. Defined.

Definition of_map (m : gmap string json) : json := JObj (merge_sort key_le (map_to_list m)).
Definition of_fields (m : GoMap) : json := match m with Some m => of_map m | None => JNull end.

(** What the text form guarantees: decoding yields valid text (malformed bytes
    are replaced), so does printing, a printed value is read back, and a map of strings is read
    back as the sidecar it is. *)
Class JsonLaws `{JsonText, Host} := {
  parse_text s v : json_parse s = Some v → text_ok v = true;
  parse_print v : text_ok v = true → json_parse (json_print v) = Some v;
  print_nonempty v : json_print v ≠ "";
  print_valid v : Valid (json_print v) = true;
  sidecar_text raw m ok : unmarshal_sidecar raw = (m, ok) →
    map_Forall (λ k v, Valid k = true ∧ Valid v = true) m;
  sidecar_print m : map_Forall (λ k v, Valid k = true ∧ Valid v = true) m →
    unmarshal_sidecar (json_print (of_map (JStr <$> m))) = (m, true)
}.

(** *** Structs: members are matched without regard to case, null leaves a
    field as it is, any other type is an error, which every caller treats as a
    failure of the whole document. *)

Record AttView := mkView {
  v_path : string;
  v_content_type : string;
  v_raw_content : string;
  v_storage_uri : string;
  v_content_size : Z;
  v_content_hash : string
}.
Definition zero_view : AttView := mkView "" "" "" "" 0 "".

Definition into_string (old : string) (v : json) : option string :=
  match v with JStr s => Some s | JNull => Some old | _ => None end.
Definition into_int64 (old : Z) (v : json) : option Z :=
  match v with JNum s => ParseInt s | JNull => Some old | _ => None end.

Definition set_view (name : string) (v : json) (a : AttView) : option AttView :=
  let '(mkView p t r u n h) := a in
  if String.eqb name "path" then (λ x, mkView x t r u n h) <$> into_string p v
  else if String.eqb name "content_type" then (λ x, mkView p x r u n h) <$> into_string t v
  else if String.eqb name "raw_content" then (λ x, mkView p t x u n h) <$> into_string r v
  else if String.eqb name "storage_uri" then (λ x, mkView p t r x n h) <$> into_string u v
  else if String.eqb name "content_size" then (λ x, mkView p t r u x h) <$> into_int64 n v
  else (λ x, mkView p t r u n x) <$> into_string h v.

(** One member into a struct that has the fields [names]. *)
Definition into_field {A} (names : list string) (put : string → json → A → option A)
    (a : A) (kv : string * json) : option A :=
  match List.find (EqualFold kv.1) names with
  | Some name => put name kv.2 a
  | None => Some a
  end.

Definition into_struct {A} (names : list string) (put : string → json → A → option A)
    (a : A) (v : json) : option A :=
  match v with
  | JNull => Some a
  | JObj l => foldl (λ o kv, a ← o; into_field names put a kv) (Some a) l
  | _ => None
  end.

Definition into_view (names : list string) : AttView → json → option AttView := into_struct names set_view.

(** A slice of structs: its length and the elements of its backing array, which
    a repeated member decodes over. *)
Definition Slice : Type := nat * list AttView.

Fixpoint into_elems (names : list string) (backing : list AttView) (l : list json) : option (list AttView) :=
  match l with
  | [] => Some backing
  | v :: l' =>
      a ← into_view names (default zero_view (head backing)) v;
      rest ← into_elems names (tail backing) l';
      Some (a :: rest)
  end.

Definition into_slice (names : list string) (s : Slice) (v : json) : option Slice :=
  match v with
  | JNull | JArr [] => Some (0%nat, [])
  | JArr l => (λ b, (length l, b)) <$> into_elems names s.2 l
  | _ => None
  end.

(** [struct { Attachments []struct {...} }] of a document; [None] is an error. *)
Definition attachment_structs (names : list string) (v : json) : option (list AttView) :=
  s ← into_struct ["attachments"] (λ _ v s, into_slice names s v) (0%nat, []) v;
  Some (firstn s.1 s.2).

Definition view_fields : list string :=
  ["path"; "content_type"; "raw_content"; "storage_uri"; "content_size"; "content_hash"].

(** ** Maps of valid text *)

Definition good_map (m : gmap string json) : Prop := map_Forall (λ k v, Valid k = true ∧ text_ok v = true) m.
Definition good (m : GoMap) : Prop := match m with Some m => good_map m | None => True end.

Lemma members_good l : forallb (λ kv, Valid kv.1 && text_ok kv.2) l = true → good_map (members_map l).
Proof.
  intros Hl k v Hkv. unfold members_map in Hkv. apply elem_of_list_to_map_2 in Hkv.
  rewrite elem_of_reverse, list_elem_of_In in Hkv. rewrite forallb_forall in Hl.
  apply Hl in Hkv. simpl in Hkv. by apply andb_true_iff in Hkv.
Qed.

Lemma as_fields_good v m : text_ok v = true → as_fields v = Some m → good m.
Proof. destruct v; simpl; intros Hv [= <-]; [done|]. by apply members_good. Qed.

Lemma as_maps_good v l : text_ok v = true → as_maps v = Some l → Forall good l.
Proof.
  destruct v; simpl; intros Hv Hl; try done; [injection Hl as <-; constructor|].
  apply mapM_Some in Hl. induction Hl as [|x y l0 l' Hxy _ IH]; [constructor|].
  simpl in Hv. apply andb_true_iff in Hv as [Hx Hv]. constructor; [by eapply as_fields_good|by apply IH].
Qed.

Lemma good_field m k v : good m → field m k = Some v → text_ok v = true.
Proof. destruct m as [m|]; [|done]. intros Hm Hk. by apply (Hm k). Qed.

Lemma good_insert k v m : Valid k = true → text_ok v = true → good m → good (<[k := v]> <$> m).
Proof. destruct m as [m|]; [|done]. intros Hk Hv Hm. by apply map_Forall_insert_2. Qed.

Lemma good_string_field m k : good m → Valid (string_field m k) = true.
Proof.
  intros Hm. unfold string_field. destruct (field m k) as [v|] eqn:E; [|done].
  apply (good_field _ _ _ Hm) in E. by destruct v.
Qed.

(** *** Printing a map and reading it back *)

Lemma of_map_text m : good_map m → text_ok (of_map m) = true.
Proof.
  intros Hm. simpl. rewrite forallb_forall. intros [k v]. rewrite <-list_elem_of_In.
  rewrite (merge_sort_Permutation key_le (map_to_list m)), elem_of_map_to_list.
  intros Hk%Hm. by apply andb_true_iff.
Qed.

Lemma of_fields_text m : good m → text_ok (of_fields m) = true.
Proof. destruct m as [m|]; [apply of_map_text|done]. Qed.

Lemma as_of_fields m : as_fields (of_fields m) = Some m.
Proof.
  destruct m as [m|]; [|done]. simpl. do 2 f_equal. unfold members_map.
  transitivity (list_to_map (map_to_list m) : gmap string json); [|apply list_to_map_to_list].
  apply list_to_map_proper; rewrite ?reverse_Permutation, ?(merge_sort_Permutation key_le); [|done].
  apply NoDup_fst_map_to_list.
Qed.

Lemma as_maps_of l : as_maps (JArr (of_fields <$> l)) = Some l.
Proof. simpl. apply mapM_Some. induction l; constructor; [apply as_of_fields|done]. Qed.

Lemma of_list_text l : Forall good l → text_ok (JArr (of_fields <$> l)) = true.
Proof. simpl. induction 1 as [|m l Hm _ IH]; [done|]. simpl. by rewrite of_fields_text. Qed.
