(* ===== verification/Documents.v ===== *)
(** * Plugin documents: service/plugin/documents.go

    A plugin is stored as JSON documents (manifest, package, tags) and a
    sidecar that maps the path of each storage attachment to the object that
    holds its bytes. This file models how a save takes the documents apart and
    puts them together: the object keys split out of a package, and put back
    for a client that saves what it fetched, and the canonical documents. The
    contract library octo-plugin-lib is a parameter. *)

From S2P Require Import Prelude GoStrings Model Notify Objects Store Rows CardAction Json.
From Stdlib Require Import Ascii.
Import Go.
Local Open Scope string_scope.

(** ** octo-plugin-lib *)

Class LibPlugin := {
  (** The name, the type and the labels (nil if absent). *)
  DecodeManifest : RawMessage → option (string * option PluginType * option (list string));
  CanonicalJSON : RawMessage → option RawMessage;
  DecodePackage : PluginType → RawMessage → bool;
  ComputePluginHash : RawMessage → RawMessage → option string
}.

Definition maxJSONBytes : Z := 2 ^ 20.
Definition maxNameBytes : Z := 160.
Definition maxTags : nat := 100.
Definition byte_len (s : string) : Z := Z.of_nat (String.length s).

Definition validName (v : string) : bool :=
  negb (String.eqb v "") && Valid v && (byte_len v <=? maxNameBytes)%Z && negb (ContainsByte v "000"%char).

Section Documents.
Context `{JsonText} `{Host} `{Crypto} `{LibPlugin}.

Definition parsed_fields (doc : RawMessage) : option GoMap := json_parse doc ≫= as_fields.

(** ** The host sidecar (documents.go) *)

Definition is_storage (a : GoMap) : bool := String.eqb (string_field a "content_type") "storage".
Definition drop_uri (a : GoMap) : GoMap := delete "storage_uri" <$> a.

(** The loop of [splitStorageKeysScoped]: the attachments without their keys,
    the sidecar and whether anything changed; [None] refuses the document. *)
Fixpoint strip_keys (allows : string → bool) (atts : list GoMap) (keys : gmap string string)
    : option (list GoMap * gmap string string * bool) :=
  match atts with
  | [] => Some ([], keys, false)
  | a :: atts' =>
      if negb (is_storage a) then
        '(rest, keys, changed) ← strip_keys allows atts' keys;
        Some (a :: rest, keys, changed)
      else
        let key := string_field a "storage_uri" in
        if negb (allows key) then None
        else
          '(rest, keys, _) ← strip_keys allows atts' (<[string_field a "path" := key]> keys);
          Some (drop_uri a :: rest, keys, true)
  end.

(** The package without its object keys and the sidecar, [""] when nil. *)
Definition splitStorageKeysScoped (pkg : RawMessage) (allows : string → bool)
    : option (RawMessage * RawMessage) :=
  doc ← parsed_fields pkg;
  match field doc "attachments" with
  | None => Some (pkg, "")
  | Some raw =>
      atts ← as_maps raw;
      '(atts', keys, changed) ← strip_keys allows atts ∅;
      if changed : bool then
        Some (json_print (of_fields (<["attachments" := JArr (of_fields <$> atts')]> <$> doc)),
              json_print (of_map (JStr <$> keys)))
      else Some (pkg, "")
  end.

Definition splitStorageKeys (pkg : RawMessage) (spaceID : string) :=
  splitStorageKeysScoped pkg (artifactWriteScope spaceID []).

(** The content hash of each storage attachment, by path; the last one counts. *)
Definition storageContentHashes (pkg : RawMessage) : gmap string string :=
  default ∅ (l ← json_parse pkg ≫= attachment_structs ["path"; "content_type"; "content_hash"];
    Some (foldl (λ m a, if String.eqb (v_content_type a) "storage"
                        then <[v_path a := v_content_hash a]> m else m) ∅ l)).

(** One attachment of [reinjectUpdateStorageKeys] and whether it changed. *)
Definition reinject_one (keys hashes : gmap string string) (a : GoMap) : GoMap * bool :=
  if negb (is_storage a) then (a, false)
  else match field a "storage_uri" with
  | Some _ => (a, false)
  | None =>
      let path := string_field a "path" in
      let hash := string_field a "content_hash" in
      match keys !! path with
      | Some key =>
          if String.eqb key "" then (a, false)
          else match hashes !! path with
               | Some prev =>
                   if String.eqb prev "" || negb (String.eqb prev hash) then (a, false)
                   else (<["storage_uri" := JStr key]> <$> a, true)
               | None => (a, false)
               end
      | None => (a, false)
      end
  end.

Definition reinjectUpdateStorageKeys (reqPkg oldPkg oldKeys : RawMessage) : RawMessage :=
  let keys := attachmentKeyMap oldKeys in
  if decide (keys = ∅) then reqPkg
  else
    let hashes := storageContentHashes oldPkg in
    default reqPkg (
      doc ← parsed_fields reqPkg;
      raw ← field doc "attachments";
      atts ← as_maps raw;
      let out := reinject_one keys hashes <$> atts in
      if existsb snd out then
        Some (json_print (of_fields
          (<["attachments" := JArr (of_fields <$> out.*1)]> <$> doc)))
      else None).

(** ** Raw attachments *)

Definition rawAttachmentContent (pkg : RawMessage) (path : string) : option string :=
  l ← json_parse pkg ≫= attachment_structs ["path"; "content_type"; "raw_content"];
  v_raw_content <$> List.find (λ a, String.eqb (v_path a) path && String.eqb (v_content_type a) "raw") l.

(** The object keys of a [skillRefDocument] (file_url, object_key,
    zip_object_key); its other fields only have to have their types. *)
Definition ref_fields : list string :=
  ["file_name"; "file_size"; "file_url"; "object_key"; "object_key_hash"; "object_key_size"; "zip_object_key"].

Definition set_ref (name : string) (v : json) (r : string * string * string)
    : option (string * string * string) :=
  let '(file, object, zip) := r in
  if String.eqb name "file_url" then (λ x, (x, object, zip)) <$> into_string file v
  else if String.eqb name "object_key" then (λ x, (file, x, zip)) <$> into_string object v
  else if String.eqb name "zip_object_key" then (λ x, (file, object, x)) <$> into_string zip v
  else if String.eqb name "file_size" || String.eqb name "object_key_size" then
    into_int64 0 v;; Some r
  else into_string "" v;; Some r.

Definition skillRefKeysAllowed (pkg : RawMessage) (allows : string → bool) : bool :=
  match rawAttachmentContent pkg "skill/ref.json" with
  | None => true
  | Some raw =>
      match json_parse raw ≫= into_struct ref_fields set_ref ("", "", "") with
      | None => false
      | Some (file, object, zip) =>
          forallb (λ key, String.eqb key "" || allows key) [object; zip; file]
      end
  end.

Definition ConnectorToolCount (pkg : RawMessage) : Z :=
  match rawAttachmentContent pkg "connector/tools.json" with
  | None => 0
  | Some raw =>
      match json_parse raw with
      | Some (JArr l) => Z.of_nat (length l)
      | _ => 0
      end
  end.

(** ** Canonical documents (documents.go, validation.go) *)

(** [None] is [ErrInvalidRequest] throughout. *)
Definition canonicalJSONValue (v : json) : option RawMessage :=
  let canonical := json_print v in
  if (maxJSONBytes <? byte_len canonical)%Z then None else Some canonical.

Definition hashJSON (canonical : RawMessage) : string := "sha256:" ++ sha256_hex canonical.

(** [json.Unmarshal] into [[]string]. *)
Definition as_strings (v : json) : option (list string) :=
  match v with
  | JNull => Some []
  | JArr l => mapM (λ x, match x with JStr s => Some s | JNull => Some "" | _ => None end) l
  | _ => None
  end.

(** Trimmed tags without repetitions; a blank, malformed or long one refuses. *)
Fixpoint trim_tags (seen : list string) (tags : list string) : option (list string) :=
  match tags with
  | [] => Some []
  | tag :: tags' =>
      let tag := TrimSpace tag in
      if String.eqb tag "" || negb (Valid tag) || (128 <? byte_len tag)%Z then None
      else if mem tag seen then trim_tags seen tags'
      else (tag ::.) <$> trim_tags (tag :: seen) tags'
  end.

Definition normalizeTags (raw : RawMessage) : option RawMessage :=
  if String.eqb (TrimSpace raw) "" then Some "[]"
  else if (maxJSONBytes <? byte_len raw)%Z then None
  else
    tags ← json_parse raw ≫= as_strings;
    if (maxTags <? length tags)%nat then None
    else out ← trim_tags [] tags; canonicalJSONValue (JArr (JStr <$> out)).

Definition sized (doc : RawMessage) : bool :=
  negb (String.eqb doc "") && (byte_len doc <=? maxJSONBytes)%Z.

Definition CanonicalizeManifest (name : string) (typ : PluginType) (tags manifest : RawMessage)
    : option (RawMessage * RawMessage) :=
  let trimmed := TrimSpace name in
  if negb (validName trimmed) || negb (sized manifest) then None
  else
    '(pluginName, pluginType, labels) ← DecodeManifest manifest;
    if negb (String.eqb pluginName trimmed) || negb (bool_decide (pluginType = Some typ)) then None
    else
      canonical ← CanonicalJSON manifest;
      normalizedTags ← normalizeTags tags;
      canonicalLabels ← canonicalJSONValue (JArr (JStr <$> default [] labels));
      if String.eqb canonicalLabels normalizedTags then Some (canonical, normalizedTags) else None.

Record CanonicalDocuments := mkDocuments {
  d_manifest : RawMessage;
  d_package : RawMessage;
  d_tags : RawMessage;
  d_attachment_keys : RawMessage;
  d_manifest_hash : string;
  d_plugin_hash : string
}.

Definition canonicalizeDocuments (name : string) (typ : PluginType) (tags manifest pkg : RawMessage)
    (spaceID : string) (trustLegacyRefs : bool) (resources : list (option Plugin))
    : option CanonicalDocuments :=
  '(m, t) ← CanonicalizeManifest name typ tags manifest;
  if negb (sized pkg) then None
  else
    '(stripped, keys) ← splitStorageKeysScoped pkg (artifactWriteScope spaceID resources);
    p ← CanonicalJSON stripped;
    if negb (DecodePackage typ p) then None
    else if negb trustLegacyRefs && negb (skillRefKeysAllowed p (artifactWriteScope spaceID resources)) then None
    else
      hash ← ComputePluginHash m p;
      Some (mkDocuments m p t keys (hashJSON m) hash).

Definition CanonicalizeDocuments (name : string) (typ : PluginType) (tags manifest pkg : RawMessage)
    (spaceID : string) := canonicalizeDocuments name typ tags manifest pkg spaceID false [].
Definition CanonicalizeMigratedDocuments (name : string) (typ : PluginType) (tags manifest pkg : RawMessage)
    (spaceID : string) := canonicalizeDocuments name typ tags manifest pkg spaceID true [].
Definition canonicalizePluginDocuments (p : option Plugin) (name : string) (typ : PluginType)
    (tags manifest pkg : RawMessage) (uploadSpace : string) :=
  canonicalizeDocuments name typ tags manifest pkg uploadSpace false [p].

(** ** What a document says *)

(** The attachments of a package. *)
Definition package_attachments (pkg : RawMessage) : option (list GoMap) :=
  doc ← parsed_fields pkg;
  match field doc "attachments" with Some raw => as_maps raw | None => Some [] end.

Definition strip_key (a : GoMap) : GoMap := if is_storage a then drop_uri a else a.

End Documents.


(** *** Splitting the keys out *)

Lemma good_drop m : good m → good (drop_uri m).
Proof. destruct m as [m|]; [|done]. apply map_Forall_delete. Qed.

(** The sidecar of a list of attachments: a later one overwrites an earlier one
    at its path. *)
Definition note_key (m : gmap string string) (a : GoMap) : gmap string string :=
  if is_storage a then <[string_field a "path" := string_field a "storage_uri"]> m else m.

Definition key_allowed (allows : string → bool) (a : GoMap) : bool :=
  negb (is_storage a) || allows (string_field a "storage_uri").

Lemma strip_keys_eq allows atts keys :
  strip_keys allows atts keys =
  if forallb (key_allowed allows) atts
  then Some (strip_key <$> atts, foldl note_key keys atts, existsb is_storage atts) else None.
Proof.
  revert keys. induction atts as [|a atts IH]; intros keys; [done|].
  simpl. unfold key_allowed at 1, strip_key at 1, note_key at 2.
  destruct (is_storage a); simpl; rewrite ?IH; [destruct (allows _); simpl; [|done]|];
    by destruct (forallb _ atts).
Qed.

Lemma add_keys_lookup atts m p k :
  foldl note_key m atts !! p = Some k →
  m !! p = Some k ∨ ∃ a, a ∈ atts ∧ is_storage a = true ∧ string_field a "path" = p ∧ string_field a "storage_uri" = k.
Proof.
  revert m. induction atts as [|a atts IH]; intros m; [by left|]. simpl. intros Hk.
  destruct (IH _ Hk) as [Ha|(b & Hb & ?)]; [|right; exists b; set_solver].
  unfold note_key in Ha. destruct (is_storage a) eqn:E; [|by left].
  apply lookup_insert_Some in Ha as [[<- <-]|[_ Ha]]; [|by left]. right. exists a. set_solver.
Qed.

Lemma add_keys_covers atts m p :
  is_Some (m !! p) ∨ (∃ a, a ∈ atts ∧ is_storage a = true ∧ string_field a "path" = p) →
  is_Some (foldl note_key m atts !! p).
Proof.
  revert m. induction atts as [|a atts IH]; intros m; simpl; [intros [?|(b & Hb & _)]; [done|set_solver]|].
  intros Hp. apply IH. unfold note_key.
  destruct Hp as [Hm|(b & [->|Hb]%elem_of_cons & Hs & <-)].
  - left. destruct (is_storage a); [|done]. destruct (decide (string_field a "path" = p)) as [->|];
      [by rewrite lookup_insert_eq|by rewrite lookup_insert_ne].
  - left. rewrite Hs, lookup_insert_eq. done.
  - right. by exists b.
Qed.

Lemma add_keys_none atts m : existsb is_storage atts = false → foldl note_key m atts = m.
Proof.
  induction atts as [|a atts IH]; [done|]. simpl. intros [Ha Hl]%orb_false_iff.
  unfold note_key. rewrite Ha. by apply IH.
Qed.

Lemma strip_none atts : existsb is_storage atts = false → strip_key <$> atts = atts.
Proof.
  induction atts as [|a atts IH]; [done|]. csimpl. intros [Ha Hl]%orb_false_iff.
  rewrite IH by done. unfold strip_key. by rewrite Ha.
Qed.

Lemma add_keys_good atts : Forall good atts →
  map_Forall (λ k v, Valid k = true ∧ Valid v = true) (foldl note_key ∅ atts).
Proof.
  intros Hl p k [Hm|(a & Ha & _ & <- & <-)]%add_keys_lookup; [done|].
  rewrite Forall_forall in Hl. apply Hl in Ha. split; by apply good_string_field.
Qed.

Lemma strip_good a : good a → good (strip_key a).
Proof. unfold strip_key. destruct (is_storage a); [apply good_drop|done]. Qed.

Section Packages.
Context `{JsonLaws}.

Lemma parsed_good s m : parsed_fields s = Some m → good m.
Proof.
  unfold parsed_fields. destruct (json_parse s) as [v|] eqn:E; [|done]. simpl.
  intros Hm. eapply as_fields_good, Hm. by eapply parse_text.
Qed.

Lemma parsed_print m : good m → parsed_fields (json_print (of_fields m)) = Some m.
Proof.
  intros Hm. unfold parsed_fields. rewrite parse_print by by apply of_fields_text. apply as_of_fields.
Qed.

Lemma attachments_good pkg l : package_attachments pkg = Some l → Forall good l.
Proof.
  unfold package_attachments. destruct (parsed_fields pkg) as [doc|] eqn:E; [|done]. simpl.
  destruct (field doc "attachments") as [raw|] eqn:Er; [|intros [= <-]; constructor].
  apply as_maps_good. eapply good_field; [by eapply parsed_good|done].
Qed.

(** A document with other attachments. *)
Definition with_attachments (doc : GoMap) (l : list GoMap) : GoMap :=
  <["attachments" := JArr (of_fields <$> l)]> <$> doc.

Lemma with_attachments_parsed m l : good (Some m) → Forall good l →
  parsed_fields (json_print (of_fields (with_attachments (Some m) l))) = Some (with_attachments (Some m) l)
  ∧ package_attachments (json_print (of_fields (with_attachments (Some m) l))) = Some l.
Proof.
  intros Hm Hl.
  assert (good (with_attachments (Some m) l)) as Hg by (apply good_insert; [done|by apply of_list_text|done]).
  unfold package_attachments. rewrite parsed_print by done. split; [done|].
  simpl. rewrite lookup_insert_eq. apply as_maps_of.
Qed.
Lemma attachmentKeyMap_print keys :
  map_Forall (λ k v, Valid k = true ∧ Valid v = true) keys →
  attachmentKeyMap (json_print (of_map (JStr <$> keys))) = keys.
Proof.
  intros Hk. unfold attachmentKeyMap.
  destruct (String.eqb_spec (json_print (of_map (JStr <$> keys))) "") as [E|]; [by apply print_nonempty in E|].
  by rewrite sidecar_print.
Qed.

(** The two outcomes of a split, for a package whose attachments decode. *)
Lemma split_outcome pkg allows doc atts :
  parsed_fields pkg = Some doc → package_attachments pkg = Some atts →
  match splitStorageKeysScoped pkg allows with
  | None => forallb (key_allowed allows) atts = false
  | Some (pkg', keys) =>
      forallb (key_allowed allows) atts = true
      ∧ package_attachments pkg' = Some (strip_key <$> atts)
      ∧ parsed_fields pkg' = Some (if existsb is_storage atts
                                   then with_attachments doc (strip_key <$> atts) else doc)
      ∧ attachmentKeyMap keys = foldl note_key ∅ atts
  end.
Proof.
  intros Hdoc Hatts. pose proof (parsed_good _ _ Hdoc) as Hgd. pose proof (attachments_good _ _ Hatts) as Hga.
  unfold splitStorageKeysScoped. unfold package_attachments in Hatts. rewrite Hdoc in *. simpl in *.
  destruct (field doc "attachments") as [raw|] eqn:Hraw; simpl in *.
  2:{ injection Hatts as <-. split_and!; [done| |done|done].
      unfold package_attachments. rewrite Hdoc. simpl. by rewrite Hraw. }
  rewrite Hatts. simpl. rewrite strip_keys_eq. destruct (forallb _ atts) eqn:Hall; simpl; [|done].
  destruct (existsb is_storage atts) eqn:Hch.
  - destruct doc as [m|]; [|done].
    assert (Forall good (strip_key <$> atts)) as Hgs.
    { apply Forall_fmap. eapply Forall_impl; [exact Hga|]. apply strip_good. }
    destruct (with_attachments_parsed m _ Hgd Hgs) as [Hp Ha]. split_and!; [done|done|done|].
    by apply attachmentKeyMap_print, add_keys_good.
  - rewrite strip_none, add_keys_none by done. split_and!; [done| |done|done].
    unfold package_attachments. rewrite Hdoc. simpl. by rewrite Hraw.
Qed.

Lemma split_decodes pkg allows r :
  splitStorageKeysScoped pkg allows = Some r →
  ∃ doc atts, parsed_fields pkg = Some doc ∧ package_attachments pkg = Some atts.
Proof.
  unfold splitStorageKeysScoped, package_attachments. destruct (parsed_fields pkg) as [doc|]; [|done].
  simpl. destruct (field doc "attachments") as [raw|]; [|by exists doc, []].
  destruct (as_maps raw) as [l|]; [|done]. by exists doc, l.
Qed.

(** *** Putting the keys back *)

Lemma reinject_unchanged keys hashes a : (reinject_one keys hashes a).2 = false → (reinject_one keys hashes a).1 = a.
Proof. unfold reinject_one. repeat case_match; done. Qed.

Lemma reinject_good keys hashes a :
  map_Forall (λ k v, Valid k = true ∧ Valid v = true) keys → good a → good (reinject_one keys hashes a).1.
Proof.
  intros Hk Ha. unfold reinject_one. repeat case_match; try done.
  apply good_insert; [done| |done]. simpl. by eapply Hk.
Qed.

Lemma sidecar_valid raw : map_Forall (λ k v, Valid k = true ∧ Valid v = true) (attachmentKeyMap raw).
Proof.
  unfold attachmentKeyMap. case_match; [apply map_Forall_empty|].
  destruct (unmarshal_sidecar raw) as [m [|]] eqn:E; [by eapply sidecar_text|apply map_Forall_empty].
Qed.

Lemma reinject_outcome req old keys doc atts :
  parsed_fields req = Some doc → package_attachments req = Some atts →
  let out := (λ a, (reinject_one (attachmentKeyMap keys) (storageContentHashes old) a).1) <$> atts in
  let req' := reinjectUpdateStorageKeys req old keys in
  package_attachments req' = Some out
  ∧ (parsed_fields req' = Some doc
     ∨ existsb is_storage atts = true ∧ parsed_fields req' = Some (with_attachments doc out)).
Proof.
  intros Hdoc Hatts. cbv zeta. pose proof (parsed_good _ _ Hdoc) as Hgd.
  pose proof (attachments_good _ _ Hatts) as Hga.
  unfold reinjectUpdateStorageKeys. set (K := attachmentKeyMap keys). set (H' := storageContentHashes old).
  assert (∀ l, existsb snd (reinject_one K H' <$> l) = false → (λ a, (reinject_one K H' a).1) <$> l = l) as Hid.
  { induction l as [|a l IH]; [done|]. csimpl. intros [Ha Hl]%orb_false_iff.
    rewrite IH by done. by rewrite reinject_unchanged. }
  assert (existsb snd (reinject_one K H' <$> atts) = false →
          package_attachments req = Some ((λ a, (reinject_one K H' a).1) <$> atts)) as Hsame.
  { intros E. by rewrite Hid. }
  destruct (decide (K = ∅)) as [HK|HK].
  { split; [|by left]. apply Hsame. rewrite HK. clear. induction atts as [|a atts IH]; [done|].
    csimpl. rewrite IH. unfold reinject_one. by repeat case_match. }
  unfold package_attachments in Hatts. rewrite Hdoc in *. simpl in *.
  destruct (field doc "attachments") as [raw|] eqn:Hraw; simpl in *.
  2:{ injection Hatts as <-. split; [by apply Hsame|by left]. }
  rewrite Hatts. simpl. destruct (existsb snd _) eqn:Hch; simpl; [|split; [by apply Hsame|by left]].
  destruct doc as [m|]; [|done].
  assert ((reinject_one K H' <$> atts).*1 = (λ a, (reinject_one K H' a).1) <$> atts) as ->
    by by rewrite <-list_fmap_compose.
  assert (Forall good ((λ a, (reinject_one K H' a).1) <$> atts)) as Hgo.
  { apply Forall_fmap. eapply Forall_impl; [exact Hga|]. intros a. apply reinject_good, sidecar_valid. }
  destruct (with_attachments_parsed m _ Hgd Hgo) as [Hp Ha]. split; [exact Ha|right; split; [|exact Hp]].
  apply existsb_exists in Hch as ([a' c] & Hin & Hc). apply list_elem_of_In, list_elem_of_fmap in Hin as (a & Ea & Hin).
  apply existsb_exists. exists a. split; [by apply list_elem_of_In|]. revert Ea. unfold reinject_one.
  destruct (is_storage a); [done|]. simpl in *. intros [= _ ->]. done.
Qed.

Lemma reinject_decodes req old keys doc' atts' :
  parsed_fields (reinjectUpdateStorageKeys req old keys) = Some doc' →
  package_attachments (reinjectUpdateStorageKeys req old keys) = Some atts' →
  ∃ doc atts, parsed_fields req = Some doc ∧ package_attachments req = Some atts.
Proof.
  unfold reinjectUpdateStorageKeys. case_decide; [by eauto|].
  destruct (parsed_fields req) as [doc|] eqn:Hdoc; simpl; [|by rewrite Hdoc].
  destruct (field doc "attachments") as [raw|] eqn:Hraw; simpl; [|by eauto].
  destruct (as_maps raw) as [l|] eqn:Hl; simpl; [|by eauto]. intros _ _. exists doc, l. split; [done|].
  unfold package_attachments. rewrite Hdoc. simpl. by rewrite Hraw.
Qed.

Lemma string_field_insert k k' v m : k ≠ k' → string_field (<[k' := v]> <$> m) k = string_field m k.
Proof. intros Hk. unfold string_field, field. destruct m; [|done]. simpl. by rewrite lookup_insert_ne. Qed.

(** Putting a key back changes nothing else. *)
Lemma reinject_fields keys hashes a :
  is_storage (reinject_one keys hashes a).1 = is_storage a
  ∧ string_field (reinject_one keys hashes a).1 "path" = string_field a "path"
  ∧ strip_key (reinject_one keys hashes a).1 = strip_key a.
Proof.
  assert (∀ v, is_storage (<["storage_uri" := v]> <$> a) = is_storage a
    ∧ string_field (<["storage_uri" := v]> <$> a) "path" = string_field a "path"
    ∧ (field a "storage_uri" = None → is_storage a = true →
       strip_key (<["storage_uri" := v]> <$> a) = strip_key a)) as Hi.
  { intros v. unfold strip_key, is_storage. rewrite !string_field_insert by done. split_and!; [done|done|].
    intros Hn ->. destruct a as [m|]; [|done]. unfold drop_uri. simpl. f_equal.
    by rewrite delete_insert_eq. }
  unfold reinject_one. destruct (is_storage a) eqn:Hs; simpl; [|done].
  destruct (field a "storage_uri") eqn:Hu; [done|]. repeat case_match; try done. simpl.
  destruct (Hi (JStr s)) as (H1' & H2' & Hst). split_and!; [congruence|done|by apply Hst].
Qed.

(** Where the key of an attachment comes from. *)
Lemma reinject_key keys hashes a k :
  string_field (reinject_one keys hashes a).1 "storage_uri" = k →
  k = "" ∨ field a "storage_uri" = Some (JStr k)
  ∨ field a "storage_uri" = None ∧ keys !! string_field a "path" = Some k
    ∧ string_field a "content_hash" ≠ ""
    ∧ hashes !! string_field a "path" = Some (string_field a "content_hash").
Proof.
  assert (string_field a "storage_uri" = k → k = "" ∨ field a "storage_uri" = Some (JStr k)) as Hown.
  { unfold string_field. destruct (field a "storage_uri") as [[]|]; simpl; intros <-; auto. }
  unfold reinject_one. destruct (negb (is_storage a)); simpl; [naive_solver|].
  destruct (field a "storage_uri") eqn:Hu; simpl; [naive_solver|].
  repeat (case_match; simpl; try naive_solver). unfold string_field at 1, field.
  destruct a as [m|]; simpl; [|naive_solver]. rewrite lookup_insert_eq. simpl. intros <-.
  right; right. bool_facts. subst. apply String.eqb_eq in H6 as <-. apply String.eqb_neq in H5. done.
Qed.

(** A missing key is never in scope. *)
Lemma no_key_allowed spaceID resources : artifactWriteScope spaceID resources "" = false.
Proof.
  unfold artifactWriteScope, validReferencedObjectKey. simpl. rewrite andb_false_r, orb_false_r.
  destruct resources as [|[p|] l]; [done| |done]. unfold Allows, within. simpl.
  destruct (Prefix (Some p)); simpl; rewrite ?andb_false_r; simpl; repeat case_match; rewrite ?andb_false_r; done.
Qed.

(** C16: the keys of a save are accounted for. When the package a client submits is
    accepted, after the keys of unchanged content were put back, its stored form
    has the submitted attachments without object keys, and the sidecar maps
    the path of every storage attachment, and no other path, to a key the caller may
    write to, which is the key submitted with an attachment at that path, or the key of the
    stored row at that path, for content whose hash is the stored one. *)
Theorem storage_keys_accounted req old oldKeys spaceID resources pkg keys :
  let allows := artifactWriteScope spaceID resources in
  splitStorageKeysScoped (reinjectUpdateStorageKeys req old oldKeys) allows = Some (pkg, keys) →
  ∃ atts, package_attachments req = Some atts
  ∧ package_attachments pkg = Some (strip_key <$> atts)
  ∧ (∀ path, is_Some (attachmentKeyMap keys !! path) ↔
       ∃ a, a ∈ atts ∧ is_storage a = true ∧ string_field a "path" = path)
  ∧ (∀ path key, attachmentKeyMap keys !! path = Some key →
       allows key = true ∧ ∃ a, a ∈ atts ∧ is_storage a = true ∧ string_field a "path" = path
       ∧ (field a "storage_uri" = Some (JStr key)
          ∨ field a "storage_uri" = None ∧ attachmentKeyMap oldKeys !! path = Some key
            ∧ string_field a "content_hash" ≠ ""
            ∧ storageContentHashes old !! path = Some (string_field a "content_hash"))).
Proof.
  cbv zeta. intros Hsplit. destruct (split_decodes _ _ _ Hsplit) as (doc' & atts' & Hdoc' & Hatts').
  destruct (reinject_decodes _ _ _ _ _ Hdoc' Hatts') as (doc & atts & Hdoc & Hatts).
  destruct (reinject_outcome req old oldKeys _ _ Hdoc Hatts) as [Hout _]. rewrite Hatts' in Hout.
  injection Hout as ->. pose proof (split_outcome _ (artifactWriteScope spaceID resources) _ _ Hdoc' Hatts') as Ho.
  rewrite Hsplit in Ho. destruct Ho as (Hall & Hpkg & _ & Hkeys). exists atts.
  set (f := λ a, (reinject_one _ _ a).1) in *.
  assert (∀ a, is_storage (f a) = is_storage a ∧ string_field (f a) "path" = string_field a "path"
               ∧ strip_key (f a) = strip_key a) as Hf by (intros a; apply reinject_fields).
  split_and!; [done| | |].
  - rewrite Hpkg, <-list_fmap_compose. f_equal. apply list_fmap_ext. intros ? a _. apply Hf.
  - intros path. rewrite Hkeys. split.
    + intros [k [|(b & Hb & Hs & Hp & _)]%add_keys_lookup]; [done|].
      apply list_elem_of_fmap in Hb as (a & -> & Ha). exists a. destruct (Hf a) as (<- & <- & _). done.
    + intros (a & Ha & Hs & Hp). apply add_keys_covers. right. exists (f a).
      destruct (Hf a) as (-> & -> & _). split; [|done]. by apply list_elem_of_fmap_2.
  - intros path key. rewrite Hkeys. intros [|(b & Hb & Hs & Hp & Hk)]%add_keys_lookup; [done|].
    rewrite forallb_forall in Hall. pose proof (Hall b (proj1 (list_elem_of_In _ _) Hb)) as Hal.
    unfold key_allowed in Hal. rewrite Hs, Hk in Hal. simpl in Hal. split; [done|].
    apply list_elem_of_fmap in Hb as (a & -> & Ha). exists a. destruct (Hf a) as (Hs' & Hp' & _).
    rewrite Hs in Hs'. rewrite Hp in Hp'. split_and!; [done|done|done|].
    destruct (reinject_key _ _ _ _ Hk) as [->|[?|(? & ? & ? & ?)]].
    + by rewrite no_key_allowed in Hal.
    + by left.
    + right. by rewrite Hp'.
Qed.

Lemma strip_fields a :
  is_storage (strip_key a) = is_storage a ∧ string_field (strip_key a) "path" = string_field a "path"
  ∧ strip_key (strip_key a) = strip_key a ∧ (is_storage a = true → field (strip_key a) "storage_uri" = None).
Proof.
  assert (∀ k, k ≠ "storage_uri" → string_field (drop_uri a) k = string_field a k) as Hd.
  { intros k Hk. unfold string_field, field, drop_uri. destruct a as [m|]; [|done]. simpl.
    by rewrite lookup_delete_ne. }
  unfold strip_key. destruct (is_storage a) eqn:Hs; [|by rewrite Hs].
  assert (is_storage (drop_uri a) = true) as -> by (unfold is_storage in *; by rewrite Hd).
  split_and!; [done|by apply Hd| |]; destruct a as [m|]; try done; unfold drop_uri; simpl.
  - f_equal. apply delete_delete_eq.
  - intros _. apply lookup_delete_eq.
Qed.

(** Unchanged content gets its key back. *)
Lemma reinject_back keys hashes a k :
  is_storage a = true → field a "storage_uri" = None → keys !! string_field a "path" = Some k → k ≠ "" →
  string_field a "content_hash" ≠ "" → hashes !! string_field a "path" = Some (string_field a "content_hash") →
  string_field (reinject_one keys hashes a).1 "storage_uri" = k.
Proof.
  intros Hs Hn Hk Hne Hh Hp. unfold reinject_one. rewrite Hs, Hn, Hk, Hp. simpl.
  apply String.eqb_neq in Hne, Hh. rewrite Hne, Hh, String.eqb_refl. simpl.
  destruct a as [m|]; [|done]. unfold string_field, field. simpl. by rewrite lookup_insert_eq.
Qed.

(** The sidecar of a package whose keys were put back. *)
Lemma reinject_sidecar K hashes (l : list GoMap) :
  (∀ a, a ∈ l → is_storage a = true →
     K !! string_field a "path" = Some (string_field (reinject_one K hashes a).1 "storage_uri")) →
  (∀ p, is_Some (K !! p) → ∃ a, a ∈ l ∧ is_storage a = true ∧ string_field a "path" = p) →
  foldl note_key ∅ ((λ a, (reinject_one K hashes a).1) <$> l) = K.
Proof.
  intros Hback Hcov.
  assert (∀ p k, foldl note_key ∅ ((λ a, (reinject_one K hashes a).1) <$> l) !! p = Some k → K !! p = Some k) as Hsub.
  { intros p k [|(b & Hb & Hs & <- & <-)]%add_keys_lookup; [done|].
    apply list_elem_of_fmap in Hb as (a & -> & Ha). destruct (reinject_fields K hashes a) as (Hs' & Hp' & _).
    rewrite Hs' in Hs. rewrite Hp'. by apply Hback. }
  apply map_eq. intros p.
  destruct (foldl note_key ∅ _ !! p) as [k|] eqn:E; [by rewrite (Hsub _ _ E)|].
  destruct (K !! p) as [k|] eqn:Ek; [|done]. destruct (Hcov p) as (a & Ha & Hs & <-); [by rewrite Ek|].
  destruct (reinject_fields K hashes a) as (Hs' & Hp' & _).
  destruct (add_keys_covers ((λ a, (reinject_one K hashes a).1) <$> l) ∅ (string_field a "path")) as [x Hx];
    [right|by rewrite Hx in E].
  exists (reinject_one K hashes a).1. split_and!; [|congruence|done]. by apply (list_elem_of_fmap_2 (λ a, (reinject_one K hashes a).1)).
Qed.

Lemma strip_reinject K hashes (l : list GoMap) :
  strip_key <$> ((λ a, (reinject_one K hashes a).1) <$> (strip_key <$> l)) = strip_key <$> l.
Proof.
  rewrite <-!list_fmap_compose. apply list_fmap_ext. intros ? a _. simpl.
  destruct (reinject_fields K hashes (strip_key a)) as (_ & _ & ->). apply strip_fields.
Qed.

(** The stored form: no attachment has a key, every key in the sidecar was allowed. *)
Lemma stored_keys allows atts path key :
  allows "" = false → forallb (key_allowed allows) atts = true →
  foldl note_key ∅ atts !! path = Some key → key ≠ "".
Proof.
  intros He Hok Hk ->. apply add_keys_lookup in Hk as [|(b & Hb & Hs & _ & Hu)]; [done|].
  rewrite forallb_forall in Hok. specialize (Hok b (proj1 (list_elem_of_In _ _) Hb)).
  unfold key_allowed in Hok. by rewrite Hs, Hu, He in Hok.
Qed.

Lemma existsb_strip (l : list GoMap) : existsb is_storage (strip_key <$> l) = existsb is_storage l.
Proof. induction l as [|a l IH]; [done|]. csimpl. rewrite IH. by destruct (strip_fields a) as (-> & _). Qed.

Lemma existsb_reinject K hashes (l : list GoMap) :
  existsb is_storage ((λ a, (reinject_one K hashes a).1) <$> l) = existsb is_storage l.
Proof. induction l as [|a l IH]; [done|]. csimpl. rewrite IH. by destruct (reinject_fields K hashes a) as (-> & _). Qed.

Lemma with_attachments_twice doc l l' : with_attachments (with_attachments doc l) l' = with_attachments doc l'.
Proof. destruct doc as [m|]; [|done]. unfold with_attachments. simpl. by rewrite insert_insert_eq. Qed.

(** C26: fetching a plugin and saving it changes nothing. A client gets the
    package as it was stored, without object keys. Submitted as it was fetched,
    by a caller who may write to the stored keys, it is accepted, and the
    stored form and the sidecar come out as they were, provided every storage
    attachment carries the hash the document records for its path. *)
Theorem fetch_edit_save req spaceID resources pkg keys allows :
  splitStorageKeysScoped req (artifactWriteScope spaceID resources) = Some (pkg, keys) →
  (∀ path key, attachmentKeyMap keys !! path = Some key → allows key = true) →
  (∀ atts a, package_attachments pkg = Some atts → a ∈ atts → is_storage a = true →
     string_field a "content_hash" ≠ ""
     ∧ storageContentHashes pkg !! string_field a "path" = Some (string_field a "content_hash")) →
  ∃ pkg' keys', splitStorageKeysScoped (reinjectUpdateStorageKeys pkg pkg keys) allows = Some (pkg', keys')
    ∧ parsed_fields pkg' = parsed_fields pkg ∧ attachmentKeyMap keys' = attachmentKeyMap keys.
Proof.
  intros Hsplit Hal Hhash. destruct (split_decodes _ _ _ Hsplit) as (doc & atts & Hdoc & Hatts).
  pose proof (split_outcome _ (artifactWriteScope spaceID resources) _ _ Hdoc Hatts) as Ho.
  rewrite Hsplit in Ho. destruct Ho as (Hok & Hpkg & Hparsed & Hkeys).
  pose proof (λ p k, stored_keys _ _ p k (no_key_allowed spaceID resources) Hok) as Hne.
  destruct (reinject_outcome pkg pkg keys _ _ Hparsed Hpkg) as [Hout Hform].
  set (K := attachmentKeyMap keys) in *. set (out := _ <$> (strip_key <$> atts)) in Hout, Hform.
  assert (∀ a, a ∈ strip_key <$> atts → is_storage a = true → K !! string_field a "path"
    = Some (string_field (reinject_one K (storageContentHashes pkg) a).1 "storage_uri")) as Hback.
  { intros a Ha Hs. destruct (Hhash _ _ Hpkg Ha Hs) as [Hhe Hh].
    apply list_elem_of_fmap in Ha as (a0 & -> & Ha0). destruct (strip_fields a0) as (Hs0 & Hp0 & _ & Hn0).
    rewrite Hs0 in Hs. destruct (add_keys_covers atts ∅ (string_field a0 "path")) as [k Hk]; [right; by exists a0|].
    pose proof (Hne _ _ Hk) as Hkne. rewrite <-Hkeys, <-Hp0 in Hk. rewrite Hk. f_equal. symmetry.
    apply reinject_back; rewrite ?Hs0; auto. }
  assert (foldl note_key ∅ out = K) as HK.
  { apply reinject_sidecar; [done|].
    intros p [k Hk]. rewrite Hkeys in Hk. apply add_keys_lookup in Hk as [|(a & Ha & Hs & Hp & _)]; [done|].
    exists (strip_key a). destruct (strip_fields a) as (-> & -> & _). split; [by apply list_elem_of_fmap_2|done]. }
  assert (∃ doc', parsed_fields (reinjectUpdateStorageKeys pkg pkg keys) = Some doc') as [doc' Hdoc'] by naive_solver.
  pose proof (split_outcome _ allows _ _ Hdoc' Hout) as Ho.
  destruct (splitStorageKeysScoped _ allows) as [[pkg' keys']|].
  - destruct Ho as (_ & _ & Hparsed' & Hkeys'). exists pkg', keys'. split; [done|]. split; [|by rewrite Hkeys', HK].
    rewrite Hparsed', Hparsed. unfold out. rewrite strip_reinject, existsb_reinject, existsb_strip. f_equal.
    rewrite existsb_strip in Hform. destruct (existsb is_storage atts); [|destruct Hform as [|[? _]]; congruence].
    destruct Hform as [Hform|[_ Hform]]; rewrite Hdoc' in Hform; injection Hform as ->; by rewrite !with_attachments_twice.
  - exfalso. apply not_true_iff_false in Ho. apply Ho, forallb_forall. intros b Hb. unfold key_allowed.
    destruct (is_storage b) eqn:Hs; [|done]. simpl. apply list_elem_of_In in Hb.
    apply list_elem_of_fmap in Hb as (a & -> & Ha).
    destruct (reinject_fields K (storageContentHashes pkg) a) as (Hs' & _). rewrite Hs' in Hs.
    by apply (Hal (string_field a "path")), Hback.
Qed.
End Packages.
