(* ===== verification/VersionArtifacts.v ===== *)
(** * The artifacts of a version: service/plugin/version_artifacts.go

    A save freezes every object its documents reference: the storage
    attachments and the objects of a skill pointer are copied under keys named
    by their digest, where no storage operation changes them, and the documents
    are rewritten to the new keys. *)

From S2P Require Import Prelude GoStrings Model Notify Objects Store Rows CardAction Json Documents.
From Stdlib Require Import Ascii.
Import Go.
Local Open Scope string_scope.

Section Walks.
Context `{JsonText} `{Host} `{Crypto} `{LibPlugin}.

(** ** Freezing what a document references (version_artifacts.go) *)

(** The bucket, the bytes counted so far and the artifacts handled. *)
Record FzSt := mkFz { fz_bucket : gmap string string; fz_total : Z; fz_count : nat }.

Definition Fz (A : Type) : Type := (nat → FreezeEnv) → FzSt → result FreezeError A * FzSt.
#[export] Instance fz_ret : MRet Fz := λ A a _ s, (Ok a, s).
#[export] Instance fz_bind : MBind Fz := λ A B f m e s,
  match m e s with (Ok a, s') => f a e s' | (Error err, s') => (Error err, s') end.
Definition fz_fail {A} (err : FreezeError) : Fz A := λ _ s, (Error err, s).
Definition fz_lift {A} (err : FreezeError) (o : option A) : Fz A :=
  match o with Some a => mret a | None => fz_fail err end.
Definition fz_require (b : bool) (err : FreezeError) : Fz unit := if b then mret tt else fz_fail err.

Section Walk.
Context (keyPrefix : string) (maxAttachmentBytes maxArchiveBytes : Z)
  (spaceID : string) (resources : list (option Plugin)).

Definition freeze (key : string) (limit : Z) : Fz (string * Z * string) := λ e s,
  let '(r, total, b) := freezeArtifact keyPrefix spaceID key limit (fz_total s) maxArchiveBytes resources
                          (e (fz_count s)) (fz_bucket s) in
  (r, mkFz b total (S (fz_count s))).

(** One of the object keys of a skill/ref.json pointer. *)
Definition freeze_ref_field (ref : GoMap) (f : string) : Fz (GoMap * bool) :=
  key ← fz_lift FInvalidRequest (match field ref f with Some v => into_string "" v | None => Some "" end);
  if String.eqb key "" then mret (ref, false)
  else
    '(frozen, size, digest) ← freeze key maxArchiveBytes;
    fz_require (match field ref (f ++ "_hash") with
                | Some v => bool_decide (into_string "" v = Some digest)
                | None => true
                end) FIntegrity;;
    fz_require (match field ref (f ++ "_size") with
                | Some v => bool_decide (into_int64 0 v = Some size)
                | None => true
                end) FIntegrity;;
    mret (<[f ++ "_hash" := JStr digest]> ∘ <[f ++ "_size" := JNum (pretty size)]>
          ∘ <[f := JStr frozen]> <$> ref, true).

Definition pointer_fields : list string := ["object_key"; "zip_object_key"; "file_url"].

Fixpoint freeze_ref (ref : GoMap) (fields : list string) : Fz (GoMap * bool) :=
  match fields with
  | [] => mret (ref, false)
  | f :: fields' =>
      '(ref, c) ← freeze_ref_field ref f;
      '(ref, c') ← freeze_ref ref fields';
      mret (ref, c || c')
  end.

(** The loop over the attachments; [changed] stays set once a pointer was
    rewritten. *)
Fixpoint freeze_attachments (atts : list GoMap) (keys : gmap string string) (changed : bool)
    : Fz (list GoMap * gmap string string * bool) :=
  match atts with
  | [] => mret ([], keys, changed)
  | att :: atts' =>
      a ← fz_lift FDocument (into_view view_fields zero_view (of_fields att));
      keys ← (if String.eqb (v_content_type a) "storage" then
                let key := default "" (keys !! v_path a) in
                let key := if String.eqb key "" then v_storage_uri a else key in
                '(frozen, size, digest) ← freeze key maxAttachmentBytes;
                fz_require ((v_content_size a =? size)%Z && String.eqb (v_content_hash a) digest) FIntegrity;;
                mret (<[v_path a := frozen]> keys)
              else mret keys);
      '(att, changed) ←
        (if String.eqb (v_content_type a) "raw" && String.eqb (v_path a) "skill/ref.json" then
           ref ← fz_lift FInvalidRequest (parsed_fields (v_raw_content a));
           '(ref, c) ← freeze_ref ref pointer_fields;
           let changed := changed || c in
           mret (if changed then <["raw_content" := JStr (json_print (of_fields ref))]> <$> att else att,
                 changed)
         else mret (att, changed));
      '(rest, keys, changed) ← freeze_attachments atts' keys changed;
      mret (att :: rest, keys, changed)
  end.

(** The documents with every referenced object frozen. *)
Definition freezeVersionArtifacts (typ : PluginType) (docs : CanonicalDocuments) : Fz CanonicalDocuments :=
  if decide (typ = Connector) then mret docs
  else
    doc ← fz_lift FDocument (parsed_fields (d_package docs));
    atts ← fz_lift FDocument (match field doc "attachments" with Some raw => as_maps raw | None => Some [] end);
    '(atts, keys, changed) ← freeze_attachments atts (attachmentKeyMap (d_attachment_keys docs)) false;
    let keysJSON := if decide (keys = ∅) then d_attachment_keys docs
                    else json_print (of_map (JStr <$> keys)) in
    if changed : bool then
      let raw := json_print (of_fields (<["attachments" := JArr (of_fields <$> atts)]> <$> doc)) in
      pkg ← fz_lift FDocument (CanonicalJSON raw);
      hash ← fz_lift FDocument (ComputePluginHash (d_manifest docs) pkg);
      mret (mkDocuments (d_manifest docs) pkg (d_tags docs) keysJSON (d_manifest_hash docs) hash)
    else
      mret (mkDocuments (d_manifest docs) (d_package docs) (d_tags docs) keysJSON
              (d_manifest_hash docs) (d_plugin_hash docs)).

End Walk.
End Walks.

(** ** What a walk does to the bucket *)

(** In the environments [E], [m] moves the bucket along [R]. *)
Definition fz_rel (R : relation (gmap string string)) (E : (nat → FreezeEnv) → Prop) {A} (m : Fz A) : Prop :=
  ∀ e s, E e → R (fz_bucket s) (fz_bucket (m e s).2).
Definition any_env (_ : nat → FreezeEnv) : Prop := True.
(** In every environment, storage operations. *)
Abbreviation fz_moves keyPrefix := (fz_rel (oss_steps keyPrefix) any_env).

Section Moves.
Context (R : relation (gmap string string)) `{!PreOrder R} (E : (nat → FreezeEnv) → Prop).

Lemma fz_rel_ret {A} (a : A) : fz_rel R E (mret a).
Proof. by intros e s _. Qed.
Lemma fz_rel_lift {A} err (o : option A) : fz_rel R E (fz_lift err o).
Proof. by intros e s _; destruct o. Qed.
Lemma fz_rel_require b err : fz_rel R E (fz_require b err).
Proof. by intros e s _; destruct b. Qed.
Lemma fz_rel_bind {A B} (m : Fz A) (f : A → Fz B) : fz_rel R E m → (∀ a, fz_rel R E (f a)) → fz_rel R E (a ← m; f a).
Proof.
  intros Hm Hf e s He. specialize (Hm e s He). unfold mbind, fz_bind. destruct (m e s) as [[a|err] s']; [|done].
  etrans; [exact Hm|by apply Hf].
Qed.
End Moves.

Lemma fz_moves_freeze `{Crypto} keyPrefix maxBytes spaceID resources key limit :
  fz_moves keyPrefix (freeze keyPrefix maxBytes spaceID resources key limit).
Proof.
  intros e s _. unfold freeze. destruct (freezeArtifact _ _ _ _ _ _ _ _ _) as [[r total] b] eqn:E.
  by eapply freeze_steps.
Qed.

Create HintDb moves.
#[export] Hint Resolve fz_rel_ret fz_rel_lift fz_rel_require fz_moves_freeze : moves.

(** One step of a [fz_rel] goal. *)
Ltac moves_step :=
  lazymatch goal with
  | |- ∀ _, _ => intros ?
  | |- fz_rel _ _ (mbind _ _) => apply fz_rel_bind; [apply _| |intros ?]
  | |- fz_rel _ _ (match ?x with _ => _ end) => destruct x
  | |- fz_rel _ _ (let _ := _ in _) => cbv zeta
  | _ => solve [eauto with moves typeclass_instances]
  end.
Ltac moves := repeat moves_step.

Section Walk_moves.
Context `{JsonText} `{Host} `{Crypto} `{LibPlugin}.
Context (R : relation (gmap string string)) `{!PreOrder R} (E : (nat → FreezeEnv) → Prop).
Context (keyPrefix : string) (maxAttachmentBytes maxArchiveBytes : Z)
  (spaceID : string) (resources : list (option Plugin)).
Hypothesis freezes : ∀ key limit, fz_rel R E (freeze keyPrefix maxArchiveBytes spaceID resources key limit).
#[local] Hint Resolve freezes : moves.

Lemma freeze_ref_rel ref l : fz_rel R E (freeze_ref keyPrefix maxArchiveBytes spaceID resources ref l).
Proof.
  revert ref. induction l as [|f l IH]; intros ref; simpl; [moves|].
  apply fz_rel_bind; [done| |intros [r c]; moves; apply IH]. unfold freeze_ref_field. moves.
Qed.

Lemma freeze_attachments_rel atts keys ch :
  fz_rel R E (freeze_attachments keyPrefix maxAttachmentBytes maxArchiveBytes spaceID resources atts keys ch).
Proof.
  revert keys ch. induction atts as [|a atts IH]; intros keys ch; cbn [freeze_attachments]; [moves|].
  apply fz_rel_bind; [done|moves|]. intros v. apply fz_rel_bind; [done|moves|]. intros keys'.
  apply fz_rel_bind; [done| |intros [att ch']; apply fz_rel_bind; [done|apply IH|moves]].
  destruct (_ && _); [|moves]. apply fz_rel_bind; [done|moves|]. intros ref.
  apply fz_rel_bind; [done|apply freeze_ref_rel|moves].
Qed.

Lemma freezeVersionArtifacts_rel typ docs :
  fz_rel R E (freezeVersionArtifacts keyPrefix maxAttachmentBytes maxArchiveBytes spaceID resources typ docs).
Proof.
  unfold freezeVersionArtifacts. destruct (decide _); [moves|]. apply fz_rel_bind; [done|moves|]. intros doc.
  apply fz_rel_bind; [done|moves|]. intros atts. apply fz_rel_bind; [done|apply freeze_attachments_rel|].
  intros [[atts' keys] ch]. moves.
Qed.
End Walk_moves.

Lemma freezeVersionArtifacts_moves `{JsonText} `{Host} `{Crypto} `{LibPlugin} keyPrefix a z sp resources typ docs :
  fz_moves keyPrefix (freezeVersionArtifacts keyPrefix a z sp resources typ docs).
Proof. apply freezeVersionArtifacts_rel; [apply _|]. intros. apply fz_moves_freeze. Qed.

(** ** What a successful walk guarantees *)

Definition view (a : GoMap) : AttView := default zero_view (into_view view_fields zero_view (of_fields a)).

(** The last storage attachment at a path. *)
Fixpoint last_at (atts : list GoMap) (p : string) : option AttView :=
  match atts with
  | [] => None
  | a :: atts' =>
      match last_at atts' p with
      | Some v => Some v
      | None => if String.eqb (v_content_type (view a)) "storage" && String.eqb (v_path (view a)) p
                then Some (view a) else None
      end
  end.

Definition is_pointer (v : AttView) : bool :=
  String.eqb (v_content_type v) "raw" && String.eqb (v_path v) "skill/ref.json".

Section Frozen.
Context `{JsonText} `{Host} `{CryptoLaws} `{LibPlugin}.
Context (keyPrefix : string) (maxAttachmentBytes maxArchiveBytes : Z)
  (spaceID : string) (resources : list (option Plugin)).
Hypothesis limits : (0 ≤ maxAttachmentBytes ∧ 0 ≤ maxArchiveBytes)%Z.

(** A pointer field of a rewritten pointer: the object is frozen, its size and
    digest recorded next to it. *)
Definition pinned (b : gmap string string) (ref : GoMap) (f : string) : Prop :=
  ∃ frozen n digest, field ref f = Some (JStr frozen) ∧ field ref (f ++ "_size") = Some (JNum (pretty n))
    ∧ field ref (f ++ "_hash") = Some (JStr digest) ∧ version_object keyPrefix frozen n digest b.

(** A pointer before and after: every object key it names is frozen. *)
Definition pointer_frozen (b : gmap string string) (ref ref' : GoMap) : Prop :=
  Forall (λ f, match field ref f with
               | Some (JStr k) => k ≠ "" → pinned b ref' f
               | _ => True
               end) pointer_fields.

Definition att_frozen (b : gmap string string) (a a' : GoMap) : Prop :=
  if is_pointer (view a) then
    ∃ ref ref', parsed_fields (v_raw_content (view a)) = Some ref ∧ pointer_frozen b ref ref'
      ∧ (a' = a ∧ ref' = ref ∨ a' = <["raw_content" := JStr (json_print (of_fields ref'))]> <$> a)
  else a' = a.

Lemma fz_bind_ok {A B} (m : Fz A) (f : A → Fz B) e s b s' :
  (x ← m; f x) e s = (Ok b, s') → ∃ a s1, m e s = (Ok a, s1) ∧ f a e s1 = (Ok b, s').
Proof. unfold mbind, fz_bind. destruct (m e s) as [[a|] s1]; [|done]. by eauto. Qed.

Lemma fz_lift_ok {A} err (o : option A) e s a s' : fz_lift err o e s = (Ok a, s') → o = Some a ∧ s' = s.
Proof. destruct o; simpl; [by intros [= -> ->]|done]. Qed.

Lemma fz_require_ok b err e s u s' : fz_require b err e s = (Ok u, s') → b = true ∧ s' = s.
Proof. destruct b; simpl; [by intros [= _ <-]|done]. Qed.

Lemma fz_ret_ok {A} (a b : A) (e : nat → FreezeEnv) s s' : (mret a : Fz A) e s = (Ok b, s') → b = a ∧ s' = s.
Proof. by intros [= -> ->]. Qed.

(** What every step keeps: the bucket moves by storage operations, the total
    only grows. *)
Definition fz_steps (s s' : FzSt) : Prop :=
  oss_steps keyPrefix (fz_bucket s) (fz_bucket s') ∧ (fz_total s ≤ fz_total s')%Z.
#[local] Instance fz_steps_preorder : PreOrder fz_steps.
Proof. split; [split; [constructor|lia]|intros x y z [H1' H2'] [H3' H4']; split; [by etrans|lia]]. Qed.

Lemma freeze_ok key limit e s frozen n digest s' : (0 ≤ limit)%Z →
  freeze keyPrefix maxArchiveBytes spaceID resources key limit e s = (Ok (frozen, n, digest), s') →
  fz_steps s s' ∧ version_object keyPrefix frozen n digest (fz_bucket s') ∧ Valid frozen = true.
Proof.
  intros Hl. unfold freeze. destruct (freezeArtifact _ _ _ _ _ _ _ _ _) as [[r total] b] eqn:E.
  intros [= -> <-]. pose proof (freeze_steps _ _ _ _ _ _ _ _ _ _ _ _ E).
  pose proof (freeze_key_text _ _ _ _ _ _ _ _ _ _ _ _ _ _ E).
  apply freeze_holds in E as (Hv & Hn & Ht & Hm); [|done]. split; [split; [done|simpl; lia]|]. by split.
Qed.

Lemma pinned_kept b b' ref f : oss_steps keyPrefix b b' → pinned b ref f → pinned b' ref f.
Proof.
  intros Hs (k & n & d & ? & ? & ? & Hv). exists k, n, d. split_and!; try done. by eapply version_object_kept.
Qed.

Lemma att_frozen_kept b b' a a' : oss_steps keyPrefix b b' → att_frozen b a a' → att_frozen b' a a'.
Proof.
  intros Hs. unfold att_frozen. case_match; [|done]. intros (ref & ref' & Hr & Hp & Ha). exists ref, ref'.
  split_and!; [done| |done]. eapply Forall_impl; [exact Hp|]. intros f Hf. cbn beta in *.
  destruct (field ref f) as [[]|]; try done. intros Hk. eapply pinned_kept; [done|by apply Hf].
Qed.

Lemma freeze_ref_field_ok ref f e s ref' c s' :
  freeze_ref_field keyPrefix maxArchiveBytes spaceID resources ref f e s = (Ok (ref', c), s') →
  f ≠ f ++ "_size" → f ≠ f ++ "_hash" → f ++ "_size" ≠ f ++ "_hash" →
  fz_steps s s' ∧ (c = false → ref' = ref)
  ∧ (∀ g, g ≠ f → g ≠ f ++ "_size" → g ≠ f ++ "_hash" → field ref' g = field ref g)
  ∧ match field ref f with Some (JStr k) => k ≠ "" → pinned (fz_bucket s') ref' f | _ => True end.
Proof.
  intros Hrun H1' H2' H3'. unfold freeze_ref_field in Hrun.
  apply fz_bind_ok in Hrun as (key & s1 & [Hkey ->]%fz_lift_ok & Hrun).
  destruct (String.eqb_spec key "") as [->|Hne].
  { apply fz_ret_ok in Hrun as [[= -> ->] ->]. split_and!; try done.
    destruct (field ref f) as [[]|]; try done. simpl in Hkey. by injection Hkey as ->. }
  apply fz_bind_ok in Hrun as ([[frozen n] digest] & s2 & Hf & Hrun).
  apply freeze_ok in Hf as (Hs & Hv & _); [|lia].
  apply fz_bind_ok in Hrun as (u1 & s3 & [_ ->]%fz_require_ok & Hrun).
  apply fz_bind_ok in Hrun as (u2 & s4 & [_ ->]%fz_require_ok & Hrun).
  apply fz_ret_ok in Hrun as [[= -> ->] ->].
  assert (∃ m, ref = Some m) as [m ->].
  { destruct ref; [by eauto|]. simpl in Hkey. by injection Hkey as <-. }
  split_and!; [done|done| |].
  - intros g Hg1 Hg2 Hg3. simpl. unfold field. simpl. by rewrite !lookup_insert_ne.
  - destruct (field (Some m) f) as [[]|]; try done. intros _. exists frozen, n, digest. unfold field. simpl.
    split_and!; [| | |done].
    + rewrite !lookup_insert_ne by done. by rewrite lookup_insert_eq.
    + rewrite lookup_insert_ne by done. by rewrite lookup_insert_eq.
    + by rewrite lookup_insert_eq.
Qed.

Lemma pinned_same b ref ref' f :
  field ref' f = field ref f → field ref' (f ++ "_size") = field ref (f ++ "_size") →
  field ref' (f ++ "_hash") = field ref (f ++ "_hash") → pinned b ref f → pinned b ref' f.
Proof. intros E1 E2 E3 (k & n & d & ?). exists k, n, d. by rewrite E1, E2, E3. Qed.

Lemma freeze_ref_ok ref e s ref' c s' :
  freeze_ref keyPrefix maxArchiveBytes spaceID resources ref pointer_fields e s = (Ok (ref', c), s') →
  fz_steps s s' ∧ (c = false → ref' = ref) ∧ pointer_frozen (fz_bucket s') ref ref'.
Proof.
  intros Hrun. simpl in Hrun.
  apply fz_bind_ok in Hrun as ([r1 c1] & s1 & R1 & Hrun).
  apply fz_bind_ok in Hrun as ([r2' c2'] & s2' & Hrun & [[= -> ->] ->]%fz_ret_ok).
  apply fz_bind_ok in Hrun as ([r2 c2] & s2 & R2 & Hrun).
  apply fz_bind_ok in Hrun as ([r3' c3'] & s3' & Hrun & [[= -> ->] ->]%fz_ret_ok).
  apply fz_bind_ok in Hrun as ([r3 c3] & s3 & R3 & Hrun).
  apply fz_bind_ok in Hrun as ([r4 c4] & s4 & [[= -> ->] ->]%fz_ret_ok & [[= -> ->] ->]%fz_ret_ok).
  apply freeze_ref_field_ok in R1 as (S1 & C1 & F1 & P1); [|done..].
  apply freeze_ref_field_ok in R2 as (S2 & C2 & F2 & P2); [|done..].
  apply freeze_ref_field_ok in R3 as (S3 & C3 & F3 & P3); [|done..].
  split; [by etrans; [exact S1|etrans]|]. split.
  { intros E. destruct c1, c2, c3; try done. by rewrite C3, C2, C1. }
  unfold pointer_frozen, pointer_fields. repeat (apply Forall_cons; split); [| | |by apply Forall_nil].
  - destruct (field ref "object_key") as [[]|]; try done. intros Hne. specialize (P1 Hne).
    eapply pinned_kept in P1; [|etrans; [apply S2|apply S3]].
    eapply pinned_same, P1; simpl; by rewrite F3, F2.
  - rewrite F1 in P2 by done. destruct (field ref "zip_object_key") as [[]|]; try done. intros Hne.
    specialize (P2 Hne). eapply pinned_kept in P2; [|apply S3]. eapply pinned_same, P2; simpl; by rewrite F3.
  - by rewrite F2, F1 in P3.
Qed.

(** One storage attachment, and one pointer, of the walk. *)
Definition storage_step (a : AttView) (keys : gmap string string) : Fz (gmap string string) :=
  if String.eqb (v_content_type a) "storage" then
    let key := default "" (keys !! v_path a) in
    let key := if String.eqb key "" then v_storage_uri a else key in
    '(frozen, size, digest) ← freeze keyPrefix maxArchiveBytes spaceID resources key maxAttachmentBytes;
    fz_require ((v_content_size a =? size)%Z && String.eqb (v_content_hash a) digest) FIntegrity;;
    mret (<[v_path a := frozen]> keys)
  else mret keys.

Definition pointer_step (a : AttView) (att : GoMap) (changed : bool) : Fz (GoMap * bool) :=
  if is_pointer a then
    ref ← fz_lift FInvalidRequest (parsed_fields (v_raw_content a));
    '(ref, c) ← freeze_ref keyPrefix maxArchiveBytes spaceID resources ref pointer_fields;
    let changed := changed || c in
    mret (if changed then <["raw_content" := JStr (json_print (of_fields ref))]> <$> att else att, changed)
  else mret (att, changed).

Lemma storage_step_ok a keys e s keys' s' :
  storage_step a keys e s = (Ok keys', s') →
  fz_steps s s' ∧ (∀ p, p ≠ v_path a → keys' !! p = keys !! p)
  ∧ if String.eqb (v_content_type a) "storage"
    then ∃ key, keys' !! v_path a = Some key
         ∧ version_object keyPrefix key (v_content_size a) (v_content_hash a) (fz_bucket s')
    else keys' = keys.
Proof.
  unfold storage_step. destruct (String.eqb (v_content_type a) "storage"); [|by intros [-> ->]%fz_ret_ok].
  intros ([[frozen n] digest] & s1 & Hf & Hrun)%fz_bind_ok.
  apply freeze_ok in Hf as (Hs & Hv & _); [|lia].
  apply fz_bind_ok in Hrun as (u1 & s3 & [Hc ->]%fz_require_ok & [-> ->]%fz_ret_ok).
  apply andb_true_iff in Hc as [Hn%Z.eqb_eq Hd%String.eqb_eq]. split_and!; [done| |].
  - intros p Hp. by rewrite lookup_insert_ne.
  - exists frozen. rewrite Hn, Hd, lookup_insert_eq. done.
Qed.

Lemma pointer_step_ok att ch e s att' ch' s' :
  pointer_step (view att) att ch e s = (Ok (att', ch'), s') →
  fz_steps s s' ∧ att_frozen (fz_bucket s') att att' ∧ (ch' = false → ch = false ∧ att' = att).
Proof.
  unfold pointer_step, att_frozen. destruct (is_pointer (view att)) eqn:Hp; [|by intros [[= -> ->] ->]%fz_ret_ok].
  intros (ref & s1 & [Href ->]%fz_lift_ok & Hrun)%fz_bind_ok.
  apply fz_bind_ok in Hrun as ([ref' c] & s2 & Hr & [[= -> ->] ->]%fz_ret_ok).
  apply freeze_ref_ok in Hr as (Hs & Hc & Hf). split; [done|]. split.
  - exists ref, ref'. split_and!; [done|done|]. destruct (ch || c) eqn:E; [by right|left].
    apply orb_false_iff in E as [_ ->]. by rewrite Hc.
  - intros E. rewrite E. by apply orb_false_iff in E as [-> _].
Qed.

(** The walk: every attachment is as it was or a rewritten pointer whose
    objects are frozen, and every storage attachment has a frozen object of
    its declared size and hash. *)
Lemma freeze_attachments_ok atts keys ch e s atts' keys' ch' s' :
  freeze_attachments keyPrefix maxAttachmentBytes maxArchiveBytes spaceID resources atts keys ch e s
    = (Ok (atts', keys', ch'), s') →
  fz_steps s s' ∧ Forall2 (att_frozen (fz_bucket s')) atts atts' ∧ (ch' = false → ch = false ∧ atts' = atts)
  ∧ ∀ p, match last_at atts p with
         | Some v => ∃ key, keys' !! p = Some key
             ∧ version_object keyPrefix key (v_content_size v) (v_content_hash v) (fz_bucket s')
         | None => keys' !! p = keys !! p
         end.
Proof.
  revert keys ch s atts' keys' ch' s'. induction atts as [|a atts IH]; intros keys ch s atts' keys' ch' s' Hrun.
  { injection Hrun as <- <- <- <-. split; [done|]. split; [by constructor|]. by split. }
  simpl in Hrun. apply fz_bind_ok in Hrun as (v & s0 & [Hv ->]%fz_lift_ok & Hrun).
  assert (v = view a) as -> by (unfold view; by rewrite Hv).
  apply fz_bind_ok in Hrun as (k1 & s1 & Hst & Hrun). fold (storage_step (view a) keys) in Hst.
  apply storage_step_ok in Hst as (S1 & Hother & Hst).
  apply fz_bind_ok in Hrun as ([a' ch1] & s2 & Hpt & Hrun).
  apply (pointer_step_ok a ch) in Hpt as (S2 & Ha & Hch1).
  apply fz_bind_ok in Hrun as ([[rest k2] ch2] & s3 & Hrest & [[= -> -> ->] ->]%fz_ret_ok).
  apply IH in Hrest as (S3 & Hall & Hch2 & Hkeys). split; [by etrans; [exact S1|etrans]|]. split.
  { constructor; [|done]. eapply att_frozen_kept; [apply S3|done]. }
  split. { intros E. destruct (Hch2 E) as [E1 ->]. by destruct (Hch1 E1) as [-> ->]. }
  intros p. specialize (Hkeys p). simpl. destruct (last_at atts p) as [w|] eqn:Hw; [done|].
  rewrite Hkeys. destruct (String.eqb (v_content_type (view a)) "storage"); simpl; [|by rewrite Hst].
  destruct (String.eqb_spec (v_path (view a)) p) as [<-|Hne]; [|by apply Hother].
  destruct Hst as (key & Hk & Hv'). exists key. split; [done|].
  eapply version_object_kept; [|exact Hv']. etrans; [apply S2|apply S3].
Qed.

(** *** The sidecar of a walk is valid text *)

Definition valid_sidecar (m : gmap string string) : Prop := map_Forall (λ k v, Valid k = true ∧ Valid v = true) m.

Lemma view_path_valid a : good a → Valid (v_path (view a)) = true.
Proof.
  intros Ha%of_fields_text. unfold view. destruct (into_view view_fields zero_view (of_fields a)) as [v|] eqn:E; [|done].
  simpl. assert (Valid (v_path zero_view) = true) as H0' by done. revert Ha H0' E. unfold into_view, into_struct.
  generalize zero_view. destruct (of_fields a) as [| | | | |l]; try done; [by intros ? _ ? [= <-]|].
  intros w Hl Hw. revert w Hw Hl. induction l as [|[k x] l IH]; simpl; [by intros w Hw _ [= <-]|].
  intros w Hw [[Hk Hx]%andb_true_iff Hl]%andb_true_iff.
  assert (∀ l', foldl (λ o kv, a0 ← o; into_field view_fields set_view a0 kv) None l' = None) as Hnone.
  { induction l' as [|y l' IHl]; [done|]. simpl. exact IHl. }
  destruct (into_field view_fields set_view w (k, x)) as [w'|] eqn:Ew; [|by rewrite Hnone]. apply IH; [|done].
  revert Ew. unfold into_field. destruct (List.find _ view_fields) as [name|]; [|by intros [= <-]]. destruct w as [wp wt wr wu wn wh]. unfold set_view. simpl in *.
  repeat case_match; intros Ew; try (apply fmap_Some in Ew as (y & Ey & ->)); simpl; try done.
  unfold into_string in Ey. destruct x; simplify_eq; done.
Qed.

Lemma storage_step_valid a keys e s keys' s' :
  storage_step a keys e s = (Ok keys', s') → Valid (v_path a) = true → valid_sidecar keys → valid_sidecar keys'.
Proof.
  unfold storage_step. destruct (String.eqb (v_content_type a) "storage"); [|by intros [-> ->]%fz_ret_ok].
  intros ([[frozen n] digest] & s1 & Hf & Hrun)%fz_bind_ok Hp Hk.
  apply freeze_ok in Hf as (_ & _ & Hv); [|lia].
  apply fz_bind_ok in Hrun as (u1 & s3 & _ & [-> ->]%fz_ret_ok). by apply map_Forall_insert_2.
Qed.

Lemma freeze_attachments_valid atts keys ch e s atts' keys' ch' s' :
  freeze_attachments keyPrefix maxAttachmentBytes maxArchiveBytes spaceID resources atts keys ch e s
    = (Ok (atts', keys', ch'), s') →
  Forall good atts → valid_sidecar keys → valid_sidecar keys'.
Proof.
  revert keys ch s atts' keys' ch' s'. induction atts as [|a atts IH]; intros keys ch s atts' keys' ch' s' Hrun.
  { by injection Hrun as <- <- <- <-. }
  intros [Ha Hl]%Forall_cons Hk. simpl in Hrun. apply fz_bind_ok in Hrun as (v & s0 & [Hv ->]%fz_lift_ok & Hrun).
  assert (v = view a) as -> by (unfold view; by rewrite Hv).
  apply fz_bind_ok in Hrun as (k1 & s1 & Hst & Hrun). fold (storage_step (view a) keys) in Hst.
  apply storage_step_valid in Hst; [|by apply view_path_valid|done].
  apply fz_bind_ok in Hrun as ([a' ch1] & s2 & _ & Hrun).
  apply fz_bind_ok in Hrun as ([[rest k2] ch2] & s3 & Hrest & [[= -> -> ->] ->]%fz_ret_ok). by eapply IH.
Qed.

End Frozen.

Section Saved.
Context `{JsonLaws} `{CryptoLaws} `{LibPlugin}.
Context (keyPrefix : string) (maxAttachmentBytes maxArchiveBytes : Z).
Hypothesis limits : (0 ≤ maxAttachmentBytes ∧ 0 ≤ maxArchiveBytes)%Z.

(** The documents [docs'] of a save that started from [docs], in a bucket: every
    storage attachment and every pointer of the package refers to version
    objects of the declared sizes and digests. *)
Definition frozen_documents (b : gmap string string) (docs docs' : CanonicalDocuments) : Prop :=
  ∃ atts atts', package_attachments (d_package docs) = Some atts
  ∧ (∀ p v, last_at atts p = Some v → ∃ key, attachmentKeyMap (d_attachment_keys docs') !! p = Some key
       ∧ version_object keyPrefix key (v_content_size v) (v_content_hash v) b)
  ∧ Forall2 (att_frozen keyPrefix b) atts atts'
  ∧ (d_manifest docs' = d_manifest docs ∧ d_tags docs' = d_tags docs ∧ d_manifest_hash docs' = d_manifest_hash docs)
  ∧ (d_package docs' = d_package docs ∧ d_plugin_hash docs' = d_plugin_hash docs ∧ atts' = atts
     ∨ ∃ raw, package_attachments raw = Some atts' ∧ CanonicalJSON raw = Some (d_package docs')
         ∧ ComputePluginHash (d_manifest docs) (d_package docs') = Some (d_plugin_hash docs')).

Lemma att_frozen_good b a a' : good a → att_frozen keyPrefix b a a' → good a'.
Proof.
  intros Ha. unfold att_frozen. case_match; [|by intros ->]. intros (ref & ref' & _ & _ & [[-> _]| ->]); [done|].
  apply good_insert; [done|apply print_valid|done].
Qed.

Lemma att_all_good b atts atts' :
  Forall2 (att_frozen keyPrefix b) atts atts' → Forall good atts → Forall good atts'.
Proof.
  induction 1 as [|a a' l l' Ha _ IH]; [done|]. intros [Hg Hl]%Forall_cons.
  constructor; [by eapply att_frozen_good|by apply IH].
Qed.

Lemma freeze_freezes spaceID resources typ docs e s docs' s' :
  typ ≠ Connector →
  freezeVersionArtifacts keyPrefix maxAttachmentBytes maxArchiveBytes spaceID resources typ docs e s = (Ok docs', s') →
  oss_steps keyPrefix (fz_bucket s) (fz_bucket s') ∧ frozen_documents (fz_bucket s') docs docs'.
Proof.
  intros Htyp. unfold freezeVersionArtifacts. rewrite decide_False by done.
  intros (doc & s0 & [Hdoc ->]%fz_lift_ok & Hrun)%fz_bind_ok.
  apply fz_bind_ok in Hrun as (atts & s1 & [Hraw ->]%fz_lift_ok & Hrun).
  assert (package_attachments (d_package docs) = Some atts) as Hatts.
  { unfold package_attachments. rewrite Hdoc. simpl. by destruct (field doc "attachments"). }
  pose proof (attachments_good _ _ Hatts) as Hgood. pose proof (parsed_good _ _ Hdoc) as Hgd.
  apply fz_bind_ok in Hrun as ([[atts' keys] ch] & s2 & Hwalk & Hrun).
  pose proof (freeze_attachments_valid _ _ _ _ _ limits _ _ _ _ _ _ _ _ _ Hwalk Hgood (sidecar_valid _)) as Hvalid.
  assert (doc = None → ch = true → False) as Hnil.
  { intros -> ->. simpl in Hraw. injection Hraw as <-. by injection Hwalk. }
  apply freeze_attachments_ok in Hwalk as (Hs & Hall & Hch & Hkeys); [|done].
  set (keysJSON := if decide (keys = ∅) then _ else _) in Hrun.
  assert (∀ p v, last_at atts p = Some v → ∃ key, attachmentKeyMap keysJSON !! p = Some key
    ∧ version_object keyPrefix key (v_content_size v) (v_content_hash v) (fz_bucket s2)) as Hside.
  { intros p v Hv. specialize (Hkeys p). rewrite Hv in Hkeys. destruct Hkeys as (key & Hk & Ho).
    exists key. split; [|done]. unfold keysJSON. destruct (decide (keys = ∅)) as [->|]; [done|].
    by rewrite attachmentKeyMap_print. }
  destruct ch.
  - apply fz_bind_ok in Hrun as (pkg & s3 & [Hpkg ->]%fz_lift_ok & Hrun).
    apply fz_bind_ok in Hrun as (hash & s4 & [Hhash ->]%fz_lift_ok & [-> ->]%fz_ret_ok).
    split; [apply Hs|]. exists atts, atts'. split_and!; try done. right.
    eexists. split; [|by split; [exact Hpkg|]]. destruct doc as [m|].
    + apply with_attachments_parsed; [done|]. by eapply att_all_good.
    + by destruct (Hnil eq_refl).
  - apply fz_ret_ok in Hrun as [-> ->]. split; [apply Hs|]. destruct (Hch eq_refl) as [_ ->].
    exists atts, atts. split_and!; try done. by left.
Qed.

(** Version objects stay, so frozen documents stay frozen. *)
Lemma frozen_documents_kept b b' docs docs' :
  oss_steps keyPrefix b b' → frozen_documents b docs docs' → frozen_documents b' docs docs'.
Proof.
  intros Hsteps (atts & atts' & Ha & Hk & Hf & Hrest).
  exists atts, atts'. split; [done|]. split; [|split; [|done]].
  - intros p v Hv. destruct (Hk p v Hv) as (key & ? & Ho). exists key. split; [done|]. by eapply version_object_kept.
  - eapply Forall2_impl; [exact Hf|]. intros a a'. by apply att_frozen_kept.
Qed.

(** What a save freezes stays. When the documents of a save are frozen,
    every storage attachment of the package (the last one at its path) has
    in the sidecar the key of a version object of exactly the declared size and
    digest, and every object a skill pointer names has been replaced by one whose size
    and digest the pointer now records; the rest of the documents is
    unchanged, and the hash is that of the stored package. Version objects are
    never changed by any later sequence of storage operations, so this holds
    for ever after. *)
Theorem saved_artifacts_stay spaceID resources typ docs e s docs' s' b :
  typ ≠ Connector →
  freezeVersionArtifacts keyPrefix maxAttachmentBytes maxArchiveBytes spaceID resources typ docs e s = (Ok docs', s') →
  oss_steps keyPrefix (fz_bucket s') b →
  frozen_documents b docs docs'.
Proof.
  intros Htyp Hrun Hsteps. apply freeze_freezes in Hrun as [_ Hf]; [|done]. by eapply frozen_documents_kept.
Qed.
End Saved.
