(* ===== verification/Zip.v ===== *)
(** * Archive extraction: internal/service/parse/zip.go

    The three extraction routines over the entries of an opened archive:
    [ExtractZip], [ExtractSkillTree] and [ExtractArchive], with the path
    validation they share. Opening the archive (archive/zip, os) is I/O: the
    routines take its entries. Sizes are 64-bit: [uint64] sums and [int64]
    conversions wrap as in Go. Error messages are not modelled, codes are. *)

From S2P Require Import Prelude GoStrings.
From Stdlib Require Import Ascii.
Import Go.
Local Open Scope string_scope.

Definition maxExtractedSize : Z := 50 * 1024 * 1024.
Definition maxSkillMDSize : Z := 1 * 1024 * 1024.
Definition maxManifestFiles : Z := 500.

(** Wrap-around conversions. *)
Definition to_uint64 (z : Z) : Z := z mod 2 ^ 64.
Definition to_int64 (z : Z) : Z := (z + 2 ^ 63) mod 2 ^ 64 - 2 ^ 63.

(** What the routines use of a [zip.File]: its header, and its decompressed
    stream, which may fail to open or fail after its last byte. *)
Record File := mkFile {
  FileName : string;
  UncompressedSize64 : Z;
  IsDir : bool;
  IsSymlink : bool;
  Stream : string;
  OpenErr : bool;
  StreamErr : bool
}.

Inductive ZipError :=
| INVALID_ZIP | FILE_TOO_LARGE | ZIP_SLIP_DETECTED | SKILL_MD_NOT_FOUND | MULTIPLE_SKILL_MD
| SKILL_MD_TOO_LARGE | TOO_MANY_FILES | DUPLICATE_ENTRY.

(** [len(data)] *)
Definition blen (s : string) : Z := Z.of_nat (String.length s).

(** ** Entries *)

Definition isWindowsRooted (name : string) : bool :=
  if HasPrefix name "\" then true
  else match name with
       | String c (String ":" _) => is_letter c
       | _ => false
       end.

Definition validateZipEntry (f : File) : option ZipError :=
  let name := FileName f in
  if IsAbs name then Some ZIP_SLIP_DETECTED
  else if isWindowsRooted name then Some ZIP_SLIP_DETECTED
  else
    let cleaned := Clean name in
    if HasPrefix cleaned ".." || Contains cleaned "/.." then Some ZIP_SLIP_DETECTED
    else if Contains name "../" || Contains name "..\" then Some ZIP_SLIP_DETECTED
    else if IsSymlink f then Some ZIP_SLIP_DETECTED
    else None.

Definition backslash : ascii := "\".

Definition isSkillMDCandidate (name : string) : bool :=
  let name := ReplaceByte name backslash slash in
  if negb (EqualFold (Base name) "skill.md") then false
  else
    let dir := Dir name in
    if String.eqb dir "." || String.eqb dir "" then true
    else negb (Contains dir "/").

(** [io.ReadAll] of an [io.LimitReader] of [max+1] bytes: a longer stream is
    cut at [max+1] bytes and refused; a shorter one is read to its end. *)
Definition readZipFileLimited (f : File) (max : Z) : option string :=
  if OpenErr f then None
  else
    let limit := to_int64 (max + 1) in
    if (limit <=? 0)%Z then if (0 >? max)%Z then None else Some ""
    else if (blen (Stream f) <? limit)%Z then
      if StreamErr f then None
      else if (blen (Stream f) >? max)%Z then None else Some (Stream f)
    else None.

Definition readZipFile (f : File) : option string := readZipFileLimited f maxSkillMDSize.

(** ** [ExtractZip] *)

Record ExtractResult := mkExtract {
  SkillMDContent : string;
  TotalSize : Z;
  Files : list string
}.

(** The variables of the scanning loop. *)
Record ScanState := mkScan {
  sc_total : Z;
  sc_skill : option File;
  sc_count : Z;
  sc_files : list string
}.

Definition scan_entry (st : ScanState) (f : File) : result ZipError ScanState :=
  match validateZipEntry f with
  | Some e => Error e
  | None =>
      if IsDir f then Ok st
      else
        let files := if (Z.of_nat (length (sc_files st)) <? maxManifestFiles)%Z
                     then (sc_files st ++ [FileName f])%list else sc_files st in
        let total := to_uint64 (sc_total st + UncompressedSize64 f) in
        if (total >? maxExtractedSize)%Z then Error FILE_TOO_LARGE
        else if isSkillMDCandidate (FileName f)
        then Ok (mkScan total (Some f) (sc_count st + 1) files)
        else Ok (mkScan total (sc_skill st) (sc_count st) files)
  end.

(** [size] is the size of the archive file. *)
Definition ExtractZip (size maxZipSize : Z) (entries : list File) : result ZipError ExtractResult :=
  if (size >? maxZipSize)%Z then Error FILE_TOO_LARGE
  else match foldM scan_entry (mkScan 0 None 0 []) entries with
       | Error e => Error e
       | Ok st =>
           if (sc_count st =? 0)%Z then Error SKILL_MD_NOT_FOUND
           else if (sc_count st >? 1)%Z then Error MULTIPLE_SKILL_MD
           else match sc_skill st with
                | None => Error SKILL_MD_NOT_FOUND
                | Some f =>
                    if (UncompressedSize64 f >? maxSkillMDSize)%Z then Error SKILL_MD_TOO_LARGE
                    else match readZipFile f with
                         | None => Error INVALID_ZIP
                         | Some content =>
                             Ok (mkExtract content (to_int64 (sc_total st)) (sc_files st))
                         end
                end
       end.

(** ** [ExtractSkillTree] *)

Record SkillEntry := mkEntry { Path : string; Bytes : string; IsText : bool }.

Record TreeState := mkTree {
  tr_total : Z;
  tr_actual : Z;
  tr_count : Z;
  tr_entries : list SkillEntry
}.

Definition tree_entry (maxFileSize maxFiles : Z) (st : TreeState) (f : File)
    : result ZipError TreeState :=
  match validateZipEntry f with
  | Some e => Error e
  | None =>
      if IsDir f then Ok st
      else
        let total := to_uint64 (tr_total st + UncompressedSize64 f) in
        if (total >? maxExtractedSize)%Z then Error FILE_TOO_LARGE
        else
          let count := if isSkillMDCandidate (FileName f) then (tr_count st + 1)%Z
                       else tr_count st in
          if (Z.of_nat (length (tr_entries st)) >=? maxFiles)%Z then Error TOO_MANY_FILES
          else if (to_int64 (UncompressedSize64 f) >? maxFileSize)%Z then Error FILE_TOO_LARGE
          else match readZipFileLimited f maxFileSize with
               | None => Error INVALID_ZIP
               | Some data =>
                   let actual := to_int64 (tr_actual st + blen data) in
                   if (actual >? maxExtractedSize)%Z then Error FILE_TOO_LARGE
                   else Ok (mkTree total actual count
                              (tr_entries st ++ [mkEntry (FileName f) data (Valid data)])%list)
               end
  end.

Definition ExtractSkillTree (size maxZipSize maxFileSize maxFiles : Z) (entries : list File)
    : result ZipError (list SkillEntry) :=
  if (size >? maxZipSize)%Z then Error FILE_TOO_LARGE
  else
    let maxFiles := if (maxFiles <=? 0)%Z then maxManifestFiles else maxFiles in
    match foldM (tree_entry maxFileSize maxFiles) (mkTree 0 0 0 []) entries with
    | Error e => Error e
    | Ok st =>
        if (tr_count st =? 0)%Z then Error SKILL_MD_NOT_FOUND
        else if (tr_count st >? 1)%Z then Error MULTIPLE_SKILL_MD
        else Ok (tr_entries st)
    end.

(** ** [ExtractArchive] *)

Definition archive_entry (maxTotal maxFileSize maxFiles : Z)
    (st : Z * gmap string string) (f : File) : result ZipError (Z * gmap string string) :=
  let '(actual, out) := st in
  match validateZipEntry f with
  | Some e => Error e
  | None =>
      if IsDir f then Ok st
      else if (maxFiles >? 0)%Z && (Z.of_nat (size out) >=? maxFiles)%Z then Error TOO_MANY_FILES
      else if (UncompressedSize64 f >? to_uint64 maxFileSize)%Z then Error FILE_TOO_LARGE
      else if bool_decide (is_Some (out !! FileName f)) then Error DUPLICATE_ENTRY
      else if (UncompressedSize64 f >? to_uint64 (maxTotal - actual))%Z then Error FILE_TOO_LARGE
      else match readZipFileLimited f maxFileSize with
           | None => Error INVALID_ZIP
           | Some data =>
               if (blen data >? to_int64 (maxTotal - actual))%Z then Error FILE_TOO_LARGE
               else Ok (to_int64 (actual + blen data), <[FileName f := data]> out)
           end
  end.

Definition ExtractArchive (size_ maxArchiveBytes maxTotal maxFileSize maxFiles : Z)
    (entries : list File) : result ZipError (gmap string string) :=
  if (size_ >? maxArchiveBytes)%Z then Error FILE_TOO_LARGE
  else if (maxTotal <? 0)%Z || (maxFileSize <? 0)%Z then Error FILE_TOO_LARGE
  else
    let maxFiles := if (maxFiles =? 0)%Z then maxManifestFiles else maxFiles in
    match foldM (archive_entry maxTotal maxFileSize maxFiles) (0%Z, ∅) entries with
    | Error e => Error e
    | Ok (_, out) => Ok out
    end.

(** ** Paths stay inside the package *)

(** The elements of a path on either platform. *)
Definition elements (name : string) : list string :=
  Split (ReplaceByte name backslash slash) slash.

Lemma HasPrefix_nil s : HasPrefix s "" = true.
Proof. by destruct s. Qed.

Lemma HasPrefix_app p s : HasPrefix (p ++ s) p = true.
Proof. induction p as [|a p IH]; simpl; [by destruct s|]. by rewrite Ascii.eqb_refl. Qed.

Lemma Contains_cons a s sub : Contains s sub = true → Contains (String a s) sub = true.
Proof. simpl. intros ->. apply orb_true_r. Qed.

Lemma Contains_app p s sub : Contains s sub = true → Contains (p ++ s) sub = true.
Proof. intros H. induction p; [done|]. by apply Contains_cons. Qed.

Lemma HasPrefix_Contains s sub : HasPrefix s sub = true → Contains s sub = true.
Proof. intros H. destruct s; simpl in *; by rewrite H. Qed.

(** The first element of a split, and what follows its separator. *)
Lemma Split_cons s sep c1 c2 l :
  Split s sep = c1 :: c2 :: l → ∃ t, s = c1 ++ String sep t ∧ Split t sep = c2 :: l.
Proof.
  revert c1. induction s as [|a s IH]; intros c1; simpl; [done|].
  destruct (Ascii.eqb_spec a sep) as [->|Hne].
  - intros [= <- Hs]. by exists s.
  - destruct (Split s sep) as [|h t] eqn:Hs; [done|].
    intros [= <- ->]. destruct (IH h eq_refl) as (u & -> & Hu). by exists u.
Qed.

Lemma Split_ne s sep : Split s sep ≠ [].
Proof. destruct s as [|a s]; simpl; [done|]. case_match; [done|]. by case_match. Qed.

(** Without the substring "../", only the last element can be "..". *)
Lemma dotdot_last s :
  Contains s "../" = false → ∀ l1 l2, Split s slash = (l1 ++ ".." :: l2)%list → l2 = [].
Proof.
  intros Hc l1. revert s Hc. induction l1 as [|c l1 IH]; intros s Hc l2 Hs; simpl in Hs.
  - destruct l2 as [|c2 l2]; [done|]. apply Split_cons in Hs as (t & -> & _). exfalso.
    revert Hc. apply not_false_iff_true. apply HasPrefix_Contains.
    change (".." ++ String slash t) with ("../" ++ t). apply HasPrefix_app.
  - destruct (l1 ++ ".." :: l2)%list as [|c2 l] eqn:Hl; [by destruct l1|].
    apply Split_cons in Hs as (t & -> & Ht). apply (IH t); [|congruence].
    apply not_true_iff_false. intros Ht'. apply not_true_iff_false in Hc. apply Hc.
    by apply Contains_app, Contains_cons.
Qed.

Lemma replaced_dot a : Ascii.eqb "." (if Ascii.eqb a backslash then slash else a) = true → a = "."%char.
Proof. destruct (Ascii.eqb_spec a backslash); [done|]. by intros ->%Ascii.eqb_eq. Qed.
Lemma replaced_slash a :
  Ascii.eqb "/" (if Ascii.eqb a backslash then slash else a) = true →
  a = "/"%char ∨ a = "\"%char.
Proof. destruct (Ascii.eqb_spec a backslash); [auto|]. intros ->%Ascii.eqb_eq. auto. Qed.

Lemma replaced_prefix name :
  HasPrefix (ReplaceByte name backslash slash) "../" = true →
  HasPrefix name "../" = true ∨ HasPrefix name "..\" = true.
Proof.
  destruct name as [|a [|b [|c n]]]; simpl; rewrite ?andb_false_r; try done.
  intros (->%replaced_dot & (->%replaced_dot & (Hc & _)%andb_true_iff)%andb_true_iff)%andb_true_iff.
  apply replaced_slash in Hc as [->| ->]; simpl; [left|right]; by destruct n.
Qed.

Lemma replaced_contains name :
  Contains (ReplaceByte name backslash slash) "../" = true →
  Contains name "../" = true ∨ Contains name "..\" = true.
Proof.
  induction name as [|a n IH]; [done|]. intros H.
  change (Contains (ReplaceByte (String a n) backslash slash) "../")
    with (HasPrefix (ReplaceByte (String a n) backslash slash) "../"
          || Contains (ReplaceByte n backslash slash) "../") in H.
  apply orb_true_iff in H as [H|H].
  - apply replaced_prefix in H as [H|H]; [left|right]; by apply HasPrefix_Contains.
  - destruct (IH H); [left|right]; by apply Contains_cons.
Qed.

(** Cleaned elements: every ".." is at the bottom of the stack. *)
Definition normal_stack (acc : list string) : Prop :=
  ∃ ns ds, acc = (ns ++ ds)%list ∧ (".." ∉ ns) ∧ Forall (λ d, d = "..") ds.

Lemma clean_elem_normal acc e :
  normal_stack acc → normal_stack (clean_elem false acc e).
Proof.
  intros (ns & ds & -> & Hns & Hds). unfold clean_elem.
  destruct (_ || _); [by exists ns, ds|].
  destruct (String.eqb_spec e "..") as [->|He].
  - destruct ns as [|n ns]; simpl.
    + destruct ds as [|d ds]; [by exists [], [".."]; split_and!; [|set_solver|repeat constructor]|].
      inversion Hds; subst. simpl. exists [], (".." :: ".." :: ds). split_and!; [done|set_solver|].
      by repeat constructor.
    + destruct (String.eqb_spec n ".."); [subst; exfalso; apply Hns; by left|].
      exists ns, ds. split_and!; [done| |done]. intros Hin. apply Hns. by right.
  - exists (e :: ns), ds. split_and!; [done| |done]. rewrite elem_of_cons. naive_solver.
Qed.

Lemma clean_fold_normal l acc :
  normal_stack acc → normal_stack (foldl (clean_elem false) acc l).
Proof. revert acc. induction l; simpl; auto using clean_elem_normal. Qed.

Lemma HasPrefix_Join c l sep p : HasPrefix c p = true → HasPrefix (Join (c :: l) sep) p = true.
Proof.
  intros H. destruct l as [|x l]; [done|]. simpl. revert c H.
  induction p as [|a p IH]; intros c H; [apply HasPrefix_nil|].
  destruct c as [|b c]; [done|]. simpl in *. apply andb_true_iff in H as [-> H]. by apply IH.
Qed.

(** A relative name whose cleaned form does not start with ".." has no ".."
    left after lexical resolution: it names something below the root. *)
Lemma clean_inside name :
  IsAbs name = false → HasPrefix (Clean name) ".." = false → ".." ∉ clean_elems name.
Proof.
  intros Habs Hp. unfold Clean in Hp. rewrite Habs in Hp.
  assert (normal_stack (foldl (clean_elem false) [] (Split name slash))) as (ns & ds & Hst & Hns & Hds).
  { apply clean_fold_normal. exists [], []. split_and!; [done|set_solver|constructor]. }
  unfold clean_elems in *. rewrite Habs, Hst in *. rewrite reverse_app in *.
  destruct (reverse ds) as [|d ds'] eqn:Hrev.
  - simpl. by rewrite elem_of_reverse.
  - exfalso. assert (d = "..") as ->.
    { rewrite Forall_forall in Hds. apply Hds. apply elem_of_reverse. rewrite Hrev. by left. }
    pose proof (HasPrefix_Join ".." (ds' ++ reverse ns) "/" ".." eq_refl) as Hj.
    simpl in Hp, Hj. case_match; simpl in *; congruence.
Qed.

(** What validation guarantees of an entry. *)
Record contained (f : File) : Prop := {
  ct_relative : IsAbs (FileName f) = false;
  ct_unrooted : isWindowsRooted (FileName f) = false;
  ct_inside : ".." ∉ clean_elems (FileName f);
  ct_last : ∀ l1 l2, elements (FileName f) = (l1 ++ ".." :: l2)%list → l2 = [];
  ct_regular : IsSymlink f = false
}.

Lemma validate_contained f : validateZipEntry f = None → contained f.
Proof.
  unfold validateZipEntry. intros H.
  destruct (IsAbs (FileName f)) eqn:Ha; [done|].
  destruct (isWindowsRooted (FileName f)) eqn:Hw; [done|].
  destruct (_ || _) eqn:Hc in H; [done|]. destruct (_ || _) eqn:Hr in H; [done|].
  destruct (IsSymlink f) eqn:Hs; [done|].
  apply orb_false_iff in Hc as [Hp _]. apply orb_false_iff in Hr as [Hr1 Hr2].
  split; try done; [by apply clean_inside|].
  apply dotdot_last. apply not_true_iff_false. intros Hx%replaced_contains.
  destruct Hx; congruence.
Qed.

(** Zip-slip safety. An entry that passes validation is not absolute nor
    rooted on Windows, is no symbolic link, resolves lexically to a path below
    the package root, and with either separator has ".." at most as its last
    element. *)
Theorem accepted_entry_contained f : validateZipEntry f = None → contained f.
Proof. apply validate_contained. Qed.

(** ** Limits *)

Definition regular (entries : list File) : list File := filter (λ f, IsDir f = false) entries.
Definition candidates (names : list string) : list string :=
  filter (λ n, isSkillMDCandidate n = true) names.
Definition sumZ (l : list Z) : Z := foldr Z.add 0%Z l.

Lemma sumZ_app l k : sumZ (l ++ k) = (sumZ l + sumZ k)%Z.
Proof. induction l; simpl; lia. Qed.

Lemma sumZ_nonneg l : Forall (λ z, 0 ≤ z)%Z l → (0 ≤ sumZ l)%Z.
Proof. induction 1; simpl; lia. Qed.

Lemma blen_nonneg s : (0 ≤ blen s)%Z.
Proof. unfold blen. lia. Qed.

Lemma read_limited f max data :
  (max < 2 ^ 63)%Z → readZipFileLimited f max = Some data → (blen data ≤ max)%Z.
Proof.
  unfold readZipFileLimited. intros Hmax. destruct (OpenErr f); [done|].
  destruct (_ <=? 0)%Z.
  - destruct (Z.gtb_spec 0 max); [done|]. by intros [= <-].
  - destruct (_ <? _)%Z; [|done]. destruct (StreamErr f); [done|].
    destruct (Z.gtb_spec (blen (Stream f)) max); [done|]. by intros [= <-].
Qed.

Lemma to_int64_id z : (- 2 ^ 63 ≤ z < 2 ^ 63)%Z → to_int64 z = z.
Proof. intros Hz. unfold to_int64. rewrite Z.mod_small; lia. Qed.
(** What is read is the whole stream. *)
Lemma read_stream f max data :
  (0 ≤ max < 2 ^ 63 - 1)%Z → readZipFileLimited f max = Some data →
  data = Stream f ∧ (blen data ≤ max)%Z.
Proof.
  intros Hmax Hr. split; [|apply (read_limited f max data); [lia|done]]. revert Hr.
  unfold readZipFileLimited. rewrite to_int64_id by lia.
  destruct (OpenErr f); [done|]. destruct (Z.leb_spec (max + 1) 0); [lia|].
  destruct (_ <? _)%Z; [|done]. destruct (StreamErr f); [done|].
  destruct (_ >? _)%Z; [done|]. by intros [= <-].
Qed.
Lemma to_uint64_id z : (0 ≤ z < 2 ^ 64)%Z → to_uint64 z = z.
Proof. intros Hz. unfold to_uint64. by rewrite Z.mod_small. Qed.
Lemma to_uint64_bounds z : (0 ≤ to_uint64 z < 2 ^ 64)%Z.
Proof. apply Z.mod_pos_bound. lia. Qed.

Lemma regular_snoc l f :
  regular (l ++ [f]) = if IsDir f then regular l else (regular l ++ [f])%list.
Proof.
  unfold regular. rewrite filter_app, filter_cons, filter_nil.
  destruct (IsDir f); simpl; [by rewrite app_nil_r|done].
Qed.

Lemma candidates_snoc l n :
  candidates (l ++ [n])
  = if isSkillMDCandidate n then (candidates l ++ [n])%list else candidates l.
Proof.
  unfold candidates. rewrite filter_app, filter_cons, filter_nil.
  destruct (isSkillMDCandidate n); simpl; [done|by rewrite app_nil_r].
Qed.

(** The entry a regular file becomes. *)
Definition entry_of (f : File) : SkillEntry := mkEntry (FileName f) (Stream f) (Valid (Stream f)).

(** The invariant of the tree extraction after the entries [done]. *)
Record tree_inv (maxFileSize maxFiles : Z) (st : TreeState) (done : list File) : Prop := {
  ti_contained : Forall contained done;
  ti_entries : tr_entries st = entry_of <$> regular done;
  ti_sizes : Forall (λ e, blen (Bytes e) ≤ maxFileSize)%Z (tr_entries st);
  ti_actual : tr_actual st = sumZ ((λ e, blen (Bytes e)) <$> tr_entries st);
  ti_bound : (0 ≤ tr_actual st ≤ maxExtractedSize)%Z;
  ti_files : (Z.of_nat (length (tr_entries st)) ≤ maxFiles)%Z;
  ti_count : tr_count st = Z.of_nat (length (candidates (Path <$> tr_entries st)))
}.

Lemma tree_entry_inv maxFileSize maxFiles st done f st' :
  (0 ≤ maxFileSize ≤ 2 ^ 62)%Z →
  tree_inv maxFileSize maxFiles st done →
  tree_entry maxFileSize maxFiles st f = Ok st' →
  tree_inv maxFileSize maxFiles st' (done ++ [f]).
Proof.
  intros Hmax [H1 H2 H3 H4 H5 H6 H7]. unfold tree_entry.
  destruct (validateZipEntry f) eqn:Hv; [done|].
  apply validate_contained in Hv.
  assert (Forall contained (done ++ [f])) as Hc by (apply Forall_app; auto).
  destruct (IsDir f) eqn:Hd.
  { intros [= <-]. split; try done. by rewrite regular_snoc, Hd. }
  destruct (Z.gtb_spec (to_uint64 (tr_total st + UncompressedSize64 f)) maxExtractedSize); [done|].
  destruct (Z.geb_spec (Z.of_nat (length (tr_entries st))) maxFiles); [done|].
  destruct (_ >? maxFileSize)%Z; [done|].
  destruct (readZipFileLimited f maxFileSize) as [data|] eqn:Hr; [|done].
  apply read_stream in Hr as [-> Hr]; [|lia]. pose proof (blen_nonneg (Stream f)).
  assert (maxExtractedSize = 52428800)%Z as Hcap by done.
  rewrite to_int64_id by lia.
  destruct (Z.gtb_spec (tr_actual st + blen (Stream f)) maxExtractedSize); [done|].
  intros [= <-]. split; simpl; try done.
  - by rewrite regular_snoc, Hd, fmap_app, H2.
  - apply Forall_app. auto.
  - rewrite fmap_app, sumZ_app, <-H4. simpl. lia.
  - lia.
  - rewrite length_app. simpl. lia.
  - rewrite fmap_app. simpl. rewrite candidates_snoc, H7.
    destruct (isSkillMDCandidate (FileName f)); [rewrite length_app; simpl; lia|done].
Qed.

(** A skill tree is extracted whole and within limits. On success the
    archive is within its size limit and every entry is contained; the result
    is all the regular files, in archive order, with the bytes of their streams
    and whether these are UTF-8;
    no file exceeds its limit, their number theirs, the actual bytes the 50 MB
    total; and exactly one file is a SKILL.md. *)
Theorem skill_tree_sound size maxZipSize maxFileSize maxFiles entries out :
  (0 ≤ maxFileSize ≤ 2 ^ 62)%Z →
  ExtractSkillTree size maxZipSize maxFileSize maxFiles entries = Ok out →
  (size ≤ maxZipSize)%Z ∧ Forall contained entries
  ∧ out = entry_of <$> regular entries
  ∧ Forall (λ e, blen (Bytes e) ≤ maxFileSize)%Z out
  ∧ (sumZ ((λ e, blen (Bytes e)) <$> out) ≤ maxExtractedSize)%Z
  ∧ (Z.of_nat (length out) ≤ if (maxFiles <=? 0)%Z then maxManifestFiles else maxFiles)%Z
  ∧ length (candidates (Path <$> out)) = 1%nat.
Proof.
  intros Hmax. unfold ExtractSkillTree. destruct (Z.gtb_spec size maxZipSize); [done|].
  set (mf := if (maxFiles <=? 0)%Z then maxManifestFiles else maxFiles).
  assert (0 ≤ mf)%Z as Hmf.
  { unfold mf. destruct (Z.leb_spec maxFiles 0); [done|lia]. }
  destruct (foldM _ _ entries) as [st|] eqn:Hf; [|done].
  assert (tree_inv maxFileSize mf st entries) as [H1 H2 H3 H4 H5 H6 H7].
  { eapply foldM_history, Hf; [intros; by eapply tree_entry_inv|].
    split; try done; simpl; lia. }
  destruct (Z.eqb_spec (tr_count st) 0); [done|].
  destruct (Z.gtb_spec (tr_count st) 1); [done|]. intros [= <-].
  split_and!; try done; rewrite <-?H4; lia.
Qed.

(** The invariant of the [ExtractZip] scan, for entries whose declared sizes
    are at most [2^63]. *)
Record scan_inv (st : ScanState) (done : list File) : Prop := {
  si_contained : Forall contained done;
  si_total : sc_total st = sumZ (UncompressedSize64 <$> regular done);
  si_bound : (0 ≤ sc_total st ≤ maxExtractedSize)%Z;
  si_files : sc_files st = firstn 500 (FileName <$> regular done);
  si_count : sc_count st = Z.of_nat (length (candidates (FileName <$> regular done)));
  si_skill : ∀ f, sc_skill st = Some f → f ∈ regular done ∧ isSkillMDCandidate (FileName f) = true
}.

Lemma firstn_snoc {A} n (l : list A) x :
  firstn n (l ++ [x]) = if decide (length (firstn n l) < n)%nat then (firstn n l ++ [x])%list
                        else firstn n l.
Proof.
  rewrite firstn_app, length_firstn. case_decide as Hd.
  - rewrite firstn_all2 by lia. f_equal. destruct (n - length l)%nat as [|m] eqn:E; [lia|]. simpl. by rewrite firstn_nil.
  - replace (n - length l)%nat with 0%nat by lia. by rewrite app_nil_r.
Qed.

Lemma scan_entry_inv st done f st' :
  (0 ≤ UncompressedSize64 f ≤ 2 ^ 63)%Z → scan_inv st done →
  scan_entry st f = Ok st' → scan_inv st' (done ++ [f]).
Proof.
  intros Hsz [H1 H2 H3 H4 H5 H6]. unfold scan_entry.
  destruct (validateZipEntry f) eqn:Hv; [done|]. apply validate_contained in Hv.
  assert (Forall contained (done ++ [f])) as Hc by (apply Forall_app; auto).
  destruct (IsDir f) eqn:Hd.
  { intros [= <-]. split; rewrite ?regular_snoc, ?Hd; done. }
  assert (maxExtractedSize = 52428800)%Z as Hcap by done.
  rewrite to_uint64_id by lia.
  destruct (Z.gtb_spec (sc_total st + UncompressedSize64 f) maxExtractedSize); [done|].
  set (files := if (Z.of_nat (length (sc_files st)) <? maxManifestFiles)%Z
                then (sc_files st ++ [FileName f])%list else sc_files st).
  assert (files = firstn 500 (FileName <$> regular (done ++ [f]))) as Hfiles.
  { rewrite regular_snoc, Hd, fmap_app. change (FileName <$> [f]) with [FileName f].
    rewrite firstn_snoc, <-H4. unfold files, maxManifestFiles.
    destruct (Z.ltb_spec (Z.of_nat (length (sc_files st))) 500); case_decide; done || lia. }
  destruct (isSkillMDCandidate (FileName f)) eqn:Hs; intros [= <-];
    split; simpl; try done; rewrite ?regular_snoc, ?Hd, ?fmap_app, ?sumZ_app; simpl;
    rewrite ?candidates_snoc, ?Hs, ?length_app; simpl; try lia.
  - intros f' [= <-]. split; [set_solver|done].
  - intros f' Hf'. destruct (H6 _ Hf'). set_solver.
Qed.

(** Package metadata is extracted within limits. When every declared size is
    below [2^63] and extraction succeeds, every entry is contained, exactly one
    regular file is a SKILL.md, the content is that file's, whole, and at most
    1 MB, the reported total
    is the true sum of the declared sizes and at most 50 MB, and the manifest
    lists the first 500 regular files in order. *)
Theorem extract_zip_sound size maxZipSize entries r :
  Forall (λ f, 0 ≤ UncompressedSize64 f ≤ 2 ^ 63)%Z entries →
  ExtractZip size maxZipSize entries = Ok r →
  (size ≤ maxZipSize)%Z ∧ Forall contained entries
  ∧ length (candidates (FileName <$> regular entries)) = 1%nat
  ∧ (∃ f, f ∈ regular entries ∧ isSkillMDCandidate (FileName f) = true ∧ SkillMDContent r = Stream f)
  ∧ (blen (SkillMDContent r) ≤ maxSkillMDSize)%Z
  ∧ TotalSize r = sumZ (UncompressedSize64 <$> regular entries)
  ∧ (TotalSize r ≤ maxExtractedSize)%Z
  ∧ Files r = firstn 500 (FileName <$> regular entries).
Proof.
  intros Hsz. unfold ExtractZip. destruct (Z.gtb_spec size maxZipSize); [done|].
  destruct (foldM _ _ entries) as [st|] eqn:Hf; [|done].
  assert (scan_inv st entries) as [H1 H2 H3 H4 H5 H6].
  { eapply foldM_history, Hf; [|by split].
    intros b done x b' Hx Hb Hs. rewrite Forall_forall in Hsz. eapply scan_entry_inv; eauto. }
  destruct (Z.eqb_spec (sc_count st) 0); [done|].
  destruct (Z.gtb_spec (sc_count st) 1); [done|].
  destruct (sc_skill st) as [f|]; [|done]. destruct (H6 f eq_refl).
  destruct (_ >? maxSkillMDSize)%Z; [done|].
  destruct (readZipFile f) as [content|] eqn:Hr; [|done]. intros [= <-]. simpl.
  apply read_stream in Hr as [-> Hr]; [|done]. assert (maxExtractedSize = 52428800)%Z as Hcap by done.
  rewrite to_int64_id by lia. split_and!; eauto; lia.
Qed.

(** Two entries: a one-byte SKILL.md, and one declaring [2^64 - 1] bytes. *)
Definition wrapping : list File :=
  [ mkFile "SKILL.md" 1 false false "x" false false;
    mkFile "big" (2 ^ 64 - 1) false false "" false true ].

(** The declared-size guard can be wrapped around. The comment at the sum
    says a single over-large entry trips the cap before any wrap is possible;
    an entry declaring [2^64 - 1] bytes after a one-byte entry makes the
    unsigned total wrap to zero, and the archive is accepted with total 0. *)
Theorem declared_size_guard_wraps :
  ExtractZip 100 1000 wrapping = Ok (mkExtract "x" 0 ["SKILL.md"; "big"])
  ∧ (maxExtractedSize < sumZ (UncompressedSize64 <$> regular wrapping))%Z.
Proof. split; vm_compute; reflexivity. Qed.

(** ** [ExtractArchive] *)

Definition total_bytes (out : gmap string string) : Z := sumZ (blen <$> (map_to_list out).*2).

Lemma sumZ_perm l k : l ≡ₚ k → sumZ l = sumZ k.
Proof. induction 1; simpl; lia. Qed.

Lemma total_bytes_insert out n data :
  out !! n = None → total_bytes (<[n := data]> out) = (total_bytes out + blen data)%Z.
Proof.
  intros Hn. unfold total_bytes.
  rewrite (sumZ_perm _ (blen <$> ((n, data) :: map_to_list out).*2)).
  - change (blen data + total_bytes out = total_bytes out + blen data)%Z. lia.
  - by rewrite map_to_list_insert.
Qed.

Record archive_inv (maxTotal maxFileSize maxFiles : Z) (st : Z * gmap string string)
    (done : list File) : Prop := {
  ai_contained : Forall contained done;
  ai_files : ∀ n d, st.2 !! n = Some d ↔ ∃ f, f ∈ regular done ∧ FileName f = n ∧ Stream f = d;
  ai_nodup : NoDup (FileName <$> regular done);
  ai_sizes : map_Forall (λ _ data, blen data ≤ maxFileSize)%Z st.2;
  ai_actual : st.1 = total_bytes st.2;
  ai_bound : (0 ≤ st.1 ≤ maxTotal)%Z;
  ai_count : (0 < maxFiles → Z.of_nat (size st.2) ≤ maxFiles)%Z
}.

Lemma archive_entry_inv maxTotal maxFileSize maxFiles st done f st' :
  (0 ≤ maxTotal < 2 ^ 63)%Z → (0 ≤ maxFileSize < 2 ^ 63 - 1)%Z →
  archive_inv maxTotal maxFileSize maxFiles st done →
  archive_entry maxTotal maxFileSize maxFiles st f = Ok st' →
  archive_inv maxTotal maxFileSize maxFiles st' (done ++ [f]).
Proof.
  intros Ht Hm [H1 H2 H3 H4 H5 H6 H7]. destruct st as [actual out]. simpl in *. unfold archive_entry.
  destruct (validateZipEntry f) eqn:Hv; [done|]. apply validate_contained in Hv.
  assert (Forall contained (done ++ [f])) as Hc by (apply Forall_app; auto).
  destruct (IsDir f) eqn:Hd.
  { intros [= <-]. split; rewrite ?regular_snoc, ?Hd; done. }
  destruct (_ && _) eqn:Hcnt; [done|]. destruct (_ >? to_uint64 maxFileSize)%Z; [done|].
  case_bool_decide as Hdup; [done|]. rewrite <-eq_None_not_Some in Hdup.
  destruct (_ >? to_uint64 _)%Z; [done|].
  destruct (readZipFileLimited f maxFileSize) as [data|] eqn:Hr; [|done].
  apply read_stream in Hr as [-> Hr]; [|lia]. pose proof (blen_nonneg (Stream f)).
  rewrite !to_int64_id by lia.
  destruct (Z.gtb_spec (blen (Stream f)) (maxTotal - actual)); [done|].
  rewrite to_int64_id by lia. intros [= <-].
  split; simpl; rewrite ?regular_snoc, ?Hd, ?fmap_app; simpl; try done.
  - intros n d. setoid_rewrite elem_of_app. setoid_rewrite list_elem_of_singleton.
    destruct (decide (FileName f = n)) as [<-|Hne].
    + rewrite lookup_insert_eq. split; [intros [= <-]; by exists f; auto|].
      intros (g & [Hg| ->] & Hn & <-); [|done]. exfalso.
      assert (out !! FileName f = Some (Stream g)) by (apply H2; eauto). congruence.
    + rewrite lookup_insert_ne, H2 by done. naive_solver.
  - apply NoDup_app. split_and!; [done| |apply NoDup_singleton].
    intros n (g & -> & Hg)%list_elem_of_fmap Hn%list_elem_of_singleton.
    assert (out !! FileName g = Some (Stream g)) by (apply H2; eauto). congruence.
  - by apply map_Forall_insert_2.
  - rewrite total_bytes_insert by done. lia.
  - lia.
  - intros Hp. rewrite map_size_insert_None by done. specialize (H7 Hp).
    apply andb_false_iff in Hcnt as [Hcnt|Hcnt]; [lia|].
    rewrite Z.geb_leb, Z.leb_gt in Hcnt. lia.
Qed.

(** C38: an archive is extracted whole and within limits. On success the result
    holds exactly the regular files with the bytes of their streams, no path twice, every entry contained, each
    file and the total of the actual bytes within their limits, and their
    number within the cap when one applies. *)
Theorem archive_sound size_ maxArchiveBytes maxTotal maxFileSize maxFiles entries out :
  (maxTotal < 2 ^ 63)%Z → (maxFileSize < 2 ^ 63 - 1)%Z →
  ExtractArchive size_ maxArchiveBytes maxTotal maxFileSize maxFiles entries = Ok out →
  (size_ ≤ maxArchiveBytes)%Z ∧ Forall contained entries
  ∧ (∀ n d, out !! n = Some d ↔ ∃ f, f ∈ regular entries ∧ FileName f = n ∧ Stream f = d)
  ∧ NoDup (FileName <$> regular entries)
  ∧ map_Forall (λ _ data, blen data ≤ maxFileSize)%Z out
  ∧ (total_bytes out ≤ maxTotal)%Z
  ∧ (0 ≤ maxFiles → Z.of_nat (size out) ≤ if (maxFiles =? 0)%Z then maxManifestFiles else maxFiles)%Z.
Proof.
  intros Ht Hm. unfold ExtractArchive. destruct (Z.gtb_spec size_ maxArchiveBytes); [done|].
  destruct (_ || _) eqn:Hneg; [done|]. apply orb_false_iff in Hneg as [Hn1 Hn2].
  rewrite Z.ltb_ge in Hn1, Hn2.
  set (mf := if (maxFiles =? 0)%Z then maxManifestFiles else maxFiles).
  destruct (foldM _ _ entries) as [[actual o]|] eqn:Hf; [|done]. intros [= <-].
  assert (archive_inv maxTotal maxFileSize mf (actual, o) entries) as [H1 H2 H3 H4 H5 H6 H7].
  { eapply foldM_history, Hf; [intros; eapply archive_entry_inv; eauto; lia|].
    split; simpl; try done; try lia; try apply NoDup_nil_2; try apply map_Forall_empty.
    - intros n d. rewrite lookup_empty. split; [done|]. intros (? & ?%elem_of_nil & _). done.
    - rewrite map_size_empty. lia. }
  simpl in *. split_and!; try done; [lia|]. intros Hp. apply H7. unfold mf.
  destruct (Z.eqb_spec maxFiles 0); [done|lia].
Qed.

(** ** On an archive *)

Definition sample : list File :=
  [ mkFile "pkg/" 0 true false "" false false;
    mkFile "pkg/SKILL.md" 4 false false "name" false false;
    mkFile "pkg/a/run.sh" 2 false false "ok" false false ].

Lemma accepted_entry_contained_witness : contained (mkFile "pkg/a/run.sh" 2 false false "ok" false false).
Proof. apply accepted_entry_contained. vm_compute. reflexivity. Defined.

Lemma skill_tree_sound_witness :
  let out := [mkEntry "pkg/SKILL.md" "name" true; mkEntry "pkg/a/run.sh" "ok" true] in
  (100 ≤ 1000)%Z ∧ Forall contained sample
  ∧ out = entry_of <$> regular sample
  ∧ Forall (λ e, blen (Bytes e) ≤ 10)%Z out
  ∧ (sumZ ((λ e, blen (Bytes e)) <$> out) ≤ maxExtractedSize)%Z
  ∧ (Z.of_nat (length out) ≤ 5)%Z
  ∧ length (candidates (Path <$> out)) = 1%nat.
Proof. apply (skill_tree_sound 100 1000 10 5 sample); [lia|]. vm_compute. reflexivity. Defined.

Lemma extract_zip_sound_witness :
  let r := mkExtract "name" 6 ["pkg/SKILL.md"; "pkg/a/run.sh"] in
  (100 ≤ 1000)%Z ∧ Forall contained sample
  ∧ length (candidates (FileName <$> regular sample)) = 1%nat
  ∧ (∃ f, f ∈ regular sample ∧ isSkillMDCandidate (FileName f) = true ∧ SkillMDContent r = Stream f)
  ∧ (blen (SkillMDContent r) ≤ maxSkillMDSize)%Z
  ∧ TotalSize r = sumZ (UncompressedSize64 <$> regular sample)
  ∧ (TotalSize r ≤ maxExtractedSize)%Z
  ∧ Files r = firstn 500 (FileName <$> regular sample).
Proof.
  apply (extract_zip_sound 100 1000 sample); [repeat constructor; simpl; lia|].
  vm_compute. reflexivity.
Defined.

Lemma archive_sound_witness :
  let out : gmap string string := {[ "pkg/SKILL.md" := "name"; "pkg/a/run.sh" := "ok" ]} in
  (100 ≤ 1000)%Z ∧ Forall contained sample
  ∧ (∀ n d, out !! n = Some d ↔ ∃ f, f ∈ regular sample ∧ FileName f = n ∧ Stream f = d)
  ∧ NoDup (FileName <$> regular sample)
  ∧ map_Forall (λ _ data, blen data ≤ 10)%Z out
  ∧ (total_bytes out ≤ 50)%Z
  ∧ (0 ≤ 0 → Z.of_nat (size out) ≤ maxManifestFiles)%Z.
Proof.
  apply (archive_sound 100 1000 50 10 0 sample); [lia..|]. vm_compute. reflexivity.
Defined.
