(* ===== verification/Parse.v ===== *)
(** * Parsing an uploaded skill: service/parse and markdown/sanitize.go

    What the parse worker makes of an uploaded archive: the download limits, the
    extraction ([Zip]), the SKILL.md frontmatter, the validation of name and
    description, the sanitized text fields and the sanitized readme; the public
    error messages; and the names uploads may have. YAML (gopkg.in/yaml.v3),
    Markdown parsing (goldmark), the archive reader and the encoding of tags are
    parameters. *)

From S2P Require Import Prelude GoStrings Zip.
From Stdlib Require Import Ascii.
Import Go.
Local Open Scope string_scope.

(** ** Markdown (internal/markdown/sanitize.go) *)

Definition dangerous_tags : list string :=
  ["script"; "style"; "iframe"; "object"; "embed"; "meta"; "link"; "base";
   "form"; "input"; "button"; "select"; "option"; "textarea";
   "frame"; "frameset"; "applet"].

Definition tag_blank (c : ascii) : bool :=
  mem (nat_of_ascii c) [32; 9; 10; 13]%nat.

Fixpoint skip_blanks (s : string) : string :=
  match s with
  | String c s' => if tag_blank c || Ascii.eqb c "/" then skip_blanks s' else s
  | "" => ""
  end.

Definition hasHTMLTag (lowerRaw tag : string) : bool :=
  if (String.length lowerRaw <? String.length tag + 1)%nat then false
  else match lowerRaw with
       | String c rest =>
           if negb (Ascii.eqb c "<") then false
           else match CutPrefix (skip_blanks rest) tag with
                | None => false
                | Some "" => true
                | Some (String e _) => tag_blank e || Ascii.eqb e ">" || Ascii.eqb e "/"
                end
       | "" => false
       end.

Definition isDangerousRawHTML (raw : string) : bool :=
  let low := ToLower (TrimSpace raw) in
  HasPrefix low "<!--" || existsb (hasHTMLTag low) dangerous_tags.

(** [html.EscapeString] *)
Definition escape_byte (c : ascii) : string :=
  if Ascii.eqb c "&" then "&amp;"
  else if Ascii.eqb c "'" then "&#39;"
  else if Ascii.eqb c "<" then "&lt;"
  else if Ascii.eqb c ">" then "&gt;"
  else if Ascii.eqb c (ascii_of_nat 34) then "&#34;"
  else String c "".
Fixpoint EscapeString (s : string) : string :=
  match s with "" => "" | String c s' => escape_byte c ++ EscapeString s' end.

Definition sanitizeRawHTML (raw : string) : string :=
  let trimmed := TrimSpace raw in
  if String.eqb trimmed "" || isDangerousRawHTML trimmed then "" else EscapeString raw.

(** A raw-HTML node of the parsed document, by the source segments it covers:
    a block's lines and its closure line, or an inline's segments. *)
Inductive HtmlNode :=
| HTMLBlock (lines : list (nat * nat)) (closure_stop : option nat)
| RawHTML (segments : list (nat * nat)).

Definition span (l : list (nat * nat)) : nat * nat :=
  match l with [] => (0, 0)%nat | (start, _) :: _ => (start, default 0%nat (snd <$> last l)) end.

Definition node_range (n : HtmlNode) : nat * nat :=
  match n with
  | RawHTML segments => span segments
  | HTMLBlock [] _ => (0, 0)%nat
  | HTMLBlock lines closure =>
      let '(start, stop) := span lines in
      (start, match closure with Some c => Nat.max stop c | None => stop end)
  end.

Definition slice (s : string) (i j : nat) : string := take (j - i) (drop i s).

Record replacement := mkReplacement { rp_start : nat; rp_stop : nat; rp_text : string }.

Definition node_replacement (source : string) (n : HtmlNode) : replacement :=
  let '(start, stop) := node_range n in
  mkReplacement start stop (sanitizeRawHTML (slice source start stop)).

Definition repl_le (a b : replacement) : Prop :=
  if decide (rp_start a = rp_start b) then (rp_stop a ≤ rp_stop b)%nat else (rp_start a < rp_start b)%nat.
#[export] Instance repl_le_dec : RelDecision repl_le.
Proof. unfold RelDecision, repl_le. intros a b. case_decide; apply _. Defined.

Fixpoint splice (source : string) (from : nat) (l : list replacement) : string :=
  match l with
  | [] => drop from source
  | r :: l' =>
      if (rp_start r <? from)%nat || (rp_stop r <=? rp_start r)%nat
         || (String.length source <? rp_stop r)%nat
      then splice source from l'
      else slice source from (rp_start r) ++ rp_text r ++ splice source (rp_stop r) l'
  end.

Section Markdown.
Context (html_nodes : string → list HtmlNode).

Definition Sanitize (raw : string) : string :=
  if String.eqb raw "" then ""
  else match html_nodes raw with
       | [] => raw
       | nodes => splice raw 0 (merge_sort repl_le (map (node_replacement raw) nodes))
       end.
End Markdown.

(** ** Text fields (worker.go) *)

Fixpoint replaceNullBytes (s : string) : string :=
  match s with
  | "" => ""
  | String c s' => if Ascii.eqb c zero then replaceNullBytes s' else String c (replaceNullBytes s')
  end.

Definition sanitizeString (s : string) (maxLen : nat) : string :=
  let s := ToValidUTF8 (replaceNullBytes s) in
  if (maxLen <? List.length (Runes s))%nat then of_runes (firstn maxLen (Runes s)) else s.

(** The longest valid prefix of at most [n] bytes. *)
Fixpoint valid_prefix (n : nat) (s : string) : string :=
  match n with
  | 0 => ""
  | S m => if Valid (take n s) then take n s else valid_prefix m s
  end.

Definition truncateUTF8Bytes (s : string) (maxBytes : nat) : string :=
  let s := ToValidUTF8 s in
  if (String.length s <=? maxBytes)%nat then s else valid_prefix maxBytes s.

Definition name_byte (c : ascii) : bool := is_letter c || is_digit c || Ascii.eqb c "-".

(** The runes of the name, one by one; a rune of several bytes is refused. *)
Definition name_rune (r : string) : bool :=
  match r with String c "" => name_byte c | _ => false end.

(** [true]: no error message. *)
Definition validateSkillName (name : string) : bool :=
  let name := TrimSpace name in
  if String.eqb name "" then false
  else if (64 <? String.length name)%nat then false
  else if HasPrefix name "-" || HasSuffix name "-" then false
  else if Contains name "--" then false
  else forallb name_rune (Runes name).

Definition validateSkillDescription (desc : string) : bool :=
  let desc := TrimSpace desc in
  if String.eqb desc "" then false
  else if (1024 <? RuneCountInString desc)%nat then false
  else negb (ContainsAny desc ["<"; ">"]%char).

(** ** Frontmatter (frontmatter.go) *)

(** [Metadata] is nil, or a value with its JSON encoding, if it has one. *)
Record FrontmatterResult := mkFrontmatter {
  fm_name : string;
  fm_description : string;
  fm_version : string;
  fm_tags : option (list string);
  fm_id : string;
  fm_forked_from : string;
  fm_metadata : option (option string)
}.

Definition set_fm_version (v : string) (r : FrontmatterResult) : FrontmatterResult :=
  mkFrontmatter (fm_name r) (fm_description r) v (fm_tags r) (fm_id r) (fm_forked_from r) (fm_metadata r).

Definition MaxScanTokenSize : nat := Nat.mul 64 1024.

(** The lines a [bufio.Scanner] yields before the end of the text, or before the
    first line that does not fit its buffer, where it stops with an error. *)
Fixpoint scan_lines (lines : list string) : list string :=
  match lines with
  | [] => []
  | [last] => if String.eqb last "" then [] else
              if (MaxScanTokenSize <=? String.length last)%nat then [] else [dropCR last]
  | line :: rest =>
      if (MaxScanTokenSize <=? String.length line)%nat then [] else dropCR line :: scan_lines rest
  end.
Definition ScanLines (text : string) : list string := scan_lines (Split text lf).

(** The lines up to a closing delimiter, and those after it. *)
Fixpoint until_delimiter (l : list string) : option (list string * list string) :=
  match l with
  | [] => None
  | line :: rest =>
      if String.eqb (TrimSpace line) "---" then Some ([], rest)
      else match until_delimiter rest with
           | Some (fm, body) => Some (line :: fm, body)
           | None => None
           end
  end.

(** [inferFromMarkdown]: the title seen so far and the paragraph's lines. *)
Fixpoint infer_lines (title : option string) (desc : list string) (l : list string)
    : option string * list string :=
  match l with
  | [] => (title, desc)
  | line :: rest =>
      let trimmed := TrimSpace line in
      match title with
      | None =>
          if HasPrefix trimmed "# " then infer_lines (Some (TrimSpace (drop 2 trimmed))) desc rest
          else infer_lines None desc rest
      | Some _ =>
          if String.eqb trimmed "" then
            match desc with [] => infer_lines title desc rest | _ => (title, desc) end
          else if HasPrefix trimmed "#" then (title, desc)
          else infer_lines title (desc ++ [trimmed])%list rest
      end
  end.

Definition inferFromMarkdown (content : string) : FrontmatterResult :=
  let '(title, desc) := infer_lines None [] (ScanLines content) in
  mkFrontmatter (default "" title) (take 500 (Join desc " ")) "1.0.0" None "" "" None.

Section Frontmatter.
Context (yaml : string → option FrontmatterResult).

Definition ParseFrontmatter (text : string) : FrontmatterResult * string :=
  let lines := ScanLines text in
  let '(fm, body) :=
    match lines with
    | first :: rest =>
        if String.eqb (TrimSpace first) "---" then
          match until_delimiter rest with
          | Some (fm, body) => (fm, body)
          | None => ([], lines)
          end
        else ([], lines)
    | [] => ([], lines)
    end in
  let body := Join body (String lf "") in
  let inferred := (inferFromMarkdown body, TrimSpace text) in
  match fm with
  | [] => inferred
  | _ =>
      match yaml (Join fm (String lf "")) with
      | Some r => (if String.eqb (fm_version r) "" then set_fm_version "1.0.0" r else r, TrimSpace body)
      | None => inferred
      end
  end.
End Frontmatter.

(** ** Public messages (failure.go) *)

Definition publicParseErrorMessage (code : string) : string :=
  if String.eqb code "INTERNAL_ERROR" then "Skill parse failed. Please retry later."
  else if String.eqb code "INVALID_ZIP" then "Uploaded file is not a valid ZIP archive."
  else if String.eqb code "FILE_TOO_LARGE" then "Uploaded file exceeds the size limit."
  else if String.eqb code "SKILL_MD_TOO_LARGE" then "SKILL.md exceeds the size limit."
  else if String.eqb code "SKILL_MD_NOT_FOUND" then "SKILL.md was not found in the archive."
  else if String.eqb code "ZIP_SLIP_DETECTED" then "Archive contains an unsafe file path."
  else if String.eqb code "INVALID_SKILL_MD" then "SKILL.md is invalid."
  else if String.eqb code "SKILL_NAME_MISMATCH" then "Uploaded Skill does not match the target Skill."
  else if String.eqb code "DUPLICATE_NAME" then "A Skill with the same name already exists in this Space."
  else if String.eqb code "PARSE_RETRY_EXHAUSTED" then
    "Skill parse timed out after multiple attempts. Please upload again."
  else if String.eqb code "PARSE_QUEUE_FULL" then "Parse queue is busy. Please retry later."
  else "Skill parse failed.".

Definition zip_code (e : ZipError) : string :=
  match e with
  | INVALID_ZIP => "INVALID_ZIP" | FILE_TOO_LARGE => "FILE_TOO_LARGE"
  | ZIP_SLIP_DETECTED => "ZIP_SLIP_DETECTED" | SKILL_MD_NOT_FOUND => "SKILL_MD_NOT_FOUND"
  | MULTIPLE_SKILL_MD => "MULTIPLE_SKILL_MD" | SKILL_MD_TOO_LARGE => "SKILL_MD_TOO_LARGE"
  | TOO_MANY_FILES => "TOO_MANY_FILES" | DUPLICATE_ENTRY => "DUPLICATE_ENTRY"
  end.

(** ** The worker (worker.go) *)

Inductive DownloadErr := DTooLarge | DFailed.

(** [info] is the size the store reports; [body] the bytes it serves, and
    whether the stream then fails. *)
Definition downloadToFile (info : option Z) (body : option (string * bool)) (maxBytes : Z)
    : result DownloadErr string :=
  match info with
  | None => Error DFailed
  | Some size =>
      if (size <=? 0)%Z || (size >? maxBytes)%Z then Error DTooLarge
      else match body with
           | None => Error DFailed
           | Some (bytes, broken) =>
               if (blen bytes >? maxBytes)%Z then Error DTooLarge
               else if broken : bool then Error DFailed else Ok bytes
           end
  end.

Record ParsedSkill := mkParsed {
  ps_name : string;
  ps_description : option string;
  ps_version : string;
  ps_tags : string;
  ps_readme : option string;
  ps_sha : string;
  ps_id : string;
  ps_forked_from : string;
  ps_metadata : option string
}.

Definition orNull (s : string) : option string := if String.eqb s "" then None else Some s.

Section Process.
Context (html_nodes : string → list HtmlNode) (yaml : string → option FrontmatterResult)
  (marshal_tags : list string → string) (sha256_hex : string → string)
  (open_zip : string → option (list File)).

(** The outcome of a job: what [updateFailed] or [updateSuccess] is given. *)
Definition process (info : option Z) (body : option (string * bool)) (maxZipBytes : Z)
    : result string ParsedSkill :=
  match downloadToFile info body maxZipBytes with
  | Error DTooLarge => Error "FILE_TOO_LARGE"
  | Error DFailed => Error "INTERNAL_ERROR"
  | Ok bytes =>
      let sha := sha256_hex bytes in
      match open_zip bytes with
      | None => Error "INVALID_ZIP"
      | Some entries =>
          match ExtractZip (blen bytes) maxZipBytes entries with
          | Error e => Error (zip_code e)
          | Ok r =>
              let '(fm, text) := ParseFrontmatter yaml (SkillMDContent r) in
              if negb (validateSkillName (fm_name fm)) then Error "INVALID_SKILL_MD"
              else if negb (validateSkillDescription (fm_description fm)) then Error "INVALID_SKILL_MD"
              else
                let version := sanitizeString (fm_version fm) 32 in
                let readme := Sanitize html_nodes (truncateUTF8Bytes text (1024 * 1024)) in
                let parsed metadata := mkParsed (sanitizeString (fm_name fm) 64)
                  (orNull (sanitizeString (fm_description fm) 1024))
                  (if String.eqb version "" then "1.0.0" else version)
                  (match fm_tags fm with Some l => marshal_tags l | None => "[]" end)
                  (orNull readme) sha
                  (sanitizeString (fm_id fm) 36) (sanitizeString (fm_forked_from fm) 36) metadata in
                match fm_metadata fm with
                | None => Ok (parsed None)
                | Some None => Error "INVALID_SKILL_MD"
                | Some (Some raw) => Ok (parsed (Some raw))
                end
          end
      end
  end.
End Process.

(** ** Upload names (service.go) *)

Definition isSupportedSkillPackageName (fileName : string) : bool :=
  let low := ToLower fileName in HasSuffix low ".zip" || HasSuffix low ".skill".

Definition normalizeObjectFileName (fileName : string) : option string :=
  if String.eqb fileName "" || negb (String.eqb fileName (Base fileName)) then None
  else if ContainsAny fileName ["/"; "\"]%char || Contains fileName ".." || ContainsByte fileName zero
  then None else Some fileName.

Definition normalizeUploadFileName (fileName : string) : option string :=
  let fileName := TrimSpace fileName in
  if isSupportedSkillPackageName fileName then normalizeObjectFileName fileName else None.

Definition upload_key (uploadID fileName : string) : string :=
  "skill-uploads/" ++ uploadID ++ "/" ++ fileName.

(** ** The name grammar *)

Definition alnum (c : ascii) : bool := is_letter c || is_digit c.
Definition word (w : string) : Prop := w ≠ "" ∧ all_bytes alnum w = true.

(** Words of letters and digits, joined by single hyphens. *)
Inductive hyphen_case : string → Prop :=
| hc_word w : word w → hyphen_case w
| hc_join w s : word w → hyphen_case s → hyphen_case (w ++ "-" ++ s).

Lemma alnum_not_hyphen c : alnum c = true → Ascii.eqb "-" c = false.
Proof. destruct (Ascii.eqb_spec "-" c) as [<-|]; [by vm_compute|done]. Qed.

Lemma alnum_ascii c : alnum c = true → (nat_of_ascii c <=? 127)%nat = true.
Proof.
  unfold alnum, is_letter, is_digit. intros H. apply Nat.leb_le.
  repeat (apply orb_true_iff in H as [H|H]); apply andb_true_iff in H as [_ H%Nat.leb_le]; lia.
Qed.
Lemma name_byte_ascii c : name_byte c = true → (nat_of_ascii c <=? 127)%nat = true.
Proof.
  unfold name_byte. intros H. apply orb_true_iff in H as [H|H]; [by apply alnum_ascii|].
  by apply Ascii.eqb_eq in H as ->.
Qed.

Lemma runes_ascii c s : (nat_of_ascii c <=? 127)%nat = true → Runes (String c s) = String c "" :: Runes s.
Proof.
  intros Hc. rewrite Runes_step by done. unfold first_rune. rewrite rune_size_ascii by done.
  unfold well_formed. by rewrite Hc.
Qed.

(** Checking runes is checking bytes: a rune of several bytes fails both. *)
Lemma forallb_runes s : forallb name_rune (Runes s) = all_bytes name_byte s.
Proof.
  induction s as [|c s IH]; [done|]. simpl all_bytes. destruct (name_byte c) eqn:Hn.
  - rewrite runes_ascii by (by apply name_byte_ascii). simpl. by rewrite Hn, IH.
  - rewrite Runes_step by done. simpl. apply andb_false_iff. left.
    unfold first_rune. destruct (well_formed (String c s)) eqn:Hw; [|done].
    pose proof (rune_size_bounds (String c s)) as Hb.
    destruct (rune_size (String c s)) as [|[|k]] eqn:Hk; [lia|by simpl; rewrite Hn|].
    pose proof (rune_size_length (String c s) ltac:(done)) as Hl. rewrite Hk in Hl. simpl in Hl.
    destruct s as [|c' s]; [simpl in Hl; lia|]. done.
Qed.

Lemma HasSuffix_cons c s p : HasSuffix s p = true → HasSuffix (String c s) p = true.
Proof.
  unfold HasSuffix. rewrite !andb_true_iff, !Nat.leb_le. intros [Hl He]. split; [simpl; lia|].
  simpl String.length. by rewrite Nat.sub_succ_l by lia.
Qed.
Lemma HasSuffix_app w s p : HasSuffix s p = true → HasSuffix (w ++ s) p = true.
Proof. induction w; [done|]. intros. rewrite append_cons. by apply HasSuffix_cons, IHw. Qed.

Lemma hyphen_last_cons c s : s ≠ "" → HasSuffix (String c s) "-" = HasSuffix s "-".
Proof.
  intros Hne. destruct s as [|a s]; [done|]. unfold HasSuffix. change (String.length "-") with 1%nat.
  simpl String.length. by rewrite !Nat.sub_succ, !Nat.sub_0_r.
Qed.
Lemma hyphen_last_app w s : s ≠ "" → HasSuffix (w ++ s) "-" = HasSuffix s "-".
Proof.
  intros Hne. induction w as [|c w IH]; [done|]. rewrite append_cons, hyphen_last_cons, IH; [done|].
  destruct w; [done|]. by rewrite append_cons.
Qed.

Lemma hyphen_prefix s : HasPrefix s "-" = true → ∃ t, s = String "-" t.
Proof.
  destruct s as [|c s]; [done|]. cbn [HasPrefix]. rewrite HasPrefix_nil, andb_true_r, Ascii.eqb_eq.
  intros <-. by exists s.
Qed.
Lemma hyphens_prefix c s : HasPrefix (String c s) "--" = Ascii.eqb "-" c && HasPrefix s "-".
Proof. done. Qed.

(** The letters and digits a name starts with, and the rest. *)
Fixpoint split_word (s : string) : string * string :=
  match s with
  | String c s' => if alnum c then let '(w, r) := split_word s' in (String c w, r) else ("", s)
  | "" => ("", "")
  end.

Lemma split_word_spec s : let '(w, r) := split_word s in
  s = w ++ r ∧ all_bytes alnum w = true ∧ (r = "" ∨ ∃ c r', r = String c r' ∧ alnum c = false).
Proof.
  induction s as [|c s IH]; simpl; [auto|]. destruct (alnum c) eqn:Hc; [|split_and!; [done..|right; by exists c, s]].
  destruct (split_word s) as [w r]. destruct IH as (-> & Hw & Hr). simpl. rewrite Hc.
  split_and!; [by rewrite append_cons|done..].
Qed.

Lemma hyphen_case_complete s :
  s ≠ "" → HasPrefix s "-" = false → HasSuffix s "-" = false → Contains s "--" = false →
  all_bytes name_byte s = true → hyphen_case s.
Proof.
  remember (String.length s) as n eqn:Hn. revert s Hn.
  induction (lt_wf n) as [n _ IH]. intros s Hn Hne Hp Hsuf Hc Hb.
  pose proof (split_word_spec s) as Hs. destruct (split_word s) as [w r]. destruct Hs as (-> & Hw & Hr).
  rewrite all_bytes_append in Hb. apply andb_true_iff in Hb as [_ Hb].
  assert (w ≠ "") as Hwne.
  { intros ->. destruct Hr as [->|(c & r' & -> & Hnc)]; [done|].
    change ("" ++ String c r') with (String c r') in *. simpl in Hb.
    apply andb_true_iff in Hb as [Hb _]. unfold name_byte in Hb. fold (alnum c) in Hb.
    rewrite Hnc in Hb. simpl in Hb. apply Ascii.eqb_eq in Hb as ->. by destruct r'. }
  destruct Hr as [->|(c & r' & -> & Hnc)].
  { constructor. split; [by destruct w|]. rewrite all_bytes_append, Hw. done. }
  simpl in Hb. apply andb_true_iff in Hb as [Hcb Hb]. unfold name_byte in Hcb. fold (alnum c) in Hcb.
  rewrite Hnc in Hcb. simpl in Hcb. apply Ascii.eqb_eq in Hcb as ->.
  apply (hc_join w r'); [done|]. apply (IH (String.length r')).
  - subst n. rewrite append_length. simpl. lia.
  - done.
  - intros ->. assert (HasSuffix (w ++ "-") "-" = true); [|congruence]. by apply HasSuffix_app.
  - apply not_true_iff_false. intros Hd. assert (Contains (w ++ String "-" r') "--" = true); [|congruence].
    apply Contains_app. apply hyphen_prefix in Hd as [t ->]. by destruct t.
  - apply not_true_iff_false. intros Hd.
    assert (HasSuffix (w ++ String "-" r') "-" = true); [|congruence]. by apply HasSuffix_app, HasSuffix_cons.
  - apply not_true_iff_false. intros Hd.
    assert (Contains (w ++ String "-" r') "--" = true); [|congruence]. by apply Contains_app, Contains_cons.
  - done.
Qed.

Lemma word_facts w t : word w →
  HasPrefix (w ++ t) "-" = false ∧ (w ++ t) ≠ "".
Proof.
  intros [Hne Hw]. destruct w as [|c w]; [done|]. simpl in Hw. apply andb_true_iff in Hw as [Hc _].
  rewrite append_cons. split; [|done]. cbn [HasPrefix]. by rewrite alnum_not_hyphen.
Qed.

Lemma word_last w : word w → HasSuffix w "-" = false.
Proof.
  intros [_ Hw]. apply not_true_iff_false. unfold HasSuffix. rewrite andb_true_iff, String.eqb_eq.
  intros [_ Hd]. change (String.length "-") with 1%nat in Hd.
  pose proof (all_bytes_drop alnum (String.length w - 1) w Hw) as Ha. by rewrite Hd in Ha.
Qed.

Lemma word_contains w t : all_bytes alnum w = true →
  Contains (w ++ t) "--" = Contains t "--".
Proof.
  induction w as [|c w IH]; [done|]. intros Hcw. cbn [all_bytes] in Hcw. apply andb_true_iff in Hcw as [Hc Hw].
  rewrite append_cons. change (Contains (String c (w ++ t)) "--")
    with (HasPrefix (String c (w ++ t)) "--" || Contains (w ++ t) "--").
  rewrite hyphens_prefix, alnum_not_hyphen by done. by apply IH.
Qed.

Lemma hyphen_case_sound s : hyphen_case s →
  s ≠ "" ∧ HasPrefix s "-" = false ∧ HasSuffix s "-" = false ∧ Contains s "--" = false
  ∧ all_bytes name_byte s = true.
Proof.
  assert (∀ w, all_bytes alnum w = true → all_bytes name_byte w = true) as Hsub.
  { induction w; simpl; [done|]. intros [Ha Hw]%andb_true_iff. unfold name_byte. fold (alnum a).
    rewrite Ha. simpl. auto. }
  induction 1 as [w Hw|w s Hw Hs (Hne & Hp & Hsuf & Hc & Hb)].
  - destruct (word_facts w "" Hw) as [H1 H2]. rewrite append_nil_r in *. split_and!; [done..|by apply word_last| |by apply Hsub, Hw].
    rewrite <-(append_nil_r w), word_contains; [done|apply Hw].
  - destruct (word_facts w ("-" ++ s) Hw) as [H1 H2]. split_and!; [done..| | |].
    + rewrite <-append_assoc, hyphen_last_app by done. done.
    + rewrite word_contains by apply Hw. destruct s as [|c s]; [done|].
      change (Contains ("-" ++ String c s) "--")
        with (HasPrefix (String "-" (String c s)) "--" || Contains (String c s) "--").
      by rewrite hyphens_prefix, Hp, Hc, andb_false_r.
    + rewrite all_bytes_append. rewrite Hsub by apply Hw. simpl. done.
Qed.

Lemma validateSkillName_spec name :
  validateSkillName name = true ↔
  hyphen_case (TrimSpace name) ∧ (String.length (TrimSpace name) ≤ 64)%nat.
Proof.
  unfold validateSkillName. cbv zeta. rewrite forallb_runes. generalize (TrimSpace name) as s. intros s.
  split.
  - destruct (String.eqb_spec s ""); [done|]. destruct (Nat.ltb_spec 64 (String.length s)); [done|].
    destruct (HasPrefix s "-") eqn:Hp; [done|]. destruct (HasSuffix s "-") eqn:Hs; [done|]. simpl.
    destruct (Contains s "--") eqn:Hc; [done|]. intros Hb. split; [by apply hyphen_case_complete|done].
  - intros [Hh Hl]. apply hyphen_case_sound in Hh as (Hne & Hp & Hs & Hc & Hb).
    destruct (String.eqb_spec s ""); [done|]. destruct (Nat.ltb_spec 64 (String.length s)); [lia|].
    by rewrite Hp, Hs, Hc.
Qed.

(** The name check accepts exactly the hyphen-case names: after trimming,
    at most 64 bytes, words of ASCII letters and digits joined by single
    hyphens. *)
Theorem skill_name_grammar name :
  validateSkillName name = true ↔
  hyphen_case (TrimSpace name) ∧ (String.length (TrimSpace name) ≤ 64)%nat.
Proof. apply validateSkillName_spec. Qed.

(** ** What remains of raw HTML *)

Definition angle (c : ascii) : bool := Ascii.eqb c "<" || Ascii.eqb c ">".

(** The bytes that satisfy [f], in order. *)
Fixpoint sift (f : ascii → bool) (s : string) : string :=
  match s with "" => "" | String c s' => if f c then String c (sift f s') else sift f s' end.

(** The bytes of a text whose position, counted from [i], is not masked. *)
Fixpoint unmasked (mask : nat → bool) (i : nat) (s : string) : string :=
  match s with
  | "" => ""
  | String c s' => if mask i then unmasked mask (S i) s' else String c (unmasked mask (S i) s')
  end.

Definition covers (i : nat) (r : nat * nat) : Prop := (r.1 ≤ i < r.2)%nat.
#[export] Instance covers_dec i r : Decision (covers i r).
Proof. unfold covers. apply _. Defined.
Definition in_html (nodes : list HtmlNode) (i : nat) : bool :=
  bool_decide (Exists (covers i) (map node_range nodes)).

(** The ranges lie in the text, and no position is in two of them. *)
Definition separate (n : nat) (ranges : list (nat * nat)) : Prop :=
  Forall (λ r, r.1 ≤ r.2 ≤ n)%nat ranges
  ∧ ∀ i, (List.length (filter (covers i) ranges) ≤ 1)%nat.

Lemma sift_append f a b : sift f (a ++ b) = sift f a ++ sift f b.
Proof.
  induction a as [|c a IH]; [done|]. rewrite append_cons. simpl. rewrite IH. by case_match.
Qed.
Lemma unmasked_append f i a b :
  unmasked f i (a ++ b) = unmasked f i a ++ unmasked f (i + String.length a) b.
Proof.
  revert i. induction a as [|c a IH]; intros i; [by rewrite Nat.add_0_r|].
  rewrite append_cons. simpl. rewrite IH. replace (S i + String.length a)%nat with (i + S (String.length a))%nat by lia.
  by case_match.
Qed.
Lemma unmasked_ext f g i s :
  (∀ j, i ≤ j < i + String.length s → f j = g j)%nat → unmasked f i s = unmasked g i s.
Proof.
  revert i. induction s as [|c s IH]; intros i H; [done|]. simpl in *. rewrite (H i) by lia.
  rewrite (IH (S i)); [done|]. intros j Hj. apply H. lia.
Qed.
Lemma unmasked_none i s : unmasked (λ _, false) i s = s.
Proof. revert i. induction s as [|c s IH]; intros i; [done|]. simpl. by rewrite IH. Qed.
Lemma unmasked_all i s : unmasked (λ _, true) i s = "".
Proof. revert i. induction s as [|c s IH]; intros i; [done|]. simpl. by rewrite IH. Qed.

Lemma EscapeString_angles s : sift angle (EscapeString s) = "".
Proof.
  induction s as [|c s IH]; [done|]. cbn [EscapeString]. rewrite sift_append, IH, append_nil_r.
  unfold escape_byte. repeat (case_match; [done|]). simpl. unfold angle. by rewrite H1, H2.
Qed.
Lemma sanitizeRawHTML_angles raw : sift angle (sanitizeRawHTML raw) = "".
Proof. unfold sanitizeRawHTML. cbv zeta. case_match; [done|apply EscapeString_angles]. Qed.

Lemma slice_length s i j : (i ≤ j ≤ String.length s)%nat → String.length (slice s i j) = (j - i)%nat.
Proof. intros H. unfold slice. rewrite take_length; [done|]. rewrite drop_length. lia. Qed.
Lemma drop_drop n m s : drop n (drop m s) = drop (m + n) s.
Proof. revert s. induction m as [|m IH]; intros s; [done|]. destruct s; [by destruct n|apply IH]. Qed.
Lemma drop_slice s i j : (i ≤ j)%nat → drop i s = slice s i j ++ drop j s.
Proof.
  intros H. rewrite <-(take_drop (j - i) (drop i s)) at 1. unfold slice. f_equal. rewrite drop_drop. f_equal. lia.
Qed.

Definition repl_range (r : replacement) : nat * nat := (rp_start r, rp_stop r).
Definition in_repl (l : list replacement) (i : nat) : bool :=
  bool_decide (Exists (covers i) (map repl_range l)).

Lemma in_repl_cons r l i : in_repl (r :: l) i = bool_decide (covers i (repl_range r)) || in_repl l i.
Proof.
  unfold in_repl. simpl. apply eq_true_iff_eq. rewrite orb_true_iff, !bool_decide_eq_true. apply Exists_cons.
Qed.

Lemma separate_cons n r l : separate n (r :: l) → separate n l.
Proof.
  intros [Hb Hs]. split; [by inversion Hb|]. intros i. specialize (Hs i).
  rewrite filter_cons in Hs. case_decide; simpl in Hs; lia.
Qed.

(** A later range of a sorted, separate list starts after the first one ends. *)
Lemma separate_after n r l x :
  separate n (r :: l) → x ∈ l → (r.1 ≤ x.1)%nat → (x.1 < x.2)%nat → (r.2 ≤ x.1)%nat.
Proof.
  intros [_ Hs] Hx Hle Hne. specialize (Hs x.1). rewrite filter_cons in Hs.
  case_decide as Hc; [|unfold covers in Hc; lia]. simpl in Hs.
  assert (x ∈ filter (covers x.1) l) as Hin by (apply list_elem_of_filter; split; [unfold covers; lia|done]).
  destruct (filter _ l); [by apply elem_of_nil in Hin|simpl in Hs; lia].
Qed.

Definition starts_before (a b : replacement) : Prop := (rp_start a ≤ rp_start b)%nat.

Lemma in_repl_false l i : Forall (λ r, i < rp_start r ∨ rp_stop r ≤ i)%nat l → in_repl l i = false.
Proof.
  intros H. apply bool_decide_eq_false. rewrite Exists_exists. intros (x & Hx & Hc).
  apply list_elem_of_fmap in Hx as (r & -> & Hr). rewrite Forall_forall in H. specialize (H r Hr).
  unfold covers, repl_range in Hc. simpl in Hc. lia.
Qed.

Lemma splice_angles source l from :
  Forall (λ r, sift angle (rp_text r) = "") l →
  StronglySorted starts_before l →
  separate (String.length source) (map repl_range l) →
  Forall (λ r, rp_start r < rp_stop r → from ≤ rp_start r)%nat l →
  sift angle (splice source from l) = sift angle (unmasked (in_repl l) from (drop from source)).
Proof.
  revert from. induction l as [|r l IH]; intros from Ht Hs Hsep Hf.
  { simpl. by rewrite (unmasked_ext _ (λ _, false)), unmasked_none by done. }
  inversion Ht as [|?? Hr Ht']. inversion Hs as [|?? Hs' Hfst]. inversion Hf as [|?? Hrf Hf']. subst.
  pose proof (separate_cons _ _ _ Hsep) as Hsep'. pose proof Hsep as [Hb Hov].
  inversion Hb as [|?? Hrb Hb']. simpl in Hrb. subst. cbn [splice].
  destruct (decide (rp_start r < rp_stop r)%nat) as [Hne|Hemp].
  - assert (from ≤ rp_start r)%nat as Hle by auto.
    destruct (Nat.ltb_spec (rp_start r) from); [lia|]. destruct (Nat.leb_spec (rp_stop r) (rp_start r)); [lia|].
    destruct (Nat.ltb_spec (String.length source) (rp_stop r)); [lia|]. simpl orb. cbv iota.
    assert (Forall (λ x, rp_start x < rp_stop x → rp_stop r ≤ rp_start x)%nat l) as Hlater.
    { rewrite Forall_forall in *. intros x Hx Hxne.
      apply (separate_after (String.length source) (repl_range r) (map repl_range l) (repl_range x));
        [done|by apply list_elem_of_fmap; eauto|by apply (Hfst x)|done]. }
    rewrite !sift_append, Hr, (IH (rp_stop r)) by done.
    rewrite (drop_slice source from (rp_start r)), (drop_slice source (rp_start r) (rp_stop r)) by lia.
    rewrite !unmasked_append, !sift_append, !slice_length by lia. f_equal; [f_equal|].
    + rewrite (unmasked_ext _ (λ _, false)), unmasked_none; [done|]. intros j Hj.
      rewrite slice_length in Hj by lia. apply in_repl_false. constructor; [lia|].
      rewrite Forall_forall in *. intros x Hx. specialize (Hfst x Hx). unfold starts_before in Hfst. lia.
    + rewrite (unmasked_ext _ (λ _, true) _ (slice _ _ _)), unmasked_all.
      * simpl. f_equal. replace (from + (rp_start r - from) + (rp_stop r - rp_start r))%nat with (rp_stop r) by lia.
        f_equal. apply unmasked_ext. intros j Hj. rewrite in_repl_cons, bool_decide_eq_false_2; [done|].
        unfold covers, repl_range. simpl. lia.
      * intros j Hj. rewrite slice_length in Hj by lia. rewrite in_repl_cons, bool_decide_eq_true_2; [done|].
        unfold covers, repl_range. simpl. lia.
  - destruct (Nat.leb_spec (rp_stop r) (rp_start r)); [|lia]. rewrite orb_true_r. simpl orb. cbv iota.
    rewrite (IH from) by done. f_equal. apply unmasked_ext. intros j _.
    rewrite in_repl_cons, bool_decide_eq_false_2; [done|]. unfold covers, repl_range. simpl. lia.
Qed.

#[export] Instance repl_le_trans : Transitive repl_le.
Proof. intros a b c. unfold repl_le. repeat case_decide; lia. Qed.
#[export] Instance repl_le_total : Total repl_le.
Proof. intros a b. unfold repl_le. repeat case_decide; lia. Qed.

Lemma StronglySorted_weaken {A} (R S : A → A → Prop) l :
  (∀ a b, R a b → S a b) → StronglySorted R l → StronglySorted S l.
Proof. intros H. induction 1; constructor; [done|]. eapply Forall_impl; eauto. Qed.

Lemma node_replacement_range s n : repl_range (node_replacement s n) = node_range n.
Proof. unfold node_replacement. by destruct (node_range n). Qed.

#[export] Instance separate_proper n : Proper ((≡ₚ) ==> iff) (separate n).
Proof.
  assert (∀ l k, l ≡ₚ k → separate n l → separate n k) as H.
  { intros l k Hp [Hb Hs]. split; [by rewrite <-Hp|]. intros i. by rewrite <-Hp. }
  intros l k Hp. split; apply H; done.
Qed.

(** What is never shown of raw HTML, written apart from the code: a comment, or a
    tag of the list, after any blanks and slashes and closed by one of them or
    by the end. *)
Inductive tag_closed : string → Prop :=
| tag_closed_end : tag_closed ""
| tag_closed_by c s : tag_blank c || Ascii.eqb c ">" || Ascii.eqb c "/" = true → tag_closed (String c s).
Definition dangerous (html : string) : Prop :=
  (∃ s, ToLower (TrimSpace html) = "<!--" ++ s)
  ∨ ∃ pre tag s, ToLower (TrimSpace html) = "<" ++ pre ++ tag ++ s
      ∧ all_bytes (λ c, tag_blank c || Ascii.eqb c "/") pre = true ∧ tag ∈ dangerous_tags ∧ tag_closed s.

Lemma skip_blanks_split s : ∃ pre, s = pre ++ skip_blanks s ∧ all_bytes (λ c, tag_blank c || Ascii.eqb c "/") pre = true.
Proof.
  induction s as [|c s (pre & E & Hp)]; [by exists ""|]. cbn [skip_blanks].
  destruct (tag_blank c || Ascii.eqb c "/") eqn:Hc; [|by exists ""].
  exists (String c pre). rewrite append_cons, <-E. split; [done|]. cbn [all_bytes]. by rewrite Hc.
Qed.
Lemma skip_blanks_app pre s :
  all_bytes (λ c, tag_blank c || Ascii.eqb c "/") pre = true → skip_blanks (pre ++ s) = skip_blanks s.
Proof.
  induction pre as [|c pre IH]; [done|]. cbn [all_bytes]. intros [Hc Hp]%andb_true_iff.
  rewrite append_cons. cbn [skip_blanks]. rewrite Hc. by apply IH.
Qed.
Lemma tag_not_blank tag s : tag ∈ dangerous_tags → skip_blanks (tag ++ s) = tag ++ s.
Proof. intros H. unfold dangerous_tags in H. rewrite !elem_of_cons, elem_of_nil in H. by decompose [or] H; subst. Qed.

Lemma hasHTMLTag_spec low tag : tag ∈ dangerous_tags →
  hasHTMLTag low tag = true ↔ ∃ pre s, low = "<" ++ pre ++ tag ++ s
    ∧ all_bytes (λ c, tag_blank c || Ascii.eqb c "/") pre = true ∧ tag_closed s.
Proof.
  intros Ht. unfold hasHTMLTag. split.
  - destruct (_ <? _)%nat; [done|]. destruct low as [|c rest]; [done|].
    destruct (Ascii.eqb_spec c "<") as [->|]; [|done]. simpl negb. cbv iota.
    destruct (CutPrefix (skip_blanks rest) tag) as [r|] eqn:Hc; [|done]. apply CutPrefix_some in Hc. intros Hr.
    destruct (skip_blanks_split rest) as (pre & E & Hp). exists pre, r. rewrite Hc in E.
    split_and!; [by rewrite E|done|]. destruct r; by constructor.
  - intros (pre & s & -> & Hp & Hs). rewrite !append_length. change (String.length "<") with 1%nat.
    destruct (Nat.ltb_spec (1 + (String.length pre + (String.length tag + String.length s))) (String.length tag + 1)); [lia|].
    change ("<" ++ pre ++ tag ++ s) with (String "<" (pre ++ tag ++ s)). cbv iota beta.
    rewrite Ascii.eqb_refl. simpl negb. cbv iota.
    rewrite skip_blanks_app, tag_not_blank by done. rewrite (proj2 (CutPrefix_some tag _ s)) by done.
    destruct Hs as [|c s Hc]; done.
Qed.

Lemma dangerous_spec html : isDangerousRawHTML (TrimSpace html) = true ↔ dangerous html.
Proof.
  unfold isDangerousRawHTML, dangerous. cbv zeta. rewrite TrimSpace_idem. generalize (ToLower (TrimSpace html)) as low. intros low.
  rewrite orb_true_iff, existsb_exists. f_equiv.
  - split; [apply HasPrefix_split|]. intros [s ->]. apply HasPrefix_app.
  - split.
    + intros (tag & Hin%list_elem_of_In & Ht). apply (hasHTMLTag_spec low tag) in Ht as (pre & s & ? & ? & ?); [|done].
      by exists pre, tag, s.
    + intros (pre & tag & s & ? & ? & Hin & ?). exists tag. split; [by apply list_elem_of_In|].
      apply (hasHTMLTag_spec low tag); [done|]. by exists pre, s.
Qed.

(** What is written for raw HTML: nothing for blank or dangerous HTML, and its
    text, escaped, for any other. *)
Definition html_text (html text : string) : Prop :=
  (TrimSpace html = "" ∨ dangerous html) ∧ text = ""
  ∨ TrimSpace html ≠ "" ∧ ¬ dangerous html ∧ text = EscapeString html.

Lemma sanitizeRawHTML_text html : html_text html (sanitizeRawHTML html).
Proof.
  unfold html_text, sanitizeRawHTML. cbv zeta. rewrite <-dangerous_spec.
  destruct (String.eqb_spec (TrimSpace html) ""); [by left; auto|]. cbn [orb].
  destruct (isDangerousRawHTML _) eqn:Hd; [by left; auto|]. right. by split_and!.
Qed.

(** [scrubbed nodes source i out]: [out] is the source from byte [i] on, byte by
    byte outside the raw HTML of [nodes], with each range of raw HTML replaced
    as a whole by its text. *)
Inductive scrubbed (html : nat → nat → string → Prop) (mask : nat → bool) (source : string) : nat → string → Prop :=
| scrubbed_end : scrubbed html mask source (String.length source) ""
| scrubbed_text i c out : String.get i source = Some c → mask i = false →
    scrubbed html mask source (S i) out → scrubbed html mask source i (String c out)
| scrubbed_html i j text out : (i < j)%nat → html i j text →
    scrubbed html mask source j out → scrubbed html mask source i (text ++ out).
Definition raw_html (nodes : list HtmlNode) (source : string) (i j : nat) (text : string) : Prop :=
  ∃ n, n ∈ nodes ∧ node_range n = (i, j) ∧ html_text (slice source i j) text.

Lemma scrubbed_impl (P Q : nat → nat → string → Prop) m m' source i out :
  (∀ i j t, P i j t → Q i j t) → (∀ j, i ≤ j → m j = m' j)%nat →
  scrubbed P m source i out → scrubbed Q m' source i out.
Proof.
  intros HP Hm. induction 1 as [|i c out Hc Hi _ IH|i j t out Hij Hp _ IH].
  - constructor.
  - constructor; [done|by rewrite <-Hm|]. apply IH. intros; apply Hm; lia.
  - econstructor; [done|by apply HP|]. apply IH. intros; apply Hm; lia.
Qed.

Lemma get_drop source i c s : drop i source = String c s → String.get i source = Some c ∧ drop (S i) source = s.
Proof.
  revert source. induction i as [|i IH]; intros [|d source]; simpl; [done|by intros [= -> ->]|done|apply IH].
Qed.

Lemma scrubbed_kept P m source from to out :
  (from ≤ to ≤ String.length source)%nat → (∀ j, from ≤ j < to → m j = false)%nat →
  scrubbed P m source to out → scrubbed P m source from (slice source from to ++ out).
Proof.
  intros Hle Hm Hs. unfold slice. remember (to - from)%nat as k eqn:Hk. revert from Hle Hm Hk.
  induction k as [|k IH]; intros from Hle Hm Hk.
  - assert (from = to) as -> by lia. by destruct (drop to source).
  - destruct (drop from source) as [|c s] eqn:E.
    { apply (f_equal String.length) in E. rewrite drop_length in E. simpl in E. lia. }
    apply get_drop in E as [Hc E]. cbn [take]. rewrite append_cons. constructor; [done|apply Hm; lia|].
    rewrite <-E. apply IH; [lia| |lia]. intros; apply Hm; lia.
Qed.

Lemma splice_scrubbed (P : nat → nat → string → Prop) source l from :
  Forall (λ r, P (rp_start r) (rp_stop r) (rp_text r)) l →
  StronglySorted starts_before l →
  separate (String.length source) (map repl_range l) → (from ≤ String.length source)%nat →
  Forall (λ r, rp_start r < rp_stop r → from ≤ rp_start r)%nat l →
  scrubbed P (in_repl l) source from (splice source from l).
Proof.
  revert from. induction l as [|r l IH]; intros from Ht Hs Hsep Hfrom Hf.
  { cbn [splice]. rewrite (drop_slice source from (String.length source)), drop_all by lia.
    apply scrubbed_kept; [lia|done|constructor]. }
  inversion Ht as [|?? Hr Ht']. inversion Hs as [|?? Hs' Hfst]. inversion Hf as [|?? Hrf Hf']. subst.
  pose proof (separate_cons _ _ _ Hsep) as Hsep'. pose proof Hsep as [Hb Hov].
  inversion Hb as [|?? Hrb Hb']. simpl in Hrb. subst. cbn [splice].
  destruct (decide (rp_start r < rp_stop r)%nat) as [Hne|Hemp].
  - assert (from ≤ rp_start r)%nat as Hle by auto.
    destruct (Nat.ltb_spec (rp_start r) from); [lia|]. destruct (Nat.leb_spec (rp_stop r) (rp_start r)); [lia|].
    destruct (Nat.ltb_spec (String.length source) (rp_stop r)); [lia|]. simpl orb. cbv iota.
    assert (Forall (λ x, rp_start x < rp_stop x → rp_stop r ≤ rp_start x)%nat l) as Hlater.
    { rewrite Forall_forall in *. intros x Hx Hxne.
      apply (separate_after (String.length source) (repl_range r) (map repl_range l) (repl_range x));
        [done|by apply list_elem_of_fmap; eauto|by apply (Hfst x)|done]. }
    apply scrubbed_kept; [lia| |].
    + intros j Hj. apply in_repl_false. constructor; [lia|].
      rewrite Forall_forall in *. intros x Hx. specialize (Hfst x Hx). unfold starts_before in Hfst. lia.
    + econstructor; [exact Hne|exact Hr|]. eapply (scrubbed_impl P P (in_repl l)); [done| |apply IH; done || lia].
      intros j Hj. rewrite in_repl_cons, bool_decide_eq_false_2; [done|]. unfold covers, repl_range. simpl. lia.
  - destruct (Nat.leb_spec (rp_stop r) (rp_start r)); [|lia]. rewrite orb_true_r. simpl orb. cbv iota.
    eapply (scrubbed_impl P P (in_repl l)); [done| |by apply IH].
    intros j _. rewrite in_repl_cons, bool_decide_eq_false_2; [done|]. unfold covers, repl_range. simpl. lia.
Qed.

Lemma splice_nothing l from : splice "" from l = "".
Proof.
  revert from. induction l as [|r l IH]; intros from; [by destruct from|]. cbn [splice String.length].
  destruct (Nat.ltb_spec 0 (rp_stop r)); [rewrite orb_true_r; apply IH|].
  destruct (Nat.leb_spec (rp_stop r) (rp_start r)); [rewrite orb_true_r; apply IH|lia].
Qed.

(** The replacements, sorted: what the splice is applied to. *)
Lemma replacements_sorted nodes raw :
  let l := merge_sort repl_le (map (node_replacement raw) nodes) in
  StronglySorted starts_before l ∧ l ≡ₚ map (node_replacement raw) nodes
  ∧ map repl_range (map (node_replacement raw) nodes) = map node_range nodes.
Proof.
  cbv zeta. split_and!; [|apply merge_sort_Permutation|].
  - apply (StronglySorted_weaken repl_le); [|apply (StronglySorted_merge_sort repl_le)].
    intros a b. unfold repl_le, starts_before. case_decide; lia.
  - rewrite map_map. apply map_ext. apply node_replacement_range.
Qed.

(** C40: a sanitized Markdown text is the source with its raw HTML replaced and
    nothing else touched. When the ranges of raw HTML the parser reports lie in
    the text and do not overlap, the output is, byte for byte and in order, the
    source outside those ranges, with each range replaced as a whole: by nothing
    when it is blank, a comment or a tag of the dangerous ones, and by its text
    with every special character escaped otherwise. In particular the angle
    brackets kept are exactly those outside raw HTML. *)
Theorem markdown_scrubbed html_nodes raw :
  separate (String.length raw) (map node_range (html_nodes raw)) →
  scrubbed (raw_html (html_nodes raw) raw) (in_html (html_nodes raw)) raw 0 (Sanitize html_nodes raw)
  ∧ sift angle (Sanitize html_nodes raw) = sift angle (unmasked (in_html (html_nodes raw)) 0 raw).
Proof.
  intros Hsep. assert (Sanitize html_nodes raw = splice raw 0 (merge_sort repl_le (map (node_replacement raw) (html_nodes raw)))) as ->.
  { unfold Sanitize. destruct (String.eqb_spec raw "") as [->|]; [symmetry; apply splice_nothing|]. by destruct (html_nodes raw). }
  set (nodes := html_nodes raw) in *. clearbody nodes.
  destruct (replacements_sorted nodes raw) as (Hs & Hp & Hr). set (l := merge_sort _ _) in *.
  assert (∀ i, in_repl l i = in_html nodes i) as Hmask.
  { intros i. unfold in_repl, in_html. apply bool_decide_ext. by rewrite Hp, Hr. }
  assert (separate (String.length raw) (map repl_range l)) as Hsep' by (by rewrite Hp, Hr).
  assert (Forall (λ r, rp_start r < rp_stop r → 0 ≤ rp_start r)%nat l) as H0 by (rewrite Forall_forall; intros; lia).
  split.
  - eapply scrubbed_impl; [intros i j t H; exact H|intros j _; apply Hmask|]. apply splice_scrubbed; [|done|done|lia|done].
    rewrite Hp, Forall_map, Forall_forall. intros n Hn. unfold compose, raw_html. exists n. unfold node_replacement.
    destruct (node_range n) as [i j]. split_and!; [done|done|]. apply sanitizeRawHTML_text.
  - rewrite splice_angles; [|..|done|done|done].
    + f_equal. by apply unmasked_ext.
    + rewrite Hp, Forall_map, Forall_forall. intros n _. unfold compose, node_replacement.
      destruct (node_range n). apply sanitizeRawHTML_angles.
Qed.

(** ** What a successful parse stores *)

Definition nonzero_byte (c : ascii) : bool := negb (Ascii.eqb c zero).

Lemma ToValidUTF8_bytes f s : all_bytes f s = true → all_bytes f (ToValidUTF8 s) = true.
Proof.
  unfold ToValidUTF8. generalize (String.length s) as n. intros n. revert s.
  induction n as [|n IH]; intros s Hs; [by destruct s|]. destruct s as [|c s]; [done|].
  cbn [drop_invalid]. rewrite all_bytes_append. apply andb_true_iff. split.
  - case_match; [by apply all_bytes_take|done].
  - by apply IH, all_bytes_drop.
Qed.

Lemma replaceNullBytes_nonzero s : all_bytes nonzero_byte (replaceNullBytes s) = true.
Proof.
  induction s as [|c s IH]; [done|]. cbn [replaceNullBytes]. destruct (Ascii.eqb c zero) eqn:Hc; [done|].
  cbn [all_bytes]. unfold nonzero_byte at 1. by rewrite Hc, IH.
Qed.

(** A sanitized field: bounded in runes, without NUL bytes. *)
Definition clean_text (n : nat) (s : string) : Prop :=
  (RuneCountInString s ≤ n)%nat ∧ all_bytes nonzero_byte s = true.

Lemma sanitizeString_clean s n : clean_text n (sanitizeString s n).
Proof.
  unfold sanitizeString. cbv zeta. pose proof (ToValidUTF8_bytes _ _ (replaceNullBytes_nonzero s)) as Hz.
  revert Hz. generalize (ToValidUTF8 (replaceNullBytes s)) as u. intros u Hz.
  destruct (Nat.ltb_spec n (List.length (Runes u))) as [Hl|Hl]; split.
  - rewrite <-Runes_length, Runes_of_runes; [rewrite length_firstn; lia|]. apply Forall_take, Runes_encoded.
  - by apply all_bytes_Runes.
  - by rewrite <-Runes_length.
  - done.
Qed.

Lemma take_length_le n s : (String.length (take n s) ≤ n)%nat.
Proof. revert s. induction n as [|n IH]; intros [|c s]; simpl; [lia..|]. specialize (IH s). lia. Qed.
Lemma valid_prefix_length n s : (String.length (valid_prefix n s) ≤ n)%nat.
Proof.
  induction n as [|n IH]; [done|]. cbn [valid_prefix]. case_match; [apply take_length_le|lia].
Qed.
Lemma truncate_length s n : (String.length (truncateUTF8Bytes s n) ≤ n)%nat.
Proof.
  unfold truncateUTF8Bytes. cbv zeta. case_match eqn:H; [by apply Nat.leb_le in H|apply valid_prefix_length].
Qed.

Lemma download_ok info body max bytes :
  downloadToFile info body max = Ok bytes →
  ∃ size, info = Some size ∧ (0 < size ≤ max)%Z ∧ body = Some (bytes, false) ∧ (blen bytes ≤ max)%Z.
Proof.
  unfold downloadToFile. destruct info as [size|]; [|done].
  destruct (Z.leb_spec size 0); [done|]. rewrite Z.gtb_ltb. destruct (Z.ltb_spec max size); [done|]. simpl.
  destruct body as [[b broken]|]; [|done]. rewrite Z.gtb_ltb. destruct (Z.ltb_spec max (blen b)); [done|].
  destruct broken; [done|]. intros [= <-]. by exists size.
Qed.

Lemma drop_invalid_encoded n s : ∃ l, drop_invalid n s = of_runes l ∧ Forall encoded l.
Proof.
  revert s. induction n as [|n IH]; intros s; [exists []; by destruct s|].
  destruct s as [|c s]; [by exists []|]. cbn [drop_invalid].
  destruct (IH (drop (rune_size (String c s)) (String c s))) as (l & -> & Hl).
  destruct (well_formed (String c s)) eqn:Hw; [|by exists l].
  exists (first_rune (String c s) :: l). split; [unfold first_rune; by rewrite Hw|].
  constructor; [apply first_rune_encoded|done].
Qed.

Lemma valid_of_runes l : Forall encoded l → ∀ n, (String.length (of_runes l) ≤ n)%nat → valid_runes n (of_runes l) = true.
Proof.
  induction 1 as [|c l [[Hne Hc] Hw] _ IH]; intros n Hn; [by destruct n|].
  change (of_runes (c :: l)) with (c ++ of_runes l) in *. rewrite append_length in Hn.
  specialize (Hc (of_runes l)). specialize (Hw (of_runes l)). pose proof (drop_append c (of_runes l)) as Hdrop.
  destruct n as [|n]; [destruct c; [done|simpl in Hn; lia]|].
  destruct c as [|a c]; [done|]. revert Hc Hw Hdrop Hn. rewrite !append_cons. intros Hc Hw Hdrop Hn. cbn [valid_runes].
  apply andb_true_iff. split; [exact Hw|]. rewrite Hc, Hdrop. apply IH. simpl in Hn. lia.
Qed.

Lemma ToValidUTF8_Valid s : Valid (ToValidUTF8 s) = true.
Proof.
  unfold ToValidUTF8, Valid. destruct (drop_invalid_encoded (String.length s) s) as (l & -> & Hl). by apply valid_of_runes.
Qed.

(** The longest prefix of at most [n] bytes that does not end inside a character. *)
Definition longest_prefix (n : nat) (s prefix : string) : Prop :=
  (String.length prefix ≤ n)%nat ∧ Valid prefix = true ∧ (∃ rest, s = prefix ++ rest)
  ∧ ∀ longer rest, s = longer ++ rest → Valid longer = true → (String.length longer ≤ n)%nat →
      (String.length longer ≤ String.length prefix)%nat.

Lemma append_take p r : take (String.length p) (p ++ r) = p.
Proof. induction p as [|c p IH]; [by destruct r|]. rewrite append_cons. cbn [String.length take]. by rewrite IH. Qed.

Lemma valid_prefix_longest n s : (n ≤ String.length s)%nat → longest_prefix n s (valid_prefix n s).
Proof.
  induction n as [|n IH]; intros Hn.
  - split_and!; [done|done|by exists s|]. intros longer rest _ _ Hl. exact Hl.
  - cbn [valid_prefix]. destruct (Valid (take (S n) s)) eqn:Hv.
    + assert (String.length (take (S n) s) = S n) as Hlen by (by apply take_length).
      split_and!; [lia|done|exists (drop (S n) s); by rewrite take_drop|]. intros longer rest _ _ Hl. lia.
    + destruct IH as (H1 & H2 & H3 & H4); [lia|]. split_and!; [lia|done|done|].
      intros longer rest E Hlv Hl. destruct (decide (String.length longer = S n)) as [Hk|Hk]; [|apply (H4 longer rest); done || lia].
      rewrite E, <-Hk, append_take, Hlv in Hv. done.
Qed.

Lemma truncate_longest s n : longest_prefix n (ToValidUTF8 s) (truncateUTF8Bytes s n).
Proof.
  unfold truncateUTF8Bytes. cbv zeta. destruct (Nat.leb_spec (String.length (ToValidUTF8 s)) n).
  - split_and!; [done|apply ToValidUTF8_Valid|exists ""; by rewrite append_nil_r|].
    intros longer rest E _ _. rewrite E, append_length. lia.
  - apply valid_prefix_longest. lia.
Qed.

(** The readme stored for a body: its valid text, cut to the longest whole prefix
    of 1 MiB, sanitized; nothing when that is empty. *)
Definition readme_of (html_nodes : string → list HtmlNode) (text : string) (readme : option string) : Prop :=
  ∃ prefix, longest_prefix (1024 * 1024) (ToValidUTF8 text) prefix ∧ readme = orNull (Sanitize html_nodes prefix).

Lemma ContainsAny_sift s : ContainsAny s ["<"; ">"]%char = negb (String.eqb (sift angle s) "").
Proof.
  induction s as [|c s IH]; [done|]. cbn [ContainsAny sift]. rewrite IH.
  assert (mem c ["<"; ">"]%char = angle c) as ->; [|by destruct (angle c)].
  unfold angle. destruct (Ascii.eqb_spec c "<") as [->|H1]; [done|]. destruct (Ascii.eqb_spec c ">") as [->|H2]; [done|].
  apply mem_false. rewrite !elem_of_cons, elem_of_nil. naive_solver.
Qed.

(** A description that is accepted: not blank, at most 1024 runes and without
    angle brackets, once trimmed. *)
Definition described (desc : string) : Prop :=
  TrimSpace desc ≠ "" ∧ (RuneCountInString (TrimSpace desc) ≤ 1024)%nat ∧ sift angle (TrimSpace desc) = "".
Lemma validateSkillDescription_spec desc : validateSkillDescription desc = true ↔ described desc.
Proof.
  unfold validateSkillDescription, described. cbv zeta. generalize (TrimSpace desc) as d. intros d. rewrite ContainsAny_sift.
  destruct (String.eqb_spec d "") as [->|]; [by naive_solver|].
  destruct (Nat.ltb_spec 1024 (RuneCountInString d)); [split; [done|lia]|].
  rewrite negb_involutive. destruct (String.eqb_spec (sift angle d) ""); naive_solver.
Qed.

(** What the stored fields are made of: each the field of the frontmatter,
    without NUL bytes and malformed text and cut to its length; the readme, of
    the body. *)
Record stored_fields (html_nodes : string → list HtmlNode) (marshal_tags : list string → string)
    (fm : FrontmatterResult) (text : string) (p : ParsedSkill) : Prop := {
  sf_name : ps_name p = sanitizeString (fm_name fm) 64;
  sf_description : ps_description p = orNull (sanitizeString (fm_description fm) 1024);
  sf_version : let v := sanitizeString (fm_version fm) 32 in ps_version p = if decide (v = "") then "1.0.0" else v;
  sf_tags : ps_tags p = match fm_tags fm with Some l => marshal_tags l | None => "[]" end;
  sf_id : ps_id p = sanitizeString (fm_id fm) 36;
  sf_forked_from : ps_forked_from p = sanitizeString (fm_forked_from fm) 36;
  sf_metadata : match fm_metadata fm with
                | None => ps_metadata p = None
                | Some raw => raw ≠ None ∧ ps_metadata p = raw
                end;
  sf_readme : readme_of html_nodes text (ps_readme p)
}.

Lemma process_fields html_nodes yaml marshal_tags sha256_hex open_zip info body max p :
  process html_nodes yaml marshal_tags sha256_hex open_zip info body max = Ok p →
  ∃ bytes entries r fm text,
    body = Some (bytes, false) ∧ (blen bytes ≤ max)%Z ∧ ps_sha p = sha256_hex bytes
    ∧ open_zip bytes = Some entries ∧ ExtractZip (blen bytes) max entries = Ok r
    ∧ ParseFrontmatter yaml (SkillMDContent r) = (fm, text)
    ∧ validateSkillName (fm_name fm) = true ∧ validateSkillDescription (fm_description fm) = true
    ∧ stored_fields html_nodes marshal_tags fm text p.
Proof.
  unfold process. destruct (downloadToFile _ _ _) as [bytes|[]] eqn:Hd; [|done..].
  apply download_ok in Hd as (size & -> & Hsize & -> & Hb). destruct (open_zip bytes) as [entries|] eqn:Hz; [|discriminate].
  destruct (ExtractZip _ _ _) as [r|] eqn:He; [|done].
  destruct (ParseFrontmatter yaml (SkillMDContent r)) as [fm text] eqn:Hp.
  destruct (validateSkillName (fm_name fm)) eqn:Hn; [|done].
  destruct (validateSkillDescription (fm_description fm)) eqn:Hdesc; [|done]. simpl negb. cbv iota zeta.
  assert (∀ readme, readme = truncateUTF8Bytes text (1024 * 1024) →
    readme_of html_nodes text (orNull (Sanitize html_nodes readme))) as Hrm.
  { intros readme ->. eexists. split; [apply truncate_longest|done]. }
  specialize (Hrm _ eq_refl). revert Hrm.
  generalize (orNull (Sanitize html_nodes (truncateUTF8Bytes text (1024 * 1024)))) as readme. intros readme Hrm H.
  exists bytes, entries, r, fm, text. split_and!; try done.
  - destruct (fm_metadata fm) as [[raw|]|]; [|done|]; by injection H as <-.
  - destruct (fm_metadata fm) as [[raw|]|] eqn:Em; [|done|]; injection H as <-;
      split; cbn [ps_name ps_description ps_version ps_tags ps_id ps_forked_from ps_metadata ps_readme]; rewrite ?Em; try done;
      cbv zeta; by destruct (String.eqb_spec (sanitizeString (fm_version fm) 32) "");
        [rewrite decide_True|rewrite decide_False].
Qed.


(** ** What the parse loses *)

Lemma token_size_large : (100 ≤ MaxScanTokenSize)%nat.
Proof. apply Nat.leb_le. by vm_compute. Qed.
#[local] Opaque MaxScanTokenSize.

Lemma scan_lines_stop l line rest :
  (MaxScanTokenSize ≤ String.length line)%nat →
  Forall (λ x, String.length x < MaxScanTokenSize)%nat l →
  scan_lines (l ++ line :: rest) = map dropCR l.
Proof.
  intros Hlong. unfold scan_lines. induction 1 as [|x l Hx _ IH]; simpl; fold scan_lines in *.
  - destruct (Nat.leb_spec MaxScanTokenSize (String.length line)); [|lia]. destruct rest; [|done].
    destruct line; [|done]. pose proof token_size_large. simpl in Hlong. lia.
  - destruct (l ++ line :: rest)%list eqn:Hl; [by destruct l|].
    destruct (Nat.leb_spec MaxScanTokenSize (String.length x)); [lia|]. by rewrite IH.
Qed.

Definition lines_text (l : list string) : string := foldr (λ x t, x ++ String lf t) "" l.

Lemma Split_lines l t :
  Forall (λ x, all_bytes (λ b, negb (Ascii.eqb b lf)) x = true) l →
  Split (lines_text l ++ t) lf = (l ++ Split t lf)%list.
Proof.
  induction 1 as [|x l Hx _ IH]; [done|]. change (lines_text (x :: l)) with (x ++ String lf (lines_text l)). rewrite append_assoc.
  rewrite append_cons, Split_append by done. by rewrite IH.
Qed.

(** The scanner's error is not looked at: a body line of 64 KiB or more, and all
    that follows it, is silently missing from the readme of a package with
    frontmatter. *)
Theorem long_line_ends_body yaml r line tail :
  yaml "name: a" = Some r →
  all_bytes (λ b, negb (Ascii.eqb b lf)) line = true → (MaxScanTokenSize ≤ String.length line)%nat →
  (ParseFrontmatter yaml (lines_text ["---"; "name: a"; "---"; "# Title"; line] ++ tail)).2 = "# Title".
Proof.
  intros Hy Hl Hlong.
  assert (ScanLines (lines_text ["---"; "name: a"; "---"; "# Title"; line] ++ tail)
    = ["---"; "name: a"; "---"; "# Title"]) as Hs.
  { unfold ScanLines. rewrite Split_lines by (repeat constructor; done).
    apply (scan_lines_stop ["---"; "name: a"; "---"; "# Title"]); [done|].
    pose proof token_size_large. repeat constructor; simpl String.length; lia. }
  unfold ParseFrontmatter. rewrite Hs. cbn -[TrimSpace].
  change (TrimSpace "---") with "---". change (TrimSpace "name: a") with "name: a". cbn -[TrimSpace].
  change (TrimSpace "# Title") with "# Title". by rewrite Hy.
Qed.

(** The name is checked trimmed and stored, cut to 64 runes, untrimmed: a padded
    name passes the check and is stored blank. *)
Theorem padded_name_stored_blank :
  let blank := of_runes (repeat " " 64) in
  validateSkillName (blank ++ "pdf-tools") = true
  ∧ sanitizeString (blank ++ "pdf-tools") 64 = blank.
Proof. by vm_compute. Qed.

(** ** Concrete runs *)

Definition demo_html (raw : string) : list HtmlNode :=
  if HasPrefix raw "x <b>" then [RawHTML [(2, 5)%nat]; RawHTML [(6, 14)%nat]] else [].
Definition demo_yaml (s : string) : option FrontmatterResult :=
  if String.eqb s "name: pdf-tools"
  then Some (mkFrontmatter "pdf-tools" "Reads documents" "" None "" "" None) else None.
Definition demo_markdown : string := "x <b>y<script> a < b".
Definition demo_skill_md : string :=
  lines_text ["---"; "name: pdf-tools"; "---"; demo_markdown].
Definition demo_zip (bytes : string) : option (list File) :=
  if String.eqb bytes "archive"
  then Some [mkFile "SKILL.md" (blen demo_skill_md) false false demo_skill_md false false] else None.
Definition demo_parsed : ParsedSkill :=
  mkParsed "pdf-tools" (Some "Reads documents") "1.0.0" "[]" (Some "x &lt;b&gt;y a < b") "digest" "" "" None.

Lemma markdown_scrubbed_witness :
  Sanitize demo_html demo_markdown = "x &lt;b&gt;y a < b"
  ∧ scrubbed (raw_html (demo_html demo_markdown) demo_markdown) (in_html (demo_html demo_markdown)) demo_markdown 0
      (Sanitize demo_html demo_markdown).
Proof.
  split; [vm_compute; reflexivity|]. apply (markdown_scrubbed demo_html demo_markdown).
  split; [repeat constructor; simpl; lia|]. intros i.
  change (map node_range (demo_html demo_markdown)) with [(2, 5); (6, 14)]%nat.
  rewrite !filter_cons, filter_nil. unfold covers. repeat case_decide; simpl in *; lia.
Defined.

