(* ===== verification/ParseTasks.v ===== *)
(** * Parse tasks: service/parse/service.go, worker.go, repo.go and
    repository/skill/parse_task.go

    An upload's task row, the worker's queue, and the requests that work on the
    row between their statements: triggering a parse, waiting for one, polling
    with recovery of stale tasks, and importing, which consumes the task. Every
    request is a machine that stops before each statement, and any of them,
    the workers and the clock may move in between. *)

From S2P Require Import Prelude GoStrings Zip Parse.
Local Open Scope string_scope.

(** ** The table parse_tasks *)

Inductive TaskStatus := Pending | Parsing | Success | Failed | Consumed.
#[export] Instance TaskStatus_eq_dec : EqDecision TaskStatus.
Proof. solve_decision. Defined.

(** The times are NOW() in seconds; [t_result] is what the parse stored. *)
Record TaskRow := mkTask {
  t_upload : string;
  t_file_name : string;
  t_file_size : Z;
  t_file_url : string;
  t_status : TaskStatus;
  t_error : option string;
  t_result : option ParsedSkill;
  t_attempts : Z;
  t_owner : string;
  t_space : string;
  t_skill : string;
  t_created : Z;
  t_updated : Z
}.

Definition set_task (st : TaskStatus) (err : option string) (res : option ParsedSkill)
    (attempts now : Z) (t : TaskRow) : TaskRow :=
  mkTask (t_upload t) (t_file_name t) (t_file_size t) (t_file_url t) st err res attempts
    (t_owner t) (t_space t) (t_skill t) (t_created t) now.

Abbreviation Tasks := (gmap string TaskRow).

(** [UPDATE parse_tasks SET .. WHERE id = ? AND guard], and whether it changed
    the row. *)
Definition update_task (id : string) (guard : TaskRow → bool) (f : TaskRow → TaskRow) (ts : Tasks)
    : bool * Tasks :=
  match ts !! id with
  | Some t => if guard t then (true, <[id := f t]> ts) else (false, ts)
  | None => (false, ts)
  end.

Definition has_status (st : TaskStatus) (t : TaskRow) : bool := bool_decide (t_status t = st).

(** [set_status st]: the row with another status, touched now. *)
Definition set_status (now : Z) (st : TaskStatus) (t : TaskRow) : TaskRow :=
  set_task st (t_error t) (t_result t) (t_attempts t) now t.

(** [Create]: a duplicate key is an error. *)
Definition CreateTask (id : string) (t : TaskRow) (ts : Tasks) : bool * Tasks :=
  match ts !! id with Some _ => (false, ts) | None => (true, <[id := t]> ts) end.

Definition GetByID (id : string) (ts : Tasks) : option TaskRow := ts !! id.

Definition created_later (a b : string * TaskRow) : Prop := (t_created b.2 ≤ t_created a.2)%Z.
#[export] Instance created_later_dec : RelDecision created_later.
Proof. unfold RelDecision, created_later. intros. apply _. Defined.

(** The newest row of an upload, with its id. *)
Definition GetByUploadID (upload : string) (ts : Tasks) : option (string * TaskRow) :=
  head (merge_sort created_later (filter (λ x, t_upload x.2 = upload) (map_to_list ts))).

Definition TransitionPendingToParsing (now : Z) (id : string) : Tasks → bool * Tasks :=
  update_task id (has_status Pending)
    (λ t, set_task Parsing (t_error t) (t_result t) (t_attempts t + 1) now t).

Definition RestoreParsingToPending (now : Z) (id : string) : Tasks → bool * Tasks :=
  update_task id (has_status Parsing)
    (λ t, set_task Pending (t_error t) (t_result t)
            (if (0 <? t_attempts t)%Z then t_attempts t - 1 else 0) now t).

Definition UpdateFailed (now : Z) (id code : string) : Tasks → bool * Tasks :=
  update_task id (λ _, true)
    (λ t, set_task Failed (Some code) (t_result t) (t_attempts t) now t).

Definition UpdateSuccess (now : Z) (id : string) (p : ParsedSkill) : Tasks → bool * Tasks :=
  update_task id (λ _, true)
    (λ t, set_task Success (t_error t) (Some p) (t_attempts t) now t).

Definition TryRecoverStaleParsing (now : Z) (id : string) (staleSeconds maxAttempts : Z)
    : Tasks → bool * Tasks :=
  update_task id
    (λ t, has_status Parsing t && (t_updated t <? now - staleSeconds)%Z && (t_attempts t <? maxAttempts)%Z)
    (λ t, set_task Parsing (t_error t) (t_result t) (t_attempts t + 1) now t).

Definition MarkRetryExhausted (now : Z) (id : string) : Tasks → bool * Tasks :=
  update_task id (has_status Parsing)
    (λ t, set_task Failed (Some "PARSE_RETRY_EXHAUSTED") (t_result t) (t_attempts t) now t).

(** [false] is ErrParseTaskAlreadyConsumed. *)
Definition MarkParseTaskConsumed (now : Z) (id owner space skill : string) : Tasks → bool * Tasks :=
  update_task id
    (λ t, has_status Success t && String.eqb (t_owner t) owner && String.eqb (t_space t) space
          && String.eqb (t_skill t) skill)
    (set_status now Consumed).

Definition ReleaseConsumedParseTask (now : Z) (id : string) : Tasks → bool * Tasks :=
  update_task id (has_status Consumed) (set_status now Success).

(** ** Configuration *)

Record Config := mkConfig { cfg_stale : Z; cfg_attempts : Z; cfg_pool : Z; cfg_queue : Z }.

Definition ns_second : Z := 1000000000.

(** [NewService] and [NewWorker] (durations in nanoseconds) *)
Definition NewConfig (staleTimeout maxAttempts poolSize queueSize : Z) : Config :=
  let pool := if (poolSize <=? 0)%Z then 10%Z else poolSize in
  mkConfig (if (staleTimeout <=? 0)%Z then 5 * 60 * ns_second else staleTimeout)
    (if (maxAttempts <=? 0)%Z then 2 else maxAttempts) pool
    (if (queueSize <=? 0)%Z then pool * 10 else queueSize).

(** ** Starting an upload *)

Inductive TaskErr :=
| ErrInvalidFileName | ErrInvalidFileSize | ErrFileTooLarge | ErrTaskNotFound | ErrForbidden
| ErrTaskNotPending | ErrParseQueueFull | ErrParseIncomplete | ErrCanceled | ErrDatabase
| ErrInvalidParseTask | ErrImport.

(** [InitUpload] ([skill] empty) and [InitReupload]: the row to create. *)
Definition InitUpload (maxMB : Z) (uploadID skill fileName : string) (fileSize : Z)
    (owner space : string) (now : Z) : result TaskErr (string * TaskRow) :=
  match normalizeUploadFileName fileName with
  | None => Error ErrInvalidFileName
  | Some fileName =>
      if (fileSize <=? 0)%Z then Error ErrInvalidFileSize
      else if (fileSize >? maxMB * 1024 * 1024)%Z then Error ErrFileTooLarge
      else Ok (uploadID, mkTask uploadID fileName fileSize (upload_key uploadID fileName) Pending None None 0
                 owner space skill now now)
  end.

(** ** The requests, between their statements *)

(** [ParseData], from the row; [decode_tags] is encoding/json. *)
Definition ParseData (html_nodes : string → list HtmlNode) (decode_tags : string → list string)
    (t : TaskRow) (p : ParsedSkill) : ParsedSkill * list string * string * Z :=
  (mkParsed (ps_name p) (Some (default "" (ps_description p))) (ps_version p) (ps_tags p)
     (Some (default "" (Sanitize html_nodes <$> ps_readme p))) (ps_sha p) (ps_id p)
     (ps_forked_from p) (ps_metadata p),
   decode_tags (ps_tags p), t_file_name t, t_file_size t).

(** [RPolled]: the status, the row its data are rendered from, the error's code
    and message. *)
Inductive Reply :=
| RAccepted (task : string)
| RPolled (task : string) (st : TaskStatus) (t : TaskRow) (err : option (string * string))
| RImported (task : string)
| RRefused (e : TaskErr).

(** Who waits in [ProcessSync]: [ParseUploadSync], or the last retry of a poll
    that read the row [t] ([sync]: itself called by [ParseUploadSync]). *)
Inductive Waiter := BySync (owner : string) | ByPoll (sync : bool) (owner : string) (t : TaskRow).

Inductive Phase :=
| TriggerRead (upload owner : string)
| TriggerClaim (id url : string)
| TriggerSubmit (id url : string)
| TriggerRestore (id : string)
| SyncRead (upload owner : string)
| SyncClaim (id url owner : string)
| Enqueue (c : Waiter) (id url : string)
| Await (c : Waiter) (id : string) (job : nat)
| Ensure (c : Waiter) (id : string)
| EnsureFail (c : Waiter) (id : string)
| SyncLate (id : string)
| StatusRead (sync : bool) (id owner : string)
| StatusExhaust (sync : bool) (id : string) (t : TaskRow)
| StatusRecover (sync : bool) (id owner : string) (t : TaskRow)
| StatusSubmit (sync : bool) (id : string) (t : TaskRow)
| StatusQueueFull (sync : bool) (id : string) (t : TaskRow)
| ImportRead (id uid space : string)
| ImportConsume (id uid space : string)
| ImportWork (id : string)
| ImportRelease (id : string)
| Done (r : Reply).

Definition is_entry (p : Phase) : bool :=
  match p with
  | TriggerRead _ _ | SyncRead _ _ | StatusRead false _ _ | ImportRead _ _ _ => true
  | _ => false
  end.

(** The clock of the service, the fault of a statement, whether the request's
    context ends, whether the import's own work succeeds. *)
Record Input := mkInput { in_clock : Z; in_fault : SqlFault; in_cancel : bool; in_ok : bool }.

Record Job := mkJob { job_no : nat; job_task : string; job_url : string }.

(** [pw_jobs], [pw_wrote] and [pw_imported] log the tasks of the jobs ever
    queued, of the parse results stored, and of the imports done. *)
Record PWorld := mkPWorld {
  pw_now : Z;
  pw_tasks : Tasks;
  pw_queue : list Job;
  pw_running : list Job;
  pw_finished : list nat;
  pw_threads : list Phase;
  pw_jobs : list string;
  pw_wrote : list string;
  pw_imported : list string
}.

Definition with_tasks (ts : Tasks) (w : PWorld) : PWorld :=
  mkPWorld (pw_now w) ts (pw_queue w) (pw_running w) (pw_finished w) (pw_threads w)
    (pw_jobs w) (pw_wrote w) (pw_imported w).
Definition with_threads (l : list Phase) (w : PWorld) : PWorld :=
  mkPWorld (pw_now w) (pw_tasks w) (pw_queue w) (pw_running w) (pw_finished w) l
    (pw_jobs w) (pw_wrote w) (pw_imported w).
Definition with_imported (l : list string) (w : PWorld) : PWorld :=
  mkPWorld (pw_now w) (pw_tasks w) (pw_queue w) (pw_running w) (pw_finished w) (pw_threads w)
    (pw_jobs w) (pw_wrote w) l.

(** A fault on a read is an error. *)
Definition sql_read {A} (f : SqlFault) (a : A) : option A := match f with SqlOk => Some a | _ => None end.

Section Service.
Context (cfg : Config).

(** [Submit]: the buffered channel takes the job, or is full. *)
Definition Submit (id url : string) (w : PWorld) : option PWorld :=
  if (Z.of_nat (length (pw_queue w)) <? cfg_queue cfg)%Z then
    Some (mkPWorld (pw_now w) (pw_tasks w)
            (pw_queue w ++ [mkJob (length (pw_jobs w)) id url])%list (pw_running w) (pw_finished w)
            (pw_threads w) (id :: pw_jobs w) (pw_wrote w) (pw_imported w))
  else None.

(** The answer of [GetParseStatus], and what [ParseUploadSync] does with it. *)
Definition polled (sync : bool) (id : string) (st : TaskStatus) (t : TaskRow) (code : option string) : Phase :=
  if sync && bool_decide (st = Parsing) then SyncLate id
  else Done (RPolled id st t ((λ c, (c, publicParseErrorMessage c)) <$> code)).

(** How [ProcessSync] returns to who called it. *)
Definition process_failed (c : Waiter) (id : string) (e : TaskErr) : Phase :=
  match c with BySync _ => Done (RRefused e) | ByPoll sync _ t => StatusExhaust sync id t end.
Definition process_done (c : Waiter) (id : string) : Phase :=
  match c with BySync owner => StatusRead true id owner | ByPoll sync owner _ => StatusRead sync id owner end.

Definition stale (now : Z) (t : TaskRow) : bool := (t_updated t * ns_second <? now - cfg_stale cfg)%Z.

Definition advance_trigger (i : Input) (p : Phase) (w : PWorld) : Phase * PWorld :=
  match p with
  | TriggerRead upload owner =>
      (match sql_read (in_fault i) (GetByUploadID upload (pw_tasks w)) with
       | None => Done (RRefused ErrDatabase)
       | Some None => Done (RRefused ErrTaskNotFound)
       | Some (Some (id, t)) =>
           if negb (String.eqb (t_owner t) owner) then Done (RRefused ErrForbidden)
           else if negb (has_status Pending t) then Done (RRefused ErrTaskNotPending)
           else TriggerClaim id (t_file_url t)
       end, w)
  | TriggerClaim id url =>
      let '(r, ts) := run_sql (in_fault i) (TransitionPendingToParsing (pw_now w) id) (pw_tasks w) in
      (match r with
       | None => Done (RRefused ErrDatabase)
       | Some false => Done (RRefused ErrTaskNotPending)
       | Some true => TriggerSubmit id url
       end, with_tasks ts w)
  | TriggerSubmit id url =>
      match Submit id url w with
      | Some w' => (Done (RAccepted id), w')
      | None => (TriggerRestore id, w)
      end
  | TriggerRestore id =>
      let '(r, ts) := run_sql (in_fault i) (RestoreParsingToPending (pw_now w) id) (pw_tasks w) in
      (Done (RRefused match r with
                      | None => ErrDatabase
                      | Some false => ErrTaskNotPending
                      | Some true => ErrParseQueueFull
                      end), with_tasks ts w)
  | _ => (p, w)
  end.

Definition advance_sync (i : Input) (p : Phase) (w : PWorld) : Phase * PWorld :=
  match p with
  | SyncRead upload owner =>
      (match sql_read (in_fault i) (GetByUploadID upload (pw_tasks w)) with
       | None => Done (RRefused ErrDatabase)
       | Some None => Done (RRefused ErrTaskNotFound)
       | Some (Some (id, t)) =>
           if negb (String.eqb (t_owner t) owner) then Done (RRefused ErrForbidden)
           else if has_status Success t then StatusRead false id owner
           else if negb (has_status Pending t) then Done (RRefused ErrTaskNotPending)
           else SyncClaim id (t_file_url t) owner
       end, w)
  | SyncClaim id url owner =>
      let '(r, ts) := run_sql (in_fault i) (TransitionPendingToParsing (pw_now w) id) (pw_tasks w) in
      (match r with
       | None => Done (RRefused ErrDatabase)
       | Some false => Done (RRefused ErrTaskNotPending)
       | Some true => Enqueue (BySync owner) id url
       end, with_tasks ts w)
  | Enqueue c id url =>
      if in_cancel i then (process_failed c id ErrCanceled, w)
      else match Submit id url w with
           | Some w' => (Await c id (length (pw_jobs w)), w')
           | None => (p, w)
           end
  | Await c id job =>
      (if in_cancel i then process_failed c id ErrCanceled
       else if mem job (pw_finished w) then Ensure c id else p, w)
  | Ensure c id =>
      (match sql_read (in_fault i) (GetByID id (pw_tasks w)) with
       | None => process_failed c id ErrDatabase
       | Some None => process_failed c id ErrParseIncomplete
       | Some (Some t) =>
           match t_status t with
           | Success | Failed | Consumed => process_done c id
           | Parsing => EnsureFail c id
           | Pending => process_failed c id ErrParseIncomplete
           end
       end, w)
  | EnsureFail c id =>
      (process_failed c id ErrParseIncomplete,
       with_tasks (run_sql (in_fault i) (UpdateFailed (pw_now w) id "INTERNAL_ERROR") (pw_tasks w)).2 w)
  | SyncLate id =>
      (Done (RRefused ErrParseIncomplete),
       with_tasks (run_sql (in_fault i) (UpdateFailed (pw_now w) id "INTERNAL_ERROR") (pw_tasks w)).2 w)
  | _ => (p, w)
  end.

(** [GetParseStatus] *)
Definition advance_status (i : Input) (p : Phase) (w : PWorld) : Phase * PWorld :=
  match p with
  | StatusRead sync id owner =>
      (match sql_read (in_fault i) (GetByID id (pw_tasks w)) with
       | None => Done (RRefused ErrDatabase)
       | Some None => Done (RRefused ErrTaskNotFound)
       | Some (Some t) =>
           if negb (String.eqb (t_owner t) owner) then Done (RRefused ErrForbidden)
           else match t_status t with
                | Parsing =>
                    if stale (in_clock i) t then
                      if (cfg_attempts cfg <=? t_attempts t)%Z then StatusExhaust sync id t
                      else StatusRecover sync id owner t
                    else polled sync id Parsing t None
                | Failed => polled sync id Failed t (Some (default "" (t_error t)))
                | st => polled sync id st t None
                end
       end, w)
  | StatusExhaust sync id t =>
      (polled sync id Failed t (Some "PARSE_RETRY_EXHAUSTED"),
       with_tasks (run_sql (in_fault i) (MarkRetryExhausted (pw_now w) id) (pw_tasks w)).2 w)
  | StatusRecover sync id owner t =>
      let '(r, ts) := run_sql (in_fault i)
        (TryRecoverStaleParsing (pw_now w) id (cfg_stale cfg / ns_second) (cfg_attempts cfg)) (pw_tasks w) in
      (match r with
       | Some true =>
           if (cfg_attempts cfg <=? t_attempts t + 1)%Z then Enqueue (ByPoll sync owner t) id (t_file_url t)
           else StatusSubmit sync id t
       | _ => polled sync id Parsing t None
       end, with_tasks ts w)
  | StatusSubmit sync id t =>
      match Submit id (t_file_url t) w with
      | Some w' => (polled sync id Parsing t None, w')
      | None => (StatusQueueFull sync id t, w)
      end
  | StatusQueueFull sync id t =>
      (polled sync id Failed t (Some "PARSE_QUEUE_FULL"),
       with_tasks (run_sql (in_fault i) (UpdateFailed (pw_now w) id "PARSE_QUEUE_FULL") (pw_tasks w)).2 w)
  | _ => (p, w)
  end.

(** The consuming protocol of [Import] (service/plugin/import.go): one answer
    for whatever keeps the caller from the task, and a release when the import
    itself fails. *)
Definition advance_import (i : Input) (p : Phase) (w : PWorld) : Phase * PWorld :=
  match p with
  | ImportRead id uid space =>
      (match sql_read (in_fault i) (GetByID id (pw_tasks w)) with
       | None => Done (RRefused ErrDatabase)
       | Some None => Done (RRefused ErrInvalidParseTask)
       | Some (Some t) =>
           if negb (String.eqb (t_owner t) uid) || negb (String.eqb (t_space t) space)
              || negb (has_status Success t) || negb (String.eqb (t_skill t) "")
           then Done (RRefused ErrInvalidParseTask)
           else if in_ok i then ImportConsume id uid space else Done (RRefused ErrImport)
       end, w)
  | ImportConsume id uid space =>
      let '(r, ts) := run_sql (in_fault i) (MarkParseTaskConsumed (pw_now w) id uid space "") (pw_tasks w) in
      (match r with
       | None => Done (RRefused ErrDatabase)
       | Some false => Done (RRefused ErrInvalidParseTask)
       | Some true => ImportWork id
       end, with_tasks ts w)
  | ImportWork id =>
      if in_ok i then (Done (RImported id), with_imported (id :: pw_imported w) w)
      else (ImportRelease id, w)
  | ImportRelease id =>
      (Done (RRefused ErrImport),
       with_tasks (run_sql (in_fault i) (ReleaseConsumedParseTask (pw_now w) id) (pw_tasks w)).2 w)
  | _ => (p, w)
  end.

Definition advance (i : Input) (p : Phase) (w : PWorld) : Phase * PWorld :=
  match p with
  | TriggerRead _ _ | TriggerClaim _ _ | TriggerSubmit _ _ | TriggerRestore _ => advance_trigger i p w
  | SyncRead _ _ | SyncClaim _ _ _ | Enqueue _ _ _ | Await _ _ _ | Ensure _ _ | EnsureFail _ _
  | SyncLate _ => advance_sync i p w
  | StatusRead _ _ _ | StatusExhaust _ _ _ | StatusRecover _ _ _ _ | StatusSubmit _ _ _
  | StatusQueueFull _ _ _ => advance_status i p w
  | ImportRead _ _ _ | ImportConsume _ _ _ | ImportWork _ | ImportRelease _ => advance_import i p w
  | Done _ => (p, w)
  end.

(** ** The workers *)

(** How a job ends: what [process] made of it, or a panic, and the fault of
    the one statement that stores it, whose error is only logged. *)
Definition finish_job (f : SqlFault) (j : Job) (end_ : option (result string ParsedSkill)) (w : PWorld)
    : Tasks * bool :=
  let id := job_task j in
  match end_ with
  | Some (Ok p) =>
      let '(_, ts) := run_sql f (UpdateSuccess (pw_now w) id p) (pw_tasks w) in
      (ts, match f with SqlLost => false | _ => (UpdateSuccess (pw_now w) id p (pw_tasks w)).1 end)
  | Some (Error code) => ((run_sql f (UpdateFailed (pw_now w) id code) (pw_tasks w)).2, false)
  | None => ((run_sql f (UpdateFailed (pw_now w) id "INTERNAL_ERROR") (pw_tasks w)).2, false)
  end.

Inductive Label :=
| LTick (t : Z)
| LInit (maxMB : Z) (uploadID skill fileName : string) (fileSize : Z) (owner space : string)
| LCall (p : Phase)
| LStep (k : nat) (i : Input)
| LTake
| LFinish (k : nat) (f : SqlFault) (end_ : option (result string ParsedSkill)).

(** One step: the clock, a created upload, a request that arrives or makes its
    next statement, a worker that takes or ends a job. *)
Definition pexec (l : Label) (w : PWorld) : option PWorld :=
  match l with
  | LTick t =>
      if (pw_now w <=? t)%Z then
        Some (mkPWorld t (pw_tasks w) (pw_queue w) (pw_running w) (pw_finished w) (pw_threads w)
                (pw_jobs w) (pw_wrote w) (pw_imported w))
      else None
  | LInit maxMB uploadID skill fileName fileSize owner space =>
      match InitUpload maxMB uploadID skill fileName fileSize owner space (pw_now w) with
      | Ok (id, t) => Some (with_tasks (CreateTask id t (pw_tasks w)).2 w)
      | Error _ => None
      end
  | LCall p => if is_entry p then Some (with_threads (pw_threads w ++ [p])%list w) else None
  | LStep k i =>
      match pw_threads w !! k with
      | Some p => let '(p', w') := advance i p w in Some (with_threads (<[k := p']> (pw_threads w)) w')
      | None => None
      end
  | LTake =>
      match pw_queue w with
      | j :: q =>
          if (Z.of_nat (length (pw_running w)) <? cfg_pool cfg)%Z then
            Some (mkPWorld (pw_now w) (pw_tasks w) q (pw_running w ++ [j])%list (pw_finished w) (pw_threads w)
                    (pw_jobs w) (pw_wrote w) (pw_imported w))
          else None
      | [] => None
      end
  | LFinish k f end_ =>
      match pw_running w !! k with
      | Some j =>
          let '(ts, wrote) := finish_job f j end_ w in
          Some (mkPWorld (pw_now w) ts (pw_queue w) (take k (pw_running w) ++ drop (S k) (pw_running w))%list
                  (job_no j :: pw_finished w) (pw_threads w) (pw_jobs w)
                  (if wrote : bool then job_task j :: pw_wrote w else pw_wrote w) (pw_imported w))
      | None => None
      end
  end.

Definition idle_world (t0 : Z) : PWorld := mkPWorld t0 ∅ [] [] [] [] [] [] [].

Fixpoint prun (ls : list Label) (w : PWorld) : option PWorld :=
  match ls with [] => Some w | l :: ls' => w' ← pexec l w; prun ls' w' end.

(** Reached from an empty table by some steps. *)
Definition preached (w : PWorld) : Prop := ∃ t0 ls, prun ls (idle_world t0) = Some w.

End Service.

(** ** Counting claims, jobs and results *)

Definition count (id : string) (l : list string) : nat := length (filter (λ x, x = id) l).

(** A request that has counted an attempt and not yet queued its job. *)
Definition holds (id : string) (p : Phase) : bool :=
  match p with
  | TriggerSubmit x _ | TriggerRestore x | Enqueue _ x _ | StatusSubmit _ x _ => bool_decide (x = id)
  | _ => false
  end.
(** An import that has consumed the task and is neither done nor given up. *)
Definition takes (id : string) (p : Phase) : bool :=
  match p with ImportWork x | ImportRelease x => bool_decide (x = id) | _ => false end.

Definition how_many (f : Phase → bool) (l : list Phase) : nat := length (filter (λ p, f p = true) l).
Definition jobs_of (id : string) (w : PWorld) : nat :=
  length (filter (λ j, job_task j = id) (pw_queue w ++ pw_running w)%list).

Definition one (b : bool) : nat := if b then 1 else 0.

(** Every queued job and every claim for one is an attempt; every result stored
    comes from a job that is over; every use of a result, and the result that
    waits for its use, from a result stored. *)
Definition row_ok (max : Z) (r : option TaskRow) (jobs held living wrote taken imported : nat) : Prop :=
  match r with
  | None => jobs + held + living + wrote + taken + imported = 0
  | Some t =>
      (Z.of_nat (jobs + held) ≤ t_attempts t ≤ max)%Z
      ∧ (t_status t = Pending → t_attempts t < max)%Z
      ∧ wrote + living ≤ jobs
      ∧ one (has_status Success t) + taken + imported ≤ wrote
  end%nat.

Definition pinv (max : Z) (w : PWorld) : Prop :=
  ∀ id, row_ok max (pw_tasks w !! id) (count id (pw_jobs w)) (how_many (holds id) (pw_threads w))
          (jobs_of id w) (count id (pw_wrote w)) (how_many (takes id) (pw_threads w)) (count id (pw_imported w)).

Lemma how_many_insert f l k p p' :
  l !! k = Some p → (how_many f (<[k := p']> l) + one (f p) = how_many f l + one (f p'))%nat.
Proof.
  intros Hk. assert (k < length l)%nat as Hl by (by eapply lookup_lt_Some).
  rewrite <-(take_drop_middle l k p Hk) at 2. rewrite insert_take_drop by done. unfold how_many.
  rewrite !filter_app, !filter_cons, !length_app. unfold one. repeat case_decide; destruct (f p), (f p'); simpl; naive_solver lia.
Qed.
Lemma how_many_split f l k p :
  l !! k = Some p → ∃ n, how_many f l = (n + one (f p))%nat.
Proof.
  intros Hk. rewrite <-(take_drop_middle l k p Hk). unfold how_many.
  exists (length (filter (λ p, f p = true) (take k l ++ drop (S k) l)%list)).
  rewrite !filter_app, !length_app, filter_cons. unfold one. case_decide; destruct (f p); simpl; naive_solver lia.
Qed.
Lemma how_many_snoc f l p : how_many f (l ++ [p])%list = (how_many f l + one (f p))%nat.
Proof.
  unfold how_many. rewrite filter_app, length_app, filter_cons, filter_nil. unfold one.
  case_decide; destruct (f p); simpl; naive_solver lia.
Qed.
Lemma count_cons id x l : count id (x :: l) = (one (bool_decide (x = id)) + count id l)%nat.
Proof. unfold count, one. rewrite filter_cons. case_decide; case_bool_decide; done. Qed.

(** What a statement on one row leaves of any row. *)
Lemma sql_row f id g h ts r ts' id' :
  run_sql f (update_task id g h) ts = (r, ts') →
  (ts' !! id' = ts !! id' ∧ (id' = id → r ≠ Some true))
  ∨ (id' = id ∧ r ≠ Some false ∧ ∃ t, ts !! id = Some t ∧ g t = true ∧ ts' !! id = Some (h t)).
Proof.
  intros H. unfold run_sql, update_task in H.
  destruct f, (ts !! id) as [t|] eqn:E; try destruct (g t) eqn:Eg; simplify_eq/=; try (left; done);
    (destruct (decide (id' = id)) as [->|]; [right; rewrite lookup_insert_eq; eauto 10|left; by rewrite lookup_insert_ne]).
Qed.

Lemma holds_polled id sync x st t c : holds id (polled sync x st t c) = false.
Proof. unfold polled. by destruct (_ && _). Qed.
Lemma takes_polled id sync x st t c : takes id (polled sync x st t c) = false.
Proof. unfold polled. by destruct (_ && _). Qed.
Lemma holds_failed id c x e : holds id (process_failed c x e) = false.
Proof. by destruct c. Qed.
Lemma takes_failed id c x e : takes id (process_failed c x e) = false.
Proof. by destruct c. Qed.
Lemma holds_done id c x : holds id (process_done c x) = false.
Proof. by destruct c. Qed.
Lemma takes_done id c x : takes id (process_done c x) = false.
Proof. by destruct c. Qed.
#[export] Hint Rewrite holds_polled takes_polled holds_failed takes_failed holds_done takes_done : market.

Lemma row_weaken max r j k l w h m k' h' :
  row_ok max r j k l w h m → (k' ≤ k)%nat → (h' ≤ h)%nat → row_ok max r j k' l w h' m.
Proof. unfold row_ok. destruct r; [|lia]. intros (H1 & H2 & H3 & H4) ??. split_and!; [lia..|done|lia|lia]. Qed.

Lemma live_submit id cfg x url w w' : Submit cfg x url w = Some w' →
  pw_tasks w' = pw_tasks w ∧ pw_jobs w' = x :: pw_jobs w ∧ pw_wrote w' = pw_wrote w
  ∧ pw_imported w' = pw_imported w ∧ pw_threads w' = pw_threads w
  ∧ jobs_of id w' = (jobs_of id w + one (bool_decide (x = id)))%nat.
Proof.
  unfold Submit. case_match; [|done]. intros [= <-]. split_and!; [done..|]. unfold jobs_of. simpl.
  rewrite !filter_app, !length_app, filter_cons, filter_nil. simpl. unfold one.
  case_decide; case_bool_decide; simpl in *; try done; lia.
Qed.

(** The steps that are one statement: [T] and [K] count the other requests. *)
Definition profile (max : Z) (id : string) (p : Phase) (w : PWorld) (T K : nat) : Prop :=
  row_ok max (pw_tasks w !! id) (count id (pw_jobs w)) (T + one (holds id p)) (jobs_of id w)
    (count id (pw_wrote w)) (K + one (takes id p)) (count id (pw_imported w)).

Lemma profile_mono max id p p' w T K :
  (one (holds id p') ≤ one (holds id p))%nat → (one (takes id p') ≤ one (takes id p))%nat →
  profile max id p w T K → profile max id p' w T K.
Proof. intros ?? H. eapply row_weaken; [exact H|lia..]. Qed.

Lemma profile_submit max id cfg x url p p' w w' T K :
  Submit cfg x url w = Some w' →
  holds id p = bool_decide (x = id) → holds id p' = false → takes id p' = false →
  profile max id p w T K → profile max id p' w' T K.
Proof.
  intros Hs Hh Hh' Ht'. unfold profile. destruct (live_submit id _ _ _ _ _ Hs) as (-> & -> & -> & -> & _ & Hl).
  rewrite Hl, count_cons, Hh, Hh', Ht'. unfold row_ok. change (one false) with 0%nat.
  destruct (pw_tasks w !! id) as [t|]; [|lia]. intros (H1 & H2 & H3 & H4).
  split_and!; [lia..|done|lia|lia].
Qed.

(** A statement on one row, and the request's next phase [q]: either the row is
    as it was, or it satisfied the guard and the answer was not "no row". *)
Lemma profile_sql max id fl x g f p q w r ts T K :
  run_sql fl (update_task x g f) (pw_tasks w) = (r, ts) →
  (x ≠ id ∨ r ≠ Some true → one (holds id q) ≤ one (holds id p) ∧ one (takes id q) ≤ one (takes id p))%nat →
  (∀ t j l h m, x = id → r ≠ Some false → g t = true →
     row_ok max (Some t) j (T + one (holds id p)) l h (K + one (takes id p)) m →
     row_ok max (Some (f t)) j (T + one (holds id q)) l h (K + one (takes id q)) m) →
  profile max id p w T K → profile max id q (with_tasks ts w) T K.
Proof.
  intros Hr Hle Hf Hp. unfold profile in *. change (jobs_of id (with_tasks ts w)) with (jobs_of id w). simpl in *.
  destruct (sql_row _ _ _ _ _ _ _ id Hr) as [[-> Hn]|(-> & Hn & t & Ht & Hg & ->)].
  - eapply row_weaken; [exact Hp| |].
    + destruct Hle; [|lia]. destruct (decide (x = id)); [right; by apply Hn|by left].
    + destruct Hle; [|lia]. destruct (decide (x = id)); [right; by apply Hn|by left].
  - rewrite Ht in Hp. by apply Hf.
Qed.

Section Invariant.
Context (cfg : Config) (Hmax : (1 ≤ cfg_attempts cfg)%Z).

Ltac open_guard :=
  repeat match goal with
    | H : _ && _ = true |- _ => apply andb_true_iff in H as [? ?]
    | H : has_status _ _ = true |- _ => apply bool_decide_eq_true in H
    | H : (_ <? _)%Z = true |- _ => apply Z.ltb_lt in H
    end.

Ltac known_status :=
  repeat match goal with
    | H : context [bool_decide (?a = ?b :> TaskStatus)] |- _ =>
        let v := eval vm_compute in (bool_decide (a = b)) in
        match v with true => idtac | false => idtac end; change (bool_decide (a = b)) with v in H
    | |- context [bool_decide (?a = ?b :> TaskStatus)] =>
        let v := eval vm_compute in (bool_decide (a = b)) in
        match v with true => idtac | false => idtac end; change (bool_decide (a = b)) with v
    end.

(** The numbers of a row before and after an update. *)
Ltac row_step :=
  intros row j l h m Hx Hans Hg; cbv beta in Hg; open_guard; unfold row_ok, has_status in *;
  cbn [set_task set_status t_status t_attempts holds takes] in *; autorewrite with market;
  rewrite ?(bool_decide_eq_true_2 _ Hx); intros (Hjobs & Hpend & Hlive & Hused);
  repeat match goal with H : t_status row = _ |- _ => rewrite H in * end; known_status;
  try specialize (Hpend eq_refl).

(** A phase reached by a statement on row [x], when the row is another one or
    the statement did not say it changed the row. *)
Ltac other_row :=
  intros [Hn|Hn]; cbn [holds takes]; autorewrite with market;
  rewrite ?(bool_decide_eq_false_2 _ Hn); cbn [one]; lia || done.

Ltac numbers :=
  cbn [holds takes] in *; autorewrite with market in *;
  repeat match goal with Hx : @eq string _ _ |- _ => progress rewrite ?(bool_decide_eq_true_2 _ Hx) in * end;
  cbn [one] in *; repeat match goal with |- context [(?a <? ?b)%Z] => destruct (Z.ltb_spec a b) end;
  split_and!; try lia; try done; try (intros; lia).

(** A phase that is one statement. *)
Ltac statement Ha Hp :=
  let r := fresh "r" in let ts := fresh "ts" in let Hr := fresh "Hr" in
  match type of Ha with context [run_sql ?f ?m ?t] => destruct (run_sql f m t) as [r ts] eqn:Hr end;
  simpl in Ha; injection Ha as <- <-; revert Hp; eapply profile_sql;
  [exact Hr
  |destruct r as [[]|]; repeat case_match; other_row
  |row_step; destruct r as [[]|]; try done; repeat case_match; numbers].
(** A phase that only reads. *)
Ltac reads Ha Hp := injection Ha as <- <-; revert Hp; apply profile_mono; repeat case_match; autorewrite with market; done || (simpl; lia).
(** A phase that queues a job. *)
Ltac queues Ha Hp :=
  let w1 := fresh "w1" in let Hs := fresh "Hs" in
  match type of Ha with context [Submit ?c ?x ?u ?w] => destruct (Submit c x u w) as [w1|] eqn:Hs end;
  injection Ha as <- <-; [eapply profile_submit; [exact Hs| | | |exact Hp]; autorewrite with market; done
                             |revert Hp; apply profile_mono; simpl; lia].

Lemma advance_row id i p w p' w' T K :
  advance cfg i p w = (p', w') →
  profile (cfg_attempts cfg) id p w T K → profile (cfg_attempts cfg) id p' w' T K.
Proof.
  intros Ha Hp. destruct p; cbn [advance advance_trigger advance_sync advance_status advance_import] in Ha.
  - reads Ha Hp.
  - statement Ha Hp.
  - queues Ha Hp.
  - statement Ha Hp.
  - reads Ha Hp.
  - statement Ha Hp.
  - destruct (in_cancel i); [reads Ha Hp|queues Ha Hp].
  - reads Ha Hp.
  - reads Ha Hp.
  - statement Ha Hp.
  - statement Ha Hp.
  - reads Ha Hp.
  - statement Ha Hp.
  - statement Ha Hp.
  - queues Ha Hp.
  - statement Ha Hp.
  - reads Ha Hp.
  - statement Ha Hp.
  - destruct (in_ok i); injection Ha as <- <-; [|exact Hp]. unfold profile, row_ok in *.
    cbn [holds takes with_imported pw_tasks pw_jobs pw_wrote pw_imported] in *. rewrite count_cons.
    change (jobs_of id (with_imported _ _)) with (jobs_of id w). change (one false) with 0%nat in *.
    destruct (pw_tasks w !! id) as [t|]; [|lia]. destruct Hp as (H1 & H2 & H3 & H4).
    split_and!; [lia..|done|lia|lia].
  - statement Ha Hp.
  - reads Ha Hp.
Qed.
End Invariant.

(** ** The invariant of the system *)

Section Steps.
Context (cfg : Config) (Hmax : (1 ≤ cfg_attempts cfg)%Z).

Lemma submit_threads c x u w w' : Submit c x u w = Some w' → pw_threads w' = pw_threads w.
Proof. unfold Submit. case_match; [|done]. by intros [= <-]. Qed.

Lemma advance_threads i p w : pw_threads (advance cfg i p w).2 = pw_threads w.
Proof.
  destruct p; cbn [advance advance_trigger advance_sync advance_status advance_import]; try done;
    try (destruct (run_sql _ _ _); done); repeat case_match; simpl; try done; by eapply submit_threads.
Qed.

Lemma finish_row id f j e w ts wrote max jobs held living h taken m :
  finish_job f j e w = (ts, wrote) →
  row_ok max (pw_tasks w !! id) jobs held (living + one (bool_decide (job_task j = id))) h taken m →
  row_ok max (ts !! id) jobs held living (one (wrote && bool_decide (job_task j = id)) + h) taken m.
Proof.
  assert (∀ code, finish_job f j (Some (Error code)) w = (ts, wrote) →
    row_ok max (pw_tasks w !! id) jobs held (living + one (bool_decide (job_task j = id))) h taken m →
    row_ok max (ts !! id) jobs held living (one (wrote && bool_decide (job_task j = id)) + h) taken m) as Hfail.
  { intros code [= <- <-]. destruct (run_sql f _ _) as [r ts'] eqn:Hr. simpl.
    destruct (sql_row _ _ _ _ _ _ _ id Hr) as [[-> _]|(-> & _ & t & Ht & _ & ->)]; [|rewrite Ht];
      unfold row_ok; [destruct (pw_tasks w !! id); [|lia]|]; intros (H1 & H2 & H3 & H4);
      cbn [set_task t_status t_attempts]; split_and!; try done; try lia. change (0 + taken + m ≤ h)%nat. lia. }
  destruct e as [[p|code]|]; [|apply Hfail|apply (Hfail "INTERNAL_ERROR")]. unfold finish_job.
  destruct (decide (f = SqlLost)) as [->|Hf].
  { simpl. intros [= <- <-] Hr. destruct (pw_tasks w !! id); simpl in *; [|lia].
    destruct Hr as (H1 & H2 & H3 & H4). split_and!; [lia..|done|lia|lia]. }
  destruct (run_sql f _ _) as [r ts'] eqn:Hr. intros [= <- <-].
  destruct (sql_row _ _ _ _ _ _ _ id Hr) as [[-> _]|(-> & _ & t & Ht & _ & ->)].
  - unfold row_ok. unfold UpdateSuccess, update_task.
    destruct (decide (job_task j = id)) as [->|Hne].
    + destruct (pw_tasks w !! id) as [t|]; [|simpl; destruct f; simpl; lia].
      intros (H1 & H2 & H3 & H4). rewrite bool_decide_eq_true_2 in * by done. cbn [one] in *.
      split_and!; [lia..|done| |]; destruct f; simpl; lia.
    + rewrite bool_decide_eq_false_2 by done. rewrite andb_false_r. cbn [one].
      destruct (pw_tasks w !! id) as [t|]; [|lia]. intros (H1 & H2 & H3 & H4). split_and!; [lia..|done|lia|lia].
  - unfold UpdateSuccess, update_task. rewrite Ht. unfold row_ok. rewrite bool_decide_eq_true_2 by done.
    intros (H1 & H2 & H3 & H4). cbn [one] in *.
    change (has_status Success (set_task Success (t_error t) (Some p) (t_attempts t) (pw_now w) t)) with true.
    cbn [set_task t_status t_attempts]. destruct f; [|done|]; simpl in *; split_and!; try done; try lia.
Qed.

Lemma live_take id w j q :
  pw_queue w = j :: q → (length (filter (λ j, job_task j = id) (q ++ pw_running w ++ [j])%list) = jobs_of id w)%nat.
Proof.
  intros Hq. unfold jobs_of. rewrite Hq. apply Permutation_length, filter_Permutation. simpl.
  rewrite (assoc_L (++)). by rewrite <-Permutation_cons_append.
Qed.

Lemma live_finish id w k j :
  pw_running w !! k = Some j →
  jobs_of id w = (length (filter (λ j, job_task j = id) (pw_queue w ++ take k (pw_running w) ++ drop (S k) (pw_running w))%list)
               + one (bool_decide (job_task j = id)))%nat.
Proof.
  intros Hk. unfold jobs_of. rewrite <-(take_drop_middle (pw_running w) k j Hk) at 1.
  rewrite !filter_app, !length_app, filter_cons. unfold one. case_decide; case_bool_decide; simpl; try done; lia.
Qed.

Lemma pexec_inv l w w' : pexec cfg l w = Some w' → pinv (cfg_attempts cfg) w → pinv (cfg_attempts cfg) w'.
Proof.
  intros He Hinv id. specialize (Hinv id). destruct l as [t|maxMB u sk fn size o sp|p|k i| |k f e]; simpl in He.
  - case_match; [|done]. by injection He as <-.
  - unfold InitUpload in He. destruct (normalizeUploadFileName fn) as [fn'|]; [|done].
    destruct (size <=? 0)%Z; [done|]. destruct (size >? _)%Z; [done|]. injection He as <-. simpl. unfold CreateTask.
    destruct (pw_tasks w !! u) as [t|] eqn:Hu; [done|]. simpl.
    destruct (decide (id = u)) as [->|Hne]; [|by rewrite lookup_insert_ne].
    rewrite lookup_insert_eq. rewrite Hu in Hinv. unfold row_ok in *. simpl.
    change (jobs_of u (with_tasks _ w)) with (jobs_of u w). change (has_status Success _) with false. simpl one. split_and!; lia.
  - destruct (is_entry p) eqn:Hp; [|done]. injection He as <-. simpl. rewrite !how_many_snoc.
    assert (holds id p = false ∧ takes id p = false) as [-> ->] by (by destruct p as [| | | | | | | | | | |[]| | | | | | | | |]).
    simpl. by rewrite !Nat.add_0_r.
  - destruct (pw_threads w !! k) as [p|] eqn:Hk; [|done].
    destruct (advance cfg i p w) as [p' w1] eqn:Ha. injection He as <-.
    pose proof (how_many_insert (holds id) _ k p p' Hk) as Hh.
    pose proof (how_many_insert (takes id) _ k p p' Hk) as Ht.
    pose proof (how_many_split (holds id) _ k p Hk) as [T HT].
    pose proof (how_many_split (takes id) _ k p Hk) as [K HK].
    apply (advance_row cfg Hmax id i p w p' w1 T K) in Ha.
    + unfold profile in Ha. cbn [with_threads pw_tasks pw_jobs pw_threads pw_wrote pw_imported].
      change (jobs_of id (with_threads _ w1)) with (jobs_of id w1).
      eapply row_weaken; [exact Ha|lia..].
    + unfold profile. by rewrite <-HT, <-HK.
  - destruct (pw_queue w) as [|j q] eqn:Hq; [done|]. case_match; [|done]. injection He as <-.
    simpl. unfold jobs_of. simpl. by rewrite (live_take id w j q Hq).
  - destruct (pw_running w !! k) as [j|] eqn:Hk; [|done].
    destruct (finish_job f j e w) as [ts wrote] eqn:Hf. injection He as <-. simpl.
    rewrite (live_finish id w k j Hk) in Hinv. eapply finish_row in Hinv; [|exact Hf].
    unfold jobs_of. simpl. destruct wrote; [|exact Hinv]. rewrite count_cons. exact Hinv.
Qed.

Lemma preached_inv w : preached cfg w → pinv (cfg_attempts cfg) w.
Proof.
  intros (t0 & ls & Hr). assert (pinv (cfg_attempts cfg) (idle_world t0)) as Hi.
  { intros id. simpl. rewrite lookup_empty. done. }
  revert Hi Hr. generalize (idle_world t0) as w0. clear t0. induction ls as [|l ls IH]; intros w0 Hi Hr; simpl in Hr.
  - by injection Hr as <-.
  - destruct (pexec cfg l w0) as [w1|] eqn:He; [|done]. eapply IH; [|exact Hr]. by eapply pexec_inv.
Qed.
End Steps.

Lemma NewConfig_attempts a b c d : (1 ≤ cfg_attempts (NewConfig a b c d))%Z.
Proof. unfold NewConfig. simpl. destruct (Z.leb_spec b 0); lia. Qed.

(** C28: however requests, workers, faults and time interleave, no task is ever
    parsed more than the configured number of attempts. *)
Theorem parse_attempts_bounded stale attempts pool queue w id :
  let cfg := NewConfig stale attempts pool queue in
  preached cfg w → (Z.of_nat (count id (pw_jobs w)) ≤ cfg_attempts cfg)%Z.
Proof.
  intros cfg Hw. pose proof (preached_inv cfg (NewConfig_attempts _ _ _ _) w Hw id) as Hi.
  pose proof (NewConfig_attempts stale attempts pool queue). fold cfg in H.
  unfold row_ok in Hi. destruct (pw_tasks w !! id); lia.
Qed.

(** A parse result is imported at most once for each time a job stored it,
    and never more often than the task was parsed: a task parsed once is
    imported at most once. *)
Theorem parse_results_used_once stale attempts pool queue w id :
  preached (NewConfig stale attempts pool queue) w →
  (count id (pw_imported w) + how_many (takes id) (pw_threads w) ≤ count id (pw_wrote w) ≤ count id (pw_jobs w))%nat.
Proof.
  intros Hw. pose proof (preached_inv _ (NewConfig_attempts _ _ _ _) w Hw id) as Hi.
  unfold row_ok in Hi. destruct (pw_tasks w !! id); lia.
Qed.

(** ** Concrete runs *)

Definition demo_cfg : Config := NewConfig 0 0 0 0.
Definition at_time (t : Z) : Input := mkInput (t * ns_second) SqlOk false true.
Definition demo_result : result string ParsedSkill := Ok demo_parsed.

(** Upload, trigger, parse, import. *)
Definition parse_once : list Label :=
  [LInit 50 "u" "" "tools.zip" 10 "o" "s"; LCall (TriggerRead "u" "o");
   LStep 0 (at_time 0); LStep 0 (at_time 0); LStep 0 (at_time 0); LTake; LFinish 0 SqlOk (Some demo_result);
   LCall (ImportRead "u" "o" "s"); LStep 1 (at_time 1); LStep 1 (at_time 1); LStep 1 (at_time 1)].

(** The job waits in the queue for longer than the staleness limit, a poll
    queues the task again, both jobs run, and an import runs after each. *)
Definition parse_twice : list Label :=
  [LInit 50 "u" "" "tools.zip" 10 "o" "s"; LCall (TriggerRead "u" "o");
   LStep 0 (at_time 0); LStep 0 (at_time 0); LStep 0 (at_time 0);
   LTick 301; LCall (StatusRead false "u" "o"); LStep 1 (at_time 301); LStep 1 (at_time 301); LStep 1 (at_time 301);
   LTake; LTake; LFinish 0 SqlOk (Some demo_result);
   LCall (ImportRead "u" "o" "s"); LStep 2 (at_time 301); LStep 2 (at_time 301); LStep 2 (at_time 301);
   LFinish 0 SqlOk (Some demo_result);
   LCall (ImportRead "u" "o" "s"); LStep 3 (at_time 302); LStep 3 (at_time 302); LStep 3 (at_time 302)].

Definition ran (ls : list Label) : PWorld := default (idle_world 0) (prun demo_cfg ls (idle_world 0)).

(** The statements that store a parse's outcome do not look at the status: the
    late job makes a consumed task importable again, and one upload is imported
    twice without a release in between. *)
Theorem late_job_revives_consumed_task :
  preached demo_cfg (ran parse_twice) ∧ pw_imported (ran parse_twice) = ["u"; "u"]
  ∧ pw_jobs (ran parse_twice) = ["u"; "u"].
Proof. split_and!; [exists 0%Z, parse_twice; by vm_compute|by vm_compute..]. Qed.

Lemma parse_attempts_bounded_witness :
  preached demo_cfg (ran parse_twice) ∧ (Z.of_nat (count "u" (pw_jobs (ran parse_twice))) ≤ 2)%Z.
Proof.
  assert (preached demo_cfg (ran parse_twice)) as H by (exists 0%Z, parse_twice; vm_compute; reflexivity).
  split; [exact H|]. exact (parse_attempts_bounded 0 0 0 0 _ "u" H).
Defined.

Lemma parse_results_used_once_witness :
  preached demo_cfg (ran parse_once) ∧ count "u" (pw_imported (ran parse_once)) = 1%nat
  ∧ (count "u" (pw_imported (ran parse_once)) + how_many (takes "u") (pw_threads (ran parse_once))
     ≤ count "u" (pw_wrote (ran parse_once)) ≤ count "u" (pw_jobs (ran parse_once)))%nat.
Proof.
  assert (preached demo_cfg (ran parse_once)) as H by (exists 0%Z, parse_once; vm_compute; reflexivity).
  split_and!; [exact H|vm_compute; reflexivity|..]; apply (parse_results_used_once 0 0 0 0 _ "u" H).
Defined.
