(* ===== verification/SkillTree.v ===== *)
(** * The files of a skill: service/plugin/skill_tree.go, skill_artifact.go,
    service/skill/rewrite.go

    An uploaded skill is an archive. It is rewritten under the identity of its
    plugin, unpacked into a flat list of attachments (small text inline, the
    rest as staged objects of the bucket), and put together again, sorted, for
    a download. Reading and writing the archive format and YAML are parameters. *)

From S2P Require Import Prelude GoStrings Model Notify Objects Store Rows CardAction Json Documents VersionArtifacts Zip.
From Stdlib Require Import Ascii.
Import Go.
Local Open Scope string_scope.

(** [archive/zip]: the entries of an archive; the archive of a list of entries,
    each a header and the bytes written. [yaml.Marshal] of a map. *)
Class PackageLibs := {
  zip_open : string → option (list File);
  zip_write : list (File * string) → option string;
  yaml_marshal : gmap string json → option string
}.

(** An entry as it is read back. *)
Definition written (fd : File * string) : File :=
  mkFile (FileName fd.1) (blen fd.2) (IsDir fd.1) (IsSymlink fd.1) fd.2 false false.

Class PackageLaws `{PackageLibs} := {
  zip_read_back es data : zip_write es = Some data → zip_open data = Some (written <$> es)
}.

(** ** Paths *)

(** [path.Ext] *)
Fixpoint Ext (s : string) : string :=
  match s with
  | "" => ""
  | String c s' =>
      let e := Ext s' in
      if negb (String.eqb e "") then e
      else if Ascii.eqb c "." && negb (ContainsByte s' slash) then s else ""
  end.

Definition TrimPrefix (s p : string) : string := default s (CutPrefix s p).

Definition normalizedArchivePath (name : string) : option string :=
  if String.eqb name "" || negb (Valid name) || ContainsAny name ["\"%char; "000"%char]
     || HasPrefix name "/" || HasSuffix name "/" then None
  else
    let clean := Clean name in
    if negb (String.eqb clean name) || String.eqb clean "." || HasPrefix clean "../" then None
    else if existsb (λ part, mem part [""; "."; ".."]) (Split name slash) then None
    else Some clean.

Definition rootRelative (p dir : string) : string :=
  if String.eqb dir "." || String.eqb dir "" then p else TrimPrefix p (dir ++ "/").

(** The runes of the range loop that are not single bytes are refused, as are
    the bytes of which they consist. *)
Definition safeExtension (ext : string) : bool :=
  all_bytes (λ c, is_letter c || is_digit c || Ascii.eqb c ".") ext.

Definition extMIME : list (string * string) := [
  (".md", "text/markdown"); (".markdown", "text/markdown"); (".json", "application/json");
  (".txt", "text/plain"); (".sh", "text/x-shellscript"); (".py", "text/x-python");
  (".js", "text/javascript"); (".ts", "text/plain"); (".tsx", "text/plain");
  (".yaml", "text/yaml"); (".yml", "text/yaml"); (".toml", "text/plain");
  (".html", "text/html"); (".css", "text/css"); (".csv", "text/csv");
  (".xml", "text/xml"); (".sql", "text/plain"); (".env", "text/plain");
  (".png", "image/png"); (".jpg", "image/jpeg"); (".jpeg", "image/jpeg");
  (".gif", "image/gif"); (".svg", "image/svg+xml"); (".webp", "image/webp");
  (".pdf", "application/pdf"); (".zip", "application/zip")].

Definition attachmentMIME (p : string) (isText : bool) : string :=
  if EqualFold (Base p) "skill.md" then "text/markdown"
  else match List.find (λ kv, String.eqb kv.1 (ToLower (Ext p))) extMIME with
       | Some kv => kv.2
       | None => if isText then "text/plain" else "application/octet-stream"
       end.

(** ** Rewriting an archive (rewrite.go) *)

Record RewriteParams := mkRewrite {
  rw_name : string;
  rw_desc : string;
  rw_version : string;
  rw_tags : list string;
  rw_id : string;
  rw_forked_from : string;
  rw_metadata : GoMap
}.

Definition knownBusinessFields : list string :=
  ["name"; "description"; "version"; "tags"; "id"; "forked_from"; "source_slug"; "space_id"].
Definition forbiddenMetadataVendors : list string := ["octo"].

Definition isRootSkillMD (name : string) : bool :=
  let dir := Dir name in
  (String.eqb dir "." || String.eqb dir "") && EqualFold (Base name) "skill.md".
Definition isOneLevelSkillMD (name : string) : bool :=
  let dir := Dir name in
  negb (String.eqb dir "." || String.eqb dir "" || Contains dir "/") && EqualFold (Base name) "skill.md".

(** The index of the entry: the first at the root, or else the first one level
    deep. *)
Fixpoint find_md (i : nat) (oneLevel : option nat) (files : list File) : option nat :=
  match files with
  | [] => oneLevel
  | f :: files' =>
      if isRootSkillMD (FileName f) then Some i
      else find_md (S i) (if bool_decide (oneLevel = None) && isOneLevelSkillMD (FileName f)
                          then Some i else oneLevel) files'
  end.
Definition findSkillMDEntry (files : list File) : option nat := find_md 0 None files.

Definition readZipEntry (f : File) : option string :=
  if OpenErr f || StreamErr f then None else Some (Stream f).
Definition copyZipEntry (f : File) : option (File * string) :=
  if IsDir f then Some (f, "") else (λ d, (f, d)) <$> readZipEntry f.

(** The lines before the closing delimiter and after it. *)
Fixpoint until_close (lines : list string) : option (list string * list string) :=
  match lines with
  | [] => None
  | l :: lines' =>
      if String.eqb (TrimSpace l) "---" then Some ([], lines')
      else '(fm, body) ← until_close lines'; Some (l :: fm, body)
  end.

Definition splitFrontmatterAndBody (content : string) : string * string :=
  match Split content lf with
  | first :: rest =>
      if String.eqb (TrimSpace first) "---" then
        match until_close rest with
        | Some (fm, body) => (Join fm (String lf ""), Join body (String lf ""))
        | None => ("", content)
        end
      else ("", content)
  | [] => ("", content)
  end.

Definition filterMetadataVendors (v : json) : option json :=
  match v with
  | JObj l =>
      let m := filter (λ kv, kv.1 ∉ forbiddenMetadataVendors) (members_map l) in
      if decide (m = ∅) then None else Some (of_map m)
  | _ => None
  end.

(** The vendor fields that are kept. *)
Definition vendor_fields (raw : gmap string json) : gmap string json :=
  map_imap (λ k v, if mem k knownBusinessFields then None
                   else if String.eqb k "metadata" then filterMetadataVendors v else Some v) raw.

Definition tag_list (tags : list string) : json := JArr (JStr <$> tags).

Definition rewritten_frontmatter (p : RewriteParams) : gmap string json :=
  let fm := default ∅ (vendor_fields <$> rw_metadata p) in
  let fm := <["version" := JStr (rw_version p)]> (<["description" := JStr (rw_desc p)]>
            (<["name" := JStr (rw_name p)]> fm)) in
  let fm := match rw_tags p with [] => delete "tags" fm | tags => <["tags" := tag_list tags]> fm end in
  let fm := if String.eqb (rw_id p) "" then fm else <["id" := JStr (rw_id p)]> fm in
  let fm := if String.eqb (rw_forked_from p) "" then delete "forked_from" fm
            else <["forked_from" := JStr (rw_forked_from p)]> fm in
  delete "space_id" (delete "source_slug" fm).

Definition minimal_frontmatter (p : RewriteParams) : gmap string json :=
  let fm : gmap string json := <["version" := JStr (rw_version p)]> (<["description" := JStr (rw_desc p)]>
            {["name" := JStr (rw_name p)]}) in
  let fm := match rw_tags p with [] => fm | tags => <["tags" := tag_list tags]> fm end in
  let fm := if String.eqb (rw_id p) "" then fm else <["id" := JStr (rw_id p)]> fm in
  if String.eqb (rw_forked_from p) "" then fm else <["forked_from" := JStr (rw_forked_from p)]> fm.

Section Rewrite.
Context `{PackageLibs} `{Crypto}.

Definition buildMinimalYAML (p : RewriteParams) : string := default "" (yaml_marshal (minimal_frontmatter p)).

Definition buildRewrittenSkillMD (original : string) (p : RewriteParams) : string :=
  let '(_, body) := splitFrontmatterAndBody original in
  let yaml := default (buildMinimalYAML p) (yaml_marshal (rewritten_frontmatter p)) in
  "---" ++ String lf "" ++ yaml ++ "---" ++ String lf "" ++ body.

Record RewriteResult := mkRewritten {
  ZipBytes : string;
  SkillMD : string;
  ZipSize : Z;
  ZipSHA256 : string
}.

Definition rewrite_entry (md : nat) (newMD : string) (i : nat) (f : File) : option (File * string) :=
  if (i =? md)%nat then Some (f, newMD) else copyZipEntry f.

Fixpoint rewrite_entries (md : nat) (newMD : string) (i : nat) (files : list File) : option (list (File * string)) :=
  match files with
  | [] => Some []
  | f :: files' =>
      x ← rewrite_entry md newMD i f;
      rest ← rewrite_entries md newMD (S i) files';
      Some (x :: rest)
  end.

Definition RewriteZipPackage (zipData : string) (p : RewriteParams) : option RewriteResult :=
  files ← zip_open zipData;
  md ← findSkillMDEntry files;
  entry ← files !! md;
  origMD ← readZipEntry entry;
  let newMD := buildRewrittenSkillMD origMD p in
  entries ← rewrite_entries md newMD 0 files;
  zipBytes ← zip_write entries;
  Some (mkRewritten zipBytes newMD (blen zipBytes) (sha256_hex zipBytes)).
End Rewrite.

(** ** Building the attachments (skill_tree.go) *)

Definition skillInlineMaxBytes : Z := 128 * 1024.
Definition skillInlineBudgetBytes : Z := 512 * 1024.

Record item := mkItem { it_path : string; it_bytes : string; it_text : bool; it_md : bool }.

Definition skill_dir (entries : list SkillEntry) : string :=
  match List.find (λ e, isSkillMDCandidate (Path e)) entries with
  | Some e => Dir (Path e)
  | None => "."
  end.

(** One entry, rooted at the directory of SKILL.md. *)
Definition tree_item (dir : string) (override : option string) (e : SkillEntry) : option item :=
  let isMD := isSkillMDCandidate (Path e) in
  norm ← normalizedArchivePath (if isMD then "SKILL.md" else rootRelative (Path e) dir);
  let b := match override with Some md => if isMD then md else Bytes e | None => Bytes e end in
  if isMD && negb (Valid b) then None
  else Some (mkItem norm b (IsText e || isMD) isMD).

(** [sort.Slice] by path; the order it leaves open between equal paths does not
    matter, a package with repeated paths is refused when it is saved. *)
Definition path_le (a b : item) : Prop := String.leb (it_path a) (it_path b) = true.
#[export] Instance path_le_dec : RelDecision path_le.
Proof. intros a b. unfold path_le. apply _. Defined.

Definition tree_items (entries : list SkillEntry) (override : option string) : option (list item) :=
  merge_sort path_le <$> mapM (tree_item (skill_dir entries) override) entries.

Definition inlined (budget : Z) (it : item) : bool :=
  it_text it && (it_md it || ((blen (it_bytes it) <=? skillInlineMaxBytes)%Z
                              && (budget + blen (it_bytes it) <=? skillInlineBudgetBytes)%Z)).

Section Tree.
Context `{Crypto}.

Definition deterministicSkillObjectKey (spaceID pluginID rootedPath content : string) : string :=
  let nul := String "000" "" in
  let name := "skill-" ++ pluginID ++ "-"
                ++ take 16 (sha256_hex (pluginID ++ nul ++ rootedPath ++ nul ++ content)) in
  let ext := Ext rootedPath in
  approvedAttachmentPrefix spaceID ++ name
    ++ (if negb (String.eqb ext "") && (String.length ext <=? 12)%nat && safeExtension ext
        then ToLower ext else "").

Definition raw_attachment (path mime content : string) : GoMap :=
  Some (list_to_map [("path", JStr path); ("mime_type", JStr mime); ("content_type", JStr "raw");
                     ("raw_content", JStr content)]).
Definition storage_attachment (path mime key content : string) : GoMap :=
  Some (list_to_map [("path", JStr path); ("mime_type", JStr mime); ("content_type", JStr "storage");
                     ("content_size", JNum (pretty (blen content)));
                     ("content_hash", JStr ("sha256:" ++ sha256_hex content)); ("storage_uri", JStr key)]).

Context (keyPrefix : string) (maxAttachmentBytes maxArchiveBytes : Z).

(** One call of the storage, after what other requests do meanwhile. *)
Definition storage_call {A} (f : fault → Bucket → result StorageError A * Bucket) : Fz (result StorageError A) :=
  λ e s,
    let here := e (fz_count s) in
    let '(r, b) := f (flt here 0) (interfere keyPrefix (meanwhile here 0) (fz_bucket s)) in
    (Ok r, mkFz b (fz_total s) (S (fz_count s))).

Definition storage_read {A} (f : fault → Bucket → result StorageError A) : Fz (result StorageError A) :=
  storage_call (λ flt b, (f flt b, b)).

Definition stored {A} (r : result StorageError A) : Fz A :=
  match r with Ok a => mret a | Error e => fz_fail (FStorage e) end.

(** Best effort: a failed deletion is ignored. *)
Fixpoint deleteObjects (keys : list string) : Fz unit :=
  match keys with
  | [] => mret tt
  | key :: keys' => storage_call (DeleteObject keyPrefix key);; deleteObjects keys'
  end.

(** [m], and the deletion of what was uploaded if it fails. *)
Definition or_delete {A} (uploaded : list string) (m : Fz A) : Fz A := λ e s,
  match m e s with
  | (Ok a, s') => (Ok a, s')
  | (Error err, s') => (Error err, (deleteObjects uploaded e s').2)
  end.

Definition readArtifactBytes (key : string) (limit : Z) : Fz string :=
  fz_require (0 <=? limit)%Z FTooLarge;;
  r ← storage_read (GetObject keyPrefix key);
  body ← stored r;
  let data := take (Z.to_nat (limit + 1)) body in
  fz_require (blen data <=? limit)%Z FTooLarge;;
  mret data.

(** The staged object of a file: there already, or uploaded now. *)
Definition stage (key content : string) : Fz bool :=
  r ← storage_read (StatObject keyPrefix key);
  match r with
  | Ok _ =>
      existing ← readArtifactBytes key maxAttachmentBytes;
      fz_require (String.eqb existing content) FIntegrity;;
      mret false
  | Error ErrObjectNotFound =>
      r ← storage_call (PutObject keyPrefix key content);
      stored r;;
      mret true
  | Error err => fz_fail (FStorage err)
  end.

(** The loop over the sorted files: the attachments, the keys uploaded and the
    text files that went to storage. *)
Fixpoint attach_items (spaceID pluginID : string) (budget : Z) (items : list item) (uploaded spilled : list string)
    : Fz (list GoMap * list string * list string) :=
  match items with
  | [] => mret ([], uploaded, spilled)
  | it :: items' =>
      let mime := attachmentMIME (it_path it) (it_text it) in
      if inlined budget it then
        '(rest, uploaded, spilled) ←
          attach_items spaceID pluginID (budget + blen (it_bytes it)) items' uploaded spilled;
        mret (raw_attachment (it_path it) mime (it_bytes it) :: rest, uploaded, spilled)
      else
        or_delete uploaded (fz_require (segment spaceID) FInvalidRequest);;
        let key := deterministicSkillObjectKey spaceID pluginID (it_path it) (it_bytes it) in
        new ← or_delete uploaded (stage key (it_bytes it));
        let uploaded := if new : bool then (uploaded ++ [key])%list else uploaded in
        let spilled := if it_text it then (spilled ++ [it_path it])%list else spilled in
        '(rest, uploaded, spilled) ← attach_items spaceID pluginID budget items' uploaded spilled;
        mret (storage_attachment (it_path it) mime key (it_bytes it) :: rest, uploaded, spilled)
  end.

Context `{PackageLibs}.

(** [containerBudget] is the allowance shared by the skills of a container. *)
Definition buildSkillAttachmentTree (spaceID pluginID zipData : string) (override : option string)
    (containerBudget : option Z) : Fz (list GoMap * list string * list string * option Z) :=
  files ← fz_lift FInvalidRequest (zip_open zipData);
  entries ← fz_lift FInvalidRequest
    (match ExtractSkillTree (blen zipData) maxArchiveBytes maxAttachmentBytes 0 files with
     | Ok entries => Some entries
     | Error _ => None
     end);
  let consumed := foldr Z.add 0%Z (blen ∘ Bytes <$> entries) in
  fz_require (match containerBudget with Some n => (consumed <=? n)%Z | None => true end) FTooLarge;;
  items ← fz_lift FInvalidRequest (tree_items entries override);
  '(atts, uploaded, spilled) ← attach_items spaceID pluginID 0 items [] [];
  mret (atts, uploaded, spilled, (λ n, n - consumed)%Z <$> containerBudget).
End Tree.

(** ** The document an archive makes *)

(** The attachments do not depend on the bucket. *)
Section Document.
Context `{Crypto}.

Definition attachment_of (spaceID pluginID : string) (inline : bool) (it : item) : GoMap :=
  let mime := attachmentMIME (it_path it) (it_text it) in
  if inline then raw_attachment (it_path it) mime (it_bytes it)
  else storage_attachment (it_path it) mime
         (deterministicSkillObjectKey spaceID pluginID (it_path it) (it_bytes it)) (it_bytes it).

Fixpoint attachments_of (spaceID pluginID : string) (budget : Z) (items : list item) : list GoMap :=
  match items with
  | [] => []
  | it :: items' =>
      let inline := inlined budget it in
      attachment_of spaceID pluginID inline it
        :: attachments_of spaceID pluginID (if inline then budget + blen (it_bytes it) else budget) items'
  end.

(** The bytes inlined beside SKILL.md. *)
Fixpoint inlined_bytes (budget : Z) (items : list item) : Z :=
  match items with
  | [] => 0
  | it :: items' =>
      if inlined budget it then
        (if it_md it then 0 else blen (it_bytes it)) + inlined_bytes (budget + blen (it_bytes it)) items'
      else inlined_bytes budget items'
  end.

Lemma inlined_bounded budget items :
  (0 ≤ inlined_bytes budget items)%Z
  ∧ (0 ≤ budget → inlined_bytes budget items ≤ Z.max 0 (skillInlineBudgetBytes - budget))%Z.
Proof.
  revert budget. induction items as [|it items IH]; intros budget; simpl; [lia|].
  pose proof (blen_nonneg (it_bytes it)). destruct (inlined budget it) eqn:E; [|apply IH].
  destruct (IH (budget + blen (it_bytes it))%Z) as [Hp Hb]. destruct (it_md it) eqn:Hmd; [lia|].
  split; [lia|]. intros Hn. unfold inlined in E. rewrite Hmd in E.
  apply andb_true_iff in E as [_ [_ E%Z.leb_le]%andb_true_iff]. lia.
Qed.
End Document.

Section Building.
Context `{Crypto} (keyPrefix : string) (maxAttachmentBytes maxArchiveBytes : Z).

Lemma storage_call_moves {A} (f : fault → gmap string string → result StorageError A * gmap string string) :
  (∀ flt b, oss_steps keyPrefix b (f flt b).2) → fz_moves keyPrefix (storage_call keyPrefix f).
Proof.
  intros Hf e s _. unfold storage_call.
  specialize (Hf (flt (e (fz_count s)) 0) (interfere keyPrefix (meanwhile (e (fz_count s)) 0) (fz_bucket s))).
  destruct (f _ _) as [r b]. simpl in *. etrans; [apply interfere_steps|exact Hf].
Qed.
Lemma storage_read_moves {A} (f : fault → gmap string string → result StorageError A) :
  fz_moves keyPrefix (storage_read keyPrefix f).
Proof. apply storage_call_moves. constructor. Qed.
Lemma stored_moves {A} (r : result StorageError A) : fz_moves keyPrefix (stored r).
Proof. by intros e s _; destruct r. Qed.
Lemma fz_fail_moves {A} err : fz_moves keyPrefix (fz_fail (A:=A) err).
Proof. by intros e s _. Qed.
Lemma put_moves key content : fz_moves keyPrefix (storage_call keyPrefix (PutObject keyPrefix key content)).
Proof. apply storage_call_moves. intros flt b. apply rtc_once. exact (oss_step_run keyPrefix (OPut key content) flt b). Qed.
Lemma delete_moves keys : fz_moves keyPrefix (deleteObjects keyPrefix keys).
Proof.
  induction keys as [|k keys IH]; simpl; [apply fz_rel_ret; apply _|]. apply fz_rel_bind; [apply _| |intros _; exact IH].
  apply storage_call_moves. intros flt b. apply rtc_once. exact (oss_step_run keyPrefix (ODelete k) flt b).
Qed.
Lemma or_delete_moves {A} up (m : Fz A) : fz_moves keyPrefix m → fz_moves keyPrefix (or_delete keyPrefix up m).
Proof.
  intros Hm e s He. specialize (Hm e s He). unfold or_delete. destruct (m e s) as [[a|err] s']; [done|].
  simpl in *. etrans; [exact Hm|by apply delete_moves].
Qed.
End Building.
#[export] Hint Resolve storage_read_moves stored_moves fz_fail_moves put_moves delete_moves : moves.

Section Moves_of_trees.
Context `{Crypto} `{PackageLibs} (keyPrefix : string) (maxAttachmentBytes maxArchiveBytes : Z).

Lemma stage_moves key content : fz_moves keyPrefix (stage keyPrefix maxAttachmentBytes key content).
Proof. unfold stage, readArtifactBytes. moves. Qed.

Lemma attach_items_moves sp id budget items up spl :
  fz_moves keyPrefix (attach_items keyPrefix maxAttachmentBytes sp id budget items up spl).
Proof.
  revert budget up spl. induction items as [|it items IH]; intros budget up spl; cbn [attach_items]; [moves|].
  destruct (inlined budget it); [apply fz_rel_bind; [apply _|apply IH|moves]|].
  apply fz_rel_bind; [apply _|apply or_delete_moves; moves|intros _]. cbv zeta.
  apply fz_rel_bind; [apply _|apply or_delete_moves, stage_moves|]. intros new.
  apply fz_rel_bind; [apply _|apply IH|moves].
Qed.

Lemma buildSkillAttachmentTree_moves sp id zip override cb :
  fz_moves keyPrefix (buildSkillAttachmentTree keyPrefix maxAttachmentBytes maxArchiveBytes sp id zip override cb).
Proof. unfold buildSkillAttachmentTree. moves. apply attach_items_moves. Qed.

Lemma or_delete_ok {A} up (m : Fz A) e s a s' :
  or_delete keyPrefix up m e s = (Ok a, s') → m e s = (Ok a, s').
Proof. unfold or_delete. by destruct (m e s) as [[x|err] s1]. Qed.

Lemma attach_items_ok sp id budget items up spl e s atts up' spl' s' :
  attach_items keyPrefix maxAttachmentBytes sp id budget items up spl e s = (Ok (atts, up', spl'), s') →
  atts = attachments_of sp id budget items ∧ (existsb is_storage atts = true → segment sp = true).
Proof.
  revert budget up spl s atts. induction items as [|it items IH]; intros budget up spl s atts Hrun.
  { cbn in Hrun. by injection Hrun as <- _ _ _. }
  cbn [attach_items attachments_of] in *. unfold attachment_of. destruct (inlined budget it).
  - apply fz_bind_ok in Hrun as ([[rest u] sp'] & s1 & Hr & [[= -> -> ->] ->]%fz_ret_ok).
    by apply IH in Hr as [-> Hs].
  - apply fz_bind_ok in Hrun as (? & s1 & [Hseg ->]%or_delete_ok%fz_require_ok & Hrun). cbv zeta in Hrun.
    apply fz_bind_ok in Hrun as (new & s2 & _ & Hrun).
    apply fz_bind_ok in Hrun as ([[rest u] sp'] & s3 & Hr & [[= -> -> ->] ->]%fz_ret_ok).
    by apply IH in Hr as [-> _].
Qed.

(** A successful build: the attachments are those of the archive. *)
Lemma build_tree_ok sp id zip override cb e s atts up spl cb' s' :
  buildSkillAttachmentTree keyPrefix maxAttachmentBytes maxArchiveBytes sp id zip override cb e s
    = (Ok (atts, up, spl, cb'), s') →
  ∃ files entries items,
    zip_open zip = Some files
    ∧ ExtractSkillTree (blen zip) maxArchiveBytes maxAttachmentBytes 0 files = Ok entries
    ∧ tree_items entries override = Some items
    ∧ atts = attachments_of sp id 0 items ∧ (existsb is_storage atts = true → segment sp = true).
Proof.
  unfold buildSkillAttachmentTree. intros Hrun.
  apply fz_bind_ok in Hrun as (files & ? & [Hz ->]%fz_lift_ok & Hrun).
  apply fz_bind_ok in Hrun as (entries & ? & [He ->]%fz_lift_ok & Hrun). cbv zeta in Hrun.
  apply fz_bind_ok in Hrun as (? & ? & [_ ->]%fz_require_ok & Hrun).
  apply fz_bind_ok in Hrun as (items & ? & [Hi ->]%fz_lift_ok & Hrun).
  apply fz_bind_ok in Hrun as ([[atts' u] sp'] & s1 & Ha & [[= -> -> -> ->] ->]%fz_ret_ok).
  destruct (ExtractSkillTree _ _ _ _ _) as [en|] eqn:Ex in He; [|done]. injection He as ->.
  apply attach_items_ok in Ha as [-> Hs]. by exists files, entries, items.
Qed.
End Moves_of_trees.

(** ** Builds that fail *)

(** No other request writes the bucket meanwhile. *)
Definition undisturbed (e : nat → FreezeEnv) : Prop := ∀ n k, meanwhile (e n) k = [].
(** No call of the storage fails. *)
Definition storage_up (e : nat → FreezeEnv) : Prop := ∀ n k, flt (e n) k = Clean_run.

Section Cleanup.
Context `{Crypto} `{PackageLibs} (keyPrefix : string) (maxAttachmentBytes maxArchiveBytes : Z).

Abbreviation physical := (oss_key keyPrefix).

Lemma storage_call_undisturbed {A} (f : fault → gmap string string → result StorageError A * gmap string string) e s :
  undisturbed e →
  storage_call keyPrefix f e s
  = (Ok (f (flt (e (fz_count s)) 0) (fz_bucket s)).1,
     mkFz (f (flt (e (fz_count s)) 0) (fz_bucket s)).2 (fz_total s) (S (fz_count s))).
Proof. intros He. unfold storage_call. rewrite He. simpl. by destruct (f _ _). Qed.

Lemma fz_bind_run {A B} (m : Fz A) (f : A → Fz B) e s :
  (x ← m; f x) e s = match m e s with (Ok a, s') => f a e s' | (Error err, s') => (Error err, s') end.
Proof. done. Qed.

(** [b] has the objects of [b0], and the ones staged under [up], which [b0] does
    not have; when no call fails, it has no others. *)
Definition staged_on (e : nat → FreezeEnv) (b0 : gmap string string) (up : list string) (b : gmap string string) : Prop :=
  (∀ k body, b0 !! k = Some body → b !! k = Some body)
  ∧ Forall (λ key, b0 !! physical key = None ∧ IsImmutableArtifactKey key = false) up
  ∧ (storage_up e → ∀ k, k ∉ physical <$> up → b !! k = b0 !! k).

Lemma deleted_keeps b0 up e s :
  undisturbed e → staged_on e b0 up (fz_bucket s) → staged_on e b0 [] (fz_bucket (deleteObjects keyPrefix up e s).2).
Proof.
  intros He. revert s. induction up as [|key up IH]; intros s (Hk & Hup & Hx); [done|].
  apply Forall_cons in Hup as [[Hn Hi] Hup]. cbn [deleteObjects]. rewrite fz_bind_run, storage_call_undisturbed by done.
  apply IH. simpl. unfold DeleteObject. rewrite Hi. split_and!; [|done|].
  - intros k body Hb. destruct (flt _ _); simpl; try rewrite lookup_delete_ne by congruence; by apply Hk.
  - intros Hup' k Hk'. rewrite Hup'. simpl. destruct (decide (k = physical key)) as [->|Hne].
    + by rewrite lookup_delete_eq.
    + rewrite lookup_delete_ne by done. apply Hx; [done|]. csimpl. rewrite elem_of_cons. naive_solver.
Qed.

Lemma read_same key limit e s :
  undisturbed e → fz_bucket (readArtifactBytes keyPrefix key limit e s).2 = fz_bucket s.
Proof.
  intros He. unfold readArtifactBytes, storage_read. destruct (0 <=? limit)%Z; [|done].
  rewrite fz_bind_run. cbn [fz_require mret fz_ret]. rewrite fz_bind_run, storage_call_undisturbed by done.
  cbn [fst snd]. destruct (GetObject _ _ _ _) as [data|]; [|done]. cbn [stored mret fz_ret].
  rewrite fz_bind_run. simpl. by destruct (_ <=? limit)%Z.
Qed.

Lemma put_staged b0 up key content e b f :
  staged_on e b0 up b → b !! physical key = None → (storage_up e → f = Clean_run) →
  let '(r, b') := PutObject keyPrefix key content f b in
  staged_on e b0 (match r with Ok _ => up ++ [key] | Error _ => up end) b'.
Proof.
  intros (Hk & Hup & Hx) Hb Hf. unfold PutObject. destruct (IsImmutableArtifactKey key) eqn:Hi; [done|].
  assert (b0 !! physical key = None) as Hn.
  { destruct (b0 !! physical key) as [x|] eqn:E; [|done]. apply Hk in E. congruence. }
  assert (∀ k body, b0 !! k = Some body → <[physical key := content]> b !! k = Some body) as Hk'.
  { intros k x Hx'. rewrite lookup_insert_ne by congruence. by apply Hk. }
  destruct f; simpl.
  - split_and!; [done|apply Forall_app; split; [done|by repeat constructor]|].
    intros Hu k Hk0. rewrite fmap_app, not_elem_of_app in Hk0. destruct Hk0 as [Hk0 Hk1].
    rewrite lookup_insert_ne; [by apply Hx|]. intros <-. apply Hk1. set_solver.
  - done.
  - split_and!; [done|done|]. intros Hu. by specialize (Hf Hu).
Qed.

Lemma stage_keeps b0 up key content e s r s' :
  undisturbed e → staged_on e b0 up (fz_bucket s) →
  stage keyPrefix maxAttachmentBytes key content e s = (r, s') →
  staged_on e b0 (match r with Ok true => up ++ [key] | _ => up end) (fz_bucket s').
Proof.
  intros He Hs. unfold stage, storage_read. rewrite fz_bind_run, storage_call_undisturbed by done.
  cbn [fst snd]. unfold StatObject.
  destruct (flt (e (fz_count s)) 0); destruct (fz_bucket s !! physical key) as [body|] eqn:Hb; simpl;
    try (by intros [= <- <-]).
  - rewrite fz_bind_run. pose proof (read_same key maxAttachmentBytes e
      (mkFz (fz_bucket s) (fz_total s) (S (fz_count s))) He) as Hsame. simpl in Hsame.
    destruct (readArtifactBytes _ _ _ _ _) as [[data|err] s1]; simpl in Hsame; [|by intros [= <- <-]; rewrite Hsame].
    destruct (String.eqb _ _); simpl; intros [= <- <-]; by rewrite Hsame.
  - rewrite fz_bind_run, storage_call_undisturbed by done. simpl.
    pose proof (put_staged b0 up key content e (fz_bucket s) (flt (e (S (fz_count s))) 0) Hs Hb (λ Hu, Hu _ _)) as Hp.
    destruct (PutObject _ _ _ _ _) as [[[]|err] b']; simpl in *; by intros [= <- <-].
Qed.

Lemma attach_keeps b0 sp id budget items up spl e s r s' :
  undisturbed e → staged_on e b0 up (fz_bucket s) →
  attach_items keyPrefix maxAttachmentBytes sp id budget items up spl e s = (r, s') →
  staged_on e b0 (match r with Ok (_, up', _) => up' | Error _ => [] end) (fz_bucket s').
Proof.
  intros He. revert budget up spl s r s'.
  induction items as [|it items IH]; intros budget up spl s r s' Hs; cbn [attach_items]; [by intros [= <- <-]|].
  destruct (inlined budget it).
  - rewrite fz_bind_run. destruct (attach_items _ _ _ _ _ items _ _ _ _) as [r1 s1] eqn:E. apply IH in E; [|done].
    destruct r1 as [[[rest u] sl]|]; simpl; by intros [= <- <-].
  - rewrite fz_bind_run. destruct (segment sp); simpl.
    2:{ intros [= <- <-]. by apply deleted_keeps. }
    rewrite fz_bind_run. unfold or_delete. destruct (stage _ _ _ _ _ _) as [r1 s1] eqn:E1.
    apply (stage_keeps b0 up) in E1; [|done..]. destruct r1 as [new|]; simpl; [|intros [= <- <-]; by apply deleted_keeps].
    rewrite fz_bind_run. destruct (attach_items _ _ _ _ _ items _ _ _ _) as [r2 s2] eqn:E. apply IH in E; [|by destruct new].
    destruct r2 as [[[rest u] sl]|]; simpl; by intros [= <- <-].
Qed.

Lemma build_staged sp id zip override cb e s r s' :
  undisturbed e →
  buildSkillAttachmentTree keyPrefix maxAttachmentBytes maxArchiveBytes sp id zip override cb e s = (r, s') →
  staged_on e (fz_bucket s) (match r with Ok (_, up, _, _) => up | Error _ => [] end) (fz_bucket s').
Proof.
  intros He. unfold buildSkillAttachmentTree. rewrite fz_bind_run.
  destruct (zip_open zip) as [files|]; simpl; [|by intros [= <- <-]]. rewrite fz_bind_run.
  destruct (ExtractSkillTree _ _ _ _ _) as [entries|]; simpl; [|by intros [= <- <-]]. rewrite fz_bind_run.
  destruct (match cb with Some _ => _ | None => _ end); simpl; [|by intros [= <- <-]]. rewrite fz_bind_run.
  destruct (tree_items entries override) as [items|]; simpl; [|by intros [= <- <-]]. rewrite fz_bind_run.
  destruct (attach_items _ _ _ _ _ _ _ _ _ _) as [r1 s1] eqn:E.
  apply (attach_keeps (fz_bucket s)) in E; [|done|done]. destruct r1 as [[[rest u] sl]|]; simpl; by intros [= <- <-].
Qed.

(** A build never destroys an object and cleans up after itself. While no
    other request writes the bucket, every object that was there is there
    afterwards with the same bytes, whatever calls fail. A build that fails
    with the storage up leaves the bucket exactly as it was; one that succeeds
    adds only the objects it reports as uploaded, under keys that were free. *)
Theorem build_cleans_up sp id zip override cb e s r s' :
  undisturbed e →
  buildSkillAttachmentTree keyPrefix maxAttachmentBytes maxArchiveBytes sp id zip override cb e s = (r, s') →
  fz_bucket s ⊆ fz_bucket s'
  ∧ (storage_up e → match r with
     | Error _ => fz_bucket s' = fz_bucket s
     | Ok (_, up, _, _) =>
         Forall (λ key, fz_bucket s !! physical key = None) up
         ∧ ∀ k, k ∉ physical <$> up → fz_bucket s' !! k = fz_bucket s !! k
     end).
Proof.
  intros He Hrun. destruct (build_staged _ _ _ _ _ _ _ _ _ He Hrun) as (Hk & Hup & Hx).
  split; [by apply map_subseteq_spec|]. intros Hu. specialize (Hx Hu). destruct r as [[[[atts up] spl] left]|].
  - split; [|done]. eapply Forall_impl; [exact Hup|]. by intros key [].
  - apply map_eq. intros k. apply Hx. by apply not_elem_of_nil.
Qed.
End Cleanup.
