(* ===== verification/Rewriting.v ===== *)
(** * What rewriting an archive changes (service/skill/rewrite.go)

    Theorems about RewriteZipPackage of SkillTree.v: only SKILL.md changes, and
    of it only the frontmatter. *)

From S2P Require Import Prelude GoStrings Model Notify Objects Store Rows CardAction Json Documents VersionArtifacts Zip SkillTree.
From Stdlib Require Import Ascii.
Import Go.
Local Open Scope string_scope.

(** ** Lines *)

Lemma Split_not_nil s c : Split s c ≠ [].
Proof. destruct s as [|a s]; [done|]. simpl. destruct (Ascii.eqb a c); [done|]. by destruct (Split s c). Qed.

Lemma Split_app a b c : Split (a ++ String c b) c = (Split a c ++ Split b c)%list.
Proof.
  induction a as [|x a IH]; [simpl; by rewrite Ascii.eqb_refl|]. rewrite append_cons. simpl.
  destruct (Ascii.eqb x c); [by rewrite IH|]. rewrite IH. pose proof (Split_not_nil a c). by destruct (Split a c).
Qed.

Lemma Join_Split s c : Join (Split s c) (String c "") = s.
Proof.
  induction s as [|a s IH]; [done|]. simpl. pose proof (Split_not_nil s c) as Hn.
  destruct (Ascii.eqb_spec a c) as [->|], (Split s c) as [|h t]; try done.
  - change (String c (Join (h :: t) (String c "")) = String c s). by rewrite IH.
  - rewrite <-IH. by destruct t.
Qed.

Definition opens_block (l : string) : bool := String.eqb (TrimSpace l) "---".

Lemma until_close_app fm rest :
  Forall (λ l, opens_block l = false) fm → until_close (fm ++ "---" :: rest)%list = Some (fm, rest).
Proof. induction 1 as [|l fm Hl _ IH]; [done|]. simpl. unfold opens_block in Hl. rewrite Hl. cbn in IH |- *. by rewrite IH. Qed.

(** A block of lines and a body are found again. *)
Lemma split_block y body :
  Forall (λ l, opens_block l = false) (Split y lf) →
  splitFrontmatterAndBody ("---" ++ String lf (y ++ String lf ("---" ++ String lf body))) = (y, body).
Proof.
  intros Hy. unfold splitFrontmatterAndBody.
  rewrite (Split_append "---") by done. rewrite Split_app, (Split_append "---") by done.
  change (String.eqb (TrimSpace "---") "---") with true. cbn iota. rewrite until_close_app by done.
  by rewrite !Join_Split.
Qed.

(** ** The archive *)

Section Rewriting.
Context `{PackageLaws} `{Crypto}.

Lemma rewrite_entries_ok md newMD files : ∀ i entries,
  rewrite_entries md newMD i files = Some entries →
  Forall2 (λ jf x, x.1 = jf.2 ∧ x.2 = (if (jf.1 =? md)%nat then newMD else if IsDir jf.2 then "" else Stream jf.2))
    (zip (seq i (length files)) files) entries.
Proof.
  induction files as [|f files IH]; intros i entries; [intros [= <-]; constructor|].
  cbn [rewrite_entries]. intros (x & Hx & (rest & Hrest & [= <-])%bind_Some)%bind_Some.
  simpl. constructor; [|by apply IH]. simpl. unfold rewrite_entry, copyZipEntry, readZipEntry in Hx.
  destruct (i =? md)%nat; [by injection Hx as <-|]. destruct (IsDir f); [by injection Hx as <-|].
  destruct (OpenErr f || StreamErr f); [done|]. by injection Hx as <-.
Qed.

(** The frontmatter the rewritten SKILL.md gets. *)
Definition new_yaml (p : RewriteParams) : string :=
  default (buildMinimalYAML p) (yaml_marshal (rewritten_frontmatter p)).

(** The metadata kept: the members of the plugin's own, but for the vendors
    that may not be set; none when nothing is left. *)
Lemma filtered_members v k x :
  (∃ w, filterMetadataVendors v = Some (JObj w) ∧ (k, x) ∈ w)
  ↔ ∃ l, v = JObj l ∧ members_map l !! k = Some x ∧ k ∉ forbiddenMetadataVendors.
Proof.
  split.
  - intros (w & Hf & Hk). destruct v as [| | | | |l]; try done. unfold filterMetadataVendors in Hf.
    destruct (decide _); [done|]. unfold of_map in Hf. injection Hf as <-. exists l. split; [done|].
    rewrite (merge_sort_Permutation key_le), elem_of_map_to_list in Hk. by apply map_lookup_filter_Some in Hk.
  - intros (l & -> & Hk & Hn). assert (filter (λ kv, kv.1 ∉ forbiddenMetadataVendors) (members_map l) !! k = Some x) as Hl
      by (by apply map_lookup_filter_Some).
    unfold filterMetadataVendors. rewrite decide_False by (intros E; by rewrite E in Hl). eexists. split; [done|].
    by rewrite (merge_sort_Permutation key_le), elem_of_map_to_list.
Qed.
Lemma filtered_object v w : filterMetadataVendors v = Some w → ∃ k x l, w = JObj l ∧ (k, x) ∈ l.
Proof.
  destruct v as [| | | | |l]; try done. unfold filterMetadataVendors.
  set (m := filter _ (members_map l)). destruct (decide (m = ∅)) as [|Hm]; [done|]. intros [= <-].
  apply map_choose in Hm as (k & x & Hk). exists k, x. eexists. split; [done|].
  by rewrite (merge_sort_Permutation key_le), elem_of_map_to_list.
Qed.

(** The frontmatter written, field by field: the plugin's identity; its
    metadata without a forbidden vendor, none rather than an empty one; no
    reserved field; and every field of no meaning here as it was uploaded. *)
Record plugin_identity (p : RewriteParams) (fm : gmap string json) : Prop := {
  pi_name : fm !! "name" = Some (JStr (rw_name p));
  pi_description : fm !! "description" = Some (JStr (rw_desc p));
  pi_version : fm !! "version" = Some (JStr (rw_version p));
  pi_id : fm !! "id" = (if decide (rw_id p = "") then None else Some (JStr (rw_id p)));
  pi_tags : fm !! "tags" = (if decide (rw_tags p = []) then None else Some (JArr (JStr <$> rw_tags p)));
  pi_forked_from : fm !! "forked_from"
    = (if decide (rw_forked_from p = "") then None else Some (JStr (rw_forked_from p)));
  pi_reserved : fm !! "space_id" = None ∧ fm !! "source_slug" = None;
  pi_metadata k x : (∃ w, fm !! "metadata" = Some (JObj w) ∧ (k, x) ∈ w)
    ↔ ∃ raw l, rw_metadata p = Some raw ∧ raw !! "metadata" = Some (JObj l)
               ∧ members_map l !! k = Some x ∧ k ≠ "octo";
  pi_metadata_shape v : fm !! "metadata" = Some v → ∃ k x w, v = JObj w ∧ (k, x) ∈ w;
  pi_others k : k ∉ knownBusinessFields → k ≠ "metadata" → fm !! k = m ← rw_metadata p; m !! k
}.

Lemma vendor_lookup p k :
  default ∅ (vendor_fields <$> rw_metadata p) !! k
  = (m ← rw_metadata p; v ← m !! k; if mem k knownBusinessFields then None
                   else if String.eqb k "metadata" then filterMetadataVendors v else Some v).
Proof. destruct (rw_metadata p) as [m|]; simpl; [|apply lookup_empty]. unfold vendor_fields. by rewrite map_lookup_imap. Qed.

Lemma rewritten_field p k :
  k ∉ ["name"; "description"; "version"; "tags"; "id"; "forked_from"; "source_slug"; "space_id"] →
  rewritten_frontmatter p !! k = default ∅ (vendor_fields <$> rw_metadata p) !! k.
Proof.
  intros Hk. unfold rewritten_frontmatter. cbv zeta. rewrite !elem_of_cons in Hk.
  assert (k ≠ "name" ∧ k ≠ "description" ∧ k ≠ "version" ∧ k ≠ "tags" ∧ k ≠ "id" ∧ k ≠ "forked_from"
          ∧ k ≠ "source_slug" ∧ k ≠ "space_id") as (?&?&?&?&?&?&?&?) by naive_solver.
  destruct (rw_tags p), (String.eqb (rw_id p) ""), (String.eqb (rw_forked_from p) "");
    by rewrite ?lookup_delete_ne, ?lookup_insert_ne, ?lookup_delete_ne, ?lookup_insert_ne by done.
Qed.

Lemma rewritten_identity p : plugin_identity p (rewritten_frontmatter p).
Proof.
  assert (∀ k, k = "id" ∨ k = "name" → default ∅ (vendor_fields <$> rw_metadata p) !! k = None) as Hid.
  { intros k Hk. rewrite vendor_lookup. destruct (rw_metadata p) as [m|]; [|done]. simpl. destruct (m !! k); [|done].
    by destruct Hk as [->| ->]. }
  assert ("metadata" ∉ ["name"; "description"; "version"; "tags"; "id"; "forked_from"; "source_slug"; "space_id"]) as Hmeta
    by (by apply (bool_decide_unpack _)).
  assert (rewritten_frontmatter p !! "metadata" = m ← rw_metadata p; v ← m !! "metadata"; filterMetadataVendors v) as Hm.
  { rewrite rewritten_field by exact Hmeta. by rewrite vendor_lookup. }
  pose proof (Hid "id" (or_introl eq_refl)) as Hid'. split.
  7: split.
  1-8: unfold rewritten_frontmatter; cbv zeta; rewrite <-?String.eqb_spec;
    destruct (rw_tags p), (String.eqb_spec (rw_id p) ""), (String.eqb_spec (rw_forked_from p) "");
    rewrite ?decide_True, ?decide_False by done; by simplify_map_eq.
  - intros k x. rewrite Hm. destruct (rw_metadata p) as [m|]; [|by naive_solver]. simpl.
    destruct (m !! "metadata") as [v|] eqn:E; [|naive_solver]. simpl. rewrite filtered_members. split.
    + intros (l & -> & Hk & Hn). exists m, l. split_and!; try done. intros ->. apply Hn. left.
    + intros (? & l & [= <-] & E' & Hk & Hn). rewrite E in E'. injection E' as ->. exists l. split_and!; [done|done|].
      intros Hin%list_elem_of_singleton. done.
  - intros v. rewrite Hm. destruct (rw_metadata p) as [m|]; [|done]. simpl. destruct (m !! "metadata") as [u|]; [|done]. simpl.
    intros (k & x & l & Hl)%filtered_object. by exists k, x, l.
  - intros k Hk Hne. rewrite rewritten_field by exact Hk. rewrite vendor_lookup.
    destruct (rw_metadata p) as [m|]; [|done]. simpl. destruct (m !! k); [|done]. simpl.
    assert (mem k knownBusinessFields = false) as -> by (by apply mem_false).
    by rewrite (proj2 (String.eqb_neq _ _)).
Qed.

(** The entry that is rewritten: the first at the root, or else the first one
    directory deep. *)
Definition skill_entry (files : list File) (md : nat) : Prop :=
  (∃ f, files !! md = Some f ∧ isRootSkillMD (FileName f) = true
     ∧ Forall (λ g, isRootSkillMD (FileName g) = false) (firstn md files))
  ∨ (Forall (λ g, isRootSkillMD (FileName g) = false) files
     ∧ ∃ f, files !! md = Some f ∧ isOneLevelSkillMD (FileName f) = true
     ∧ Forall (λ g, isOneLevelSkillMD (FileName g) = false) (firstn md files)).

Lemma find_md_ok seen rest one md :
  Forall (λ g, isRootSkillMD (FileName g) = false) seen →
  match one with
  | Some i => ∃ f, seen !! i = Some f ∧ isOneLevelSkillMD (FileName f) = true
                ∧ Forall (λ g, isOneLevelSkillMD (FileName g) = false) (firstn i seen)
  | None => Forall (λ g, isOneLevelSkillMD (FileName g) = false) seen
  end →
  find_md (length seen) one rest = Some md → skill_entry (seen ++ rest)%list md.
Proof.
  revert seen one. induction rest as [|f rest IH]; intros seen one Hroot Hone; cbn [find_md].
  { intros ->. rewrite app_nil_r. right. split; [done|exact Hone]. }
  destruct (isRootSkillMD (FileName f)) eqn:Ef.
  { intros [= <-]. left. exists f. rewrite list_lookup_middle, take_app_length by done. done. }
  rewrite (cons_middle f seen rest), (assoc_L (++)%list).
  replace (S (length seen)) with (length (seen ++ [f])%list) by (rewrite length_app; simpl; lia).
  apply IH; [apply Forall_app; split; [done|by repeat constructor]|].
  destruct one as [i|]; simpl.
  - destruct Hone as (g & Hg & H1' & H2'). exists g. split_and!; [by apply lookup_app_l_Some|done|].
    apply lookup_lt_Some in Hg. rewrite take_app_le by lia. done.
  - destruct (isOneLevelSkillMD (FileName f)) eqn:E1.
    + exists f. rewrite list_lookup_middle, take_app_length by done. done.
    + apply Forall_app. split; [done|by repeat constructor].
Qed.

Definition numbered (files : list File) : list (nat * File) := zip (seq 0 (length files)) files.
(** The entry [g] written for the [i]-th entry [f]. *)
Definition kept_but (md : nat) (newMD : string) (jf : nat * File) (g : File) : Prop :=
  FileName g = FileName jf.2 ∧ IsDir g = IsDir jf.2 ∧ IsSymlink g = IsSymlink jf.2
  ∧ Stream g = (if (jf.1 =? md)%nat then newMD else if IsDir jf.2 then "" else Stream jf.2).

(** C37: rewriting changes SKILL.md and nothing else. A rewritten archive has the
    entries of the uploaded one, in their order, under their names, each with
    its bytes, but for the SKILL.md, the first at the root or else the
    first one directory deep; the size and digest reported are those of the archive written. The
    new SKILL.md is a frontmatter block and the body of the old one. The frontmatter
    has the name, description, version, identifier, tags and origin of the plugin,
    no Space, no source slug, under the metadata key the uploaded members but the
    forbidden vendor, and every other field as uploaded; and when none of its
    lines is a delimiter, reading the new SKILL.md gives that frontmatter and exactly
    the body of the old one. *)
Theorem rewrite_changes_only_skill_md zip p r :
  RewriteZipPackage zip p = Some r →
  ∃ files md f files',
    zip_open zip = Some files ∧ skill_entry files md ∧ files !! md = Some f
    ∧ zip_open (ZipBytes r) = Some files' ∧ ZipSize r = blen (ZipBytes r) ∧ ZipSHA256 r = sha256_hex (ZipBytes r)
    ∧ Forall2 (kept_but md (SkillMD r)) (numbered files) files'
    ∧ plugin_identity p (rewritten_frontmatter p)
    ∧ SkillMD r = "---" ++ String lf "" ++ new_yaml p ++ "---" ++ String lf ""
                  ++ (splitFrontmatterAndBody (Stream f)).2
    ∧ ∀ y, new_yaml p = y ++ String lf "" → Forall (λ l, opens_block l = false) (Split y lf) →
        splitFrontmatterAndBody (SkillMD r) = (y, (splitFrontmatterAndBody (Stream f)).2).
Proof.
  unfold RewriteZipPackage.
  intros (files & Hopen & (md & Hmd & (f & Hf & (orig & Horig & Hrun)%bind_Some)%bind_Some)%bind_Some)%bind_Some.
  cbv zeta in Hrun. apply bind_Some in Hrun as (entries & He & (data & Hw & [= <-])%bind_Some).
  assert (orig = Stream f) as -> by (unfold readZipEntry in Horig; destruct (OpenErr f || StreamErr f); by simplify_eq).
  assert (buildRewrittenSkillMD (Stream f) p
          = "---" ++ String lf "" ++ new_yaml p ++ "---" ++ String lf "" ++ (splitFrontmatterAndBody (Stream f)).2) as Hmdnew
    by (unfold buildRewrittenSkillMD; by destruct (splitFrontmatterAndBody (Stream f))).
  exists files, md, f, (written <$> entries). split; [done|]. split; [by apply (find_md_ok [] files None md)|].
  split; [done|]. split; [by apply zip_read_back|]. do 2 (split; [done|]).
  split; [|split; [apply rewritten_identity|split; [exact Hmdnew|]]].
  - apply rewrite_entries_ok in He. apply Forall2_fmap_r. eapply Forall2_impl; [exact He|].
    intros [j g] [h d] [Hh Hd]. simpl in Hh, Hd. subst h d. by split_and!.
  - intros y Hy Hl. cbn [SkillMD]. rewrite Hmdnew, Hy, append_assoc. by apply split_block.
Qed.
End Rewriting.
