(* ===== verification/Auth.v ===== *)
(** * Authentication: internal/auth, internal/middleware, and the caller

    How a request gets the identity its operations run under: octo-server's
    answer to a session token, the cache in front of it, the public and the
    administrative middleware, and the caller built for the service layer. *)

From S2P Require Import Prelude GoStrings Model Notify.
From Stdlib Require Import Ascii.
Import Go.
Local Open Scope string_scope.

(** ** Resolvers (auth/resolver.go, auth/bot_resolver.go) *)

(** What an exchange with octo-server yields: no reply, or a status and the
    decoded body ([None] when it does not decode). *)
Inductive Reply (A : Type) := NoReply | Replied (status : Z) (body : option A).
Arguments NoReply {A}.
Arguments Replied {A} _ _.

Definition no_identity : Identity := mkIdentity "" "" "" [] ∅ ∅ false.
Definition no_bot : BotIdentity := mkBotIdentity "" "" "" "" "".

Definition set_roles (roles : gmap string Z) (i : Identity) : Identity :=
  mkIdentity (UID i) (IdName i) (Role i) (Spaces i) (OwnedBotsBySpace i) roles (ContextIncluded i).

Definition clampSpaceRoles (roles : gmap string Z) : gmap string Z :=
  (λ v, (ClampSpaceRole v).1) <$> roles.

Definition clamp_identity (i : Identity) : Identity := set_roles (clampSpaceRoles (SpaceRoles i)) i.

Definition HTTPResolve (reply : string → Reply Identity) (token : string) : result string Identity :=
  if String.eqb token "" then Ok no_identity
  else match reply token with
       | NoReply => Error "verify token"
       | Replied status body =>
           if (status =? 401)%Z then Ok no_identity
           else if negb (status =? 200)%Z then Error "verify token returned status"
           else match body with
                | None => Error "decode verify response"
                | Some i => Ok (clamp_identity i)
                end
       end.

Definition ResolveBot (reply : string → Reply BotIdentity) (token : string) : result string BotIdentity :=
  if String.eqb token "" then Ok no_bot
  else match reply token with
       | NoReply => Error "verify bot token"
       | Replied status body =>
           if (status =? 401)%Z then Ok no_bot
           else if negb (status =? 200)%Z then Error "verify bot token returned status"
           else match body with None => Error "decode bot verify response" | Some b => Ok b end
       end.

(** What the middleware relies on: every identity a resolver returns with a UID
    is one octo-server asserted for that token, its roles clamped. *)
Class Resolver := {
  Resolve : string → result string Identity;
  asserted : string → Identity → Prop;
  resolve_asserted : ∀ token i, Resolve token = Ok i → UID i ≠ "" →
    ∃ raw, asserted token raw ∧ i = clamp_identity raw
}.

Lemma http_asserted reply token i :
  HTTPResolve reply token = Ok i → UID i ≠ "" →
  ∃ raw, reply token = Replied 200 (Some raw) ∧ i = clamp_identity raw.
Proof.
  unfold HTTPResolve. destruct (String.eqb token ""); [by intros [= <-]|].
  destruct (reply token) as [|st [raw|]]; [done|..]; destruct (Z.eqb_spec st 401);
    try (by intros [= <-]); destruct (Z.eqb_spec st 200); try done; simpl.
  intros [= <-] _. subst. by exists raw.
Qed.

Definition http_resolver (reply : string → Reply Identity) : Resolver := {|
  Resolve := HTTPResolve reply;
  asserted token raw := reply token = Replied 200 (Some raw);
  resolve_asserted := http_asserted reply
|}.

(** ** The cache (auth/cached_resolver.go) *)

Record cacheEntry := mkEntry { ce_identity : Identity; ce_expires : Z }.
Abbreviation cache := (gmap string cacheEntry).

(** The first critical section: a live entry, or the entry dropped. *)
Definition cache_lookup (now : Z) (token : string) (c : cache) : option Identity * cache :=
  match c !! token with
  | Some en => if (now <? ce_expires en)%Z then (Some (ce_identity en), c) else (None, delete token c)
  | None => (None, delete token c)
  end.

(** The eviction loop, over the keys in the order the map yields them. *)
Definition evict (maxSize now : Z) (order : list string) (c : cache) : cache :=
  foldl (λ c k, match c !! k with
                | Some en => if (ce_expires en <? now)%Z || (maxSize <=? Z.of_nat (size c))%Z
                             then delete k c else c
                | None => c
                end) c order.

Definition make_room (maxSize now : Z) (order : list string) (c : cache) : cache :=
  if ((0 <? maxSize) && (maxSize <=? Z.of_nat (size c)))%Z then evict maxSize now order c else c.

(** The second critical section, after the inner resolver answered [i]. *)
Definition cache_store (ttl maxSize now : Z) (order : list string) (token : string) (i : Identity)
    (c : cache) : cache :=
  <[token := mkEntry i (now + ttl)]> (make_room maxSize now order c).

Section Cached.
Context (reply : Z → string → Reply Identity) (ttl maxSize : Z).

(** The cache under concurrent requests: the clock advances; a request looks a
    token up; a request that missed at [started] and was answered at [t] by the
    inner resolver stores the answer. *)
Record World := mkWorld { w_clock : Z; w_entries : cache }.

Inductive wstep : World → World → Prop :=
| w_tick w t : (w_clock w ≤ t)%Z → wstep w (mkWorld t (w_entries w))
| w_lookup w token :
    wstep w (mkWorld (w_clock w) (cache_lookup (w_clock w) token (w_entries w)).2)
| w_store w token started t i order :
    (started ≤ t ≤ w_clock w)%Z → HTTPResolve (reply t) token = Ok i → UID i ≠ "" →
    order ≡ₚ (map_to_list (w_entries w)).*1 →
    wstep w (mkWorld (w_clock w) (cache_store ttl maxSize started order token i (w_entries w))).

Definition started_at (t0 : Z) : World := mkWorld t0 ∅.
Definition reached (w : World) : Prop := ∃ t0, rtc wstep (started_at t0) w.

(** Every entry is an answer of the inner resolver, no older than [ttl] when it
    expires, and with a bound the cache is bounded. *)
Definition cache_ok (w : World) : Prop :=
  (∀ token en, w_entries w !! token = Some en → UID (ce_identity en) ≠ "" ∧
     ∃ t, (ce_expires en - ttl ≤ t ≤ w_clock w)%Z ∧ HTTPResolve (reply t) token = Ok (ce_identity en))
  ∧ ((0 < maxSize)%Z → (Z.of_nat (size (w_entries w)) ≤ maxSize)%Z).

Lemma evict_subseteq now order c : evict maxSize now order c ⊆ c.
Proof.
  unfold evict. revert c. induction order as [|k order IH]; intros c; simpl; [done|].
  etrans; [apply IH|]. destruct (c !! k); [|done]. case_match; [apply delete_subseteq|done].
Qed.

(** One pass over all keys makes room. *)
Lemma evict_room now order c :
  (0 < maxSize)%Z → (∀ k, is_Some (c !! k) → k ∈ order) → NoDup order →
  (Z.of_nat (size c) ≤ maxSize)%Z → (Z.of_nat (size (evict maxSize now order c)) < maxSize)%Z.
Proof.
  intros Hpos. revert c. unfold evict. induction order as [|k order IH]; intros c Hall Hnd Hsz; simpl.
  - assert (c = ∅) as ->; [|rewrite map_size_empty; lia].
    apply map_empty. intros k. destruct (c !! k) eqn:E; [|done].
    specialize (Hall k ltac:(eauto)). set_solver.
  - apply NoDup_cons in Hnd as [Hk Hnd].
    destruct (decide (Z.of_nat (size c) < maxSize)%Z) as [Hlt|Hge].
    + pose proof (map_subseteq_size _ _ (evict_subseteq now (k :: order) c)) as Hs.
      unfold evict in Hs. simpl in Hs. lia.
    + destruct (c !! k) as [en|] eqn:E.
      * assert ((maxSize <=? Z.of_nat (size c))%Z = true) as -> by lia. rewrite orb_true_r.
        pose proof (map_size_delete_Some k c ltac:(eauto)).
        pose proof (map_subseteq_size _ _ (evict_subseteq now order (delete k c))) as Hs.
        assert (0 < size c)%nat by (destruct (size c) eqn:Ez; [|lia]; by apply map_size_empty_iff in Ez as ->).
        unfold evict in Hs. lia.
      * apply IH; [|done|done]. intros k' Hk'. specialize (Hall k' Hk').
        apply elem_of_cons in Hall as [->|]; [|done]. rewrite E in Hk'. by destruct Hk'.
Qed.

Lemma cache_ok_step w w' : cache_ok w → wstep w w' → cache_ok w'.
Proof.
  intros [Hen Hsz]. destruct 1 as [w t Ht|w token|w token started t i order Ht Hi Hu Hord]; simpl.
  - split; [|done]. intros token en E. destruct (Hen _ _ E) as (? & t' & ? & ?).
    split; [done|]. exists t'. simpl. split; [lia|done].
  - assert ((cache_lookup (w_clock w) token (w_entries w)).2 ⊆ w_entries w) as Hsub.
    { unfold cache_lookup. repeat case_match; simpl; try done; apply delete_subseteq. }
    split; simpl.
    + intros k en E. apply Hen. by eapply lookup_weaken.
    + intros Hp. pose proof (map_subseteq_size _ _ Hsub). specialize (Hsz Hp). lia.
  - unfold cache_store. set (c := make_room _ _ _ _).
    assert (c ⊆ w_entries w) as Hsub by (unfold c, make_room; case_match; [apply evict_subseteq|done]).
    split; simpl.
    + intros k en. rewrite lookup_insert. case_decide; [|intros E; apply Hen; by eapply lookup_weaken].
      intros [= <-]. simpl. subst k. split; [done|]. exists t. split; [lia|done].
    + intros Hp. specialize (Hsz Hp). rewrite map_size_insert.
      pose proof (map_subseteq_size _ _ Hsub). destruct (c !! token); simpl; [lia|].
      unfold c, make_room. destruct (0 <? maxSize)%Z eqn:E0; [|lia]. simpl.
      destruct (maxSize <=? Z.of_nat (size (w_entries w)))%Z eqn:E; [|lia].
      pose proof (evict_room started order (w_entries w) Hp) as Hr.
      assert (Z.of_nat (size (evict maxSize started order (w_entries w))) < maxSize)%Z; [|lia].
      apply Hr; [| |lia].
      * intros k' [en Hk']. rewrite Hord. apply list_elem_of_fmap. exists (k', en). split; [done|].
        by apply elem_of_map_to_list.
      * rewrite Hord. apply NoDup_fst_map_to_list.
Qed.

Lemma reached_ok w : reached w → cache_ok w.
Proof.
  intros [t0 Hr]. assert (cache_ok (started_at t0)) as H0.
  { split; simpl; [done|]. rewrite map_size_empty. lia. }
  revert H0. induction Hr as [|x y z Hxy _ IH]; [done|]. intros Hx. apply IH. by eapply cache_ok_step.
Qed.

(** [CachedResolver.Resolve] at [w]: the live entry, or the inner resolver's
    answer at a later [t]. *)
Definition CachedResolve (w : World) (t : Z) (token : string) : result string Identity :=
  match (cache_lookup (w_clock w) token (w_entries w)).1 with
  | Some i => Ok i
  | None => HTTPResolve (reply t) token
  end.

(** Octo-server asserted [raw] for [token] within the last time-to-live. *)
Definition asserted_within (w : World) (t : Z) (token : string) (raw : Identity) : Prop :=
  ∃ t', (w_clock w - ttl < t' ≤ t)%Z ∧ reply t' token = Replied 200 (Some raw).

Lemma cached_asserted w t token i :
  reached w → (0 < ttl)%Z → (w_clock w ≤ t)%Z →
  CachedResolve w t token = Ok i → UID i ≠ "" →
  ∃ raw, asserted_within w t token raw ∧ i = clamp_identity raw.
Proof.
  intros Hw Httl Ht Hr Hu. apply reached_ok in Hw as [Hen _]. revert Hr.
  assert (HTTPResolve (reply t) token = Ok i → ∃ raw, asserted_within w t token raw ∧ i = clamp_identity raw) as Hmiss.
  { intros Hi. destruct (http_asserted _ _ _ Hi Hu) as (raw & ? & ?). exists raw.
    split; [exists t; split; [lia|done]|done]. }
  unfold CachedResolve, cache_lookup. destruct (w_entries w !! token) as [en|] eqn:E; [|done].
  destruct (Z.ltb_spec (w_clock w) (ce_expires en)); [|done]. simpl. intros [= <-].
  destruct (Hen _ _ E) as (_ & t' & Ht' & Hrep).
  destruct (http_asserted _ _ _ Hrep Hu) as (raw & ? & ?). exists raw.
  split; [exists t'; split; [lia|done]|done].
Qed.

(** C34: the cache refines the resolver it wraps. Along every interleaving of
    concurrent requests, an identity it returns is octo-server's answer for that
    very token, given less than one time-to-live ago, with the roles clamped;
    errors and unknown tokens come from octo-server itself and are never
    cached; and with a bound the cache never exceeds it. *)
Theorem cached_resolver_fresh w t token :
  reached w → (0 < ttl)%Z → (w_clock w ≤ t)%Z →
  match CachedResolve w t token with
  | Ok i => if decide (UID i = "") then HTTPResolve (reply t) token = Ok i
            else ∃ raw, asserted_within w t token raw ∧ i = clamp_identity raw
  | Error err => HTTPResolve (reply t) token = Error err
  end
  ∧ ((0 < maxSize)%Z → (Z.of_nat (size (w_entries w)) ≤ maxSize)%Z).
Proof.
  intros Hw Httl Ht. split; [|by apply reached_ok].
  destruct (CachedResolve w t token) as [i|err] eqn:E.
  - case_decide as Hu; [|by apply cached_asserted].
    apply reached_ok in Hw as [Hen _]. revert E. unfold CachedResolve, cache_lookup.
    destruct (w_entries w !! token) as [en|] eqn:Ee; [|done].
    destruct (_ <? _)%Z; [|done]. simpl. intros [= <-]. by destruct (Hen _ _ Ee) as [? _].
  - revert E. unfold CachedResolve, cache_lookup. by repeat case_match.
Qed.

Definition cached_resolver w t (Hw : reached w) (Httl : (0 < ttl)%Z) (Ht : (w_clock w ≤ t)%Z) : Resolver := {|
  Resolve := CachedResolve w t;
  asserted := asserted_within w t;
  resolve_asserted := λ token i, cached_asserted w t token i Hw Httl Ht
|}.

End Cached.

(** ** The public middleware (middleware/auth.go) *)

Record Headers := mkHeaders { h_token : string; h_authorization : string; h_space_id : string }.

Definition requestToken (h : Headers) : string :=
  let token := TrimSpace (h_token h) in
  if negb (String.eqb token "") then token
  else
    let authorization := TrimSpace (h_authorization h) in
    if (7 <? String.length authorization)%nat && EqualFold (take 7 authorization) "bearer "
    then TrimSpace (drop 7 authorization) else "".

(** What a middleware leaves on the request, or the answer it aborts with. *)
Record AuthContext := mkContext {
  cx_identity : Identity;
  cx_space : string;
  cx_bot : option BotIdentity
}.
Inductive Authenticated := Pass (c : AuthContext) | Abort (status : Z) (code : string).

Definition resolveUserIdentity (resolver : option Resolver) (token : string) : result (Z * string) Identity :=
  match resolver with
  | None => Error (503%Z, "UPSTREAM_UNAVAILABLE")
  | Some r =>
      match @Resolve r token with
      | Error _ => Error (503%Z, "UPSTREAM_UNAVAILABLE")
      | Ok i => if String.eqb (UID i) "" then Error (401%Z, "AUTH_REQUIRED")
                else if negb (ContextIncluded i) then Error (503%Z, "UPSTREAM_UNAVAILABLE")
                else Ok i
      end
  end.

Record Authenticator := mkAuthenticator {
  a_enabled : bool;
  a_resolver : option Resolver;
  a_bot_resolver : option (string → result string BotIdentity);
  a_dev_identity : Identity;
  a_dev_space : string
}.

Definition devIdentityFor (a : Authenticator) (spaceID : string) : Identity :=
  let i := a_dev_identity a in
  if String.eqb spaceID "" then i
  else match SpaceRoles i !! spaceID with
       | Some _ => i
       | None => match SpaceRoles i !! a_dev_space a with
                 | Some role => set_roles (<[spaceID := role]> (SpaceRoles i)) i
                 | None => i
                 end
       end.

Definition authenticateBot (a : Authenticator) (token : string) : Authenticated :=
  match a_bot_resolver a with
  | None => Abort 503 "UPSTREAM_UNAVAILABLE"
  | Some resolve =>
      match resolve token with
      | Error _ => Abort 503 "UPSTREAM_UNAVAILABLE"
      | Ok bot =>
          if String.eqb (BotUID bot) "" || String.eqb (BotOwnerUID bot) "" || String.eqb (BotSpaceID bot) ""
          then Abort 401 "AUTH_REQUIRED"
          else Pass (mkContext
                 (mkIdentity (BotOwnerUID bot) (BotOwnerName bot) "" [BotSpaceID bot] ∅ ∅ true)
                 (BotSpaceID bot) (Some bot))
      end
  end.

Definition Handler (a : Authenticator) (h : Headers) : Authenticated :=
  if negb (a_enabled a) then
    let spaceID := TrimSpace (h_space_id h) in
    let spaceID := if String.eqb spaceID "" then a_dev_space a else spaceID in
    Pass (mkContext (devIdentityFor a spaceID) spaceID None)
  else
    let token := requestToken h in
    if String.eqb token "" then Abort 401 "AUTH_REQUIRED"
    else if HasPrefix token "bf_" then authenticateBot a token
    else match resolveUserIdentity (a_resolver a) token with
         | Error (status, code) => Abort status code
         | Ok i =>
             let spaceID := TrimSpace (h_space_id h) in
             if String.eqb spaceID "" then Abort 400 "VALIDATION_ERROR"
             else if negb (existsb (String.eqb spaceID) (Spaces i)) then Abort 403 "FORBIDDEN"
             else Pass (mkContext i spaceID None)
         end.

(** ** The administrative middleware (middleware/admin.go) *)

Definition RoleSuperAdmin : string := "superAdmin".
Definition RoleMarketAdmin : string := "marketAdmin".

Definition roleAdmitted (role : string) (alsoAllow : list string) : bool :=
  String.eqb role RoleSuperAdmin
  || existsb (λ allowed, negb (String.eqb allowed "") && String.eqb role allowed) alsoAllow.

Record AdminAuthenticator := mkAdmin {
  ad_enabled : bool;
  ad_resolver : option Resolver;
  ad_dev_identity : Identity
}.

(** [None]: the constructor panics. *)
Definition NewAdminAuthenticator (authEnabled : bool) (resolver : option Resolver) (dev : Identity)
    : option AdminAuthenticator :=
  match authEnabled, resolver with
  | true, None => None
  | _, _ =>
      Some (mkAdmin authEnabled resolver
        (mkIdentity (if String.eqb (UID dev) "" then "admin" else UID dev)
           (if String.eqb (IdName dev) "" then "Admin" else IdName dev)
           (Role dev) (Spaces dev) (OwnedBotsBySpace dev) (SpaceRoles dev) (ContextIncluded dev)))
  end.

Definition AdminHandler (a : AdminAuthenticator) (alsoAllow : list string) (h : Headers) : Authenticated :=
  if negb (ad_enabled a) then Pass (mkContext (ad_dev_identity a) "" None)
  else
    let token := requestToken h in
    if String.eqb token "" then Abort 401 "AUTH_REQUIRED"
    else match resolveUserIdentity (ad_resolver a) token with
         | Error (status, code) => Abort status code
         | Ok i => if negb (roleAdmitted (Role i) alsoAllow) then Abort 403 "FORBIDDEN"
                    else Pass (mkContext i "" None)
         end.
