(* ===== verification/ReviewApi.v ===== *)
(** * Review endpoints: internal/api/handler/plugin

    The caller built from an authenticated request, the translation of service
    errors to HTTP, and the endpoints that decide, withdraw, take down and set
    the policy, composed from the middleware down to the repository. *)

From S2P Require Import Prelude GoStrings Model Notify Store Rows Review Listing Operations Lifecycle Service CardAction ReviewService Auth.
Import Go.
Local Open Scope string_scope.

(** ** Responses *)

(** The status, the wire code and the [reason] or [conflict_reason] of a
    failure; the data of a success is not modelled. *)
Record Failure := mkFailure { f_status : Z; f_code : string; f_reason : string }.
#[export] Instance Failure_eq_dec : EqDecision Failure.
Proof. solve_decision. Defined.

Definition unauthorized : Failure := mkFailure 401 "AUTH_REQUIRED" "invalid".
Definition validation : Failure := mkFailure 400 "VALIDATION_ERROR" "invalid".

Definition writeServiceError (err : SvcErr) : Failure :=
  match err with
  | SErrField _ reason => mkFailure 400 "VALIDATION_ERROR" reason
  | SErrInvalidRequest | SErrReviewInvalid | SErrReasonRequired => validation
  | SErrReviewContentRequired => mkFailure 400 "VALIDATION_ERROR" "required"
  | SErrVersionRegressed => mkFailure 400 "VALIDATION_ERROR" "must_not_decrease"
  | SErrLabelTaken => mkFailure 409 "CONFLICT" "label_taken"
  | SErrListedRequiresReview => mkFailure 409 "CONFLICT" "listed_requires_review"
  | SErrReviewPending => mkFailure 409 "CONFLICT" "review_pending"
  | SErrAlreadyPublished => mkFailure 409 "CONFLICT" "already_published"
  | SErrNotPublished => mkFailure 409 "CONFLICT" "not_published"
  | SErrReviewPolicyForbidden | SErrReviewForbidden => mkFailure 403 "FORBIDDEN" ""
  | SErrNotFound => mkFailure 404 "NOT_FOUND" ""
  | SErrGraphTooLarge => mkFailure 413 "PAYLOAD_TOO_LARGE" ""
  | SErrRelationInUse => mkFailure 409 "CONFLICT" "relation_in_use"
  | SErrNameTaken => mkFailure 409 "DUPLICATE" "name_taken"
  | SErrConflict => mkFailure 409 "CONFLICT" "state"
  | SErrDeadlock => mkFailure 409 "CONFLICT" "deadlock"
  | SErrDependencyHidden | SErrCardBadDecision | SErrNotify _ | SErrStore _ | SErrOther _ => mkFailure 500 "INTERNAL_ERROR" ""
  end.

(** ** The caller (handler.go) *)

Definition caller (cx : AuthContext) (requestID : string) : option Caller :=
  let i := cx_identity cx in
  let spaceID := cx_space cx in
  if String.eqb (UID i) "" || String.eqb spaceID "" then None
  else
    let system := String.eqb (Role i) RoleSuperAdmin in
    let role := SpaceRole i spaceID in
    let role := if system && (role <? SpaceRoleOwner)%Z then SpaceRoleOwner else role in
    Some (mkCaller (UID i) (IdName i) spaceID
            (default "" (BotUID <$> cx_bot cx)) (default "" (BotName <$> cx_bot cx))
            requestID system role).

(** [adminCaller] (admin.go) *)
Definition adminCaller (cx : AuthContext) (requestID : string) : option Caller :=
  let i := cx_identity cx in
  if String.eqb (UID i) "" then None
  else Some (mkCaller (UID i) (IdName i) "" "" "" requestID true 0).

Section ReviewApi.
Context `{Host}.

(** ** The endpoints (review.go, listing.go, review_policy.go) *)

(** A decoded request: the path's review, and the body when the endpoint reads
    one ([None] when it does not decode). *)
Inductive ReviewRequest :=
| RApprove (reviewID : string)
| RReject (reviewID : string) (body : option string)
| RCancel (reviewID : string)
| RDelist (body : option (string * string))
| RPolicy (body : option (option bool)).

Definition parse_request (r : ReviewRequest) : result Failure WebOp :=
  match r with
  | RApprove id => if String.eqb (TrimSpace id) "" then Error validation else Ok (WApprove (TrimSpace id))
  | RReject id body =>
      if String.eqb (TrimSpace id) "" then Error validation
      else match body with None => Error validation | Some reason => Ok (WReject (TrimSpace id) reason) end
  | RCancel id => if String.eqb (TrimSpace id) "" then Error validation else Ok (WCancel (TrimSpace id))
  | RDelist body => match body with None => Error validation | Some (id, reason) => Ok (WDelist id reason) end
  | RPolicy (Some (Some enabled)) => Ok (WPolicy enabled)
  | RPolicy _ => Error validation
  end.

(** One request through the middleware, the handler and the service. *)
Definition serve (a : Authenticator) (h : Headers) (requestID : string) (r : ReviewRequest)
    : Svc (result Failure unit) :=
  match Handler a h with
  | Abort status code => mret (Error (mkFailure status code ""))
  | Pass cx =>
      match caller cx requestID with
      | None => mret (Error unauthorized)
      | Some c =>
          match parse_request r with
          | Error f => mret (Error f)
          | Ok o =>
              answer ← try (web_op c o);
              mret (match answer with Ok _ => Ok tt | Error err => Error (writeServiceError err) end)
          end
      end
  end.

(** ** Authority *)

(** What octo-server vouches for when a user's request passes: it asserted the
    identity for the token of the request, as a member of the Space named. *)
Definition vouched (a : Authenticator) (h : Headers) (raw : Identity) : Prop :=
  ∃ r, a_resolver a = Some r ∧ asserted (requestToken h) raw
  ∧ TrimSpace (h_space_id h) ∈ Spaces raw ∧ ContextIncluded raw = true.

Lemma user_vouched a token i :
  resolveUserIdentity (a_resolver a) token = Ok i →
  ∃ r raw, a_resolver a = Some r ∧ asserted token raw ∧ i = clamp_identity raw
    ∧ UID i ≠ "" ∧ ContextIncluded i = true.
Proof.
  unfold resolveUserIdentity. destruct (a_resolver a) as [r|]; [|done].
  destruct (@Resolve r token) as [i'|] eqn:E; [|done]. destruct (String.eqb_spec (UID i') ""); [done|].
  destruct (ContextIncluded i') eqn:Ec; [|done]. simpl. intros [= <-].
  destruct (resolve_asserted _ _ E) as (raw & ? & ?); [done|]. by exists r, raw.
Qed.

(** A request that passes is a member of its Space, or a bot bound to its own. *)
Lemma pass_vouched a h cx :
  a_enabled a = true → Handler a h = Pass cx →
  (∃ raw, vouched a h raw ∧ cx = mkContext (clamp_identity raw) (TrimSpace (h_space_id h)) None)
  ∨ (∃ bot, HasPrefix (requestToken h) "bf_" = true ∧ cx_bot cx = Some bot
      ∧ cx_space cx = BotSpaceID bot ∧ UID (cx_identity cx) = BotOwnerUID bot
      ∧ Role (cx_identity cx) = "" ∧ SpaceRoles (cx_identity cx) = ∅).
Proof.
  intros He. unfold Handler. rewrite He. simpl.
  destruct (String.eqb_spec (requestToken h) ""); [done|].
  destruct (HasPrefix (requestToken h) "bf_") eqn:Hb.
  { unfold authenticateBot. destruct (a_bot_resolver a) as [resolve|]; [|done].
    destruct (resolve _) as [bot|]; [|done]. case_match; [done|]. intros [= <-]. right.
    exists bot. by split_and!. }
  destruct (resolveUserIdentity _ _) as [i|[? ?]] eqn:Hr; [|done].
  apply user_vouched in Hr as (r & raw & Hres & Has & -> & Hu & Hc).
  destruct (String.eqb_spec (TrimSpace (h_space_id h)) ""); [done|].
  destruct (existsb _ _) eqn:Hs; [|done]. simpl. intros [= <-]. left. exists raw. split; [|done].
  exists r. split_and!; try done. apply existsb_exists in Hs as (sp & Hin & ->%String.eqb_eq).
  by apply list_elem_of_In.
Qed.

(** The operations that ask for review authority. *)
Definition moderates (o : WebOp) : bool := match o with WCancel _ => false | _ => true end.

(** A raw role of octo-server grants review authority. *)
Definition grants (raw : Identity) (spaceID : string) : Prop :=
  Role raw = RoleSuperAdmin
  ∨ SpaceRoles raw !! spaceID = Some SpaceRoleAdmin ∨ SpaceRoles raw !! spaceID = Some SpaceRoleOwner.

Lemma clamped_grants raw spaceID :
  spaceID ≠ "" → (SpaceRoleAdmin <= SpaceRole (clamp_identity raw) spaceID)%Z →
  SpaceRoles raw !! spaceID = Some SpaceRoleAdmin ∨ SpaceRoles raw !! spaceID = Some SpaceRoleOwner.
Proof.
  intros Hne. unfold SpaceRole. destruct (String.eqb_spec spaceID ""); [done|].
  simpl. unfold clampSpaceRoles. rewrite lookup_fmap.
  destruct (SpaceRoles raw !! spaceID) as [v|] eqn:E; rewrite ?E; simpl;
    unfold ClampSpaceRole, SpaceRoleMember, SpaceRoleAdmin, SpaceRoleOwner; [|simpl; lia].
  destruct ((v <? 0)%Z || (2 <? v)%Z) eqn:Ev; simpl; [simpl; lia|].
  rewrite Ev. simpl. intros. assert (v = 1 ∨ v = 2)%Z as [->| ->]; [lia|auto..].
Qed.

Lemma caller_authority raw spaceID requestID c o :
  caller (mkContext (clamp_identity raw) spaceID None) requestID = Some c →
  may c o = true → moderates o = true → grants raw spaceID.
Proof.
  unfold caller. simpl. destruct (String.eqb_spec (UID raw) ""); [done|]. simpl.
  destruct (String.eqb_spec spaceID ""); [done|]. intros [= <-].
  destruct (String.eqb_spec (Role raw) RoleSuperAdmin) as [?|Hr]; [by left|]. simpl.
  intros Hm Ho. right. apply clamped_grants; [done|].
  destruct o; simpl in *; unfold isReviewer in *; simpl in *; try done; by apply Z.leb_le.
Qed.

(** C4: review authority, from the request to the tables. With authentication
    on, a request that reaches the review service at all comes from a member of
    the Space it names, by octo-server's word for its token, or from a bot in
    the bot's own Space; and one that decides a request, takes a plugin down or
    sets the policy comes from a system administrator, or from an owner or
    admin of that very Space: never from a bot, whatever its owner's role, and
    never on a role out of range. *)
Theorem review_authority_end_to_end a h requestID r e s ans s' :
  a_enabled a = true →
  serve a h requestID r e s = (Ok ans, s') →
  s' ≠ s ∨ ans = Ok tt →
  ∃ o, parse_request r = Ok o
  ∧ ((∃ raw, vouched a h raw ∧ (moderates o = true → grants raw (TrimSpace (h_space_id h))))
     ∨ (HasPrefix (requestToken h) "bf_" = true ∧ moderates o = false)).
Proof.
  intros He. unfold serve. destruct (Handler a h) as [cx|st code] eqn:Hp.
  2:{ intros [= <- <-] [?|?]; done. }
  destruct (caller cx requestID) as [c|] eqn:Hc.
  2:{ intros [= <- <-] [?|?]; done. }
  destruct (parse_request r) as [o|f]; [|intros [= <- <-] [?|?]; done].
  intros Hrun Hdid. exists o. split; [done|].
  assert (may c o = true) as Hmay.
  { pose proof (web_op_guarded c o e s) as [Hg _]. revert Hrun. unfold mbind, svc_bind, try.
    destruct (web_op c o e s) as [wr ws]. simpl in *. intros Hrun.
    destruct (may c o); [done|]. rewrite andb_false_r in Hg.
    destruct (Hg eq_refl) as [-> [err ->]]. injection Hrun as <- <-. naive_solver. }
  destruct (pass_vouched _ _ _ He Hp) as [(raw & Hv & ->)|(bot & Hpre & Hbot & Hsp & _ & Hrole & Hroles)].
  - left. exists raw. split; [done|]. by eapply caller_authority.
  - right. split; [done|]. revert Hc. unfold caller. rewrite Hrole.
    destruct (_ || _); [done|]. simpl. intros [= <-]. destruct o; try done; exfalso; revert Hmay; simpl;
      unfold isReviewer, SpaceRole; simpl; rewrite Hroles, lookup_empty; by case_match.
Qed.

(** ** Answers *)

Lemma service_status err : f_status (writeServiceError err) ∈ [400; 403; 404; 409; 413; 500]%Z.
Proof. destruct err; simpl; set_solver. Qed.

Lemma handler_status a h status code :
  Handler a h = Abort status code → status ∈ [400; 401; 403; 503]%Z.
Proof.
  unfold Handler, authenticateBot, resolveUserIdentity. intros Ha.
  repeat (case_match; simplify_eq; try set_solver).
Qed.

(** The error contract of the review endpoints. Whatever the request and
    whatever fails, the endpoint answers; a failure has one of the statuses
    400, 401, 403, 404, 409, 413, 500, or the authenticator's 503, and then the
    request changed no table, deleted no object and sent no card. *)
Theorem review_failures_change_nothing a h requestID r e s res s' :
  serve a h requestID r e s = (res, s') →
  ∃ ans, res = Ok ans
  ∧ ∀ f, ans = Error f → f_status f ∈ [400; 401; 403; 404; 409; 413; 500; 503]%Z ∧ idle e s s'.
Proof.
  assert (idle e s s) as Hidle by (split; auto).
  unfold serve. destruct (Handler a h) as [cx|st code] eqn:Hp.
  2:{ intros [= <- <-]. eexists. split; [done|]. intros f [= <-]. split; [|done].
      apply handler_status in Hp. simpl. set_solver. }
  destruct (caller cx requestID) as [c|].
  2:{ intros [= <- <-]. eexists. split; [done|]. intros f [= <-]. split; [set_solver|done]. }
  destruct (parse_request r) as [o|f] eqn:Ho.
  2:{ intros [= <- <-]. eexists. split; [done|]. intros f' [= <-]. split; [|done]. revert Ho.
      unfold parse_request. repeat case_match; intros [= <-]; set_solver. }
  pose proof (web_op_guarded c o e s) as [_ Hg]. unfold mbind, svc_bind, try.
  destruct (web_op c o e s) as [wr ws]. simpl in *. intros [= <- <-].
  destruct wr as [[]|err]; eexists; (split; [done|]); [done|].
  intros f [= <-]. split; [|by eapply Hg]. pose proof (service_status err). set_solver.
Qed.

End ReviewApi.
