(* ===== verification/InstallAttempts.v ===== *)
(** * Install attempts: repository/plugin/install_attempt.go and the dispatch
    protocol of service/plugin/install_attempt.go

    An installation is sent to Fleet under a key the client chose, and may be
    retried by it, in parallel too. A row per key records the frozen request and
    where its dispatch stands; each statement on it is atomic and may fail with
    or without taking effect. The row operations, one attempt of the service as
    a machine that stops at every outside call, and the world of all attempts,
    Fleet's answers and crashes. *)

From S2P Require Import Prelude GoStrings Model Notify.
Import Go.
Local Open Scope string_scope.

(** ** Rows *)

Inductive AttemptState := PREPARED | UNKNOWN | DISPATCHING | FAILED | SUCCEEDED | EXPIRED.
#[export] Instance AttemptState_eq_dec : EqDecision AttemptState.
Proof. solve_decision. Defined.

Record InstallAttempt := mkAttempt {
  ia_plugin : string;
  ia_root_version : string;
  ia_adapter : string;
  ia_input : string;
  ia_request : string;
  ia_agent : string;
  ia_team : string;
  ia_completed : bool;
  ia_created : Z;
  ia_plan : string;
  ia_hmac_key : string;
  ia_intent : string;
  ia_state : AttemptState;
  ia_had_unknown : bool;
  ia_lease_token : option string;
  ia_lease_until : option Z;
  ia_retry_until : option Z
}.

(** The primary key: Space, caller, workspace and key digest. *)
Abbreviation AKey := (string * string * string * string)%type.
Abbreviation Attempts := (gmap AKey InstallAttempt).

(** What the statements assign. *)
Definition set_dispatch (st : AttemptState) (unknown : bool) (token : option string)
    (lease retry : option Z) (a : InstallAttempt) : InstallAttempt :=
  mkAttempt (ia_plugin a) (ia_root_version a) (ia_adapter a) (ia_input a) (ia_request a)
    (ia_agent a) (ia_team a) (ia_completed a) (ia_created a) (ia_plan a) (ia_hmac_key a)
    (ia_intent a) st unknown token lease retry.
Definition set_result (completed : bool) (agent team : string) (a : InstallAttempt) : InstallAttempt :=
  mkAttempt (ia_plugin a) (ia_root_version a) (ia_adapter a) (ia_input a) (ia_request a)
    agent team completed (ia_created a) (ia_plan a) (ia_hmac_key a)
    (ia_intent a) (ia_state a) (ia_had_unknown a) (ia_lease_token a) (ia_lease_until a) (ia_retry_until a).

(** UPDATE ... WHERE key AND guard: whether a row was affected, and the table. *)
Definition update_attempt (k : AKey) (guard : InstallAttempt → bool)
    (f : InstallAttempt → InstallAttempt) (t : Attempts) : bool * Attempts :=
  match t !! k with
  | Some a => if guard a then (true, <[k := f a]> t) else (false, t)
  | None => (false, t)
  end.

Definition GetInstallAttempt (k : AKey) (t : Attempts) : option InstallAttempt := t !! k.

(** A plan of no bytes is stored as NULL. *)
Definition installInitialState (plan : string) : AttemptState :=
  if String.eqb plan "" then UNKNOWN else PREPARED.

(** INSERT ... ON DUPLICATE KEY UPDATE that changes nothing. *)
Definition ClaimInstallAttempt (now : Z) (k : AKey) (a : InstallAttempt) (t : Attempts) : Attempts :=
  match t !! k with
  | Some _ => t
  | None =>
      <[k := mkAttempt (ia_plugin a) (ia_root_version a) (ia_adapter a) (ia_input a) (ia_request a)
               "" "" false now (ia_plan a) (ia_hmac_key a) (ia_intent a)
               (installInitialState (ia_plan a)) (String.eqb (ia_plan a) "") None None None]> t
  end.

Definition CompleteInstallAttempt (k : AKey) (a : InstallAttempt) (t : Attempts) : bool * Attempts :=
  let '(changed, t') := update_attempt k
    (λ r, String.eqb (ia_request r) (ia_request a) && String.eqb (ia_root_version r) (ia_root_version a)
          && (negb (ia_completed r)
              || String.eqb (ia_agent r) (ia_agent a) && String.eqb (ia_team r) (ia_team a)))
    (set_result true (ia_agent a) (ia_team a)) t in
  if changed then (true, t')
  else match t' !! k with
       | Some r => (ia_completed r && String.eqb (ia_root_version r) (ia_root_version a)
                    && String.eqb (ia_request r) (ia_request a)
                    && String.eqb (ia_agent r) (ia_agent a) && String.eqb (ia_team r) (ia_team a), t')
       | None => (false, t')
       end.

Definition dispatchable (st : AttemptState) : bool :=
  match st with PREPARED | UNKNOWN | DISPATCHING | FAILED => true | SUCCEEDED | EXPIRED => false end.

(** NULL, or at or before [now]. *)
Definition lease_over (now : Z) (u : option Z) : bool :=
  match u with None => true | Some u => (u <=? now)%Z end.
Definition retry_open (now : Z) (u : option Z) : bool :=
  match u with None => true | Some u => (now <? u)%Z end.

(** The assignments run from left to right, so [had_unknown] sees the state the
    row had. *)
Definition AcquireInstallDispatch (k : AKey) (a : InstallAttempt) (token : string)
    (now lease retry : Z) : Attempts → bool * Attempts :=
  update_attempt k
    (λ r, negb (String.eqb (ia_plan r) "") && String.eqb (ia_request r) (ia_request a)
          && dispatchable (ia_state r) && lease_over now (ia_lease_until r)
          && retry_open now (ia_retry_until r))
    (λ r, set_dispatch DISPATCHING
            (if decide (ia_state r = DISPATCHING) then true else ia_had_unknown r)
            (Some token) (Some (now + lease)%Z)
            (match ia_retry_until r with Some x => Some x | None => Some (now + retry)%Z end) r).

Definition held_by (token : string) (r : InstallAttempt) : bool :=
  bool_decide (ia_lease_token r = Some token) && bool_decide (ia_state r = DISPATCHING).

Definition SetInstallDispatchUnknown (k : AKey) (token : string) : Attempts → bool * Attempts :=
  update_attempt k (held_by token)
    (λ r, set_dispatch UNKNOWN true None None (ia_retry_until r) r).

Definition FinishInstallDispatch (k : AKey) (a : InstallAttempt) (token : string) : Attempts → bool * Attempts :=
  update_attempt k (λ r, held_by token r && String.eqb (ia_request r) (ia_request a))
    (λ r, set_dispatch SUCCEEDED (ia_had_unknown r) None None (ia_retry_until r)
            (set_result true (ia_agent a) (ia_team a) r)).

Definition ExpireInstallAttempt (now : Z) (k : AKey) : Attempts → bool * Attempts :=
  update_attempt k
    (λ r, negb (bool_decide (ia_state r = SUCCEEDED))
          && match ia_retry_until r with Some x => (x <=? now)%Z | None => false end)
    (λ r, set_dispatch EXPIRED (ia_had_unknown r) None None (ia_retry_until r) r).

Definition FailInstallDispatch (k : AKey) (token : string) : Attempts → bool * Attempts :=
  update_attempt k (λ r, held_by token r && negb (ia_had_unknown r))
    (λ r, set_dispatch FAILED (ia_had_unknown r) None None (ia_retry_until r) r).

(** ** Fleet's answers (capability_install.go, definiteInstallationRejection) *)

(** [conflict] is [ConflictResource]; [None] stands for any error that is not an
    answer of Fleet, a lost connection for one. *)
Definition FleetError : Type := option (Z * string * string).

Definition definiteInstallationRejection (err : FleetError) : bool :=
  match err with
  | None => false
  | Some (status, code, conflict) =>
      if existsb (Z.eqb status) [400; 401; 403; 404; 413; 415; 422; 429]%Z then true
      else if (status =? 409)%Z then
        String.eqb code "DUPLICATE" || String.eqb code "IDEMPOTENCY_KEY_REUSED"
        || (String.eqb code "CONFLICT" && negb (String.eqb conflict ""))
      else false
  end.

Record FleetResult := mkFleetResult { fl_expert : string; fl_team : string; fl_replayed : bool }.

(** ** One attempt of the service (createPinnedInstallation, from the deadline
    check on)

    The frozen request has been checked against the stored one. [a] is the row
    as it was read; the machine stops at each outside call. *)

Inductive Outcome :=
| OConflict | OExpired | OStore | OIntegrity
| OAttempt (unknown : bool)
| OInstalled (agent team : string) (replayed : bool).

Inductive Phase :=
| WChecked (a : InstallAttempt)
| WExpire
| WAcquire (a : InstallAttempt) (now : Z) (token : string)
| WRefresh (a : InstallAttempt) (now : Z) (token : string)
| WSend (a : InstallAttempt) (now : Z) (token : string)
| WAwait (a : InstallAttempt) (now : Z) (token : string)
| WFail (token : string)
| WUnknown (token : string)
| WFinish (a : InstallAttempt) (token : string) (replayed : bool)
| WDone (o : Outcome).

Definition second : Z := 1000000000.
Definition installReceiptWindow : Z := 24 * 3600 * second.
Definition dispatchLease : Z := 3 * 60 * second.
Definition dispatchRetry : Z := installReceiptWindow - 60 * second.

(** What the outside supplies to a step: the clock, the fault of a statement, a
    fresh identifier, Fleet's answer. *)
Record Input := mkInput {
  in_clock : Z;
  in_fault : SqlFault;
  in_token : string;
  in_reply : result FleetError FleetResult
}.

Definition set_retry (x : option Z) (a : InstallAttempt) : InstallAttempt :=
  set_dispatch (ia_state a) (ia_had_unknown a) (ia_lease_token a) (ia_lease_until a) x a.

Definition advance (k : AKey) (i : Input) (p : Phase) (t : Attempts) : Phase * Attempts :=
  match p with
  | WChecked a =>
      match ia_retry_until a with
      | None => if ia_completed a then (WDone OConflict, t)
                else (WAcquire a (in_clock i) (in_token i), t)
      | Some x =>
          if negb (in_clock i <? x)%Z then (WExpire, t)
          else if ia_completed a then (WSend a (in_clock i) (in_token i), t)
          else (WAcquire a (in_clock i) (in_token i), t)
      end
  | WExpire => (WDone OExpired, (run_sql (in_fault i) (ExpireInstallAttempt (in_clock i) k) t).2)
  | WAcquire a now token =>
      match run_sql (in_fault i) (AcquireInstallDispatch k a token now dispatchLease dispatchRetry) t with
      | (None, t') => (WDone OStore, t')
      | (Some false, t') => (WDone OConflict, t')
      | (Some true, t') => (WRefresh a now token, t')
      end
  | WRefresh a now token =>
      match in_fault i with
      | SqlOk =>
          match GetInstallAttempt k t with
          | Some r =>
              match ia_retry_until r with
              | Some x =>
                  (WSend (set_dispatch (ia_state r) (ia_had_unknown r) (ia_lease_token r)
                            (ia_lease_until r) (Some x) a) now token, t)
              | None => (WDone OIntegrity, t)
              end
          | None => (WDone OIntegrity, t)
          end
      | _ => (WDone OStore, t)
      end
  | WSend a now token => (WAwait a now token, t)
  | WAwait a now token =>
      match in_reply i with
      | Ok res =>
          if ia_completed a then
            if String.eqb (ia_agent a) (fl_expert res) && String.eqb (ia_team a) (fl_team res)
            then (WDone (OInstalled (ia_agent a) (ia_team a) true), t)
            else (WDone OIntegrity, t)
          else (WFinish (set_result false (fl_expert res) (fl_team res) a) token (fl_replayed res), t)
      | Error err =>
          if ia_completed a then (WDone (OAttempt (negb (definiteInstallationRejection err))), t)
          else if definiteInstallationRejection err then (WFail token, t)
          else (WUnknown token, t)
      end
  | WFail token =>
      match run_sql (in_fault i) (FailInstallDispatch k token) t with
      | (Some true, t') => (WDone (OAttempt false), t')
      | (_, t') => (WUnknown token, t')
      end
  | WUnknown token =>
      (WDone (OAttempt true), (run_sql (in_fault i) (SetInstallDispatchUnknown k token) t).2)
  | WFinish a token replayed =>
      match run_sql (in_fault i) (FinishInstallDispatch k a token) t with
      | (Some true, t') => (WDone (OInstalled (ia_agent a) (ia_team a) replayed), t')
      | (_, t') => (WDone (OAttempt true), t')
      end
  | WDone o => (WDone o, t)
  end.

(** ** The world of attempts *)

(** What has become of a request handed to Fleet. *)
Inductive SendState := SPending | SRejected | SUncertain | SAccepted.
#[export] Instance SendState_eq_dec : EqDecision SendState.
Proof. solve_decision. Defined.
Record Send := mkSend {
  sd_key : AKey;
  sd_token : string;
  sd_now : Z;
  sd_replay : bool;
  sd_request : string;
  sd_state : SendState
}.

Record IWorld := mkIWorld {
  iw_clock : Z;
  iw_rows : Attempts;
  iw_workers : gmap nat (AKey * Phase);
  iw_used : list string;
  iw_sends : gmap nat Send;
  iw_installs : list AKey
}.

Definition answered (r : result FleetError FleetResult) : SendState :=
  match r with
  | Ok _ => SAccepted
  | Error err => if definiteInstallationRejection err then SRejected else SUncertain
  end.

Definition note_send (n : nat) (k : AKey) (i : Input) (p : Phase) (m : gmap nat Send) : gmap nat Send :=
  match p with
  | WSend a now token => <[n := mkSend k token now (ia_completed a) (ia_request a) SPending]> m
  | WAwait a now token =>
      <[n := mkSend k token now (ia_completed a) (ia_request a) (answered (in_reply i))]> m
  | _ => m
  end.

(** [trackInstall] runs on the way to the first answer of success only. *)
Definition note_install (k : AKey) (p p' : Phase) (l : list AKey) : list AKey :=
  match p, p' with
  | WFinish _ _ _, WDone (OInstalled _ _ _) => k :: l
  | _, _ => l
  end.

Definition work (n : nat) (k : AKey) (i : Input) (p : Phase) (w : IWorld) : IWorld :=
  let '(p', t) := advance k i p (iw_rows w) in
  mkIWorld (iw_clock w) t (<[n := (k, p')]> (iw_workers w)) (in_token i :: iw_used w)
    (note_send n k i p (iw_sends w)) (note_install k p p' (iw_installs w)).

(** The clock advances; a request is prepared and claimed (an error leaves the
    claim made or not); an attempt starts from the row it read; an attempt
    makes its next step. One that crashes makes none. *)
Inductive istep : IWorld → IWorld → Prop :=
| is_tick w t : (iw_clock w ≤ t)%Z →
    istep w (mkIWorld t (iw_rows w) (iw_workers w) (iw_used w) (iw_sends w) (iw_installs w))
| is_claim w k a :
    istep w (mkIWorld (iw_clock w) (ClaimInstallAttempt (iw_clock w) k a (iw_rows w)) (iw_workers w)
               (iw_used w) (iw_sends w) (iw_installs w))
| is_begin w n k a : iw_workers w !! n = None → GetInstallAttempt k (iw_rows w) = Some a →
    istep w (mkIWorld (iw_clock w) (iw_rows w) (<[n := (k, WChecked a)]> (iw_workers w))
               (iw_used w) (iw_sends w) (iw_installs w))
| is_work w n k p i : iw_workers w !! n = Some (k, p) →
    in_clock i = iw_clock w → in_token i ∉ iw_used w →
    istep w (work n k i p w).

Definition quiet (t0 : Z) : IWorld := mkIWorld t0 ∅ ∅ [] ∅ [].
Definition ireached (w : IWorld) : Prop := ∃ t0, rtc istep (quiet t0) w.

(** ** Rows only move forward *)

(** What a step leaves of a row: the request it was claimed with, a deadline
    once set, the uncertainty once recorded, and everything once succeeded. *)
Record forward (a b : InstallAttempt) : Prop := {
  fw_request : ia_request b = ia_request a ∧ ia_plan b = ia_plan a ∧ ia_plugin b = ia_plugin a
               ∧ ia_root_version b = ia_root_version a ∧ ia_input b = ia_input a
               ∧ ia_intent b = ia_intent a ∧ ia_hmac_key b = ia_hmac_key a;
  fw_deadline : ia_retry_until a ≠ None → ia_retry_until b = ia_retry_until a;
  fw_unknown : ia_had_unknown a = true → ia_had_unknown b = true;
  fw_final : ia_state a = SUCCEEDED → b = a;
  fw_completed : (ia_completed a = true ↔ ia_state a = SUCCEEDED) →
                 (ia_completed b = true ↔ ia_state b = SUCCEEDED)
}.

Lemma forward_refl a : forward a a.
Proof. by split. Qed.

Definition rows_forward (t t' : Attempts) : Prop :=
  ∀ k a, t !! k = Some a → ∃ b, t' !! k = Some b ∧ forward a b.

#[export] Instance forward_trans : Transitive forward.
Proof.
  intros a b c [Hr Hd Hu Hf Hc] [Hr' Hd' Hu' Hf' Hc']. split; [naive_solver congruence| |by auto| |by auto].
  - intros Hn. rewrite Hd'; [by apply Hd|]. by rewrite Hd.
  - intros Hs. specialize (Hf Hs) as ->. by apply Hf'.
Qed.
#[export] Instance rows_forward_preorder : PreOrder rows_forward.
Proof.
  split; [intros t k a H; exists a; split; [done|apply forward_refl]|].
  intros x y z H1 H2 k a Ha. destruct (H1 _ _ Ha) as (b & Hb & ?).
  destruct (H2 _ _ Hb) as (c & ? & ?). exists c. split; [done|]. by etrans.
Qed.

Lemma update_forward k g f t :
  (∀ a, g a = true → forward a (f a)) → rows_forward t (update_attempt k g f t).2.
Proof.
  intros Hf. unfold update_attempt. destruct (t !! k) as [a|] eqn:E; [|done].
  destruct (g a) eqn:Eg; [|done]. simpl. intros k' a' Ha'.
  destruct (decide (k' = k)) as [->|Hne].
  - rewrite lookup_insert_eq. rewrite E in Ha'. injection Ha' as <-. eauto.
  - rewrite lookup_insert_ne by done. exists a'. split; [done|apply forward_refl].
Qed.

Lemma run_sql_forward f m t : rows_forward t (m t).2 → rows_forward t (run_sql f m t).2.
Proof. intros Hm. destruct f; simpl; [|done|done]. by destruct (m t). Qed.

Lemma held_state token a : held_by token a = true → ia_lease_token a = Some token ∧ ia_state a = DISPATCHING.
Proof. unfold held_by. rewrite andb_true_iff, !bool_decide_eq_true. done. Qed.

Ltac guard_facts :=
  repeat match goal with
    | H : _ && _ = true |- _ => apply andb_true_iff in H as [? ?]
    | H : held_by _ _ = true |- _ => apply held_state in H as [? ?]
    | H : negb _ = true |- _ => apply negb_true_iff in H
    | H : bool_decide _ = false |- _ => apply bool_decide_eq_false in H
    end.

Lemma acquire_forward k a token now lease retry t :
  rows_forward t (AcquireInstallDispatch k a token now lease retry t).2.
Proof.
  unfold AcquireInstallDispatch. apply update_forward. intros r Hg. guard_facts.
  split; simpl; [done|by destruct (ia_retry_until r)|by intros ->; case_decide| |].
  - intros Hs. by rewrite Hs in *.
  - intros [Hc _]. split; [|done]. intros Hc'. rewrite (Hc Hc') in *. done.
Qed.
Lemma unknown_forward k token t : rows_forward t (SetInstallDispatchUnknown k token t).2.
Proof. unfold SetInstallDispatchUnknown. apply update_forward. intros r Hg. guard_facts. split; simpl; try done; [congruence|naive_solver congruence]. Qed.
Lemma finish_forward k a token t : rows_forward t (FinishInstallDispatch k a token t).2.
Proof. unfold FinishInstallDispatch. apply update_forward. intros r Hg. guard_facts. split; simpl; try done; congruence. Qed.
Lemma expire_forward now k t : rows_forward t (ExpireInstallAttempt now k t).2.
Proof. unfold ExpireInstallAttempt. apply update_forward. intros r Hg. guard_facts. split; simpl; try done; naive_solver. Qed.
Lemma fail_forward k token t : rows_forward t (FailInstallDispatch k token t).2.
Proof. unfold FailInstallDispatch. apply update_forward. intros r Hg. guard_facts. split; simpl; try done; [congruence|naive_solver congruence]. Qed.

Lemma advance_forward k i p t : rows_forward t (advance k i p t).2.
Proof.
  destruct p; simpl.
  - repeat case_match; done.
  - apply run_sql_forward, expire_forward.
  - pose proof (run_sql_forward (in_fault i) (AcquireInstallDispatch k a token now dispatchLease dispatchRetry) t (acquire_forward _ _ _ _ _ _ _)) as Hf.
    by destruct (run_sql _ _ _) as [[[]|] t'].
  - repeat case_match; done.
  - done.
  - repeat case_match; done.
  - pose proof (run_sql_forward (in_fault i) (FailInstallDispatch k token) t (fail_forward _ _ _)) as Hf.
    by destruct (run_sql _ _ _) as [[[]|] t'].
  - apply run_sql_forward, unknown_forward.
  - pose proof (run_sql_forward (in_fault i) (FinishInstallDispatch k a token) t (finish_forward _ _ _ _)) as Hf.
    by destruct (run_sql _ _ _) as [[[]|] t'].
  - done.
Qed.

Lemma claim_forward now k a t : rows_forward t (ClaimInstallAttempt now k a t).
Proof.
  unfold ClaimInstallAttempt. destruct (t !! k) eqn:E; [done|]. intros k' a' Ha'.
  rewrite lookup_insert_ne by naive_solver. exists a'. split; [done|apply forward_refl].
Qed.

Lemma istep_forward w w' : istep w w' → rows_forward (iw_rows w) (iw_rows w').
Proof.
  destruct 1 as [| | |w n k p i]; simpl; [done|apply claim_forward|done|].
  unfold work. pose proof (advance_forward k i p (iw_rows w)) as Hf. by destruct (advance _ _ _ _).
Qed.

(** ** The invariant *)

(** The request was dispatched before the row's deadline. *)
Definition licensed (r : InstallAttempt) (now : Z) : Prop :=
  ∃ x, ia_retry_until r = Some x ∧ (now < x)%Z.

(** [a] was read from the row that is now [r]. *)
Definition snapshot_of (r a : InstallAttempt) : Prop :=
  ia_request a = ia_request r
  ∧ (ia_completed a = true → ia_state r = SUCCEEDED ∧ ia_retry_until a = ia_retry_until r
       ∧ ia_agent a = ia_agent r ∧ ia_team a = ia_team r).

Definition phase_ok (r : InstallAttempt) (p : Phase) : Prop :=
  match p with
  | WChecked a => snapshot_of r a
  | WAcquire a _ _ => snapshot_of r a ∧ ia_completed a = false
  | WRefresh a now _ => snapshot_of r a ∧ ia_completed a = false ∧ licensed r now
  | WSend a now _ | WAwait a now _ => snapshot_of r a ∧ licensed r now
  | WFinish a _ _ => ia_request a = ia_request r ∧ ia_completed a = false
  | WDone (OInstalled agent team _) =>
      ia_state r = SUCCEEDED ∧ ia_agent r = agent ∧ ia_team r = team
  | _ => True
  end.

Lemma snapshot_forward r r' a : forward r r' → snapshot_of r a → snapshot_of r' a.
Proof.
  intros [(Hr & _) _ _ Hf _] [Ha Hc]. split; [congruence|]. intros Hd.
  destruct (Hc Hd) as (Hs & ? & ? & ?). by rewrite (Hf Hs).
Qed.
Lemma licensed_forward r r' now : forward r r' → licensed r now → licensed r' now.
Proof. intros Hf (x & Hx & ?). exists x. rewrite (fw_deadline _ _ Hf); by rewrite Hx. Qed.
Lemma phase_forward r r' p : forward r r' → phase_ok r p → phase_ok r' p.
Proof.
  intros Hf. pose proof (fw_request _ _ Hf) as (Hr & _).
  destruct p; simpl; try naive_solver eauto using snapshot_forward, licensed_forward.
  - intros [-> ?]. done.
  - destruct o; try done. intros (Hs & Hr'). rewrite (fw_final _ _ Hf Hs). done.
Qed.

Definition token_of (p : Phase) : option string :=
  match p with
  | WAcquire _ _ tk | WRefresh _ _ tk | WSend _ _ tk | WAwait _ _ tk
  | WFail tk | WUnknown tk | WFinish _ tk _ => Some tk
  | WChecked _ | WExpire | WDone _ => None
  end.

Definition owns (w : IWorld) (n : nat) (tk : string) : Prop :=
  (∃ k p, iw_workers w !! n = Some (k, p) ∧ token_of p = Some tk)
  ∨ (∃ s, iw_sends w !! n = Some s ∧ sd_token s = tk).

(** Where the attempt that sent stands. *)
Definition sent_ok (s : Send) (p : Phase) : Prop :=
  match p with
  | WAwait a now tk => sd_token s = tk
  | WFail tk => sd_token s = tk ∧ sd_state s = SRejected
  | WUnknown tk | WFinish _ tk _ => sd_token s = tk
  | WDone _ => True
  | _ => False
  end.

(** A dispatch that may still reach Fleet. *)
Definition active (p : Phase) (tk : string) : Prop :=
  match p with
  | WRefresh _ _ tk' => tk' = tk
  | WSend a _ tk' | WAwait a _ tk' => ia_completed a = false ∧ tk' = tk
  | _ => False
  end.

(** The row accounts for a dispatch under [tk]. *)
Definition accounted (r : InstallAttempt) (tk : string) : Prop :=
  ia_state r = SUCCEEDED ∨ ia_state r = EXPIRED
  ∨ (ia_state r = DISPATCHING ∧ ia_lease_token r = Some tk).

(** While no dispatch was uncertain, every dispatch that Fleet has not refused
    is the one the row is leased to. *)
Definition accounts (w : IWorld) (k : AKey) (r : InstallAttempt) : Prop :=
  (∀ n s, iw_sends w !! n = Some s → sd_key s = k → sd_state s ≠ SRejected → accounted r (sd_token s))
  ∧ (∀ n p tk, iw_workers w !! n = Some (k, p) → active p tk → accounted r tk).

Record winv (w : IWorld) : Prop := {
  wi_rows : ∀ k r, iw_rows w !! k = Some r → ia_completed r = true ↔ ia_state r = SUCCEEDED;
  wi_phase : ∀ n k p, iw_workers w !! n = Some (k, p) →
    ∃ r, iw_rows w !! k = Some r ∧ phase_ok r p;
  wi_send : ∀ n s, iw_sends w !! n = Some s → ∃ r p,
    iw_rows w !! sd_key s = Some r ∧ iw_workers w !! n = Some (sd_key s, p)
    ∧ sd_request s = ia_request r ∧ licensed r (sd_now s)
    ∧ (sd_replay s = true → ia_state r = SUCCEEDED) ∧ sent_ok s p;
  wi_used : ∀ n tk, owns w n tk → tk ∈ iw_used w;
  wi_unique : ∀ n m tk, owns w n tk → owns w m tk → n = m;
  wi_accounts : ∀ k r, iw_rows w !! k = Some r → ia_had_unknown r = false → accounts w k r;
  wi_installs : NoDup (iw_installs w)
    ∧ ∀ k, k ∈ iw_installs w → ∃ r, iw_rows w !! k = Some r ∧ ia_state r = SUCCEEDED
}.

(** *** One step of an attempt *)

(** A step that runs one statement leaves what the statement leaves. *)
Ltac one_statement :=
  match goal with |- context [run_sql ?f ?m ?t] =>
    transitivity ((run_sql f m t).2); [by destruct (run_sql f m t) as [[[]|] ?]|reflexivity] end.

Section Work.
Context (w : IWorld) (n : nat) (k : AKey) (p : Phase) (i : Input).
Context (Hw : iw_workers w !! n = Some (k, p)) (Hfresh : in_token i ∉ iw_used w).
Context (Hclock : in_clock i = iw_clock w).
Context (Hinv : winv w).

Let p' := (advance k i p (iw_rows w)).1.
Let t' := (advance k i p (iw_rows w)).2.

Lemma work_unfold : work n k i p w =
  mkIWorld (iw_clock w) t' (<[n := (k, p')]> (iw_workers w)) (in_token i :: iw_used w)
    (note_send n k i p (iw_sends w)) (note_install k p p' (iw_installs w)).
Proof. unfold work, p', t'. by destruct (advance _ _ _ _). Qed.

Lemma work_row : ∃ r, iw_rows w !! k = Some r ∧ phase_ok r p.
Proof. exact (wi_phase _ Hinv _ _ _ Hw). Qed.

(** Rows of other keys stay. *)
Lemma update_other k0 g f t k1 : k1 ≠ k0 → (update_attempt k0 g f t).2 !! k1 = t !! k1.
Proof. intros. unfold update_attempt. repeat case_match; simpl; try done. by rewrite lookup_insert_ne. Qed.

Lemma run_sql_other (f : SqlFault) (m : Attempts → bool * Attempts) t k1 : (m t).2 !! k1 = t !! k1 → (run_sql f m t).2 !! k1 = t !! k1.
Proof. intros. destruct f; simpl; [|done|done]. by destruct (m t). Qed.

Lemma work_other k1 : k1 ≠ k → t' !! k1 = iw_rows w !! k1.
Proof.
  intros Hne. unfold t'.
  assert (∀ g f fl, (run_sql fl (update_attempt k g f) (iw_rows w)).2 !! k1 = iw_rows w !! k1) as Hs
    by (intros; apply run_sql_other; by apply update_other).
  destruct p; simpl; try done; try (by repeat case_match); try apply Hs.
  all: match goal with |- context [run_sql ?f ?m ?t] =>
    enough ((run_sql f m t).2 !! k1 = iw_rows w !! k1) as Hr
      by (destruct (run_sql f m t) as [[[]|] ?]; exact Hr) end; apply Hs.
Qed.

Lemma work_owns m tk : owns (work n k i p w) m tk → owns w m tk ∨ (m = n ∧ tk = in_token i).
Proof.
  rewrite work_unfold. unfold owns. simpl.
  intros [(k1 & q & Hq & Htk)|(s & Hs & Htk)].
  - rewrite lookup_insert in Hq. case_decide as Hm; [subst m|eauto 6]. injection Hq as <- <-.
    assert (token_of p' = token_of p ∨ token_of p' = None ∨ token_of p' = Some (in_token i)) as [E|[E|E]].
    { unfold p'. destruct p; simpl; repeat case_match; simpl; auto. }
    + left. left. exists k, p. split; [done|congruence].
    + congruence.
    + right. split; congruence.
  - destruct p; simpl in Hs; try (left; right; by exists s).
    all: rewrite lookup_insert in Hs; case_decide; [subst m; injection Hs as <-; simpl in Htk; subst tk|];
      left; [left; by eexists _, _|right; by exists s].
Qed.

Lemma work_used m tk : owns (work n k i p w) m tk → tk ∈ iw_used (work n k i p w).
Proof.
  intros Ho. rewrite work_unfold. simpl. apply work_owns in Ho as [Ho|[_ ->]]; [|set_solver].
  apply (wi_used _ Hinv) in Ho. set_solver.
Qed.

Lemma work_unique m1 m2 tk :
  owns (work n k i p w) m1 tk → owns (work n k i p w) m2 tk → m1 = m2.
Proof.
  intros H1 H2. apply work_owns in H1 as [H1|[-> ->]]; apply work_owns in H2 as [H2|[-> E2]]; try done.
  - by eapply wi_unique.
  - subst. by apply (wi_used _ Hinv) in H1.
  - by apply (wi_used _ Hinv) in H2.
Qed.
(** The row this attempt works on, before and after. *)
Lemma work_rows : rows_forward (iw_rows w) t'.
Proof. apply advance_forward. Qed.

Lemma update_self g f t r : t !! k = Some r →
  (update_attempt k g f t).1 = g r
  ∧ (update_attempt k g f t).2 !! k = Some (if g r then f r else r).
Proof. intros Hr. unfold update_attempt. rewrite Hr. destruct (g r); simpl; [by rewrite lookup_insert_eq|done]. Qed.

(** A statement that answers has run; one that does not may have. *)
Lemma run_sql_self (fl : SqlFault) (g : InstallAttempt → bool) (f : InstallAttempt → InstallAttempt) (t : Attempts) r : t !! k = Some r →
  (∃ t1, run_sql fl (update_attempt k g f) t = (Some (g r), t1)
     ∧ t1 !! k = Some (if g r then f r else r))
  ∨ (∃ t1, run_sql fl (update_attempt k g f) t = (None, t1)
     ∧ (t1 !! k = Some r ∨ (g r = true ∧ t1 !! k = Some (f r)))).
Proof.
  intros Hr. destruct (update_self g f t r Hr) as [H1 H2]. destruct fl; simpl.
  - left. destruct (update_attempt k g f t) as [b t1]. simpl in *. subst b. eauto.
  - right. eauto.
  - right. eexists. split; [done|]. rewrite H2. destruct (g r); auto.
Qed.

Lemma work_phase r : iw_rows w !! k = Some r → phase_ok r p →
  ∃ r', t' !! k = Some r' ∧ phase_ok r' p'.
Proof.
  intros Hr Hp. destruct (work_rows _ _ Hr) as (r' & Hr' & Hfw). exists r'. split; [done|].
  unfold p', t' in *. destruct p; simpl in *.
  - pose proof (snapshot_forward _ _ _ Hfw Hp) as Hsnap. pose proof Hsnap as [Hq Hc]. simpl in *.
    destruct (ia_retry_until a) as [x|] eqn:Ex; [destruct (in_clock i <? x)%Z eqn:El|]; simpl in *; try done;
      (destruct (ia_completed a) eqn:Ec; simpl in *; try done).
    + split; [done|]. destruct (Hc eq_refl) as (_ & Hx & _). exists x. split; [congruence|lia].
  - done.
  - destruct Hp as [Hs Hc].
    pose proof (run_sql_self (in_fault i) (λ r, negb (String.eqb (ia_plan r) "") && String.eqb (ia_request r) (ia_request a)
          && dispatchable (ia_state r) && lease_over now (ia_lease_until r)
          && retry_open now (ia_retry_until r)) (λ r, set_dispatch DISPATCHING
            (if decide (ia_state r = DISPATCHING) then true else ia_had_unknown r)
            (Some token) (Some (now + dispatchLease)%Z)
            (match ia_retry_until r with Some x => Some x | None => Some (now + dispatchRetry)%Z end) r)
          (iw_rows w) r Hr) as Hrun.
    unfold AcquireInstallDispatch in *. destruct Hrun as [(t1 & E & Ht1)|(t1 & E & Ht1)]; rewrite E in *; simpl in *; [|done].
    destruct (_ && _) eqn:Eg in Hr', Ht1 |- *; simpl in *; [|done].
    split; [by eapply snapshot_forward|]. split; [done|]. rewrite Ht1 in Hr'. injection Hr' as <-.
    guard_facts. unfold licensed. simpl. unfold retry_open in *.
    destruct (ia_retry_until r) as [x|]; eexists; (split; [done|]); [lia|].
    unfold dispatchRetry, installReceiptWindow, second. lia.
  - destruct Hp as (Hs & Hc & Hl). destruct (in_fault i); try done.
    unfold GetInstallAttempt in *. rewrite Hr in *. destruct (ia_retry_until r) as [x|] eqn:Ex; [|done].
    simpl in *. rewrite Hr in Hr'. injection Hr' as <-. split; [|done].
    destruct Hs as [Hq _]. split; [done|]. simpl. congruence.
  - rewrite Hr in Hr'. by injection Hr' as <-.
  - destruct Hp as [[Hq Hc] Hl].
    destruct (in_reply i) as [res|err]; destruct (ia_completed a) eqn:Ec; simpl in *; repeat case_match; simpl in *; try done.
    + destruct (Hc eq_refl) as (Hs & _ & ? & ?). rewrite Hr in Hr'. injection Hr' as <-. done.
    + rewrite Hr in Hr'. injection Hr' as <-. done.
  - by destruct (run_sql _ _ _) as [[[]|] ?].
  - done.
  - destruct Hp as [Hq Hc]. unfold FinishInstallDispatch in *.
    pose proof (run_sql_self (in_fault i) (λ r, held_by token r && String.eqb (ia_request r) (ia_request a))
      (λ r, set_dispatch SUCCEEDED (ia_had_unknown r) None None (ia_retry_until r)
            (set_result true (ia_agent a) (ia_team a) r)) (iw_rows w) r Hr) as [(t1 & E & Ht1)|(t1 & E & Ht1)];
      rewrite E in *; simpl in *; [|done].
    destruct (_ && _) in Ht1, Hr' |- *; simpl in *; [|done]. rewrite Ht1 in Hr'. by injection Hr' as <-.
  - rewrite Hr in Hr'. by injection Hr' as <-.
Qed.
(** The record of what was sent, seen from the step. *)
Lemma sends_cases m s : note_send n k i p (iw_sends w) !! m = Some s →
  (iw_sends w !! m = Some s ∧ (m = n → ∀ a now tk, p ≠ WSend a now tk ∧ p ≠ WAwait a now tk))
  ∨ (m ≠ n ∧ iw_sends w !! m = Some s)
  ∨ (m = n ∧ sd_key s = k ∧ (
       (∃ a now tk, p = WSend a now tk ∧ s = mkSend k tk now (ia_completed a) (ia_request a) SPending)
       ∨ (∃ a now tk, p = WAwait a now tk
           ∧ s = mkSend k tk now (ia_completed a) (ia_request a) (answered (in_reply i))))).
Proof.
  intros Hs. destruct (decide (m = n)) as [->|Hne].
  - destruct p; simpl in Hs; try (left; split; [done|]; by intros).
    all: rewrite lookup_insert_eq in Hs; injection Hs as <-; right; right; split_and!; try done.
    + left. by eexists _, _, _.
    + right. by eexists _, _, _.
  - right. left. split; [done|].
    destruct p; simpl in Hs; try done; by rewrite lookup_insert_ne in Hs.
Qed.

Lemma work_send r r' m s : iw_rows w !! k = Some r → phase_ok r p → t' !! k = Some r' →
  note_send n k i p (iw_sends w) !! m = Some s → ∃ r1 q,
    t' !! sd_key s = Some r1 ∧ <[n := (k, p')]> (iw_workers w) !! m = Some (sd_key s, q)
    ∧ sd_request s = ia_request r1 ∧ licensed r1 (sd_now s)
    ∧ (sd_replay s = true → ia_state r1 = SUCCEEDED) ∧ sent_ok s q.
Proof.
  intros Hr Hp Hr' Hs. pose proof work_rows as Hfw.
  assert (∀ q1 r1 s1, iw_rows w !! sd_key s1 = Some r1 → iw_workers w !! m = Some (sd_key s1, q1) →
    sd_request s1 = ia_request r1 → licensed r1 (sd_now s1) → (sd_replay s1 = true → ia_state r1 = SUCCEEDED) →
    ∀ q, <[n := (k, p')]> (iw_workers w) !! m = Some (sd_key s1, q) → sent_ok s1 q →
    ∃ r1 q, t' !! sd_key s1 = Some r1 ∧ <[n := (k, p')]> (iw_workers w) !! m = Some (sd_key s1, q)
    ∧ sd_request s1 = ia_request r1 ∧ licensed r1 (sd_now s1)
    ∧ (sd_replay s1 = true → ia_state r1 = SUCCEEDED) ∧ sent_ok s1 q) as Hkeep.
  { intros q1 r1 s1 H1 H2 H3 H4 H5 q H6 H7. destruct (Hfw _ _ H1) as (r2 & Hr2 & Hf).
    exists r2, q. split_and!; try done.
    - rewrite H3. symmetry. apply Hf.
    - by eapply licensed_forward.
    - intros Hrep. specialize (H5 Hrep). by rewrite (fw_final _ _ Hf H5). }
  apply sends_cases in Hs as [[Hs Hn]|[[Hne Hs]|(-> & Hk & Hs)]].
  - destruct (wi_send _ Hinv _ _ Hs) as (r1 & q1 & H1 & H2 & H3 & H4 & H5 & H6).
    destruct (decide (m = n)) as [->|Hne].
    + rewrite Hw in H2. injection H2 as Hk1 <-. specialize (Hn eq_refl).
      eapply (Hkeep p); [done| |done..| |]; [by rewrite Hk1 in Hw|by rewrite lookup_insert_eq, Hk1|].
      unfold p'. destruct p; simpl in *; try done; try (by destruct (Hn a now token)).
      * destruct (run_sql _ _ _) as [[[]|] ?]; simpl; [done|..]; by destruct H6.
      * destruct (run_sql _ _ _) as [[[]|] ?]; simpl; done.
    + eapply (Hkeep q1); [done..|by rewrite lookup_insert_ne|done].
  - destruct (wi_send _ Hinv _ _ Hs) as (r1 & q1 & H1 & H2 & H3 & H4 & H5 & H6).
    eapply (Hkeep q1); [done..|by rewrite lookup_insert_ne|done].
  - clear Hk. destruct Hs as [(a & now & tk & -> & ->)|(a & now & tk & -> & ->)]; simpl in *;
      destruct Hp as [[Hq Hc] Hl].
    + eapply (Hkeep (WSend a now tk) r (mkSend _ _ _ _ _ _)); simpl; [done..| |by rewrite lookup_insert_eq|done]. naive_solver.
    + eapply (Hkeep (WAwait a now tk) r (mkSend _ _ _ _ _ _)); simpl; [done..| |by rewrite lookup_insert_eq|]; [naive_solver|].
      unfold p'. simpl. destruct (in_reply i); simpl; repeat case_match; simpl; done || (split; [done|]); 
        simplify_eq; try done; by rewrite H.
Qed.
(** The row keeps accounting for a dispatch, unless it is the one just refused. *)
Lemma row_accounts r r' tk : iw_rows w !! k = Some r → t' !! k = Some r' →
  ia_had_unknown r = false → ia_had_unknown r' = false →
  accounted r tk → accounted r' tk ∨ p = WFail tk.
Proof.
  intros Hr Hr' Hu Hu' Ha.
  assert (∀ g f fl, t' = (run_sql fl (update_attempt k g f) (iw_rows w)).2 →
    (g r = true → ia_had_unknown (f r) = false → accounted (f r) tk ∨ p = WFail tk) →
    accounted r' tk ∨ p = WFail tk) as Hupd.
  { intros g f fl Ht Hf. rewrite Ht in Hr'.
    destruct (run_sql_self fl g f _ r Hr) as [(t1 & E & H1)|(t1 & E & H1)]; rewrite E in Hr'; simpl in Hr'.
    - rewrite H1 in Hr'. injection Hr' as <-. destruct (g r); auto.
    - destruct H1 as [H1|[Hg H1]]; rewrite H1 in Hr'; injection Hr' as <-; auto. }
  unfold t' in *. destruct p; simpl in *.
  - revert Hr'. repeat case_match; simpl; rewrite Hr; intros [= <-]; auto.
  - eapply Hupd; [done|]. simpl. intros _ _. left. right. by left.
  - unfold AcquireInstallDispatch in *. eapply Hupd.
    + one_statement.
    + simpl. intros Hg Hn. guard_facts. case_decide; [done|]. exfalso. unfold accounted in Ha.
      destruct (ia_state r); naive_solver.
  - revert Hr'. repeat case_match; simpl; rewrite Hr; intros [= <-]; auto.
  - rewrite Hr in Hr'. injection Hr' as <-. auto.
  - revert Hr'. repeat case_match; simpl; rewrite Hr; intros [= <-]; auto.
  - unfold FailInstallDispatch in *. eapply Hupd.
    + one_statement.
    + simpl. intros Hg _. guard_facts. right. unfold accounted in Ha. f_equal. naive_solver congruence.
  - eapply Hupd; [done|]. simpl. done.
  - unfold FinishInstallDispatch in *. eapply Hupd.
    + one_statement.
    + intros _ _. left. by left.
  - rewrite Hr in Hr'. injection Hr' as <-. auto.
Qed.

(** A dispatch this attempt may now make is accounted for. *)
Lemma active_accounts r r' tk : iw_rows w !! k = Some r → t' !! k = Some r' →
  phase_ok r p → ia_had_unknown r' = false → active p' tk →
  active p tk ∨ accounted r' tk.
Proof.
  intros Hr Hr' Hp Hu. unfold p', t' in *. destruct p; simpl in *; try done.
  - repeat case_match; simpl; try done. all: intros [? _]; congruence.
  - unfold AcquireInstallDispatch in *.
    destruct (run_sql_self (in_fault i) (λ r, negb (String.eqb (ia_plan r) "") && String.eqb (ia_request r) (ia_request a)
          && dispatchable (ia_state r) && lease_over now (ia_lease_until r)
          && retry_open now (ia_retry_until r)) (λ r, set_dispatch DISPATCHING
            (if decide (ia_state r = DISPATCHING) then true else ia_had_unknown r)
            (Some token) (Some (now + dispatchLease)%Z)
            (match ia_retry_until r with Some x => Some x | None => Some (now + dispatchRetry)%Z end) r)
          (iw_rows w) r Hr) as [(t1 & E & Ht1)|(t1 & E & Ht1)]; rewrite E in *; simpl in *; [|done].
    destruct (_ && _); simpl in *; [|done]. rewrite Ht1 in Hr'. injection Hr' as <-.
    intros <-. right. right. right. done.
  - destruct (in_fault i); try done. destruct (GetInstallAttempt k (iw_rows w)); try done.
    destruct (ia_retry_until _); try done. simpl. intros [_ ?]. by left.
  - by left.
  - repeat case_match; simpl; done.
  - by destruct (run_sql _ _ _) as [[[]|] ?].
  - by destruct (run_sql _ _ _) as [[[]|] ?].
Qed.

Lemma work_accounts k1 r1 : t' !! k1 = Some r1 → ia_had_unknown r1 = false →
  accounts (work n k i p w) k1 r1.
Proof.
  intros Hr1 Hu. rewrite work_unfold. unfold accounts. simpl. destruct (decide (k1 = k)) as [->|Hne].
  - destruct work_row as (r & Hr & Hp). destruct (work_rows _ _ Hr) as (r' & Hr' & Hf).
    rewrite Hr1 in Hr'. injection Hr' as <-.
    assert (ia_had_unknown r = false) as Hur.
    { destruct (ia_had_unknown r) eqn:E; [|done]. by rewrite (fw_unknown _ _ Hf E) in Hu. }
    destruct (wi_accounts _ Hinv _ _ Hr Hur) as [Hs Ha].
    assert (∀ tk, accounted r tk → p ≠ WFail tk → accounted r1 tk) as Hkeep.
    { intros tk Hacc Hn. by destruct (row_accounts _ _ _ Hr Hr1 Hur Hu Hacc). }
    split.
    + intros m s Hm Hk Hst. apply sends_cases in Hm as [[Hm _]|[[Hmn Hm]|(-> & _ & Hnew)]].
      1,2: apply Hkeep; [by eapply Hs|]; intros Hpf;
        destruct (wi_send _ Hinv _ _ Hm) as (r2 & q & _ & Hq & _ & _ & _ & Hok);
        assert (m = n) as -> by (eapply (wi_unique _ Hinv); [right; by exists s|left; exists k, p; split; [done|by rewrite Hpf]]);
        rewrite Hw in Hq; injection Hq as _ <-; rewrite Hpf in Hok; simpl in Hok; by destruct Hok.
      assert (∀ a now tk, (p = WSend a now tk ∨ p = WAwait a now tk) → accounted r1 tk) as Hnow.
      { intros a now tk Hpw. destruct (ia_completed a) eqn:Ec.
        - left. assert (ia_state r = SUCCEEDED) as Hsu.
          { destruct Hpw as [Hpw|Hpw]; rewrite Hpw in Hp; simpl in Hp; destruct Hp as [[_ Hc] _]; by apply Hc. }
          by rewrite (fw_final _ _ Hf Hsu).
        - apply Hkeep; [|by destruct Hpw as [->| ->]]. apply (Ha n p); [done|].
          by destruct Hpw as [->| ->]. }
      destruct Hnew as [(a & now & tk & Hpw & ->)|(a & now & tk & Hpw & ->)]; simpl; eapply Hnow; eauto.
    + intros m q tk Hq Hact. rewrite lookup_insert in Hq. case_decide as Hm.
      * subst m. injection Hq as <-. destruct (active_accounts _ _ _ Hr Hr1 Hp Hu Hact) as [Hold|]; [|done].
        apply Hkeep; [by apply (Ha n p)|]. intros Hpf. by rewrite Hpf in Hold.
      * apply Hkeep; [by eapply Ha|]. intros Hpf. apply Hm. symmetry.
        eapply (wi_unique _ Hinv); [left; exists k, q; split; [done|]|left; exists k, p; split; [done|by rewrite Hpf]].
        destruct q; simpl in *; naive_solver.
  - rewrite (work_other k1 Hne) in Hr1. destruct (wi_accounts _ Hinv _ _ Hr1 Hu) as [Hs Ha]. split.
    + intros m s Hm Hk Hst. apply sends_cases in Hm as [[Hm _]|[[_ Hm]|(_ & Hk' & _)]];
        [by eapply Hs..|congruence].
    + intros m q tk Hq. rewrite lookup_insert in Hq. case_decide; [|by eapply Ha].
      injection Hq as <- <-. done.
Qed.

(** An installation is counted by the step that makes its row succeed. *)
Lemma work_installs :
  let l := note_install k p p' (iw_installs w) in
  NoDup l ∧ ∀ k1, k1 ∈ l → ∃ r, t' !! k1 = Some r ∧ ia_state r = SUCCEEDED.
Proof.
  destruct (wi_installs _ Hinv) as [Hnd Hin].
  assert (∀ k1, k1 ∈ iw_installs w → ∃ r, t' !! k1 = Some r ∧ ia_state r = SUCCEEDED) as Hkeep.
  { intros k1 H1. destruct (Hin _ H1) as (r & Hr & Hs). destruct (work_rows _ _ Hr) as (r' & Hr' & Hf).
    exists r'. by rewrite (fw_final _ _ Hf Hs) in *. }
  destruct work_row as (r & Hr & _). cbv zeta. unfold p', t' in *.
  destruct p; simpl in *; try done. unfold FinishInstallDispatch in *.
  destruct (run_sql_self (in_fault i) (λ r, held_by token r && String.eqb (ia_request r) (ia_request a))
      (λ r, set_dispatch SUCCEEDED (ia_had_unknown r) None None (ia_retry_until r)
            (set_result true (ia_agent a) (ia_team a) r)) (iw_rows w) r Hr) as [(t1 & E & Ht1)|(t1 & E & Ht1)];
    rewrite E in Hkeep |- *; simpl in *; [|done].
  destruct (_ && _) eqn:Eg; simpl in *; [|done]. guard_facts. split.
  - constructor; [|done]. intros Hk. destruct (Hin _ Hk) as (r2 & Hr2 & ?). congruence.
  - intros k1 Hk1. apply elem_of_cons in Hk1 as [->|Hk1]; [by eexists|by apply Hkeep].
Qed.
End Work.

Lemma work_inv w n k p i :
  iw_workers w !! n = Some (k, p) → in_token i ∉ iw_used w → in_clock i = iw_clock w →
  winv w → winv (work n k i p w).
Proof.
  intros Hw Hfr Hcl Hinv. destruct (work_row _ _ _ _ Hw Hinv) as (r & Hr & Hp).
  assert (∃ r', (advance k i p (iw_rows w)).2 !! k = Some r' ∧ phase_ok r' (advance k i p (iw_rows w)).1)
    as (r' & Hr' & Hp') by (by eapply work_phase).
  pose proof (work_rows w k p i) as Hfw.
  split; try (intros; (by eapply work_used) || (by eapply work_unique)); rewrite ?work_unfold; simpl.
  - intros k1 r1 Hr1. destruct (decide (k1 = k)) as [->|Hne].
    + rewrite Hr' in Hr1. injection Hr1 as <-. destruct (Hfw _ _ Hr) as (r2 & Hr2 & Hf).
      rewrite Hr' in Hr2. injection Hr2 as <-. by apply Hf, (wi_rows _ Hinv _ _ Hr).
    + assert (iw_rows w !! k1 = Some r1) as Hold by (by erewrite <-work_other).
      by eapply wi_rows.
  - intros m k1 q Hq. rewrite lookup_insert in Hq. case_decide as Hm.
    + injection Hq as <- <-. by exists r'.
    + destruct (wi_phase _ Hinv _ _ _ Hq) as (r1 & Hr1 & Hq1). destruct (Hfw _ _ Hr1) as (r2 & ? & ?).
      exists r2. split; [done|]. by eapply phase_forward.
  - intros m s Hs. by eapply work_send.
  - intros k1 r1 Hr1 Hu. rewrite <-(work_unfold _ _ _ _ _). by eapply work_accounts.
  - by eapply work_installs.
Qed.

Lemma istep_inv w w' : istep w w' → winv w → winv w'.
Proof.
  intros Hst Hinv. destruct Hst as [w t Ht|w k a|w n k a Hn Ha|w n k p i Hw Hc Hf].
  - destruct Hinv. by split.
  - pose proof (claim_forward (iw_clock w) k a (iw_rows w)) as Hfw.
    destruct Hinv as [Hr Hp Hs Hu Hq Hacc [Hnd Hi]].
    assert (∀ k1 r1, ClaimInstallAttempt (iw_clock w) k a (iw_rows w) !! k1 = Some r1 →
      iw_rows w !! k1 = Some r1 ∨ (iw_rows w !! k1 = None ∧ ia_completed r1 = false ∧ ia_state r1 ≠ SUCCEEDED)) as Hcl.
    { intros k1 r1. unfold ClaimInstallAttempt. destruct (iw_rows w !! k) eqn:E; [auto|].
      rewrite lookup_insert. case_decide; [subst|auto]. intros [= <-]. right. simpl.
      unfold installInitialState. by case_match. }
    split; simpl; try done.
    + intros k1 r1 Hr1. destruct (Hcl _ _ Hr1) as [|(_ & -> & ?)]; [by eapply Hr|done].
    + intros n k1 p Hw. destruct (Hp _ _ _ Hw) as (r & Hr0 & Hok). destruct (Hfw _ _ Hr0) as (r' & ? & ?).
      exists r'. split; [done|]. by eapply phase_forward.
    + intros n s Hs0. destruct (Hs _ _ Hs0) as (r & p & Hr0 & ? & Hreq & Hl & Hrep & ?).
      destruct (Hfw _ _ Hr0) as (r' & ? & Hf). exists r', p. split_and!; try done.
      * rewrite Hreq. symmetry. apply Hf.
      * by eapply licensed_forward.
      * intros Hx. specialize (Hrep Hx). by rewrite (fw_final _ _ Hf Hrep).
    + intros k1 r1 Hr1 Hu1. destruct (Hcl _ _ Hr1) as [Hold|(Hnone & _)]; [by eapply Hacc|].
      split; simpl.
      * intros n s Hs0 <-. destruct (Hs _ _ Hs0) as (r & p & Hr0 & _). congruence.
      * intros n p tk Hw0. destruct (Hp _ _ _ Hw0) as (r & Hr0 & _). congruence.
    + split; [done|]. intros k1 H1. destruct (Hi _ H1) as (r & Hr0 & Hsu).
      destruct (Hfw _ _ Hr0) as (r' & ? & Hf). exists r'. by rewrite (fw_final _ _ Hf Hsu) in *.
  - destruct Hinv as [Hr Hp Hs Hu Hq Hacc Hi]. unfold GetInstallAttempt in Ha.
    assert (∀ m s, iw_sends w !! m = Some s → m ≠ n) as Hnot.
    { intros m s Hm ->. destruct (Hs _ _ Hm) as (? & ? & _ & ? & _). congruence. }
    assert (∀ m tk, owns (mkIWorld (iw_clock w) (iw_rows w) (<[n := (k, WChecked a)]> (iw_workers w))
               (iw_used w) (iw_sends w) (iw_installs w)) m tk → owns w m tk) as Hown.
    { intros m tk [(k1 & q & Hq1 & Htk)|(s & Hs1 & ?)]; [|right; by exists s]. simpl in Hq1.
      rewrite lookup_insert in Hq1. case_decide; [injection Hq1 as <- <-; done|]. left. by exists k1, q. }
    split; simpl; try done.
    + intros m k1 q Hm. rewrite lookup_insert in Hm. case_decide; [|by eapply Hp].
      injection Hm as <- <-. exists a. split; [done|]. split; [done|].
      intros Hc. split; [by eapply Hr|done].
    + intros m s Hm. destruct (Hs _ _ Hm) as (r & q & ?). exists r, q.
      rewrite lookup_insert_ne by (intros <-; by eapply Hnot). done.
    + eauto.
    + eauto.
    + intros k1 r1 Hr1 Hu1. destruct (Hacc _ _ Hr1 Hu1) as [H1 H2]. split; [done|]. simpl.
      intros m q tk Hm. rewrite lookup_insert in Hm. case_decide; [|by eapply H2].
      by injection Hm as <- <-.
  - by apply work_inv.
Qed.

Lemma ireached_inv w : ireached w → winv w.
Proof.
  intros [t0 Hr]. assert (winv (quiet t0)) as H0.
  { split; simpl; try (intros *; by rewrite ?lookup_empty); try done.
    - intros n tk [(? & ? & H & _)|(? & H & _)]; by simpl in H.
    - intros n m tk [(? & ? & H & _)|(? & H & _)]; by simpl in H.
    - split; [constructor|]. set_solver. }
  revert H0. induction Hr as [|x y z Hxy _ IH]; [done|]. intros Hx. apply IH. by eapply istep_inv.
Qed.

(** ** What the protocol guarantees *)

Lemma steps_forward w w' : rtc istep w w' → rows_forward (iw_rows w) (iw_rows w').
Proof. induction 1 as [|x y z Hxy _ IH]; [done|]. etrans; [by eapply istep_forward|done]. Qed.

(** Deadlines lie at most [dispatchRetry] ahead of the clock. *)
Definition now_of (p : Phase) : option Z :=
  match p with
  | WAcquire _ now _ | WRefresh _ now _ | WSend _ now _ | WAwait _ now _ => Some now
  | _ => None
  end.
Definition deadlines_ok (w : IWorld) : Prop :=
  (∀ k r x, iw_rows w !! k = Some r → ia_retry_until r = Some x → (x ≤ iw_clock w + dispatchRetry)%Z)
  ∧ (∀ n k p now, iw_workers w !! n = Some (k, p) → now_of p = Some now → (now ≤ iw_clock w)%Z).

Lemma update_deadline k g f t (Q : Z → Prop) :
  (∀ k1 r x, t !! k1 = Some r → ia_retry_until r = Some x → Q x) →
  (∀ r x, ia_retry_until (f r) = Some x → ia_retry_until r = Some x ∨ Q x) →
  ∀ fl k1 r x, (run_sql fl (update_attempt k g f) t).2 !! k1 = Some r → ia_retry_until r = Some x → Q x.
Proof.
  intros Ht Hf fl k1 r x.
  assert ((update_attempt k g f t).2 !! k1 = Some r → ia_retry_until r = Some x → Q x) as Hu.
  { unfold update_attempt. destruct (t !! k) as [a|] eqn:E; [|by apply Ht].
    destruct (g a); [|by apply Ht]. simpl. rewrite lookup_insert. case_decide; [|by apply Ht].
    intros [= <-] Hx. destruct (Hf _ _ Hx); [by eapply Ht|done]. }
  destruct fl; simpl; [|by apply Ht|done]. by destruct (update_attempt k g f t).
Qed.

Lemma advance_deadline k i p t c :
  (∀ k1 r x, t !! k1 = Some r → ia_retry_until r = Some x → (x ≤ c + dispatchRetry)%Z) →
  (∀ now, now_of p = Some now → (now ≤ c)%Z) → in_clock i = c →
  (∀ k1 r x, (advance k i p t).2 !! k1 = Some r → ia_retry_until r = Some x → (x ≤ c + dispatchRetry)%Z)
  ∧ (∀ now, now_of (advance k i p t).1 = Some now → (now ≤ c)%Z).
Proof.
  intros Ht Hn Hc.
  assert (∀ fl g f, (∀ r x, ia_retry_until (f r) = Some x → ia_retry_until r = Some x ∨ (x ≤ c + dispatchRetry)%Z) →
    ∀ t1, t1 = (run_sql fl (update_attempt k g f) t).2 →
    ∀ k1 r x, t1 !! k1 = Some r → ia_retry_until r = Some x → (x ≤ c + dispatchRetry)%Z) as Hu.
  { intros fl g f Hf t1 -> k1 r x. by apply (update_deadline k g f t (λ x, (x ≤ c + dispatchRetry)%Z)). }
  destruct p; simpl in *; (split; [|
    repeat (case_match; simpl); try done; intros ? [= <-]; (lia || by apply Hn)]);
    try exact Ht; try (repeat case_match; exact Ht).
  - eapply Hu; [|reflexivity]. simpl. auto.
  - eapply Hu; [|one_statement]. simpl. intros r x. specialize (Hn _ eq_refl).
    destruct (ia_retry_until r); intros [= <-]; [by left|right; lia].
  - eapply Hu; [|one_statement]. simpl. auto.
  - eapply Hu; [|reflexivity]. simpl. auto.
  - eapply Hu; [|one_statement]. simpl. auto.
Qed.

Lemma ireached_deadlines w : ireached w → deadlines_ok w.
Proof.
  intros [t0 Hr]. assert (deadlines_ok (quiet t0)) as H0 by (split; simpl; intros *; by rewrite lookup_empty).
  revert H0. induction Hr as [|x y z Hxy _ IH]; [done|]. intros [H1 H2]. apply IH. clear IH z.
  destruct Hxy as [w t Ht|w k a|w n k a Hn Ha|w n k p i Hw Hc Hf].
  - split; simpl; intros.
    + specialize (H1 _ _ _ H H0). lia.
    + specialize (H2 _ _ _ _ H H0). lia.
  - split; [|done]. simpl. intros k1 r x. unfold ClaimInstallAttempt. case_match; [apply H1|].
    rewrite lookup_insert. case_decide; [|apply H1]. by intros [= <-].
  - split; [done|]. simpl. intros m k1 p now. rewrite lookup_insert. case_decide; [|apply H2].
    by intros [= <- <-].
  - rewrite work_unfold. destruct (advance_deadline k i p (iw_rows w) (iw_clock w) H1) as [H3 H4]; [|done|].
    { intros now. by apply (H2 n k p). }
    split; simpl; [exact H3|]. intros m k1 q now. rewrite lookup_insert. case_decide; [|apply H2].
    intros [= <- <-]. apply H4.
Qed.

(** C21: a refusal is reported only when it is certain. Whatever fails or crashes
    and however retries overlap, when an attempt ends telling the client that
    the installation was definitely refused, either the installation is already
    recorded as succeeded (and this was a replay of it), or every request ever
    dispatched under the key has been refused by Fleet: none may still create a
    second resource. *)
Theorem install_refusal_certain w w' n k p :
  ireached w → istep w w' →
  iw_workers w !! n = Some (k, p) → p ≠ WDone (OAttempt false) →
  iw_workers w' !! n = Some (k, WDone (OAttempt false)) →
  (∃ r, iw_rows w' !! k = Some r ∧ ia_state r = SUCCEEDED)
  ∨ (∀ m s, iw_sends w' !! m = Some s → sd_key s = k → sd_state s = SRejected).
Proof.
  intros Hre Hst Hw Hne Hw'. pose proof (ireached_inv _ Hre) as Hinv.
  pose proof (istep_inv _ _ Hst Hinv) as Hinv'.
  destruct Hst as [w t Ht|w k1 a|w m k1 a Hm Ha|w m k1 q i Hq Hc Hf]; simpl in Hw'; try congruence.
  { rewrite lookup_insert in Hw'. case_decide; congruence. }
  rewrite work_unfold in Hw', Hinv' |- *. simpl in Hw' |- *. rewrite lookup_insert in Hw'.
  case_decide as Hmn; [|congruence]. subst m. rewrite Hw in Hq. injection Hq as <- <-.
  injection Hw' as Hdone. destruct (wi_phase _ Hinv _ _ _ Hw) as (r & Hr & Hp).
  destruct p; simpl in *; try (revert Hdone; repeat case_match; simpl; congruence).
  - left. exists r. split; [|].
    + revert Hdone. repeat case_match; simpl; done.
    + destruct Hp as [[_ Hs] _]. revert Hdone.
      destruct (in_reply i); destruct (ia_completed a); simpl; repeat case_match; try done; naive_solver.
  - right. unfold FailInstallDispatch in *.
    destruct (run_sql_self k (in_fault i) (λ r, held_by token r && negb (ia_had_unknown r))
      (λ r, set_dispatch FAILED (ia_had_unknown r) None None (ia_retry_until r) r) (iw_rows w) r Hr)
      as [(t1 & E & Ht1)|(t1 & E & Ht1)]; rewrite E in *; [|done].
    destruct (_ && _) eqn:Eg; [|done]. guard_facts. simpl in *.
    intros m s Hs Hk. destruct (wi_accounts _ Hinv' k _ Ht1) as [Hall _]; [done|].
    destruct (decide (sd_state s = SRejected)) as [|Hn]; [done|]. exfalso.
    destruct (Hall _ _ Hs Hk Hn) as [?|[?|[? _]]]; done.
  - by destruct (run_sql _ _ _) as [[[]|] ?].
Qed.

(** C35: an installation is recorded and counted once. In every reachable state
    no key is counted twice, a counted key's row has succeeded, and all attempts
    of a key that were answered with success, replays included, got the agent
    and the team of its row. *)
Theorem install_counted_once w :
  ireached w →
  NoDup (iw_installs w)
  ∧ (∀ k, k ∈ iw_installs w → ∃ r, iw_rows w !! k = Some r ∧ ia_state r = SUCCEEDED)
  ∧ (∀ n k agent team replayed, iw_workers w !! n = Some (k, WDone (OInstalled agent team replayed)) →
      ∃ r, iw_rows w !! k = Some r ∧ ia_state r = SUCCEEDED
        ∧ ia_agent r = agent ∧ ia_team r = team).
Proof.
  intros Hre. pose proof (ireached_inv _ Hre) as Hinv. destruct (wi_installs _ Hinv) as [Hnd Hin].
  split_and!; [done..|]. intros n k agent team replayed Hw.
  destruct (wi_phase _ Hinv _ _ _ Hw) as (r & Hr & Hp). by exists r.
Qed.

(** The retry window. Every request handed to Fleet is the one frozen when
    the key was claimed, dispatched before the row's deadline; the deadline is
    at most 24 hours less a minute ahead when it is set, and nothing that runs
    later moves it, changes the frozen request, forgets an uncertainty, or
    touches a row that has succeeded. *)
Theorem install_retry_window w w' :
  ireached w → rtc istep w w' →
  (∀ n s, iw_sends w !! n = Some s → ∃ r x,
     iw_rows w !! sd_key s = Some r ∧ sd_request s = ia_request r
     ∧ ia_retry_until r = Some x ∧ (sd_now s < x)%Z)
  ∧ (∀ k r x, iw_rows w !! k = Some r → ia_retry_until r = Some x →
       (x ≤ iw_clock w + (installReceiptWindow - 60 * second))%Z)
  ∧ (∀ k r, iw_rows w !! k = Some r → ∃ r', iw_rows w' !! k = Some r' ∧ forward r r').
Proof.
  intros Hre Hst. pose proof (ireached_inv _ Hre) as Hinv. split_and!.
  - intros n s Hs. destruct (wi_send _ Hinv _ _ Hs) as (r & p & Hr & _ & Hq & (x & Hx & ?) & _).
    by exists r, x.
  - apply (ireached_deadlines _ Hre).
  - intros k r Hr. exact (steps_forward _ _ Hst _ _ Hr).
Qed.

(** ** Concrete runs *)

(** The steps of one attempt, an input each. *)
Fixpoint walk (n : nat) (ins : list Input) (w : IWorld) : IWorld :=
  match ins with
  | [] => w
  | i :: ins' =>
      match iw_workers w !! n with Some (k, p) => walk n ins' (work n k i p w) | None => w end
  end.

Lemma work_frame n k i p w :
  iw_clock (work n k i p w) = iw_clock w ∧ iw_used (work n k i p w) = in_token i :: iw_used w.
Proof. unfold work. by destruct (advance _ _ _ _). Qed.

Lemma walk_steps n ins w :
  Forall (λ i, in_clock i = iw_clock w) ins → NoDup (map in_token ins ++ iw_used w) →
  rtc istep w (walk n ins w).
Proof.
  revert w. induction ins as [|i ins IH]; intros w Hc Hu; [done|].
  inversion Hc as [|?? Hi Hc']; subst. simpl in Hu. apply NoDup_cons in Hu as [Hni Hu]. cbn [walk].
  destruct (iw_workers w !! n) as [[k p]|] eqn:Hw; [|done].
  eapply rtc_l; [apply (is_work w n k p i); [done|done|set_solver]|].
  destruct (work_frame n k i p w) as [Hck Hus]. apply IH.
  - by rewrite Hck.
  - rewrite Hus. rewrite <-Permutation_middle. simpl. apply NoDup_cons. split; [|done]. set_solver.
Qed.

Definition demo_key : AKey := ("s1", "u1", "ws", "digest").
Definition demo_attempt : InstallAttempt :=
  mkAttempt "p" "v" "claude" "in" "frozen" "" "" false 0 "plan" "hk" "int" PREPARED false None None None.
Definition demo_row : InstallAttempt := mkAttempt "p" "v" "" "in" "frozen" "" "" false 0 "plan" "hk" "int" PREPARED false None None None.

(** A claimed key and one attempt that has read its row. *)
Definition begun : IWorld :=
  let t := ClaimInstallAttempt 0 demo_key demo_attempt ∅ in
  mkIWorld 0 t {[ 0%nat := (demo_key, WChecked (default demo_attempt (t !! demo_key))) ]} [] ∅ [].

Lemma begun_reached : ireached begun.
Proof.
  exists 0%Z. eapply rtc_l; [apply (is_claim (quiet 0) demo_key demo_attempt)|].
  apply rtc_once. apply is_begin; [reflexivity|vm_compute; reflexivity].
Qed.

Definition fleet_says (r : result FleetError FleetResult) : list Input :=
  map (λ t, mkInput 0 SqlOk t r) ["t0"; "t1"; "t2"; "t3"; "t4"; "t5"].
Definition installed : IWorld := walk 0 (fleet_says (Ok (mkFleetResult "agent" "team" false))) begun.
Definition refused (n : nat) : IWorld :=
  walk 0 (firstn n (fleet_says (Error (Some (422%Z, "INVALID", ""))))) begun.

Lemma installed_reached : ireached installed.
Proof.
  destruct begun_reached as [t0 H]. exists t0. etrans; [exact H|]. apply walk_steps.
  - repeat constructor.
  - apply (bool_decide_unpack _). vm_compute. exact I.
Qed.
Lemma refused_reached n : (n ≤ 6)%nat → ireached (refused n).
Proof.
  intros Hn. destruct begun_reached as [t0 H]. exists t0. etrans; [exact H|]. apply walk_steps.
  - apply Forall_take. repeat constructor.
  - do 7 (destruct n as [|n]; [apply (bool_decide_unpack _); vm_compute; exact I|]). lia.
Qed.

Lemma install_counted_once_witness :
  iw_workers installed !! 0%nat = Some (demo_key, WDone (OInstalled "agent" "team" false))
  ∧ NoDup (iw_installs installed) ∧ iw_installs installed = [demo_key].
Proof.
  split; [vm_compute; reflexivity|]. split; [|vm_compute; reflexivity].
  destruct (install_counted_once installed installed_reached) as [H _]. exact H.
Defined.

(** The attempt hears a definite refusal, records it, and ends. *)
Lemma install_refusal_certain_witness :
  iw_workers (refused 6) !! 0%nat = Some (demo_key, WDone (OAttempt false))
  ∧ ((∃ r, iw_rows (refused 6) !! demo_key = Some r ∧ ia_state r = SUCCEEDED)
     ∨ (∀ m s, iw_sends (refused 6) !! m = Some s → sd_key s = demo_key → sd_state s = SRejected)).
Proof.
  assert (iw_workers (refused 6) !! 0%nat = Some (demo_key, WDone (OAttempt false))) as Hdone
    by (vm_compute; reflexivity).
  split; [exact Hdone|].
  assert (∃ p, iw_workers (refused 5) !! 0%nat = Some (demo_key, p) ∧ p ≠ WDone (OAttempt false)
    ∧ refused 6 = work 0 demo_key (mkInput 0 SqlOk "t5" (Error (Some (422%Z, "INVALID", "")))) p (refused 5))
    as (p & Hp & Hne & Hw).
  { eexists. split; [vm_compute; reflexivity|]. split; [discriminate|]. vm_compute. reflexivity. }
  apply (install_refusal_certain (refused 5) (refused 6) 0 demo_key p); [apply refused_reached; lia| |exact Hp|exact Hne|exact Hdone].
  rewrite Hw. apply is_work; [exact Hp|vm_compute; reflexivity|].
  apply (bool_decide_unpack _). vm_compute. exact I.
Defined.
