(* ===== verification/Reads.v ===== *)
(** * Scoped reads

    Who sees what: the catalog visibility predicate, the review reads of
    review.go and listing.go, and the paging of the review queue. *)

From S2P Require Import Prelude GoStrings Version Model Store Rows RowWrites Write Review Listing Changes Operations Lifecycle.
Import Go.
Local Open Scope string_scope.

(** The catalog predicate. A caller who is not the owner in the plugin's
    Space sees a plugin exactly when it is a system (or legacy public) one, or
    it is listed (space and published) in the caller's own Space; so a draft,
    a delisted or a private plugin is visible only to its owner. *)
Theorem catalog_visibility spaceID callerUID p :
  visibilitySQL spaceID callerUID p = true ↔
  (Visibility p = VPublic ∨ Visibility p = VSystem)
  ∨ (SpaceID p = Some spaceID ∧ (listed p = true ∨ OwnerUID p = callerUID)).
Proof.
  unfold visibilitySQL, listed.
  rewrite !orb_true_iff, !andb_true_iff, !orb_true_iff, !andb_true_iff, !bool_decide_eq_true,
    String.eqb_eq. naive_solver.
Qed.

(** What a caller may read of the queue: a request of the caller's Space, not
    deleted, on an undeleted plugin, and the caller's own unless a reviewer. *)
Definition readable (scope : Scope) (isReviewer : bool) (d : Db) (r : ReviewRow) : Prop :=
  rr_space_id r = ScopeSpaceID scope ∧ rr_deleted_at r = None
  ∧ (∃ p, plugins d !! rr_plugin_id r = Some p ∧ DeletedAt p = None)
  ∧ (isReviewer = true ∨ rr_applicant_uid r = CallerUID scope).

Lemma plugin_not_deleted_spec d r :
  plugin_not_deleted d r = true ↔ ∃ p, plugins d !! rr_plugin_id r = Some p ∧ DeletedAt p = None.
Proof.
  unfold plugin_not_deleted. destruct (plugins d !! rr_plugin_id r) as [p|]; [|naive_solver].
  rewrite not_deleted_true. naive_solver.
Qed.

(** A single request is returned exactly to those who may read it; anything
    else, a foreign Space included, is indistinguishable from a missing row. *)
Theorem review_read_isolated scope id isReviewer d res :
  GetReviewRequest scope id isReviewer d = res ↔
  match res with
  | Ok r => reviews d !! id = Some r ∧ readable scope isReviewer d r
  | Error err => err = ErrNotFound
      ∧ ∀ r, reviews d !! id = Some r → ¬ readable scope isReviewer d r
  end.
Proof.
  assert (∀ r, rr_live r && plugin_not_deleted d r
               && reviewWhereScope (ScopeSpaceID scope) (CallerUID scope) isReviewer r = true
               ↔ readable scope isReviewer d r) as Hspec.
  { intros r. unfold readable, rr_live, reviewWhereScope, rr_in_space.
    rewrite !andb_true_iff, orb_true_iff, bool_decide_eq_true, !String.eqb_eq,
      plugin_not_deleted_spec. naive_solver. }
  unfold GetReviewRequest, find_review.
  destruct (reviews d !! id) as [r|] eqn:Hr; simpl.
  - destruct (_ && _) eqn:HP; simpl.
    + apply Hspec in HP. split; [intros <-; done|]. destruct res as [r'|]; naive_solver.
    + apply not_true_iff_false in HP. rewrite Hspec in HP.
      split; [intros <-; naive_solver|]. destruct res as [r'|]; naive_solver.
  - split; [intros <-; naive_solver|]. destruct res as [r'|]; naive_solver.
Qed.

#[export] Instance review_newer_total : Total review_newer.
Proof.
  intros a b. unfold review_newer.
  destruct (Z.lt_trichotomy (rr_submitted_at a) (rr_submitted_at b)) as [?|[Heq|?]]; auto.
  destruct (String.leb_total (rr_id a) (rr_id b)); [right|left]; right; auto.
Qed.

(** The page size the code settles on. *)
Definition page_limit (f : ReviewListFilter) : nat :=
  if ((rf_limit f <=? 0) || (100 <? rf_limit f))%Z then 20%nat else Z.to_nat (rf_limit f).

Definition matching (f : ReviewListFilter) (d : Db) : list ReviewRow :=
  filter (λ r, review_matches f d r = true) (map_to_list (reviews d)).*2.

Lemma Sorted_firstn {A} (R : A → A → Prop) n (l : list A) : Sorted R l → Sorted R (firstn n l).
Proof.
  revert n. induction l as [|x l IH]; intros [|n] Hs; simpl; try constructor.
  - apply IH. by inversion Hs.
  - inversion Hs as [|? ? ? Hh]; subst. destruct l, n; simpl; constructor. by inversion Hh.
Qed.
Lemma Sorted_skipn {A} (R : A → A → Prop) n (l : list A) : Sorted R l → Sorted R (skipn n l).
Proof.
  revert l. induction n as [|n IH]; intros [|x l] Hs; simpl; try done. apply IH. by inversion Hs.
Qed.

(** The review queue pages soundly. A page never exceeds the effective
    limit (at most 100), is newest first, holds only matching requests, and the
    total counts all of them; the pages taken at consecutive offsets partition
    the matching requests. *)
Theorem review_queue_pages f d page total :
  ListReviewRequests f d = (page, total) →
  (length page ≤ page_limit f)%nat ∧ (page_limit f ≤ 100)%nat
  ∧ Sorted review_newer page
  ∧ (∀ r, r ∈ page → review_matches f d r = true)
  ∧ total = length (matching f d)
  ∧ ∃ before after, (before ++ page ++ after)%list ≡ₚ matching f d
      ∧ length before = Nat.min (Z.to_nat (rf_offset f)) total
      ∧ (length page < page_limit f → after = [])%nat.
Proof.
  unfold ListReviewRequests. fold (matching f d). fold (page_limit f).
  set (off := if (rf_offset f <? 0)%Z then 0%nat else Z.to_nat (rf_offset f)).
  intros [= <- <-].
  assert (off = Z.to_nat (rf_offset f)) as Hoff.
  { unfold off. destruct (Z.ltb_spec (rf_offset f) 0); lia. }
  set (all := merge_sort review_newer (matching f d)).
  assert (all ≡ₚ matching f d) as Hperm by apply merge_sort_Permutation.
  split_and!.
  - rewrite length_firstn. lia.
  - unfold page_limit. destruct (_ || _) eqn:E; [lia|]. bool_facts. lia.
  - apply Sorted_firstn, Sorted_skipn, Sorted_merge_sort, _.
  - intros r Hr. assert (r ∈ matching f d) as Hm.
    { rewrite <-Hperm, <-(firstn_skipn off all), <-(firstn_skipn (page_limit f) (skipn off all)).
      set_solver. }
    by apply list_elem_of_filter in Hm as [? _].
  - done.
  - exists (firstn off all), (skipn (page_limit f) (skipn off all)).
    rewrite firstn_skipn, firstn_skipn. split; [done|].
    rewrite <-Hoff, !length_firstn, (Permutation_length Hperm). split; [lia|].
    intros Hlt. apply skipn_all2. lia.
Qed.
