(* ===== verification/Queries.v ===== *)
(** * Catalog queries: repository/plugin/read.go and graph_review.go

    Reads outside transactions: every SELECT sees the tables as they are when
    it runs, so a query of several SELECTs may see several states. The detail
    of a plugin, the closure of its relation graph with the caps enforced while
    the rows are drained, and the counts of its edges; and what they return. *)

From S2P Require Import Prelude GoStrings Version Model Store Rows Listing.
Import Go.
Local Open Scope string_scope.

(** ** Sequences of SELECTs

    [snap n] is the state the [n]-th SELECT sees. It may fail after some of
    its rows were delivered ([rows.Err]); a failure before the first row and a
    failed query are the same to the code. *)
Record Reads := mkReads {
  snap : nat → Db;
  read_fault : nat → option (nat * (Z * string))
}.

Definition Rd (A : Type) : Type := Reads → nat → result Err A * nat.

#[export] Instance rd_ret : MRet Rd := λ A a _ n, (Ok a, n).
#[export] Instance rd_bind : MBind Rd := λ A B f m e n,
  match m e n with (Ok a, n') => f a e n' | (Error err, n') => (Error err, n') end.

Definition rd_fail {A} (err : Err) : Rd A := λ _ n, (Error err, n).
Definition rd_lift {A} (r : result Err A) : Rd A := λ _ n, (r, n).

(** A SELECT whose rows are all collected before they are used. *)
Definition select {A} (f : Db → A) : Rd A := λ e n,
  (match read_fault e n with
   | None => Ok (f (snap e n))
   | Some (_, (number, key)) => Error (ErrMySQL number key)
   end, S n).

(** A SELECT whose rows are consumed one by one: those delivered, and the
    error that ended the delivery. *)
Definition select_rows {A} (f : Db → list A) : Rd (list A * option Err) := λ e n,
  (Ok match read_fault e n with
      | None => (f (snap e n), None)
      | Some (k, (number, key)) => (firstn k (f (snap e n)), Some (ErrMySQL number key))
      end, S n).

(** Nothing changes and nothing fails while the query runs. *)
Definition at_rest (e : Reads) (d : Db) : Prop := ∀ n, snap e n = d ∧ read_fault e n = None.

Lemma select_rest {A} (f : Db → A) e d n : at_rest e d → select f e n = (Ok (f d), S n).
Proof. intros He. unfold select. by destruct (He n) as [-> ->]. Qed.
Lemma select_rows_rest {A} (f : Db → list A) e d n :
  at_rest e d → select_rows f e n = (Ok (f d, None), S n).
Proof. intros He. unfold select_rows. by destruct (He n) as [-> ->]. Qed.

Lemma rd_bind_eval {A B} (m : Rd A) (f : A → Rd B) e n a k :
  m e n = (Ok a, k) → (a ← m; f a) e n = f a e k.
Proof. unfold mbind, rd_bind. by intros ->. Qed.

Lemma rd_bind_fails {A B} (m : Rd A) (f : A → Rd B) e n err k :
  m e n = (Error err, k) → (a ← m; f a) e n = (Error err, k).
Proof. unfold mbind, rd_bind. by intros ->. Qed.

Lemma rd_bind_ok {A B} (m : Rd A) (f : A → Rd B) e n b n' :
  (a ← m; f a) e n = (Ok b, n') → ∃ a k, m e n = (Ok a, k) ∧ f a e k = (Ok b, n').
Proof. unfold mbind, rd_bind. destruct (m e n) as [[a|err] k]; [eauto|done]. Qed.

Lemma select_ok {A} (f : Db → A) e n a n' :
  select f e n = (Ok a, n') → a = f (snap e n) ∧ n' = S n.
Proof. unfold select. destruct (read_fault e n) as [[? []]|]; naive_solver. Qed.

(** The rows delivered are rows of the result; without an error, all. *)
Lemma select_rows_ok {A} (f : Db → list A) e n rows err n' :
  select_rows f e n = (Ok (rows, err), n') →
  n' = S n ∧ (∀ x, x ∈ rows → x ∈ f (snap e n)) ∧ (err = None → rows = f (snap e n)).
Proof.
  unfold select_rows. destruct (read_fault e n) as [[k [num key]]|].
  - intros [= <- <- <-]. split_and!; [done| |done].
    intros x Hx. rewrite <-(firstn_skipn k (f (snap e n))). set_solver.
  - intros [= <- <- <-]. naive_solver.
Qed.

(** [m] evaluates to [a], wherever it starts. *)
Definition rests {A} (m : Rd A) (e : Reads) (a : A) : Prop := ∀ n, ∃ k, m e n = (Ok a, k).

Lemma rests_ret {A} (a : A) e : rests (mret a) e a.
Proof. intros n. by exists n. Qed.
Lemma rests_bind {A B} (m : Rd A) (f : A → Rd B) e a b :
  rests m e a → rests (f a) e b → rests (a ← m; f a) e b.
Proof.
  intros Hm Hf n. destruct (Hm n) as [k Hk]. destruct (Hf k) as [k' Hk'].
  exists k'. by rewrite (rd_bind_eval _ _ _ _ _ _ Hk).
Qed.
Lemma rests_select {A} (f : Db → A) e d : at_rest e d → rests (select f) e (f d).
Proof. intros He n. exists (S n). by apply select_rest. Qed.
Lemma rests_det {A} (m : Rd A) e n a b k : rests m e a → m e n = (Ok b, k) → b = a.
Proof. intros Hm Hr. destruct (Hm n) as [k' Hk]. congruence. Qed.

(** ** Rows in scope *)

Definition in_scope (scope : Scope) (p : Plugin) : bool :=
  Admin scope || visibilitySQL (ScopeSpaceID scope) (CallerUID scope) p.

Definition readable_row (scope : Scope) (p : Plugin) : bool := live p && in_scope scope p.

(** [pluginColumns] and [pluginSummaryColumns]: the columns scanned; the
    usage counters that follow them live in a table of their own. *)
Definition scanned (p : Plugin) : Plugin :=
  set_PublishedVersionID None (set_NameKey None (set_PublishedNameKey None (set_NameScope "" p))).
Definition summary (p : Plugin) : Plugin := set_Package "" (set_AttachmentKeys "" (scanned p)).

Definition Get (scope : Scope) (pluginID : string) : Rd Plugin :=
  o ← select (find_plugin (readable_row scope) pluginID);
  match o with Some p => mret (scanned p) | None => rd_fail ErrNotFound end.

(** ** Edges *)

(** [FROM plugin_relations r JOIN plugins p ON p.plugin_id=r.target_plugin_id
    WHERE r.status=1 AND r.deleted_at IS NULL AND p.status=1 AND
    p.deleted_at IS NULL AND] the caller's predicate on the target. *)
Definition live_edge (d : Db) (accept : Plugin → bool) (r : PluginRelation) : bool :=
  bool_decide (RelStatus r = 1%Z) && rel_live r
  && match plugins d !! TargetPluginID r with Some p => live p && accept p | None => false end.

(** [graphEdgeColumns]: the target's type comes from the joined row, the
    source's type is not selected. *)
Definition edge_columns (d : Db) (r : PluginRelation) : PluginRelation :=
  mkRelation (RelID r) (SourcePluginID r) None (TargetPluginID r) (TargetVersionID r)
    (Type_ <$> plugins d !! TargetPluginID r) (RelType r) (SortOrder r) (Data r) (RelStatus r)
    (RelCreatedBy r) (RelCreatedAt r) (RelUpdatedAt r) (RelDeletedAt r).

Definition edges_from (scope : Scope) (sources : list string) (d : Db) : list PluginRelation :=
  rels_where (λ r, mem (SourcePluginID r) sources && live_edge d (in_scope scope) r) d.

(** ORDER BY r.sort_order, r.relation_id *)
Definition edges_of (scope : Scope) (source : string) (d : Db) : list PluginRelation :=
  edge_columns d <$> merge_sort rel_before (edges_from scope [source] d).

(** ORDER BY r.source_plugin_id, r.sort_order, r.relation_id *)
Definition edge_before (a b : PluginRelation) : Prop :=
  if decide (SourcePluginID a = SourcePluginID b) then rel_before a b
  else String.leb (SourcePluginID a) (SourcePluginID b) = true.
#[export] Instance edge_before_dec : RelDecision edge_before.
Proof. unfold RelDecision, edge_before. intros a b. case_decide; apply _. Defined.

Definition edges_of_all (scope : Scope) (sources : list string) (d : Db) : list PluginRelation :=
  edge_columns d <$> merge_sort edge_before (edges_from scope sources d).

Definition GetWithRelations (scope : Scope) (pluginID : string)
    : Rd (Plugin * list PluginRelation) :=
  p ← Get scope pluginID;
  rels ← select (edges_of scope pluginID);
  mret (p, rels).

(** [CountDeclaredRelations]: live edges to live targets, visible or not. *)
Definition declared (pluginID : string) (d : Db) : list PluginRelation :=
  rels_where (λ r, String.eqb (SourcePluginID r) pluginID && live_edge d (λ _, true) r) d.
Definition CountDeclaredRelations (pluginID : string) : Rd Z :=
  select (λ d, Z.of_nat (length (declared pluginID d))).

(** [CountMemberRelations]: a team without members has no row. *)
Definition members (teamID : string) (d : Db) : list PluginRelation :=
  rels_where (λ r, String.eqb (SourcePluginID r) teamID && String.eqb (RelType r) "expert_team_expert"
                   && live_edge d (λ _, true) r) d.
Definition member_count (teamID : string) (d : Db) : option Z :=
  match members teamID d with [] => None | l => Some (Z.of_nat (length l)) end.
Definition CountMemberRelations (teamIDs : list string) : Rd (gmap string Z) :=
  match teamIDs with
  | [] => mret ∅
  | _ => select (λ d, list_to_map (omap (λ t, (λ n, (t, n)) <$> member_count t d) (nub [] teamIDs)))
  end.

(** ** Review state shown to an owner (graph_review.go) *)

Record ReviewState := mkReviewState {
  rs_pending : bool;
  rs_latest : option (string * ReviewStatus)
}.

Definition reviews_of (pluginID : string) (d : Db) : list ReviewRow :=
  filter (λ r, rr_plugin_id r = pluginID ∧ rr_deleted_at r = None) (map_to_list (reviews d)).*2.

(** [pluginReviewStateColumns] *)
Definition reviewState (d : Db) (pluginID : string) : ReviewState :=
  mkReviewState (existsb (λ r, bool_decide (rr_status r = Pending)) (reviews_of pluginID d))
    ((λ r, (rr_id r, rr_status r)) <$> head (merge_sort review_first (reviews_of pluginID d))).

Definition no_review : ReviewState := mkReviewState false None.

(** [graphOwnerReviewColumns]: only for the caller's own rows of this Space. *)
Definition owned_here (scope : Scope) (p : Plugin) : bool :=
  String.eqb (OwnerUID p) (CallerUID scope) && bool_decide (SpaceID p = Some (ScopeSpaceID scope)).
Definition graphOwnerReview (scope : Scope) (d : Db) (p : Plugin) : ReviewState :=
  if owned_here scope p then reviewState d (ID p) else no_review.

(** ** The closure of the relation graph *)

Definition maxGraphNodes : Z := 30 * (1 + 20).
Definition maxGraphEdges : Z := 2000.
Definition graphEdgeLimit : nat := Z.to_nat (maxGraphEdges + 1).

(** [graphEdges]; [targetSeen] holds exactly the identifiers of [targetIDs]. *)
Record graphEdges := mkEdges { g_rels : list PluginRelation; g_targets : list string }.
Definition newGraphEdges : graphEdges := mkEdges [] [].

Fixpoint drain (g : graphEdges) (rows : list PluginRelation) (rows_err : option Err)
    : result Err graphEdges :=
  match rows with
  | [] => match rows_err with None => Ok g | Some err => Error err end
  | x :: rows' =>
      if (maxGraphEdges <=? Z.of_nat (length (g_rels g)))%Z then Error ErrGraphTooLarge
      else
        let rels := (g_rels g ++ [x])%list in
        if mem (TargetPluginID x) (g_targets g) then drain (mkEdges rels (g_targets g)) rows' rows_err
        else if (maxGraphNodes <=? Z.of_nat (length (g_targets g)))%Z then Error ErrGraphTooLarge
        else drain (mkEdges rels (g_targets g ++ [TargetPluginID x])%list) rows' rows_err
  end.

(** A plugin of the graph with the review state its owner sees. *)
Record Node := mkNode { n_plugin : Plugin; n_review : ReviewState }.

Definition getGraphRoot (scope : Scope) (pluginID : string) : Rd Node :=
  o ← select (λ d, (λ p, mkNode (scanned p) (graphOwnerReview scope d p))
                   <$> find_plugin (readable_row scope) pluginID d);
  match o with Some n => mret n | None => rd_fail ErrNotFound end.

(** The node query; the rows come in no particular order and are put into the
    map [present]. *)
Definition graph_nodes (scope : Scope) (ids : list string) (d : Db) : gmap string Node :=
  list_to_map (omap (λ id,
    (λ p, (id, mkNode (summary p) (graphOwnerReview scope d p)))
      <$> find_plugin (readable_row scope) id d) ids).

Record Closure := mkClosure {
  c_root : Node;
  c_rels : list PluginRelation;
  c_nodes : list Node
}.

Definition is_leaf (t : PluginType) : bool := bool_decide (t = Skill ∨ t = Connector).

(** Level 2 is read for teams only, from the targets of level 1. *)
Definition level_2 (scope : Scope) (root : Node) (g : graphEdges) : Rd graphEdges :=
  if bool_decide (Type_ (n_plugin root) = ExpertTeam) && negb (bool_decide (g_targets g = [])) then
    '(rows, err) ← select_rows (λ d, firstn graphEdgeLimit (edges_of_all scope (g_targets g) d));
    rd_lift (drain g rows err)
  else mret g.

(** The defence in depth against targets that vanished between the queries. *)
Definition keep_present (rootID : string) (present : gmap string Node) (rels : list PluginRelation)
    : list PluginRelation :=
  filter (λ r, (SourcePluginID r = rootID ∨ is_Some (present !! SourcePluginID r))
               ∧ is_Some (present !! TargetPluginID r)) rels.

Definition GetGraphClosure (scope : Scope) (rootID : string) : Rd Closure :=
  root ← getGraphRoot scope rootID;
  if is_leaf (Type_ (n_plugin root)) then mret (mkClosure root [] [])
  else
    '(rows, err) ← select_rows (λ d, firstn graphEdgeLimit (edges_of scope rootID d));
    g1 ← rd_lift (drain newGraphEdges rows err);
    g ← level_2 scope root g1;
    if bool_decide (g_targets g = []) then mret (mkClosure root (g_rels g) [])
    else
      present ← select (graph_nodes scope (g_targets g));
      let rels := if (size present =? length (g_targets g))%nat then g_rels g
                  else keep_present (ID (n_plugin root)) present (g_rels g) in
      mret (mkClosure root rels (omap (λ id, present !! id) (g_targets g))).

(** ** Draining *)

Lemma nub_seen {A} `{EqDecision A} (l s s' : list A) :
  (∀ x, x ∈ s ↔ x ∈ s') → nub s l = nub s' l.
Proof.
  revert s s'. induction l as [|x l IH]; intros s s' Hs; simpl; [done|].
  assert (mem x s = mem x s') as ->.
  { destruct (mem x s') eqn:E; autorewrite with market in *; naive_solver. }
  destruct (mem x s'); [by apply IH|]. f_equal. apply IH. set_solver.
Qed.

(** What draining all of [rows] leaves. *)
Definition drained (g : graphEdges) (rows : list PluginRelation) : graphEdges :=
  mkEdges (g_rels g ++ rows)%list (g_targets g ++ nub (g_targets g) (TargetPluginID <$> rows))%list.

Definition over_caps (g : graphEdges) : Prop :=
  (maxGraphEdges < Z.of_nat (length (g_rels g)))%Z ∨ (maxGraphNodes < Z.of_nat (length (g_targets g)))%Z.
#[export] Instance over_caps_dec g : Decision (over_caps g).
Proof. unfold over_caps. apply _. Defined.

Lemma drained_cons g x rows :
  drained g (x :: rows) =
  drained (if mem (TargetPluginID x) (g_targets g) then mkEdges (g_rels g ++ [x])%list (g_targets g)
           else mkEdges (g_rels g ++ [x])%list (g_targets g ++ [TargetPluginID x])%list) rows.
Proof.
  unfold drained. simpl. destruct (mem _ _) eqn:E; simpl; rewrite <-!app_assoc; simpl; [done|].
  do 3 f_equal. apply nub_seen. set_solver.
Qed.

(** The caps decide exactly: a row over a cap fails before its successors are
    looked at, and an error of the query only counts under the caps. *)
Lemma drain_spec g rows err :
  ¬ over_caps g →
  drain g rows err = if decide (over_caps (drained g rows)) then Error ErrGraphTooLarge
                     else match err with None => Ok (drained g rows) | Some e => Error e end.
Proof.
  revert g. induction rows as [|x rows IH]; intros g Hg.
  { assert (drained g [] = g) as Hd by (destruct g; unfold drained; simpl; by rewrite !app_nil_r).
    rewrite Hd, decide_False by done. done. }
  rewrite drained_cons. cbn [drain].
  assert (∀ g', (over_caps g' → over_caps (drained g' rows))) as Hmono.
  { intros g'. unfold over_caps, drained. simpl. rewrite !length_app. lia. }
  destruct (Z.leb_spec maxGraphEdges (Z.of_nat (length (g_rels g)))) as [Hfull|Hroom].
  { rewrite decide_True; [done|]. apply Hmono. left. destruct (mem _ _); simpl; rewrite length_app; simpl; lia. }
  destruct (mem (TargetPluginID x) (g_targets g)) eqn:E.
  { apply IH. unfold over_caps in *. simpl. rewrite length_app. simpl. lia. }
  destruct (Z.leb_spec maxGraphNodes (Z.of_nat (length (g_targets g)))) as [Hfull|Hroom'].
  { rewrite decide_True; [done|]. apply Hmono. right. simpl. rewrite length_app. simpl. lia. }
  apply IH. unfold over_caps in *. simpl. rewrite !length_app. simpl. lia.
Qed.

Lemma drain_ok g rows err g' :
  ¬ over_caps g → drain g rows err = Ok g' → err = None ∧ g' = drained g rows ∧ ¬ over_caps g'.
Proof.
  intros Hg. rewrite drain_spec by done. case_decide; [done|]. destruct err; naive_solver.
Qed.

Lemma new_within_caps : ¬ over_caps newGraphEdges.
Proof. unfold over_caps, maxGraphEdges, maxGraphNodes. simpl. lia. Qed.

Lemma drained_targets g rows x :
  x ∈ g_targets (drained g rows) ↔ x ∈ g_targets g ∨ x ∈ TargetPluginID <$> rows.
Proof.
  simpl. rewrite elem_of_app, elem_of_nub. destruct (decide (x ∈ g_targets g)); naive_solver.
Qed.

Lemma drained_NoDup g rows : NoDup (g_targets g) → NoDup (g_targets (drained g rows)).
Proof.
  intros Hg. simpl. apply NoDup_app. split_and!; [done| |apply NoDup_nub].
  intros x Hx Hn. apply elem_of_nub in Hn. naive_solver.
Qed.

(** The LIMIT, one row past the cap, hides no overflow. *)
Lemma drained_limit g rows :
  over_caps (drained g (firstn graphEdgeLimit rows)) ↔
  over_caps (drained g rows).
Proof.
  assert (Z.of_nat graphEdgeLimit = 2001%Z) as Hlim by (unfold graphEdgeLimit, maxGraphEdges; lia).
  destruct (decide (length rows ≤ graphEdgeLimit)%nat) as [Hle|Hgt].
  { by rewrite firstn_all2. }
  assert (∀ l : list PluginRelation, (2001 ≤ Z.of_nat (length l))%Z → over_caps (drained g l)) as Hover.
  { intros l Hl. left. simpl. rewrite length_app. unfold maxGraphEdges. lia. }
  split; intros _; apply Hover; rewrite ?length_firstn; lia.
Qed.

Lemma drain_limited g rows :
  ¬ over_caps g →
  drain g (firstn graphEdgeLimit rows) None =
    if decide (over_caps (drained g rows)) then Error ErrGraphTooLarge else Ok (drained g rows).
Proof.
  intros Hg. rewrite drain_spec by done. pose proof (drained_limit g rows) as Hlim.
  destruct (decide (over_caps (drained g rows))) as [Ho|Ho].
  { rewrite decide_True by (by apply Hlim). done. }
  rewrite decide_False by (by rewrite Hlim). rewrite firstn_all2; [done|].
  assert (Z.of_nat graphEdgeLimit = 2001%Z) as HL by (unfold graphEdgeLimit, maxGraphEdges; lia).
  unfold over_caps in Ho. simpl in Ho. rewrite length_app in Ho. unfold maxGraphEdges in Ho. lia.
Qed.
