(* ===== verification/Closure.v ===== *)
(** * The closure of the relation graph

    What GetGraphClosure (Queries.v) returns: whatever happens between its
    SELECTs, only rows its caller may read and no dangling edge; and, when
    nothing happens, exactly the part of the relation graph reachable from the
    root through readable plugins, or a refusal when it exceeds a cap. *)

From S2P Require Import Prelude GoStrings Version Model Store Rows Listing Lifecycle Typing Reads Queries.
Import Go.
Local Open Scope string_scope.

(** An edge as a caller sees it in the state [d]. *)
Definition shown_edge (scope : Scope) (d : Db) (r : PluginRelation) : Prop :=
  ∃ k row, relations d !! k = Some row ∧ live_edge d (in_scope scope) row = true
           ∧ r = edge_columns d row.

Lemma elem_of_rels_where P d r :
  r ∈ rels_where P d ↔ P r = true ∧ ∃ k, relations d !! k = Some r.
Proof.
  unfold rels_where. rewrite list_elem_of_filter, list_elem_of_fmap. split.
  - intros (HP & [k r'] & -> & Hin). rewrite elem_of_map_to_list in Hin. eauto.
  - intros (HP & k & Hk). split; [done|]. exists (k, r). by rewrite elem_of_map_to_list.
Qed.

Lemma rels_where_NoDup P d : keyed d → NoDup (RelID <$> rels_where P d).
Proof.
  intros (_ & _ & _ & Hk). unfold rels_where.
  assert (RelID <$> (map_to_list (relations d)).*2 = (map_to_list (relations d)).*1) as Heq.
  { rewrite <-list_fmap_compose. apply list_fmap_ext. intros i [k r] Hi. simpl. apply Hk.
    rewrite <-elem_of_map_to_list. by eapply list_elem_of_lookup_2. }
  apply NoDup_fmap_2_strong.
  - intros x y Hx Hy Hxy. fold (rels_where P d) in Hx, Hy. apply elem_of_rels_where in Hx as (_ & i & Hi).
    apply elem_of_rels_where in Hy as (_ & j & Hj). pose proof (Hk _ _ Hi). pose proof (Hk _ _ Hj). congruence.
  - apply NoDup_filter. eapply NoDup_fmap_1. rewrite Heq. apply NoDup_fst_map_to_list.
Qed.

Lemma elem_of_edges_from scope l d r :
  r ∈ edges_from scope l d ↔
  SourcePluginID r ∈ l ∧ live_edge d (in_scope scope) r = true ∧ ∃ k, relations d !! k = Some r.
Proof. unfold edges_from. rewrite elem_of_rels_where, andb_true_iff, mem_true. naive_solver. Qed.

Lemma elem_of_edges_of scope id d r :
  r ∈ edges_of scope id d ↔ shown_edge scope d r ∧ SourcePluginID r = id.
Proof.
  unfold edges_of, shown_edge. rewrite list_elem_of_fmap. split.
  - intros (r0 & -> & Hr). rewrite merge_sort_Permutation, elem_of_edges_from in Hr.
    destruct Hr as (Hs & Hl & k & Hk). split; [by eauto 6|]. set_solver.
  - intros ((k & r0 & Hk & Hl & ->) & Hs). exists r0. split; [done|].
    rewrite merge_sort_Permutation, elem_of_edges_from. simpl in Hs. split_and!; [set_solver|done|eauto].
Qed.

Lemma elem_of_edges_of_all scope l d r :
  r ∈ edges_of_all scope l d ↔ shown_edge scope d r ∧ SourcePluginID r ∈ l.
Proof.
  unfold edges_of_all, shown_edge. rewrite list_elem_of_fmap. split.
  - intros (r0 & -> & Hr). rewrite merge_sort_Permutation, elem_of_edges_from in Hr.
    destruct Hr as (Hs & Hl & k & Hk). split; [by eauto 6|]. done.
  - intros ((k & r0 & Hk & Hl & ->) & Hs). exists r0. split; [done|].
    rewrite merge_sort_Permutation, elem_of_edges_from. simpl in Hs. eauto.
Qed.

(** The target of a shown edge is a readable row. *)
Lemma shown_target scope d r :
  shown_edge scope d r → ∃ p, plugins d !! TargetPluginID r = Some p ∧ readable_row scope p = true.
Proof.
  intros (k & r0 & _ & Hl & ->). unfold live_edge in Hl. simpl.
  apply andb_true_iff in Hl as [_ Hl].
  destruct (plugins d !! TargetPluginID r0) as [p|]; [eauto|done].
Qed.

Lemma find_readable scope id d p :
  find_plugin (readable_row scope) id d = Some p ↔
  plugins d !! id = Some p ∧ readable_row scope p = true.
Proof.
  unfold find_plugin. destruct (plugins d !! id) as [q|]; simpl; [|naive_solver].
  destruct (readable_row scope q) eqn:E; (split; [by intros [= <-]|intros [[= <-] ?]; congruence]).
Qed.

(** ** The nodes *)

Lemma graph_nodes_lookup scope ids d id nd :
  NoDup ids →
  graph_nodes scope ids d !! id = Some nd ↔
  id ∈ ids ∧ ∃ p, plugins d !! id = Some p ∧ readable_row scope p = true
                  ∧ nd = mkNode (summary p) (graphOwnerReview scope d p).
Proof.
  intros Hnd. unfold graph_nodes. rewrite <-elem_of_list_to_map.
  - rewrite list_elem_of_omap. split.
    + intros (x & Hx & Hf). destruct (find_plugin _ x d) as [p|] eqn:Hp; simpl in Hf; [|done].
      simplify_eq. apply find_readable in Hp as [Hp Hr]. eauto.
    + intros (Hin & p & Hp & Hr & ->). exists id. split; [done|].
      by rewrite (proj2 (find_readable scope id d p)).
  - induction Hnd as [|x l Hx Hl IH]; simpl; [constructor|].
    destruct (find_plugin (readable_row scope) x d); simpl; [|done]. constructor; [|done].
    rewrite list_elem_of_fmap. intros ([y nd'] & -> & Hy). apply list_elem_of_omap in Hy as (z & Hz & Hf).
    destruct (find_plugin (readable_row scope) z d); simpl in *; [|done]. by simplify_eq.
Qed.

Lemma graph_nodes_dom scope ids d id :
  NoDup ids → is_Some (graph_nodes scope ids d !! id) → id ∈ ids.
Proof. intros Hnd [nd Hx]. by apply graph_nodes_lookup in Hx as [? _]. Qed.

(** As many rows as identifiers: every identifier has its row. *)
Lemma graph_nodes_full scope ids d :
  NoDup ids → size (graph_nodes scope ids d) = length ids →
  ∀ id, id ∈ ids → is_Some (graph_nodes scope ids d !! id).
Proof.
  intros Hnd Hsize id Hin. rewrite <-elem_of_dom.
  assert (dom (graph_nodes scope ids d) = list_to_set (C:=gset string) ids) as ->; [|set_solver].
  apply set_subseteq_size_eq.
  - intros x Hx. apply elem_of_dom, graph_nodes_dom in Hx; [|done]. set_solver.
  - rewrite size_dom, Hsize, size_list_to_set; done.
Qed.

Definition node_ids (c : Closure) : list string := (λ nd, ID (n_plugin nd)) <$> c_nodes c.

Lemma omap_ids (present : gmap string Node) (ids : list string) :
  (∀ id nd, present !! id = Some nd → ID (n_plugin nd) = id) →
  (λ nd, ID (n_plugin nd)) <$> omap (λ id, present !! id) ids
  = filter (λ id, is_Some (present !! id)) ids.
Proof.
  intros Hk. induction ids as [|id ids IH]; simpl; [done|].
  destruct (present !! id) as [nd|] eqn:E; simpl.
  - rewrite filter_cons_True by (rewrite E; eauto). f_equal; [by apply Hk|exact IH].
  - rewrite filter_cons_False; [done|]. rewrite E. intros [? ?]. done.
Qed.

(** ** One run of the query *)

(** The edges gathered, by the states the two edge queries saw. *)
Definition gathered (scope : Scope) (id : string) (d1 d2 : Db) (g : graphEdges) : Prop :=
  (∀ r, r ∈ g_rels g → (shown_edge scope d1 r ∧ SourcePluginID r = id)
                       ∨ (shown_edge scope d2 r ∧ SourcePluginID r ∈ g_targets g))
  ∧ (∀ x, x ∈ g_targets g ↔ x ∈ TargetPluginID <$> g_rels g)
  ∧ NoDup (g_targets g) ∧ ¬ over_caps g.

Lemma level_1_gathered scope id d1 d2 rows g :
  (∀ r, r ∈ rows → r ∈ firstn graphEdgeLimit (edges_of scope id d1)) →
  drain newGraphEdges rows None = Ok g → gathered scope id d1 d2 g.
Proof.
  intros Hrows Hd. apply drain_ok in Hd as (_ & -> & Hcap); [|apply new_within_caps].
  split_and!; [| |apply drained_NoDup; constructor|done].
  - intros r Hr. left. simpl in Hr. apply Hrows in Hr.
    apply elem_of_edges_of. rewrite <-(firstn_skipn graphEdgeLimit (edges_of scope id d1)). set_solver.
  - intros x. rewrite drained_targets. simpl. set_solver.
Qed.

Lemma level_2_gathered scope id d1 d2 rows g g' :
  gathered scope id d1 d2 g →
  (∀ r, r ∈ rows → r ∈ firstn graphEdgeLimit (edges_of_all scope (g_targets g) d2)) →
  drain g rows None = Ok g' → gathered scope id d1 d2 g'.
Proof.
  intros (He & Ht & Hnd & Hc) Hrows Hd. apply drain_ok in Hd as (_ & -> & Hcap); [|done].
  split_and!; [| |by apply drained_NoDup|done].
  - intros r Hr. simpl in Hr. apply elem_of_app in Hr as [Hr|Hr].
    + destruct (He r Hr) as [?|[? ?]]; [by left|right]. split; [done|]. apply drained_targets. by left.
    + right. apply Hrows in Hr. assert (r ∈ edges_of_all scope (g_targets g) d2) as Hin.
      { rewrite <-(firstn_skipn graphEdgeLimit (edges_of_all scope (g_targets g) d2)). set_solver. }
      apply elem_of_edges_of_all in Hin as [? ?]. split; [done|]. apply drained_targets. by left.
  - intros x. rewrite drained_targets, Ht. simpl. set_solver.
Qed.

Lemma closure_run scope id e n c n' :
  GetGraphClosure scope id e n = (Ok c, n') →
  ∃ p, plugins (snap e n) !! id = Some p ∧ readable_row scope p = true
  ∧ c_root c = mkNode (scanned p) (graphOwnerReview scope (snap e n) p)
  ∧ (n' ≤ n + 4)%nat
  ∧ ((c_rels c = [] ∧ c_nodes c = [])
     ∨ ∃ g k, gathered scope id (snap e (n + 1)) (snap e (n + 2)) g ∧ (n < k < n')%nat
         ∧ let present := graph_nodes scope (g_targets g) (snap e k) in
           c_nodes c = omap (λ id, present !! id) (g_targets g)
           ∧ c_rels c = if (size present =? length (g_targets g))%nat then g_rels g
                        else keep_present (ID p) present (g_rels g)).
Proof.
  unfold GetGraphClosure. intros Hrun. apply rd_bind_ok in Hrun as (root & k & Hroot & Hrun).
  unfold getGraphRoot in Hroot. apply rd_bind_ok in Hroot as (o & k0 & Ho & Hroot).
  apply select_ok in Ho as [-> ->].
  destruct (find_plugin (readable_row scope) id (snap e n)) as [p|] eqn:Hp; simpl in Hroot; [|done].
  injection Hroot as <- <-. apply find_readable in Hp as [Hp Hr]. exists p.
  do 2 (split; [done|]). destruct (is_leaf _).
  { injection Hrun as <- <-. simpl. split_and!; [done|lia|by left]. }
  apply rd_bind_ok in Hrun as ([rows err] & k1 & Hsel & Hrun). apply select_rows_ok in Hsel as (-> & Hrows & Hall).
  apply rd_bind_ok in Hrun as (g1 & k2 & Hd & Hrun). injection Hd as Hd <-.
  pose proof (drain_ok _ _ _ _ new_within_caps Hd) as (-> & _ & _).
  apply (level_1_gathered scope id (snap e (n + 1)) (snap e (n + 2))) in Hd as Hg1.
  2:{ intros r Hin. rewrite Nat.add_1_r. by apply Hrows. }
  apply rd_bind_ok in Hrun as (g & k3 & Hl2 & Hrun).
  assert (gathered scope id (snap e (n + 1)) (snap e (n + 2)) g ∧ (S (S n) ≤ k3 ≤ S (S (S n)))%nat) as [Hg Hk3].
  { unfold level_2 in Hl2. destruct (_ && _); [|injection Hl2 as <- <-; split; [done|lia]].
    apply rd_bind_ok in Hl2 as ([rows2 err2] & k4 & Hsel & Hl2).
    apply select_rows_ok in Hsel as (-> & Hrows2 & _). injection Hl2 as Hd2 <-.
    pose proof Hg1 as (_ & _ & _ & Hcap). pose proof (drain_ok _ _ _ _ Hcap Hd2) as (-> & _ & _).
    split; [|lia]. replace (n + 2)%nat with (S (S n)) in * by lia.
    eapply level_2_gathered; [exact Hg1|exact Hrows2|exact Hd2]. }
  case_bool_decide as Hnil.
  - injection Hrun as <- <-. simpl. split_and!; [done|lia|left]. split; [|done].
    destruct Hg as (_ & Ht & _ & _). destruct (g_rels g) as [|r l]; [done|].
    specialize (Ht (TargetPluginID r)). rewrite Hnil in Ht. set_solver.
  - apply rd_bind_ok in Hrun as (present & k5 & Hsel & Hrun). apply select_ok in Hsel as [-> ->].
    injection Hrun as <- <-. simpl. split_and!; [done|lia|right]. exists g, k3.
    split; [done|]. split; [lia|]. done.
Qed.

(** ** Nothing out of scope, nothing dangling *)

Lemma scanned_ID p : ID (scanned p) = ID p.
Proof. done. Qed.

(** C15: the closure of a relation graph, whatever other requests commit
    between its SELECTs, shows only what its caller may read: the root is a
    live row in scope, every edge was live with a live target in scope, every
    node is a live row in scope, with the review state of the caller's own rows
    only and without its package. No edge dangles: its target is among the nodes, its source among them
    or the root. Nodes are distinct, the caps hold, and at most four SELECTs
    were made. *)
Theorem closure_shows_only_readable scope id e n c n' :
  (∀ k, keyed (snap e k)) →
  GetGraphClosure scope id e n = (Ok c, n') →
  (n' ≤ n + 4)%nat
  ∧ (∃ p, plugins (snap e n) !! id = Some p ∧ readable_row scope p = true
          ∧ c_root c = mkNode (scanned p) (graphOwnerReview scope (snap e n) p))
  ∧ (∀ r, r ∈ c_rels c →
       (∃ k, shown_edge scope (snap e k) r) ∧ TargetPluginID r ∈ node_ids c
       ∧ (SourcePluginID r = id ∨ SourcePluginID r ∈ node_ids c))
  ∧ (∀ nd, nd ∈ c_nodes c → ∃ k p,
       plugins (snap e k) !! ID (n_plugin nd) = Some p ∧ readable_row scope p = true
       ∧ nd = mkNode (summary p) (graphOwnerReview scope (snap e k) p))
  ∧ NoDup (node_ids c)
  ∧ (Z.of_nat (length (c_rels c)) ≤ 2000 ∧ Z.of_nat (length (c_nodes c)) ≤ 630)%Z.
Proof.
  intros Hkey Hrun. apply closure_run in Hrun as (p & Hp & Hr & Hroot & Hn & Hcase).
  assert (ID p = id) as Hid by (destruct (Hkey n) as (Hk & _); eauto).
  split; [done|]. split; [by eauto|].
  destruct Hcase as [[Hrels Hnodes]|(g & k & (He & Ht & Hnd & Hcap) & _ & Hnodes & Hrels)].
  { unfold node_ids. rewrite Hrels, Hnodes. split_and!; [set_solver|set_solver|constructor|done|done]. }
  set (present := graph_nodes scope (g_targets g) (snap e k)) in *.
  assert (∀ i nd, present !! i = Some nd → i ∈ g_targets g ∧ ID (n_plugin nd) = i
    ∧ ∃ q, plugins (snap e k) !! i = Some q ∧ readable_row scope q = true
           ∧ nd = mkNode (summary q) (graphOwnerReview scope (snap e k) q)) as Hpres.
  { intros i nd Hi. apply graph_nodes_lookup in Hi as (Hin & q & Hq & Hrq & ->); [|done].
    split_and!; [done| |by eauto]. simpl. by apply (Hkey k). }
  assert (node_ids c = filter (λ i, is_Some (present !! i)) (g_targets g)) as Hids.
  { unfold node_ids. rewrite Hnodes. apply omap_ids. intros i nd Hi. by apply Hpres in Hi as (_ & ? & _). }
  assert (∀ i, i ∈ node_ids c ↔ is_Some (present !! i)) as Hmem.
  { intros i. rewrite Hids, list_elem_of_filter. split; [by intros [? _]|]. intros Hi.
    split; [done|]. destruct Hi as [nd Hi]. by apply Hpres in Hi as [? _]. }
  assert (∀ r, r ∈ c_rels c → r ∈ g_rels g ∧ is_Some (present !! TargetPluginID r)
               ∧ (SourcePluginID r = id ∨ is_Some (present !! SourcePluginID r))) as Hedge.
  { intros r Hin. rewrite Hrels in Hin. destruct (Nat.eqb_spec (size present) (length (g_targets g))) as [Hfull|_].
    - pose proof (graph_nodes_full _ _ _ Hnd Hfull) as Hall. split_and!; [done| |].
      + apply Hall, Ht. apply list_elem_of_fmap. eauto.
      + destruct (He r Hin) as [[_ ?]|[_ ?]]; auto.
    - unfold keep_present in Hin. rewrite Hid in Hin. apply list_elem_of_filter in Hin. naive_solver. }
  split_and!.
  - intros r Hin. destruct (Hedge r Hin) as (Hg & Htgt & Hsrc). rewrite !Hmem. split_and!; [|done|done].
    destruct (He r Hg) as [[? _]|[? _]]; eauto.
  - intros nd Hin. rewrite Hnodes in Hin. apply list_elem_of_omap in Hin as (i & _ & Hi).
    apply Hpres in Hi as (_ & -> & q & Hq & Hrq & ->). eauto.
  - rewrite Hids. by apply NoDup_filter.
  - unfold over_caps, maxGraphEdges in Hcap. assert (length (c_rels c) ≤ length (g_rels g))%nat; [|lia].
    rewrite Hrels. destruct (_ =? _)%nat; [done|]. apply length_filter.
  - unfold over_caps, maxGraphNodes in Hcap. assert (length (c_nodes c) ≤ length (g_targets g))%nat; [|lia].
    assert (length (node_ids c) = length (c_nodes c)) as <- by apply length_fmap.
    rewrite Hids. apply length_filter.
Qed.

(** ** Exactly the reachable part *)

(** Live edges between live rows obey the relation matrix; well-typed tables do
    (Typing.v), and every operation keeps them so. *)
Definition shaped (d : Db) : Prop := ∀ k r p q,
  relations d !! k = Some r → RelStatus r = 1%Z → RelDeletedAt r = None →
  plugins d !! SourcePluginID r = Some p → live p = true →
  plugins d !! TargetPluginID r = Some q → live q = true →
  validPersistedRelation (RelType r) (Type_ p) (Type_ q) = true.

Lemma well_typed_shaped d : well_typed d → shaped d.
Proof.
  intros Hw k r p q Hr _ Hd Hp _ Hq _. destruct (Hw k r Hr Hd) as (s & t & Hs & Ht & Hv).
  unfold type_of in *. rewrite Hp in Hs. rewrite Hq in Ht. by simplify_eq/=.
Qed.

(** What a caller reaches from [id] through edges shown to them. *)
Inductive reaches (scope : Scope) (d : Db) (id : string) : string → Prop :=
| reach_root : reaches scope d id id
| reach_edge r : reaches scope d id (SourcePluginID r) → shown_edge scope d r →
    reaches scope d id (TargetPluginID r).

Definition closure_edges (scope : Scope) (id : string) (team : bool) (d : Db) : list PluginRelation :=
  let l1 := edges_of scope id d in
  l1 ++ (if team then edges_of_all scope (nub [] (TargetPluginID <$> l1)) d else []).

Section Exact.
Context (scope : Scope) (d : Db) (Hshape : shaped d) (id : string) (p : Plugin).
Context (Hp : plugins d !! id = Some p) (Hread : readable_row scope p = true).

Lemma readable_live q : readable_row scope q = true → live q = true.
Proof. unfold readable_row. by intros [? _]%andb_true_iff. Qed.

Lemma shown_rank r q :
  shown_edge scope d r → plugins d !! SourcePluginID r = Some q → readable_row scope q = true →
  ∃ q', plugins d !! TargetPluginID r = Some q' ∧ readable_row scope q' = true
        ∧ depth (Type_ q) = S (depth (Type_ q')).
Proof.
  intros Hs Hq Hr. destruct (shown_target _ _ _ Hs) as (q' & Hq' & Hr').
  exists q'. do 2 (split; [done|]). destruct Hs as (k & row & Hk & Hl & ->). simpl in *.
  eapply typed_depth. eapply (Hshape k row); eauto using readable_live.
  - unfold live_edge in Hl. by bool_facts.
  - unfold live_edge, rel_live in Hl. by bool_facts.
Qed.

(** Everything reached lies at most two levels below the root. *)
Lemma reaches_levels x :
  reaches scope d id x → ∃ q, plugins d !! x = Some q ∧ readable_row scope q = true
  ∧ (x = id ∨ (depth (Type_ p) = S (depth (Type_ q)) ∧ x ∈ TargetPluginID <$> edges_of scope id d)
     ∨ depth (Type_ p) = S (S (depth (Type_ q)))).
Proof.
  induction 1 as [|r _ (q & Hq & Hr & Hlevel) Hs]; [by eauto 6|].
  destruct (shown_rank _ _ Hs Hq Hr) as (q' & Hq' & Hr' & Hrank). exists q'.
  do 2 (split; [done|]). destruct Hlevel as [Heq|[[Hk _]|Hk]].
  - right; left. rewrite Heq, Hp in Hq. injection Hq as <-. split; [done|].
    apply list_elem_of_fmap. exists r. split; [done|]. by apply elem_of_edges_of.
  - right; right. lia.
  - exfalso. destruct (Type_ p), (Type_ q); simpl in *; lia.
Qed.

Lemma target_not_root r : shown_edge scope d r → reaches scope d id (SourcePluginID r) →
  TargetPluginID r ≠ id.
Proof.
  intros Hs Hr Heq. destruct (reaches_levels _ Hr) as (q & Hq & Hrq & Hl).
  destruct (shown_rank _ _ Hs Hq Hrq) as (q' & Hq' & _ & Hrank). rewrite Heq, Hp in Hq'.
  injection Hq' as <-. destruct Hl as [Hsrc|[[? _]|?]]; [|lia|lia].
  rewrite Hsrc, Hp in Hq. injection Hq as <-. lia.
Qed.

Definition team : bool := bool_decide (Type_ p = ExpertTeam).

Lemma closure_edges_spec r :
  r ∈ closure_edges scope id team d ↔ shown_edge scope d r ∧ reaches scope d id (SourcePluginID r).
Proof.
  unfold closure_edges, team. rewrite elem_of_app, elem_of_edges_of. split.
  - intros [[Hs Hsrc]|Hin]; [split; [done|rewrite Hsrc; constructor]|]. case_bool_decide; [|set_solver].
    apply elem_of_edges_of_all in Hin as [Hs Hin]. split; [done|]. apply elem_of_nub in Hin as [Hin _].
    apply list_elem_of_fmap in Hin as (r1 & -> & Hr1). apply elem_of_edges_of in Hr1 as [Hs1 Hsrc].
    apply reach_edge; [rewrite Hsrc; constructor|done].
  - intros [Hs Hr]. destruct (reaches_levels _ Hr) as (q & Hq & Hrq & Hl).
    destruct (shown_rank _ _ Hs Hq Hrq) as (q' & _ & _ & Hrank).
    destruct Hl as [?|[[Hk Hin]|Hk]]; [by left|right|].
    + rewrite bool_decide_true by (destruct (Type_ p), (Type_ q); simpl in *; lia || done).
      apply elem_of_edges_of_all. split; [done|]. apply elem_of_nub. split; [done|set_solver].
    + exfalso. destruct (Type_ p), (Type_ q); simpl in *; lia.
Qed.

Lemma closure_targets x :
  x ∈ TargetPluginID <$> closure_edges scope id team d ↔ x ≠ id ∧ reaches scope d id x.
Proof.
  rewrite list_elem_of_fmap. split.
  - intros (r & -> & Hr). apply closure_edges_spec in Hr as [Hs Hr].
    split; [by apply target_not_root|by apply reach_edge].
  - intros [Hx Hr]. inversion Hr as [|r Hsrc Hs]; subst; [done|]. exists r. split; [done|].
    by apply closure_edges_spec.
Qed.

Lemma closure_edges_NoDup : keyed d → NoDup (RelID <$> closure_edges scope id team d).
Proof.
  intros Hk. assert (∀ l : list PluginRelation, RelID <$> (edge_columns d <$> l) = RelID <$> l) as Hcols.
  { intros l. rewrite <-list_fmap_compose. apply list_fmap_ext. done. }
  unfold closure_edges. rewrite fmap_app. apply NoDup_app. split_and!.
  - unfold edges_of. rewrite Hcols, merge_sort_Permutation. by apply rels_where_NoDup.
  - intros x Hx Hx2. apply list_elem_of_fmap in Hx as (r & -> & Hr), Hx2 as (r2 & Hid & Hr2).
    unfold team in Hr2. case_bool_decide; [|set_solver].
    apply elem_of_edges_of in Hr as [(k & row & Hrow & _ & ->) Hsrc].
    apply elem_of_edges_of_all in Hr2 as [(k2 & row2 & Hrow2 & _ & ->) Hin]. simpl in *.
    destruct Hk as (_ & _ & _ & Hk). pose proof (Hk _ _ Hrow) as H1. pose proof (Hk _ _ Hrow2) as H2.
    assert (k = k2) as <- by congruence. rewrite Hrow in Hrow2. injection Hrow2 as <-.
    rewrite Hsrc in Hin. apply elem_of_nub in Hin as [Hin _]. apply list_elem_of_fmap in Hin as (r & Heq & Hr).
    apply elem_of_edges_of in Hr as [Hs Hr]. eapply target_not_root; [exact Hs|rewrite Hr; constructor|done].
  - unfold team. case_bool_decide; [|constructor].
    unfold edges_of_all. rewrite Hcols, merge_sort_Permutation. by apply rels_where_NoDup.
Qed.
End Exact.

(** ** Evaluation at rest *)

Lemma drained_app g l1 l2 : drained (drained g l1) l2 = drained g (l1 ++ l2).
Proof.
  revert g. induction l1 as [|x l1 IH]; intros g.
  - destruct g. unfold drained. simpl. by rewrite !app_nil_r.
  - rewrite <-app_comm_cons, !drained_cons. apply IH.
Qed.

Lemma over_caps_drained g rows : over_caps g → over_caps (drained g rows).
Proof. unfold over_caps, drained. simpl. rewrite !length_app. lia. Qed.

Lemma edges_of_all_nil scope d : edges_of_all scope [] d = [].
Proof.
  apply elem_of_nil_inv. intros r Hr. apply elem_of_edges_of_all in Hr as [_ Hr]. set_solver.
Qed.

Lemma readable_nodes scope d rows :
  (∀ r, r ∈ rows → shown_edge scope d r) →
  let ids := nub [] (TargetPluginID <$> rows) in
  size (graph_nodes scope ids d) = length ids
  ∧ ∀ x, x ∈ ids → is_Some (graph_nodes scope ids d !! x).
Proof.
  intros Hrows ids. assert (NoDup ids) as Hnd by apply NoDup_nub.
  assert (∀ x, x ∈ ids → is_Some (graph_nodes scope ids d !! x)) as Hall.
  { intros x Hx. pose proof Hx as Hx'. apply elem_of_nub in Hx' as [Hx' _].
    apply list_elem_of_fmap in Hx' as (r & -> & Hr).
    destruct (shown_target _ _ _ (Hrows _ Hr)) as (q & Hq & Hrq). eexists.
    apply graph_nodes_lookup; [done|]. eauto. }
  split; [|done]. assert (dom (graph_nodes scope ids d) = list_to_set (C:=gset string) ids) as Hdom.
  { apply set_eq. intros x. rewrite elem_of_dom, elem_of_list_to_set. split; [by apply graph_nodes_dom|auto]. }
  rewrite <-size_dom, Hdom. by apply size_list_to_set.
Qed.

Lemma closure_at_rest scope d id p e n :
  at_rest e d → plugins d !! id = Some p → readable_row scope p = true →
  let root := mkNode (scanned p) (graphOwnerReview scope d p) in
  let g := drained newGraphEdges (closure_edges scope id (team p) d) in
  (GetGraphClosure scope id e n).1 =
  if is_leaf (Type_ p) then Ok (mkClosure root [] [])
  else if decide (over_caps g) then Error ErrGraphTooLarge
  else Ok (mkClosure root (g_rels g)
             (omap (λ x, graph_nodes scope (g_targets g) d !! x) (g_targets g))).
Proof.
  intros He Hp Hr root g. unfold GetGraphClosure. erewrite rd_bind_eval.
  2:{ unfold getGraphRoot. erewrite rd_bind_eval by (by apply select_rest).
      rewrite (proj2 (find_readable scope id d p)) by done. simpl. reflexivity. }
  fold root. change (Type_ (n_plugin root)) with (Type_ p). destruct (is_leaf (Type_ p)); [done|].
  erewrite rd_bind_eval by (by apply select_rows_rest).
  set (g1 := drained newGraphEdges (edges_of scope id d)).
  assert (over_caps g1 → over_caps g) as Hmono.
  { unfold g, closure_edges. rewrite <-drained_app. apply over_caps_drained. }
  assert (rd_lift (drain newGraphEdges (firstn graphEdgeLimit (edges_of scope id d)) None) e (S (S n))
    = (if decide (over_caps g1) then Error ErrGraphTooLarge else Ok g1, S (S n))) as Hl1.
  { unfold rd_lift. by rewrite drain_limited by apply new_within_caps. }
  destruct (decide (over_caps g1)) as [Ho1|Ho1].
  { rewrite decide_True by auto. by rewrite (rd_bind_fails _ _ _ _ _ _ Hl1). }
  rewrite (rd_bind_eval _ _ _ _ _ _ Hl1).
  assert (∀ m, (level_2 scope root g1 e m).1
    = if decide (over_caps g) then Error ErrGraphTooLarge else Ok g) as Hl2.
  { intros m. unfold level_2, g, closure_edges, team. simpl (Type_ _). fold (Type_ p).
    change (Type_ (n_plugin root)) with (Type_ p).
    case_bool_decide as Ht; simpl.
    2:{ rewrite app_nil_r. fold g1. by rewrite decide_False. }
    case_bool_decide as Hnil; simpl.
    - change (g_targets g1) with (nub [] (TargetPluginID <$> edges_of scope id d)) in Hnil.
      rewrite Hnil, edges_of_all_nil, app_nil_r. fold g1. by rewrite decide_False.
    - erewrite rd_bind_eval by (by apply select_rows_rest). unfold rd_lift. simpl.
      rewrite drain_limited by done. rewrite <-drained_app. done. }
  specialize (Hl2 (S (S n))). destruct (level_2 scope root g1 e (S (S n))) as [r2 k2] eqn:E2. simpl in Hl2. subst r2.
  destruct (decide (over_caps g)) as [Ho|Ho]; [by rewrite (rd_bind_fails _ _ _ _ _ _ E2)|].
  rewrite (rd_bind_eval _ _ _ _ _ _ E2).
  change (g_targets g) with (nub [] (TargetPluginID <$> closure_edges scope id (team p) d)).
  case_bool_decide as Hnil; [by rewrite Hnil|].
  erewrite rd_bind_eval by (by apply select_rest).
  destruct (readable_nodes scope d (closure_edges scope id (team p) d)) as [Hsize _].
  { intros r Hin. unfold closure_edges in Hin. apply elem_of_app in Hin as [Hin|Hin].
    - by apply elem_of_edges_of in Hin as [? _].
    - unfold team in Hin. case_bool_decide; [|set_solver]. by apply elem_of_edges_of_all in Hin as [? _]. }
  by rewrite Hsize, Nat.eqb_refl.
Qed.

(** C17: the closure is the reachable part of the relation graph. When nothing
    changes while it is read and every edge obeys the relation matrix, the
    query that follows the graph for at most two levels answers: not found,
    exactly when the root is not readable; too large, only when more than
    2,000 edges or more than 630 plugins are reachable; and otherwise every
    edge and every plugin reachable from the root through plugins the caller
    may read, each once, and nothing else. *)
Theorem closure_is_reachability scope d id e n :
  at_rest e d → keyed d → shaped d →
  match (GetGraphClosure scope id e n).1 with
  | Ok c =>
      (∃ p, plugins d !! id = Some p ∧ readable_row scope p = true
            ∧ c_root c = mkNode (scanned p) (graphOwnerReview scope d p))
      ∧ NoDup (RelID <$> c_rels c)
      ∧ (∀ r, r ∈ c_rels c ↔ shown_edge scope d r ∧ reaches scope d id (SourcePluginID r))
      ∧ NoDup (node_ids c)
      ∧ (∀ x, x ∈ node_ids c ↔ x ≠ id ∧ reaches scope d id x)
      ∧ (Z.of_nat (length (c_rels c)) ≤ 2000 ∧ Z.of_nat (length (c_nodes c)) ≤ 630)%Z
  | Error err =>
      (err = ErrNotFound ∧ ∀ p, plugins d !! id = Some p → readable_row scope p = false)
      ∨ (err = ErrGraphTooLarge ∧
         ((∃ es, NoDup (RelID <$> es) ∧ (2000 < Z.of_nat (length es))%Z
             ∧ ∀ r, r ∈ es → shown_edge scope d r ∧ reaches scope d id (SourcePluginID r))
          ∨ (∃ xs, NoDup xs ∧ (630 < Z.of_nat (length xs))%Z
             ∧ ∀ x, x ∈ xs → x ≠ id ∧ reaches scope d id x)))
  end.
Proof.
  intros He Hkey Hshape. destruct (find_plugin (readable_row scope) id d) as [p|] eqn:Hf.
  2:{ unfold GetGraphClosure. erewrite rd_bind_fails.
      2:{ unfold getGraphRoot. erewrite rd_bind_eval by (by apply select_rest). rewrite Hf. reflexivity. }
      simpl. left. split; [done|]. intros p Hp. apply not_true_iff_false. intros Hr.
      by rewrite (proj2 (find_readable scope id d p)) in Hf. }
  apply find_readable in Hf as [Hp Hr]. pose proof (closure_edges_spec scope d Hshape id p Hp Hr) as Hedges.
  pose proof (closure_targets scope d Hshape id p Hp Hr) as Htargets.
  pose proof (closure_edges_NoDup scope d Hshape id p Hp Hr Hkey) as Hnd.
  rewrite (closure_at_rest _ _ _ _ _ _ He Hp Hr). set (es := closure_edges scope id (team p) d) in *.
  destruct (is_leaf (Type_ p)) eqn:Hleaf.
  { assert (∀ r, r ∉ es) as Hnone.
    { intros r Hin. apply Hedges in Hin as [Hs Hreach].
      destruct (reaches_levels scope d Hshape id p Hp Hr _ Hreach) as (q & Hq & Hrq & Hl).
      destruct (shown_rank scope d Hshape _ _ Hs Hq Hrq) as (q' & _ & _ & Hrank).
      unfold is_leaf in Hleaf. bool_facts. destruct Hl as [Hsrc|[[Hk _]|Hk]];
        [rewrite Hsrc, Hp in Hq; injection Hq as <-| |]; destruct Hleaf as [Ht|Ht]; rewrite Ht in *; simpl in *; lia. }
    apply elem_of_nil_inv in Hnone. rewrite Hnone in *. simpl. unfold node_ids. simpl.
    split_and!; [by eauto|constructor|exact Hedges|constructor|exact Htargets|done|done]. }
  assert (∀ x, x ∈ nub [] (TargetPluginID <$> es) ↔ x ≠ id ∧ reaches scope d id x) as Hnub.
  { intros x. rewrite elem_of_nub, Htargets. set_solver. }
  case_decide as Ho; simpl.
  { right. split; [done|]. destruct Ho as [Ho|Ho]; [left; exists es|right; exists (nub [] (TargetPluginID <$> es))].
    - split_and!; [done|exact Ho|]. intros r. apply Hedges.
    - split_and!; [apply NoDup_nub|exact Ho|]. intros x. apply Hnub. }
  destruct (readable_nodes scope d es) as [_ Hall]; [intros r Hin; by apply Hedges in Hin as [? _]|].
  assert (NoDup (nub [] (TargetPluginID <$> es))) as Hndt by apply NoDup_nub.
  assert ((λ nd, ID (n_plugin nd)) <$> omap (λ x, graph_nodes scope (nub [] (TargetPluginID <$> es)) d !! x)
            (nub [] (TargetPluginID <$> es)) = nub [] (TargetPluginID <$> es)) as Hids.
  { rewrite omap_ids.
    - apply filter_all. exact Hall.
    - intros i nd Hi. apply graph_nodes_lookup in Hi as (_ & q & Hq & _ & ->); [|done]. simpl. by apply Hkey. }
  unfold node_ids. cbn [c_rels c_nodes c_root g_rels g_targets drained newGraphEdges app]. rewrite Hids.
  split_and!; [by eauto|done|done|done|done| |].
  - unfold over_caps in Ho. cbn [g_rels g_targets drained newGraphEdges app] in Ho. unfold maxGraphEdges in Ho. lia.
  - unfold over_caps in Ho. cbn [g_rels g_targets drained newGraphEdges app] in Ho. unfold maxGraphNodes in Ho.
    rewrite <-(length_fmap (λ nd, ID (n_plugin nd))). rewrite Hids. lia.
Qed.

(** ** Declared and visible edges *)

(** A live dependency of [id] whose target [scope] may not read. *)
Definition hidden_dependency (scope : Scope) (id : string) (d : Db) : Prop := ∃ k r q,
  relations d !! k = Some r ∧ SourcePluginID r = id ∧ RelStatus r = 1%Z ∧ RelDeletedAt r = None
  ∧ plugins d !! TargetPluginID r = Some q ∧ live q = true ∧ in_scope scope q = false.

Lemma elem_of_declared id d r :
  r ∈ declared id d ↔ SourcePluginID r = id ∧ RelStatus r = 1%Z ∧ RelDeletedAt r = None
    ∧ (∃ q, plugins d !! TargetPluginID r = Some q ∧ live q = true)
    ∧ ∃ k, relations d !! k = Some r.
Proof.
  unfold declared. rewrite elem_of_rels_where. unfold live_edge, rel_live.
  rewrite !andb_true_iff, String.eqb_eq, !bool_decide_eq_true.
  destruct (plugins d !! TargetPluginID r) as [q|]; [rewrite andb_true_iff|]; naive_solver.
Qed.

(** The visible edges of a plugin are declared ones, and they are fewer exactly
    when a dependency is hidden. *)
Lemma declared_counts scope id d :
  (length (edges_of scope id d) ≤ length (declared id d))%nat
  ∧ ((length (edges_of scope id d) < length (declared id d))%nat ↔ hidden_dependency scope id d).
Proof.
  assert (length (edges_of scope id d)
          = length (filter (λ r, live_edge d (in_scope scope) r = true) (declared id d))) as Hlen.
  { unfold edges_of, declared, edges_from, rels_where. rewrite length_fmap, merge_sort_Permutation.
    rewrite list_filter_filter. f_equal. apply list_filter_iff. intros r.
    rewrite !andb_true_iff, mem_true, list_elem_of_singleton, String.eqb_eq. unfold live_edge.
    rewrite !andb_true_iff. destruct (plugins d !! TargetPluginID r) as [q|]; [|naive_solver].
    rewrite !andb_true_iff. naive_solver. }
  rewrite Hlen. pose proof (length_filter (λ r, live_edge d (in_scope scope) r = true) (declared id d)) as Hle.
  split; [done|]. split.
  - intros Hlt. destruct (decide (Exists (λ r, live_edge d (in_scope scope) r = false) (declared id d))) as [Hex|Hno].
    + apply Exists_exists in Hex as (r & Hr & Hf). apply elem_of_declared in Hr as (Hs & Hst & Hdel & (q & Hq & Hl) & k & Hk).
      exists k, r, q. split_and!; try done. unfold live_edge, rel_live in Hf. rewrite Hq, Hl, !bool_decide_true in Hf by done. done.
    + assert (length (filter (λ r, live_edge d (in_scope scope) r = true) (declared id d)) = length (declared id d)); [|lia].
      apply filter_length_eq. intros r Hr. apply not_false_iff_true. intros Hf. apply Hno, Exists_exists. eauto.
  - intros (k & r & q & Hk & Hs & Hst & Hdel & Hq & Hl & Hsc). apply (length_filter_lt _ _ r).
    + apply elem_of_declared. eauto 10.
    + unfold live_edge. rewrite Hq, Hsc, andb_false_r. by rewrite andb_false_r.
Qed.
