(* ===== verification/Availability.v ===== *)
(** * Dependency availability: repository/plugin/dependency_availability.go

    An expert or a team is hidden from the catalog while a dependency it
    published is unavailable, and its owner is told which: the SQL predicate of
    the catalog, the diagnostics loaded row by row for the owner, and how far
    they agree. *)

From S2P Require Import Prelude GoStrings Version Model Store Rows Listing Lifecycle Reads Queries Closure.
Import Go.
Local Open Scope string_scope.

Section Availability.
Context `{Host}.

(** ** The SQL predicate *)

Definition dependency_type (t : string) : bool :=
  mem t ["expert_skill"; "expert_connector"; "expert_team_expert"].
Definition member_type (t : string) : bool := mem t ["expert_skill"; "expert_connector"].
Definition released_type (t : string) : bool := mem t ["expert_skill"; "expert_team_expert"].

(** A row of [plugin_version_releases]; a NULL version matches none. *)
Definition release_row (d : Db) (pluginID : string) (versionID : option string) : bool :=
  match versionID with
  | Some v => bool_decide (is_Some (releases d !! (pluginID, v)))
  | None => false
  end.

(** The disjuncts both target predicates start with: the target is private
    while the root is published to the Space or belongs to someone else, or it
    is inactive, deleted or not listed. *)
Definition private_elsewhere (root target : Plugin) : bool :=
  bool_decide (Visibility target = VPrivate)
  && (bool_decide (Visibility root = VSpace) || negb (String.eqb (OwnerUID root) (OwnerUID target))).
Definition withdrawn (target : Plugin) : bool :=
  negb (live target) || negb (bool_decide (ListingState target = Published)).

Definition active_snapshot (e : SnapshotRelation) : bool :=
  bool_decide (snap_status e = 1%Z) && bool_decide (snap_deleted_at e = None).

Definition bundled_with (e : SnapshotRelation) (target container : Plugin) : bool :=
  bool_decide (snap_target_version_id e = None) && IsEmbedded target
  && String.eqb (OwnerUID target) (OwnerUID container)
  && bool_decide (SpaceID target = SpaceID container).

(** COALESCE(pin, target.published_version_id) *)
Definition coalesce (a b : option string) : option string := match a with Some _ => a | None => b end.

Definition snapshotTargetUnavailable (d : Db) (root : Plugin) (e : SnapshotRelation)
    (target : option Plugin) (container : Plugin) : bool :=
  match target with
  | None => true
  | Some t =>
      private_elsewhere root t || withdrawn t
      || (released_type (snap_relation_type e) && negb (bundled_with e t container)
          && negb (release_row d (snap_target_plugin_id e)
                     (coalesce (snap_target_version_id e) (PublishedVersionID t))))
  end.

(** [plugin_versions] of one plugin, by version. *)
Definition version_relations (d : Db) (pluginID : string) (versionID : option string)
    : list SnapshotRelation :=
  match versionID with
  | Some v => match versions d !! v with
              | Some row => if String.eqb (pv_plugin_id row) pluginID then pv_relations row else []
              | None => []
              end
  | None => []
  end.

(** The container of a member's edges is the member itself. *)
Definition snapshotMemberUnavailable (d : Db) (root : Plugin) (e : SnapshotRelation)
    (member : Plugin) : bool :=
  existsb (λ m, member_type (snap_relation_type m) && active_snapshot m
                && snapshotTargetUnavailable d root m (plugins d !! snap_target_plugin_id m) member)
    (version_relations d (snap_target_plugin_id e)
       (coalesce (snap_target_version_id e) (PublishedVersionID member))).

Definition unavailableSnapshot (d : Db) (root : Plugin) (sourceID : string) (version : option string)
    (container : Plugin) : bool :=
  existsb (λ e, dependency_type (snap_relation_type e) && active_snapshot e
    && let target := plugins d !! snap_target_plugin_id e in
       snapshotTargetUnavailable d root e target container
       || (String.eqb (snap_relation_type e) "expert_team_expert"
           && match target with Some t => snapshotMemberUnavailable d root e t | None => false end))
    (version_relations d sourceID version).

Definition liveTargetUnavailable (d : Db) (root : Plugin) (r : PluginRelation)
    (target : option Plugin) : bool :=
  match target with
  | None => true
  | Some t =>
      private_elsewhere root t || withdrawn t
      || (released_type (RelType r) && bool_decide (is_Some (TargetVersionID r))
          && negb (release_row d (TargetPluginID r) (TargetVersionID r)))
  end.

(** Active relations out of one plugin. *)
Definition active_from (d : Db) (sourceID : string) : list PluginRelation :=
  rels_where (λ r, String.eqb (SourcePluginID r) sourceID && bool_decide (RelStatus r = 1%Z)
                   && rel_live r) d.

Definition unavailableMemberLive (d : Db) (root source : Plugin) : bool :=
  existsb (λ r, member_type (RelType r)
                && liveTargetUnavailable d root r (plugins d !! TargetPluginID r))
    (active_from d (ID source)).

Definition unavailableLive (d : Db) (root : Plugin) : bool :=
  existsb (λ r, dependency_type (RelType r)
    && let target := plugins d !! TargetPluginID r in
       liveTargetUnavailable d root r target
       || (String.eqb (RelType r) "expert_team_expert"
           && match target with
              | None => false
              | Some m =>
                  match TargetVersionID r, PublishedVersionID m with
                  | Some v, _ => unavailableSnapshot d root (ID m) (Some v) m
                  | None, Some v => unavailableSnapshot d root (ID m) (Some v) m
                  | None, None => unavailableMemberLive d root m
                  end
              end))
    (active_from d (ID root)).

Definition container_type (t : PluginType) : bool := bool_decide (t = Expert ∨ t = ExpertTeam).

Definition unavailableDependency (d : Db) (root : Plugin) : bool :=
  container_type (Type_ root)
  && match PublishedVersionID root with
     | Some v => unavailableSnapshot d root (ID root) (Some v) root
     | None => unavailableLive d root
     end.

Definition dependencyAvailability (d : Db) (p : Plugin) : bool := negb (unavailableDependency d p).

Definition HasUnavailableDependencies (scope : Scope) (pluginID : string) : Rd bool :=
  select (λ d, match plugins d !! pluginID with
               | Some p => readable_row scope p && bool_decide (ListingState p = Published)
                           && unavailableDependency d p
               | None => false
               end).

(** ** The owner's diagnostics *)

Record dependencyEdge := mkDependencyEdge {
  de_target : string;
  de_type : string;
  de_pin : option string;
  de_formal : bool;
  de_root : string;
  de_via : list string;
  de_exists : bool;
  de_active : bool;
  de_listed : bool;
  de_embedded : bool;
  de_published : string;
  de_released : bool;
  de_name : string
}.

Definition new_edge (target type : string) (pin : option string) (formal : bool) : dependencyEdge :=
  mkDependencyEdge target type pin formal "" [] false false false false "" false "".
Definition place_edge (root : string) (via : list string) (e : dependencyEdge) : dependencyEdge :=
  mkDependencyEdge (de_target e) (de_type e) (de_pin e) (de_formal e) root via (de_exists e)
    (de_active e) (de_listed e) (de_embedded e) (de_published e) (de_released e) (de_name e).

Inductive IssueReason := IssueDeleted | IssueDelisted | IssueReleaseMissing.
#[export] Instance IssueReason_eq_dec : EqDecision IssueReason.
Proof. solve_decision. Defined.

Definition reason (e : dependencyEdge) : option IssueReason :=
  if negb (de_exists e) || negb (de_active e) then Some IssueDeleted
  else if negb (de_listed e) then Some IssueDelisted
  else if negb (String.eqb (de_type e) "expert_connector")
          && (bool_decide (is_Some (de_pin e)) || de_formal e) && negb (de_released e)
          && negb (de_embedded e && bool_decide (de_pin e = None))
  then Some IssueReleaseMissing
  else None.

Definition snapshot_edges (d : Db) (sourceID versionID : string) : list dependencyEdge :=
  (λ r, new_edge (TargetPluginID r) (RelType r) (TargetVersionID r) true) <$>
  filter (λ r, bool_decide (RelStatus r = 1%Z) && rel_live r && dependency_type (RelType r) = true)
    (DecodeSnapshotRelations (version_relations d sourceID (Some versionID))).
Definition loadSnapshotEdges (sourceID versionID : string) : Rd (list dependencyEdge) :=
  select (λ d, snapshot_edges d sourceID versionID).

Definition live_edges_of (d : Db) (sourceID : string) : list dependencyEdge :=
  (λ r, new_edge (TargetPluginID r) (RelType r) (TargetVersionID r) false) <$>
  filter (λ r, dependency_type (RelType r) = true) (active_from d sourceID).
Definition loadLiveEdges (sourceID : string) : Rd (list dependencyEdge) :=
  select (λ d, live_edges_of d sourceID).

Definition loadDependencyEdges (sourceID : string) : Rd (list dependencyEdge) :=
  o ← select (find_plugin live sourceID);
  match o with
  | None => mret []
  | Some p =>
      match PublishedVersionID p with
      | Some v => if String.eqb v "" then loadLiveEdges sourceID else loadSnapshotEdges sourceID v
      | None => loadLiveEdges sourceID
      end
  end.

(** [batchDependencyTargetInfo]: the targets, then the releases of the versions
    that matter; the second query is skipped when there are none. *)
Definition target_info (d : Db) (e : dependencyEdge) : dependencyEdge :=
  match plugins d !! de_target e with
  | None => e
  | Some p =>
      mkDependencyEdge (de_target e) (de_type e) (de_pin e) (de_formal e) (de_root e) (de_via e)
        true (live p) (bool_decide (ListingState p = Published)) (IsEmbedded p)
        (default "" (PublishedVersionID p)) (de_released e)
        (if bool_decide (Type_ p = Connector) then Name p else published_name d p)
  end.
Definition edge_version (e : dependencyEdge) : string := default (de_published e) (de_pin e).
Definition release_info (d : Db) (e : dependencyEdge) : dependencyEdge :=
  if de_exists e then
    mkDependencyEdge (de_target e) (de_type e) (de_pin e) (de_formal e) (de_root e) (de_via e)
      (de_exists e) (de_active e) (de_listed e) (de_embedded e) (de_published e)
      (negb (String.eqb (edge_version e) "") && release_row d (de_target e) (Some (edge_version e)))
      (de_name e)
  else e.

Definition batchDependencyTargetInfo (edges : list dependencyEdge) : Rd (list dependencyEdge) :=
  match edges with
  | [] => mret []
  | _ =>
      edges ← select (λ d, target_info d <$> edges);
      if existsb (λ e, de_exists e && negb (String.eqb (edge_version e) "")) edges
      then select (λ d, release_info d <$> edges)
      else mret edges
  end.

(** [batchDependencyTargetNames]: the released name, for those who may see it. *)
Definition name_authorized (scope : Scope) (p : Plugin) : bool :=
  Admin scope ||
  match Visibility p with
  | VPublic | VSystem => true
  | VSpace => bool_decide (SpaceID p = Some (ScopeSpaceID scope))
  | VPrivate => bool_decide (SpaceID p = Some (ScopeSpaceID scope))
                && String.eqb (OwnerUID p) (CallerUID scope)
  end.
Definition edge_name (scope : Scope) (d : Db) (e : dependencyEdge) : string :=
  match plugins d !! de_target e with
  | None => ""
  | Some p =>
      if name_authorized scope p then
        if bool_decide (Type_ p = Connector) then Name p
        else match versions d !! edge_version e with
             | Some v => if String.eqb (pv_plugin_id v) (de_target e)
                         then json_plugin_name (pv_manifest v) else ""
             | None => ""
             end
      else ""
  end.
Definition name_info (scope : Scope) (d : Db) (e : dependencyEdge) : dependencyEdge :=
  mkDependencyEdge (de_target e) (de_type e) (de_pin e) (de_formal e) (de_root e) (de_via e)
    (de_exists e) (de_active e) (de_listed e) (de_embedded e) (de_published e) (de_released e)
    (edge_name scope d e).
Definition batchDependencyTargetNames (scope : Scope) (edges : list dependencyEdge)
    : Rd (list dependencyEdge) :=
  match edges with [] => mret [] | _ => select (λ d, name_info scope d <$> edges) end.

Record DependencyIssue := mkIssue {
  di_target : string; di_name : string; di_type : string; di_reason : IssueReason;
  di_via : list string
}.

Definition edge_issue (e : dependencyEdge) : option DependencyIssue :=
  (λ why, mkIssue (de_target e) (de_name e) (de_type e) why (de_via e)) <$> reason e.

(** The roots diagnosed: containers that left the draft state. *)
Definition diagnosed (p : Plugin) : bool :=
  negb (bool_decide (ListingState p = Draft)) && container_type (Type_ p).

(** The second wave: the members of a team, at the version the team pinned. *)
Fixpoint member_edges (rootID : string) (edges : list dependencyEdge) : Rd (list dependencyEdge) :=
  match edges with
  | [] => mret []
  | e :: es =>
      if String.eqb (de_type e) "expert_team_expert" then
        found ← match de_pin e with
                | Some v => loadSnapshotEdges (de_target e) v
                | None => loadDependencyEdges (de_target e)
                end;
        rest ← member_edges rootID es;
        mret ((place_edge rootID [de_target e] <$> found) ++ rest)%list
      else member_edges rootID es
  end.

Fixpoint root_edges (roots : list Plugin) : Rd (list dependencyEdge) :=
  match roots with
  | [] => mret []
  | p :: ps =>
      if diagnosed p then
        found ← loadDependencyEdges (ID p);
        let edges := place_edge (ID p) [] <$> found in
        deeper ← if bool_decide (Type_ p = ExpertTeam) then member_edges (ID p) edges else mret [];
        rest ← root_edges ps;
        mret (edges ++ deeper ++ rest)%list
      else root_edges ps
  end.

(** ORDER of the issues of one root: via, type and target. *)
Definition issue_key (i : DependencyIssue) : string :=
  (Join (di_via i) "/" ++ di_type i ++ di_target i)%string.
Definition issue_before (a b : DependencyIssue) : Prop := String.leb (issue_key a) (issue_key b) = true.
#[export] Instance issue_before_dec : RelDecision issue_before.
Proof. unfold RelDecision, issue_before. apply _. Defined.

Definition issues_of (rootID : string) (edges : list dependencyEdge) : list DependencyIssue :=
  merge_sort issue_before (omap edge_issue (filter (λ e, de_root e = rootID) edges)).

(** The authorization recheck of the roots. *)
Definition owned_count (scope : Scope) (ids : list string) (d : Db) : nat :=
  length (filter (λ id, is_Some (find_plugin (λ p, live p && owned_here scope p) id d)) (nub [] ids)).

Definition DependencyIssues (scope : Scope) (roots : list Plugin)
    : Rd (string → list DependencyIssue) :=
  let ids := ID <$> filter (λ p, diagnosed p = true) roots in
  ok ← if negb (bool_decide (ids = [])) && negb (Admin scope)
       then select (λ d, (owned_count scope ids d =? length ids)%nat) else mret true;
  if negb ok then rd_fail ErrNotFound
  else
    edges ← root_edges roots;
    edges ← batchDependencyTargetInfo edges;
    edges ← batchDependencyTargetNames scope edges;
    mret (λ id, issues_of id edges).

(** ** Evaluation at rest *)

Definition finished (scope : Scope) (d : Db) (e : dependencyEdge) : dependencyEdge :=
  name_info scope d (release_info d (target_info d e)).

Definition fresh_edge (e : dependencyEdge) : Prop := de_exists e = false ∧ de_released e = false.

Lemma batch_rests scope e d edges :
  at_rest e d → Forall fresh_edge edges →
  rests (edges ← batchDependencyTargetInfo edges; batchDependencyTargetNames scope edges) e
    (finished scope d <$> edges).
Proof.
  intros He Hfresh. unfold finished.
  assert (∀ l : list dependencyEdge, rests (batchDependencyTargetNames scope l) e (name_info scope d <$> l)) as Hnames.
  { intros [|x l]; [apply rests_ret|]. exact (rests_select (λ d, name_info scope d <$> (x :: l)) _ _ He). }
  assert (rests (batchDependencyTargetInfo edges) e (release_info d <$> (target_info d <$> edges))) as Hinfo.
  { destruct edges as [|x l]; [apply rests_ret|]. unfold batchDependencyTargetInfo.
    eapply rests_bind; [exact (rests_select (λ d, target_info d <$> (x :: l)) _ _ He)|].
    destruct (existsb _ _) eqn:Hex.
    - exact (rests_select (λ d', release_info d' <$> (target_info d <$> (x :: l))) _ _ He).
    - assert (release_info d <$> (target_info d <$> (x :: l)) = target_info d <$> (x :: l)) as ->; [|apply rests_ret].
      rewrite <-list_fmap_compose. apply list_fmap_ext. intros i y Hy. simpl.
      assert (fresh_edge y) as [Hfe Hrel] by (rewrite Forall_forall in Hfresh; apply Hfresh; by eapply list_elem_of_lookup_2).
      assert (de_exists (target_info d y) && negb (String.eqb (edge_version (target_info d y)) "") = false) as Hno.
      { apply not_true_iff_false. intros Hy'. apply not_true_iff_false in Hex. apply Hex, existsb_exists.
        exists (target_info d y). split; [|done]. apply list_elem_of_In, list_elem_of_fmap. exists y.
        split; [done|]. by eapply list_elem_of_lookup_2. }
      unfold release_info. destruct (de_exists (target_info d y)) eqn:Hexi; [|done]. simpl in Hno. rewrite Hno. simpl.
      unfold target_info in *. destruct (plugins d !! de_target y); [|congruence].
      simpl. by rewrite Hrel. }
  eapply rests_bind; [exact Hinfo|].
  assert ((λ x, name_info scope d (release_info d (target_info d x))) <$> edges
          = name_info scope d <$> (release_info d <$> (target_info d <$> edges))) as ->.
  { by rewrite <-!list_fmap_compose. }
  apply Hnames.
Qed.

(** ** The gate and the diagnostics

    With version management and reference pinning off no edge is pinned and no
    row has a formal release. *)
Definition unpinned (d : Db) : Prop :=
  (∀ k r, relations d !! k = Some r → TargetVersionID r = None)
  ∧ (∀ k p, plugins d !! k = Some p → PublishedVersionID p = None).

(** Only a team has members, and they are experts. *)
Definition team_edges (d : Db) : Prop := ∀ k r p,
  relations d !! k = Some r → RelStatus r = 1%Z → RelDeletedAt r = None →
  RelType r = "expert_team_expert" → plugins d !! SourcePluginID r = Some p →
  Type_ p = ExpertTeam ∧ ∀ q, plugins d !! TargetPluginID r = Some q → Type_ q = Expert.

(** The targets of a container's dependencies, at both levels. *)
Inductive depends (d : Db) (id : string) : string → Prop :=
| depends_directly r : r ∈ active_from d id → dependency_type (RelType r) = true →
    depends d id (TargetPluginID r)
| depends_through r r' : r ∈ active_from d id → RelType r = "expert_team_expert" →
    is_Some (plugins d !! TargetPluginID r) →
    r' ∈ active_from d (TargetPluginID r) → member_type (RelType r') = true →
    depends d id (TargetPluginID r').

Definition gone (d : Db) (t : string) : bool :=
  match plugins d !! t with None => true | Some q => withdrawn q end.

(** The dependencies an owner is told of: those of the container itself, and,
    through each of its live members, those of the member. *)
Inductive dependency (d : Db) (id : string) : string → string → list string → Prop :=
| dependency_direct r : r ∈ active_from d id → dependency_type (RelType r) = true →
    dependency d id (TargetPluginID r) (RelType r) []
| dependency_through r m r' : r ∈ active_from d id → RelType r = "expert_team_expert" →
    plugins d !! TargetPluginID r = Some m → live m = true →
    r' ∈ active_from d (TargetPluginID r) → member_type (RelType r') = true →
    dependency d id (TargetPluginID r') (RelType r') [TargetPluginID r].

(** What is wrong with a target: no row, or one that is inactive or deleted; or
    a live one that is not listed. *)
Definition why_gone (d : Db) (t : string) : option IssueReason :=
  match plugins d !! t with
  | None => Some IssueDeleted
  | Some q => if negb (live q) then Some IssueDeleted
              else if bool_decide (ListingState q = Published) then None else Some IssueDelisted
  end.

(** The name shown of a target without a formal release: a connector's own, to
    those who may see it. *)
Definition shown_name (scope : Scope) (d : Db) (t : string) : string :=
  match plugins d !! t with
  | Some q => if name_authorized scope q && bool_decide (Type_ q = Connector) then Name q else ""
  | None => ""
  end.

Lemma existsb_elem {A} (f : A → bool) l : existsb f l = true ↔ ∃ x, x ∈ l ∧ f x = true.
Proof. rewrite existsb_exists. by setoid_rewrite list_elem_of_In. Qed.

Lemma elem_of_active d id r :
  r ∈ active_from d id ↔ SourcePluginID r = id ∧ RelStatus r = 1%Z ∧ RelDeletedAt r = None
                         ∧ ∃ k, relations d !! k = Some r.
Proof.
  unfold active_from. rewrite Closure.elem_of_rels_where. unfold rel_live.
  rewrite !andb_true_iff, String.eqb_eq, !bool_decide_eq_true. naive_solver.
Qed.

Definition loaded (d : Db) (id : string) : list dependencyEdge :=
  match find_plugin live id d with
  | None => []
  | Some p => match PublishedVersionID p with
              | Some v => if String.eqb v "" then live_edges_of d id else snapshot_edges d id v
              | None => live_edges_of d id
              end
  end.

Lemma loaded_spec d id x : unpinned d →
  x ∈ loaded d id ↔ ∃ p r, plugins d !! id = Some p ∧ live p = true ∧ r ∈ active_from d id
    ∧ dependency_type (RelType r) = true ∧ x = new_edge (TargetPluginID r) (RelType r) None false.
Proof.
  intros [Hpin Hpub]. unfold loaded, find_plugin. destruct (plugins d !! id) as [p|] eqn:Hp; simpl; [|split; [set_solver|naive_solver]].
  destruct (live p) eqn:Hl; [|split; [set_solver|naive_solver congruence]]. rewrite (Hpub _ _ Hp).
  unfold live_edges_of. rewrite list_elem_of_fmap. split.
  - intros (r & -> & Hr). apply list_elem_of_filter in Hr as [Ht Hr].
    pose proof Hr as Ha. apply elem_of_active in Ha as (_ & _ & _ & k & Hk).
    rewrite (Hpin _ _ Hk). naive_solver.
  - intros (p' & r & _ & _ & Hr & Ht & ->). exists r.
    pose proof Hr as Ha. apply elem_of_active in Ha as (_ & _ & _ & k & Hk).
    rewrite (Hpin _ _ Hk). split; [done|]. by apply list_elem_of_filter.
Qed.

Lemma load_rests e d id : at_rest e d → rests (loadDependencyEdges id) e (loaded d id).
Proof.
  intros He. unfold loadDependencyEdges, loaded.
  eapply rests_bind; [exact (rests_select _ _ _ He)|].
  destruct (find_plugin live id d) as [p|]; [|apply rests_ret].
  destruct (PublishedVersionID p) as [v|]; [|exact (rests_select _ _ _ He)].
  destruct (String.eqb v ""); exact (rests_select _ _ _ He).
Qed.

Definition member_loaded (d : Db) (root : string) (edges : list dependencyEdge) : list dependencyEdge :=
  edges ≫= λ x, if String.eqb (de_type x) "expert_team_expert"
                then place_edge root [de_target x] <$>
                     match de_pin x with
                     | Some v => snapshot_edges d (de_target x) v
                     | None => loaded d (de_target x)
                     end
                else [].

Lemma member_rests e d root edges :
  at_rest e d → rests (member_edges root edges) e (member_loaded d root edges).
Proof.
  intros He. unfold member_loaded. induction edges as [|x l IH]; simpl; [apply rests_ret|].
  destruct (String.eqb (de_type x) "expert_team_expert"); [|exact IH].
  destruct (de_pin x) as [v|];
    (eapply rests_bind; [first [exact (rests_select _ _ _ He)|by apply load_rests]|]);
    (eapply rests_bind; [exact IH|]; apply rests_ret).
Qed.

Lemma gone_why d t : gone d t = true ↔ is_Some (why_gone d t).
Proof.
  unfold gone, why_gone, withdrawn. destruct (plugins d !! t) as [q|]; [|by rewrite is_Some_alt].
  rewrite is_Some_alt. destruct (live q); simpl; [|done]. destruct (bool_decide _); simpl; done.
Qed.

(** What a finished edge of the unpinned state reports. *)
Lemma finished_issue scope d root via t ty : unpinned d → versions d !! "" = None →
  edge_issue (finished scope d (place_edge root via (new_edge t ty None false)))
  = (λ why, mkIssue t (shown_name scope d t) ty why via) <$> why_gone d t.
Proof.
  intros [_ Hpub] Hv. unfold edge_issue, finished, why_gone, shown_name, name_info, edge_name, target_info, release_info. simpl.
  destruct (plugins d !! t) as [q|] eqn:Hq; simpl; rewrite Hq; [|done]. rewrite (Hpub _ _ Hq). unfold reason, edge_version. simpl.
  rewrite !andb_false_r, Hv. simpl.
  assert ((if name_authorized scope q then if bool_decide (Type_ q = Connector) then Name q else "" else "")
          = (if name_authorized scope q && bool_decide (Type_ q = Connector) then Name q else "")) as ->
    by (by destruct (name_authorized scope q)).
  destruct (live q); [|done]. destruct (bool_decide (ListingState q = Published)); done.
Qed.
Lemma finished_root scope d root via t ty :
  de_root (finished scope d (place_edge root via (new_edge t ty None false))) = root.
Proof. unfold finished, name_info, release_info, target_info. simpl. by destruct (plugins d !! t). Qed.

Lemma issues_elem id edges i :
  i ∈ issues_of id edges ↔ ∃ x, x ∈ edges ∧ de_root x = id ∧ edge_issue x = Some i.
Proof.
  unfold issues_of. rewrite (merge_sort_Permutation issue_before), list_elem_of_omap.
  setoid_rewrite list_elem_of_filter. naive_solver.
Qed.

Definition blocked_target (d : Db) (root : Plugin) (t : string) : bool :=
  match plugins d !! t with None => true | Some q => private_elsewhere root q || withdrawn q end.

Lemma live_target d root id r : unpinned d → r ∈ active_from d id →
  liveTargetUnavailable d root r (plugins d !! TargetPluginID r) = blocked_target d root (TargetPluginID r).
Proof.
  intros [Hpin _] Hr. apply elem_of_active in Hr as (_ & _ & _ & k & Hk).
  unfold liveTargetUnavailable, blocked_target. destruct (plugins d !! TargetPluginID r); [|done].
  rewrite (Hpin _ _ Hk), (bool_decide_false (is_Some None)) by (intros [? ?]; done).
  by rewrite andb_false_r, orb_false_r.
Qed.

Lemma dependency_cases t : dependency_type t = true ↔ member_type t = true ∨ t = "expert_team_expert".
Proof. unfold dependency_type, member_type. rewrite !mem_true. set_solver. Qed.

Lemma team_type_eqb t : String.eqb t "expert_team_expert" = true ↔ t = "expert_team_expert".
Proof. apply String.eqb_eq. Qed.

(** The gate, at rest in the unpinned state: some dependency, at either level,
    has a blocked target. *)
Lemma gate_spec d id p : keyed d → unpinned d → plugins d !! id = Some p → container_type (Type_ p) = true →
  unavailableDependency d p = true ↔ ∃ t, depends d id t ∧ blocked_target d p t = true.
Proof.
  intros (Hkey & _) Hu Hp Hc. unfold unavailableDependency. destruct Hu as [Hpin Hpub].
  assert (unpinned d) as Hu by done.
  rewrite Hc, (Hpub _ _ Hp), (Hkey _ _ Hp) || rewrite Hc, (Hpub _ _ Hp). simpl.
  unfold unavailableLive. rewrite (Hkey _ _ Hp), existsb_elem. split.
  - intros (r & Hr & HP). apply andb_true_iff in HP as [Hd HP]. apply orb_true_iff in HP as [HP|HP].
    { rewrite (live_target _ _ _ _ Hu Hr) in HP. exists (TargetPluginID r). split; [by constructor|done]. }
    apply andb_true_iff in HP as [Ht HP]. apply team_type_eqb in Ht.
    destruct (plugins d !! TargetPluginID r) as [m|] eqn:Hm; [|done].
    pose proof Hr as Ha. apply elem_of_active in Ha as (_ & _ & _ & k & Hk).
    rewrite (Hpin _ _ Hk), (Hpub _ _ Hm) in HP. unfold unavailableMemberLive in HP.
    rewrite (Hkey _ _ Hm) in HP. apply existsb_elem in HP as (r' & Hr' & HP).
    apply andb_true_iff in HP as [Hmt HP]. rewrite (live_target _ _ _ _ Hu Hr') in HP.
    exists (TargetPluginID r'). split; [|done]. eapply depends_through; eauto.
  - intros (t & Hdep & Hb). destruct Hdep as [r Hr Hd|r r' Hr Ht [m Hm] Hr' Hmt]; exists r; (split; [done|]).
    + rewrite (live_target _ _ _ _ Hu Hr), Hb. by rewrite Hd.
    + pose proof Hr as Ha. apply elem_of_active in Ha as (_ & _ & _ & k & Hk).
      rewrite (proj2 (dependency_cases _)) by auto. rewrite (proj2 (team_type_eqb _) Ht), Hm, (Hpin _ _ Hk), (Hpub _ _ Hm).
      simpl. apply orb_true_iff. right. unfold unavailableMemberLive. rewrite (Hkey _ _ Hm).
      apply existsb_elem. exists r'. split; [done|]. by rewrite (live_target _ _ _ _ Hu Hr'), Hmt, Hb.
Qed.

Definition diagnosed_edges (d : Db) (p : Plugin) : list dependencyEdge :=
  let edges := place_edge (ID p) [] <$> loaded d (ID p) in
  (edges ++ (if bool_decide (Type_ p = ExpertTeam) then member_loaded d (ID p) edges else []) ++ [])%list.

(** The edges loaded for a live root are its dependencies. *)
Lemma diagnosed_dependency d id p x :
  keyed d → unpinned d → team_edges d → plugins d !! id = Some p → live p = true →
  x ∈ diagnosed_edges d p
  ↔ ∃ t ty via, dependency d id t ty via ∧ x = place_edge id via (new_edge t ty None false).
Proof.
  intros (Hkey & _) Hu Hteam Hp Hl. pose proof (Hkey _ _ Hp) as Hid. unfold diagnosed_edges. rewrite Hid, app_nil_r, elem_of_app. split.
  - intros [Hx|Hx].
    + apply list_elem_of_fmap in Hx as (x0 & -> & Hx). apply loaded_spec in Hx as (q & r & _ & _ & Hr & Ht & ->); [|done].
      exists (TargetPluginID r), (RelType r), []. split; [by constructor|done].
    + case_bool_decide; [|set_solver]. unfold member_loaded in Hx. apply list_elem_of_bind in Hx as (x0 & Hx & Hx0).
      apply list_elem_of_fmap in Hx0 as (x1 & -> & Hx0).
      apply loaded_spec in Hx0 as (q & r & _ & _ & Hr & Ht & ->); [|done]. simpl in Hx.
      destruct (String.eqb (RelType r) "expert_team_expert") eqn:Hte; [|set_solver]. apply team_type_eqb in Hte.
      apply list_elem_of_fmap in Hx as (x2 & -> & Hx).
      apply loaded_spec in Hx as (m & r' & Hm & Hlm & Hr' & Ht' & ->); [|done].
      exists (TargetPluginID r'), (RelType r'), [TargetPluginID r]. split; [|done].
      apply (dependency_through d id r m); try done.
      apply dependency_cases in Ht' as [?|Ht']; [done|exfalso].
      apply elem_of_active in Hr as (Hs & Hst & Hdel & k & Hk), Hr' as (Hs' & Hst' & Hdel' & k' & Hk').
      rewrite <-Hs' in Hm. destruct (Hteam _ _ _ Hk' Hst' Hdel' Ht' Hm) as [Hty _].
      rewrite Hs' in Hm. rewrite <-Hs in Hp. destruct (Hteam _ _ _ Hk Hst Hdel Hte Hp) as [_ Hq].
      specialize (Hq _ Hm). congruence.
  - assert (∀ r, r ∈ active_from d id → dependency_type (RelType r) = true →
      new_edge (TargetPluginID r) (RelType r) None false ∈ loaded d id) as Hdirect.
    { intros r Hr Ht. apply loaded_spec; [done|]. by exists p, r. }
    intros (t & ty & via & [r Hr Ht|r m r' Hr Ht Hm Hlm Hr' Hmt] & ->).
    + left. apply list_elem_of_fmap. eexists. split; [done|]. by apply Hdirect.
    + right. pose proof Hr as Ha. apply elem_of_active in Ha as (Hs & Hst & Hdel & k & Hk). rewrite <-Hs in Hp.
      destruct (Hteam _ _ _ Hk Hst Hdel Ht Hp) as [Hty _]. rewrite bool_decide_true by done.
      unfold member_loaded. apply list_elem_of_bind.
      exists (place_edge id [] (new_edge (TargetPluginID r) (RelType r) None false)). split.
      * simpl. rewrite (proj2 (team_type_eqb _) Ht). apply list_elem_of_fmap. eexists. split; [done|].
        apply loaded_spec; [done|]. exists m, r'. split_and!; try done. apply dependency_cases. by left.
      * apply list_elem_of_fmap. eexists. split; [done|]. apply Hdirect; [done|]. apply dependency_cases. by right.
Qed.

(** A dependency at either level is gone exactly when one the owner is told of
    is: when a member is, it is itself such a dependency. *)
Lemma depends_dependency d id :
  (∃ t, depends d id t ∧ gone d t = true) ↔ ∃ t ty via, dependency d id t ty via ∧ is_Some (why_gone d t).
Proof.
  setoid_rewrite gone_why. split.
  - intros (t & [r Hr Ht|r r' Hr Ht [m Hm] Hr' Hmt] & Hg); [exists (TargetPluginID r), (RelType r), []; split; [by constructor|done]|].
    destruct (live m) eqn:Hl.
    + exists (TargetPluginID r'), (RelType r'), [TargetPluginID r]. split; [by eapply dependency_through|done].
    + exists (TargetPluginID r), (RelType r), []. split; [constructor; [done|apply dependency_cases; by right]|].
      unfold why_gone. rewrite Hm, Hl. by eexists.
  - intros (t & ty & via & [r Hr Ht|r m r' Hr Ht Hm Hl Hr' Hmt] & Hg); (eexists; split; [|exact Hg]);
      [by constructor|by eapply depends_through; eauto].
Qed.

(** The edges of one root, if it is diagnosed at all. *)
Definition edges_of_root (d : Db) (p : Plugin) : list dependencyEdge :=
  if diagnosed p then diagnosed_edges d p else [].

Lemma root_edges_rest e d p :
  at_rest e d → rests (root_edges [scanned p]) e (edges_of_root d p).
Proof.
  intros He. unfold root_edges, edges_of_root. change (diagnosed (scanned p)) with (diagnosed p).
  destruct (diagnosed p); [|apply rests_ret].
  eapply rests_bind; [by apply load_rests|]. eapply rests_bind; [|eapply rests_bind; apply rests_ret].
  change (Type_ (scanned p)) with (Type_ p). change (ID (scanned p)) with (ID p).
  case_bool_decide; [by apply member_rests|apply rests_ret].
Qed.

Lemma fresh_loaded d id : Forall fresh_edge (loaded d id).
Proof.
  assert (∀ v, Forall fresh_edge (snapshot_edges d id v)) as Hs.
  { intros v. apply Forall_fmap, Forall_forall. done. }
  assert (Forall fresh_edge (live_edges_of d id)) as Hl by (apply Forall_fmap, Forall_forall; done).
  unfold loaded. destruct (find_plugin live id d) as [p|]; [|constructor].
  destruct (PublishedVersionID p) as [v|]; [destruct (String.eqb v "")|]; done.
Qed.

Lemma fresh_edges d p : Forall fresh_edge (edges_of_root d p).
Proof.
  assert (∀ root via l, Forall fresh_edge l → Forall fresh_edge (place_edge root via <$> l)) as Hplace.
  { intros root via l Hl. apply Forall_fmap. eapply Forall_impl; [exact Hl|]. by intros []. }
  unfold edges_of_root. destruct (diagnosed p); [|constructor]. unfold diagnosed_edges.
  rewrite app_nil_r. apply Forall_app. split; [apply Hplace, fresh_loaded|].
  case_bool_decide; [|constructor]. unfold member_loaded. apply Forall_bind, Forall_forall.
  intros x _. simpl. destruct (String.eqb (de_type x) "expert_team_expert"); [|constructor].
  apply Hplace. destruct (de_pin x); [apply Forall_fmap, Forall_forall; done|apply fresh_loaded].
Qed.

(** At rest the diagnostics of an owned root answer. *)
Definition issues_at (scope : Scope) (d : Db) (p : Plugin) (id : string) : list DependencyIssue :=
  issues_of id (finished scope d <$> edges_of_root d p).

Lemma issues_rest scope d id p e :
  at_rest e d → keyed d → plugins d !! id = Some p → live p = true →
  (Admin scope = true ∨ owned_here scope p = true) →
  rests (DependencyIssues scope [scanned p]) e (issues_at scope d p).
Proof.
  intros He Hk Hp Hl Hown. unfold DependencyIssues. eapply (rests_bind _ _ _ true).
  - destruct (_ && _) eqn:Hc; [|apply rests_ret]. apply andb_true_iff in Hc as [Hne Ha].
    destruct Hown as [Hadm|Hown]; [by rewrite Hadm in Ha|].
    assert (ID <$> filter (λ q, diagnosed q = true) [scanned p] = [ID p]) as Hids.
    { destruct (decide (diagnosed (scanned p) = true)) as [Hd|Hd].
      - rewrite filter_cons_True by done. done.
      - rewrite filter_cons_False in Hne by done. done. }
    rewrite Hids.
    pose proof (rests_select (λ d, (owned_count scope [ID p] d =? length [ID p])%nat) _ _ He) as Hs.
    assert ((owned_count scope [ID p] d =? length [ID p])%nat = true) as Hcount; [|cbv beta in Hs; rewrite Hcount in Hs; exact Hs].
    assert (is_Some (find_plugin (λ p, live p && owned_here scope p) (ID p) d)) as Hf.
    { rewrite (proj1 Hk _ _ Hp). unfold find_plugin. rewrite Hp. simpl. rewrite Hl, Hown. by eexists. }
    unfold owned_count. by rewrite (filter_all _ (nub [] [ID p])) by (by intros x ->%list_elem_of_singleton).
  - simpl. eapply rests_bind; [by eapply root_edges_rest|].
    intros n. destruct (batch_rests scope e d (edges_of_root d p) He (fresh_edges _ _) n) as [k Hb].
    apply rd_bind_ok in Hb as (l & k1 & H1 & H2). exists k.
    rewrite (rd_bind_eval _ _ _ _ _ _ H1), (rd_bind_eval _ _ _ _ _ _ H2). done.
Qed.

(** What the owner of a container at rest is told, exactly. *)
Lemma issues_exact scope d id p i :
  keyed d → unpinned d → team_edges d → versions d !! "" = None →
  plugins d !! id = Some p → live p = true → diagnosed p = true →
  i ∈ issues_at scope d p id
  ↔ ∃ t ty via why, dependency d id t ty via ∧ why_gone d t = Some why
                    ∧ i = mkIssue t (shown_name scope d t) ty why via.
Proof.
  intros Hk Hu Ht Hv Hp Hl Hd. unfold issues_at, edges_of_root. rewrite Hd, issues_elem. split.
  - intros (y & (x & -> & Hx)%list_elem_of_fmap & _ & Hi).
    apply (diagnosed_dependency d id p) in Hx as (t & ty & via & Hdep & ->); [|done..].
    rewrite finished_issue in Hi by done. apply fmap_Some in Hi as (why & Hwhy & ->). by exists t, ty, via, why.
  - intros (t & ty & via & why & Hdep & Hwhy & ->). eexists. split; [apply list_elem_of_fmap; eexists; split; [reflexivity|]|].
    { apply (diagnosed_dependency d id p); [done..|]. by exists t, ty, via. }
    rewrite finished_root, finished_issue, Hwhy by done. done.
Qed.

End Availability.
