(* ===== verification/Grid.v ===== *)
(** * Listing: List of repository/plugin/read.go and ListTags of tags.go

    The rows of a catalog page, of the owner's and of the administrator's
    list, their total and order, and the tag suggestions; and that they agree
    with each other. *)

From S2P Require Import Prelude GoStrings Version Model Store Rows Listing Lifecycle Reads Queries Closure Availability.
From Stdlib Require Import Ascii.
Import Go.
Local Open Scope string_scope.

(** ** MySQL functions of the query

    LIKE ... ESCAPE '!' under the table's collation, JSON_CONTAINS of a quoted
    tag, the manifest's description, the elements JSON_TABLE unnests, the order
    of names, and the order of the "comprehensive" scores (a floating-point
    expression of the counters and the age). *)
Record Counters := mkCounters { view_count : Z; install_count : Z; download_count : Z }.

Class Sql := {
  like : string → string → bool;
  json_contains_tag : RawMessage → string → bool;
  json_description : RawMessage → option string;
  json_tags : RawMessage → list string;
  name_cmp : string → string → comparison;
  score_cmp : Counters * Z → Counters * Z → comparison
}.

Section Grid.
Context `{Host} `{Sql} (metric : string → Counters).

Record ListFilter := mkFilter {
  PlacementCode : string;
  FType : option PluginType;
  FCategoryID : string;
  FTags : list string;
  Keyword : string;
  Mine : bool;
  Sort : string;
  Limit : Z;
  Offset : Z;
  AllSpaces : bool;
  FVisibility : option PluginVisibility;
  IncludeReviewState : bool
}.

Fixpoint escapeLike (s : string) : string :=
  match s with
  | EmptyString => ""
  | String c rest =>
      if Ascii.eqb c "!"%char || Ascii.eqb c "%"%char || Ascii.eqb c "_"%char
      then String "!"%char (String c (escapeLike rest)) else String c (escapeLike rest)
  end.
Definition containing (keyword : string) : string := "%" ++ escapeLike keyword ++ "%".

(** The rows of [plugin_placements] joined to [p]. *)
Definition placed (f : ListFilter) (d : Db) (p : Plugin) : list PlacementRow :=
  filter (λ pp, String.eqb (pl_plugin_id pp) (ID p) && String.eqb (pl_code pp) (PlacementCode f)
                && pl_visible pp
                && (String.eqb (FCategoryID f) "" || bool_decide (pl_category_id pp = Some (FCategoryID f))) = true)
    (map_to_list (placements d)).*2.

Definition keyword_matches (f : ListFilter) (p : Plugin) : bool :=
  like (containing (Keyword f)) (Name p)
  || match json_description (Manifest p) with
     | Some text => like (containing (Keyword f)) text
     | None => false
     end.

(** [listedSQL] *)
Definition listed_row (p : Plugin) : bool := bool_decide (ListingState p = Published).

(** The FROM and WHERE of [buildListQuery]: whether [p] has a row. *)
Definition buildListQuery (scope : Scope) (f : ListFilter) (d : Db) (p : Plugin) : bool :=
  (String.eqb (PlacementCode f) "" || negb (bool_decide (placed f d p = [])))
  && live p && negb (IsEmbedded p)
  && (AllSpaces f || visibilitySQL (ScopeSpaceID scope) (CallerUID scope) p)
  && match FVisibility f with Some v => bool_decide (Visibility p = v) | None => true end
  && match FType f with Some t => bool_decide (Type_ p = t) | None => true end
  && (String.eqb (FCategoryID f) "" || negb (String.eqb (PlacementCode f) "")
      || bool_decide (CategoryID p = Some (FCategoryID f)))
  && forallb (json_contains_tag (Tags p)) (FTags f)
  && (String.eqb (Keyword f) "" || keyword_matches f p)
  && (if Mine f then owned_here scope p
      else AllSpaces f || (listed_row p && dependencyAvailability d p)).

(** [listOrder] *)
Definition then_cmp (a b : comparison) : comparison := match a with Eq => b | _ => a end.
Definition cmp_string (a b : string) : comparison := String.compare a b.
Definition recent (a b : Plugin) : comparison :=
  then_cmp (CreatedAt b ?= CreatedAt a)%Z (cmp_string (ID b) (ID a)).
Definition min_sort_order (f : ListFilter) (d : Db) (p : Plugin) : Z :=
  match pl_sort_order <$> placed f d p with [] => 0 | z :: l => foldr Z.min z l end.
Definition listOrder (f : ListFilter) (d : Db) (a b : Plugin) : comparison :=
  let most (column : Counters → Z) :=
    then_cmp (column (metric (ID b)) ?= column (metric (ID a)))%Z (recent a b) in
  if String.eqb (Sort f) "oldest" then
    then_cmp (CreatedAt a ?= CreatedAt b)%Z (cmp_string (ID a) (ID b))
  else if String.eqb (Sort f) "updated" then
    then_cmp (UpdatedAt b ?= UpdatedAt a)%Z (cmp_string (ID b) (ID a))
  else if String.eqb (Sort f) "name" then
    then_cmp (name_cmp (Name a) (Name b)) (cmp_string (ID a) (ID b))
  else if String.eqb (Sort f) "views" then most view_count
  else if String.eqb (Sort f) "installs" then most install_count
  else if String.eqb (Sort f) "downloads" then most download_count
  else if String.eqb (Sort f) "comprehensive" then
    then_cmp (score_cmp (metric (ID b), CreatedAt b) (metric (ID a), CreatedAt a)) (recent a b)
  else if String.eqb (Sort f) "placement" && negb (String.eqb (PlacementCode f) "") then
    then_cmp (min_sort_order f d a ?= min_sort_order f d b)%Z (cmp_string (ID a) (ID b))
  else recent a b.
Definition before_in (f : ListFilter) (d : Db) (a b : Plugin) : Prop := listOrder f d a b ≠ Gt.
#[export] Instance before_in_dec f d : RelDecision (before_in f d).
Proof. unfold RelDecision, before_in. apply _. Defined.

(** One row per plugin: the page groups the placements of a plugin, and the
    total counts distinct plugins. *)
Definition list_rows (scope : Scope) (f : ListFilter) (d : Db) : list Plugin :=
  filter (λ p, buildListQuery scope f d p = true) (map_to_list (plugins d)).*2.

Definition list_limit (f : ListFilter) : Z :=
  let limit := if (Limit f <=? 0)%Z then 20%Z else Limit f in if (100 <? limit)%Z then 100%Z else limit.

Record ListItem := mkItem {
  li_plugin : Plugin;
  li_counters : Counters;
  li_review : ReviewState;
  li_scenes : list string
}.

Definition list_page (scope : Scope) (f : ListFilter) (d : Db) : list ListItem :=
  (λ p, mkItem (summary p) (metric (ID p))
          (if IncludeReviewState f then reviewState d (ID p) else no_review) []) <$>
  firstn (Z.to_nat (list_limit f)) (skipn (Z.to_nat (Offset f))
    (merge_sort (before_in f d) (list_rows scope f d))).

(** [hydrateSceneCodes]: hidden placements included. *)
Definition scene_codes (d : Db) (pluginID : string) : list string :=
  merge_sort string_le
    (pl_code <$> filter (λ pp, pl_plugin_id pp = pluginID) (map_to_list (placements d)).*2).
Definition set_scenes (l : list string) (i : ListItem) : ListItem :=
  mkItem (li_plugin i) (li_counters i) (li_review i) l.
Definition hydrateSceneCodes (items : list ListItem) : Rd (list ListItem) :=
  match items with
  | [] => mret []
  | _ => select (λ d, (λ i, set_scenes (scene_codes d (ID (li_plugin i))) i) <$> items)
  end.

Definition List (scope : Scope) (f : ListFilter) : Rd (list ListItem * Z) :=
  total ← select (λ d, Z.of_nat (length (list_rows scope f d)));
  page ← select (list_page scope f);
  page ← if AllSpaces f then hydrateSceneCodes page else mret page;
  mret (page, total).

(** ** Tag suggestions (tags.go) *)

Record TagListFilter := mkTagFilter {
  tf_placement : string;
  tf_type : option PluginType;
  tf_keyword : string;
  tf_mine : bool;
  tf_limit : Z
}.

(** The rows whose tags are unnested. *)
Definition tag_source (scope : Scope) (f : TagListFilter) (d : Db) (p : Plugin) : bool :=
  (String.eqb (tf_placement f) ""
   || existsb (λ pp, String.eqb (pl_plugin_id pp) (ID p) && String.eqb (pl_code pp) (tf_placement f)
                     && pl_visible pp) (map_to_list (placements d)).*2)
  && live p && negb (IsEmbedded p)
  && visibilitySQL (ScopeSpaceID scope) (CallerUID scope) p
  && match tf_type f with Some t => bool_decide (Type_ p = t) | None => true end
  && (if tf_mine f then owned_here scope p else listed_row p && dependencyAvailability d p).

Definition tag_accepted (f : TagListFilter) (tag : string) : bool :=
  negb (String.eqb tag "")
  && (let kw := TrimSpace (tf_keyword f) in String.eqb kw "" || like (containing kw) tag).

(** GROUP BY jt.tag, COUNT(DISTINCT p.plugin_id) *)
Definition tagged (scope : Scope) (f : TagListFilter) (d : Db) (tag : string) : list Plugin :=
  filter (λ p, tag_source scope f d p && mem tag (json_tags (Tags p)) = true) (map_to_list (plugins d)).*2.
Definition tags_seen (scope : Scope) (f : TagListFilter) (d : Db) : list string :=
  filter (λ t, tag_accepted f t = true)
    (nub [] (filter (λ p, tag_source scope f d p = true) (map_to_list (plugins d)).*2
             ≫= λ p, json_tags (Tags p))).

Definition tag_before (a b : string * Z) : Prop :=
  then_cmp (b.2 ?= a.2)%Z (cmp_string a.1 b.1) ≠ Gt.
#[export] Instance tag_before_dec : RelDecision tag_before.
Proof. unfold RelDecision, tag_before. apply _. Defined.

Definition tag_limit (f : TagListFilter) : Z :=
  let limit := if (tf_limit f <=? 0)%Z then 50%Z else tf_limit f in if (100 <? limit)%Z then 100%Z else limit.

Definition ListTags (scope : Scope) (f : TagListFilter) : Rd (list (string * Z)) :=
  select (λ d, firstn (Z.to_nat (tag_limit f)) (merge_sort tag_before
    ((λ t, (t, Z.of_nat (length (tagged scope f d t)))) <$> tags_seen scope f d))).

(** ** The suggestions and the grid agree *)

(** The filter a chip sets. *)
Definition chip_filter (f : TagListFilter) (tag sort : string) (limit offset : Z) : ListFilter :=
  mkFilter (tf_placement f) (tf_type f) "" [tag] "" (tf_mine f) sort limit offset false None (tf_mine f).

(** JSON_CONTAINS of a quoted tag, on the arrays JSON_TABLE unnests. *)
Definition contains_unnested : Prop := ∀ tags t, json_contains_tag tags t = mem t (json_tags tags).

Lemma placed_exists f (d : Db) (p : Plugin) :
  FCategoryID f = "" →
  negb (bool_decide (placed f d p = [])) =
  existsb (λ pp, String.eqb (pl_plugin_id pp) (ID p) && String.eqb (pl_code pp) (PlacementCode f)
                 && pl_visible pp) (map_to_list (placements d)).*2.
Proof.
  intros Hc. unfold placed. rewrite Hc. simpl. induction (map_to_list (placements d)).*2 as [|pp l IH]; simpl; [done|].
  destruct (String.eqb (pl_plugin_id pp) (ID p) && String.eqb (pl_code pp) (PlacementCode f) && pl_visible pp) eqn:E.
  - rewrite filter_cons_True by (by rewrite E). done.
  - rewrite filter_cons_False by (by rewrite E). done.
Qed.

Lemma chip_rows scope f tag sort limit offset d p :
  contains_unnested →
  buildListQuery scope (chip_filter f tag sort limit offset) d p
  = tag_source scope f d p && mem tag (json_tags (Tags p)).
Proof.
  intros Hjson. unfold buildListQuery, tag_source. rewrite placed_exists by done. simpl.
  rewrite Hjson. destruct (String.eqb (tf_placement f) ""), (existsb _ _), (live p), (IsEmbedded p),
    (visibilitySQL _ _ p), (mem tag _), (tf_mine f), (owned_here scope p), (listed_row p), (dependencyAvailability d p),
    (tf_type f); simpl; try done; by rewrite ?andb_true_r, ?andb_false_r.
Qed.

Lemma tags_seen_spec scope f d tag :
  tag ∈ tags_seen scope f d ↔ tag_accepted f tag = true ∧ tagged scope f d tag ≠ [].
Proof.
  unfold tags_seen. rewrite list_elem_of_filter, elem_of_nub.
  split; intros [Ha Ht]; (split; [done|]).
  - destruct Ht as [Ht _]. apply list_elem_of_bind in Ht as (p & Htag & Hp). apply list_elem_of_filter in Hp as [Hs Hp].
    intros Hnil. assert (p ∈ tagged scope f d tag) as Hin; [|rewrite Hnil in Hin; set_solver].
    apply list_elem_of_filter. split; [|done]. apply andb_true_iff. split; [done|]. by apply mem_true.
  - split; [|set_solver]. destruct (tagged scope f d tag) as [|p l] eqn:E; [done|].
    assert (p ∈ tagged scope f d tag) as Hin by (rewrite E; left). apply list_elem_of_filter in Hin as [Hs Hp].
    apply andb_true_iff in Hs as [Hs Hm]. apply list_elem_of_bind. exists p. split; [by apply mem_true|].
    by apply list_elem_of_filter.
Qed.

#[export] Instance tag_before_total : Total tag_before.
Proof.
  intros a b. unfold tag_before, then_cmp, cmp_string. destruct (Z.compare_spec b.2 a.2) as [Heq|?|?].
  - rewrite Heq, Z.compare_refl. destruct (String.compare a.1 b.1) eqn:E; [by left|by left|right].
    rewrite String.compare_antisym, E. done.
  - by left.
  - right. rewrite (proj2 (Z.compare_lt_iff _ _)); [done|lia].
Qed.

(** A suggested tag leads somewhere, and its count is what it leads to.
    While nothing changes, the suggestions are distinct and at most a hundred,
    the most frequent first; and listing with any of them as the filter, on the same
    grid or among the caller's own plugins, has exactly the count shown as its
    total, in any order and on any page; it is never an empty grid. *)
Theorem chips_match_grid scope f d e n chips n' :
  contains_unnested → at_rest e d → ListTags scope f e n = (Ok chips, n') →
  NoDup chips.*1 ∧ (Z.of_nat (length chips) ≤ 100)%Z ∧ Sorted tag_before chips
  ∧ ∀ tag count, (tag, count) ∈ chips →
      (0 < count)%Z ∧ tag_accepted f tag = true
      ∧ ∀ sort limit offset, ∃ page,
          rests (List scope (chip_filter f tag sort limit offset)) e (page, count)
          ∧ ((offset ≤ 0)%Z → page ≠ []).
Proof.
  intros Hjson He Hrun. unfold ListTags in Hrun.
  rewrite (select_rest _ _ _ _ He) in Hrun. injection Hrun as <- <-.
  set (all := _ <$> tags_seen scope f d).
  assert (NoDup all.*1) as Hnd.
  { unfold all. rewrite <-list_fmap_compose. simpl. rewrite list_fmap_id. apply NoDup_filter, NoDup_nub. }
  split_and!.
  - eapply sublist_NoDup; [|apply fmap_sublist, sublist_take]. by rewrite merge_sort_Permutation.
  - rewrite length_firstn. unfold tag_limit. destruct (Z.ltb_spec 100 (if (tf_limit f <=? 0)%Z then 50 else tf_limit f)); lia.
  - apply Sorted_firstn, Sorted_merge_sort, _.
  - intros tag count Hin.
    assert ((tag, count) ∈ all) as Hall.
    { rewrite <-(merge_sort_Permutation tag_before all), <-(firstn_skipn (Z.to_nat (tag_limit f))). set_solver. }
    unfold all in Hall. apply list_elem_of_fmap in Hall as (t & [= <- ->] & Ht). apply tags_seen_spec in Ht as [Ha Hne].
    split; [destruct (tagged scope f d tag); [done|simpl; lia]|]. split; [done|]. intros sort limit offset.
    assert (list_rows scope (chip_filter f tag sort limit offset) d = tagged scope f d tag) as Hrows.
    { unfold list_rows, tagged. apply list_filter_iff. intros p. by rewrite chip_rows. }
    eexists. split.
    + unfold List. eapply rests_bind; [exact (rests_select _ _ _ He)|].
      eapply rests_bind; [exact (rests_select _ _ _ He)|]. simpl. rewrite Hrows.
      eapply rests_bind; apply rests_ret.
    + intros Hoff. unfold list_page. rewrite Hrows. simpl. assert (Z.to_nat offset = 0%nat) as -> by lia. simpl.
      assert (Z.to_nat (list_limit (chip_filter f tag sort limit offset)) ≠ 0%nat) as Hlim.
      { unfold list_limit. simpl. destruct (Z.leb_spec limit 0); simpl; [lia|].
        destruct (Z.ltb_spec 100 limit); lia. }
      destruct (Z.to_nat (list_limit _)) as [|k]; [by destruct Hlim|].
      destruct (merge_sort _ (tagged scope f d tag)) as [|x l] eqn:E; [|done].
      apply (f_equal length) in E. rewrite merge_sort_Permutation in E. by destruct (tagged scope f d tag).
Qed.
End Grid.
