(* ===== verification/CatalogService.v ===== *)
(** * Catalog reads at the service: service/plugin/service.go and install.go

    List, ListTags, Detail, DetailGraph and the check an installation makes of
    its dependencies: what each answers, and that the surfaces agree. Icon URLs
    are not modelled. *)

From S2P Require Import Prelude GoStrings Model Store Rows Review Listing Operations Lifecycle Service Reads Queries Closure Availability Grid.
From Stdlib Require Import Ascii.
Import Go.
Local Open Scope string_scope.

Section CatalogService.
Context `{Host} `{Sql}.

(** ** Queries of the repository, called by the service

    Other requests run between the SELECTs of a query too. *)
Fixpoint snapshots (e : SvcEnv) (s : SvcSt) (k : nat) : Db :=
  others (between e (calls s + k)) match k with 0 => tables s | S k' => snapshots e s k' end.

Definition query_reads (e : SvcEnv) (s : SvcSt) : Reads :=
  mkReads (snapshots e s)
    (λ k, (λ f, (Z.to_nat (times (call_env e (calls s + k)) 0), f)) <$> faults (call_env e (calls s + k)) 0).

Definition rd_call {A} (m : Rd A) : Svc (result Err A) := λ e s,
  let '(r, n) := m (query_reads e s) 0%nat in
  (Ok r, mkSvcSt (calls s + n) match n with 0 => tables s | S k => snapshots e s k end (effects s)).

(** [x, err := m; if err != nil { return mapStoreError(err) }] *)
Definition ask {A} (m : Rd A) : Svc A := r ← rd_call m; mapped r.

(** ** Parameters *)

(** [^[A-Za-z0-9][A-Za-z0-9._-]{0,63}$] *)
Definition valid_storage_id (value : string) : bool :=
  match value with
  | "" => false
  | String c rest =>
      (is_letter c || is_digit c) && (String.length rest <=? 63)%nat
      && all_bytes (λ b, is_letter b || is_digit b || Ascii.eqb b "." || Ascii.eqb b "_" || Ascii.eqb b "-") rest
  end.
Definition parseStorageID (value : string) : result SvcErr string :=
  if valid_storage_id value then Ok value else Error SErrInvalidRequest.

Definition maxListLimit : Z := 100.
Definition maxListTags : nat := 20.
Definition maxTagBytes : nat := 128.

(** [utf8.ValidString] *)
Definition ValidString (s : string) : bool := String.eqb (ToValidUTF8 s) s.

Fixpoint normalize_tags (raw out : list string) : option (list string) :=
  match raw with
  | [] => Some out
  | t :: rest =>
      let tag := TrimSpace t in
      if String.eqb tag "" then normalize_tags rest out
      else if negb (ValidString tag) || (maxTagBytes <? String.length tag)%nat then None
      else if mem tag out then normalize_tags rest out
      else normalize_tags rest (out ++ [tag])%list
  end.
Definition normalizeListTags (raw : list string) : result SvcErr (list string) :=
  match normalize_tags raw [] with
  | Some out => if (maxListTags <? length out)%nat then Error SErrInvalidRequest else Ok out
  | None => Error SErrInvalidRequest
  end.

Record ListParams := mkListParams {
  lp_placement : string;
  lp_type : option PluginType;
  lp_category : string;
  lp_tags : list string;
  lp_keyword : string;
  lp_mine : bool;
  lp_sort : string;
  lp_limit : Z;
  lp_offset : Z
}.

Definition valid_sort (s : string) : bool :=
  mem s [""; "newest"; "oldest"; "updated"; "name"; "placement"; "views"; "installs"; "downloads";
         "comprehensive"].

(** ** Listing *)

(** What a page adds to the rows: the members of teams and, for the owner, the
    unavailable dependencies. *)
Record PageItem := mkPageItem {
  pi_item : ListItem;
  pi_members : Z;
  pi_issues : list DependencyIssue
}.

Definition fillMemberCounts (items : list ListItem) : Svc (list PageItem) :=
  let teams := (λ i, ID (li_plugin i)) <$>
               filter (λ i, Type_ (li_plugin i) = ExpertTeam) items in
  match teams with
  | [] => mret ((λ i, mkPageItem i 0 []) <$> items)
  | _ => counts ← ask (CountMemberRelations teams);
         mret ((λ i, mkPageItem i (default 0%Z (counts !! ID (li_plugin i))) []) <$> items)
  end.

Definition set_issues (l : list DependencyIssue) (i : PageItem) : PageItem :=
  mkPageItem (pi_item i) (pi_members i) l.

Definition list_filter (p : ListParams) (tags : list string) : ListFilter :=
  mkFilter (TrimSpace (lp_placement p)) (lp_type p) (TrimSpace (lp_category p)) tags
    (TrimSpace (lp_keyword p)) (lp_mine p) (TrimSpace (lp_sort p)) (lp_limit p) (lp_offset p)
    false None (lp_mine p).

Definition svcList (metric : string → Counters) (caller : Caller) (p : ListParams)
    : Svc (list PageItem * Z) :=
  lift (validateCaller caller);;
  svc_require (valid_sort (lp_sort p)) SErrInvalidRequest;;
  svc_require (negb (String.eqb (lp_sort p) "placement" && String.eqb (TrimSpace (lp_placement p)) ""))
    SErrInvalidRequest;;
  svc_require (negb ((lp_limit p <? 0) || (maxListLimit <? lp_limit p) || (lp_offset p <? 0))%Z)
    SErrInvalidRequest;;
  tags ← lift (normalizeListTags (lp_tags p));
  '(items, total) ← ask (List metric (caller_scope caller) (list_filter p tags));
  page ← fillMemberCounts items;
  if lp_mine p then
    issues ← ask (DependencyIssues (caller_scope caller) (li_plugin <$> items));
    mret ((λ i, set_issues (issues (ID (li_plugin (pi_item i)))) i) <$> page, total)
  else mret (page, total).

Definition svcListTags (caller : Caller) (f : TagListFilter) : Svc (list (string * Z)) :=
  lift (validateCaller caller);;
  svc_require (negb ((tf_limit f <? 0) || (maxListLimit <? tf_limit f))%Z) SErrInvalidRequest;;
  ask (ListTags (caller_scope caller)
         (mkTagFilter (TrimSpace (tf_placement f)) (tf_type f) (TrimSpace (tf_keyword f)) (tf_mine f)
            (tf_limit f))).

(** ** Detail *)

Record Detail := mkDetail {
  dt_plugin : Plugin;
  dt_review : ReviewState;
  dt_relations : list PluginRelation;
  dt_issues : list DependencyIssue
}.
Definition set_relations_of (l : list PluginRelation) (d : Detail) : Detail :=
  mkDetail (dt_plugin d) (dt_review d) l (dt_issues d).

Definition set_source_type (t : PluginType) (r : PluginRelation) : PluginRelation :=
  mkRelation (RelID r) (SourcePluginID r) (Some t) (TargetPluginID r) (TargetVersionID r)
    (TargetPluginType r) (RelType r) (SortOrder r) (Data r) (RelStatus r) (RelCreatedBy r)
    (RelCreatedAt r) (RelUpdatedAt r) (RelDeletedAt r).

Definition currentDetail (caller : Caller) (pluginID : string) (includeRelations : bool) : Svc Detail :=
  lift (validateCaller caller);;
  storageID ← lift (parseStorageID pluginID);
  '(p, rels) ← ask (GetWithRelations (caller_scope caller) storageID);
  review ← (if String.eqb (OwnerUID p) (CUID caller) then
              latest ← ask (select (LatestReviewForPlugin (caller_scope caller) (ID p)));
              mret (mkReviewState
                      match latest with Some (_, Pending) => true | _ => false end latest)
            else mret no_review);
  mret (mkDetail p review (if includeRelations then set_source_type (Type_ p) <$> rels else []) []).

(** Detail, with version management off: [publishedDetail] returns the current
    state as it is. *)
Definition svcDetail (caller : Caller) (pluginID : string) (includeRelations : bool) : Svc Detail :=
  d ← currentDetail caller pluginID true;
  issues ← (if owned_here (caller_scope caller) (dt_plugin d) then
              issues ← ask (DependencyIssues (caller_scope caller) [dt_plugin d]);
              mret (issues (ID (dt_plugin d)))
            else
              blocked ← ask (HasUnavailableDependencies (caller_scope caller) (ID (dt_plugin d)));
              svc_require (negb blocked) SErrNotFound;; mret []);
  mret (mkDetail (dt_plugin d) (dt_review d) (if includeRelations then dt_relations d else []) issues).

(** An owner's blocked container is diagnosed without its related plugins. *)
Inductive GraphAnswer :=
| GDiagnosis (d : Detail)
| GClosure (c : Closure).

Definition svcDetailGraph (caller : Caller) (pluginID : string) : Svc GraphAnswer :=
  lift (validateCaller caller);;
  storageID ← lift (parseStorageID pluginID);
  d ← svcDetail caller storageID true;
  if negb (bool_decide (dt_issues d = [])) then mret (GDiagnosis d)
  else c ← ask (GetGraphClosure (caller_scope caller) storageID); mret (GClosure c).

(** ** Installation: every declared dependency must be visible *)

Definition resolveInstallDetail (caller : Caller) (pluginID : string) : Svc Detail :=
  d ← currentDetail caller pluginID true;
  declared ← ask (CountDeclaredRelations (ID (dt_plugin d)));
  svc_require (negb (Z.of_nat (length (dt_relations d)) <? declared)%Z) SErrDependencyHidden;;
  mret d.

(** [relationsOfType] *)
Definition sort_order_le (a b : PluginRelation) : Prop := (SortOrder a ≤ SortOrder b)%Z.
#[export] Instance sort_order_le_dec : RelDecision sort_order_le.
Proof. unfold RelDecision, sort_order_le. apply _. Defined.
Definition relationsOfType (relations : list PluginRelation) (relationType : string) : list PluginRelation :=
  merge_sort sort_order_le
    (filter (λ r, String.eqb (RelType r) relationType && bool_decide (RelStatus r = 1%Z) && rel_live r = true)
       relations).

(** ** Evaluation while nothing changes *)

(** No other request, and no failure. *)
Definition undisturbed (e : SvcEnv) : Prop := ∀ n, between e n = [] ∧ ∀ k, faults (call_env e n) k = None.

Lemma snapshots_rest e s k : undisturbed e → snapshots e s k = tables s.
Proof.
  intros He. induction k as [|k IH]; simpl; unfold others; by rewrite (proj1 (He _)), ?IH.
Qed.
Lemma query_reads_rest e s : undisturbed e → at_rest (query_reads e s) (tables s).
Proof. intros He n. simpl. split; [by apply snapshots_rest|by rewrite (proj2 (He _))]. Qed.

(** From the tables [d], [m] answers [r] and leaves them. *)
Definition settles {A} (e : SvcEnv) (d : Db) (m : Svc A) (r : result SvcErr A) : Prop :=
  ∀ s, tables s = d → (m e s).1 = r ∧ tables (m e s).2 = d.

(** A query evaluates at rest, to an answer or to an error. *)
Definition yields {A} (d : Db) (m : Rd A) (r : result Err A) : Prop :=
  ∀ e n, at_rest e d → (m e n).1 = r.

Lemma yields_rests {A} d (m : Rd A) a : (∀ e, at_rest e d → rests m e a) → yields d m (Ok a).
Proof. intros Hm e n He. destruct (Hm e He n) as [k ->]. done. Qed.

Section Settles.
Context (e : SvcEnv) (d : Db) (He : undisturbed e).

Lemma settles_ret {A} (a : A) : settles e d (mret a) (Ok a).
Proof. by intros s Hs. Qed.
Lemma settles_lift {A} (r : result SvcErr A) : settles e d (lift r) r.
Proof. by intros s Hs. Qed.
Lemma settles_bind {A B} (m : Svc A) (f : A → Svc B) a r :
  settles e d m (Ok a) → settles e d (f a) r → settles e d (a ← m; f a) r.
Proof.
  intros Hm Hf s Hs. destruct (Hm s Hs) as [Hr Ht]. unfold mbind, svc_bind.
  destruct (m e s) as [r' s']; simpl in *; subst r'. by apply Hf.
Qed.
Lemma settles_bind_error {A B} (m : Svc A) (f : A → Svc B) err :
  settles e d m (Error err) → settles e d (a ← m; f a) (Error err).
Proof.
  intros Hm s Hs. destruct (Hm s Hs) as [Hr Ht]. unfold mbind, svc_bind.
  destruct (m e s) as [r' s']; simpl in *; by subst r'.
Qed.
Lemma settles_require b err : settles e d (svc_require b err) (if b then Ok tt else Error err).
Proof. intros s Hs. by destruct b. Qed.
Lemma settles_ask {A} (m : Rd A) r : yields d m r → settles e d (ask m) (map_error mapStoreError r).
Proof.
  intros Hm s Hs. unfold ask, rd_call, mapped, lift, mbind, svc_bind.
  pose proof (Hm (query_reads e s) 0%nat) as Hq. rewrite <-Hs in Hq at 1.
  specialize (Hq (query_reads_rest e s He)). destruct (m (query_reads e s) 0%nat) as [r' n]. simpl in *. subst r'.
  split; [done|]. destruct n; [done|]. by rewrite snapshots_rest.
Qed.
End Settles.

(** ** What each surface answers *)

Section Answers.
Context (e : SvcEnv) (d : Db) (He : undisturbed e) (Hk : keyed d).
Context (caller : Caller) (Hc : validateCaller caller = Ok tt).
Local Abbreviation scope := (caller_scope caller).

Definition latest_shown (d : Db) (caller : Caller) (p : Plugin) : ReviewState :=
  if String.eqb (OwnerUID p) (CUID caller) then
    let latest := LatestReviewForPlugin (caller_scope caller) (ID p) d in
    mkReviewState match latest with Some (_, Pending) => true | _ => false end latest
  else no_review.
Definition detail_of (d : Db) (caller : Caller) (includeRelations : bool) (p : Plugin)
    (issues : list DependencyIssue) : Detail :=
  mkDetail (scanned p) (latest_shown d caller p)
    (if includeRelations then set_source_type (Type_ p) <$> edges_of (caller_scope caller) (ID p) d else [])
    issues.

Lemma get_yields id :
  yields d (GetWithRelations scope id)
    match find_plugin (readable_row scope) id d with
    | Some p => Ok (scanned p, edges_of scope id d)
    | None => Error ErrNotFound
    end.
Proof.
  intros e' n Hr. unfold GetWithRelations, Get.
  destruct (find_plugin _ id d) as [p|] eqn:Hp.
  - erewrite rd_bind_eval.
    2:{ erewrite rd_bind_eval by (by apply select_rest). rewrite Hp. reflexivity. }
    by erewrite rd_bind_eval by (by apply select_rest).
  - erewrite rd_bind_fails; [done|].
    erewrite rd_bind_eval by (by apply select_rest). rewrite Hp. reflexivity.
Qed.

Lemma current_settles id includeRelations :
  valid_storage_id id = true →
  settles e d (currentDetail caller id includeRelations)
    match find_plugin (readable_row scope) id d with
    | Some p => Ok (detail_of d caller includeRelations p [])
    | None => Error SErrNotFound
    end.
Proof using He Hk Hc.
  intros Hid. unfold currentDetail, parseStorageID. rewrite Hid.
  eapply settles_bind; [rewrite Hc; apply settles_lift|]. eapply settles_bind; [apply settles_lift|].
  pose proof (settles_ask e d He _ _ (get_yields id)) as Hget.
  destruct (find_plugin (readable_row scope) id d) as [p|] eqn:Hp; [|by apply settles_bind_error].
  eapply settles_bind; [exact Hget|]. simpl. apply find_readable in Hp as [Hp _].
  assert (ID p = id) as Hpid by (by apply Hk in Hp). unfold detail_of, latest_shown. rewrite Hpid.
  change (OwnerUID (scanned p)) with (OwnerUID p). change (ID (scanned p)) with (ID p). rewrite ?Hpid.
  eapply settles_bind; [|apply settles_ret]. destruct (String.eqb _ _); [|apply settles_ret].
  eapply settles_bind; [|apply settles_ret]. eapply (settles_ask _ _ He _ (Ok _)).
  intros e' n Hr. by rewrite (select_rest _ _ _ _ Hr).
Qed.

(** The answer of the detail page. *)
Definition detail_answer (d : Db) (caller : Caller) (id : string) (includeRelations : bool) : result SvcErr Detail :=
  match find_plugin (readable_row (caller_scope caller)) id d with
  | None => Error SErrNotFound
  | Some p =>
      if owned_here (caller_scope caller) p then
        Ok (detail_of d caller includeRelations p (issues_at (caller_scope caller) d p id))
      else if listed_row p && unavailableDependency d p then Error SErrNotFound
      else Ok (detail_of d caller includeRelations p [])
  end.

Lemma blocked_yields id p :
  find_plugin (readable_row scope) id d = Some p →
  yields d (HasUnavailableDependencies scope id) (Ok (listed_row p && unavailableDependency d p)).
Proof.
  intros Hp e' n Hr. unfold HasUnavailableDependencies. rewrite (select_rest _ _ _ _ Hr).
  apply find_readable in Hp as [-> ->]. done.
Qed.

Lemma detail_settles id includeRelations :
  valid_storage_id id = true →
  settles e d (svcDetail caller id includeRelations) (detail_answer d caller id includeRelations).
Proof using He Hk Hc.
  intros Hid. unfold svcDetail, detail_answer. pose proof (current_settles id true Hid) as Hcur.
  destruct (find_plugin (readable_row scope) id d) as [p|] eqn:Hf; [|by apply settles_bind_error].
  eapply settles_bind; [exact Hcur|]. pose proof Hf as Hp. apply find_readable in Hp as [Hp Hr].
  assert (ID p = id) as Hpid by (by apply Hk in Hp).
  cbn [dt_plugin detail_of]. change (owned_here scope (scanned p)) with (owned_here scope p).
  change (ID (scanned p)) with (ID p). rewrite Hpid. destruct (owned_here scope p) eqn:Hown.
  - eapply settles_bind; [|apply settles_ret]. eapply settles_bind; [|apply settles_ret].
    apply (settles_ask _ _ He _ (Ok _)). apply yields_rests. intros e' Hr'.
    eapply issues_rest; eauto using readable_live.
  - pose proof (settles_ask e d He _ _ (blocked_yields _ _ Hf)) as Hb. cbn [map_error] in Hb.
    destruct (listed_row p && unavailableDependency d p).
    + apply settles_bind_error. eapply settles_bind; [exact Hb|]. apply settles_bind_error, (settles_require _ _ false).
    + eapply settles_bind; [|apply settles_ret]. eapply settles_bind; [exact Hb|].
      eapply settles_bind; [apply (settles_require _ _ true)|apply settles_ret].
Qed.
End Answers.

(** ** The surfaces agree *)

(** The catalog without filters. *)
Definition whole_grid (sort : string) (limit offset : Z) : ListFilter :=
  mkFilter "" None "" [] "" false sort limit offset false None false.

Lemma elem_of_list_rows scope f d p :
  keyed d → p ∈ list_rows scope f d ↔ plugins d !! ID p = Some p ∧ buildListQuery scope f d p = true.
Proof.
  intros Hk. unfold list_rows. rewrite list_elem_of_filter, list_elem_of_fmap. split.
  - intros (Hq & [k q] & -> & Hin). apply elem_of_map_to_list in Hin. simpl in *.
    split; [|done]. rewrite (proj1 Hk _ _ Hin). done.
  - intros [Hp Hq]. split; [done|]. exists (ID p, p). split; [done|]. by apply elem_of_map_to_list.
Qed.

(** C19: the pages of the catalog agree. While nothing changes, every row a
    caller is listed, in the grid under any filter or among their own plugins,
    opens for them as that plugin; a plugin they may not read does not; and what opens for a
    caller who does not own it is on the grid exactly when it is published and
    not embedded. *)
Theorem grid_rows_open e s caller id p f includeRelations :
  undisturbed e → keyed (tables s) → validateCaller caller = Ok tt → valid_storage_id id = true →
  plugins (tables s) !! id = Some p → AllSpaces f = false →
  let opens := ∃ det, (svcDetail caller id includeRelations e s).1 = Ok det ∧ dt_plugin det = scanned p in
  (p ∈ list_rows (caller_scope caller) f (tables s) → opens)
  ∧ (readable_row (caller_scope caller) p = false →
       (svcDetail caller id includeRelations e s).1 = Error SErrNotFound)
  ∧ (owned_here (caller_scope caller) p = false → ∀ sort limit offset,
       p ∈ list_rows (caller_scope caller) (whole_grid sort limit offset) (tables s)
       ↔ opens ∧ IsEmbedded p = false ∧ ListingState p = Published).
Proof.
  intros He Hk Hc Hid Hp Hall. destruct (detail_settles e _ He Hk caller Hc id includeRelations Hid s eq_refl) as [-> _].
  unfold detail_answer. assert (ID p = id) as Hpid by (by apply Hk in Hp).
  assert (∀ scope, Admin scope = false →
    find_plugin (readable_row scope) id (tables s) = if readable_row scope p then Some p else None) as Hfind.
  { intros scope _. unfold find_plugin. rewrite Hp. simpl. by destruct (readable_row scope p). }
  rewrite Hfind by done. clear Hfind. assert (Admin (caller_scope caller) = false) as Hadm by done.
  remember (caller_scope caller) as scope eqn:E. clear E. unfold readable_row, in_scope. rewrite Hadm. simpl. split_and!.
  - rewrite elem_of_list_rows by done. unfold buildListQuery. rewrite Hall. intros [_ Hq].
    repeat (apply andb_true_iff in Hq as [Hq ?]). destruct (live p); [|done]. simpl in *.
    destruct (visibilitySQL _ _ p); [|done]. simpl in *. destruct (owned_here _ p) eqn:Ho; [by eexists|].
    destruct (Mine f); [done|]. bool_facts. unfold dependencyAvailability in *.
    destruct (unavailableDependency _ p); [done|]. rewrite andb_false_r. by eexists.
  - by intros ->.
  - intros Hno sort limit offset. rewrite elem_of_list_rows by done. rewrite Hpid, Hp. unfold buildListQuery. simpl.
    unfold dependencyAvailability, listed_row.
    destruct (live p), (visibilitySQL _ _ p), (IsEmbedded p); simpl; rewrite ?Hno; try naive_solver.
    case_bool_decide; simpl; [|naive_solver]. destruct (unavailableDependency _ p); simpl; [naive_solver|].
    split; [|done]. intros _. split; [by eexists|done].
Qed.

(** C18: an installation sees every dependency it needs. While nothing changes,
    resolving a plugin for installation answers with it exactly when its caller
    may read it and every live dependency it declares; a dependency they may
    not read is reported as such, and a plugin they may not read is not found. *)
Theorem install_sees_dependencies e s caller id :
  undisturbed e → keyed (tables s) → validateCaller caller = Ok tt → valid_storage_id id = true →
  let scope := caller_scope caller in
  let hidden := hidden_dependency scope id (tables s) in
  match (resolveInstallDetail caller id e s).1 with
  | Ok det => ∃ p, find_plugin (readable_row scope) id (tables s) = Some p
      ∧ det = detail_of (tables s) caller true p [] ∧ ¬ hidden
      ∧ length (dt_relations det) = length (declared id (tables s))
  | Error err =>
      (err = SErrNotFound ∧ find_plugin (readable_row scope) id (tables s) = None)
      ∨ (err = SErrDependencyHidden ∧ hidden
         ∧ is_Some (find_plugin (readable_row scope) id (tables s)))
  end.
Proof.
  intros He Hk Hc Hid scope hidden.
  assert (settles e (tables s) (resolveInstallDetail caller id)
    match find_plugin (readable_row scope) id (tables s) with
    | Some p => if (Z.of_nat (length (edges_of scope id (tables s))) <? Z.of_nat (length (declared id (tables s))))%Z
                then Error SErrDependencyHidden else Ok (detail_of (tables s) caller true p [])
    | None => Error SErrNotFound
    end) as Hset.
  { unfold resolveInstallDetail. pose proof (current_settles e _ He Hk caller Hc id true Hid) as Hcur. fold scope in Hcur.
    destruct (find_plugin (readable_row scope) id (tables s)) as [p|] eqn:Hf; [|by apply settles_bind_error].
    apply find_readable in Hf as [Hp _]. assert (ID p = id) as Hpid by (by apply Hk in Hp).
    eapply settles_bind; [exact Hcur|]. eapply settles_bind.
    { apply (settles_ask _ _ He _ (Ok _)), yields_rests. intros e' Hr. apply rests_select, Hr. }
    cbn [dt_plugin detail_of dt_relations]. rewrite length_fmap. change (ID (scanned p)) with (ID p). rewrite Hpid. fold scope.
    destruct (_ <? _)%Z.
    - by apply settles_bind_error, (settles_require _ _ false).
    - eapply settles_bind; [by apply (settles_require _ _ true)|apply settles_ret]. }
  destruct (Hset s eq_refl) as [-> _]. destruct (find_plugin _ id (tables s)) as [p|] eqn:Hf; [|by left].
  pose proof (declared_counts scope id (tables s)) as [Hle Heq].
  apply find_readable in Hf as [Hp _]. assert (ID p = id) as Hpid by (by apply Hk in Hp).
  destruct (Z.ltb_spec (Z.of_nat (length (edges_of scope id (tables s)))) (Z.of_nat (length (declared id (tables s))))).
  - right. split; [done|]. split; [|by eexists]. apply Heq. lia.
  - assert (length (edges_of scope id (tables s)) = length (declared id (tables s))) as Hlen by lia.
    exists p. split_and!; [done|done| |].
    + intros Hh%Heq. lia.
    + cbn [dt_relations detail_of]. rewrite length_fmap. fold scope. by rewrite Hpid.
Qed.

(** The graph page answers whom the detail page answers, an owner's blocked
    container with its diagnosis and without related plugins, anything else
    with its closure unless it is too large. *)
Definition graph_answer (d : Db) (caller : Caller) (id : string) : result SvcErr GraphAnswer :=
  match detail_answer d caller id true with
  | Error err => Error err
  | Ok det =>
      if negb (bool_decide (dt_issues det = [])) then Ok (GDiagnosis det)
      else map_error mapStoreError
             (match (GetGraphClosure (caller_scope caller) id (mkReads (λ _, d) (λ _, None)) 0%nat).1 with
              | Ok c => Ok (GClosure c) | Error err => Error err end)
  end.

Lemma graph_settles e d caller id :
  undisturbed e → keyed d → validateCaller caller = Ok tt → valid_storage_id id = true →
  settles e d (svcDetailGraph caller id) (graph_answer d caller id).
Proof.
  intros He Hk Hc Hid. unfold svcDetailGraph, graph_answer, parseStorageID. rewrite Hid.
  eapply settles_bind; [rewrite Hc; apply settles_lift|]. eapply settles_bind; [apply settles_lift|].
  pose proof (detail_settles e d He Hk caller Hc id true Hid) as Hdet.
  destruct (detail_answer d caller id true) as [det|err] eqn:Hans; [|by apply settles_bind_error].
  eapply settles_bind; [exact Hdet|]. destruct (negb _); [apply settles_ret|].
  assert (∃ p, plugins d !! id = Some p ∧ readable_row (caller_scope caller) p = true) as (p & Hp & Hr).
  { unfold detail_answer in Hans. destruct (find_plugin _ id d) as [p|] eqn:Hf; [|done].
    exists p. by apply find_readable. }
  pose proof (closure_at_rest (caller_scope caller) d id p) as Hcl.
  rewrite (Hcl (mkReads (λ _, d) (λ _, None))) by done.
  assert (∀ r, (∀ e' n, at_rest e' d → (GetGraphClosure (caller_scope caller) id e' n).1 = r) →
    settles e d (c ← ask (GetGraphClosure (caller_scope caller) id); mret (GClosure c))
      (map_error mapStoreError match r with Ok c => Ok (GClosure c) | Error err => Error err end)) as Hask.
  { intros r Hy. pose proof (settles_ask e d He _ r Hy) as Hs. destruct r as [c|err].
    - eapply settles_bind; [exact Hs|apply settles_ret].
    - by apply settles_bind_error. }
  apply Hask. intros e' n Hrest. by apply Hcl.
Qed.

(** ** Normalised tags *)

Lemma normalize_tags_spec raw out res :
  normalize_tags raw out = Some res →
  ∃ l, res = (out ++ l)%list ∧ (NoDup out → NoDup res)
       ∧ (∀ t, t ∈ res ↔ t ∈ out ∨ (∃ r, r ∈ raw ∧ t = TrimSpace r ∧ t ≠ ""))
       ∧ Forall (λ t, ValidString t = true ∧ (String.length t ≤ 128)%nat) l.
Proof.
  revert out. induction raw as [|r raw IH]; intros out; cbn [normalize_tags].
  { intros [= <-]. exists []. rewrite app_nil_r. split_and!; [done|done| |constructor]. set_solver. }
  destruct (String.eqb_spec (TrimSpace r) "") as [Hempty|Hne].
  { intros Hn. destruct (IH _ Hn) as (l & -> & Hnd & Hin & Hall). exists l. split_and!; try done.
    intros t. rewrite Hin. set_solver. }
  destruct (negb _ || _) eqn:Hbad; [done|]. apply orb_false_iff in Hbad as [Hv Hlen].
  apply negb_false_iff in Hv. apply Nat.ltb_ge in Hlen. destruct (mem (TrimSpace r) out) eqn:Hm.
  - intros Hn. destruct (IH _ Hn) as (l & -> & Hnd & Hin & Hall). exists l. split_and!; try done.
    apply mem_true in Hm. intros t. rewrite Hin. set_solver.
  - intros Hn. destruct (IH _ Hn) as (l & -> & Hnd & Hin & Hall). exists (TrimSpace r :: l).
    rewrite <-app_assoc in *. simpl. split_and!; [done| | |].
    + intros Hout. apply Hnd, NoDup_app. split_and!; [done| |apply NoDup_singleton].
      intros x Hx ->%list_elem_of_singleton. apply not_true_iff_false in Hm. by apply Hm, mem_true.
    + intros t. rewrite Hin. set_solver.
    + constructor; [split; [done|exact Hlen]|done].
Qed.

(** The tags of a filter are the given ones, trimmed, without blanks and
    duplicates; at most twenty, of at most 128 bytes each. *)
Theorem normalized_tags raw tags :
  normalizeListTags raw = Ok tags →
  NoDup tags ∧ (length tags ≤ 20)%nat
  ∧ (∀ t, t ∈ tags ↔ ∃ r, r ∈ raw ∧ t = TrimSpace r ∧ t ≠ "")
  ∧ Forall (λ t, ValidString t = true ∧ (String.length t ≤ 128)%nat) tags.
Proof.
  unfold normalizeListTags. destruct (normalize_tags raw []) as [out|] eqn:Hn; [|done].
  destruct (Nat.ltb_spec maxListTags (length out)) as [|Hle]; [done|]. intros [= <-].
  destruct (normalize_tags_spec _ _ _ Hn) as (l & -> & Hnd & Hin & Hall). simpl in *.
  split_and!; [apply Hnd; constructor|exact Hle| |done]. intros t. rewrite Hin. set_solver.
Qed.

End CatalogService.
