(* ===== verification/Editing.v ===== *)
(** * Saving a plugin: service/plugin/service.go, validation.go

    The tenant's editor: creating, updating and deleting a plugin. A save
    checks the request against the row it read, canonicalizes the documents,
    resolves the relations, freezes the artifacts in the bucket, and commits
    the result in one repository transaction that checks the row again under
    its lock. Version management and references are off, as configured by
    default. *)

From S2P Require Import Prelude GoStrings Version Model Notify Objects Store Rows RowWrites Write Review Changes Operations Sync Lifecycle Service Outcomes CardAction Json Documents VersionArtifacts Reads Queries Closure Availability Grid CatalogService.
From Stdlib Require Import Ascii.
Import Go.
Local Open Scope string_scope.

(** ** Requests *)

Record RelationRequest := mkRelationRequest {
  rq_id : string;
  rq_source : string;
  rq_target : string;
  rq_target_version : option string;
  rq_type : string;
  rq_sort_order : Z;
  rq_data : RawMessage
}.

Record WriteRequest := mkWriteRequest {
  wr_expected_revision : option string;
  wr_name : string;
  wr_type : PluginType;
  wr_category : option string;
  wr_tags : RawMessage;
  wr_publisher : string;
  wr_icon : string;
  wr_visibility : PluginVisibility;
  wr_manifest : RawMessage;
  wr_package : RawMessage;
  wr_relations : list RelationRequest;
  wr_version : string;
  wr_changelog : option string
}.

Definition set_wr_package (v : RawMessage) (r : WriteRequest) : WriteRequest :=
  mkWriteRequest (wr_expected_revision r) (wr_name r) (wr_type r) (wr_category r) (wr_tags r)
    (wr_publisher r) (wr_icon r) (wr_visibility r) (wr_manifest r) v (wr_relations r) (wr_version r)
    (wr_changelog r).

Definition maxRelations : nat := 200.
Definition maxIconBytes : Z := 512.
Definition defaultCurrentVersion : string := "1.0.0".

(** ** Validation (validation.go) *)

(** The host of a URL that [net/url] parses; the relation matrix of
    octo-plugin-lib. *)
Class EditorLibs := {
  url_host : string → option string;
  ValidateRelationEndpoints : string → PluginType → PluginType → bool
}.

Definition validVisibility (v : PluginVisibility) (systemAdmin : bool) : bool :=
  match v with VSpace | VPrivate => true | VSystem => systemAdmin | VPublic => false end.

(** [^[A-Za-z][A-Za-z0-9+.-]*:] *)
Fixpoint scheme_rest (s : string) : bool :=
  match s with
  | "" => false
  | String c s' => Ascii.eqb c ":" || ((is_letter c || is_digit c || Ascii.eqb c "+" || Ascii.eqb c "."
                                       || Ascii.eqb c "-") && scheme_rest s')
  end.
Definition has_scheme (s : string) : bool :=
  match s with String c s' => is_letter c && scheme_rest s' | "" => false end.

Definition control_byte (c : ascii) : bool := (nat_of_ascii c <? 32)%nat || (nat_of_ascii c =? 127)%nat.

(** [^\d{1,9}\.\d{1,9}\.\d{1,9}$] *)
Definition version_part (s : string) : bool :=
  (1 <=? String.length s)%nat && (String.length s <=? 9)%nat && all_bytes is_digit s.
Definition validVersion (v : string) : bool :=
  match Split (TrimSpace v) "."%char with
  | [a; b; c] => version_part a && version_part b && version_part c
  | _ => false
  end.

(** [^[A-Za-z0-9][A-Za-z0-9._-]{0,63}$], as [valid_storage_id] *)
Definition validRelationID (v : string) : bool := valid_storage_id v.

Definition trimOptional (v : option string) : option string :=
  v ≫= λ v, let x := TrimSpace v in if String.eqb x "" then None else Some x.

Section Editing.
Context `{Host} `{Crypto} `{JsonText} `{LibPlugin} `{EditorLibs}.

Definition validIcon (v : string) : bool :=
  if String.eqb v "" then true
  else if (maxIconBytes <? byte_len v)%Z || negb (Valid v) then false
  else if negb (all_bytes (λ c, negb (control_byte c)) v) then false
  else if HasPrefix v "http://" || HasPrefix v "https://" then
    match url_host v with Some h => negb (String.eqb h "") | None => false end
  else if has_scheme v then false
  else negb (Contains v "..") && negb (Contains v "//").

Definition validRelationType (relation : string) (source target : PluginType) : bool :=
  ValidateRelationEndpoints relation source target.
Definition validRelationSource (relation : string) (source : PluginType) : bool :=
  existsb (validRelationType relation source) [Expert; ExpertTeam; Skill; Connector].

(** [json.Marshal] of a value decoded into [any]: sorted members, the last of
    repeated ones. *)
Fixpoint remarshal (v : json) : json :=
  match v with
  | JArr l => JArr (map remarshal l)
  | JObj l => of_map (members_map (map (λ kv, (kv.1, remarshal kv.2)) l))
  | _ => v
  end.

(** [None] is [ErrInvalidRequest]. *)
Definition canonicalJSONObject (raw : RawMessage) : option RawMessage :=
  if String.eqb raw "" || (maxJSONBytes <? byte_len raw)%Z then None
  else match json_parse raw with
       | Some (JObj l) => canonicalJSONValue (remarshal (JObj l))
       | _ => None
       end.
Definition normalizeOptionalObject (raw : RawMessage) : result SvcErr RawMessage :=
  let t := TrimSpace raw in
  if String.eqb t "" || String.eqb t "null" then Ok ""
  else match canonicalJSONObject raw with Some c => Ok c | None => Error SErrInvalidRequest end.

(** ** Operations that save: the tables and the bucket *)

Record SaveEnv := mkSaveEnv {
  sv_env : SvcEnv;
  sv_artifacts : nat → FreezeEnv;
  sv_newID : string
}.
Record SaveSt := mkSaveSt { sv_svc : SvcSt; sv_fz : FzSt }.

Definition Save (A : Type) : Type := SaveEnv → SaveSt → result SvcErr A * SaveSt.
#[export] Instance save_ret : MRet Save := λ A a _ s, (Ok a, s).
#[export] Instance save_bind : MBind Save := λ A B f m e s,
  match m e s with (Ok a, s') => f a e s' | (Error err, s') => (Error err, s') end.

Definition svc {A} (m : Svc A) : Save A := λ e s,
  let '(r, x) := m (sv_env e) (sv_svc s) in (r, mkSaveSt x (sv_fz s)).
Definition save_require (b : bool) (err : SvcErr) : Save unit := svc (svc_require b err).
Definition save_lift {A} (r : result SvcErr A) : Save A := svc (lift r).

Definition fresh_id : Save string := λ e s, (Ok (sv_newID e), s).

(** [ErrTooLarge], [ErrIntegrity] and the other failures of freezing. *)
Definition freeze_error (err : FreezeError) : SvcErr :=
  match err with
  | FInvalidRequest => SErrInvalidRequest
  | FTooLarge => SErrOther "too large"
  | FIntegrity => SErrOther "integrity"
  | FSpool | FStorage _ | FDocument => SErrOther "storage"
  end.

(** The running total starts at zero for each walk. *)
Definition frozen_by {A} (m : Fz A) : Save A := λ e s,
  let '(r, x) := m (sv_artifacts e) (mkFz (fz_bucket (sv_fz s)) 0 (fz_count (sv_fz s))) in
  (map_error freeze_error r, mkSaveSt (sv_svc s) x).

Context (keyPrefix : string) (maxAttachmentBytes maxArchiveBytes : Z).

(** ** Building a row (buildRelations, buildWrite) *)

Definition writeScope (c : Caller) (admin : bool) : Scope :=
  if admin then mkScope (CUID c) "" true else caller_scope c.

(** One relation; [seen] are the edges so far. *)
Definition build_relation (c : Caller) (admin : bool) (source : Plugin) (now : Z)
    (seen : list (string * string)) (r : RelationRequest) : Save PluginRelation :=
  save_require (bool_decide (rq_target_version r = None)) SErrInvalidRequest;;
  let relationID := TrimSpace (rq_id r) in
  save_require (String.eqb relationID ""
                || (negb (String.eqb (ID source) "") && validRelationID relationID)) SErrInvalidRequest;;
  let submitted := TrimSpace (rq_source r) in
  save_require (String.eqb submitted ""
                || (valid_storage_id submitted && negb (String.eqb (ID source) "")
                    && String.eqb submitted (ID source))) SErrInvalidRequest;;
  let typ := TrimSpace (rq_type r) in
  let targetID := rq_target r in
  save_require (valid_storage_id targetID && negb (String.eqb targetID (ID source))
                && validRelationSource typ (Type_ source)) SErrInvalidRequest;;
  save_require (negb (bool_decide ((typ, targetID) ∈ seen))) SErrInvalidRequest;;
  '(target, _) ← svc (ask (GetWithRelations (writeScope c admin) targetID));
  save_require (validRelationType typ (Type_ source) (Type_ target)) SErrInvalidRequest;;
  data ← save_lift (normalizeOptionalObject (rq_data r));
  mret (mkRelation relationID (ID source) (Some (Type_ source)) targetID (rq_target_version r)
          (Some (Type_ target)) typ (rq_sort_order r) data 1 (CUID c) now now None).

Fixpoint build_relations (c : Caller) (admin : bool) (source : Plugin) (now : Z)
    (seen : list (string * string)) (l : list RelationRequest) : Save (list PluginRelation) :=
  match l with
  | [] => mret []
  | r :: l' =>
      x ← build_relation c admin source now seen r;
      rest ← build_relations c admin source now ((RelType x, TargetPluginID x) :: seen) l';
      mret (x :: rest)
  end.

Definition buildRelations (c : Caller) (admin : bool) (source : Plugin) (l : list RelationRequest)
    (now : Z) : Save (list PluginRelation) :=
  save_require (length l <=? maxRelations)%nat SErrInvalidRequest;;
  build_relations c admin source now [] l.

Definition provenance (c : Caller) : string * option string * option string :=
  if String.eqb (CBotUID c) "" then ("human", None, None)
  else ("bot", Some (CBotUID c), Some (CBotName c)).

Definition from_docs {A} (o : option A) : Save A :=
  save_lift (match o with Some a => Ok a | None => Error SErrInvalidRequest end).

(** The row the documents and the request make up. *)
Definition plugin_row (c : Caller) (pluginID : string) (req : WriteRequest) (now : Z)
    (resource : option Plugin) (docs : CanonicalDocuments) (currentVersion : string) : Plugin :=
  let '(createdBy, botUID, botName) := provenance c in
  mkPlugin pluginID (TrimSpace (wr_name req)) (wr_type req) false (trimOptional (wr_category req))
    (d_tags docs) (TrimSpace (wr_publisher req)) (CUID c)
    (match resource with Some old => SpaceID old | None => Some (CSpaceID c) end)
    (wr_visibility req) Draft (CName c) createdBy botUID botName (TrimSpace (wr_icon req))
    (if decide (wr_type req = Connector) then ConnectorToolCount (d_package docs) else 0)
    None (d_manifest docs) (d_package docs) (d_attachment_keys docs) (d_manifest_hash docs)
    (d_plugin_hash docs) None None (Some currentVersion) 1 now now None None None "".

Definition with_documents (docs : CanonicalDocuments) (p : Plugin) : Plugin :=
  set_Package (d_package docs) (set_PluginHash (d_plugin_hash docs)
    (set_AttachmentKeys (d_attachment_keys docs) p)).

(** [grandfathered]: the stored label, which an unchanged request may keep. *)
Definition buildWrite (c : Caller) (pluginID : string) (req : WriteRequest) (grandfathered : string)
    (now : Z) (admin : bool) (resource : option Plugin) : Save (Plugin * list PluginRelation) :=
  let name := TrimSpace (wr_name req) in
  save_require (validName name && validVisibility (wr_visibility req) (CIsSystemAdmin c)) SErrInvalidRequest;;
  save_require (is_ok (NormalizePluginName name)) SErrInvalidRequest;;
  docs ← from_docs (canonicalizePluginDocuments resource name (wr_type req) (wr_tags req)
                      (wr_manifest req) (wr_package req) (CSpaceID c));
  save_require (validIcon (TrimSpace (wr_icon req))) SErrInvalidRequest;;
  let submitted := TrimSpace (wr_version req) in
  let currentVersion := if String.eqb submitted "" then defaultCurrentVersion else submitted in
  save_require (String.eqb submitted "" || validVersion submitted
                || String.eqb submitted (TrimSpace grandfathered)) SErrInvalidRequest;;
  let p := plugin_row c pluginID req now resource docs currentVersion in
  rels ← buildRelations c admin p (wr_relations req) now;
  docs ← frozen_by (freezeVersionArtifacts keyPrefix maxAttachmentBytes maxArchiveBytes (CSpaceID c)
                      (match resource with Some old => [Some old; Some p] | None => [None] end)
                      (wr_type req) docs);
  mret (with_documents docs p, rels).

(** ** The operations *)

Definition service_mutation (c : Caller) (p : Plugin) (rels : list PluginRelation) : Mutation :=
  mkMutation None "" p rels [] (mkOperator (CUID c) (CName c) (CRequestID c) None) true None
    false false false false.

Record Saved := mkSaved { svd_plugin : Plugin; svd_relations : list PluginRelation; svd_sync : RelationSync }.

(** The saved state an operation answers with. *)
Definition saved_answer (p : Plugin) (sync : RelationSync) : Saved :=
  mkSaved (if String.eqb (NewVersionID sync) "" then p else set_CurrentVersionID (Some (NewVersionID sync)) p)
    (SyncRelations sync) sync.

Definition source_of (id : string) (r : PluginRelation) : PluginRelation :=
  mkRelation (RelID r) id (SourcePluginType r) (TargetPluginID r) (TargetVersionID r)
    (TargetPluginType r) (RelType r) (SortOrder r) (Data r) (RelStatus r) (RelCreatedBy r)
    (RelCreatedAt r) (RelUpdatedAt r) (RelDeletedAt r).

Definition defaultMarketPlacement (categoryID : option string) : PlacementRow :=
  mkPlacement "" "default" "" categoryID true 0 0 0.

Definition createWithID (c : Caller) (req : WriteRequest) (reservedID : string) : Save Saved :=
  save_lift (validateCaller c);;
  save_require (CIsSystemAdmin c || validVisibility (wr_visibility req) false) SErrInvalidRequest;;
  now ← svc clock;
  '(p, rels) ← buildWrite c "" req "" now false None;
  newID ← fresh_id;
  let p := set_ID (if String.eqb reservedID "" then newID else reservedID) p in
  let rels := source_of (ID p) <$> rels in
  let m0 := service_mutation c p rels in
  let m := mkMutation None "" p rels [defaultMarketPlacement (CategoryID p)] (MOperator m0) true
             (wr_changelog req) false false false false in
  r ← svc (call (Create (caller_scope c) m));
  sync ← svc (mapped r);
  mret (saved_answer p sync).

Definition svcCreate (c : Caller) (req : WriteRequest) : Save Saved := createWithID c req "".

(** [old.OwnerUID == caller.UID] in the caller's Space, as the code has it. *)
Definition owned_row (c : Caller) (old : Plugin) : bool :=
  String.eqb (OwnerUID old) (CUID c)
  && match SpaceID old with Some sp => String.eqb sp (CSpaceID c) | None => true end.

Definition carried (old : Plugin) (req : WriteRequest) (p : Plugin) : Plugin :=
  let '(mkPlugin id name typ _ cat tags pub uid sp vis _ _ _ _ _ icon tools _ man pkg keys mh ph _ _ cur st _ upd _ _ _ _) := p in
  mkPlugin id name typ false cat tags pub uid sp vis (ListingState old) (CreatorName old) (CreatedByType old)
    (CreatedByBotUID old) (CreatedByBotName old) icon tools (Rating old) man pkg keys mh ph
    (CurrentVersionID old) None (if String.eqb (TrimSpace (wr_version req)) "" then CurrentVersion old else cur)
    st (CreatedAt old) upd None None None "".

Definition svcUpdate (c : Caller) (pluginID : string) (req : WriteRequest) : Save Saved :=
  save_lift (validateCaller c);;
  storageID ← save_lift (parseStorageID pluginID);
  '(old, _) ← svc (ask (GetWithRelations (caller_scope c) storageID));
  save_require (owned_row c old) SErrNotFound;;
  save_require (negb (IsEmbedded old)) SErrNotFound;;
  save_require (match wr_expected_revision req with
                | Some rev => String.eqb rev (PluginDraftRevision old)
                | None => true
                end) SErrConflict;;
  save_require (bool_decide (wr_type req = Type_ old)) SErrInvalidRequest;;
  save_require (negb (bool_decide (Visibility old = VSystem) && negb (bool_decide (wr_visibility req = VSystem))))
    SErrInvalidRequest;;
  save_require (match CurrentVersion old with
                | Some cur => String.eqb (TrimSpace (wr_version req)) ""
                              || VersionNotRegressed cur (wr_version req)
                | None => true
                end) SErrVersionRegressed;;
  let audience := negb (bool_decide (wr_visibility req = Visibility old)) in
  (if CIsSystemAdmin c then mret tt
   else
     save_require (validVisibility (wr_visibility req) false) SErrInvalidRequest;;
     save_require (negb (listed old)) SErrListedRequiresReview;;
     if audience then
       r ← svc (read (λ d, Ok (HasPendingReview (caller_scope c) (ID old) d)));
       pending ← svc (mapped r);
       save_require (negb pending) SErrReviewPending
     else mret tt);;
  now ← svc clock;
  let req := set_wr_package (reinjectUpdateStorageKeys (wr_package req) (Package old) (AttachmentKeys old)) req in
  '(p, rels) ← buildWrite c storageID req (default "" (CurrentVersion old)) now false (Some old);
  let p := carried old req p in
  let reset := bool_decide (ListingState old = Published) && audience in
  let m := mkMutation (wr_expected_revision req) "" p rels [] (mkOperator (CUID c) (CName c) (CRequestID c) None)
             true (wr_changelog req) reset (negb (CIsSystemAdmin c) && audience) (negb (CIsSystemAdmin c)) true in
  r ← svc (call (Update (caller_scope c) m));
  sync ← svc (mapped r);
  mret (saved_answer (if reset then set_ListingState Draft p else p) sync).

Definition svcDelete (c : Caller) (pluginID : string) : Save unit :=
  save_lift (validateCaller c);;
  storageID ← save_lift (parseStorageID pluginID);
  '(old, _) ← svc (ask (GetWithRelations (caller_scope c) storageID));
  save_require (owned_row c old) SErrNotFound;;
  save_require (negb (IsEmbedded old)) SErrNotFound;;
  let op := mkOperator (CUID c) (CName c) (CRequestID c) None in
  r ← svc (if bool_decide (Type_ old = Expert ∨ Type_ old = ExpertTeam)
           then call (DeleteGraph (caller_scope c) storageID op)
           else call (Delete (caller_scope c) storageID op));
  svc (mapped r).

End Editing.

(** ** Runs of a save *)

Section Runs.
Context `{Host}.

Lemma snapshots_runs P e s k : polite P e → runs_of P (tables s) (snapshots e s k).
Proof.
  intros He. induction k as [|k IH]; simpl; [apply others_runs, He|].
  etrans; [exact IH|apply others_runs, He].
Qed.

Lemma performs_ask P {A} (m : Rd A) : performs P (ask m).
Proof.
  unfold ask. performs. intros e s He. unfold rd_call. destruct (m (query_reads e s) 0%nat) as [r [|n]]; [done|].
  by apply snapshots_runs.
Qed.

(** A detail read between the tables [d] and [d']: the row [old] of the plugin
    [id], readable in the scope, as it was at some moment, and its relations, as
    they were at a later one; in between, other operations. *)
Definition seen (scope : Scope) (id : string) (d d' : Db) (old : Plugin) (rels : list PluginRelation) : Prop :=
  ∃ x y q, runs_of any_op d x ∧ plugins x !! id = Some q ∧ readable_row scope q = true ∧ old = scanned q
    ∧ runs_of any_op x y ∧ rels = edges_of scope id y ∧ runs_of any_op y d'.

Lemma seen_within scope id d d1 d2 d' old rels :
  runs_of any_op d d1 → runs_of any_op d2 d' → seen scope id d1 d2 old rels → seen scope id d d' old rels.
Proof.
  intros H1 H2 (x & y & q & Hx & Hq & Hr & Ho & Hxy & Hrels & Hy). exists x, y, q.
  split_and!; try done; by etrans.
Qed.

Lemma seen_runs scope id d d' old rels : seen scope id d d' old rels → runs_of any_op d d'.
Proof. intros (x & y & q & Hx & _ & _ & _ & Hxy & _ & Hy). etrans; [exact Hx|]. by etrans. Qed.

Lemma detail_seen scope id e s old rels s' :
  ask (GetWithRelations scope id) e s = (Ok (old, rels), s') → seen scope id (tables s) (tables s') old rels.
Proof.
  unfold ask, rd_call, mbind, svc_bind. destruct (GetWithRelations scope id (query_reads e s) 0%nat) as [r n] eqn:E.
  unfold mapped, lift. destruct r as [[q l]|err]; [|done]. simpl. intros [= <- <- <-].
  unfold GetWithRelations in E. apply rd_bind_ok in E as (p & k & Hg & Hrun). unfold Get in Hg.
  apply rd_bind_ok in Hg as (o & k1 & [-> ->]%select_ok & Ho).
  destruct (find_plugin _ id _) as [row|] eqn:Hf; [|done]. injection Ho as <- <-.
  apply rd_bind_ok in Hrun as (edges & k2 & [-> ->]%select_ok & Hrun). injection Hrun as <- <- <-.
  apply find_readable in Hf as [Hrow Hread]. exists (snapshots e s 0), (snapshots e s 1), row.
  split_and!; try done; apply others_runs, polite_any.
Qed.

(** [m] moves the tables by operations of [P] and the bucket by storage
    operations. *)
Definition saves (keyPrefix : string) (P : Op → Prop) {A} (m : Save A) : Prop :=
  ∀ e s, polite P (sv_env e) →
    runs_of P (tables (sv_svc s)) (tables (sv_svc (m e s).2))
    ∧ oss_steps keyPrefix (fz_bucket (sv_fz s)) (fz_bucket (sv_fz (m e s).2)).

Context (keyPrefix : string) (P : Op → Prop).

Lemma saves_ret {A} (a : A) : saves keyPrefix P (mret a).
Proof. intros e s He. split; [done|constructor]. Qed.
Lemma saves_svc {A} (m : Svc A) : performs P m → saves keyPrefix P (svc m).
Proof.
  intros Hm e s He. specialize (Hm (sv_env e) (sv_svc s) He). unfold svc.
  destruct (m _ _) as [r x]. split; [done|constructor].
Qed.
Lemma saves_require b err : saves keyPrefix P (save_require b err).
Proof. apply saves_svc, performs_require. Qed.
Lemma saves_lift {A} (r : result SvcErr A) : saves keyPrefix P (save_lift r).
Proof. apply saves_svc, performs_lift. Qed.
Lemma saves_fresh : saves keyPrefix P fresh_id.
Proof. intros e s He. split; [done|constructor]. Qed.
Lemma saves_frozen {A} (m : Fz A) : fz_moves keyPrefix m → saves keyPrefix P (frozen_by m).
Proof.
  intros Hm e s He. unfold frozen_by. specialize (Hm (sv_artifacts e) (mkFz (fz_bucket (sv_fz s)) 0 (fz_count (sv_fz s))) I).
  destruct (m _ _) as [r x]. by split.
Qed.
Lemma saves_bind {A B} (m : Save A) (f : A → Save B) :
  saves keyPrefix P m → (∀ a, saves keyPrefix P (f a)) → saves keyPrefix P (a ← m; f a).
Proof.
  intros Hm Hf e s He. specialize (Hm e s He). unfold mbind, save_bind.
  destruct (m e s) as [[a|err] s']; [|done]. simpl in Hm. destruct (Hf a e s' He) as [H1' H2'].
  split; (etrans; [apply Hm|done]).
Qed.
End Runs.

Create HintDb saves.
#[export] Hint Resolve saves_ret saves_require saves_lift saves_fresh : saves.

(** One step of a [saves] goal; calls are left. *)
Ltac saves_step :=
  lazymatch goal with
  | |- ∀ _, _ => intros ?
  | |- saves _ _ (mbind _ _) => apply saves_bind
  | |- saves _ _ (svc (call _)) => fail
  | |- saves _ _ (svc (if _ then call _ else call _)) => fail
  | |- saves _ _ (svc (ask _)) => apply saves_svc, performs_ask
  | |- saves _ _ (svc (read _)) => apply saves_svc, performs_read
  | |- saves _ _ (svc (mapped _)) => apply saves_svc, performs_lift
  | |- saves _ _ (svc clock) => apply saves_svc, performs_clock
  | |- saves _ _ (from_docs _) => apply saves_lift
  | |- saves _ _ (match ?x with _ => _ end) => destruct x
  | |- saves _ _ (let _ := _ in _) => cbv zeta
  | _ => solve [eauto with saves]
  end.
Ltac saves := repeat saves_step.

Section Writes.
Context `{Host} `{Crypto} `{JsonText} `{LibPlugin} `{EditorLibs}.
Context (keyPrefix : string) (maxAttachmentBytes maxArchiveBytes : Z) (P : Op → Prop).

Lemma build_relations_saves c admin source now seen l :
  saves keyPrefix P (build_relations c admin source now seen l).
Proof.
  revert seen. induction l as [|r l IH]; intros seen; simpl; [saves|].
  apply saves_bind; [unfold build_relation; saves|]. intros x. apply saves_bind; [apply IH|saves].
Qed.

Lemma buildWrite_saves c id req g now admin resource :
  saves keyPrefix P (buildWrite keyPrefix maxAttachmentBytes maxArchiveBytes c id req g now admin resource).
Proof.
  unfold buildWrite, buildRelations. saves; try apply build_relations_saves.
  all: apply saves_frozen, freezeVersionArtifacts_moves.
Qed.

(** *** What a built row is *)

Lemma save_bind_ok {A B} (m : Save A) (f : A → Save B) e s b s' :
  (x ← m; f x) e s = (Ok b, s') → ∃ a s1, m e s = (Ok a, s1) ∧ f a e s1 = (Ok b, s').
Proof. unfold mbind, save_bind. destruct (m e s) as [[a|] s1]; [|done]. by eauto. Qed.

Lemma save_ret_ok {A} (a b : A) (e : SaveEnv) s s' : (mret a : Save A) e s = (Ok b, s') → b = a ∧ s' = s.
Proof. by intros [= <- <-]. Qed.

Lemma svc_ok {A} (m : Svc A) e s a s' :
  svc m e s = (Ok a, s') → m (sv_env e) (sv_svc s) = (Ok a, sv_svc s') ∧ sv_fz s' = sv_fz s.
Proof. unfold svc. destruct (m _ _) as [r x]. by intros [= -> <-]. Qed.

Lemma save_require_ok b err e s u s' : save_require b err e s = (Ok u, s') → b = true ∧ s' = s.
Proof. destruct b; [|done]. unfold save_require, svc. simpl. intros [= _ <-]. by destruct s. Qed.

Lemma save_lift_ok {A} (r : result SvcErr A) e s a s' : save_lift r e s = (Ok a, s') → r = Ok a ∧ s' = s.
Proof. unfold save_lift, svc, lift. intros [= -> <-]. by destruct s. Qed.

Lemma from_docs_ok {A} (o : option A) e s a s' : from_docs o e s = (Ok a, s') → o = Some a ∧ s' = s.
Proof. unfold from_docs. intros [E ->]%save_lift_ok. destruct o; [|done]. by injection E as ->. Qed.

Lemma build_relations_fz c admin source now seen l e s x s' :
  build_relations c admin source now seen l e s = (Ok x, s') → sv_fz s' = sv_fz s.
Proof.
  revert seen x s. induction l as [|r l IH]; intros seen x s; [by intros [= _ <-]|]. simpl.
  intros (y & s1 & Hr & Hrun)%save_bind_ok. apply save_bind_ok in Hrun as (rest & s2 & Hl & [_ ->]%save_ret_ok).
  rewrite (IH _ _ _ Hl). clear -Hr. unfold build_relation in Hr.
  repeat (apply save_bind_ok in Hr as (? & ? & [_ ->]%save_require_ok & Hr)).
  apply save_bind_ok in Hr as ([target ?] & s1' & [_ Hfz]%svc_ok & Hr).
  apply save_bind_ok in Hr as (? & ? & [_ ->]%save_require_ok & Hr).
  apply save_bind_ok in Hr as (? & ? & [_ ->]%save_lift_ok & [_ ->]%save_ret_ok). done.
Qed.

(** The edge a requested relation becomes. *)
Definition requested_edge (q : RelationRequest) (r : PluginRelation) : Prop :=
  TargetPluginID r = rq_target q ∧ TargetVersionID r = None ∧ RelType r = TrimSpace (rq_type q)
  ∧ SortOrder r = rq_sort_order q ∧ normalizeOptionalObject (rq_data q) = Ok (Data r) ∧ RelStatus r = 1%Z
  ∧ (TrimSpace (rq_id q) ≠ "" → RelID r = TrimSpace (rq_id q)).

Lemma requested_assigned q r r' : requested_edge q r → assigned r r' → requested_edge q r'.
Proof.
  intros Hq [->|[Hi [j ->]]]; [done|]. unfold requested_edge in *.
  destruct Hq as (?&?&?&?&?&?&Hid). split_and!; try done. intros Hne. specialize (Hid Hne). congruence.
Qed.
Lemma requested_all l rels out :
  Forall2 requested_edge l rels → Forall2 assigned rels out → Forall2 requested_edge l out.
Proof.
  intros Hl. revert out. induction Hl as [|q r l rels Hq _ IH]; intros out Ho; inversion Ho; subst; constructor;
    eauto using requested_assigned.
Qed.

Lemma build_relations_requested c admin source now seen l e s x s' :
  build_relations c admin source now seen l e s = (Ok x, s') → Forall2 requested_edge l x.
Proof.
  revert seen x s. induction l as [|q l IH]; intros seen x s; [intros [= <- _]; constructor|]. simpl.
  intros (y & s1 & Hr & Hrun)%save_bind_ok. apply save_bind_ok in Hrun as (rest & s2 & Hl & [-> ->]%save_ret_ok).
  constructor; [|by eapply IH]. clear -Hr. unfold build_relation in Hr.
  apply save_bind_ok in Hr as (? & ? & [Hpin%bool_decide_eq_true ->]%save_require_ok & Hr).
  do 4 (apply save_bind_ok in Hr as (? & ? & [_ ->]%save_require_ok & Hr)).
  apply save_bind_ok in Hr as ([target ?] & s1' & _ & Hr).
  apply save_bind_ok in Hr as (? & ? & [_ ->]%save_require_ok & Hr).
  apply save_bind_ok in Hr as (data & ? & [Hd ->]%save_lift_ok & [-> _]%save_ret_ok). by split_and!.
Qed.

Lemma buildWrite_relations c id req g now admin resource e s p rels s' :
  buildWrite keyPrefix maxAttachmentBytes maxArchiveBytes c id req g now admin resource e s = (Ok (p, rels), s') →
  Forall2 requested_edge (wr_relations req) rels.
Proof.
  unfold buildWrite. intros Hrun.
  do 2 (apply save_bind_ok in Hrun as (? & ? & _ & Hrun)). apply save_bind_ok in Hrun as (docs & ? & _ & Hrun).
  do 2 (apply save_bind_ok in Hrun as (? & ? & _ & Hrun)).
  apply save_bind_ok in Hrun as (l & s1 & Hl & Hrun). unfold buildRelations in Hl.
  apply save_bind_ok in Hl as (? & ? & _ & Hl%build_relations_requested).
  by apply save_bind_ok in Hrun as (docs' & s2 & _ & [[= -> ->] _]%save_ret_ok).
Qed.

Definition resources_of (resource : option Plugin) (p : Plugin) : list (option Plugin) :=
  match resource with Some old => [Some old; Some p] | None => [None] end.

(** The row is built from canonical documents whose artifacts were frozen. *)
Lemma buildWrite_ok c id req g now admin resource e s p rels s' :
  buildWrite keyPrefix maxAttachmentBytes maxArchiveBytes c id req g now admin resource e s = (Ok (p, rels), s') →
  ∃ docs docs' cv n,
    canonicalizePluginDocuments resource (TrimSpace (wr_name req)) (wr_type req) (wr_tags req) (wr_manifest req)
      (wr_package req) (CSpaceID c) = Some docs
    ∧ freezeVersionArtifacts keyPrefix maxAttachmentBytes maxArchiveBytes (CSpaceID c)
        (resources_of resource (plugin_row c id req now resource docs cv)) (wr_type req) docs
        (sv_artifacts e) (mkFz (fz_bucket (sv_fz s)) 0 n) = (Ok docs', sv_fz s')
    ∧ p = with_documents docs' (plugin_row c id req now resource docs cv)
    ∧ cv = (if String.eqb (TrimSpace (wr_version req)) "" then defaultCurrentVersion else TrimSpace (wr_version req))
    ∧ validVisibility (wr_visibility req) (CIsSystemAdmin c) = true.
Proof.
  unfold buildWrite. intros Hrun.
  apply save_bind_ok in Hrun as (? & ? & [[_ Hvis]%andb_true_iff ->]%save_require_ok & Hrun).
  apply save_bind_ok in Hrun as (? & ? & [_ ->]%save_require_ok & Hrun).
  apply save_bind_ok in Hrun as (docs & ? & [Hdocs ->]%from_docs_ok & Hrun).
  apply save_bind_ok in Hrun as (? & ? & [_ ->]%save_require_ok & Hrun).
  apply save_bind_ok in Hrun as (? & ? & [_ ->]%save_require_ok & Hrun).
  apply save_bind_ok in Hrun as (l & s1 & Hl & Hrun). unfold buildRelations in Hl.
  apply save_bind_ok in Hl as (? & ? & [_ ->]%save_require_ok & Hfz%build_relations_fz).
  apply save_bind_ok in Hrun as (docs' & s2 & Hf & [[= -> ->] ->]%save_ret_ok).
  unfold frozen_by in Hf. rewrite Hfz in Hf.
  destruct (freezeVersionArtifacts _ _ _ _ _ _ _ _ _) as [r y] eqn:E. injection Hf as Hr <-.
  destruct r as [dd|]; [|done]. injection Hr as ->. eexists docs, docs', _, _. by split_and!.
Qed.

Lemma built_row docs docs' c id req now resource cv :
  let p := with_documents docs' (plugin_row c id req now resource docs cv) in
  ID p = id ∧ ListingState p = Draft ∧ IsEmbedded p = false ∧ OwnerUID p = CUID c.
Proof. unfold plugin_row, provenance. by destruct (String.eqb (CBotUID c) ""). Qed.

Lemma saves_bind_post {A B} (Q : A → Prop) (m : Save A) (f : A → Save B) :
  saves keyPrefix P m → (∀ e s a s', m e s = (Ok a, s') → Q a) → (∀ a, Q a → saves keyPrefix P (f a)) →
  saves keyPrefix P (a ← m; f a).
Proof.
  intros Hm HQ Hf e s He. specialize (Hm e s He). unfold mbind, save_bind.
  destruct (m e s) as [[a|err] s'] eqn:E; [|done]. simpl in Hm. destruct (Hf a (HQ _ _ _ _ E) e s' He) as [H1' H2'].
  split; (etrans; [apply Hm|done]).
Qed.

Lemma createWithID_saves c req id :
  (∀ m, ListingState (MPlugin m) = Draft → P (OpCreate (caller_scope c) m)) →
  saves keyPrefix P (createWithID keyPrefix maxAttachmentBytes maxArchiveBytes c req id).
Proof.
  intros HP. unfold createWithID. do 3 (apply saves_bind; [saves|intros ?]).
  apply (saves_bind_post (λ pr, ListingState pr.1 = Draft)); [apply buildWrite_saves| |].
  { intros e s [p rels] s' (docs & docs' & cv & n & _ & _ & -> & _)%buildWrite_ok. apply built_row. }
  intros [p rels] Hp. simpl in Hp. apply saves_bind; [saves|]. intros newID. cbv zeta.
  apply saves_bind; [|saves]. apply saves_svc. eapply (performs_call P _ (OpCreate _ _)); [|by intros]. apply HP. by destruct p.
Qed.

Lemma svcUpdate_saves c id req :
  (∀ m, EnforceListingGate m = negb (CIsSystemAdmin c) → P (OpUpdate (caller_scope c) m)) →
  saves keyPrefix P (svcUpdate keyPrefix maxAttachmentBytes maxArchiveBytes c id req).
Proof.
  intros HP. unfold svcUpdate. saves; try apply buildWrite_saves.
  all: apply saves_svc; eapply (performs_call P _ (OpUpdate _ _)); [|by intros]; by apply HP.
Qed.

Lemma svcDelete_saves c id :
  (∀ i op, P (OpDelete (caller_scope c) i op) ∧ P (OpDeleteGraph (caller_scope c) i op)) →
  saves keyPrefix P (svcDelete c id).
Proof.
  intros HP. unfold svcDelete. saves.
  apply saves_svc. case_match; [eapply (performs_call P _ (OpDeleteGraph _ _ _))|eapply (performs_call P _ (OpDelete _ _ _))];
    try (by intros); by apply HP.
Qed.
End Writes.
