(* ===== verification/SkillFiles.v ===== *)
(** * Reading a skill: service/plugin/skill_artifact.go and its neighbours

    What a reader gets of a stored skill: the text of its SKILL.md and its
    package as an archive, resolved from the attachments of the row, from the
    sidecar of object keys, or from the pointers older rows carry; which keys
    are trusted for that; and the expansion of an older package into
    attachments. Version management is off. *)

From S2P Require Import Prelude GoStrings Model Notify Objects Store Rows Review CardAction Service Json Documents VersionArtifacts Zip SkillTree Queries CatalogService Editing.
From Stdlib Require Import Ascii.
Import Go.
Local Open Scope string_scope.

(** ** Pointers (skill/ref.json) *)

Record SkillRef := mkSkillRef {
  rf_file_name : string;
  rf_file_size : Z;
  rf_file_url : string;
  rf_object_key : string;
  rf_object_hash : string;
  rf_object_size : option Z;
  rf_zip_object_key : string
}.
Definition zero_ref : SkillRef := mkSkillRef "" 0 "" "" "" None "".

(** A member of the wrong type leaves its field as it is, but for a pointer
    field, which it makes non-nil. *)
Definition keep_string (old : string) (v : json) : string := default old (into_string old v).
Definition keep_int64 (old : Z) (v : json) : Z := default old (into_int64 old v).
Definition into_pointer (old : option Z) (v : json) : option Z :=
  match v with JNull => None | _ => Some (keep_int64 (default 0%Z old) v) end.

Definition set_skill_ref (name : string) (v : json) (r : SkillRef) : option SkillRef :=
  let '(mkSkillRef fname fsize url key hash size zip) := r in
  Some (if String.eqb name "file_name" then mkSkillRef (keep_string fname v) fsize url key hash size zip
        else if String.eqb name "file_size" then mkSkillRef fname (keep_int64 fsize v) url key hash size zip
        else if String.eqb name "file_url" then mkSkillRef fname fsize (keep_string url v) key hash size zip
        else if String.eqb name "object_key" then mkSkillRef fname fsize url (keep_string key v) hash size zip
        else if String.eqb name "object_key_hash" then mkSkillRef fname fsize url key (keep_string hash v) size zip
        else if String.eqb name "object_key_size" then mkSkillRef fname fsize url key hash (into_pointer size v) zip
        else mkSkillRef fname fsize url key hash size (keep_string zip v)).

Definition zipKey (r : SkillRef) : string :=
  if String.eqb (rf_zip_object_key r) "" then rf_file_url r else rf_zip_object_key r.

(** ** Trusted keys (skill_artifact.go, artifact.go) *)

Definition artifactKeyShape (key : string) : bool :=
  if String.eqb key "" || (512 <? String.length key)%nat || ContainsAny key unsafe_bytes
     || Contains key "://" || HasPrefix key "/" then false
  else
    let clean := Clean key in
    String.eqb clean key && negb (String.eqb clean ".") && negb (HasPrefix clean "../").

Definition trustedArtifactKey (key : string) (spaceID : option string) : bool :=
  artifactKeyShape key
  && match spaceID with
     | Some sp => segment sp && HasPrefix key (approvedAttachmentPrefix sp)
     | None => false
     end.

Definition migrationArtifactKey (key : string) (spaceID : option string) : bool :=
  trustedArtifactKey key spaceID
  || (artifactKeyShape key && negb (HasPrefix key "plugins/")
      && (HasPrefix key "skills/" || HasPrefix key "experts/" || HasPrefix key "squads/")).

Definition trustedPluginArtifactKey (key : string) (p : Plugin) : bool := Allows (Some p) key.

Definition ErrIntegrity : SvcErr := freeze_error FIntegrity.
Definition ErrTooLarge : SvcErr := freeze_error FTooLarge.

Section Files.
Context `{JsonText} `{Host} `{Crypto} `{LibPlugin} `{PackageLibs}.

Definition decodePackageAttachments (pkg : RawMessage) : list AttView :=
  default [] (json_parse pkg ≫= attachment_structs view_fields).

Definition skillRef (p : Plugin) : SkillRef :=
  default zero_ref
    (raw ← rawAttachmentContent (Package p) "skill/ref.json";
     json_parse raw ≫= into_struct ref_fields set_skill_ref zero_ref).

(** documents.go *)
Definition inlineStorageURI (pkg : RawMessage) (path : string) : option string :=
  l ← json_parse pkg ≫= attachment_structs ["path"; "content_type"; "storage_uri"];
  v_storage_uri <$> List.find (λ a, String.eqb (v_path a) path && String.eqb (v_content_type a) "storage"
                                    && negb (String.eqb (v_storage_uri a) "")) l.
Definition sidecar_key (keys : RawMessage) (path : string) : string := default "" (attachmentKeyMap keys !! path).
Definition storageAttachmentKey (p : Plugin) (path : string) : option string :=
  let key := sidecar_key (AttachmentKeys p) path in
  if String.eqb key "" then inlineStorageURI (Package p) path else Some key.

Definition hasPlatformArtifacts (p : Plugin) : bool :=
  existsb (λ kv, HasPrefix kv.2 "platform/") (map_to_list (attachmentKeyMap (AttachmentKeys p)))
  || existsb (λ a, HasPrefix (v_storage_uri a) "platform/") (decodePackageAttachments (Package p))
  || match rawAttachmentContent (Package p) "skill/ref.json" with
     | Some raw =>
         match json_parse raw ≫= into_struct ref_fields set_ref ("", "", "") with
         | Some (file, object, zip) => existsb (λ key, HasPrefix key "platform/") [object; zip; file]
         | None => false
         end
     | None => false
     end.

Definition managed_zip_key (p : Plugin) : option string :=
  key ← storageAttachmentKey p "skill/package.zip";
  if trustedPluginArtifactKey key p then Some key else None.

Definition legacyZipKey (p : Plugin) (ref : SkillRef) : option string :=
  match managed_zip_key p with
  | Some key => Some key
  | None => if trustedPluginArtifactKey (zipKey ref) p then Some (zipKey ref) else None
  end.

Definition migrationZipKey (p : Plugin) (ref : SkillRef) : option string :=
  match managed_zip_key p with
  | Some key => Some key
  | None => if trustedPluginArtifactKey (zipKey ref) p || migrationArtifactKey (zipKey ref) (SpaceID p)
            then Some (zipKey ref) else None
  end.

(** ** The files of a version (version_management.go) *)

Definition pointer_field (filePath : string) : option string :=
  if String.eqb filePath "SKILL.md" then Some "object_key"
  else if String.eqb filePath "skill/package.zip" then Some "zip_object_key"
  else if String.eqb filePath "skill/ref.json/object_key" then Some "object_key"
  else if String.eqb filePath "skill/ref.json/zip_object_key" then Some "zip_object_key"
  else if String.eqb filePath "skill/ref.json/file_url" then Some "file_url"
  else None.

(** The key, size and digest the pointer records; [Some None] is
    [ErrIntegrity], [None] that there is no pointer. *)
Definition legacyVersionPointer (pkg : RawMessage) (filePath : string) : option (option (string * Z * string)) :=
  f ← pointer_field filePath;
  raw ← rawAttachmentContent pkg "skill/ref.json";
  match parsed_fields raw with
  | None => Some None
  | Some ref =>
      let f := if String.eqb (string_field ref f) "" && String.eqb f "zip_object_key" then "file_url" else f in
      let key := string_field ref f in
      if String.eqb key "" then None
      else Some (
        size ← field ref (f ++ "_size") ≫= into_int64 0;
        digest ← field ref (f ++ "_hash") ≫= into_string "";
        if (size <? 0)%Z || negb (String.length digest =? 71)%nat then None else Some (key, size, digest))
  end.

Context (keyPrefix : string) (maxAttachmentBytes maxArchiveBytes : Z).

(** Calls of the storage, and their failures for the caller to inspect. *)
Definition attempt {A} (m : Fz A) : Save (result FreezeError A) := λ e s,
  let '(r, x) := m (sv_artifacts e) (mkFz (fz_bucket (sv_fz s)) 0 (fz_count (sv_fz s))) in
  (Ok r, mkSaveSt (sv_svc s) x).
Definition save_fail {A} (err : SvcErr) : Save A := svc (svc_fail err).
(** Any failure is answered as [err]. *)
Definition or_else {A} (err : SvcErr) (m : Fz A) : Save A :=
  r ← attempt m; match r with Ok a => mret a | Error _ => save_fail err end.

Definition matches (data : string) (size : Z) (digest : string) : bool :=
  (size =? blen data)%Z && String.eqb digest ("sha256:" ++ sha256_hex data).

Definition versionFileBytes (p : Plugin) (filePath : string) : Save string :=
  match legacyVersionPointer (Package p) filePath with
  | Some None => save_fail ErrIntegrity
  | Some (Some (key, size, digest)) =>
      save_require (trustedPluginArtifactKey key p) ErrIntegrity;;
      let limit := if String.eqb filePath "skill/package.zip" || HasSuffix filePath "/zip_object_key"
                      || HasSuffix filePath "/file_url" then maxArchiveBytes else maxAttachmentBytes in
      data ← or_else ErrIntegrity (readArtifactBytes keyPrefix key limit);
      save_require (matches data size digest) ErrIntegrity;;
      mret data
  | None =>
      match List.find (λ a, String.eqb (v_path a) filePath) (decodePackageAttachments (Package p)) with
      | None => save_fail SErrNotFound
      | Some a =>
          if String.eqb (v_content_type a) "raw" then
            save_require (blen (v_raw_content a) <=? maxAttachmentBytes)%Z ErrTooLarge;;
            mret (v_raw_content a)
          else
            save_require (String.eqb (v_content_type a) "storage") ErrIntegrity;;
            let key := sidecar_key (AttachmentKeys p) filePath in
            save_require (trustedPluginArtifactKey key p) ErrIntegrity;;
            data ← or_else ErrIntegrity (readArtifactBytes keyPrefix key maxAttachmentBytes);
            save_require (matches data (v_content_size a) (v_content_hash a)) ErrIntegrity;;
            mret data
      end
  end.

(** The pointers, and then the attachments; the total is bounded. *)
Fixpoint verify_pointers (p : Plugin) (total : Z) (fields : list string) : Save Z :=
  match fields with
  | [] => mret total
  | f :: fields' =>
      let filePath := "skill/ref.json/" ++ f in
      match legacyVersionPointer (Package p) filePath with
      | None => verify_pointers p total fields'
      | Some None => save_fail ErrIntegrity
      | Some (Some _) =>
          data ← versionFileBytes p filePath;
          let total := (total + blen data)%Z in
          save_require (total <=? maxArchiveBytes)%Z ErrTooLarge;;
          verify_pointers p total fields'
      end
  end.

Fixpoint verify_files (p : Plugin) (seen : list string) (total : Z) (atts : list AttView) : Save unit :=
  match atts with
  | [] => mret tt
  | a :: atts' =>
      save_require (negb (String.eqb (v_path a) "") && negb (mem (v_path a) seen)) ErrIntegrity;;
      data ← versionFileBytes p (v_path a);
      let total := (total + blen data)%Z in
      save_require (total <=? maxArchiveBytes)%Z ErrTooLarge;;
      verify_files p (v_path a :: seen) total atts'
  end.

Definition verifyVersionFiles (p : Plugin) : Save unit :=
  match json_parse (Package p) ≫= attachment_structs view_fields with
  | None => save_fail ErrIntegrity
  | Some atts =>
      total ← verify_pointers p 0 pointer_fields;
      verify_files p [] total atts
  end.

(** ** SKILL.md *)

Definition skillMarkdown (sc : Scope) (pluginID : string) : Save string :=
  storageID ← save_lift (parseStorageID pluginID);
  '(p, _) ← svc (ask (GetWithRelations sc storageID));
  save_require (bool_decide (Type_ p = Skill)) SErrInvalidRequest;;
  let ref := skillRef p in
  if HasPrefix (rf_object_key ref) "platform/" || HasPrefix (sidecar_key (AttachmentKeys p) "SKILL.md") "platform/" then
    versionFileBytes p "SKILL.md"
  else if trustedPluginArtifactKey (rf_object_key ref) p then
    let hash := TrimPrefix (rf_object_hash ref) "sha256:" in
    match rf_object_size ref with
    | Some size =>
        save_require (digest64 hash && (0 <=? size)%Z) ErrIntegrity;;
        save_require (size <=? maxAttachmentBytes)%Z ErrTooLarge;;
        data ← frozen_by (r ← storage_read keyPrefix (GetObject keyPrefix (rf_object_key ref)); stored r);
        let data := take (Z.to_nat (maxAttachmentBytes + 1)) data in
        save_require (blen data <=? maxAttachmentBytes)%Z ErrTooLarge;;
        save_require ((blen data =? size)%Z && String.eqb (sha256_hex data) hash) ErrIntegrity;;
        mret data
    | None => save_fail ErrIntegrity
    end
  else save_lift (match rawAttachmentContent (Package p) "SKILL.md" with Some raw => Ok raw | None => Error SErrNotFound end).

Definition SkillMarkdown (c : Caller) (pluginID : string) : Save string :=
  save_lift (validateCaller c);; skillMarkdown (caller_scope c) pluginID.

Definition adminScope (c : Caller) : Scope := mkScope (CUID c) "" true.
Definition AdminSkillMarkdown (c : Caller) (pluginID : string) : Save string :=
  save_require (negb (String.eqb (TrimSpace (CUID c)) "")) SErrInvalidRequest;; skillMarkdown (adminScope c) pluginID.

(** ** The package (OpenSkillPackage, writeSkillZip) *)

Definition maxSkillZipEntries : nat := 4096.

Definition view_le (a b : AttView) : Prop := String.leb (v_path a) (v_path b) = true.
#[export] Instance view_le_dec : RelDecision view_le.
Proof. intros a b. unfold view_le. apply _. Defined.

Definition legacy_pointer (path : string) : bool :=
  String.eqb path "skill/ref.json" || String.eqb path "skill/package.zip".

(** The header of a downloaded file: a name ending in a slash is a directory. *)
Definition download_header (path : string) : File := mkFile path 0 (HasSuffix path "/") false "" false false.

(** The key of an attachment in the sidecar, or else inline. *)
Definition attachment_key (keys : gmap string string) (a : AttView) : string :=
  let key := default "" (keys !! v_path a) in if String.eqb key "" then v_storage_uri a else key.

(** The bytes of one attachment and the new total: inline, or read from storage
    and compared with its size and digest. *)
Definition attachment_data (storageKey : string) (a : AttView) (total : Z) : Fz (string * Z) :=
  if String.eqb (v_content_type a) "raw" then
    let total := (total + blen (v_raw_content a))%Z in
    fz_require (total <=? maxArchiveBytes)%Z FTooLarge;;
    mret (v_raw_content a, total)
  else
    let remaining := (maxArchiveBytes - total)%Z in
    let limit := if (remaining <? maxAttachmentBytes)%Z then remaining else maxAttachmentBytes in
    r ← storage_read keyPrefix (GetObject keyPrefix storageKey);
    body ← stored r;
    let data := take (Z.to_nat (limit + 1)) body in
    let total := (total + blen data)%Z in
    fz_require ((total <=? maxArchiveBytes)%Z && (blen data <=? maxAttachmentBytes)%Z) FTooLarge;;
    fz_require (negb (0 <? v_content_size a)%Z || (v_content_size a =? blen data)%Z) FIntegrity;;
    fz_require (String.eqb (v_content_hash a) ""
                || String.eqb (v_content_hash a) ("sha256:" ++ sha256_hex data)) FIntegrity;;
    mret (data, total).

(** The loop over the sorted attachments: [entries] counts the files written,
    [total] their bytes. *)
Fixpoint zip_entries (p : Plugin) (keys : gmap string string) (entries : nat) (total : Z) (atts : list AttView)
    : Fz (list (File * string)) :=
  match atts with
  | [] => mret []
  | a :: atts' =>
      if legacy_pointer (v_path a) then zip_entries p keys entries total atts'
      else
        let storageKey := attachment_key keys a in
        let raw := String.eqb (v_content_type a) "raw" in
        if negb raw && negb (trustedPluginArtifactKey storageKey p) then
          if HasPrefix storageKey "platform/" then fz_fail FIntegrity
          else zip_entries p keys entries total atts'
        else
          fz_require (entries <? maxSkillZipEntries)%nat FTooLarge;;
          '(data, total) ← attachment_data storageKey a total;
          rest ← zip_entries p keys (S entries) total atts';
          mret ((download_header (v_path a), data) :: rest)
  end.

(** The files of the archive, before [zip.Writer] puts them together. *)
Definition skill_zip_entries (p : Plugin) (atts : list AttView) : Fz (list (File * string)) :=
  zip_entries p (attachmentKeyMap (AttachmentKeys p)) 0 0 (merge_sort view_le atts).

Definition writeSkillZip (p : Plugin) (atts : list AttView) : Fz string :=
  entries ← skill_zip_entries p atts;
  fz_lift FDocument (zip_write entries).

(** The file name, and the body, written when it is asked for. *)
Definition SkillPackageStream : Type := string * Save string.

Definition openSkillPackage (sc : Scope) (pluginID : string) : Save SkillPackageStream :=
  storageID ← save_lift (parseStorageID pluginID);
  '(p, _) ← svc (ask (GetWithRelations sc storageID));
  save_require (bool_decide (Type_ p = Skill)) SErrInvalidRequest;;
  (if hasPlatformArtifacts p then verifyVersionFiles p else mret tt);;
  let ref := skillRef p in
  match legacyZipKey p ref with
  | Some key =>
      size ← frozen_by (r ← storage_read keyPrefix (StatObject keyPrefix key); stored r);
      save_require ((0 <? size)%Z && (size <=? maxArchiveBytes)%Z) ErrTooLarge;;
      let fileName := TrimSpace (rf_file_name ref) in
      mret (if String.eqb fileName "" then Name p ++ ".zip" else fileName,
            frozen_by (r ← storage_read keyPrefix (GetObject keyPrefix key); body ← stored r;
                       fz_require (size <=? blen body)%Z (FStorage ErrClient);;
                       mret (take (Z.to_nat size) body)))
  | None =>
      let atts := decodePackageAttachments (Package p) in
      save_require (existsb (λ a, negb (legacy_pointer (v_path a))) atts) SErrNotFound;;
      mret (Name p ++ ".zip", frozen_by (writeSkillZip p atts))
  end.

Definition OpenSkillPackage (c : Caller) (pluginID : string) : Save SkillPackageStream :=
  match validateCaller c with
  | Ok _ => openSkillPackage (caller_scope c) pluginID
  | Error _ => save_fail SErrInvalidRequest
  end.
Definition AdminOpenSkillPackage (c : Caller) (pluginID : string) : Save SkillPackageStream :=
  save_require (negb (String.eqb (TrimSpace (CUID c)) "")) SErrInvalidRequest;;
  openSkillPackage (adminScope c) pluginID.

(** ** Expanding an older package (skill_tree.go) *)

Definition manifestSchema : string := "cowork-plugin-manifest-2.0.json".
Definition packageSchema : string := "cowork-plugin-package-2.0.json".

Definition marshal_attachments (atts : list GoMap) : json :=
  match atts with [] => JNull | _ => JArr (of_fields <$> atts) end.
Definition package_document (atts : list GoMap) : RawMessage :=
  json_print (of_map (<["$schema" := JStr packageSchema]> {["attachments" := marshal_attachments atts]})).

Definition working_plugin (spaceID pluginID : string) (pkg keys : RawMessage) : Plugin :=
  mkPlugin "" pluginID Skill false None "" "" "" (Some spaceID) VPrivate Draft "" "" None None "" 0 None "" pkg keys
    "" "" None None None 0 0 0 None None None "".

(** [None]: already a list of attachments. *)
Definition ExpandSkillPackage (spaceID pluginID : string) (pkg keys : RawMessage)
    : Save (option (RawMessage * RawMessage)) :=
  if negb (existsb (λ a, legacy_pointer (v_path a)) (decodePackageAttachments pkg)) then mret None
  else
    let p := working_plugin spaceID pluginID pkg keys in
    let ref := skillRef p in
    newAtts ←
      match migrationZipKey p ref with
      | Some key =>
          zipData ← frozen_by (r ← storage_read keyPrefix (GetObject keyPrefix key); body ← stored r;
                               let data := take (Z.to_nat (maxArchiveBytes + 1)) body in
                               fz_require (blen data <=? maxArchiveBytes)%Z FTooLarge;; mret data);
          '(atts, _, _, _) ← frozen_by (buildSkillAttachmentTree keyPrefix maxAttachmentBytes maxArchiveBytes
                                          spaceID pluginID zipData None None);
          mret atts
      | None =>
          md ← (if migrationArtifactKey (rf_object_key ref) (SpaceID p) then
                  data ← frozen_by (r ← storage_read keyPrefix (GetObject keyPrefix (rf_object_key ref)); body ← stored r;
                                    let data := take (Z.to_nat (maxAttachmentBytes + 1)) body in
                                    fz_require (blen data <=? maxAttachmentBytes)%Z FTooLarge;; mret data);
                  mret (Some data)
                else mret (rawAttachmentContent pkg "SKILL.md"));
          match md with
          | Some md =>
              save_require (Valid md) SErrNotFound;;
              mret [raw_attachment "SKILL.md" "text/markdown" md]
          | None => save_fail SErrNotFound
          end
      end;
    '(stripped, keys) ← from_docs (splitStorageKeys (package_document newAtts) spaceID);
    canonical ← save_lift (match CanonicalJSON stripped with Some c => Ok c | None => Error (SErrOther "canonical") end);
    save_require (DecodePackage Skill canonical) (SErrOther "expanded skill package rejected by lib");;
    mret (Some (canonical, keys)).

Definition WouldTruncateSkillPackage (spaceID pluginID : string) (pkg keys : RawMessage) : bool :=
  let hasZipAttachment := existsb (λ a, String.eqb (v_path a) "skill/package.zip") (decodePackageAttachments pkg) in
  let p := working_plugin spaceID pluginID pkg keys in
  let ref := skillRef p in
  match migrationZipKey p ref with
  | Some _ => false
  | None =>
      if hasZipAttachment || negb (String.eqb (zipKey ref) "") then true
      else if migrationArtifactKey (rf_object_key ref) (SpaceID p) then false
      else negb (String.eqb (rf_object_key ref) "")
  end.
End Files.
