(* ===== verification/Saving.v ===== *)
(** * What the plugin editor promises

    Theorems about the tenant's editor of Editing.v: what a successful save
    leaves in the tables and in the bucket, that no save of a tenant lists a
    plugin, and that a save that fails leaves the tables alone. *)

From S2P Require Import Prelude GoStrings Version Model Notify Objects Store Rows RowWrites Write Review Changes Operations Sync Lifecycle Service Decisions Outcomes CardAction ReviewService Json Documents VersionArtifacts Reads Queries Closure Availability Grid CatalogService Editing.
Import Go.
Local Open Scope string_scope.

(** ** Saves never list *)

(** Every plugin listed afterwards was there, and listed, before. *)
Definition none_listed (d d' : Db) : Prop :=
  ∀ i p', plugins d' !! i = Some p' → listed p' = true → ∃ p, plugins d !! i = Some p ∧ listed p = true.
#[export] Instance none_listed_preorder : PreOrder none_listed.
Proof.
  split; [intros d i p; eauto|]. intros x y z H1 H2 i p Hp Hl.
  destruct (H2 i p Hp Hl) as (q & Hq & Hlq). by apply (H1 i q).
Qed.

Lemma change_none_listed k d d' : change k d d' → k ≠ KList → k ≠ KInsert → none_listed d d'.
Proof.
  intros Hc Hk Hi. unfold none_listed.
  destruct Hc; simpl; try done; try (intros; eauto; fail).
  all: intros i q [[<- <-]|[Hne Hq]]%lookup_insert_Some Hl; [|by eauto].
  - eexists. split; [done|]. auto.
  - congruence.
Qed.

Section Saving.
Context `{Host}.

(** What a tenant may ask of the repository without a review. *)
Definition tenant_op (o : Op) : Prop :=
  match o with
  | OpCreate _ m => ListingState (MPlugin m) ≠ Published
  | OpCreateGraph _ _ | OpRebuildGraph _ _ _ => False
  | _ => may_list o = false
  end.

Lemma content_view_listed p q : content_view p = content_view q → ListingState p = ListingState q ∧ listed p = listed q.
Proof.
  unfold content_view, listed. intros E. assert (ListingState p = ListingState q) as -> by congruence.
  assert (Visibility p = Visibility q) as -> by congruence. done.
Qed.

Lemma creation_none_listed scope m e d : ListingState (MPlugin m) ≠ Published →
  none_listed d (Create scope m e d).2.
Proof.
  intros Hs. destruct (Create scope m e d) as [[sync|err] d'] eqn:E.
  2:{ apply transact_unchanged in E as ->. done. }
  apply creation_outcome in E as (i & _ & Hn & Hv). intros j p' Hp' Hl. simpl in Hp'.
  assert ((content_view <$> plugins d') !! j = Some (content_view p')) as Hj by by rewrite lookup_fmap, Hp'.
  rewrite Hv in Hj. apply lookup_insert_Some in Hj as [[<- Hj]|[_ Hj]].
  - exfalso. apply content_view_listed in Hj as [Hj _]. unfold listed in Hl.
    apply andb_true_iff in Hl as [Hl%bool_decide_eq_true _]. rewrite Hl in Hj. clear -Hs Hj.
    unfold created_row, pin_identity in Hj. destruct (MPlugin m), (Admin scope); simpl in *; by case_match.
  - rewrite lookup_fmap in Hj. destruct (plugins d !! j) as [q|] eqn:Hq; [|done]. exists q. split; [done|].
    simpl in Hj. apply (inj Some), content_view_listed in Hj as [_ ->]. done.
Qed.

Lemma run_none_listed o e d : tenant_op o → none_listed d (run o e d).
Proof.
  intros Ho. destruct (match o with OpCreate _ _ => true | _ => false end) eqn:Hc.
  { destruct o; try done. by apply creation_none_listed. }
  apply (changes_rel _ (op_kinds o)); [|apply run_changes]. intros k x y Hk Hch.
  eapply change_none_listed; [done| |]; intros ->; revert Hk; apply mem_false; destruct o; try done;
    simpl in *; by destruct (EnforceListingGate m).
Qed.

Lemma runs_none_listed d d' : runs_of tenant_op d d' → none_listed d d'.
Proof. apply (runs_rel tenant_op none_listed). intros o e x. apply run_none_listed. Qed.

(** ** The editor *)

Inductive EditorOp := EdCreate (req : WriteRequest) | EdUpdate (id : string) (req : WriteRequest) | EdDelete (id : string).

Context `{Crypto} `{JsonText} `{LibPlugin} `{EditorLibs}.
Context (keyPrefix : string) (maxAttachmentBytes maxArchiveBytes : Z).

Definition edit (c : Caller) (o : EditorOp) : Save unit :=
  match o with
  | EdCreate req => svcCreate keyPrefix maxAttachmentBytes maxArchiveBytes c req;; mret tt
  | EdUpdate id req => svcUpdate keyPrefix maxAttachmentBytes maxArchiveBytes c id req;; mret tt
  | EdDelete id => svcDelete c id
  end.

Lemma edit_saves (P : Op → Prop) c o :
  (∀ m, ListingState (MPlugin m) = Draft → P (OpCreate (caller_scope c) m)) →
  (∀ m, EnforceListingGate m = negb (CIsSystemAdmin c) → P (OpUpdate (caller_scope c) m)) →
  (∀ i op, P (OpDelete (caller_scope c) i op) ∧ P (OpDeleteGraph (caller_scope c) i op)) →
  saves keyPrefix P (edit c o).
Proof.
  intros HC HU HD. destruct o; simpl.
  - apply saves_bind; [by apply createWithID_saves|saves].
  - apply saves_bind; [by apply svcUpdate_saves|saves].
  - by apply svcDelete_saves.
Qed.

(** C12: a tenant's editor cannot list. Whatever a caller who is no system
    administrator asks the editor for, successful or not, and whatever other such
    requests commit meanwhile, every plugin listed afterwards was listed
    before; and the bucket only changes by storage operations, which never
    touch a version object. *)
Theorem editor_cannot_list c o e s :
  CIsSystemAdmin c = false → polite tenant_op (sv_env e) →
  none_listed (tables (sv_svc s)) (tables (sv_svc (edit c o e s).2))
  ∧ oss_steps keyPrefix (fz_bucket (sv_fz s)) (fz_bucket (sv_fz (edit c o e s).2)).
Proof.
  intros Hc He. destruct (edit_saves tenant_op c o) with (e := e) (s := s) as [Hr Hb]; try done.
  - intros m. simpl. by intros ->.
  - intros m. rewrite Hc. simpl. by intros ->.
  - split; [by apply runs_none_listed|done].
Qed.

(** ** Failed saves *)

(** If [m] fails, the tables only changed by the operations of others. *)
Definition fails_idle {A} (m : Save A) : Prop := ∀ (P : Op → Prop) e s err s',
  polite P (sv_env e) → m e s = (Error err, s') →
  runs_of P (tables (sv_svc s)) (tables (sv_svc s')).

Lemma fails_saves {A} (m : Save A) : (∀ P, saves keyPrefix P m) → fails_idle m.
Proof. intros Hm P e s err s' He Hr. specialize (Hm P e s He). rewrite Hr in Hm. apply Hm. Qed.

Lemma fails_bind {A B} (m : Save A) (f : A → Save B) :
  (∀ P, saves keyPrefix P m) → (∀ a, fails_idle (f a)) → fails_idle (a ← m; f a).
Proof.
  intros Hm Hf P e s err s' He. specialize (Hm P e s He). unfold mbind, save_bind.
  destruct (m e s) as [[a|x] s1]; simpl in Hm; [|intros [= _ <-]; apply Hm].
  intros Hr. etrans; [apply Hm|]. by eapply Hf.
Qed.

Lemma fails_then {A B} (m : Save A) (b : B) : fails_idle m → fails_idle (m;; mret b).
Proof.
  intros Hm P e s err s' He. unfold mbind, save_bind. destruct (m e s) as [[a|x] s1] eqn:E; [done|].
  intros [= _ <-]. by eapply Hm.
Qed.

(** The call that ends a save: a failed transaction changes nothing. *)
Lemma fails_call {A B} (f : Env → Db → result Err A * Db) (g : A → B) :
  (∀ e d err d', f e d = (Error err, d') → d' = d) →
  fails_idle (r ← svc (call f); x ← svc (mapped r); mret (g x)).
Proof.
  intros Hf P e s err s' He. unfold mbind, save_bind, svc, call, mapped, lift.
  destruct (f _ _) as [[a|x] d] eqn:E; simpl; [done|]. intros [= _ <-]. simpl.
  apply Hf in E as ->. apply others_runs, He.
Qed.


Lemma create_fails c req id : fails_idle (createWithID keyPrefix maxAttachmentBytes maxArchiveBytes c req id).
Proof.
  unfold createWithID. do 3 (apply fails_bind; [intros P; saves|intros ?]).
  apply fails_bind; [intros P; apply buildWrite_saves|]. intros [p rels].
  apply fails_bind; [intros P; saves|]. intros newID. cbv zeta. apply fails_call.
  intros ? ? ? ?. apply transact_unchanged.
Qed.

Lemma update_fails c id req : fails_idle (svcUpdate keyPrefix maxAttachmentBytes maxArchiveBytes c id req).
Proof.
  unfold svcUpdate. do 2 (apply fails_bind; [intros P; saves|intros ?]).
  apply fails_bind; [intros P; saves|]. intros [old rels].
  do 6 (apply fails_bind; [intros P; saves|intros ?]). cbv zeta.
  do 2 (apply fails_bind; [intros P; saves|intros ?]).
  apply fails_bind; [intros P; apply buildWrite_saves|]. intros [p rs]. apply fails_call.
  intros ? ? ? ?. apply transact_unchanged.
Qed.

Lemma delete_fails c id : fails_idle (svcDelete c id).
Proof.
  unfold svcDelete. do 2 (apply fails_bind; [intros P; saves|intros ?]).
  apply fails_bind; [intros P; saves|]. intros [old rels].
  do 2 (apply fails_bind; [intros P; saves|intros ?]). cbv zeta.
  assert (∀ f : Env → Db → result Err unit * Db, (∀ e d err d', f e d = (Error err, d') → d' = d) →
    fails_idle (r ← svc (call f); svc (mapped r))) as Hcall.
  { intros f Hf P e s err s' He. unfold mbind, save_bind, svc, call, mapped, lift.
    destruct (f _ _) as [[v|x] d] eqn:E; simpl; [done|]. intros [= _ <-]. simpl.
    apply Hf in E as ->. apply others_runs, He. }
  destruct (bool_decide _); apply Hcall; intros ? ? ? ?; apply transact_unchanged.
Qed.

(** A failed save changes nothing. When the editor answers with an error,
    from whatever check, store or storage fault it comes, the tables are as the other
    requests that ran meanwhile left them, so as they were if none did. *)
Theorem failed_save_changes_nothing (P : Op → Prop) c o e s err s' :
  polite P (sv_env e) → edit c o e s = (Error err, s') →
  runs_of P (tables (sv_svc s)) (tables (sv_svc s'))
  ∧ ((∀ n, between (sv_env e) n = []) → tables (sv_svc s') = tables (sv_svc s)).
Proof.
  intros He Hr.
  assert (fails_idle (edit c o)) as Hf.
  { destruct o; simpl.
    - apply fails_then, create_fails.
    - apply fails_then, update_fails.
    - apply delete_fails. }
  split; [by eapply Hf|]. intros Hb.
  assert (runs_of (λ _, False) (tables (sv_svc s)) (tables (sv_svc s'))) as Hn.
  { eapply Hf, Hr. intros n. by rewrite Hb. }
  symmetry. clear -Hn. induction Hn as [|x y z [o e' w []] _ IH]; done.
Qed.

(** ** What a successful save leaves *)

(** The content of the saved row: the documents as frozen, the rest as
    submitted. *)
Definition holds_request (c : Caller) (req : WriteRequest) (docs : CanonicalDocuments) (p : Plugin) : Prop :=
  Name p = TrimSpace (wr_name req) ∧ Type_ p = wr_type req ∧ Visibility p = wr_visibility req
  ∧ Manifest p = d_manifest docs ∧ Package p = d_package docs ∧ Tags p = d_tags docs
  ∧ AttachmentKeys p = d_attachment_keys docs ∧ ManifestHash p = d_manifest_hash docs
  ∧ PluginHash p = d_plugin_hash docs ∧ CategoryID p = trimOptional (wr_category req)
  ∧ Icon p = TrimSpace (wr_icon req) ∧ Publisher p = TrimSpace (wr_publisher req)
  ∧ OwnerUID p = CUID c ∧ SpaceID p = Some (CSpaceID c) ∧ DeletedAt p = None.

(** The state a part of an operation leaves: the tables moved by operations, of
    any kind. *)
Lemma part_runs {A} (m : Save A) e s a s1 :
  (∀ P, saves keyPrefix P m) → m e s = (Ok a, s1) → runs_of any_op (tables (sv_svc s)) (tables (sv_svc s1)).
Proof. intros Hm Hr. specialize (Hm any_op e s (polite_any _)). rewrite Hr in Hm. apply Hm. Qed.

Definition update_mutation (c : Caller) (req : WriteRequest) (old p : Plugin) (rels : list PluginRelation) : Mutation :=
  let audience := negb (bool_decide (wr_visibility req = Visibility old)) in
  mkMutation (wr_expected_revision req) "" p rels [] (mkOperator (CUID c) (CName c) (CRequestID c) None)
    true (wr_changelog req) (bool_decide (ListingState old = Published) && audience)
    (negb (CIsSystemAdmin c) && audience) (negb (CIsSystemAdmin c)) true.

(** A successful update: what it read, what it built, and its transaction. *)
Lemma update_ok c id req e s ans s' :
  svcUpdate keyPrefix maxAttachmentBytes maxArchiveBytes c id req e s = (Ok ans, s') →
  ∃ old s1 now p rels s2 te d1 sync,
    let req' := set_wr_package (reinjectUpdateStorageKeys (wr_package req) (Package old) (AttachmentKeys old)) req in
    (owned_row c old = true ∧ IsEmbedded old = false ∧ wr_type req = Type_ old)
    ∧ (∃ orels, seen (caller_scope c) id (tables (sv_svc s)) d1 old orels)
    ∧ Forall2 requested_edge (wr_relations req) rels
    ∧ buildWrite keyPrefix maxAttachmentBytes maxArchiveBytes c id req' (default "" (CurrentVersion old)) now
        false (Some old) e s1 = (Ok (p, rels), s2)
    ∧ runs_of any_op (tables (sv_svc s)) d1
    ∧ Update (caller_scope c) (update_mutation c req old (carried old req' p) rels) te d1 = (Ok sync, tables (sv_svc s'))
    ∧ sv_fz s' = sv_fz s2.
Proof.
  unfold svcUpdate. intros Hrun.
  apply save_bind_ok in Hrun as (? & ? & [_ ->]%save_lift_ok & Hrun).
  apply save_bind_ok in Hrun as (sid & ? & [Hsid ->]%save_lift_ok & Hrun).
  assert (sid = id) as -> by (unfold parseStorageID in Hsid; destruct (valid_storage_id id); by simplify_eq).
  apply save_bind_ok in Hrun as ([old orels] & sa & Hask & Hrun).
  apply part_runs in Hask as Ra; [|intros P; saves].
  apply save_bind_ok in Hrun as (? & ? & [Hown ->]%save_require_ok & Hrun).
  apply save_bind_ok in Hrun as (? & ? & [Hemb ->]%save_require_ok & Hrun).
  apply save_bind_ok in Hrun as (? & ? & [_ ->]%save_require_ok & Hrun).
  apply save_bind_ok in Hrun as (? & ? & [Hty%bool_decide_eq_true ->]%save_require_ok & Hrun).
  apply save_bind_ok in Hrun as (? & ? & [_ ->]%save_require_ok & Hrun).
  apply save_bind_ok in Hrun as (? & ? & [_ ->]%save_require_ok & Hrun). cbv zeta in Hrun.
  apply save_bind_ok in Hrun as (? & sb & Hpend & Hrun).
  apply part_runs in Hpend as Rb; [|intros P; saves].
  apply save_bind_ok in Hrun as (now & sc & Hclock & Hrun).
  apply part_runs in Hclock as Rc; [|intros P; saves].
  apply save_bind_ok in Hrun as ([p rels] & sd & Hbuild & Hrun).
  apply part_runs in Hbuild as Rd; [|intros P; apply buildWrite_saves].
  apply save_bind_ok in Hrun as (r & se & [Hcall Hfz]%svc_ok & Hrun).
  apply save_bind_ok in Hrun as (sync & sf & [Hm Hfz']%svc_ok & [_ ->]%save_ret_ok).
  unfold call in Hcall.
  destruct (Update _ _ _ _) as [r' d'] eqn:HU in Hcall. injection Hcall as -> Hse.
  unfold mapped, lift in Hm. destruct r as [sync'|]; [|done]. injection Hm as -> Hsf.
  exists old, sc, now, p, rels, sd, (call_env (sv_env e) (calls (sv_svc sd))),
    (others (between (sv_env e) (calls (sv_svc sd))) (tables (sv_svc sd))), sync. cbv zeta.
  assert (runs_of any_op (tables (sv_svc sa)) (others (between (sv_env e) (calls (sv_svc sd))) (tables (sv_svc sd)))) as Rlater.
  { etrans; [exact Rb|]. etrans; [exact Rc|]. etrans; [exact Rd|]. apply others_runs, polite_any. }
  split_and!; try done; [by apply negb_true_iff| |by eapply buildWrite_relations in Hbuild| |
    refine (eq_trans HU _); by rewrite <-Hsf, <-Hse|congruence].
  - exists orels. apply svc_ok in Hask as [Hask _]. apply detail_seen in Hask. by eapply seen_within, Hask.
  - by etrans.
Qed.


Lemma saved_holds c id req old docs docs' cv now rels before p' :
  let p := with_documents docs' (plugin_row c id req now (Some old) docs cv) in
  d_manifest docs' = d_manifest docs → d_tags docs' = d_tags docs → d_manifest_hash docs' = d_manifest_hash docs →
  owned_by (caller_scope c) before = true → listed before = false →
  saved (update_mutation c req old (carried old req p) rels) before p' →
  holds_request c req docs' p' ∧ listed p' = false ∧ (ListingState p' = ListingState before
    ∨ ListingState before = Published ∧ wr_visibility req ≠ Visibility before ∧ ListingState p' = Draft).
Proof.
  intros p Hm Ht Hmh Hown Hlb Hs. unfold owned_by in Hown. simpl in Hown.
  apply andb_true_iff in Hown as [Huid%String.eqb_eq Hsp%bool_decide_eq_true].
  assert (holds_request c req docs' p' ∧ (ListingState p' = ListingState before ∧ (ListingState before = Published → wr_visibility req = Visibility before)
    ∨ ListingState before = Published ∧ wr_visibility req ≠ Visibility before ∧ ListingState p' = Draft)) as [Hh Hl].
  { unfold saved, content_view, update_mutation in Hs. cbv zeta in Hs. cbn [MPlugin] in Hs.
    unfold p, plugin_row, provenance in Hs. destruct (String.eqb (CBotUID c) ""); simpl in Hs; unfold holds_request;
      rewrite Hm, Ht, Hmh; injection Hs; intros; (split; [split_and!; congruence|]);
      destruct (decide (ListingState before = Published ∧ wr_visibility req ≠ Visibility before)) as [[Hl Hv]|Hn];
      [right|left|right|left]; try (split_and!; [done|done|]); try (split; [|intros; apply dec_stable; naive_solver]);
      match goal with H : ListingState p' = _ |- _ => rewrite H end;
      repeat case_bool_decide; simpl; try done; naive_solver. }
  split; [exact Hh|]. split; [|naive_solver]. apply not_true_iff_false. intros [Hls Hvs]%listed_published.
  destruct Hl as [[Hl Hv]|(_ & _ & Hl)]; [|congruence]. destruct Hh as (_ & _ & Hvis & _).
  rewrite Hl in Hls. unfold listed in Hlb. rewrite Hls in Hlb. rewrite <-(Hv Hls), <-Hvis, Hvs in Hlb. done.
Qed.
End Saving.

Section Stored.
Context `{JsonLaws} `{CryptoLaws} `{LibPlugin} `{EditorLibs}.
Context (keyPrefix : string) (maxAttachmentBytes maxArchiveBytes : Z).
Hypothesis limits : (0 ≤ maxAttachmentBytes ∧ 0 ≤ maxArchiveBytes)%Z.

(** Freezing leaves the documents but the package, its hash and the keys. *)
Lemma freeze_documents spaceID resources typ docs e s docs' s' :
  freezeVersionArtifacts keyPrefix maxAttachmentBytes maxArchiveBytes spaceID resources typ docs e s = (Ok docs', s') →
  d_manifest docs' = d_manifest docs ∧ d_tags docs' = d_tags docs ∧ d_manifest_hash docs' = d_manifest_hash docs.
Proof.
  destruct (decide (typ = Connector)) as [->|Ht].
  - by intros [= <- <-].
  - intros Hr. apply freeze_freezes in Hr as [_ (? & ? & ? & ? & ? & ? & ?)]; done.
Qed.

(** What an update stores, and the freezing that stored it. *)
Lemma update_stored c id req e s ans s' :
  CIsSystemAdmin c = false →
  svcUpdate keyPrefix maxAttachmentBytes maxArchiveBytes c id req e s = (Ok ans, s') →
  ∃ old before p' d docs docs' row sf,
    ((owned_row c old = true ∧ IsEmbedded old = false ∧ wr_type req = Type_ old)
     ∧ ∃ orels, seen (caller_scope c) id (tables (sv_svc s)) d old orels)
    ∧ (runs_of any_op (tables (sv_svc s)) d ∧ plugins d !! id = Some before
       ∧ owned_by (caller_scope c) before = true ∧ listed before = false
       ∧ ∀ cur, CurrentVersion before = Some cur → TrimSpace (wr_version req) ≠ "" →
           VersionNotRegressed cur (TrimSpace (wr_version req)) = true)
    ∧ canonicalizePluginDocuments (Some old) (TrimSpace (wr_name req)) (wr_type req) (wr_tags req)
        (wr_manifest req) (reinjectUpdateStorageKeys (wr_package req) (Package old) (AttachmentKeys old))
        (CSpaceID c) = Some docs
    ∧ (plugins (tables (sv_svc s')) !! id = Some p' ∧ holds_request c req docs' p'
       ∧ ∃ out, Forall2 requested_edge (wr_relations req) out ∧ edges_are id out (tables (sv_svc s')))
    ∧ (listed p' = false ∧ (ListingState p' = ListingState before
       ∨ ListingState before = Published ∧ wr_visibility req ≠ Visibility before ∧ ListingState p' = Draft))
    ∧ (Visibility row = wr_visibility req ∧ SpaceID row = SpaceID old ∧ validVisibility (wr_visibility req) false = true)
    ∧ freezeVersionArtifacts keyPrefix maxAttachmentBytes maxArchiveBytes (CSpaceID c) [Some old; Some row]
        (wr_type req) docs (sv_artifacts e) sf = (Ok docs', sv_fz s').
Proof.
  intros Hadm (old & s1 & now & p & rels & s2 & te & d & sync & Hold & Hseen & Hrels & Hbuild & Hruns & HU & Hfz)%update_ok.
  apply buildWrite_ok in Hbuild as (docs & docs' & cv & n & Hdocs & Hfreeze & -> & Hcv & Hvis). rewrite Hadm in Hvis.
  destruct (freeze_documents _ _ _ _ _ _ _ _ Hfreeze) as (Hm & Ht & Hmh).
  set (req' := set_wr_package _ req) in *.
  set (p := with_documents docs' _) in HU.
  assert (ID (MPlugin (update_mutation c req old (carried old req' p) rels)) = id) as Hid.
  { unfold update_mutation, p, plugin_row, provenance. by destruct (String.eqb (CBotUID c) ""). }
  pose proof (committed_edges _ _ _ _ _ _ HU) as [Has Hedges]. rewrite Hid in Hedges.
  apply gated_save in HU as (before & p' & Hb & Hob & Hl & _ & _ & Hfwd & Hp' & Hs); [|simpl; by rewrite Hadm].
  rewrite Hid in Hb, Hp'.
  destruct (saved_holds c id req' old docs docs' cv now rels before p' Hm Ht Hmh Hob Hl Hs) as (Hh & Hnl & Hls).
  eexists old, before, p', d, docs, docs', (plugin_row c id req' now (Some old) docs cv), _.
  destruct Hold as (Ho & He & Hty).
  split_and!; try done; [|exists (SyncRelations sync); split; [by eapply requested_all|done]|
    unfold plugin_row, provenance; by destruct (String.eqb (CBotUID c) "")..|by rewrite Hfz].
  intros cur Hc Hv. apply Hfwd; [done|done|]. simpl. unfold p, plugin_row, provenance.
  assert (String.eqb (TrimSpace (wr_version req)) "" = false) as Hne by by apply String.eqb_neq.
  change (wr_version req') with (wr_version req) in *. rewrite Hcv, Hne.
  destruct (String.eqb (CBotUID c) ""); simpl; by rewrite ?Hne.
Qed.


(** What a creation stores, under the drawn identifier or the reserved one. *)
Definition created_id (newID reservedID : string) : string := if String.eqb reservedID "" then newID else reservedID.

Lemma create_stored c req reservedID e s ans s' :
  CIsSystemAdmin c = false → sv_newID e ≠ "" →
  createWithID keyPrefix maxAttachmentBytes maxArchiveBytes c req reservedID e s = (Ok ans, s') →
  let id := created_id (sv_newID e) reservedID in
  ∃ d docs docs' p' sf,
    canonicalizePluginDocuments None (TrimSpace (wr_name req)) (wr_type req) (wr_tags req)
      (wr_manifest req) (wr_package req) (CSpaceID c) = Some docs
    ∧ runs_of any_op (tables (sv_svc s)) d ∧ plugins d !! id = None
    ∧ content_view <$> plugins (tables (sv_svc s')) = <[id := content_view p']> (content_view <$> plugins d)
    ∧ holds_request c req docs' p' ∧ ListingState p' = Draft ∧ validVisibility (wr_visibility req) false = true
    ∧ freezeVersionArtifacts keyPrefix maxAttachmentBytes maxArchiveBytes (CSpaceID c) [None] (wr_type req) docs
        (sv_artifacts e) sf = (Ok docs', sv_fz s').
Proof.
  intros Hadm Hid Hrun id. unfold createWithID in Hrun.
  apply save_bind_ok in Hrun as (? & ? & [_ ->]%save_lift_ok & Hrun).
  apply save_bind_ok in Hrun as (? & ? & [_ ->]%save_require_ok & Hrun).
  apply save_bind_ok in Hrun as (now & sc & Hclock & Hrun).
  apply (part_runs keyPrefix) in Hclock as Rc; [|intros P; saves].
  apply svc_ok in Hclock as [_ Hfz0].
  apply save_bind_ok in Hrun as ([p rels] & sd & Hbuild & Hrun).
  apply (part_runs keyPrefix) in Hbuild as Rd; [|intros P; apply buildWrite_saves].
  apply buildWrite_ok in Hbuild as (docs & docs' & cv & n & Hdocs & Hfreeze & -> & Hcv & Hvis). rewrite Hadm in Hvis.
  destruct (freeze_documents _ _ _ _ _ _ _ _ Hfreeze) as (Hm & Ht & Hmh).
  apply save_bind_ok in Hrun as (i & ? & [= <- <-] & Hrun). cbv zeta in Hrun. simpl in Hrun.
  apply save_bind_ok in Hrun as (r & se & [Hcall Hfz]%svc_ok & Hrun).
  apply save_bind_ok in Hrun as (sync & sf & [Hmap Hfz']%svc_ok & [_ ->]%save_ret_ok).
  unfold call in Hcall. destruct (Create _ _ _ _) as [r' d'] eqn:HC in Hcall. injection Hcall as -> Hse.
  unfold mapped, lift in Hmap. destruct r as [sync'|]; [|done]. injection Hmap as -> Hsf.
  apply creation_outcome in HC as (i & Hi & Hnone & Hv). rewrite <-Hsf, <-Hse.
  set (p := with_documents docs' _) in *.
  match type of Hi with context [MPlugin ?m] => set (mu := m) in * end.
  assert (MPlugin mu = set_ID id p) as Hmu by done.
  assert (id ≠ "") as Hid' by (unfold id, created_id; by destruct (String.eqb_spec reservedID "")).
  assert (i = id) as -> by (apply Hi; rewrite Hmu; by destruct p).
  eexists (others (between (sv_env e) (calls (sv_svc sd))) (tables (sv_svc sd))), docs, docs', (created_row (caller_scope c) mu), _.
  split_and!; try done.
  - etrans; [exact Rc|]. etrans; [exact Rd|]. apply others_runs, polite_any.
  - unfold created_row, pin_identity. simpl. unfold p, holds_request, plugin_row, provenance.
    rewrite Hm, Ht, Hmh. by destruct (String.eqb (CBotUID c) "").
  - unfold created_row, pin_identity. simpl. unfold p, plugin_row, provenance.
    by destruct (String.eqb (CBotUID c) "").
  - by rewrite Hfz', Hfz.
Qed.

(** A creation adds one draft of the caller's that holds exactly the request,
    under the drawn identifier, with its artifacts frozen, and changes the
    content of no other plugin. *)
Theorem created_as_submitted c req e s ans s' :
  CIsSystemAdmin c = false → sv_newID e ≠ "" →
  svcCreate keyPrefix maxAttachmentBytes maxArchiveBytes c req e s = (Ok ans, s') →
  ∃ d docs docs' p',
    canonicalizePluginDocuments None (TrimSpace (wr_name req)) (wr_type req) (wr_tags req)
      (wr_manifest req) (wr_package req) (CSpaceID c) = Some docs
    ∧ runs_of any_op (tables (sv_svc s)) d ∧ plugins d !! sv_newID e = None
    ∧ content_view <$> plugins (tables (sv_svc s')) = <[sv_newID e := content_view p']> (content_view <$> plugins d)
    ∧ holds_request c req docs' p' ∧ ListingState p' = Draft
    ∧ (wr_type req ≠ Connector → ∀ b, oss_steps keyPrefix (fz_bucket (sv_fz s')) b →
         frozen_documents keyPrefix b docs docs').
Proof.
  intros Hadm Hid (d & docs & docs' & p' & sf & H1' & H2' & H3' & H4' & H5' & H6' & _ & Hf)%create_stored; [|done..].
  exists d, docs, docs', p'. split_and!; try done.
  intros Hcon b Hsteps. apply freeze_freezes in Hf as [_ Hf]; [|done..]. by eapply frozen_documents_kept.
Qed.
End Stored.
