(* ===== verification/Importing.v ===== *)
(** * Importing an uploaded skill: service/plugin/import.go

    A completed parse task becomes a plugin. The task is consumed first, by one
    statement that only one request wins; the archive is downloaded and compared
    with what the parse recorded, rewritten, unpacked, and saved through the
    editor. A failure afterwards deletes what was staged and releases the task. *)

From S2P Require Import Prelude GoStrings Version Model Notify Objects Store Rows RowWrites Write Review Changes Operations Lifecycle Service Outcomes CardAction Json Documents VersionArtifacts Zip Parse ParseTasks SkillTree Queries CatalogService Editing SkillFiles.
From Stdlib Require Import Ascii.
Import Go.
Local Open Scope string_scope.

(** ** Requests over the tables, the bucket and the parse tasks *)

Record ImportEnv := mkImportEnv {
  im_save : SaveEnv;
  im_fault : nat → SqlFault;
  im_now : nat → Z;
  im_others : nat → Tasks → Tasks
}.
Record ImportSt := mkImportSt { im_st : SaveSt; im_tasks : Tasks; im_calls : nat }.

Definition Imp (A : Type) : Type := ImportEnv → ImportSt → result SvcErr A * ImportSt.
#[export] Instance imp_ret : MRet Imp := λ A a _ s, (Ok a, s).
#[export] Instance imp_bind : MBind Imp := λ A B f m e s,
  match m e s with (Ok a, s') => f a e s' | (Error err, s') => (Error err, s') end.

Definition saving {A} (m : Save A) : Imp A := λ e s,
  let '(r, x) := m (im_save e) (im_st s) in (r, mkImportSt x (im_tasks s) (im_calls s)).
Definition imp_fail {A} (err : SvcErr) : Imp A := λ _ s, (Error err, s).
Definition imp_require (b : bool) (err : SvcErr) : Imp unit := if b then mret tt else imp_fail err.

(** A SELECT and an UPDATE of parse_tasks, after what other requests do to the
    table; [None] is a database error. *)
Definition task_read {A} (f : Tasks → A) : Imp (option A) := λ e s,
  let ts := im_others e (im_calls s) (im_tasks s) in
  (Ok (sql_read (im_fault e (im_calls s)) (f ts)), mkImportSt (im_st s) ts (S (im_calls s))).
Definition task_write (m : Z → Tasks → bool * Tasks) : Imp (option bool) := λ e s,
  let ts := im_others e (im_calls s) (im_tasks s) in
  let '(r, ts') := run_sql (im_fault e (im_calls s)) (m (im_now e (im_calls s))) ts in
  (Ok r, mkImportSt (im_st s) ts' (S (im_calls s))).

(** [m], and [undo] if it fails. *)
Definition or_undo {A} (m : Imp A) (undo : Imp unit) : Imp A := λ e s,
  match m e s with
  | (Ok a, s') => (Ok a, s')
  | (Error err, s') => (Error err, (undo e s').2)
  end.
Definition save_or_undo {A} (m : Save A) (undo : Save unit) : Save A := λ e s,
  match m e s with
  | (Ok a, s') => (Ok a, s')
  | (Error err, s') => (Error err, (undo e s').2)
  end.

(** ** Parameters and fields *)

Definition ErrInvalidParseTask : SvcErr := SErrOther "invalid or consumed parse task".

(** [ip_visibility]: [None] when left out, as [ip_tags]. *)
Record ImportParams := mkImport {
  ip_task : string;
  ip_plugin : string;
  ip_plugin_name : string;
  ip_name : string;
  ip_description : string;
  ip_category : option string;
  ip_tags : option (list string);
  ip_visibility : option PluginVisibility;
  ip_icon : string;
  ip_version : string;
  ip_changelog : option string
}.

Record ImportFields := mkFields {
  if_plugin_name : string;
  if_name : string;
  if_description : string;
  if_version : string;
  if_version_submitted : bool;
  if_tags : list string;
  if_visibility : PluginVisibility;
  if_category : option string;
  if_icon : string;
  if_changelog : option string
}.
Definition set_if_icon (v : string) (f : ImportFields) : ImportFields :=
  mkFields (if_plugin_name f) (if_name f) (if_description f) (if_version f) (if_version_submitted f)
    (if_tags f) (if_visibility f) (if_category f) v (if_changelog f).

(** The result columns, empty until the parse stored them. *)
Definition no_result : ParsedSkill := mkParsed "" None "" "" None "" "" "" None.
Definition task_result (t : TaskRow) : ParsedSkill := default no_result (t_result t).

(** The first non-blank of two. *)
Definition or_string (a b : string) : string := if String.eqb a "" then b else a.

Definition isStoredVersionLabel (old : option Plugin) (v : string) : bool :=
  match old ≫= CurrentVersion with
  | Some cur => String.eqb (TrimSpace cur) (TrimSpace v)
  | None => false
  end.

Section Importing.
Context `{JsonText} `{Host} `{Crypto} `{LibPlugin} `{EditorLibs} `{PackageLibs}.

(** One string field of a document (install.go). *)
Definition document_field (name : string) (doc : RawMessage) : string :=
  default "" (json_parse doc ≫= into_struct [name] (λ _ v s, Some (keep_string s v)) "").
Definition manifestName : RawMessage → string := document_field "name".
Definition manifestDescription : RawMessage → string := document_field "description".

(** [_ = json.Unmarshal(raw, &tags)]: other elements are left empty. *)
Definition lenient_strings (raw : RawMessage) : list string :=
  match json_parse raw with
  | Some (JArr l) => map (keep_string "") l
  | _ => []
  end.

Definition resolveImportFields (p : ImportParams) (task : TaskRow) (systemAdmin : bool) (old : option Plugin)
    : result SvcErr ImportFields :=
  let res := task_result task in
  let submitted := TrimSpace (ip_version p) in
  let oldstr (f : Plugin → string) := match old with Some q => f q | None => "" end in
  let pluginName := or_string (TrimSpace (ip_plugin_name p)) (oldstr Name) in
  let name := or_string (TrimSpace (ip_name p)) (oldstr (manifestName ∘ Manifest)) in
  let description := or_string (TrimSpace (ip_description p)) (oldstr (manifestDescription ∘ Manifest)) in
  let category := match trimOptional (ip_category p) with
                  | Some c => Some c
                  | None => old ≫= CategoryID
                  end in
  let visibility := match ip_visibility p with
                    | Some v => Some v
                    | None => if systemAdmin then None else Visibility <$> old
                    end in
  let name := or_string name (TrimSpace (ps_name res)) in
  let pluginName := or_string pluginName name in
  let description := or_string description (TrimSpace (default "" (ps_description res))) in
  let version := or_string (or_string submitted (TrimSpace (ps_version res))) "1.0.0" in
  let tags := match ip_tags p with
              | Some l => l
              | None => if String.eqb (ps_tags res) "" then [] else lenient_strings (ps_tags res)
              end in
  let visibility := default VPrivate visibility in
  if bool_decide (visibility = VPublic) then Error SErrInvalidRequest
  else if negb (validName pluginName) || String.eqb name "" || negb (validVisibility visibility systemAdmin)
  then Error SErrInvalidRequest
  else
    let given := negb (String.eqb submitted "") in
    if given && negb (validVersion version) && negb (isStoredVersionLabel old version)
    then Error (SErrField "version" "invalid")
    else
      let version := if negb given && negb (validVersion version) then defaultCurrentVersion else version in
      let visibility := match old with
                        | Some q => if systemAdmin then visibility else Visibility q
                        | None => visibility
                        end in
      Ok (mkFields pluginName name description version given tags visibility category
            (TrimSpace (ip_icon p)) (trimOptional (ip_changelog p))).

(** ** The archive *)

Context (keyPrefix : string) (maxAttachmentBytes maxArchiveBytes : Z).

Definition readVerifiedUpload (task : TaskRow) : Save string :=
  let sha := ps_sha (task_result task) in
  save_require (negb (String.eqb (t_file_url task) "" || (t_file_size task <=? 0)%Z || String.eqb sha ""))
    ErrInvalidParseTask;;
  save_require (t_file_size task <=? maxArchiveBytes)%Z ErrTooLarge;;
  body ← frozen_by (r ← storage_read keyPrefix (GetObject keyPrefix (t_file_url task)); stored r);
  let data := take (Z.to_nat (t_file_size task + 1)) body in
  save_require (blen data =? t_file_size task)%Z ErrInvalidParseTask;;
  save_require (EqualFold sha (sha256_hex data)) ErrInvalidParseTask;;
  mret data.

Definition decodeMetadata (raw : option RawMessage) : GoMap :=
  raw ≫= λ raw,
    match json_parse raw with
    | Some (JObj l) => Some (members_map (map (λ kv, (kv.1, remarshal kv.2)) l))
    | _ => None
    end.

Definition import_draft (f : ImportFields) : json :=
  of_map (list_to_map [
    ("$schema", JStr manifestSchema); ("plugin_name", JStr (if_plugin_name f)); ("plugin_type", JStr "skill");
    ("name", JStr (if_name f)); ("description", JStr (if_description f)); ("labels", tag_list (if_tags f));
    ("examples", JArr [])]).

Definition buildImportWriteRequest (f : ImportFields) (atts : list GoMap) (isUpdate : bool) : option WriteRequest :=
  tagsJSON ← canonicalJSONValue (tag_list (if_tags f));
  draftRaw ← canonicalJSONValue (import_draft f);
  '(manifest, canonicalTags) ← CanonicalizeManifest (if_plugin_name f) Skill tagsJSON draftRaw;
  let version := if isUpdate && negb (if_version_submitted f) then "" else if_version f in
  Some (mkWriteRequest None (if_plugin_name f) Skill (if_category f) canonicalTags "" (if_icon f)
          (if_visibility f) manifest (package_document atts) [] version None).

Definition rewrite_params (f : ImportFields) (pluginID : string) (task : TaskRow) : RewriteParams :=
  mkRewrite (if_name f) (if_description f) (if_version f) (if_tags f) pluginID ""
    (decodeMetadata (ps_metadata (task_result task))).

(** [requireSafeSpace]: not for the administrator's imports. *)
Definition buildImportedSkillWrite (objectSpace reservedID : string) (task : TaskRow) (f : ImportFields)
    (requireSafeSpace : bool) : Save (WriteRequest * string * list string) :=
  zipData ← readVerifiedUpload task;
  newID ← fresh_id;
  let pluginID := or_string reservedID newID in
  rewritten ← save_lift (match RewriteZipPackage zipData (rewrite_params f pluginID task) with
                         | Some r => Ok r
                         | None => Error (SErrOther "rewrite skill package")
                         end);
  save_require (negb requireSafeSpace || segment objectSpace) SErrInvalidRequest;;
  '(atts, uploaded, _, _) ←
    frozen_by (buildSkillAttachmentTree keyPrefix maxAttachmentBytes maxArchiveBytes objectSpace pluginID
                 (ZipBytes rewritten) (Some (SkillMD rewritten)) None);
  req ← save_or_undo
    (save_lift (match buildImportWriteRequest f atts (negb (String.eqb reservedID "")) with
                | Some req => Ok req
                | None => Error SErrInvalidRequest
                end))
    (frozen_by (deleteObjects keyPrefix uploaded));
  mret (req, pluginID, uploaded).

(** ** Import *)

Definition set_wr_changelog (v : option string) (r : WriteRequest) : WriteRequest :=
  mkWriteRequest (wr_expected_revision r) (wr_name r) (wr_type r) (wr_category r) (wr_tags r)
    (wr_publisher r) (wr_icon r) (wr_visibility r) (wr_manifest r) (wr_package r) (wr_relations r)
    (wr_version r) v.

Definition importConsumedTask (c : Caller) (task : TaskRow) (f : ImportFields) (updateID : string)
    (oldPlugin : option Plugin) : Save Saved :=
  let f := match oldPlugin with
           | Some q => if negb (String.eqb updateID "") && String.eqb (if_icon f) "" then set_if_icon (Icon q) f else f
           | None => f
           end in
  '(req, pluginID, uploaded) ← buildImportedSkillWrite (CSpaceID c) updateID task f true;
  let req := set_wr_changelog (if_changelog f) req in
  detail ← save_or_undo
    (if String.eqb updateID "" then createWithID keyPrefix maxAttachmentBytes maxArchiveBytes c req pluginID
     else svcUpdate keyPrefix maxAttachmentBytes maxArchiveBytes c updateID req)
    (frozen_by (deleteObjects keyPrefix uploaded));
  frozen_by (deleteObjects keyPrefix uploaded);;
  mret detail.

(** What [Import] asks of a task. *)
Definition importable (c : Caller) (t : TaskRow) : bool :=
  String.eqb (t_owner t) (CUID c) && String.eqb (t_space t) (CSpaceID c) && has_status Success t
  && String.eqb (t_skill t) "".

(** The plugin to update: the caller's own, not embedded. *)
Definition import_target (c : Caller) (pluginID : string) : Save (string * option Plugin) :=
  if String.eqb (TrimSpace pluginID) "" then mret ("", None)
  else
    updateID ← save_lift (parseStorageID pluginID);
    '(old, _) ← svc (ask (GetWithRelations (caller_scope c) updateID));
    save_require (String.eqb (OwnerUID old) (CUID c) && bool_decide (Type_ old = Skill) && negb (IsEmbedded old))
      SErrNotFound;;
    mret (updateID, Some old).

(** [taken]: the answer when another request has consumed the task. *)
Definition consume (id : string) (c : Caller) (taken : SvcErr) : Imp unit :=
  r ← task_write (λ now, MarkParseTaskConsumed now id (CUID c) (CSpaceID c) "");
  match r with
  | Some true => mret tt
  | Some false => imp_fail taken
  | None => imp_fail (SErrOther "consume parse task")
  end.
Definition release (id : string) : Imp unit :=
  task_write (λ now, ReleaseConsumedParseTask now id);; mret tt.

Definition Import (c : Caller) (p : ImportParams) : Imp Saved :=
  imp_require (is_ok (validateCaller c)) SErrInvalidRequest;;
  let id := TrimSpace (ip_task p) in
  r ← task_read (GetByID id);
  match r with
  | None => imp_fail (SErrOther "load parse task")
  | Some None => imp_fail ErrInvalidParseTask
  | Some (Some task) =>
      imp_require (importable c task) ErrInvalidParseTask;;
      '(updateID, old) ← saving (import_target c (ip_plugin p));
      fields ← saving (save_lift (resolveImportFields p task (CIsSystemAdmin c) old));
      consume id c ErrInvalidParseTask;;
      or_undo (saving (importConsumedTask c task fields updateID old)) (release id)
  end.
End Importing.

(** ** What an import moves *)

Section Moves.
Context `{JsonText} `{Host} `{Crypto} `{LibPlugin} `{EditorLibs} `{PackageLibs}.
Context (keyPrefix : string) (maxAttachmentBytes maxArchiveBytes : Z).

Lemma saves_or_undo P {A} (m : Save A) undo :
  saves keyPrefix P m → saves keyPrefix P undo → saves keyPrefix P (save_or_undo m undo).
Proof.
  intros Hm Hu e s He. specialize (Hm e s He). unfold save_or_undo. destruct (m e s) as [[a|err] s1]; [done|].
  simpl in *. destruct Hm as [Hr Hb], (Hu e s1 He) as [Hr' Hb']. by split; etrans.
Qed.

Lemma skill_saves P sp reservedID task f safe :
  saves keyPrefix P (buildImportedSkillWrite keyPrefix maxAttachmentBytes maxArchiveBytes sp reservedID task f safe).
Proof.
  unfold buildImportedSkillWrite, readVerifiedUpload. saves.
  all: try (apply saves_frozen; moves; fail).
  - apply saves_frozen, buildSkillAttachmentTree_moves.
  - apply saves_or_undo; [apply saves_lift|]. apply saves_frozen, delete_moves.
Qed.

Lemma consumed_import_saves c task f updateID old :
  saves keyPrefix any_op (importConsumedTask keyPrefix maxAttachmentBytes maxArchiveBytes c task f updateID old).
Proof.
  unfold importConsumedTask. cbv zeta. set (f' := match old with Some _ => _ | None => _ end). clearbody f'.
  apply saves_bind; [apply skill_saves|intros [[req id] up]]. apply saves_bind.
  - apply saves_or_undo; [|apply saves_frozen, delete_moves].
    destruct (String.eqb updateID ""); [by apply createWithID_saves|by apply svcUpdate_saves].
  - intros ans. apply saves_bind; [apply saves_frozen, delete_moves|saves].
Qed.
End Moves.
