(* ===== verification/Administration.v ===== *)
(** * The administrator's surface: service/plugin/admin.go and admin_import.go

    Operations that run behind the administrator's gate: in every Space and on
    every owner's rows. Listing and detail, creation under the platform's
    conventions, edits that keep the audience, the owner and the listing state of
    a row, ratings, deletion, and the import of uploaded skills; and what an
    edit leaves. Version management and references are off. *)

From S2P Require Import Prelude GoStrings Version Model Notify Objects Store Rows RowWrites Write Review Listing Changes Operations Sync Lifecycle Service Outcomes CardAction Json Documents VersionArtifacts Zip Parse ParseTasks SkillTree Reads Queries Closure Availability Grid CatalogService Editing SkillFiles Saving Importing.
From Stdlib Require Import Ascii.
Import Go.
Local Open Scope string_scope.

Definition adminGlobalSpace : string := "".

(** The administrator's identity, acting in the Space of a row. *)
Definition admin_identity (c : Caller) (spaceID : string) : Caller :=
  mkCaller (CUID c) (CName c) spaceID (CBotUID c) (CBotName c) (CRequestID c) true (CSpaceRole c).
Definition operator_of (c : Caller) : Operator := mkOperator (CUID c) (CName c) (CRequestID c) None.

(** ** Reading *)

Definition validAdminListSort (sort : string) : bool :=
  mem sort [""; "newest"; "oldest"; "updated"; "name"; "views"; "installs"; "downloads"; "comprehensive"].

Section Reading.
Context `{Host} `{Sql} (metric : string → Counters).

Definition AdminList (c : Caller) (typ : PluginType) (visibility : option PluginVisibility) (p : ListParams)
    : Svc (list PageItem * Z) :=
  svc_require (match visibility with Some v => validVisibility v true | None => true end) SErrInvalidRequest;;
  svc_require (validAdminListSort (lp_sort p)) SErrInvalidRequest;;
  svc_require (negb ((lp_limit p <? 0) || (maxListLimit <? lp_limit p) || (lp_offset p <? 0))%Z)
    SErrInvalidRequest;;
  tags ← lift (normalizeListTags (lp_tags p));
  '(items, total) ← ask (List metric (adminScope c)
    (mkFilter "" (Some typ) (lp_category p) tags (lp_keyword p) false (lp_sort p) (lp_limit p) (lp_offset p)
       true visibility false));
  page ← fillMemberCounts items;
  issues ← ask (DependencyIssues (adminScope c) (li_plugin <$> items));
  mret ((λ i, set_issues (issues (ID (li_plugin (pi_item i)))) i) <$> page, total).

Definition AdminDetail (c : Caller) (pluginID : string) (includeRelations : bool) : Svc Detail :=
  storageID ← lift (parseStorageID pluginID);
  '(p, rels) ← ask (GetWithRelations (adminScope c) storageID);
  issues ← ask (DependencyIssues (adminScope c) [p]);
  mret (mkDetail p no_review (if includeRelations then set_source_type (Type_ p) <$> rels else [])
          (issues (ID p))).
End Reading.

(** ** Writing *)

(** The audience an administrator's creation gets; [None] for an unknown type. *)
Definition conventionVisibility (typ : PluginType) : option PluginVisibility :=
  match typ with Connector | Skill | Expert | ExpertTeam => Some VSystem end.
Definition conventionType (typ : PluginType) : bool :=
  match typ with Connector | Skill | Expert | ExpertTeam => true end.

Definition set_wr_visibility (v : PluginVisibility) (r : WriteRequest) : WriteRequest :=
  mkWriteRequest (wr_expected_revision r) (wr_name r) (wr_type r) (wr_category r) (wr_tags r)
    (wr_publisher r) (wr_icon r) v (wr_manifest r) (wr_package r) (wr_relations r) (wr_version r)
    (wr_changelog r).

(** The label rules against the stored row: refused, or the label an unchanged
    request may keep ([""] without one). *)
Definition applyStoredVersionRules (req : WriteRequest) (old : option Plugin) : result SvcErr string :=
  match old ≫= CurrentVersion with
  | None => Ok ""
  | Some cur =>
      let v := TrimSpace (wr_version req) in
      if negb (String.eqb v "") && validVersion v && negb (VersionNotRegressed cur v)
      then Error SErrVersionRegressed else Ok cur
  end.

(** What an administrator's edit keeps of the row it read. *)
Definition keep_provenance (old : Plugin) (req : WriteRequest) (p : Plugin) : Plugin :=
  let '(mkPlugin id name typ emb cat tags pub _ _ vis listing _ _ _ _ icon tools _ man pkg keys mh ph pv pvid cur st
          _ upd del nk pnk ns) := p in
  mkPlugin id name typ emb cat tags (if String.eqb (TrimSpace (wr_publisher req)) "" then Publisher old else pub)
    (OwnerUID old) (SpaceID old) vis listing (CreatorName old) (CreatedByType old) (CreatedByBotUID old)
    (CreatedByBotName old) icon tools (Rating old) man pkg keys mh ph (CurrentVersionID old) pvid
    (if String.eqb (TrimSpace (wr_version req)) "" then CurrentVersion old else cur) st (CreatedAt old) upd del nk
    pnk ns.

Section Administration.
Context `{JsonText} `{Host} `{Crypto} `{LibPlugin} `{EditorLibs} `{PackageLibs}.
Context (keyPrefix : string) (maxAttachmentBytes maxArchiveBytes : Z).

(** [effectiveSpace]: the Space storage keys are named under. *)
Definition adminEffectiveWrite (c : Caller) (pluginID : string) (req : WriteRequest) (grandfathered : string)
    (visibility : PluginVisibility) (effectiveSpace : string) (resource : option Plugin)
    : Save (Plugin * list PluginRelation) :=
  save_require (conventionType (wr_type req)) SErrInvalidRequest;;
  let eff := admin_identity c effectiveSpace in
  let req := set_wr_visibility (NormalizeLegacyVisibility visibility) req in
  now ← svc clock;
  '(p, rels) ← buildWrite keyPrefix maxAttachmentBytes maxArchiveBytes eff pluginID req grandfathered now true resource;
  let p := if decide (wr_type req = Connector) then set_SpaceID None p else p in
  mret (set_ListingState Published p, rels).

(** The creation that ends AdminCreate and AdminImport, as row [id]. *)
Definition admin_insert (c : Caller) (id : string) (p : Plugin) (rels : list PluginRelation) : Save Saved :=
  let p := set_ID id p in
  let rels := source_of id <$> rels in
  let m := mkMutation None "" p rels [defaultMarketPlacement (CategoryID p)] (operator_of c) true None
             false false false false in
  r ← svc (call (Create (adminScope c) m));
  sync ← svc (mapped r);
  mret (mkSaved (if String.eqb (NewVersionID sync) "" then p else set_CurrentVersionID (Some (NewVersionID sync)) p)
          rels sync).

Definition AdminCreate (c : Caller) (req : WriteRequest) : Save Saved :=
  visibility ← save_lift (match conventionVisibility (wr_type req) with
                          | Some v => Ok v
                          | None => Error SErrInvalidRequest
                          end);
  '(p, rels) ← adminEffectiveWrite c "" req "" visibility adminGlobalSpace None;
  id ← fresh_id;
  admin_insert c id p rels.

(** The update that ends AdminUpdate and AdminImport: [m] says what else the
    mutation asks for. *)
Definition admin_update_mutation (c : Caller) (revision : option string) (p : Plugin) (rels : list PluginRelation)
    (changelog : option string) (forwardOnly : bool) : Mutation :=
  mkMutation revision "" p rels [] (operator_of c) true changelog false false false forwardOnly.

Definition admin_overwrite (c : Caller) (m : Mutation) : Save Saved :=
  r ← svc (call (Update (adminScope c) m));
  sync ← svc (mapped r);
  let p := MPlugin m in
  mret (mkSaved (if String.eqb (NewVersionID sync) "" then p else set_CurrentVersionID (Some (NewVersionID sync)) p)
          (MRelations m) sync).

(** A row of its own, not part of a container. *)
Definition admin_target (c : Caller) (pluginID : string) : Save Plugin :=
  '(old, _) ← svc (ask (GetWithRelations (adminScope c) pluginID));
  save_require (negb (IsEmbedded old)) SErrNotFound;;
  mret old.

Definition AdminUpdate (c : Caller) (pluginID : string) (req : WriteRequest) : Save Saved :=
  storageID ← save_lift (parseStorageID pluginID);
  old ← admin_target c storageID;
  save_require (bool_decide (wr_type req = Type_ old)) SErrInvalidRequest;;
  let effSpace := default adminGlobalSpace (SpaceID old) in
  let req := set_wr_package (reinjectUpdateStorageKeys (wr_package req) (Package old) (AttachmentKeys old)) req in
  grandfathered ← save_lift (applyStoredVersionRules req (Some old));
  '(p, rels) ← adminEffectiveWrite c storageID req grandfathered (Visibility old) effSpace (Some old);
  admin_overwrite c (admin_update_mutation c (wr_expected_revision req) (keep_provenance old req p)
                       (source_of storageID <$> rels) (wr_changelog req) true).

Definition AdminUpdateRating (c : Caller) (pluginID : string) (rating : option Z) : Svc Plugin :=
  storageID ← lift (parseStorageID pluginID);
  svc_require (match rating with Some n => (1 <=? n)%Z && (n <=? 5)%Z | None => true end) SErrInvalidRequest;;
  '(old, _) ← ask (GetWithRelations (adminScope c) storageID);
  svc_require (negb (IsEmbedded old)) SErrNotFound;;
  r ← call (UpdateRating (adminScope c) storageID rating (operator_of c));
  mapped r.

Definition AdminDelete (c : Caller) (pluginID : string) : Svc unit :=
  storageID ← lift (parseStorageID pluginID);
  '(old, _) ← ask (GetWithRelations (adminScope c) storageID);
  r ← (if bool_decide (Type_ old = Expert ∨ Type_ old = ExpertTeam)
       then call (DeleteGraph (adminScope c) storageID (operator_of c))
       else call (Delete (adminScope c) storageID (operator_of c)));
  mapped r.

(** ** Importing an uploaded skill *)

(** The save of a consumed upload, creating or replacing. *)
Definition admin_save_import (c : Caller) (req : WriteRequest) (pluginID updateID : string) (old : option Plugin)
    (effSpace : string) : Save Saved :=
  match old with
  | Some q =>
      grandfathered ← save_lift (applyStoredVersionRules req old);
      '(p, rels) ← adminEffectiveWrite c updateID req grandfathered (Visibility q) effSpace old;
      admin_overwrite c (admin_update_mutation c None (keep_provenance q req p) (source_of updateID <$> rels)
                           None false)
  | None =>
      '(p, rels) ← adminEffectiveWrite c "" req "" VSystem adminGlobalSpace None;
      admin_insert c pluginID p rels
  end.

(** [old] is the row to replace, under [updateID]; without one a row is created. *)
Definition adminImportConsumedTask (c : Caller) (task : TaskRow) (f : ImportFields) (updateID : string)
    (old : option Plugin) (effSpace : string) : Save Saved :=
  let f := match old with
           | Some q => if String.eqb (if_icon f) "" then set_if_icon (Icon q) f else f
           | None => f
           end in
  let objectSpace := if String.eqb updateID "" then adminGlobalSpace else effSpace in
  '(req, pluginID, uploaded) ← buildImportedSkillWrite keyPrefix maxAttachmentBytes maxArchiveBytes objectSpace
                                  updateID task f false;
  saved ← save_or_undo (admin_save_import c req pluginID updateID old effSpace)
            (frozen_by (deleteObjects keyPrefix uploaded));
  frozen_by (deleteObjects keyPrefix uploaded);;
  mret saved.

Definition admin_importable (c : Caller) (t : TaskRow) : bool :=
  String.eqb (t_owner t) (CUID c) && has_status Success t && String.eqb (t_skill t) "".

Definition admin_import_target (c : Caller) (pluginID : string) : Save (string * option Plugin) :=
  if String.eqb (TrimSpace pluginID) "" then mret ("", None)
  else
    updateID ← save_lift (parseStorageID pluginID);
    '(old, _) ← svc (ask (GetWithRelations (adminScope c) updateID));
    save_require (bool_decide (Type_ old = Skill)) SErrNotFound;;
    save_require (negb (IsEmbedded old)) SErrNotFound;;
    mret (updateID, Some old).

Definition set_ip_visibility (v : option PluginVisibility) (p : ImportParams) : ImportParams :=
  mkImport (ip_task p) (ip_plugin p) (ip_plugin_name p) (ip_name p) (ip_description p) (ip_category p) (ip_tags p)
    v (ip_icon p) (ip_version p) (ip_changelog p).

Definition AdminImport (c : Caller) (p : ImportParams) : Imp Saved :=
  imp_require (negb (String.eqb (TrimSpace (CUID c)) "")) SErrInvalidRequest;;
  let id := TrimSpace (ip_task p) in
  r ← task_read (GetByID id);
  match r with
  | None => imp_fail (SErrOther "load parse task")
  | Some None => imp_fail ErrInvalidParseTask
  | Some (Some task) =>
      imp_require (admin_importable c task) ErrInvalidParseTask;;
      '(updateID, old) ← saving (admin_import_target c (ip_plugin p));
      let effSpace := default adminGlobalSpace (old ≫= SpaceID) in
      fields ← saving (save_lift (resolveImportFields (set_ip_visibility None p) task true old));
      consume id c ErrInvalidParseTask;;
      or_undo (saving (adminImportConsumedTask c task fields updateID old effSpace)) (release id)
  end.
End Administration.

(** ** What an administrator's edit leaves *)

Section Edits.
Context `{JsonLaws} `{CryptoLaws} `{LibPlugin} `{EditorLibs}.
Context (keyPrefix : string) (maxAttachmentBytes maxArchiveBytes : Z).
Hypothesis limits : (0 ≤ maxAttachmentBytes ∧ 0 ≤ maxArchiveBytes)%Z.

(** The row as edited: the request, on the documents as frozen; an empty
    publisher keeps the one of the row [old]. *)
Definition holds_edit (old : Plugin) (req : WriteRequest) (docs : CanonicalDocuments) (p : Plugin) : Prop :=
  Name p = TrimSpace (wr_name req) ∧ Type_ p = wr_type req
  ∧ Manifest p = d_manifest docs ∧ Package p = d_package docs ∧ Tags p = d_tags docs
  ∧ AttachmentKeys p = d_attachment_keys docs ∧ ManifestHash p = d_manifest_hash docs
  ∧ PluginHash p = d_plugin_hash docs ∧ CategoryID p = trimOptional (wr_category req)
  ∧ Icon p = TrimSpace (wr_icon req)
  ∧ Publisher p = or_string (TrimSpace (wr_publisher req)) (Publisher old) ∧ DeletedAt p = None.

(** What an edit may not move: whose the row is, where, and whether it is
    offered. *)
Definition same_standing (before p : Plugin) : Prop :=
  OwnerUID p = OwnerUID before ∧ SpaceID p = SpaceID before ∧ IsEmbedded p = IsEmbedded before
  ∧ ListingState p = ListingState before.

Lemma admin_effective_ok c id req g vis sp resource e s p rels s' :
  adminEffectiveWrite keyPrefix maxAttachmentBytes maxArchiveBytes c id req g vis sp resource e s = (Ok (p, rels), s') →
  let req' := set_wr_visibility (NormalizeLegacyVisibility vis) req in
  ∃ now s1 q, buildWrite keyPrefix maxAttachmentBytes maxArchiveBytes (admin_identity c sp) id req' g now true resource e s1
      = (Ok (q, rels), s')
    ∧ p = set_ListingState Published (if decide (wr_type req = Connector) then set_SpaceID None q else q)
    ∧ runs_of any_op (tables (sv_svc s)) (tables (sv_svc s')).
Proof.
  unfold adminEffectiveWrite. intros Hrun.
  apply save_bind_ok in Hrun as (? & ? & [_ ->]%save_require_ok & Hrun). cbv zeta in Hrun.
  apply save_bind_ok in Hrun as (now & s1 & Hclock & Hrun).
  apply (part_runs keyPrefix) in Hclock as Rc; [|intros P; saves].
  apply save_bind_ok in Hrun as ([q l] & s2 & Hbuild & [[= -> ->] ->]%save_ret_ok).
  exists now, s1, q. split; [exact Hbuild|]. split; [done|].
  apply (part_runs keyPrefix) in Hbuild; [|intros P; apply buildWrite_saves]. by etrans.
Qed.

Lemma admin_target_ok c id e s old s' :
  admin_target c id e s = (Ok old, s') →
  IsEmbedded old = false ∧ ∃ rels, seen (adminScope c) id (tables (sv_svc s)) (tables (sv_svc s')) old rels.
Proof.
  unfold admin_target. intros ([q rels] & s1 & [Hask%detail_seen _]%svc_ok & Hrun)%save_bind_ok.
  apply save_bind_ok in Hrun as (? & ? & [He%negb_true_iff ->]%save_require_ok & [-> ->]%save_ret_ok). by eauto.
Qed.

Lemma overwrite_ok c m e s ans s' :
  admin_overwrite c m e s = (Ok ans, s') →
  ∃ d te sync, runs_of any_op (tables (sv_svc s)) d ∧ Update (adminScope c) m te d = (Ok sync, tables (sv_svc s'))
    ∧ sv_fz s' = sv_fz s.
Proof.
  unfold admin_overwrite. intros (r & s1 & [Hcall Hfz]%svc_ok & Hrun)%save_bind_ok.
  apply save_bind_ok in Hrun as (sync & s2 & [Hm Hfz']%svc_ok & [_ ->]%save_ret_ok).
  unfold call in Hcall. destruct (Update _ _ _ _) as [r' d'] eqn:HU in Hcall. injection Hcall as -> Hs1.
  unfold mapped, lift in Hm. destruct r as [sync'|]; [|done]. injection Hm as -> Hs2.
  eexists _, _, sync. split; [apply others_runs, (polite_any (sv_env e))|]. split; [|congruence].
  refine (eq_trans HU _). by rewrite <-Hs2, <-Hs1.
Qed.

(** The row that is written is the request's, but for what it keeps. *)
Lemma edited_holds c id req sp vis now old docs docs' cv reset m before p' :
  let q := with_documents docs' (plugin_row (admin_identity c sp) id (set_wr_visibility vis req) now (Some old) docs cv) in
  d_manifest docs' = d_manifest docs → d_tags docs' = d_tags docs → d_manifest_hash docs' = d_manifest_hash docs →
  MPlugin m = keep_provenance old req
    (set_ListingState Published (if decide (wr_type req = Connector) then set_SpaceID None q else q)) →
  reset = false → saved_as m reset before p' →
  holds_edit old req docs' p' ∧ same_standing before p' ∧ Visibility p' = vis.
Proof.
  intros q Hm Ht Hmh Hp -> Hs. unfold saved_as, content_view in Hs. cbv zeta in Hs. rewrite Hp in Hs. clear Hp.
  unfold q, plugin_row in Hs. destruct (provenance (admin_identity c sp)) as [[createdBy botUID] botName].
  unfold holds_edit, same_standing, or_string. rewrite Hm, Ht, Hmh.
  destruct (decide (wr_type req = Connector)); simpl in Hs; injection Hs; intros;
    (split; [split_and!; congruence|]); split; [|congruence| |congruence]; split_and!; congruence.
Qed.

(** The row written keeps its identifier and carries the label submitted. *)
Lemma edit_id c id req vis now old docs docs' cv req1 :
  let q := with_documents docs' (plugin_row c id (set_wr_visibility vis req) now (Some old) docs cv) in
  ID (keep_provenance old req1 (set_ListingState Published (if decide (wr_type req = Connector) then set_SpaceID None q else q))) = id.
Proof. unfold plugin_row. destruct (provenance c) as [[? ?] ?]. by destruct (decide _). Qed.

Lemma edit_label c id req vis now old docs docs' cv :
  let q := with_documents docs' (plugin_row c id (set_wr_visibility vis req) now (Some old) docs cv) in
  TrimSpace (wr_version req) ≠ "" → cv = (if String.eqb (TrimSpace (wr_version req)) "" then defaultCurrentVersion else TrimSpace (wr_version req)) →
  CurrentVersion (keep_provenance old req (set_ListingState Published (if decide (wr_type req = Connector) then set_SpaceID None q else q)))
  = Some (TrimSpace (wr_version req)).
Proof.
  intros q Hv%String.eqb_neq ->. unfold q, plugin_row. destruct (provenance c) as [[? ?] ?].
  destruct (decide _); simpl; by rewrite !Hv.
Qed.

Lemma requested_sources id l rels :
  Forall2 requested_edge l rels → Forall2 requested_edge l (source_of id <$> rels).
Proof. intros Hl. rewrite <-(list_fmap_id l) at 1. by apply Forall2_fmap_2, (Forall2_impl _ _ _ _ Hl). Qed.

End Edits.

