(* ===== verification/Uploads.v ===== *)
(** * What an upload becomes, and what a download gives back

    The attachments built from an archive, through the canonical documents, the
    freezing and the saved row, to the archive a reader downloads: the files
    are those of the upload. *)

From S2P Require Import Prelude GoStrings Version Model Notify Objects Store Rows RowWrites Write Review Changes Operations Lifecycle Service Outcomes CardAction Json Documents VersionArtifacts Zip Parse ParseTasks SkillTree Queries CatalogService Editing SkillFiles Saving Importing.
From Stdlib Require Import Ascii.
Import Go.
Local Open Scope string_scope.

(** ** Numbers in documents *)

Lemma digit_char x : (x < 10)%N → is_digit (pretty_N_char x) = true ∧ digit_value (pretty_N_char x) = Z.of_N x.
Proof.
  intros Hx. assert (x = 0 ∨ x = 1 ∨ x = 2 ∨ x = 3 ∨ x = 4 ∨ x = 5 ∨ x = 6 ∨ x = 7 ∨ x = 8 ∨ x = 9)%N as Hc by lia.
  naive_solver.
Qed.

Lemma parse_pretty_go x s :
  (Z.of_N x ≤ max_uint64)%Z → parse_digits 0 (pretty_N_go x s) = parse_digits (Z.of_N x) s.
Proof.
  revert s. induction (N.lt_wf_0 x) as [x _ IH]; intros s Hx.
  assert (x = 0 ∨ 0 < x)%N as [->|Hp] by lia; [done|].
  rewrite pretty_N_go_step by done. rewrite IH.
  - destruct (digit_char (x `mod` 10)) as [Hd Hv]; [by apply N.mod_lt|]. simpl. rewrite Hd, Hv.
    pose proof (N.div_mod x 10 ltac:(done)).
    assert (Z.of_N (x `div` 10) * 10 + Z.of_N (x `mod` 10) = Z.of_N x)%Z as -> by lia.
    by apply Z.leb_le in Hx as ->.
  - by apply N.div_lt.
  - pose proof (N.div_lt x 10 Hp eq_refl). lia.
Qed.

Lemma pretty_first x : (0 < x)%N → ∃ y s, (y < 10)%N ∧ pretty_N_go x "" = String (pretty_N_char y) s.
Proof.
  intros Hx. assert (∀ s, ∃ y s', (y < 10)%N ∧ pretty_N_go x s = String (pretty_N_char y) s') as H; [|apply H].
  revert Hx. induction (N.lt_wf_0 x) as [x _ IH]; intros Hx s. rewrite pretty_N_go_step by done.
  destruct (N.eq_0_gt_0_cases (x `div` 10)) as [->|Hp].
  - rewrite pretty_N_go_0. eexists _, _. split; [|done]. by apply N.mod_lt.
  - apply IH; [by apply N.div_lt|done].
Qed.

(** A size printed is the size read back. *)
Lemma ParseInt_pretty n : (0 ≤ n ≤ max_int64)%Z → ParseInt (pretty n) = Some n.
Proof.
  intros Hn. destruct n as [|x|x]; [done| |lia].
  change (pretty (Z.pos x)) with (pretty (N.pos x)). unfold pretty, pretty_N. rewrite decide_False by done.
  pose proof (parse_pretty_go (N.pos x) "") as Hp. unfold max_int64, max_uint64 in *. specialize (Hp ltac:(simpl; lia)).
  destruct (pretty_first (N.pos x)) as (y & s & Hy & E); [done|]. rewrite E in *.
  destruct (digit_char y Hy) as [Hd _]. unfold ParseInt.
  destruct (Ascii.eqb_spec (pretty_N_char y) "-") as [Ec|]; [by rewrite Ec in Hd|].
  destruct (Ascii.eqb_spec (pretty_N_char y) "+") as [Ec|]; [by rewrite Ec in Hd|].
  unfold ParseUint. rewrite Hp. cbn [parse_digits Z.of_N]. unfold max_int64. by destruct (Z.leb_spec (Z.pos x) (2 ^ 63 - 1)); [|lia].
Qed.

(** ** ASCII text *)

Lemma lower_ascii c : ascii7 c = true → ascii7 (lower c) = true.
Proof. destruct c as [[] [] [] [] [] [] [] []]; by vm_compute. Qed.

Lemma ToLower_ascii s : all_bytes ascii7 s = true → all_bytes ascii7 (ToLower s) = true.
Proof.
  unfold ToLower. induction s as [|c s IH]; [done|]. cbn [all_bytes]. intros [Hc Hs]%andb_true_iff.
  rewrite Runes_step by done. rewrite rune_size_ascii by done. unfold first_rune, well_formed.
  rewrite rune_size_ascii by done. unfold ascii7 in Hc. rewrite Hc. simpl.
  rewrite (lower_ascii c Hc). by apply IH.
Qed.

Lemma segment_ascii s : segment s = true → all_bytes ascii7 s = true.
Proof.
  assert (∀ c, segment_byte c = true → ascii7 c = true) as Hseg by (intros [[] [] [] [] [] [] [] []]; by vm_compute).
  destruct s as [|c s]; [done|]. simpl. intros [[Hc _]%andb_true_iff Hs]%andb_true_iff.
  rewrite (Hseg c) by (unfold segment_byte; by rewrite Hc). by apply (all_bytes_impl _ _ _ Hseg).
Qed.

Lemma hex_ascii s : digest64 s = true → all_bytes ascii7 s = true.
Proof.
  unfold digest64. intros [_ Hs]%andb_true_iff. revert Hs. apply all_bytes_impl.
  intros [[] [] [] [] [] [] [] []]; by vm_compute.
Qed.

Lemma Ext_safe s : safeExtension (Ext s) = true → all_bytes ascii7 (Ext s) = true.
Proof. apply all_bytes_impl. intros [[] [] [] [] [] [] [] []]; by vm_compute. Qed.

Lemma mime_ascii p t : all_bytes ascii7 (attachmentMIME p t) = true.
Proof.
  unfold attachmentMIME. destruct (EqualFold _ _); [done|]. destruct (List.find _ extMIME) as [[k v]|] eqn:E.
  - apply List.find_some in E as [Hin _]. revert k v Hin.
    assert (Forall (λ kv, all_bytes ascii7 kv.2 = true) extMIME) as Hall by by repeat constructor.
    rewrite Forall_forall in Hall. intros k v Hin. apply (Hall (k, v)). by apply list_elem_of_In.
  - by destruct t.
Qed.

(** ** The attachments of an archive *)

Section Attachments.
Context `{Crypto}.

Definition decodes (a : GoMap) (v : AttView) : Prop := into_view view_fields zero_view (of_fields a) = Some v.

Lemma decodes_view a v : decodes a v → view a = v.
Proof. intros Hd. unfold view. by rewrite Hd. Qed.

(** The value of an attachment from its members in the order of their keys. *)
Lemma of_members m l : merge_sort key_le (map_to_list m) = l → of_fields (Some m) = JObj l.
Proof. by intros <-. Qed.

Lemma raw_members path mime content :
  of_fields (raw_attachment path mime content)
  = JObj [("content_type", JStr "raw"); ("mime_type", JStr mime); ("path", JStr path); ("raw_content", JStr content)].
Proof. by apply of_members. Qed.
Lemma storage_members path mime key content :
  of_fields (storage_attachment path mime key content)
  = JObj [("content_hash", JStr ("sha256:" ++ sha256_hex content)); ("content_size", JNum (pretty (blen content)));
      ("content_type", JStr "storage"); ("mime_type", JStr mime); ("path", JStr path); ("storage_uri", JStr key)].
Proof.
  unfold storage_attachment. generalize ("sha256:" ++ sha256_hex content), (pretty (blen content)).
  intros digest num. by apply of_members.
Qed.
(** A storage attachment without its key. *)
Lemma stripped_members path mime key content :
  of_fields (drop_uri (storage_attachment path mime key content))
  = JObj [("content_hash", JStr ("sha256:" ++ sha256_hex content)); ("content_size", JNum (pretty (blen content)));
      ("content_type", JStr "storage"); ("mime_type", JStr mime); ("path", JStr path)].
Proof.
  unfold storage_attachment, drop_uri. cbn [fmap option_fmap option_map].
  generalize ("sha256:" ++ sha256_hex content), (pretty (blen content)). intros digest num. by apply of_members.
Qed.

Definition stored_view (path key content : string) : AttView :=
  mkView path "storage" "" key (blen content) ("sha256:" ++ sha256_hex content).

Lemma decode_raw path mime content :
  decodes (raw_attachment path mime content) (mkView path "raw" content "" 0 "").
Proof. unfold decodes. by rewrite raw_members. Qed.
Lemma decode_storage path mime key content :
  (blen content ≤ max_int64)%Z → decodes (storage_attachment path mime key content) (stored_view path key content).
Proof.
  intros Hn. pose proof (ParseInt_pretty (blen content) (conj (blen_nonneg content) Hn)) as Hp.
  unfold decodes, stored_view. rewrite storage_members. revert Hp.
  generalize ("sha256:" ++ sha256_hex content), (pretty (blen content)). intros digest num Hp.
  lazy -[ParseInt blen]. by rewrite Hp.
Qed.
Lemma decode_stripped path mime key content :
  (blen content ≤ max_int64)%Z →
  decodes (drop_uri (storage_attachment path mime key content)) (stored_view path "" content).
Proof.
  intros Hn. pose proof (ParseInt_pretty (blen content) (conj (blen_nonneg content) Hn)) as Hp.
  unfold decodes, stored_view. rewrite stripped_members. revert Hp.
  generalize ("sha256:" ++ sha256_hex content), (pretty (blen content)). intros digest num Hp.
  lazy -[ParseInt blen]. by rewrite Hp.
Qed.
End Attachments.

(** *** They are valid documents *)

(** What [tree_items] makes. *)
Definition item_ok (it : item) : Prop :=
  Valid (it_path it) = true ∧ (it_text it = true → Valid (it_bytes it) = true)
  ∧ (it_md it = true → it_text it = true) ∧ (it_md it = false → blen (it_bytes it) < 2 ^ 53)%Z.

Section Documents.
Context `{CryptoLaws}.

Lemma key_ascii sp id path content :
  segment sp = true → all_bytes ascii7 id = true →
  all_bytes ascii7 (deterministicSkillObjectKey sp id path content) = true.
Proof.
  intros Hsp Hid. unfold deterministicSkillObjectKey, approvedAttachmentPrefix.
  rewrite !all_bytes_append, (segment_ascii _ Hsp), Hid.
  rewrite (all_bytes_take ascii7) by apply hex_ascii, sha256_digest. simpl.
  destruct (_ && safeExtension _) eqn:E; [|done]. apply andb_true_iff in E as [_ E]. by apply ToLower_ascii, Ext_safe.
Qed.

Lemma attachment_good sp id inl it :
  segment sp = true ∨ inl = true → all_bytes ascii7 id = true →
  item_ok it → (inl = true → it_text it = true) → good (attachment_of sp id inl it).
Proof.
  intros Hsp Hid (Hp & Ht & _) Hi. unfold attachment_of. pose proof (mime_ascii (it_path it) (it_text it)) as Hm%Valid_ascii.
  destruct inl; unfold raw_attachment, storage_attachment; simpl; repeat apply map_Forall_insert_2;
    try apply map_Forall_empty; try done; simpl; auto.
  - split; [done|]. apply Valid_ascii. rewrite all_bytes_append. by rewrite (hex_ascii _ (sha256_digest _)).
  - split; [done|]. destruct Hsp; [|done]. by apply Valid_ascii, key_ascii.
Qed.

Lemma inlined_text budget it : inlined budget it = true → it_text it = true.
Proof. by intros [? _]%andb_true_iff. Qed.

Lemma is_storage_of sp id inl it : is_storage (attachment_of sp id inl it) = negb inl.
Proof. by destruct inl. Qed.

Lemma attachments_good_of sp id budget items :
  (existsb is_storage (attachments_of sp id budget items) = true → segment sp = true) →
  all_bytes ascii7 id = true → Forall item_ok items → Forall good (attachments_of sp id budget items).
Proof.
  intros Hsp Hid Hall. revert budget Hsp. induction Hall as [|it items Hit _ IH]; intros budget Hsp; [constructor|].
  cbn [attachments_of existsb] in *. rewrite is_storage_of in Hsp.
  apply Forall_cons. destruct (inlined budget it) eqn:E; (split; [|apply IH; simpl in Hsp; auto]).
  - apply attachment_good; [by right|done|done|]. intros _. by eapply inlined_text.
  - apply attachment_good; [left; auto|done|done|done].
Qed.
End Documents.

(** ** The stored package *)

(** Values whose canonical form has one spelling: sorted ASCII keys, small whole
    numbers. *)
Fixpoint increasing (keys : list string) : bool :=
  match keys with
  | a :: (b :: _) as rest => String.ltb a b && increasing rest
  | _ => true
  end.
Fixpoint plain (v : json) : bool :=
  match v with
  | JNum s => match ParseInt s with
              | Some n => (0 <=? n)%Z && (n <? 2 ^ 53)%Z && String.eqb (pretty n) s
              | None => false
              end
  | JStr s => Valid s
  | JArr l => forallb plain l
  | JObj l => increasing (l.*1) && forallb (λ kv, all_bytes ascii7 kv.1 && plain kv.2) l
  | _ => true
  end.

(** octo-plugin-lib: the canonical form of a document has its value, and an
    accepted package names each path once. *)
Class LibLaws `{LibPlugin, JsonText} := {
  canonical_value v c : plain v = true → CanonicalJSON (json_print v) = Some c → json_parse c = Some v;
  package_paths typ pkg atts :
    DecodePackage typ pkg = true → package_attachments pkg = Some atts →
    NoDup ((λ a, string_field a "path") <$> atts)
}.

Definition package_value (atts : list GoMap) : json :=
  JObj [("$schema", JStr packageSchema); ("attachments", JArr (of_fields <$> atts))].
Definition package_fields (atts : list GoMap) : gmap string json :=
  <["attachments" := JArr (of_fields <$> atts)]> {["$schema" := JStr packageSchema]}.

Section Packages.
Context `{JsonLaws}.

Lemma package_document_value atts : atts ≠ [] → package_document atts = json_print (package_value atts).
Proof. destruct atts; [done|]. intros _. reflexivity. Qed.

Lemma package_value_text atts : Forall good atts → text_ok (package_value atts) = true.
Proof.
  intros Hg. apply of_list_text in Hg. unfold package_value.
  assert (∀ k1 v1 k2 l, Valid k1 = true → Valid v1 = true → Valid k2 = true → text_ok (JArr l) = true →
    text_ok (JObj [(k1, JStr v1); (k2, JArr l)]) = true) as Hobj.
  { intros k1 v1 k2 l H1' H2' H3' H4'. cbn [text_ok forallb fst snd] in *. by rewrite H1', H2', H3', H4'. }
  by apply Hobj; [vm_compute; reflexivity..|].
Qed.

Lemma package_parse atts : atts ≠ [] → Forall good atts →
  json_parse (package_document atts) = Some (package_value atts).
Proof. intros Hn Hg. rewrite package_document_value by done. by apply parse_print, package_value_text. Qed.

Lemma value_fields raw atts : json_parse raw = Some (package_value atts) →
  parsed_fields raw = Some (Some (package_fields atts)) ∧ package_attachments raw = Some atts.
Proof.
  intros Hp. assert (parsed_fields raw = Some (Some (package_fields atts))) as Hf.
  { unfold parsed_fields. rewrite Hp. reflexivity. }
  split; [done|]. unfold package_attachments. rewrite Hf. exact (as_maps_of atts).
Qed.

Lemma split_package atts allows pkg keys :
  atts ≠ [] → Forall good atts →
  splitStorageKeysScoped (package_document atts) allows = Some (pkg, keys) →
  pkg = package_document (strip_key <$> atts) ∧ attachmentKeyMap keys = foldl note_key ∅ atts
  ∧ forallb (key_allowed allows) atts = true.
Proof.
  intros Hn Hg. destruct (value_fields _ _ (package_parse atts Hn Hg)) as [Hf _].
  unfold splitStorageKeysScoped. rewrite Hf. cbn [mbind option_bind]. 
  change (field (Some (package_fields atts)) "attachments") with (Some (JArr (of_fields <$> atts))).
  cbn iota. rewrite as_maps_of. cbn [mbind option_bind]. rewrite strip_keys_eq.
  destruct (forallb _ atts); [|done]. cbn [mbind option_bind].
  destruct (existsb is_storage atts) eqn:Hs.
  - intros [= <- <-]. split_and!; [|by apply attachmentKeyMap_print, add_keys_good|done].
    rewrite package_document_value by by destruct atts. reflexivity.
  - intros [= <- <-]. rewrite strip_none, add_keys_none by done. done.
Qed.
End Packages.

Section Canonical.
Context `{JsonLaws} `{CryptoLaws} `{!LibPlugin} `{!LibLaws}.

Lemma plain_string k s : all_bytes ascii7 k = true → Valid s = true → all_bytes ascii7 k && plain (JStr s) = true.
Proof. intros Hk Hs. apply andb_true_iff. split; [exact Hk|exact Hs]. Qed.

Lemma plain_raw path mime content :
  Valid path = true → Valid mime = true → Valid content = true →
  plain (of_fields (raw_attachment path mime content)) = true.
Proof.
  intros Hp Hm Hc. rewrite raw_members.
  cbn [plain]. apply andb_true_iff. split; [reflexivity|].
  cbn [forallb fst snd]. by rewrite !plain_string.
Qed.

Lemma plain_stripped path mime key content :
  Valid path = true → Valid mime = true → (blen content < 2 ^ 53)%Z →
  plain (of_fields (drop_uri (storage_attachment path mime key content))) = true.
Proof.
  intros Hp Hm Hn. pose proof (blen_nonneg content) as H0'.
  assert (plain (JNum (pretty (blen content))) = true) as Hnum.
  { cbn [plain]. rewrite ParseInt_pretty by (unfold max_int64; lia). rewrite String.eqb_refl.
    apply Z.leb_le in H0' as ->. by apply Z.ltb_lt in Hn as ->. }
  assert (Valid ("sha256:" ++ sha256_hex content) = true) as Hd.
  { apply Valid_ascii. rewrite all_bytes_append. by rewrite (hex_ascii _ (sha256_digest _)). }
  rewrite stripped_members. revert Hnum Hd. generalize ("sha256:" ++ sha256_hex content), (pretty (blen content)).
  intros digest num Hnum Hd.
  cbn [plain]. apply andb_true_iff. split; [reflexivity|].
  cbn [forallb fst snd]. by rewrite Hnum, !plain_string.
Qed.

Lemma plain_package atts : Forall (λ a, plain (of_fields a) = true) atts → plain (package_value atts) = true.
Proof.
  intros Hall. cbn [plain package_value]. apply andb_true_iff. split; [reflexivity|].
  cbn [forallb fst snd]. rewrite plain_string by (vm_compute; reflexivity).
  assert (plain (JArr (of_fields <$> atts)) = true) as ->; [|done].
  cbn [plain]. rewrite forallb_forall. intros v (a & -> & Ha)%list_elem_of_In%list_elem_of_fmap.
  rewrite Forall_forall in Hall. by apply Hall.
Qed.

(** A file that is not inlined is not SKILL.md, so it is small. *)
Lemma spilled_small budget it : item_ok it → inlined budget it = false → (blen (it_bytes it) < 2 ^ 53)%Z.
Proof.
  intros (_ & _ & Hmd & Hs) Hi. apply Hs. destruct (it_md it) eqn:E; [|done]. unfold inlined in Hi.
  rewrite E, (Hmd eq_refl) in Hi. done.
Qed.

Lemma stripped_plain sp id budget items :
  Forall item_ok items → Forall (λ a, plain (of_fields a) = true) (strip_key <$> attachments_of sp id budget items).
Proof.
  intros Hok. revert budget. induction Hok as [|it items Hit _ IH]; intros budget; [by apply Forall_nil|].
  cbn [attachments_of]. rewrite fmap_cons. apply Forall_cons. split; [|by apply IH].
  pose proof (Valid_ascii _ (mime_ascii (it_path it) (it_text it))). unfold strip_key. rewrite is_storage_of.
  pose proof Hit as (Hp & Ht & _). destruct (inlined budget it) eqn:E; simpl negb; cbn iota.
  - apply plain_raw; [done|done|]. apply Ht. by eapply inlined_text.
  - apply plain_stripped; [done|done|]. by eapply spilled_small.
Qed.

(** The canonical package has the attachments without their keys, and the
    sidecar the keys. *)
Lemma canonical_package name tags manifest atts sp trust resources docs :
  atts ≠ [] → Forall good atts → Forall (λ a, plain (of_fields a) = true) (strip_key <$> atts) →
  canonicalizeDocuments name Skill tags manifest (package_document atts) sp trust resources = Some docs →
  json_parse (d_package docs) = Some (package_value (strip_key <$> atts))
  ∧ attachmentKeyMap (d_attachment_keys docs) = foldl note_key ∅ atts
  ∧ NoDup ((λ a, string_field a "path") <$> (strip_key <$> atts)).
Proof.
  intros Hn Hg Hpl. unfold canonicalizeDocuments.
  destruct (CanonicalizeManifest _ _ _ _) as [[m t]|]; [|done]. cbn [mbind option_bind].
  destruct (sized _); [|done]. cbn [negb].
  destruct (splitStorageKeysScoped _ _) as [[pkg keys]|] eqn:Es; [|done]. cbn [mbind option_bind].
  apply split_package in Es as (-> & Hk & _); [|done..].
  destruct (CanonicalJSON _) as [p|] eqn:Ec; [|done]. cbn [mbind option_bind].
  destruct (DecodePackage Skill p) eqn:Ed; [|done]. cbn [negb].
  destruct (_ && _); [done|]. destruct (ComputePluginHash _ _); [|done]. intros [= <-]. cbn [d_package d_attachment_keys].
  rewrite package_document_value in Ec by by destruct atts.
  apply canonical_value in Ec; [|by apply plain_package]. split_and!; [done|done|].
  eapply package_paths; [exact Ed|]. by apply value_fields.
Qed.
End Canonical.

(** ** Freezing a package without pointers *)

Section Freezing.
Context `{JsonLaws} `{CryptoLaws} `{!LibPlugin}.
Context (keyPrefix : string) (maxAttachmentBytes maxArchiveBytes : Z).
Hypothesis limits : (0 ≤ maxAttachmentBytes ∧ 0 ≤ maxArchiveBytes)%Z.

(** The digest a key is named by. *)
Definition named (spaceID : string) (resources : list (option Plugin)) (key digest : string) : Prop :=
  ∃ hash, digest64 hash = true ∧ digest = "sha256:" ++ hash
    ∧ key = freeze_prefix spaceID resources ++ "versions/" ++ hash ∧ freeze_prefix spaceID resources ≠ ""
    ∧ ∃ source, artifactWriteScope spaceID resources source = true.

Lemma freeze_names spaceID resources key limit e s frozen n digest s' :
  freeze keyPrefix maxArchiveBytes spaceID resources key limit e s = (Ok (frozen, n, digest), s') →
  named spaceID resources frozen digest.
Proof.
  unfold freeze. destruct (freezeArtifact _ _ _ _ _ _ _ _ _) as [[r total] b] eqn:E. intros [= -> _].
  unfold freezeArtifact in E. destruct (artifactWriteScope spaceID resources key) eqn:Es; [|done].
  destruct (String.eqb_spec (freeze_prefix spaceID resources) "") as [Ep|];
    [repeat case_match; simplify_eq/=; done|].
  repeat case_match; simplify_eq/=; eexists; (split; [apply sha256_digest|]); split_and!; eauto.
Qed.

(** The keys of the storage attachments are named by their digests. *)
Definition named_keys (spaceID : string) (resources : list (option Plugin)) (atts : list GoMap)
    (keys : gmap string string) : Prop :=
  ∀ p v, last_at atts p = Some v → ∃ key, keys !! p = Some key ∧ named spaceID resources key (v_content_hash v).

Lemma storage_step_named spaceID resources a keys e s keys' s' :
  storage_step keyPrefix maxAttachmentBytes maxArchiveBytes spaceID resources a keys e s = (Ok keys', s') →
  (∀ p, String.eqb (v_content_type a) "storage" && String.eqb (v_path a) p = false → keys' !! p = keys !! p)
  ∧ (String.eqb (v_content_type a) "storage" = true → ∃ key,
      keys' !! v_path a = Some key ∧ named spaceID resources key (v_content_hash a)).
Proof.
  unfold storage_step. destruct (String.eqb (v_content_type a) "storage"); [|by intros [-> _]%fz_ret_ok].
  intros ([[frozen n] digest] & s1 & Hf & Hrun)%fz_bind_ok. apply freeze_names in Hf.
  apply fz_bind_ok in Hrun as (u1 & s3 & [Hc ->]%fz_require_ok & [-> _]%fz_ret_ok).
  apply andb_true_iff in Hc as [_ Hc%String.eqb_eq]. rewrite Hc. split.
  - intros p Hne%String.eqb_neq. by rewrite lookup_insert_ne.
  - intros _. exists frozen. by rewrite lookup_insert_eq.
Qed.

Lemma freeze_attachments_named spaceID resources atts keys e s atts' keys' ch' s' :
  Forall (λ a, is_pointer (view a) = false) atts →
  freeze_attachments keyPrefix maxAttachmentBytes maxArchiveBytes spaceID resources atts keys false e s
    = (Ok (atts', keys', ch'), s') →
  atts' = atts ∧ ch' = false ∧ named_keys spaceID resources atts keys'
  ∧ (∀ p, last_at atts p = None → keys' !! p = keys !! p).
Proof.
  intros Hall. revert keys s atts' keys' ch'. induction Hall as [|a atts Ha _ IH]; intros keys s atts' keys' ch' Hrun.
  { injection Hrun as <- <- <- _. by split_and!. }
  simpl in Hrun. apply fz_bind_ok in Hrun as (v & s0 & [Hv ->]%fz_lift_ok & Hrun).
  assert (v = view a) as -> by (unfold view; by rewrite Hv).
  apply fz_bind_ok in Hrun as (k1 & s1 & Hst & Hrun).
  fold (storage_step keyPrefix maxAttachmentBytes maxArchiveBytes spaceID resources (view a) keys) in Hst.
  apply storage_step_named in Hst as (Hother & Hst). unfold is_pointer in Ha. rewrite Ha in Hrun.
  apply fz_bind_ok in Hrun as ([a' ch1] & s2 & [[= -> ->] ->]%fz_ret_ok & Hrun).
  apply fz_bind_ok in Hrun as ([[rest k2] ch2] & s3 & Hrest & [[= -> -> ->] ->]%fz_ret_ok).
  apply IH in Hrest as (-> & -> & Hn & Hk). split_and!; [done|done| |].
  - intros p w. simpl. destruct (last_at atts p) as [w'|] eqn:Hw; [intros [= <-]; by apply Hn|].
    destruct (String.eqb (v_content_type (view a)) "storage"); simpl; [|done].
    destruct (String.eqb_spec (v_path (view a)) p) as [<-|]; [|done]. intros [= <-].
    rewrite Hk by done. by apply Hst.
  - intros p. cbn [last_at]. destruct (last_at atts p) eqn:Hw; [done|]. rewrite Hk by done.
    destruct (String.eqb (v_content_type (view a)) "storage" && String.eqb (v_path (view a)) p) eqn:Ht; [done|].
    intros _. by apply Hother.
Qed.

(** The documents keep their package; the sidecar has the new keys. *)
Lemma freeze_plain_package spaceID resources typ docs atts e s docs' s' :
  typ ≠ Connector →
  json_parse (d_package docs) = Some (package_value atts) → Forall good atts →
  Forall (λ a, is_pointer (view a) = false) atts →
  freezeVersionArtifacts keyPrefix maxAttachmentBytes maxArchiveBytes spaceID resources typ docs e s = (Ok docs', s') →
  d_package docs' = d_package docs ∧ named_keys spaceID resources atts (attachmentKeyMap (d_attachment_keys docs')).
Proof.
  intros Htyp Hparse Hg Hptr. unfold freezeVersionArtifacts. rewrite decide_False by done.
  destruct (value_fields _ _ Hparse) as [Hf _].
  intros (doc & s0 & [Hdoc ->]%fz_lift_ok & Hrun)%fz_bind_ok. rewrite Hf in Hdoc. injection Hdoc as <-.
  apply fz_bind_ok in Hrun as (l & s1 & [Hraw ->]%fz_lift_ok & Hrun).
  assert (l = atts) as ->.
  { change (field (Some (package_fields atts)) "attachments") with (Some (JArr (of_fields <$> atts))) in Hraw.
    cbn iota in Hraw. rewrite as_maps_of in Hraw. by injection Hraw. }
  apply fz_bind_ok in Hrun as ([[atts' keys] ch] & s2 & Hwalk & Hrun).
  pose proof (freeze_attachments_valid _ _ _ _ _ limits _ _ _ _ _ _ _ _ _ Hwalk Hg (sidecar_valid _)) as Hvalid.
  apply freeze_attachments_named in Hwalk as (-> & -> & Hn & _); [|done].
  apply fz_ret_ok in Hrun as [-> ->]. cbn [d_package d_attachment_keys]. split; [done|].
  intros p v Hv. destruct (Hn p v Hv) as (key & Hk & Hname). exists key. split; [|done].
  destruct (decide (keys = ∅)) as [->|]; [by rewrite lookup_empty in Hk|]. by rewrite attachmentKeyMap_print.
Qed.
End Freezing.

(** ** Downloading it *)

Section Download.
Context `{JsonLaws} `{CryptoLaws} `{!LibPlugin} `{PackageLibs}.
Context (keyPrefix : string) (maxAttachmentBytes maxArchiveBytes : Z).

Lemma into_elems_fresh names l : into_elems names [] l = mapM (into_view names zero_view) l.
Proof. induction l as [|v l IH]; [done|]. simpl. destruct (into_view _ _ v); simpl; [|done]. by rewrite IH. Qed.

Lemma decode_package raw atts :
  atts ≠ [] → json_parse raw = Some (package_value atts) → Forall (λ a, decodes a (view a)) atts →
  decodePackageAttachments raw = view <$> atts.
Proof.
  intros Hn Hp Hall. unfold decodePackageAttachments. rewrite Hp. cbn [mbind option_bind].
  assert (mapM (into_view view_fields zero_view) (of_fields <$> atts) = Some (view <$> atts)) as Hm.
  { apply mapM_Some. clear Hn Hp. induction Hall; constructor; done. }
  unfold attachment_structs, into_struct, package_value. cbn [foldl mbind option_bind].
  change (into_field ["attachments"] (λ _ v s, into_slice view_fields s v) (0%nat, []) ("$schema", JStr packageSchema))
    with (Some (0%nat, [] : list AttView)). cbn [mbind option_bind].
  change (into_field ["attachments"] (λ _ v s, into_slice view_fields s v) (0%nat, [])
            ("attachments", JArr (of_fields <$> atts)))
    with (into_slice view_fields (0%nat, []) (JArr (of_fields <$> atts))).
  assert (into_slice view_fields (0%nat, []) (JArr (of_fields <$> atts))
          = Some (length atts, view <$> atts)) as ->.
  { revert Hm. rewrite <-into_elems_fresh, <-(length_fmap of_fields). destruct (of_fields <$> atts) as [|v l]; [by intros [= <-]|].
    cbn [into_slice snd]. intros ->. done. }
  cbn [mbind option_bind fst snd from_option default]. by rewrite firstn_all2 by by rewrite length_fmap.
Qed.

Definition is_raw (a : AttView) : bool := String.eqb (v_content_type a) "raw".
Definition size_of (a : AttView) : Z := if is_raw a then blen (v_raw_content a) else v_content_size a.

(** [data] are the bytes the attachment stands for. *)
Definition serves (a : AttView) (data : string) : Prop :=
  if is_raw a then data = v_raw_content a
  else blen data = v_content_size a ∧ "sha256:" ++ sha256_hex data = v_content_hash a.

(** The bytes can be had from a bucket. *)
Definition available (p : Plugin) (keys : gmap string string) (a : AttView) (b : gmap string string) : Prop :=
  legacy_pointer (v_path a) = false
  ∧ (is_raw a = false → trustedPluginArtifactKey (attachment_key keys a) p = true
      ∧ version_object keyPrefix (attachment_key keys a) (v_content_size a) (v_content_hash a) b
      ∧ (v_content_size a ≤ maxAttachmentBytes)%Z).

Lemma available_kept p keys a b b' : oss_steps keyPrefix b b' → available p keys a b → available p keys a b'.
Proof.
  intros Hs (Hl & Ha). split; [done|]. intros Hr. destruct (Ha Hr) as (Ht & Hv & Hn). split_and!; [done| |done].
  by eapply version_object_kept.
Qed.

Lemma take_whole (s : string) n : (String.length s ≤ n)%nat → take n s = s.
Proof.
  revert n. induction s as [|c s IH]; intros [|n] Hl; simpl in *; try done; [lia|]. rewrite IH by lia. done.
Qed.

Lemma attachment_read p keys a total e s :
  storage_up e → available p keys a (fz_bucket s) → (0 ≤ total ∧ total + size_of a ≤ maxArchiveBytes)%Z →
  ∃ data s',
    attachment_data keyPrefix maxAttachmentBytes maxArchiveBytes (attachment_key keys a) a total e s
      = (Ok (data, total + size_of a)%Z, s')
    ∧ serves a data ∧ (0 ≤ size_of a)%Z ∧ oss_steps keyPrefix (fz_bucket s) (fz_bucket s').
Proof.
  intros Hup [_ Ha] Ht. unfold size_of, serves, attachment_data in *. fold (is_raw a) in *. cbv zeta.
  destruct (is_raw a) eqn:Hr.
  { exists (v_raw_content a), s. rewrite (proj2 (Z.leb_le _ _)) by apply Ht.
    split_and!; [done|done|apply blen_nonneg|constructor]. }
  destruct (Ha eq_refl) as (_ & Hv & Hn).
  set (b := interfere keyPrefix (meanwhile (e (fz_count s)) 0) (fz_bucket s)).
  assert (oss_steps keyPrefix (fz_bucket s) b) as Hsteps by apply interfere_steps.
  destruct (version_object_kept _ _ _ _ _ _ Hsteps Hv) as (_ & _ & body & Hb & Hlen & Hd).
  exists body, (mkFz b (fz_total s) (S (fz_count s))).
  unfold storage_read, storage_call. rewrite fz_bind_run. fold b. rewrite Hup. unfold GetObject. rewrite Hb.
  cbn [stored fst snd]. rewrite fz_bind_run. cbn [mret fz_ret].
  rewrite take_whole by (destruct (Z.ltb_spec (maxArchiveBytes - total) maxAttachmentBytes); lia).
  change (Z.of_nat (String.length body)) with (blen body) in Hlen.
  rewrite Hlen, <-Hd, String.eqb_refl, Z.eqb_refl, !orb_true_r, !(proj2 (Z.leb_le _ _)) by lia.
  split_and!; [done|done|done| |exact Hsteps]. rewrite <-Hlen. apply blen_nonneg.
Qed.

Lemma zip_entries_ok p keys entries total l e s :
  storage_up e → Forall (λ a, available p keys a (fz_bucket s)) l →
  (entries + length l ≤ maxSkillZipEntries)%nat →
  (0 ≤ total ∧ total + sumZ (size_of <$> l) ≤ maxArchiveBytes)%Z → Forall (λ a, 0 ≤ size_of a)%Z l →
  ∃ out s',
    zip_entries keyPrefix maxAttachmentBytes maxArchiveBytes p keys entries total l e s = (Ok out, s')
    ∧ Forall2 (λ a hd, hd.1 = download_header (v_path a) ∧ serves a hd.2) l out.
Proof.
  intros Hup. revert entries total s. induction l as [|a l IH]; intros entries total s Hall He Ht Hz.
  { eexists _, s. split; [done|constructor]. }
  apply Forall_cons in Hall as [Ha Hall]. apply Forall_cons in Hz as [Hza Hz].
  rewrite fmap_cons in Ht. simpl in Ht, He.
  assert (0 ≤ sumZ (size_of <$> l))%Z as Hs by by apply sumZ_nonneg, Forall_fmap.
  destruct (attachment_read p keys a total e s Hup Ha) as (data & s1 & Hread & Hserve & _ & Hsteps); [lia|].
  destruct (IH (S entries) (total + size_of a)%Z s1) as (out & s2 & Hrest & Hout); [|lia|lia|done|].
  { eapply Forall_impl; [exact Hall|]. intros x. by apply available_kept. }
  destruct Ha as [Hl Ha]. exists ((download_header (v_path a), data) :: out), s2. split; [|by constructor].
  cbn [zip_entries]. rewrite Hl. cbv zeta. fold (is_raw a).
  assert (negb (is_raw a) && negb (trustedPluginArtifactKey (attachment_key keys a) p) = false) as ->.
  { destruct (is_raw a); [done|]. by destruct (Ha eq_refl) as [-> _]. }
  rewrite (proj2 (Nat.ltb_lt _ _)) by lia. cbn [fz_require]. rewrite fz_bind_run. cbn [mret fz_ret].
  rewrite fz_bind_run, Hread, fz_bind_run, Hrest. done.
Qed.
(** *** From the files to the archive *)

(** The attachment [v] stands for the file [it]. *)
Definition represents (it : item) (v : AttView) : Prop :=
  v_path v = it_path it ∧ size_of v = blen (it_bytes it)
  ∧ (if is_raw v then v_raw_content v = it_bytes it
     else v_content_type v = "storage" ∧ v_storage_uri v = "" ∧ it_md it = false
          ∧ v_content_hash v = "sha256:" ++ sha256_hex (it_bytes it)).

(** The file of the archive is the file [it]; SKILL.md to the byte, the others
    up to their size and digest. *)
Definition delivered (it : item) (fd : File * string) : Prop :=
  fd.1 = download_header (it_path it) ∧ blen fd.2 = blen (it_bytes it)
  ∧ sha256_hex fd.2 = sha256_hex (it_bytes it) ∧ (it_md it = true → fd.2 = it_bytes it).

Lemma served_delivered it v fd :
  represents it v → fd.1 = download_header (v_path v) ∧ serves v fd.2 → delivered it fd.
Proof.
  intros (Hp & Hs & Hr) [Hn Hd]. rewrite Hp in Hn. unfold delivered, serves, size_of in *. rewrite Hn. destruct (is_raw v).
  - by rewrite Hd, Hr.
  - destruct Hr as (_ & _ & Hmd & Hh), Hd as [Hl Hd]. rewrite Hh in Hd. apply (inj (String.append "sha256:")) in Hd.
    split_and!; [done|congruence|done|]. by rewrite Hmd.
Qed.

Definition stored_atts (sp id : string) (items : list item) : list GoMap :=
  strip_key <$> attachments_of sp id 0 items.

Lemma raw_path path mime content : string_field (raw_attachment path mime content) "path" = path.
Proof. reflexivity. Qed.
Lemma stripped_path path mime key content :
  string_field (drop_uri (storage_attachment path mime key content)) "path" = path.
Proof.
  unfold storage_attachment. generalize ("sha256:" ++ sha256_hex content), (pretty (blen content)). reflexivity.
Qed.

Lemma attachment_represents sp id budget it :
  item_ok it → let a := strip_key (attachment_of sp id (inlined budget it) it) in
  decodes a (view a) ∧ represents it (view a) ∧ string_field a "path" = it_path it.
Proof.
  intros Hok. cbv zeta. unfold strip_key. rewrite is_storage_of. unfold attachment_of.
  generalize (attachmentMIME (it_path it) (it_text it)). intros mime.
  destruct (inlined budget it) eqn:E; simpl negb; cbn iota.
  - pose proof (decode_raw (it_path it) mime (it_bytes it)) as Hd.
    rewrite (decodes_view _ _ Hd), raw_path. split; [exact Hd|]. split; [|reflexivity].
    unfold represents. split_and!; reflexivity.
  - pose proof (spilled_small budget it Hok E) as Hs.
    assert (it_md it = false) as Hmd.
    { destruct Hok as (_ & _ & Hmd & _), (it_md it) eqn:Em; [|reflexivity]. unfold inlined in E.
      rewrite Em, (Hmd eq_refl) in E. discriminate E. }
    generalize (deterministicSkillObjectKey sp id (it_path it) (it_bytes it)). intros key.
    assert (blen (it_bytes it) ≤ max_int64)%Z as Hn by (unfold max_int64; lia).
    pose proof (decode_stripped (it_path it) mime key (it_bytes it) Hn) as Hd.
    rewrite (decodes_view _ _ Hd), stripped_path. split; [exact Hd|]. split; [|reflexivity].
    unfold represents. split; [reflexivity|]. split; [reflexivity|].
    change (is_raw (stored_view (it_path it) "" (it_bytes it))) with false. cbn iota. split_and!; [reflexivity..|exact Hmd|reflexivity].
Qed.

Lemma attachments_represent sp id budget items :
  Forall item_ok items → let atts := strip_key <$> attachments_of sp id budget items in
  Forall (λ a, decodes a (view a)) atts ∧ Forall2 represents items (view <$> atts)
  ∧ (λ a, string_field a "path") <$> atts = it_path <$> items.
Proof.
  cbv zeta. intros Hok. revert budget. induction Hok as [|it items Hit _ IH]; intros budget; [by split_and!|].
  cbn [attachments_of]. rewrite !fmap_cons.
  destruct (attachment_represents sp id budget it Hit) as (Hd & Hr & Hp).
  destruct (IH (if inlined budget it then budget + blen (it_bytes it) else budget)%Z) as (Hds & Hrs & Hps).
  rewrite Hp, Hps. split_and!; [by constructor|by constructor|done].
Qed.

Lemma last_at_unique atts a :
  NoDup ((λ a, v_path (view a)) <$> atts) → a ∈ atts → v_content_type (view a) = "storage" →
  last_at atts (v_path (view a)) = Some (view a).
Proof.
  induction atts as [|b atts IH]; [by intros _ ?%not_elem_of_nil|].
  rewrite fmap_cons, NoDup_cons. intros [Hb Hn] [->|Ha]%elem_of_cons Ht; cbn [last_at].
  - assert (last_at atts (v_path (view b)) = None) as ->; [|by rewrite Ht, !String.eqb_refl].
    clear -Hb. induction atts as [|c atts IH]; [done|]. rewrite fmap_cons, not_elem_of_cons in Hb. destruct Hb as [Hc Hb].
    cbn [last_at]. rewrite IH by done. apply not_eq_sym, String.eqb_neq in Hc as ->. by rewrite andb_false_r.
  - by rewrite IH.
Qed.

Lemma stored_available p spaceID resources atts items keys b :
  Forall2 represents items (view <$> atts) → NoDup (it_path <$> items) →
  Forall (λ it, legacy_pointer (it_path it) = false ∧ (it_md it = false → blen (it_bytes it) ≤ maxAttachmentBytes)%Z) items →
  named_keys spaceID resources atts keys →
  (∀ path v, last_at atts path = Some v → ∃ key, keys !! path = Some key
     ∧ version_object keyPrefix key (v_content_size v) (v_content_hash v) b) →
  (∀ key digest, named spaceID resources key digest → trustedPluginArtifactKey key p = true) →
  Forall (λ v, available p keys v b) (view <$> atts).
Proof.
  intros Hrep Hnd Hall Hnamed Hfrozen Htrust.
  assert (NoDup ((λ a, v_path (view a)) <$> atts)) as Hnd'.
  { assert ((λ a, v_path (view a)) <$> atts = it_path <$> items) as ->; [|done].
    clear -Hrep. revert items Hrep. induction atts as [|a atts IH]; intros items Hrep.
    - by apply Forall2_nil_inv_r in Hrep as ->.
    - rewrite fmap_cons in Hrep. apply Forall2_cons_inv_r in Hrep as (it & items' & [Hp _] & Hrep & ->).
      rewrite !fmap_cons, Hp. f_equal. by apply IH. }
  apply Forall_fmap, Forall_forall. intros a Ha. simpl.
  assert (∃ it, it ∈ items ∧ represents it (view a)) as (it & Hit & Hp & Hs & Hr).
  { apply (list_elem_of_fmap_2 view) in Ha. apply list_elem_of_lookup in Ha as [i Hi].
    destruct (Forall2_lookup_r _ _ _ _ _ Hrep Hi) as (it & Hit & Hr). exists it. split; [|done]. by eapply list_elem_of_lookup_2. }
  rewrite Forall_forall in Hall. destruct (Hall it Hit) as [Hl Hn]. split; [by rewrite Hp|].
  intros Hraw. rewrite Hraw in Hr. destruct Hr as (Ht & _ & Hmd & _).
  pose proof (last_at_unique atts a Hnd' Ha Ht) as Hlast.
  destruct (Hnamed _ _ Hlast) as (key & Hk & Hname). destruct (Hfrozen _ _ Hlast) as (key' & Hk' & Hv).
  assert (key' = key) as -> by congruence. unfold attachment_key. rewrite Hk. simpl.
  assert (String.eqb key "" = false) as ->.
  { apply String.eqb_neq. intros ->. destruct Hname as (h & _ & _ & Hk0 & Hne & _).
    by destruct (freeze_prefix spaceID resources). }
  split_and!; [by eapply Htrust|exact Hv|]. unfold size_of in Hs. rewrite Hraw in Hs. rewrite Hs. by apply Hn.
Qed.

Lemma no_pointers items atts :
  Forall2 represents items (view <$> atts) → Forall (λ it, legacy_pointer (it_path it) = false) items →
  Forall (λ a, is_pointer (view a) = false) atts.
Proof.
  revert items. induction atts as [|a atts IH]; intros items Hrep Hall; [constructor|].
  rewrite fmap_cons in Hrep. apply Forall2_cons_inv_r in Hrep as (it & items' & [Hp _] & Hrep & ->).
  apply Forall_cons in Hall as [Hl Hall]. constructor; [|by eapply IH].
  unfold is_pointer. rewrite Hp. apply orb_false_iff in Hl as [-> _]. apply andb_false_r.
Qed.
Lemma represented_sizes items views :
  Forall2 represents items views → sumZ (size_of <$> views) = sumZ (blen ∘ it_bytes <$> items).
Proof. induction 1 as [|it v items views (_ & Hs & _) _ IH]; [done|]. rewrite !fmap_cons. simpl. by rewrite Hs, IH. Qed.
Lemma represented_nonneg items views : Forall2 represents items views → Forall (λ v, 0 ≤ size_of v)%Z views.
Proof. induction 1 as [|it v items views (_ & Hs & _) _ IH]; constructor; [rewrite Hs; apply blen_nonneg|done]. Qed.
#[local] Instance sumZ_Permutation : Proper ((≡ₚ) ==> eq) sumZ.
Proof. induction 1; simpl; lia. Qed.

Context `{!LibLaws}.

(** The package of the files, frozen and stored, downloads as these files. *)
Lemma stored_skill_downloads spaceID resources sp id items name tags manifest trust scope docs docs' e0 s0 s1 p e s :
  (0 ≤ maxAttachmentBytes ∧ 0 ≤ maxArchiveBytes)%Z →
  Forall item_ok items → items ≠ [] → (length items ≤ maxSkillZipEntries)%nat →
  Forall (λ it, legacy_pointer (it_path it) = false ∧ (it_md it = false → blen (it_bytes it) ≤ maxAttachmentBytes)%Z) items →
  (sumZ (blen ∘ it_bytes <$> items) ≤ maxArchiveBytes)%Z →
  Forall good (attachments_of sp id 0 items) →
  canonicalizeDocuments name Skill tags manifest (package_document (attachments_of sp id 0 items)) sp trust scope = Some docs →
  freezeVersionArtifacts keyPrefix maxAttachmentBytes maxArchiveBytes spaceID resources Skill docs e0 s0 = (Ok docs', s1) →
  Package p = d_package docs' → AttachmentKeys p = d_attachment_keys docs' →
  (∀ key digest, named spaceID resources key digest → trustedPluginArtifactKey key p = true) →
  storage_up e → oss_steps keyPrefix (fz_bucket s1) (fz_bucket s) →
  ∃ out s' items',
    skill_zip_entries keyPrefix maxAttachmentBytes maxArchiveBytes p (decodePackageAttachments (Package p)) e s = (Ok out, s')
    ∧ items' ≡ₚ items ∧ Forall2 delivered items' out.
Proof.
  intros Hlim Hok Hne Hcount Hall Hsum Hgood Hcanon Hfreeze Hpkg Hkeys Htrust Hup Hsteps.
  set (atts := attachments_of sp id 0 items) in *.
  assert (atts ≠ []) as Hne' by (unfold atts; by destruct items).
  destruct (attachments_represent sp id 0 items Hok) as (Hdec & Hrep & Hpaths). fold atts in Hdec, Hrep, Hpaths.
  destruct (canonical_package _ _ _ _ _ _ _ _ Hne' Hgood (stripped_plain sp id 0 items Hok) Hcanon) as (Hparse & _ & Hnd).
  rewrite Hpaths in Hnd. destruct (value_fields _ _ Hparse) as [_ Hatts].
  assert (Forall good (strip_key <$> atts)) as Hgood' by by eapply attachments_good.
  assert (Forall (λ a, is_pointer (view a) = false) (strip_key <$> atts)) as Hptr.
  { apply no_pointers with items; [done|]. eapply Forall_impl; [exact Hall|]. by intros it []. }
  assert (Skill ≠ Connector) as Htyp by discriminate.
  destruct (freeze_plain_package keyPrefix maxAttachmentBytes maxArchiveBytes Hlim _ _ _ _ _ _ _ _ _ Htyp
    Hparse Hgood' Hptr Hfreeze) as [Hsame Hnamed].
  apply freeze_freezes in Hfreeze as [_ (atts0 & atts1 & Ha0 & Hside & _)]; [|done..].
  assert (atts0 = strip_key <$> atts) as -> by congruence.
  rewrite Hpkg, Hsame, (decode_package _ _ (λ E, Hne' (fmap_nil_inv _ _ E)) Hparse Hdec).
  set (views := view <$> (strip_key <$> atts)) in *.
  unfold skill_zip_entries. rewrite Hkeys.
  assert (Forall (λ v, available p (attachmentKeyMap (d_attachment_keys docs')) v (fz_bucket s1)) views) as Hav
    by by eapply stored_available.
  pose proof (merge_sort_Permutation view_le views) as Hperm.
  destruct (zip_entries_ok p (attachmentKeyMap (d_attachment_keys docs')) 0 0 (merge_sort view_le views) e s Hup)
    as (out & s' & Hrun & Hout).
  { rewrite Hperm. eapply Forall_impl; [exact Hav|]. intros v. by apply available_kept. }
  { rewrite Hperm. by rewrite <-(Forall2_length _ _ _ Hrep). }
  { split; [lia|]. rewrite Hperm, (represented_sizes _ _ Hrep). done. }
  { rewrite Hperm. by eapply represented_nonneg. }
  destruct (Permutation_Forall2 (symmetry Hperm) (proj2 (Forall2_flip _ _ _) Hrep)) as (items' & Hi & Hrep').
  exists out, s', items'. split_and!; [done|by symmetry|]. apply Forall2_flip in Hrep'.
  eapply Forall2_trans; [|exact Hrep'|exact Hout]. intros it v fd Hv Hfd. by eapply served_delivered.
Qed.
End Download.
