(* ===== verification/Imported.v ===== *)
(** * What an import leaves

    The uploads of Importing.v through the editor of Saving.v: the files of an
    imported archive can be downloaded again from the stored skill, for as long
    as the row is kept. *)

From S2P Require Import Prelude GoStrings Version Model Notify Objects Store Rows RowWrites Write Review Changes Operations Lifecycle Service Outcomes CardAction Json Documents VersionArtifacts Zip Parse ParseTasks SkillTree Queries CatalogService Editing SkillFiles Saving Importing Uploads.
From Stdlib Require Import Ascii.
Import Go.
Local Open Scope string_scope.

(** ** The files of an archive *)

Lemma normalized_valid name p : normalizedArchivePath name = Some p → Valid p = true.
Proof.
  unfold normalizedArchivePath. destruct (_ || HasSuffix name "/") eqn:E; [done|].
  destruct (_ || HasPrefix (Clean name) "../") eqn:Ec; [done|]. destruct (existsb _ _); [done|]. intros [= <-].
  repeat apply orb_false_iff in E as [E ?]. repeat apply orb_false_iff in Ec as [Ec ?].
  apply negb_false_iff, String.eqb_eq in Ec as ->. by apply negb_false_iff.
Qed.

Definition entry_ok (limit : Z) (e : SkillEntry) : Prop :=
  (IsText e = true → Valid (Bytes e) = true) ∧ (blen (Bytes e) ≤ limit)%Z.

Lemma tree_item_ok limit dir override e it :
  (limit < 2 ^ 53)%Z → entry_ok limit e → tree_item dir override e = Some it →
  item_ok it ∧ (it_md it = false → blen (it_bytes it) ≤ limit)%Z.
Proof.
  intros Hl [Ht Hn]. unfold tree_item. destruct (normalizedArchivePath _) as [norm|] eqn:Ep; [|done].
  cbn [mbind option_bind]. set (b := match override with Some _ => _ | None => _ end).
  destruct (isSkillMDCandidate (Path e)) eqn:Em; simpl.
  - destruct (Valid b) eqn:Eb; [|done]. intros [= <-]. unfold item_ok. simpl. rewrite orb_true_r.
    split; [|done]. by split_and!; [eapply normalized_valid|..].
  - intros [= <-]. assert (b = Bytes e) as -> by (unfold b; by destruct override).
    unfold item_ok. simpl. rewrite orb_false_r. split; [|done].
    split_and!; [by eapply normalized_valid|done|done|]. intros _. lia.
Qed.

Lemma tree_items_ok limit entries override items :
  (limit < 2 ^ 53)%Z → Forall (entry_ok limit) entries → tree_items entries override = Some items →
  Forall item_ok items ∧ Forall (λ it, it_md it = false → blen (it_bytes it) ≤ limit)%Z items
  ∧ length items = length entries.
Proof.
  intros Hl Hall. unfold tree_items. destruct (mapM _ _) as [l|] eqn:E; [|done]. intros [= <-].
  revert E. generalize (skill_dir entries). intros dir E.
  pose proof (merge_sort_Permutation path_le l) as Hp. revert Hp. generalize (merge_sort path_le l). intros l' Hp.
  apply mapM_Some in E.
  assert (Forall item_ok l ∧ Forall (λ it, it_md it = false → blen (it_bytes it) ≤ limit)%Z l) as [Hok Hs].
  { clear -Hl Hall E. induction E as [|e it es l Hit _ IH]; [by split|].
    apply Forall_cons in Hall as [He Hall]. destruct (IH Hall) as [Hok Hs].
    destruct (tree_item_ok _ _ _ _ _ Hl He Hit) as [Hi Hn]. split; by apply Forall_cons. }
  split_and!; [by rewrite Hp|by rewrite Hp|]. rewrite Hp. symmetry. by apply Forall2_length in E.
Qed.

Lemma extracted_ok size maxZip limit files entries :
  (0 ≤ limit < 2 ^ 53)%Z → ExtractSkillTree size maxZip limit 0 files = Ok entries →
  Forall (entry_ok limit) entries ∧ (length entries ≤ maxSkillZipEntries)%nat ∧ entries ≠ [].
Proof.
  intros Hl Hx. apply skill_tree_sound in Hx as (_ & _ & -> & Hb & _ & Hc & Hone); [|lia].
  split_and!.
  - rewrite Forall_forall in *. intros e He. split; [|by apply Hb].
    apply list_elem_of_fmap in He as (f & -> & _). done.
  - unfold maxSkillZipEntries, maxManifestFiles in *. simpl in Hc. lia.
  - intros E. by rewrite E in Hone.
Qed.

(** ** Keys put back *)

(** A package whose storage attachments all have their keys is left alone. *)
Lemma reinject_alone `{JsonLaws} `{Crypto} sp id budget items pkg keys :
  Forall good (attachments_of sp id budget items) → attachments_of sp id budget items ≠ [] →
  reinjectUpdateStorageKeys (package_document (attachments_of sp id budget items)) pkg keys
  = package_document (attachments_of sp id budget items).
Proof.
  intros Hg Hn. unfold reinjectUpdateStorageKeys. destruct (decide _); [done|].
  destruct (value_fields _ _ (package_parse _ Hn Hg)) as [Hf _]. rewrite Hf. cbn [mbind option_bind].
  change (field (Some (package_fields ?a)) "attachments") with (Some (JArr (of_fields <$> a))).
  cbn [mbind option_bind]. rewrite as_maps_of. cbn [mbind option_bind].
  assert (existsb snd (reinject_one (attachmentKeyMap keys) (storageContentHashes pkg)
            <$> attachments_of sp id budget items) = false) as ->; [|done].
  clear. revert budget. induction items as [|it items IH]; intros budget; [done|].
  cbn [attachments_of]. rewrite fmap_cons. cbn [existsb]. rewrite IH, orb_false_r. unfold reinject_one.
  rewrite is_storage_of. by destruct (inlined budget it).
Qed.

(** ** What an import stores *)

Section Imported.
Context `{JsonLaws} `{CryptoLaws} `{!LibPlugin} `{!LibLaws} `{EditorLibs} `{PackageLibs}.
Context (keyPrefix : string) (maxAttachmentBytes maxArchiveBytes : Z).
Hypothesis limits : (0 ≤ maxAttachmentBytes < 2 ^ 53 ∧ 0 ≤ maxArchiveBytes)%Z.

(** *** A key frozen in the Space of a plugin is one its downloads trust *)

Definition key_byte (c : ascii) : bool := segment_byte c || Ascii.eqb c slash.

Lemma key_bytes_safe s : all_bytes key_byte s = true → ContainsAny s unsafe_bytes = false ∧ Contains s "://" = false.
Proof.
  induction s as [|c s IH]; [done|]. cbn [all_bytes]. intros [Hc [H1' H2']%IH]%andb_true_iff.
  cbn [ContainsAny Contains]. rewrite H1', H2', !orb_false_r. revert Hc.
  destruct c as [[] [] [] [] [] [] [] []]; by vm_compute.
Qed.

Lemma segment_key_bytes sp : segment sp = true → all_bytes key_byte sp = true ∧ (String.length sp ≤ 128)%nat.
Proof.
  assert (∀ c, segment_byte c = true → key_byte c = true) as Hkey by (intros c Hc; unfold key_byte; by rewrite Hc).
  destruct sp as [|c sp]; [done|]. cbn [segment all_bytes String.length]. intros [[Hc Hn%Nat.leb_le]%andb_true_iff Hs]%andb_true_iff.
  rewrite Hkey by (unfold segment_byte; by rewrite Hc). split; [by apply (all_bytes_impl _ _ _ Hkey)|lia].
Qed.

Lemma digest_key_bytes h : digest64 h = true → all_bytes key_byte h = true ∧ String.length h = 64%nat.
Proof.
  unfold digest64. intros [Hl%Nat.eqb_eq Hh]%andb_true_iff. split; [|done]. revert Hh. apply all_bytes_impl.
  intros [[] [] [] [] [] [] [] []]; by vm_compute.
Qed.

Lemma frozen_key_within ns sp hash :
  ns = "plugins/" ∨ ns = "platform/plugins/" → segment sp = true → digest64 hash = true →
  within ((ns ++ sp ++ "/attachments/") ++ "versions/" ++ hash) (ns ++ sp ++ "/attachments/") = true.
Proof.
  intros Hns Hsp Hh. pose proof (frozen_key_immutable ns sp hash Hns Hsp Hh) as [Hc _].
  destruct (segment_key_bytes sp Hsp) as [Hb Hl]. destruct (digest_key_bytes hash Hh) as [Hb' Hl'].
  assert ((ns ++ sp ++ "/attachments/") ++ "versions/" ++ hash = ns ++ sp ++ "/attachments/versions/" ++ hash) as E.
  { rewrite !append_assoc. by destruct sp. }
  assert (all_bytes key_byte (ns ++ sp ++ "/attachments/versions/" ++ hash) = true) as Hall.
  { rewrite !all_bytes_append, Hb, Hb'. by destruct Hns as [->| ->]. }
  destruct (key_bytes_safe _ Hall) as [Hu Ho].
  unfold within. rewrite HasPrefix_app, E, (Clean_canonical _ Hc), String.eqb_refl, Hu, Ho.
  rewrite <-E, !append_length. assert (String.length ns ≤ 17)%nat as Hn by by destruct Hns as [->| ->]; simpl; lia.
  cbn [String.length]. rewrite Hl', (proj2 (Nat.leb_le _ _)), (proj2 (Nat.ltb_lt _ _)) by (cbn; lia).
  by destruct Hns as [->| ->].
Qed.

(** The resources a save of [c] freezes under, for the row [p] it stores. *)
Definition saves_under (c : Caller) (p : Plugin) (resources : list (option Plugin)) : Prop :=
  resources = [None]
  ∨ ∃ old row, resources = [Some old; Some row] ∧ Visibility row = Visibility p
      ∧ ∀ sp, SpaceID row = Some sp → sp = CSpaceID c.

Lemma named_trusted c p resources key digest :
  SpaceID p = Some (CSpaceID c) → validVisibility (Visibility p) false = true → saves_under c p resources →
  named (CSpaceID c) resources key digest → trustedPluginArtifactKey key p = true.
Proof.
  intros Hsp Hv Hres (hash & Hh & _ & -> & Hne & source & Hs).
  assert (NormalizeLegacyVisibility (Visibility p) ≠ VSystem) as Hn by by destruct (Visibility p).
  assert (freeze_prefix (CSpaceID c) resources = "plugins/" ++ CSpaceID c ++ "/attachments/"
          ∧ segment (CSpaceID c) = true) as [-> Hseg].
  { destruct Hres as [->|(old & row & -> & Hvr & Hrow)].
    - unfold artifactWriteScope in Hs. simpl in Hs. apply andb_true_iff in Hs as [Hs _]. done.
    - unfold freeze_prefix, Prefix in *. simpl in *. rewrite Hvr in *. rewrite decide_False in * by done.
      destruct (SpaceID row) as [sp|]; [|done]. rewrite (Hrow sp eq_refl) in *. by destruct (segment (CSpaceID c)). }
  unfold trustedPluginArtifactKey, Allows, Prefix. rewrite decide_False, Hsp, Hseg by done.
  by rewrite (frozen_key_within "plugins/" (CSpaceID c) hash (or_introl eq_refl) Hseg Hh).
Qed.

(** *** The saved row *)

Definition saving_import (c : Caller) (req : WriteRequest) (id updateID : string) : Save Saved :=
  if String.eqb updateID "" then createWithID keyPrefix maxAttachmentBytes maxArchiveBytes c req id
  else svcUpdate keyPrefix maxAttachmentBytes maxArchiveBytes c updateID req.

(** The row [p'] is the request with frozen documents. *)
Definition stored_as (c : Caller) (req : WriteRequest) (p' : Plugin) (x : FzSt) : Prop :=
  ∃ docs docs' scope resources e sf,
    holds_request c req docs' p'
    ∧ canonicalizeDocuments (TrimSpace (wr_name req)) (wr_type req) (wr_tags req) (wr_manifest req) (wr_package req)
        (CSpaceID c) false scope = Some docs
    ∧ freezeVersionArtifacts keyPrefix maxAttachmentBytes maxArchiveBytes (CSpaceID c) resources (wr_type req) docs e sf
      = (Ok docs', x)
    ∧ saves_under c p' resources ∧ validVisibility (Visibility p') false = true.

Lemma stored_import c req id updateID e s ans s' :
  CIsSystemAdmin c = false → id ≠ "" → sv_newID e ≠ "" → (updateID = "" ∨ updateID = id) →
  (∀ pkg keys, reinjectUpdateStorageKeys (wr_package req) pkg keys = wr_package req) →
  saving_import c req id updateID e s = (Ok ans, s') →
  ∃ p', plugins (tables (sv_svc s')) !! id = Some p' ∧ stored_as c req p' (sv_fz s').
Proof.
  intros Hadm Hid Hnew Hup Hre. unfold saving_import.
  assert (0 ≤ maxAttachmentBytes ∧ 0 ≤ maxArchiveBytes)%Z as Hlim by lia.
  destruct (String.eqb_spec updateID "") as [Eu|Eu].
  - intros (d & docs & docs' & p' & sf & Hdocs & _ & _ & Hrows & Hh & _ & Hv & Hf)%create_stored; [|done..].
    unfold created_id in Hrows. assert (String.eqb id "" = false) as Hb by by apply String.eqb_neq. rewrite Hb in Hrows.
    assert ((content_view <$> plugins (tables (sv_svc s'))) !! id = Some (content_view p')) as Hrow
      by by rewrite Hrows, lookup_insert_eq.
    rewrite lookup_fmap in Hrow. destruct (plugins (tables (sv_svc s')) !! id) as [q|] eqn:Hq; [|done].
    exists q. split; [done|]. apply (inj Some) in Hrow. unfold content_view in Hrow.
    assert (holds_request c req docs' q) as Hhq by (revert Hh; unfold holds_request; by simplify_eq/=; intuition congruence).
    exists docs, docs', [None], [None], (sv_artifacts e), sf. split_and!; try done; [by left|].
    destruct Hhq as (_ & _ & -> & _). done.
  - destruct Hup as [|<-]; [done|].
    intros (old & before & p' & d & docs & docs' & row & sf & [Hold _] & _ & Hdocs & (Hp & Hh & _) & _ & (Hv & Hsp & Hvis) & Hf)%update_stored; [|done..].
    exists p'. split; [done|]. rewrite Hre in Hdocs.
    exists docs, docs', [Some old], [Some old; Some row], (sv_artifacts e), sf.
    destruct Hh as (Hn & Hty & Hvp & Hh). rewrite Hvp.
    split_and!; try done. right. exists old, row. split_and!; [done|congruence|].
    intros sp Hs. rewrite Hsp in Hs. destruct Hold as (Hown & _). unfold owned_row in Hown. rewrite Hs in Hown.
    by apply andb_true_iff in Hown as [_ Hown%String.eqb_eq].
Qed.

(** *** The archive *)

(** The files [items] of the rewritten upload. *)
Definition unpacked (zip : string) (params : RewriteParams) (items : list item) : Prop :=
  ∃ r files entries,
    RewriteZipPackage zip params = Some r ∧ zip_open (ZipBytes r) = Some files
    ∧ ExtractSkillTree (blen (ZipBytes r)) maxArchiveBytes maxAttachmentBytes 0 files = Ok entries
    ∧ tree_items entries (Some (SkillMD r)) = Some items.

(** The upload the parse recorded. *)
Definition recorded (task : TaskRow) (zip : string) : Prop :=
  blen zip = t_file_size task ∧ EqualFold (ps_sha (task_result task)) (sha256_hex zip) = true.

Lemma save_or_undo_ok {A} (m : Save A) undo e s a s' : save_or_undo m undo e s = (Ok a, s') → m e s = (Ok a, s').
Proof. unfold save_or_undo. by destruct (m e s) as [[x|] s1]. Qed.

Lemma frozen_by_ok {A} (m : Fz A) e s a s' :
  frozen_by m e s = (Ok a, s') →
  sv_svc s' = sv_svc s
  ∧ ∃ x, m (sv_artifacts e) (mkFz (fz_bucket (sv_fz s)) 0 (fz_count (sv_fz s))) = (Ok a, x) ∧ sv_fz s' = x.
Proof.
  unfold frozen_by. destruct (m _ _) as [[b|err] x] eqn:E; [|done]. simpl. intros [= <- <-]. split; [done|]. by exists x.
Qed.

(** The recorded upload, read from the bucket: the object under the key of the
    task, at some moment after [b0]. *)
Definition fetched (b0 : gmap string string) (task : TaskRow) (zip : string) : Prop :=
  recorded task zip
  ∧ ∃ b, oss_steps keyPrefix b0 b ∧ b !! oss_key keyPrefix (t_file_url task) = Some zip.

Lemma fetched_within b b0 task zip : oss_steps keyPrefix b b0 → fetched b0 task zip → fetched b task zip.
Proof. intros Hb [Hr (b' & Hs & Hz)]. split; [done|]. exists b'. split; [by etrans|done]. Qed.

Lemma object_read_ok key e s body s' :
  (r ← storage_read keyPrefix (GetObject keyPrefix key); stored r) e s = (Ok body, s') →
  ∃ b, oss_steps keyPrefix (fz_bucket s) b ∧ b !! oss_key keyPrefix key = Some body.
Proof.
  unfold mbind, fz_bind, storage_read, storage_call, stored, GetObject.
  pose proof (interfere_steps keyPrefix (meanwhile (e (fz_count s)) 0) (fz_bucket s)) as Hs. revert Hs.
  generalize (interfere keyPrefix (meanwhile (e (fz_count s)) 0) (fz_bucket s)) as b. intros b Hs.
  destruct (flt (e (fz_count s)) 0); [|done..]. destruct (b !! oss_key keyPrefix key) as [obj|] eqn:E; [|done].
  intros [= <- _]. by exists b.
Qed.

Lemma upload_verified task e s zip s' :
  readVerifiedUpload keyPrefix maxArchiveBytes task e s = (Ok zip, s') →
  fetched (fz_bucket (sv_fz s)) task zip ∧ sv_svc s' = sv_svc s.
Proof.
  unfold readVerifiedUpload. intros Hrun.
  apply save_bind_ok in Hrun as (? & ? & [Hpos ->]%save_require_ok & Hrun).
  apply save_bind_ok in Hrun as (? & ? & [_ ->]%save_require_ok & Hrun).
  apply save_bind_ok in Hrun as (body & s1 & (Hs & fz & Hbody & _)%frozen_by_ok & Hrun). cbv zeta in Hrun.
  apply object_read_ok in Hbody as (b & Hsteps & Hbody).
  apply save_bind_ok in Hrun as (? & ? & [Hn%Z.eqb_eq ->]%save_require_ok & Hrun).
  apply save_bind_ok in Hrun as (? & ? & [Hh ->]%save_require_ok & [-> ->]%save_ret_ok).
  split; [|done]. split; [done|]. exists b. split; [done|].
  assert (take (Z.to_nat (t_file_size task + 1)) body = body) as ->; [|done].
  apply take_short. unfold blen in Hn. apply negb_true_iff, orb_false_iff in Hpos as [[_ Hp%Z.leb_gt]%orb_false_iff _]. lia.
Qed.

Lemma import_request_package f atts upd req :
  buildImportWriteRequest f atts upd = Some req →
  wr_package req = package_document atts ∧ wr_type req = Skill ∧ wr_name req = if_plugin_name f.
Proof.
  unfold buildImportWriteRequest. intros (t & _ & (d & _ & ([m ct] & _ & [= <-])%bind_Some)%bind_Some)%bind_Some. done.
Qed.

Lemma skill_built sp reservedID task f safe e s req id uploaded s' :
  buildImportedSkillWrite keyPrefix maxAttachmentBytes maxArchiveBytes sp reservedID task f safe e s
    = (Ok (req, id, uploaded), s') →
  sv_svc s' = sv_svc s ∧ id = or_string reservedID (sv_newID e)
  ∧ ∃ zip items, fetched (fz_bucket (sv_fz s)) task zip ∧ unpacked zip (rewrite_params f id task) items
      ∧ buildImportWriteRequest f (attachments_of sp id 0 items) (negb (String.eqb reservedID "")) = Some req
      ∧ wr_package req = package_document (attachments_of sp id 0 items) ∧ wr_type req = Skill
      ∧ wr_name req = if_plugin_name f
      ∧ (existsb is_storage (attachments_of sp id 0 items) = true → segment sp = true).
Proof.
  unfold buildImportedSkillWrite. intros Hrun.
  apply save_bind_ok in Hrun as (zip & s1 & [Hz Hs1]%upload_verified & Hrun).
  apply save_bind_ok in Hrun as (new & ? & [= <- <-] & Hrun). cbv zeta in Hrun.
  apply save_bind_ok in Hrun as (r & ? & [Hr ->]%save_lift_ok & Hrun).
  apply save_bind_ok in Hrun as (? & ? & [_ ->]%save_require_ok & Hrun).
  apply save_bind_ok in Hrun as ([[[atts up] spl] left] & s2 & (Hs2 & fz & Htree & _)%frozen_by_ok & Hrun).
  apply save_bind_ok in Hrun as (rq & s3 & [Hreq ->]%save_or_undo_ok%save_lift_ok & [[= -> -> ->] ->]%save_ret_ok).
  destruct (RewriteZipPackage zip _) as [r'|] eqn:Erw; [|done]. injection Hr as ->.
  destruct (buildImportWriteRequest f atts _) as [rq'|] eqn:Ereq; [|done]. injection Hreq as ->.
  pose proof (import_request_package _ _ _ _ Ereq) as (Hpkg & Hty & Hname).
  apply build_tree_ok in Htree as (files & entries & items & Hopen & Hx & Hitems & -> & Hseg).
  split; [congruence|]. split; [done|]. exists zip, items. split; [done|]. split; [by exists r, files, entries|].
  split; [exact Ereq|]. by split_and!.
Qed.

(** *** The whole import *)

Lemma unpacked_ok zip params items :
  unpacked zip params items →
  Forall item_ok items ∧ Forall (λ it, it_md it = false → blen (it_bytes it) ≤ maxAttachmentBytes)%Z items
  ∧ (length items ≤ maxSkillZipEntries)%nat ∧ items ≠ [].
Proof.
  intros (r & files & entries & _ & _ & Hx & Hi). apply extracted_ok in Hx as (Hall & Hn & Hne); [|lia].
  eapply tree_items_ok in Hi as (Hok & Hs & Hlen); [|apply limits|done]. split_and!; [done|done|lia|].
  intros ->. by destruct entries.
Qed.

(** A stored skill of the files [items], and its downloads in every bucket that
    can follow. *)
Definition downloads (p' : Plugin) (items : list item) (b : gmap string string) : Prop :=
  Forall (λ it, legacy_pointer (it_path it) = false) items →
  (sumZ (blen ∘ it_bytes <$> items) ≤ maxArchiveBytes)%Z →
  ∀ e z, storage_up e → oss_steps keyPrefix b (fz_bucket z) →
  ∃ out z' items',
    skill_zip_entries keyPrefix maxAttachmentBytes maxArchiveBytes p' (decodePackageAttachments (Package p')) e z = (Ok out, z')
    ∧ items' ≡ₚ items ∧ Forall2 delivered items' out.

Lemma stored_downloads c req id p' items x :
  all_bytes ascii7 id = true → wr_type req = Skill →
  wr_package req = package_document (attachments_of (CSpaceID c) id 0 items) →
  (existsb is_storage (attachments_of (CSpaceID c) id 0 items) = true → segment (CSpaceID c) = true) →
  Forall item_ok items → Forall (λ it, it_md it = false → blen (it_bytes it) ≤ maxAttachmentBytes)%Z items →
  (length items ≤ maxSkillZipEntries)%nat → items ≠ [] →
  stored_as c req p' x → downloads p' items (fz_bucket x).
Proof.
  intros Hid Hty Hpkg Hseg Hok Hsmall Hn Hne (docs & docs' & scope & res & e & sf & Hh & Hcanon & Hf & Hunder & Hv).
  intros Hleg Hsum e' z Hup Hsteps. rewrite Hpkg, Hty in Hcanon. rewrite Hty in Hf.
  destruct Hh as (_ & _ & _ & _ & Hp & _ & Hk & _ & _ & _ & _ & _ & _ & Hsp & _).
  eapply stored_skill_downloads; try done; [lia| |by apply attachments_good_of|].
  - rewrite Forall_forall in *. intros it Hit. split; [by apply Hleg|by apply Hsmall].
  - intros key digest. by apply named_trusted.
Qed.

Lemma storage_id_ascii id : valid_storage_id id = true → all_bytes ascii7 id = true ∧ id ≠ "".
Proof.
  destruct id as [|c id]; [done|]. cbn [valid_storage_id all_bytes]. intros [[Hc _]%andb_true_iff Hs]%andb_true_iff.
  split; [|done]. apply andb_true_iff. split.
  - revert Hc. destruct c as [[] [] [] [] [] [] [] []]; by vm_compute.
  - revert Hs. apply all_bytes_impl. intros [[] [] [] [] [] [] [] []]; by vm_compute.
Qed.

(** The plugin to update, or none. *)
Definition target_ok (updateID : string) : Prop := updateID = "" ∨ valid_storage_id updateID = true.
Definition update_target (p : ImportParams) : string :=
  if String.eqb (TrimSpace (ip_plugin p)) "" then "" else ip_plugin p.

Lemma consumed_import_ok c task f updateID old e s ans s' :
  CIsSystemAdmin c = false → valid_storage_id (sv_newID e) = true → target_ok updateID →
  importConsumedTask keyPrefix maxAttachmentBytes maxArchiveBytes c task f updateID old e s = (Ok ans, s') →
  ∃ zip items p',
    let id := or_string updateID (sv_newID e) in
    fetched (fz_bucket (sv_fz s)) task zip ∧ unpacked zip (rewrite_params f id task) items
    ∧ plugins (tables (sv_svc s')) !! id = Some p'
    ∧ Type_ p' = Skill ∧ Name p' = TrimSpace (if_plugin_name f) ∧ OwnerUID p' = CUID c ∧ SpaceID p' = Some (CSpaceID c)
    ∧ downloads p' items (fz_bucket (sv_fz s')).
Proof.
  intros Hadm Hnew Htgt. unfold importConsumedTask. cbv zeta.
  set (f' := match old with Some _ => _ | None => _ end).
  assert (∀ id, rewrite_params f' id task = rewrite_params f id task ∧ if_plugin_name f' = if_plugin_name f) as Hf'.
  { intros id. unfold f'. destruct old; [|done]. by destruct (_ && _). }
  clearbody f'. intros Hrun.
  apply save_bind_ok in Hrun as ([[req id] uploaded] & s1 & Hbuilt & Hrun).
  apply skill_built in Hbuilt as (_ & Hid & zip & items & Hrec & Hun & _ & Hpkg & Hty & Hname & Hseg).
  apply save_bind_ok in Hrun as (ans' & s2 & Hsave%save_or_undo_ok & Hrun).
  apply save_bind_ok in Hrun as (u & s3 & Hdel & [_ ->]%save_ret_ok).
  destruct (storage_id_ascii _ Hnew) as [Hasc Hne].
  assert (all_bytes ascii7 id = true ∧ id ≠ "" ∧ (updateID = "" ∨ updateID = id)) as (Hidasc & Hidne & Hupd).
  { rewrite Hid. unfold or_string. destruct (String.eqb_spec updateID ""); [by auto|].
    destruct Htgt as [|[? ?]%storage_id_ascii]; [done|]. auto. }
  destruct (unpacked_ok _ _ _ Hun) as (Hok & Hsmall & Hlen & Hnil).
  assert (Forall good (attachments_of (CSpaceID c) id 0 items)) as Hgood by by apply attachments_good_of.
  fold (saving_import c (set_wr_changelog (if_changelog f') req) id updateID) in Hsave.
  apply stored_import in Hsave as (p' & Hp & Hstored); [|done..|].
  2:{ intros pkg keys. simpl. rewrite Hpkg. apply reinject_alone; [done|]. by destruct items. }
  destruct (Hf' id) as [Hrw Hn]. rewrite Hrw in Hun. rewrite Hn in Hname.
  assert (Ht : tables (sv_svc s3) = tables (sv_svc s2) ∧ oss_steps keyPrefix (fz_bucket (sv_fz s2)) (fz_bucket (sv_fz s3))).
  { apply frozen_by_ok in Hdel as (Hs & x & Hx & ->). split; [by rewrite Hs|].
    pose proof (delete_moves keyPrefix uploaded (sv_artifacts e) (mkFz (fz_bucket (sv_fz s2)) 0 (fz_count (sv_fz s2))) I) as Hm.
    by rewrite Hx in Hm. }
  destruct Ht as [Ht Hsteps]. exists zip, items, p'. rewrite <-Hid, Ht.
  pose proof Hstored as (docs & docs' & scope & res & e0 & sf & (Hnm & Htyp & _ & _ & _ & _ & _ & _ & _ & _ & _ & _ & Ho & Hsp & _) & _).
  simpl in Hnm, Htyp. split_and!; try done; [congruence|congruence|].
  intros Hleg Hsum e' z Hup' Hz.
  assert (downloads p' items (fz_bucket (sv_fz s2))) as Hd by by eapply stored_downloads.
  apply (Hd Hleg Hsum e' z Hup'). by etrans.
Qed.

Lemma imp_bind_ok {A B} (m : Imp A) (f : A → Imp B) e s b s' :
  (x ← m; f x) e s = (Ok b, s') → ∃ a s1, m e s = (Ok a, s1) ∧ f a e s1 = (Ok b, s').
Proof. unfold mbind, imp_bind. destruct (m e s) as [[a|] s1]; [|done]. by eauto. Qed.
Lemma imp_require_ok b err e s u s' : imp_require b err e s = (Ok u, s') → b = true ∧ s' = s.
Proof. destruct b; [|done]. by intros [= _ <-]. Qed.
Lemma saving_ok {A} (m : Save A) e s a s' :
  saving m e s = (Ok a, s') →
  m (im_save e) (im_st s) = (Ok a, im_st s') ∧ im_tasks s' = im_tasks s ∧ im_calls s' = im_calls s.
Proof. unfold saving. destruct (m _ _) as [r x]. by intros [= -> <-]. Qed.

(** *** The task *)

(** The task [id] as a request read it, and the row it consumed: between the
    statements, other requests. It is all the request does to the tasks. *)
Definition task_taken (c : Caller) (id : string) (task : TaskRow) (e : ImportEnv) (s : ImportSt) (ts : Tasks) : Prop :=
  let k := im_calls s in
  let read := im_others e k (im_tasks s) in
  let found := im_others e (S k) read in
  read !! id = Some task ∧ importable c task = true
  ∧ ∃ row, found !! id = Some row ∧ importable c row = true
      ∧ ts = <[id := set_status (im_now e (S k)) Consumed row]> found.

Lemma task_read_ok {A} (f : Tasks → A) e s o s' :
  task_read f e s = (Ok (Some o), s') →
  let ts := im_others e (im_calls s) (im_tasks s) in
  o = f ts ∧ im_st s' = im_st s ∧ im_tasks s' = ts ∧ im_calls s' = S (im_calls s).
Proof.
  unfold task_read. cbv zeta. generalize (f (im_others e (im_calls s) (im_tasks s))) as a. intros a.
  destruct (im_fault e (im_calls s)); simpl; by intros [= -> <-].
Qed.

Lemma consume_ok id c taken e s u s' :
  consume id c taken e s = (Ok u, s') →
  let ts := im_others e (im_calls s) (im_tasks s) in
  im_st s' = im_st s
  ∧ ∃ row, ts !! id = Some row ∧ importable c row = true
      ∧ im_tasks s' = <[id := set_status (im_now e (im_calls s)) Consumed row]> ts.
Proof.
  unfold consume, task_write, MarkParseTaskConsumed, update_task, importable, mbind, imp_bind. cbv zeta.
  generalize (im_others e (im_calls s) (im_tasks s)) as ts, (im_now e (im_calls s)) as now. intros ts now.
  destruct (im_fault e (im_calls s)); simpl; [|done|by destruct (ts !! id); [case_match|]].
  destruct (ts !! id) as [row|]; [|done]. destruct (has_status Success row && _ && _ && _) eqn:E; [|done].
  intros [= _ <-]. split; [done|]. exists row. split; [done|]. split; [|done].
  repeat apply andb_true_iff in E as [E ?]. by repeat (apply andb_true_iff; split).
Qed.
Lemma or_undo_ok {A} (m : Imp A) undo e s a s' : or_undo m undo e s = (Ok a, s') → m e s = (Ok a, s').
Proof. unfold or_undo. by destruct (m e s) as [[x|] s1]. Qed.

(** The row shown for the plugin to update, if there is one. *)
Definition target_read (c : Caller) (id : string) (d d' : Db) (old : option Plugin) : Prop :=
  match old with
  | None => id = ""
  | Some q => id ≠ "" ∧ OwnerUID q = CUID c ∧ Type_ q = Skill ∧ IsEmbedded q = false
      ∧ ∃ rels, seen (caller_scope c) id d d' q rels
  end.

Lemma target_read_later c id d d1 d2 old : runs_of any_op d1 d2 → target_read c id d d1 old → target_read c id d d2 old.
Proof.
  intros Hr. destruct old as [q|]; [|done]. intros (? & ? & ? & ? & rels & Hs). split_and!; try done.
  exists rels. by eapply seen_within.
Qed.

Lemma import_target_ok c p e s updateID old s' :
  import_target c (ip_plugin p) e s = (Ok (updateID, old), s') →
  updateID = update_target p ∧ target_ok updateID
  ∧ target_read c updateID (tables (sv_svc s)) (tables (sv_svc s')) old ∧ sv_fz s' = sv_fz s.
Proof.
  unfold import_target, update_target.
  destruct (String.eqb _ _); [intros [[= -> ->] ->]%save_ret_ok; split_and!; [done|by left|done..]|]. intros Hrun.
  apply save_bind_ok in Hrun as (id & ? & [Hid ->]%save_lift_ok & Hrun).
  apply save_bind_ok in Hrun as ([q r] & s1 & [Hask%detail_seen Hfz]%svc_ok & Hrun).
  apply save_bind_ok in Hrun as (? & ? & [Hown ->]%save_require_ok & [[= -> ->] ->]%save_ret_ok).
  unfold parseStorageID in Hid. destruct (valid_storage_id (ip_plugin p)) eqn:E; [|done]. injection Hid as <-.
  apply andb_true_iff in Hown as [[Ho%String.eqb_eq Ht%bool_decide_eq_true]%andb_true_iff He%negb_true_iff].
  split_and!; [done|by right| |done]. split_and!; try done; [by apply storage_id_ascii in E as [_ ?]|by exists r].
Qed.

(** C7: an imported skill can be downloaded. When a tenant's import succeeds, the
    task of the request was the caller's own, in their Space, completed and not
    yet used for a skill, both when it was read and when it was marked as
    consumed, which is all the import does to the tasks. The archive is the
    object under the task's key as it was at some moment of the import, with the
    size and digest the parse recorded. The plugin, the one to update, which was shown
    as the caller's own skill, or one under the drawn identifier, is
    the caller's skill, in their Space, under the resolved name. From then on, whatever
    is done to the bucket, a download of the stored row with the storage up
    succeeds and consists of exactly the files of the rewritten archive: each
    once, with its length and SHA-256, and SKILL.md to the byte; unless a file
    bears the name of an old pointer, or the files together exceed the archive
    limit. *)
Theorem imported_skill_downloads c p e s ans s' :
  CIsSystemAdmin c = false → valid_storage_id (sv_newID (im_save e)) = true →
  Import keyPrefix maxAttachmentBytes maxArchiveBytes c p e s = (Ok ans, s') →
  ∃ task f old zip items p',
    let id := or_string (update_target p) (sv_newID (im_save e)) in
    task_taken c (TrimSpace (ip_task p)) task e s (im_tasks s')
    ∧ target_read c (update_target p) (tables (sv_svc (im_st s))) (tables (sv_svc (im_st s'))) old
    ∧ resolveImportFields p task false old = Ok f
    ∧ fetched (fz_bucket (sv_fz (im_st s))) task zip ∧ unpacked zip (rewrite_params f id task) items
    ∧ plugins (tables (sv_svc (im_st s'))) !! id = Some p'
    ∧ Type_ p' = Skill ∧ Name p' = TrimSpace (if_plugin_name f) ∧ OwnerUID p' = CUID c ∧ SpaceID p' = Some (CSpaceID c)
    ∧ downloads p' items (fz_bucket (sv_fz (im_st s'))).
Proof.
  intros Hadm Hnew. unfold Import. intros Hrun.
  apply imp_bind_ok in Hrun as (? & ? & [_ ->]%imp_require_ok & Hrun). cbv zeta in Hrun.
  apply imp_bind_ok in Hrun as ([[task|]|] & s1 & Hread & Hrun); [|done..].
  apply task_read_ok in Hread as (Hfound & Hst1 & Hts1 & Hk1).
  apply imp_bind_ok in Hrun as (? & ? & [Htask ->]%imp_require_ok & Hrun).
  apply imp_bind_ok in Hrun as ([updateID old] & s2 & ((-> & Htgt & Hold & Hfz2)%import_target_ok & Hts2 & Hk2)%saving_ok & Hrun).
  apply imp_bind_ok in Hrun as (f & s3 & ([Hf Hst3]%save_lift_ok & Hts3 & Hk3)%saving_ok & Hrun). rewrite Hadm in Hf.
  apply imp_bind_ok in Hrun as (? & s4 & [Hst4 Htaken]%consume_ok & Hrun).
  apply or_undo_ok, saving_ok in Hrun as (Hrun & Hts & _).
  pose proof (consumed_import_saves keyPrefix maxAttachmentBytes maxArchiveBytes c task f (update_target p) old
    (im_save e) (im_st s4) (polite_any _)) as [Hruns _]. rewrite Hrun in Hruns. simpl in Hruns.
  destruct (consumed_import_ok c task f (update_target p) old _ _ _ _ Hadm Hnew Htgt Hrun)
    as (zip & items & p' & Hrec & Hun & Hp & Hty & Hn & Ho & Hsp & Hd).
  rewrite Hst4, Hst3 in Hruns, Hrec. rewrite Hfz2, Hst1 in Hrec. rewrite Hst1 in Hold.
  rewrite Hts3, Hts2, Hk3, Hk2, Hts1, Hk1 in Htaken.
  exists task, f, old, zip, items, p'. split_and!; try done.
  - split; [by symmetry|]. split; [done|]. by rewrite Hts.
  - by eapply target_read_later.
Qed.
End Imported.
