(* ===== verification/ImportRollback.v ===== *)
(** * Imports that fail

    Import of Importing.v undoes its own work: the tables and the objects that
    were there stay, and the task can be imported again. *)

From S2P Require Import Prelude GoStrings Version Model Notify Objects Store Rows RowWrites Write Review Changes Operations Lifecycle Service Outcomes CardAction Json Documents VersionArtifacts Zip Parse ParseTasks SkillTree Queries CatalogService Editing SkillFiles Saving Importing.
From Stdlib Require Import Ascii.
Import Go.
Local Open Scope string_scope.

(** ** Objects that are kept *)

Section Kept.
Context `{Crypto} (keyPrefix : string).

(** While no other request writes the bucket. *)
Abbreviation fz_keeps := (fz_rel (⊆@{gmap string string}) SkillTree.undisturbed).

Lemma put_keeps key body n f b : b ⊆ (PutImmutable keyPrefix key body n f b).2.
Proof.
  unfold PutImmutable. destruct (_ || _); [done|]. destruct (negb _); [done|].
  destruct (b !! oss_key keyPrefix key) eqn:E; [by destruct f|].
  destruct f; simpl; [by apply insert_subseteq|done|by apply insert_subseteq].
Qed.

Lemma freeze_keeps maxBytes spaceID resources key limit :
  fz_keeps (freeze keyPrefix maxBytes spaceID resources key limit).
Proof.
  intros e s He. unfold freeze. destruct (freezeArtifact _ _ _ _ _ _ _ _ _) as [[r total] b] eqn:E. simpl.
  revert E. unfold freezeArtifact. rewrite !He. simpl.
  repeat case_match; intros; simplify_eq/=; try done;
    match goal with H : PutImmutable ?p ?k ?d ?n ?f ?b = _ |- _ => pose proof (put_keeps k d n f b) as Hk; by rewrite H in Hk end.
Qed.

Lemma deleted_keeps_old (b0 : gmap string string) up e s :
  SkillTree.undisturbed e → Forall (λ key, b0 !! oss_key keyPrefix key = None) up → b0 ⊆ fz_bucket s →
  b0 ⊆ fz_bucket (deleteObjects keyPrefix up e s).2.
Proof.
  intros He Hup. revert s. induction Hup as [|key up Hn _ IH]; intros s Hb; [done|].
  cbn [deleteObjects]. rewrite fz_bind_run, storage_call_undisturbed by done. apply IH. simpl.
  unfold DeleteObject. destruct (IsImmutableArtifactKey key); [done|].
  assert (b0 ⊆ delete (oss_key keyPrefix key) (fz_bucket s)) as Hd.
  { apply map_subseteq_spec. intros k x Hk. rewrite lookup_delete_ne by congruence. by eapply lookup_weaken. }
  by destruct (flt _ _).
Qed.

Lemma delete_never_fails up e s : is_ok (deleteObjects keyPrefix up e s).1 = true.
Proof.
  revert s. induction up as [|k up IH]; intros s; [done|]. cbn [deleteObjects]. rewrite fz_bind_run.
  unfold storage_call. destruct (DeleteObject _ _ _ _) as [r b]. apply IH.
Qed.
End Kept.

Section Saves.
Context `{Host} `{Crypto} `{JsonText} `{LibPlugin} `{EditorLibs} `{PackageLibs}.
Context (keyPrefix : string) (maxAttachmentBytes maxArchiveBytes : Z).

Definition save_keeps {A} (m : Save A) : Prop := ∀ e s,
  SkillTree.undisturbed (sv_artifacts e) → fz_bucket (sv_fz s) ⊆ fz_bucket (sv_fz (m e s).2).

Lemma save_keeps_svc {A} (m : Svc A) : save_keeps (svc m).
Proof. intros e s _. unfold svc. by destruct (m _ _). Qed.
Lemma save_keeps_ret {A} (a : A) : save_keeps (mret a).
Proof. by intros e s _. Qed.
Lemma save_keeps_bind {A B} (m : Save A) (f : A → Save B) :
  save_keeps m → (∀ a, save_keeps (f a)) → save_keeps (a ← m; f a).
Proof.
  intros Hm Hf e s He. specialize (Hm e s He). unfold mbind, save_bind. destruct (m e s) as [[a|err] s']; [|done].
  etrans; [exact Hm|by apply Hf].
Qed.
Lemma save_keeps_frozen {A} (m : Fz A) : fz_rel (⊆) SkillTree.undisturbed m → save_keeps (frozen_by m).
Proof.
  intros Hm e s He. unfold frozen_by.
  specialize (Hm (sv_artifacts e) (mkFz (fz_bucket (sv_fz s)) 0 (fz_count (sv_fz s))) He). by destruct (m _ _).
Qed.

Ltac keeps := repeat
  lazymatch goal with
  | |- ∀ _, _ => intros ?
  | |- save_keeps (mbind _ _) => apply save_keeps_bind
  | |- save_keeps (svc _) => apply save_keeps_svc
  | |- save_keeps (save_require _ _) => apply save_keeps_svc
  | |- save_keeps (save_lift _) => apply save_keeps_svc
  | |- save_keeps (from_docs _) => apply save_keeps_svc
  | |- save_keeps (mret _) => apply save_keeps_ret
  | |- save_keeps fresh_id => intros ? ? ?; reflexivity
  | |- save_keeps (match ?x with _ => _ end) => destruct x
  | |- save_keeps (let _ := _ in _) => cbv zeta
  end.

Lemma build_relations_keeps c admin source now seen l : save_keeps (build_relations c admin source now seen l).
Proof. revert seen. induction l as [|r l IH]; intros seen; simpl; keeps; [unfold build_relation; keeps|apply IH]. Qed.

Lemma buildWrite_keeps c id req g now admin resource :
  save_keeps (buildWrite keyPrefix maxAttachmentBytes maxArchiveBytes c id req g now admin resource).
Proof.
  unfold buildWrite, buildRelations. keeps; try apply build_relations_keeps.
  all: apply save_keeps_frozen, freezeVersionArtifacts_rel; [apply _|intros; apply freeze_keeps].
Qed.

Lemma createWithID_keeps c req id : save_keeps (createWithID keyPrefix maxAttachmentBytes maxArchiveBytes c req id).
Proof. unfold createWithID. keeps; apply buildWrite_keeps. Qed.
Lemma svcUpdate_keeps c id req : save_keeps (svcUpdate keyPrefix maxAttachmentBytes maxArchiveBytes c id req).
Proof. unfold svcUpdate. keeps; apply buildWrite_keeps. Qed.
End Saves.

(** ** The failures of an import *)

Section Rollback.
Context `{JsonText} `{Host} `{Crypto} `{LibPlugin} `{EditorLibs} `{PackageLibs}.
Context (keyPrefix : string) (maxAttachmentBytes maxArchiveBytes : Z).

Abbreviation physical := (oss_key keyPrefix).

(** *** Objects *)

Lemma read_keeps {A} (f : fault → gmap string string → result StorageError A) :
  fz_rel (⊆) SkillTree.undisturbed (storage_read keyPrefix f).
Proof. intros e s He. unfold storage_read. by rewrite storage_call_undisturbed. Qed.

Lemma upload_keeps task : save_keeps (readVerifiedUpload keyPrefix maxArchiveBytes task).
Proof.
  unfold readVerifiedUpload. apply save_keeps_bind; [apply save_keeps_svc|intros _].
  apply save_keeps_bind; [apply save_keeps_svc|intros _]. apply save_keeps_bind.
  { apply save_keeps_frozen, fz_rel_bind; [apply _|apply read_keeps|]. intros r e s _. by destruct r. }
  intros body. cbv zeta. do 2 (apply save_keeps_bind; [apply save_keeps_svc|intros _]). apply save_keeps_ret.
Qed.

(** The keys of the objects a build reports are new, and nothing else is lost. *)
Definition builds_new (b : gmap string string) (up : list string) (s' : SaveSt) : Prop :=
  b ⊆ fz_bucket (sv_fz s') ∧ Forall (λ key, b !! physical key = None) up.

Lemma tree_builds sp id zip override cb e s r s' :
  SkillTree.undisturbed e →
  buildSkillAttachmentTree keyPrefix maxAttachmentBytes maxArchiveBytes sp id zip override cb e s = (r, s') →
  fz_bucket s ⊆ fz_bucket s' ∧ Forall (λ key, fz_bucket s !! physical key = None)
    (match r with Ok (_, up, _, _) => up | Error _ => [] end).
Proof.
  intros He Hrun. apply build_staged in Hrun as (Hk & Hup & _); [|done]. split; [by apply map_subseteq_spec|].
  eapply Forall_impl; [exact Hup|]. by intros key [].
Qed.

(** [m] keeps the objects and reports the new ones. *)
Definition builds {A} (m : Save A) (up : A → list string) : Prop := ∀ e s r s',
  SkillTree.undisturbed (sv_artifacts e) → m e s = (r, s') →
  builds_new (fz_bucket (sv_fz s)) (match r with Ok a => up a | Error _ => [] end) s'.

Lemma builds_after {A B} (m : Save A) (f : A → Save B) up :
  save_keeps m → (∀ a, builds (f a) up) → builds (a ← m; f a) up.
Proof.
  intros Hm Hf e s r s' He. unfold mbind, save_bind. specialize (Hm e s He).
  destruct (m e s) as [[a|err] s1]; simpl in Hm; [|by intros [= <- <-]].
  intros [Hk Hup]%Hf; [|done]. split; [by etrans|]. eapply Forall_impl; [exact Hup|].
  intros key. simpl. intros Hn. destruct (fz_bucket (sv_fz s) !! physical key) as [x|] eqn:E; [|done].
  by rewrite (lookup_weaken _ _ _ _ E Hm) in Hn.
Qed.

Lemma delete_undoes b0 up e s r s' :
  SkillTree.undisturbed (sv_artifacts e) → b0 ⊆ fz_bucket (sv_fz s) → Forall (λ key, b0 !! physical key = None) up →
  frozen_by (deleteObjects keyPrefix up) e s = (r, s') →
  b0 ⊆ fz_bucket (sv_fz s') ∧ sv_svc s' = sv_svc s ∧ is_ok r = true.
Proof.
  intros He Hb Hup. unfold frozen_by. set (s0 := mkFz _ _ _).
  pose proof (deleted_keeps_old keyPrefix b0 up (sv_artifacts e) s0 He Hup Hb) as Hd.
  pose proof (delete_never_fails keyPrefix up (sv_artifacts e) s0) as Hn.
  destruct (deleteObjects _ _ _ _) as [r' x]. simpl in *. intros [= <- <-]. split_and!; [done|done|]. by destruct r'.
Qed.

Lemma skill_builds sp reservedID task f safe :
  builds (buildImportedSkillWrite keyPrefix maxAttachmentBytes maxArchiveBytes sp reservedID task f safe) snd.
Proof.
  unfold buildImportedSkillWrite. apply builds_after; [apply upload_keeps|intros zip].
  apply builds_after; [by intros ? ? _|intros newID]. cbv zeta.
  apply builds_after; [apply save_keeps_svc|intros r]. apply builds_after; [apply save_keeps_svc|intros _].
  intros e s res s' He. unfold mbind at 1, save_bind at 1. unfold frozen_by at 1. set (s0 := mkFz _ _ _).
  destruct (buildSkillAttachmentTree _ _ _ _ _ _ _ _ _ s0) as [[[[[atts up] spl] left]|err] x] eqn:E;
    apply tree_builds in E as [Hk Hup]; try done; simpl; [|by intros [= <- <-]].
  unfold mbind, save_bind, save_or_undo, save_lift, svc, lift.
  destruct (buildImportWriteRequest f atts _) as [req|]; [by intros [= <- <-]|].
  simpl. destruct (frozen_by _ _ _) as [r' s2] eqn:Ed. intros [= <- <-].
  by apply (delete_undoes (fz_bucket (sv_fz s))) in Ed as (? & _).
Qed.

(** Whatever it answers, an import only adds objects. *)
Lemma consumed_import_keeps c task f updateID old :
  save_keeps (importConsumedTask keyPrefix maxAttachmentBytes maxArchiveBytes c task f updateID old).
Proof.
  unfold importConsumedTask. cbv zeta. set (f' := match old with Some _ => _ | None => _ end). clearbody f'.
  intros e s He. unfold mbind at 1, save_bind at 1.
  destruct (buildImportedSkillWrite _ _ _ _ _ _ _ _ _ _) as [[[[req id] up]|err] s1] eqn:Eb;
    apply skill_builds in Eb as [Hk Hup]; try done. simpl in Hup.
  set (save := if String.eqb updateID "" then _ else _).
  assert (save_keeps save) as Hsave.
  { unfold save. destruct (String.eqb updateID ""); [apply createWithID_keeps|apply svcUpdate_keeps]. }
  specialize (Hsave e s1 He). unfold mbind, save_bind, save_or_undo.
  destruct (save e s1) as [[ans|err] s2]; simpl in Hsave.
  all: destruct (frozen_by _ _ _) as [r s3] eqn:Ed.
  all: apply (delete_undoes (fz_bucket (sv_fz s))) in Ed as (Hd & _ & _); [|done|by etrans|done].
  all: by destruct r.
Qed.

(** *** Tables *)

(** A step that cannot fail after one that is idle when it fails. *)
Lemma fails_before {A B} (m : Save A) (k : A → Save B) :
  fails_idle m → (∀ a e s, is_ok (k a e s).1 = true) → fails_idle (a ← m; k a).
Proof.
  intros Hm Hk P e s err s' He. unfold mbind, save_bind. destruct (m e s) as [[a|x] s1] eqn:E.
  - intros Hr. pose proof (Hk a e s1) as Hok. by rewrite Hr in Hok.
  - intros [= _ <-]. by eapply Hm.
Qed.

Lemma fails_or_undo {A} (m : Save A) up :
  fails_idle m → fails_idle (save_or_undo m (frozen_by (deleteObjects keyPrefix up))).
Proof.
  intros Hm P e s err s' He. unfold save_or_undo. destruct (m e s) as [[a|x] s1] eqn:E; [done|].
  intros [= _ <-]. etrans; [by eapply Hm|]. unfold frozen_by. by destruct (deleteObjects _ _ _ _).
Qed.

Lemma consumed_import_fails c task f updateID old :
  fails_idle (importConsumedTask keyPrefix maxAttachmentBytes maxArchiveBytes c task f updateID old).
Proof.
  unfold importConsumedTask. cbv zeta. set (f' := match old with Some _ => _ | None => _ end). clearbody f'.
  apply (fails_bind keyPrefix); [intros P; apply skill_saves|]. intros [[req id] up]. apply fails_before.
  - apply fails_or_undo. destruct (String.eqb updateID ""); [apply create_fails|apply update_fails].
  - intros ans e s. unfold mbind, save_bind, frozen_by. set (s0 := mkFz _ _ _).
    pose proof (delete_never_fails keyPrefix up (sv_artifacts e) s0) as Hn.
    destruct (deleteObjects _ _ _ _) as [[u|err] x]; [done|discriminate Hn].
Qed.

(** *** The task *)

(** A row but for the time of its last change. *)
Definition untimed (t : TaskRow) : TaskRow := set_status 0 (t_status t) t.

Lemma untimed_back now now' t : t_status t = Success → untimed (set_status now Success (set_status now' Consumed t)) = untimed t.
Proof. destruct t. simpl. by intros ->. Qed.

(** Nobody else touches the tasks, and the statements on them succeed. *)
Definition tasks_calm (e : ImportEnv) : Prop := (∀ n ts, im_others e n ts = ts) ∧ ∀ n, im_fault e n = SqlOk.

(** From [s] to [s'] nothing of this request is left. *)
Definition nothing_left (P : Op → Prop) (e : ImportEnv) (s s' : ImportSt) : Prop :=
  runs_of P (tables (sv_svc (im_st s))) (tables (sv_svc (im_st s')))
  ∧ (SkillTree.undisturbed (sv_artifacts (im_save e)) → fz_bucket (sv_fz (im_st s)) ⊆ fz_bucket (sv_fz (im_st s')))
  ∧ (tasks_calm e → untimed <$> im_tasks s' = untimed <$> im_tasks s).
#[local] Instance nothing_left_preorder P e : PreOrder (nothing_left P e).
Proof.
  split; [by intros s|]. intros x y z (A1 & B1 & C1) (A2 & B2 & C2). split; [by etrans|]. split.
  - intros He. etrans; [by apply B1|by apply B2].
  - intros He. etrans; [by apply C2|by apply C1].
Qed.

Definition quiet {A} (P : Op → Prop) (m : Imp A) : Prop := ∀ e s r s',
  polite P (sv_env (im_save e)) → m e s = (r, s') → nothing_left P e s s'.
Definition rolls_back {A} (P : Op → Prop) (m : Imp A) : Prop := ∀ e s err s',
  polite P (sv_env (im_save e)) → m e s = (Error err, s') → nothing_left P e s s'.

Lemma rolls_bind {A B} P (m : Imp A) (f : A → Imp B) :
  quiet P m → (∀ a, rolls_back P (f a)) → rolls_back P (a ← m; f a).
Proof.
  intros Hm Hf e s err s' He. unfold mbind, imp_bind. destruct (m e s) as [[a|x] s1] eqn:E; apply Hm in E; try done.
  - intros Hr%Hf; [|done]. by etrans.
  - by intros [= _ <-].
Qed.
Lemma rolls_fail {A} P err : rolls_back P (imp_fail (A:=A) err).
Proof. by intros e s x s' _ [= _ <-]. Qed.
Lemma quiet_require P b err : quiet P (imp_require b err).
Proof. intros e s r s' _. destruct b; by intros [= _ <-]. Qed.
Lemma quiet_read {A} P (f : Tasks → A) : quiet P (task_read f).
Proof. intros e s r s' _ [= _ <-]. split; [done|]. split; [done|]. intros [Ho _]. simpl. by rewrite Ho. Qed.
Lemma quiet_saving {A} P (m : Save A) : saves keyPrefix P m → save_keeps m → quiet P (saving m).
Proof.
  intros Hm Hk e s r s' He. specialize (Hm (im_save e) (im_st s) He). specialize (Hk (im_save e) (im_st s)).
  unfold saving. destruct (m _ _) as [r' x]. intros [= _ <-]. simpl in *. split; [apply Hm|by split].
Qed.

Lemma target_quiet P c id : quiet P (saving (import_target c id)).
Proof.
  apply quiet_saving; unfold import_target; [destruct (String.eqb _ _); saves|].
  destruct (String.eqb _ _); [apply save_keeps_ret|]. apply save_keeps_bind; [apply save_keeps_svc|intros sid].
  apply save_keeps_bind; [apply save_keeps_svc|intros [old rels]].
  apply save_keeps_bind; [apply save_keeps_svc|intros _; apply save_keeps_ret].
Qed.

Lemma consume_outcome id c taken e s r s' :
  consume id c taken e s = (r, s') →
  im_st s' = im_st s
  ∧ (tasks_calm e → match r with
     | Ok _ => ∃ t now, im_tasks s !! id = Some t ∧ t_status t = Success
                 ∧ im_tasks s' = <[id := set_status now Consumed t]> (im_tasks s)
     | Error _ => im_tasks s' = im_tasks s
     end).
Proof.
  unfold consume, mbind, imp_bind, task_write. set (now := im_now e (im_calls s)).
  destruct (run_sql _ _ _) as [o ts1] eqn:Eq.
  intros Hr. split; [by destruct o as [[]|]; injection Hr as <- <-|].
  intros [Ho Hf]. rewrite Ho, Hf in Eq. simpl in Eq.
  unfold MarkParseTaskConsumed, update_task in Eq. destruct (im_tasks s !! id) as [t|] eqn:Et.
  - destruct (has_status Success t && _ && _ && _) eqn:Eg; simpl in Eq; injection Eq as <- <-; injection Hr as <- <-; [|done].
    repeat apply andb_true_iff in Eg as [Eg _]. apply bool_decide_eq_true in Eg. by exists t, now.
  - injection Eq as <- <-. by injection Hr as <- <-.
Qed.

Lemma release_outcome id e s r s' :
  release id e s = (r, s') →
  im_st s' = im_st s
  ∧ (tasks_calm e → ∀ t, im_tasks s !! id = Some t → t_status t = Consumed →
     ∃ now, im_tasks s' = <[id := set_status now Success t]> (im_tasks s)).
Proof.
  unfold release, mbind, imp_bind, task_write. set (now := im_now e (im_calls s)).
  destruct (run_sql _ _ _) as [o ts1] eqn:Eq. intros [= _ <-]. split; [done|].
  intros [Ho Hf] t Ht Hs. rewrite Ho, Hf in Eq. simpl in Eq. exists now.
  unfold ReleaseConsumedParseTask, update_task, has_status in Eq. rewrite Ht, bool_decide_eq_true_2 in Eq by done.
  by injection Eq as _ <-.
Qed.

(** The work between the consumption and the release. *)
Lemma consumption_rolls P id c taken (work : Save Saved) :
  fails_idle work → save_keeps work →
  rolls_back P (consume id c taken;; or_undo (saving work) (release id)).
Proof.
  intros Hw Hk e s err s' He. unfold mbind at 1, imp_bind at 1.
  destruct (consume id c taken e s) as [[u|x] s1] eqn:Ec; apply consume_outcome in Ec as [Hst Hts].
  2:{ intros [= _ <-]. split; [by rewrite Hst|]. split; [by rewrite Hst|]. intros Hc. by rewrite Hts. }
  unfold or_undo, saving. specialize (Hw P (im_save e) (im_st s1)). specialize (Hk (im_save e) (im_st s1)).
  destruct (work _ _) as [[ans|x] y]; [done|]. simpl in Hk. specialize (Hw x y He eq_refl).
  set (s2 := mkImportSt _ _ _). destruct (release id e s2) as [r s3] eqn:Er.
  apply release_outcome in Er as [Hst3 Hts3]. intros [= _ <-]. unfold nothing_left. simpl. rewrite Hst3. rewrite Hst in *.
  split; [exact Hw|]. split; [exact Hk|]. intros Hc. destruct (Hts Hc) as (t & now & Ht & Hs & Hts1).
  destruct (Hts3 Hc (set_status now Consumed t)) as (now' & ->); [|done|].
  - simpl. by rewrite Hts1, lookup_insert_eq.
  - simpl. rewrite Hts1, insert_insert_eq, fmap_insert, untimed_back by done. apply insert_id.
    by rewrite lookup_fmap, Ht.
Qed.

(** C25: a failed import changes nothing. When an import answers with an error,
    from whatever check, parse, storage or database fault of the save it comes,
    the tables are as the other requests that ran meanwhile left them. While
    nobody else writes the bucket, every object that was in it still has its
    bytes; and while nobody else touches the parse tasks and the statements on
    them succeed, every task is as it was but for the time of its last change,
    so that the upload can be imported again. *)
Theorem failed_import_changes_nothing (P : Op → Prop) c p e s err s' :
  polite P (sv_env (im_save e)) →
  Import keyPrefix maxAttachmentBytes maxArchiveBytes c p e s = (Error err, s') →
  runs_of P (tables (sv_svc (im_st s))) (tables (sv_svc (im_st s')))
  ∧ (SkillTree.undisturbed (sv_artifacts (im_save e)) → fz_bucket (sv_fz (im_st s)) ⊆ fz_bucket (sv_fz (im_st s')))
  ∧ (tasks_calm e → untimed <$> im_tasks s' = untimed <$> im_tasks s).
Proof.
  intros He Hr. assert (rolls_back P (Import keyPrefix maxAttachmentBytes maxArchiveBytes c p)) as Hroll.
  2:{ exact (Hroll e s err s' He Hr). }
  unfold Import. apply rolls_bind; [apply quiet_require|intros _]. cbv zeta.
  apply rolls_bind; [apply quiet_read|]. intros [[task|]|]; [|apply rolls_fail..].
  apply rolls_bind; [apply quiet_require|intros _].
  apply rolls_bind; [apply target_quiet|intros [updateID old]].
  apply rolls_bind; [apply quiet_saving; [saves|apply save_keeps_svc]|intros f].
  apply consumption_rolls; [apply consumed_import_fails|apply consumed_import_keeps].
Qed.
End Rollback.
