(* ===== verification/Submitting.v ===== *)
(** * Submitting for review: service/plugin/review.go and listing.go

    How a review request comes about: what is frozen for the reviewer (the draft,
    submitted documents, or an uploaded archive), the consumption of a parse
    task, the insertion of the request, its automatic approval where the Space
    allows it, and the publish button in front of it. Version management and
    reference pinning are off. *)

From S2P Require Import Prelude GoStrings Version Model Notify Objects Store Rows RowWrites Write Review Listing Changes Operations Lifecycle Service Outcomes CardAction ReviewService Json Documents VersionArtifacts Zip Parse ParseTasks SkillTree Reads Queries CatalogService Editing SkillFiles Importing.
From Stdlib Require Import Ascii.
Import Go.
Local Open Scope string_scope.

Record SubmitParams := mkSubmitParams {
  sp_revision : string;
  sp_plugin : string;
  sp_version : string;
  sp_changelog : string;
  sp_task : string;
  sp_manifest : RawMessage;
  sp_package : RawMessage;
  sp_relations : option (list RelationRequest)
}.

Definition nonblank (doc : RawMessage) : bool := negb (String.eqb (TrimSpace doc) "").

(** What an effect of a service operation does outside the tables. *)
Definition try_save {A} (m : Save A) : Save (result SvcErr A) := λ e s,
  let '(r, s') := m e s in (Ok r, s').

Section Submitting.
Context `{JsonText} `{Host} `{Crypto} `{LibPlugin} `{EditorLibs} `{PackageLibs}.
Context (keyPrefix : string) (maxAttachmentBytes maxArchiveBytes : Z).

Definition perform_effect (eff : Effect) : Imp unit :=
  match eff with
  | EDelete key => saving (frozen_by (deleteObjects keyPrefix [key]))
  | ECard _ => mret tt
  | ERelease id => release id
  end.
Fixpoint perform_effects (l : list Effect) : Imp unit :=
  match l with [] => mret tt | eff :: l' => perform_effect eff;; perform_effects l' end.

(** A service operation with what it does to the bucket and the tasks. *)
Definition performing {A} (m : Svc A) : Imp A := λ e s,
  let '(r, s1) := saving (svc m) e s in
  let new := List.skipn (length (effects (sv_svc (im_st s)))) (effects (sv_svc (im_st s1))) in
  (r, (perform_effects new e s1).2).

(** ** Freezing a submission *)

Definition sameAttachmentSidecar (a b : RawMessage) : bool :=
  bool_decide (attachmentKeyMap a = attachmentKeyMap b).

Definition decodeTagsJSON (raw : RawMessage) : list string :=
  if String.eqb raw "" then [] else default [] (json_parse raw ≫= as_strings).

Definition submission_fields (q : Plugin) (version : string) : ImportFields :=
  mkFields (Name q) (manifestName (Manifest q)) (manifestDescription (Manifest q)) version true
    (decodeTagsJSON (Tags q)) (Visibility q) (CategoryID q) (Icon q) None.

Definition freeze_documents_of (c : Caller) (q : Plugin) (docs : CanonicalDocuments) : Save CanonicalDocuments :=
  frozen_by (freezeVersionArtifacts keyPrefix maxAttachmentBytes maxArchiveBytes (CSpaceID c) [Some q] (Type_ q) docs).

(** The relations of the submission: as given, or the live ones. *)
Definition submission_relations (c : Caller) (detail : Detail) (given : option (list RelationRequest))
    : Save (list PluginRelation) :=
  match given with
  | None => mret (dt_relations detail)
  | Some l => now ← svc clock; buildRelations c false (dt_plugin detail) l now
  end.

Definition snapshot_of (docs : CanonicalDocuments) (rels : list PluginRelation) (revision : string) (declared : bool)
    : FrozenSnapshot :=
  mkFrozen revision (d_manifest docs) (d_package docs) (d_attachment_keys docs) rels
    (d_manifest_hash docs) (d_plugin_hash docs) declared.

(** From an archive: the snapshot, or the failure, and the objects staged that
    are still there. *)
Definition freezeSubmissionFromParseTask (c : Caller) (detail : Detail) (p : SubmitParams) (task : TaskRow)
    : Save (list string * result SvcErr FrozenSnapshot) :=
  let q := dt_plugin detail in
  let f := submission_fields q (sp_version p) in
  let zipName := TrimSpace (ps_name (task_result task)) in
  if negb (String.eqb zipName "") && negb (String.eqb zipName (if_name f)) then
    mret ([], Error (SErrField "parse_task_id" "name_mismatch"))
  else
    built ← try_save (buildImportedSkillWrite keyPrefix maxAttachmentBytes maxArchiveBytes (CSpaceID c) (ID q)
                        task f true);
    match built with
    | Error err => mret ([], Error err)
    | Ok (req, _, uploaded) =>
        match canonicalizePluginDocuments (Some q) (Name q) (Type_ q) (wr_tags req) (wr_manifest req)
                (wr_package req) (CSpaceID c) with
        | None =>
            frozen_by (deleteObjects keyPrefix uploaded);;
            mret ([], Error (SErrField "parse_task_id" "invalid_package"))
        | Some docs =>
            frozen ← try_save (freeze_documents_of c q docs);
            match frozen with
            | Error err => mret (uploaded, Error err)
            | Ok docs =>
                rels ← try_save (submission_relations c detail (sp_relations p));
                match rels with
                | Error err => frozen_by (deleteObjects keyPrefix uploaded);; mret ([], Error err)
                | Ok rels => mret (uploaded, Ok (snapshot_of docs rels "" true))
                end
            end
        end
    end.

(** From the request or the row. *)
Definition freezeSubmission (c : Caller) (detail : Detail) (p : SubmitParams) : Save FrozenSnapshot :=
  let q := dt_plugin detail in
  let hasManifest := nonblank (sp_manifest p) in
  save_require (Bool.eqb hasManifest (nonblank (sp_package p)))
    (SErrField "manifest_json" "manifest_and_package_required_together");;
  save_require (hasManifest || negb (bool_decide (ListingState q = Published))) SErrReviewContentRequired;;
  docs ←
    (if hasManifest then
       let pkg := reinjectUpdateStorageKeys (sp_package p) (Package q) (AttachmentKeys q) in
       match canonicalizePluginDocuments (Some q) (Name q) (Type_ q) (Tags q) (sp_manifest p) pkg (CSpaceID c) with
       | None => save_fail (SErrField "manifest_json" "invalid")
       | Some docs =>
           save_require (sameAttachmentSidecar (d_attachment_keys docs) (AttachmentKeys q))
             (SErrField "plugin_json" "storage_attachment_change_requires_zip_upload");;
           mret docs
       end
     else mret (mkDocuments (Manifest q) (Package q) "" (AttachmentKeys q) (ManifestHash q) (PluginHash q)));
  rels ← submission_relations c detail (sp_relations p);
  docs ← freeze_documents_of c q docs;
  mret (snapshot_of docs rels "" hasManifest).

(** ** Submitting *)

Definition set_revision (v : string) (s : FrozenSnapshot) : FrozenSnapshot :=
  mkFrozen v (fs_manifest s) (fs_package s) (fs_attachment_keys s) (fs_relations s) (fs_manifest_hash s)
    (fs_plugin_hash s) (fs_declared_content s).

Definition trimmed (p : SubmitParams) : SubmitParams :=
  mkSubmitParams (sp_revision p) (TrimSpace (sp_plugin p)) (TrimSpace (sp_version p)) (TrimSpace (sp_changelog p))
    (TrimSpace (sp_task p)) (sp_manifest p) (sp_package p) (sp_relations p).

Definition submit_request (c : Caller) (p : SubmitParams) : SubmitRequest :=
  mkSubmit (sp_plugin p) (CSpaceID c) "space" (sp_version p) (nonempty (sp_changelog p)) (CUID c) (CName c).

Definition projection_of (row : ReviewRow) (q : Plugin) : ReviewProjection :=
  mkProjection row (Name q) (Type_ q) (CurrentVersion q).

(** The plugin a submission is about, and the rules it is refused by. *)
Definition submittable (c : Caller) (p : SubmitParams) : Save Detail :=
  save_require (negb (String.eqb (sp_plugin p) "") && validVersion (sp_version p)) (SErrField "version" "invalid");;
  save_require (negb (maxRejectReasonRunes <? RuneCountInString (sp_changelog p))%nat) (SErrField "changelog" "too_long");;
  save_require (Bool.eqb (nonblank (sp_manifest p)) (nonblank (sp_package p)))
    (SErrField "manifest_json" "manifest_and_package_required_together");;
  save_require (negb (nonblank (sp_manifest p) && negb (String.eqb (sp_task p) "")))
    (SErrField "parse_task_id" "mutually_exclusive_with_manifest_json");;
  detail ← svc (currentDetail c (sp_plugin p) true);
  let q := dt_plugin detail in
  save_require (String.eqb (OwnerUID q) (CUID c)) SErrNotFound;;
  save_require (match CurrentVersion q with Some cur => VersionNotRegressed cur (sp_version p) | None => true end)
    SErrVersionRegressed;;
  save_require (negb (IsEmbedded q)) SErrNotFound;;
  save_require (bool_decide (Visibility q = VSpace)) SErrInvalidRequest;;
  save_require (String.eqb (sp_task p) "" || bool_decide (Type_ q = Skill))
    (SErrField "parse_task_id" "only_valid_for_skill_plugins");;
  mret detail.

(** What is frozen, with the consumption of the task it comes from: a failure
    releases the task and deletes what was staged. *)
Definition frozen_submission (c : Caller) (detail : Detail) (p : SubmitParams) : Imp (list string * FrozenSnapshot) :=
  if String.eqb (sp_task p) "" then
    snap ← saving (freezeSubmission c detail p); mret ([], snap)
  else
    let id := sp_task p in
    let invalid := SErrField "parse_task_id" "invalid_or_consumed" in
    r ← task_read (GetByID id);
    match r with
    | None => imp_fail (SErrOther "load parse task")
    | Some None => imp_fail invalid
    | Some (Some task) =>
        imp_require (importable c task) invalid;;
        consume id c (SErrField "parse_task_id" "already_consumed");;
        '(uploaded, r) ← saving (freezeSubmissionFromParseTask c detail p task);
        match r with
        | Ok snap => mret (uploaded, snap)
        | Error err =>
            release id;;
            saving (frozen_by (deleteObjects keyPrefix uploaded));;
            imp_fail err
        end
    end.

(** [submitReview] after its caller's check, the parameters trimmed. *)
Definition submitReview (c : Caller) (p : SubmitParams) (dispatchCard : bool) : Imp ReviewProjection :=
  saving (save_lift (validateCaller c));;
  let p := trimmed p in
  detail ← saving (submittable c p);
  '(uploaded, snap) ← frozen_submission c detail p;
  r ← saving (svc (call (InsertReviewRequest (caller_scope c) (submit_request c p) (set_revision (sp_revision p) snap))));
  match r with
  | Error err =>
      saving (frozen_by (deleteObjects keyPrefix uploaded));;
      (if String.eqb (sp_task p) "" then mret tt else release (sp_task p));;
      imp_fail (mapStoreError err)
  | Ok row =>
      saving (frozen_by (deleteObjects keyPrefix uploaded));;
      let stored := projection_of row (dt_plugin detail) in
      (if dispatchCard then performing (dispatchReviewCard c stored (Some (dt_plugin detail))) else mret tt);;
      mret stored
  end.

(** The answer when the approved request cannot be read back. *)
Definition approved_locally (c : Caller) (now : Z) (r : ReviewRow) : ReviewRow :=
  mkReview (rr_id r) (rr_plugin_id r) (rr_space_id r) (rr_target_scope r) Approved (rr_kind r)
    (rr_version r) (rr_changelog r) (rr_manifest r) (rr_package r) (rr_attachment_keys r)
    (rr_relations r) (rr_manifest_hash r) (rr_plugin_hash r) (rr_applicant_uid r) (rr_applicant_name r)
    (Some (CUID c)) (Some (CName c)) (rr_reason r) (Some SourcePolicy) (rr_submitted_at r) (Some now)
    (rr_created_at r) (rr_updated_at r) (rr_deleted_at r).

Definition SubmitReview (c : Caller) (p : SubmitParams) : Imp ReviewRow :=
  saving (save_lift (validateCaller c));;
  r ← saving (svc (call (GetReviewPolicy (caller_scope c))));
  auto ← saving (svc (mapped r));
  stored ← submitReview c p (negb auto);
  if negb auto then mret (pj_row stored)
  else
    performing (autoApproveReview c stored (sp_task p));;
    r ← saving (svc (read (GetReviewRequest (caller_scope c) (rr_id (pj_row stored)) false)));
    match r with
    | Ok approved => mret approved
    | Error _ => now ← saving (svc clock); mret (approved_locally c now (pj_row stored))
    end.

(** ** The publish button (listing.go) *)

Record PublishRequest := mkPublishRequest {
  pr_revision : string;
  pr_plugin : string;
  pr_version : string;
  pr_changelog : string
}.

Definition publish_version (given : string) (current : option string) : string :=
  let version := or_string (TrimSpace given) (TrimSpace (default "" current)) in
  or_string version defaultCurrentVersion.

(** The plugin, published or still a draft, and the request opened. *)
Definition Publish (c : Caller) (p : PublishRequest) : Imp (Plugin * option ReviewRow) :=
  saving (save_lift (validateCaller c));;
  let pluginID := TrimSpace (pr_plugin p) in
  imp_require (negb (String.eqb pluginID "")) SErrInvalidRequest;;
  detail ← saving (svc (currentDetail c pluginID true));
  let q := dt_plugin detail in
  imp_require (String.eqb (OwnerUID q) (CUID c)) SErrNotFound;;
  imp_require (String.eqb (pr_revision p) "" || String.eqb (PluginDraftRevision q) (pr_revision p)) SErrConflict;;
  imp_require (negb (IsEmbedded q)) SErrNotFound;;
  imp_require (negb (bool_decide (ListingState q = Published))) SErrAlreadyPublished;;
  r ← saving (svc (read (λ d, Ok (HasPendingReview (caller_scope c) (ID q) d))));
  pending ← saving (svc (mapped r));
  imp_require (negb pending) SErrReviewPending;;
  if bool_decide (Visibility q = VSpace) then
    r ← saving (svc (call (GetReviewPolicy (caller_scope c))));
    auto ← saving (svc (mapped r));
    review ← submitReview c
      (mkSubmitParams (pr_revision p) (ID q) (publish_version (pr_version p) (CurrentVersion q)) (pr_changelog p)
         "" "" "" None) (negb auto);
    if auto : bool then
      published ← performing (autoApproveReview c review ""); mret (published, None)
    else mret (q, Some (pj_row review))
  else
    imp_require (bool_decide (Visibility q = VPrivate)) SErrInvalidRequest;;
    r ← saving (svc (call (PublishPlugin (caller_scope c)
                             (mkPublish (pr_revision p) (ID q) (mkOperator (CUID c) (CName c) (CRequestID c) None)))));
    published ← saving (svc (mapped r));
    mret (published, None).
End Submitting.
