(* ===== verification/Submission.v ===== *)
(** * What is submitted for review

    The submissions of Submitting.v: the request that is stored holds the frozen
    form of what was submitted, from an uploaded archive, from edited documents or
    from the draft, and keeps it until it is decided. *)

From S2P Require Import Prelude GoStrings Version Model Notify Objects Store Rows RowWrites Write Review Listing Changes Operations Lifecycle Service Outcomes CardAction ReviewService Json Documents VersionArtifacts Zip Parse ParseTasks SkillTree Reads Queries CatalogService Editing SkillFiles Saving Importing Uploads Imported ImportRollback Submitting.
From Stdlib Require Import Ascii.
Import Go.
Local Open Scope string_scope.

(** ** What a request does to the tables and the bucket *)

Section Moves.
Context `{JsonText} `{Host} `{Crypto} `{LibPlugin} `{EditorLibs} `{PackageLibs}.
Context (keyPrefix : string) (maxAttachmentBytes maxArchiveBytes : Z).

Definition moved (s s' : ImportSt) : Prop :=
  runs_of any_op (tables (sv_svc (im_st s))) (tables (sv_svc (im_st s')))
  ∧ oss_steps keyPrefix (fz_bucket (sv_fz (im_st s))) (fz_bucket (sv_fz (im_st s'))).
#[export] Instance moved_preorder : PreOrder moved.
Proof. split; [by intros s|]. intros x y z [A1 B1] [A2 B2]. by split; etrans. Qed.

Definition imp_moves {A} (m : Imp A) : Prop := ∀ e s r s', m e s = (r, s') → moved s s'.

Lemma imp_moves_ret {A} (a : A) : imp_moves (mret a).
Proof. by intros e s r s' [= _ <-]. Qed.
Lemma imp_moves_bind {A B} (m : Imp A) (f : A → Imp B) :
  imp_moves m → (∀ a, imp_moves (f a)) → imp_moves (a ← m; f a).
Proof.
  intros Hm Hf e s r s'. unfold mbind, imp_bind. destruct (m e s) as [[a|err] s1] eqn:E; apply Hm in E.
  - intros Hr%Hf. by etrans.
  - by intros [= _ <-].
Qed.
Lemma imp_moves_saving {A} (m : Save A) : saves keyPrefix any_op m → imp_moves (saving m).
Proof.
  intros Hm e s r s'. specialize (Hm (im_save e) (im_st s) (polite_any _)). unfold saving.
  destruct (m _ _) as [r' x]. by intros [= _ <-].
Qed.
Lemma imp_moves_write m : imp_moves (task_write m).
Proof. intros e s r s'. unfold task_write. destruct (run_sql _ _ _). by intros [= _ <-]. Qed.
Lemma release_moves id : imp_moves (release id).
Proof. unfold release. apply imp_moves_bind; [apply imp_moves_write|intros _; apply imp_moves_ret]. Qed.
Lemma delete_saving_moves up : imp_moves (saving (frozen_by (deleteObjects keyPrefix up))).
Proof. apply imp_moves_saving, saves_frozen, delete_moves. Qed.

Lemma performing_moves {A} (m : Svc A) : performs any_op m → imp_moves (performing keyPrefix m).
Proof.
  intros Hm e s r s'. unfold performing. destruct (saving (svc m) e s) as [r1 s1] eqn:E.
  apply imp_moves_saving in E; [|by apply saves_svc]. intros [= _ <-]. etrans; [exact E|].
  generalize (List.skipn (length (effects (sv_svc (im_st s)))) (effects (sv_svc (im_st s1)))) as l.
  intros l. assert (imp_moves (perform_effects keyPrefix l)) as Hl.
  { induction l as [|eff l IH]; [apply imp_moves_ret|]. apply imp_moves_bind; [|intros _; exact IH].
    destruct eff; [apply delete_saving_moves|apply imp_moves_ret|apply release_moves]. }
  destruct (perform_effects keyPrefix l e s1) as [r2 s2] eqn:E2. by apply Hl in E2.
Qed.
End Moves.

(** ** The frozen content *)

Section Submission.
Context `{JsonLaws} `{CryptoLaws} `{!LibPlugin} `{!LibLaws} `{EditorLibs} `{PackageLibs}.
Context (keyPrefix : string) (maxAttachmentBytes maxArchiveBytes : Z).
Hypothesis limits : (0 ≤ maxAttachmentBytes < 2 ^ 53 ∧ 0 ≤ maxArchiveBytes)%Z.

(** Where the documents of a submission for the plugin [q] come from, and what it
    does to the parse tasks: [e] and [s] are those of the request, [ts] the tasks
    it leaves. *)
Inductive submitted_content (c : Caller) (q : Plugin) (p : SubmitParams) (e : ImportEnv) (s : ImportSt) (ts : Tasks)
    : CanonicalDocuments → Prop :=
| from_archive task zip items id req docs :
    sp_task p ≠ "" → task_taken c (sp_task p) task e s ts → fetched keyPrefix (fz_bucket (sv_fz (im_st s))) task zip →
    TrimSpace (ps_name (task_result task)) ∈ [""; manifestName (Manifest q)] → (ID q ≠ "" → id = ID q) →
    unpacked maxAttachmentBytes maxArchiveBytes zip (rewrite_params (submission_fields q (sp_version p)) id task) items →
    buildImportWriteRequest (submission_fields q (sp_version p)) (attachments_of (CSpaceID c) id 0 items)
      (negb (String.eqb (ID q) "")) = Some req →
    canonicalizePluginDocuments (Some q) (Name q) (Type_ q) (wr_tags req) (wr_manifest req)
      (package_document (attachments_of (CSpaceID c) id 0 items)) (CSpaceID c) = Some docs →
    submitted_content c q p e s ts docs
| from_documents docs :
    ts = im_tasks s → sp_task p = "" → nonblank (sp_manifest p) = true →
    canonicalizePluginDocuments (Some q) (Name q) (Type_ q) (Tags q) (sp_manifest p)
      (reinjectUpdateStorageKeys (sp_package p) (Package q) (AttachmentKeys q)) (CSpaceID c) = Some docs →
    attachmentKeyMap (d_attachment_keys docs) = attachmentKeyMap (AttachmentKeys q) →
    submitted_content c q p e s ts docs
| from_row :
    ts = im_tasks s → sp_task p = "" → nonblank (sp_manifest p) = false → ListingState q ≠ Published →
    submitted_content c q p e s ts
      (mkDocuments (Manifest q) (Package q) "" (AttachmentKeys q) (ManifestHash q) (PluginHash q)).

(** The snapshot is the content [docs] frozen, in a bucket that can be [b]. *)
Definition snapshot_frozen (q : Plugin) (docs : CanonicalDocuments) (snap : FrozenSnapshot) (b : gmap string string) : Prop :=
  ∃ docs', fs_manifest snap = d_manifest docs' ∧ fs_package snap = d_package docs'
    ∧ fs_attachment_keys snap = d_attachment_keys docs' ∧ fs_manifest_hash snap = d_manifest_hash docs'
    ∧ fs_plugin_hash snap = d_plugin_hash docs'
    ∧ (Type_ q ≠ Connector → ∀ b', oss_steps keyPrefix b b' → frozen_documents keyPrefix b' docs docs').

Lemma freeze_documents_ok c q docs e s docs' s' :
  freeze_documents_of keyPrefix maxAttachmentBytes maxArchiveBytes c q docs e s = (Ok docs', s') →
  Type_ q ≠ Connector → ∀ b', oss_steps keyPrefix (fz_bucket (sv_fz s')) b' → frozen_documents keyPrefix b' docs docs'.
Proof.
  intros (_ & x & Hx & ->)%frozen_by_ok Ht b' Hb. apply freeze_freezes in Hx as [_ Hf]; [|lia|done].
  by eapply frozen_documents_kept.
Qed.

(** The relations frozen: the ones given, one for one, or the live ones [rels]
    of the plugin [q]. *)
Definition submitted_relations (q : Plugin) (rels : list PluginRelation) (p : SubmitParams) (snap : FrozenSnapshot) : Prop :=
  match sp_relations p with
  | Some l => Forall2 requested_edge l (fs_relations snap)
  | None => fs_relations snap = set_source_type (Type_ q) <$> rels
  end.

Lemma relations_ok c detail given e s x s' :
  submission_relations c detail given e s = (Ok x, s') →
  match given with Some l => Forall2 requested_edge l x | None => x = dt_relations detail end.
Proof.
  unfold submission_relations. destruct given as [l|]; [|by intros [-> _]%save_ret_ok].
  intros (now & s1 & _ & Hr)%save_bind_ok. unfold buildRelations in Hr.
  by apply save_bind_ok in Hr as (? & ? & _ & Hr%build_relations_requested).
Qed.

(** The row and relations of a detail, as [seen]. *)
Definition shown (c : Caller) (id : string) (d d' : Db) (detail : Detail) : Prop :=
  ∃ rels, seen (caller_scope c) id d d' (dt_plugin detail) rels
    ∧ dt_relations detail = set_source_type (Type_ (dt_plugin detail)) <$> rels.

Lemma current_shown c id e s detail s' :
  svc (currentDetail c id true) e s = (Ok detail, s') →
  shown c id (tables (sv_svc s)) (tables (sv_svc s')) detail ∧ sv_fz s' = sv_fz s.
Proof.
  intros [Hrun Hfz]%svc_ok. split; [|exact Hfz]. revert Hrun. generalize (sv_svc s) as x, (sv_svc s') as x'. clear.
  intros x x'. unfold currentDetail, mbind, svc_bind, lift. destruct (validateCaller c); [|done].
  unfold parseStorageID. destruct (valid_storage_id id); [|done].
  destruct (ask (GetWithRelations (caller_scope c) id) (sv_env e) x) as [[[q rels]|err] x1] eqn:Ea; [|done].
  apply detail_seen in Ea. intros Hrun. exists rels.
  match type of Hrun with context [if ?b then ?a else ?o] => destruct b end.
  - match type of Hrun with context [ask ?m (sv_env e) x1] =>
      pose proof (performs_ask any_op m (sv_env e) x1 (polite_any _)) as Hl; destruct (ask m (sv_env e) x1) as [[o|err] x2] end;
      [|done]. injection Hrun as <- <-. split; [|done]. eapply seen_within, Ea; done.
  - injection Hrun as <- <-. by split.
Qed.

Lemma relations_saves c detail given : saves keyPrefix any_op (submission_relations c detail given).
Proof.
  unfold submission_relations. destruct given as [l|]; [|saves]. unfold buildRelations. saves. apply build_relations_saves.
Qed.

Definition frozen_relations (detail : Detail) (p : SubmitParams) (snap : FrozenSnapshot) : Prop :=
  match sp_relations p with
  | Some l => Forall2 requested_edge l (fs_relations snap)
  | None => fs_relations snap = dt_relations detail
  end.

Lemma frozen_from_row c detail p e0 s0 e s snap s' :
  sp_task p = "" →
  freezeSubmission keyPrefix maxAttachmentBytes maxArchiveBytes c detail p e s = (Ok snap, s') →
  ∃ docs, submitted_content c (dt_plugin detail) p e0 s0 (im_tasks s0) docs
    ∧ snapshot_frozen (dt_plugin detail) docs snap (fz_bucket (sv_fz s'))
    ∧ frozen_relations detail p snap.
Proof.
  intros Ht. unfold freezeSubmission. cbv zeta. set (q := dt_plugin detail). intros Hrun.
  apply save_bind_ok in Hrun as (? & ? & [_ ->]%save_require_ok & Hrun).
  apply save_bind_ok in Hrun as (? & ? & [Hl ->]%save_require_ok & Hrun).
  apply save_bind_ok in Hrun as (docs & s1 & Hdocs & Hrun).
  apply save_bind_ok in Hrun as (rels & s2 & Hr%relations_ok & Hrun).
  apply save_bind_ok in Hrun as (docs' & s3 & Hf & [-> ->]%save_ret_ok).
  exists docs. split.
  - destruct (nonblank (sp_manifest p)) eqn:Em.
    + destruct (canonicalizePluginDocuments _ _ _ _ _ _ _) as [docs0|] eqn:Ec; [|done].
      apply save_bind_ok in Hdocs as (? & ? & [Hside%bool_decide_eq_true ->]%save_require_ok & [-> ->]%save_ret_ok).
      by apply from_documents.
    + apply save_ret_ok in Hdocs as [-> ->]. apply from_row; [done|done|done|]. simpl in Hl.
      by apply negb_true_iff, bool_decide_eq_false in Hl.
  - split; [|exact Hr]. exists docs'. split_and!; try done. by eapply freeze_documents_ok.
Qed.

Lemma try_save_ok {A} (m : Save A) e s r s' : try_save m e s = (Ok r, s') → m e s = (r, s').
Proof. unfold try_save. destruct (m e s) as [x y]. by intros [= <- <-]. Qed.

Lemma frozen_from_archive c detail p task e0 s0 ts e s uploaded snap s' :
  sp_task p ≠ "" → task_taken c (sp_task p) task e0 s0 ts → sv_fz s = sv_fz (im_st s0) →
  freezeSubmissionFromParseTask keyPrefix maxAttachmentBytes maxArchiveBytes c detail p task e s
    = (Ok (uploaded, Ok snap), s') →
  ∃ docs, submitted_content c (dt_plugin detail) p e0 s0 ts docs
    ∧ snapshot_frozen (dt_plugin detail) docs snap (fz_bucket (sv_fz s'))
    ∧ frozen_relations detail p snap.
Proof.
  intros Ht Htaken Hfz. unfold freezeSubmissionFromParseTask. cbv zeta. set (q := dt_plugin detail) in *.
  destruct (negb _ && _) eqn:Hname; [by intros [[= _ E] _]%save_ret_ok|]. intros Hrun.
  apply save_bind_ok in Hrun as (built & s1 & Hb%try_save_ok & Hrun).
  destruct built as [[[req id] up]|err]; [|by apply save_ret_ok in Hrun as [[= _ E] _]].
  apply skill_built in Hb as (_ & Hid' & zip & items & Hrec & Hun & Hreq & Hpkg & _ & _ & _).
  assert (ID q ≠ "" → id = ID q) as Hidq.
  { intros Hne. rewrite Hid'. unfold or_string. by rewrite (proj2 (String.eqb_neq _ _) Hne). }
  destruct (canonicalizePluginDocuments _ _ _ _ _ _ _) as [docs|] eqn:Ec.
  2:{ by apply save_bind_ok in Hrun as (? & ? & _ & [[= _ E] _]%save_ret_ok). }
  apply save_bind_ok in Hrun as (frozen & s2 & Hf%try_save_ok & Hrun).
  destruct frozen as [docs'|err]; [|by apply save_ret_ok in Hrun as [[= _ E] _]].
  apply save_bind_ok in Hrun as (rels & s3 & Hr%try_save_ok & Hrun).
  destruct rels as [rels|err]; [|by apply save_bind_ok in Hrun as (? & ? & _ & [[= _ E] _]%save_ret_ok)].
  apply save_ret_ok in Hrun as [[= -> ->] ->]. rewrite Hpkg in Ec. rewrite Hfz in Hrec. exists docs.
  split; [|split; [|by apply relations_ok in Hr]].
  { eapply from_archive; try done. apply andb_false_iff in Hname as [Hn|Hn]; apply negb_false_iff, String.eqb_eq in Hn; rewrite Hn; set_solver. }
  exists docs'. split_and!; try done. intros Hc b' Hb'. eapply (freeze_documents_ok _ _ _ _ _ _ _ Hf Hc).
  etrans; [|exact Hb']. pose proof (relations_saves c detail (sp_relations p) e s2 (polite_any _)) as [_ Hs].
  by rewrite Hr in Hs.
Qed.

(** A submission's content depends on the tasks, the bucket and the count of
    statements only. *)
Lemma submitted_from c q p e s s' ts ts' docs :
  im_tasks s' = im_tasks s → im_calls s' = im_calls s → sv_fz (im_st s') = sv_fz (im_st s) →
  submitted_content c q p e s' ts docs → ts' = ts → submitted_content c q p e s ts' docs.
Proof.
  intros Ht Hk Hb Hc ->. destruct Hc.
  - eapply from_archive; try done; [unfold task_taken in *; by rewrite <-Ht, <-Hk|by rewrite <-Hb].
  - apply from_documents; try done. by rewrite <-Ht.
  - apply from_row; try done. by rewrite <-Ht.
Qed.

(** What is frozen, from whichever source. *)
Lemma frozen_submission_ok c detail p e s uploaded snap s' :
  frozen_submission keyPrefix maxAttachmentBytes maxArchiveBytes c detail p e s = (Ok (uploaded, snap), s') →
  ∃ docs, submitted_content c (dt_plugin detail) p e s (im_tasks s') docs
    ∧ snapshot_frozen (dt_plugin detail) docs snap (fz_bucket (sv_fz (im_st s')))
    ∧ frozen_relations detail p snap.
Proof.
  unfold frozen_submission. destruct (String.eqb_spec (sp_task p) "") as [Ht|Ht].
  - intros (sn & s1 & (Hf & Hts & _)%saving_ok & [= <- <- <-])%imp_bind_ok. rewrite Hts. by eapply frozen_from_row.
  - cbv zeta. intros (r & s1 & Hread & Hrun)%imp_bind_ok. destruct r as [[task|]|]; [|discriminate Hrun..].
    apply task_read_ok in Hread as (Hfound & Hst1 & Hts1 & Hk1).
    apply imp_bind_ok in Hrun as (? & ? & [Himp ->]%imp_require_ok & Hrun).
    apply imp_bind_ok in Hrun as (? & s2 & [Hst2 Htaken]%consume_ok & Hrun). rewrite Hts1, Hk1 in Htaken.
    apply imp_bind_ok in Hrun as ([up r] & s3 & (Hf & Hts3 & _)%saving_ok & Hrun).
    destruct r as [sn|err].
    + injection Hrun as <- <- <-. eapply frozen_from_archive; [exact Ht| | |exact Hf].
      * split; [by symmetry|]. split; [done|]. by rewrite Hts3.
      * by rewrite Hst2, Hst1.
    + apply imp_bind_ok in Hrun as (? & ? & _ & Hrun). by apply imp_bind_ok in Hrun as (? & ? & _ & Hrun).
Qed.

Lemma submittable_ok c p e s detail s' :
  submittable c p e s = (Ok detail, s') →
  let q := dt_plugin detail in
  OwnerUID q = CUID c ∧ IsEmbedded q = false ∧ Visibility q = VSpace
  ∧ (sp_task p ≠ "" → Type_ q = Skill) ∧ validVersion (sp_version p) = true
  ∧ shown c (sp_plugin p) (tables (sv_svc s)) (tables (sv_svc s')) detail ∧ sv_fz s' = sv_fz s.
Proof.
  unfold submittable. cbv zeta. intros Hrun.
  apply save_bind_ok in Hrun as (? & ? & [[_ Hv]%andb_true_iff ->]%save_require_ok & Hrun).
  do 3 apply save_bind_ok in Hrun as (? & ? & [_ ->]%save_require_ok & Hrun).
  apply save_bind_ok in Hrun as (d & s1 & [Hd Hfz]%current_shown & Hrun).
  apply save_bind_ok in Hrun as (? & ? & [Ho%String.eqb_eq ->]%save_require_ok & Hrun).
  apply save_bind_ok in Hrun as (? & ? & [_ ->]%save_require_ok & Hrun).
  apply save_bind_ok in Hrun as (? & ? & [He%negb_true_iff ->]%save_require_ok & Hrun).
  apply save_bind_ok in Hrun as (? & ? & [Hvis%bool_decide_eq_true ->]%save_require_ok & Hrun).
  apply save_bind_ok in Hrun as (? & ? & [Hty ->]%save_require_ok & [-> ->]%save_ret_ok).
  split; [done|]. split; [done|]. split; [done|]. split; [|by split_and!]. intros Ht%String.eqb_neq. rewrite Ht in Hty. by apply bool_decide_eq_true in Hty.
Qed.

Lemma snapshot_frozen_later q docs snap b b' :
  oss_steps keyPrefix b b' → snapshot_frozen q docs snap b → snapshot_frozen q docs snap b'.
Proof.
  intros Hb (docs' & H1' & H2' & H3' & H4' & H5' & Hf). exists docs'. split_and!; try done.
  intros Hc x Hx. apply Hf; [done|]. by etrans.
Qed.

(** Sending the card changes neither the tables nor the bucket nor the tasks. *)
Lemma dispatch_quiet c stored q e s r s' :
  performing keyPrefix (dispatchReviewCard c stored q) e s = (r, s') → im_tasks s' = im_tasks s.
Proof.
  unfold performing, saving, dispatchReviewCard, svc, bestEffort, emit, ask_notify, mbind, svc_bind.
  destruct (NotifyEnabled _); simpl.
  - rewrite drop_app_length. by intros [= _ <-].
  - rewrite List.skipn_all. by intros [= _ <-].
Qed.

Lemma dispatch_moves c stored q : performs any_op (dispatchReviewCard c stored q).
Proof. unfold dispatchReviewCard, bestEffort. performs. Qed.

Lemma submittable_moves c p : imp_moves keyPrefix (saving (submittable c p)).
Proof.
  apply imp_moves_saving. unfold submittable. saves. apply saves_svc. unfold currentDetail. performs; apply performs_ask.
Qed.

Lemma try_saves {A} (m : Save A) : saves keyPrefix any_op m → saves keyPrefix any_op (try_save m).
Proof. intros Hm e s He. specialize (Hm e s He). unfold try_save. by destruct (m e s). Qed.

Lemma freezing_saves c q docs :
  saves keyPrefix any_op (freeze_documents_of keyPrefix maxAttachmentBytes maxArchiveBytes c q docs).
Proof. apply saves_frozen, freezeVersionArtifacts_moves. Qed.

Lemma archive_saves c detail p task :
  saves keyPrefix any_op (freezeSubmissionFromParseTask keyPrefix maxAttachmentBytes maxArchiveBytes c detail p task).
Proof.
  unfold freezeSubmissionFromParseTask. cbv zeta. destruct (negb _ && _); [saves|].
  saves; try (apply saves_frozen, delete_moves); apply try_saves;
    first [apply skill_saves|apply freezing_saves|apply relations_saves].
Qed.

Lemma row_saves c detail p : saves keyPrefix any_op (freezeSubmission keyPrefix maxAttachmentBytes maxArchiveBytes c detail p).
Proof.
  unfold freezeSubmission, save_fail. saves; try apply relations_saves; apply freezing_saves.
Qed.

Lemma frozen_submission_moves c detail p :
  imp_moves keyPrefix (frozen_submission keyPrefix maxAttachmentBytes maxArchiveBytes c detail p).
Proof.
  unfold frozen_submission. destruct (String.eqb _ _).
  { apply imp_moves_bind; [apply imp_moves_saving, row_saves|intros ?; apply imp_moves_ret]. }
  cbv zeta. apply imp_moves_bind; [by intros e s r s' [= _ <-]|]. intros [[task|]|]; [|by intros e s r s' [= _ <-]..].
  apply imp_moves_bind; [intros e s r s'; destruct (importable c task); by intros [= _ <-]|intros _].
  apply imp_moves_bind; [|intros _].
  { unfold consume. apply imp_moves_bind; [apply imp_moves_write|]. intros [[]|]; [apply imp_moves_ret|by intros e s r s' [= _ <-]..]. }
  apply imp_moves_bind; [apply imp_moves_saving, archive_saves|]. intros [up [sn|err]]; [apply imp_moves_ret|].
  apply imp_moves_bind; [apply release_moves|intros _].
  apply imp_moves_bind; [apply delete_saving_moves|intros _]. by intros e s r s' [= _ <-].
Qed.

(** After the insertion: the objects staged are deleted and the card sent. *)
Definition after_insertion (c : Caller) (detail : Detail) (up : list string) (dispatch : bool) (row : ReviewRow) : Imp ReviewProjection :=
  saving (frozen_by (deleteObjects keyPrefix up));;
  (if dispatch then performing keyPrefix (dispatchReviewCard c (projection_of row (dt_plugin detail)) (Some (dt_plugin detail)))
   else mret tt);;
  mret (projection_of row (dt_plugin detail)).
Lemma after_insertion_moves c detail up dispatch row : imp_moves keyPrefix (after_insertion c detail up dispatch row).
Proof.
  apply imp_moves_bind; [apply delete_saving_moves|intros _]. apply imp_moves_bind; [|intros _; apply imp_moves_ret].
  destruct dispatch; [apply performing_moves, dispatch_moves|apply imp_moves_ret].
Qed.

Lemma after_insertion_tasks c detail up dispatch row e s proj s' :
  after_insertion c detail up dispatch row e s = (Ok proj, s') → im_tasks s' = im_tasks s ∧ pj_row proj = row.
Proof.
  unfold after_insertion. intros (? & s1 & (_ & Ht1 & _)%saving_ok & Hrun)%imp_bind_ok.
  apply imp_bind_ok in Hrun as (? & s2 & Ht2 & [= <- <-]). split; [|done]. rewrite <-Ht1.
  destruct dispatch; [by apply dispatch_quiet in Ht2|by injection Ht2 as _ <-].
Qed.

Lemma kept_request s s' row :
  moved keyPrefix s s' → reviews (tables (sv_svc (im_st s))) !! rr_id row = Some row →
  ∃ row', reviews (tables (sv_svc (im_st s'))) !! rr_id row = Some row' ∧ same_submission row row'.
Proof.
  intros [Hr%runs_steps _] Hrow.
  assert (reviews_persist (tables (sv_svc (im_st s))) (tables (sv_svc (im_st s')))) as Hp.
  { revert Hr. apply steps_rel; [apply _|]. apply change_reviews. }
  destruct (Hp _ _ Hrow) as (row' & ? & ? & _). by exists row'.
Qed.

End Submission.
