(* ===== verification/Enabled.v ===== *)
(** * Operations that must succeed

    With no server fault, a transaction whose stated conditions hold commits:
    an admissible submission is stored, an open request can always be rejected
    or withdrawn, and an approvable request can be approved. [twp] is the total
    counterpart of [wp]. *)

From S2P Require Import Prelude GoStrings Version Model Store Rows RowWrites Write Review Listing Changes Operations Sync Children Lifecycle Decisions Outcomes.
Local Open Scope string_scope.

Definition healthy (e : Env) : Prop := ∀ n, faults e n = None.

(** [m] succeeds from [s], with [Q]. *)
Definition twp {A} (m : Tx A) (e : Env) (s : St) (Q : A → St → Prop) : Prop :=
  ∃ a s', m e s = Ok (a, s') ∧ Q a s'.
(** [m] succeeds from every state. *)
Definition sure {A} (m : Tx A) (e : Env) : Prop := ∀ s, ∃ r, m e s = Ok r.

Section Total.
Context (e : Env) (Hok : healthy e).

Lemma twp_ret {A} (a : A) s (Q : A → St → Prop) : Q a s → twp (mret a) e s Q.
Proof. intros HQ. by exists a, s. Qed.
Lemma twp_bind {A B} (m : Tx A) (f : A → Tx B) s (Q : B → St → Prop) :
  twp m e s (λ a s', twp (f a) e s' Q) → twp (a ← m; f a) e s Q.
Proof.
  intros (a & s' & Hm & b & s'' & Hf & HQ). exists b, s''. split; [|done].
  unfold mbind, tx_bind. by rewrite Hm.
Qed.
Lemma twp_mono {A} (m : Tx A) s (P Q : A → St → Prop) :
  twp m e s P → (∀ a s', P a s' → Q a s') → twp m e s Q.
Proof. intros (a & s' & Hm & HP) HQ. exists a, s'. auto. Qed.
Lemma twp_require b err s (Q : unit → St → Prop) : b = true → Q tt s → twp (require b err) e s Q.
Proof. intros -> HQ. by apply twp_ret. Qed.
Lemma twp_newID s (Q : string → St → Prop) : Q (ids e (tick s)) (bump s) → twp newID e s Q.
Proof. intros HQ. by eexists _, _. Qed.
Lemma twp_now s (Q : Z → St → Prop) : Q (times e (tick s)) (bump s) → twp now e s Q.
Proof. intros HQ. by eexists _, _. Qed.
Lemma twp_statement {A} (f : Db → result Err (A * Db)) s a d (Q : A → St → Prop) :
  f (db s) = Ok (a, d) → Q a (mkSt (S (tick s)) d) → twp (statement f) e s Q.
Proof. intros Hf HQ. eexists _, _. split; [|done]. unfold statement. by rewrite Hok, Hf. Qed.
Lemma twp_query {A} (f : Db → A) s (Q : A → St → Prop) :
  Q (f (db s)) (bump s) → twp (query f) e s Q.
Proof. intros HQ. by eapply twp_statement. Qed.
Lemma twp_execN f s n d (Q : nat → St → Prop) :
  f (db s) = (n, d) → Q n (mkSt (S (tick s)) d) → twp (execN f) e s Q.
Proof. intros Hf HQ. eapply twp_statement; [by rewrite Hf|done]. Qed.
Lemma twp_execE f s d (Q : unit → St → Prop) :
  f (db s) = Ok d → Q tt (mkSt (S (tick s)) d) → twp (execE f) e s Q.
Proof. intros Hf HQ. eapply twp_statement; [by rewrite Hf|done]. Qed.
Lemma twp_catch {A} (m : Tx A) h s (Q : A → St → Prop) : twp m e s Q → twp (catch m h) e s Q.
Proof. intros (a & s' & Hm & HQ). exists a, s'. split; [|done]. unfold catch. by rewrite Hm. Qed.
Lemma twp_sure {A} (m : Tx A) s (Q : A → St → Prop) : sure m e → wp m e s Q → twp m e s Q.
Proof. intros Hs. destruct (Hs s) as [[a s'] Hm]. unfold wp. rewrite Hm. by exists a, s'. Qed.

(** A transaction that succeeds commits. *)
Lemma transact_commits {A} (m : Tx A) d (Q : A → St → Prop) :
  twp m e (mkSt 1 d) Q → ∃ a d', transact m e d = (Ok a, d').
Proof.
  intros (a & s' & Hm & _). exists a, (db s'). unfold transact, mbind, tx_bind, exec, statement. simpl.
  by rewrite Hok, Hm, Hok.
Qed.

Lemma sure_ret {A} (a : A) : sure (mret a) e.
Proof. intros s. by eexists. Qed.
Lemma sure_bind {A B} (m : Tx A) (f : A → Tx B) : sure m e → (∀ a, sure (f a) e) → sure (mbind f m) e.
Proof.
  intros Hm Hf s. destruct (Hm s) as [[a s'] E]. unfold mbind, tx_bind. rewrite E. apply Hf.
Qed.
Lemma sure_newID : sure newID e.
Proof. intros s. by eexists. Qed.
Lemma sure_now : sure now e.
Proof. intros s. by eexists. Qed.
Lemma sure_query {A} (f : Db → A) : sure (query f) e.
Proof. intros s. eexists. unfold query, statement. by rewrite Hok. Qed.
Lemma sure_exec f : sure (exec f) e.
Proof. intros s. eexists. unfold exec, statement. by rewrite Hok. Qed.
Lemma sure_execN f : sure (execN f) e.
Proof. intros s. unfold execN, statement. rewrite Hok. destruct (f (db s)). by eexists. Qed.
Lemma sure_for_each {A} (l : list A) f : (∀ x, sure (f x) e) → sure (for_each l f) e.
Proof.
  intros Hf. induction l as [|x l IH]; simpl; [apply sure_ret|]. apply sure_bind; [apply Hf|done].
Qed.

End Total.

Ltac sure_tac Hok :=
  repeat first
    [ apply sure_ret | apply sure_newID | apply sure_now
    | apply (sure_query _ Hok) | apply (sure_exec _ Hok) | apply (sure_execN _ Hok)
    | apply sure_for_each; intros ? | apply sure_bind; [|intros ?] | case_match ].

Section Enabled.
Context `{Host} (e : Env) (Hok : healthy e).

(** ** Rows that can be locked *)

Lemma getOwned_twp scope id p s (Q : Plugin → St → Prop) :
  plugins (db s) !! id = Some p → owned_by scope p = true → live p = true → Q p (bump s) →
  twp (getOwnedForUpdate scope id) e s Q.
Proof.
  intros Hp Ho Hl HQ. unfold getOwnedForUpdate. apply twp_bind, (twp_query _ Hok).
  unfold find_plugin. rewrite Hp. simpl. rewrite Ho, Hl. by apply twp_ret.
Qed.
Lemma getReviewed_twp sp id p s (Q : Plugin → St → Prop) :
  plugins (db s) !! id = Some p → SpaceID p = Some sp → live p = true → Q p (bump s) →
  twp (getReviewedPluginForUpdate sp id) e s Q.
Proof.
  intros Hp Hsp Hl HQ. unfold getReviewedPluginForUpdate. apply twp_bind, (twp_query _ Hok).
  unfold find_plugin. rewrite Hp. simpl. rewrite bool_decide_true, Hl by done. by apply twp_ret.
Qed.
Lemma lockPending_twp id sp r s (Q : ReviewRow → St → Prop) :
  reviews (db s) !! id = Some r → rr_status r = Pending → rr_deleted_at r = None →
  rr_space_id r = sp → Q r (bump s) → twp (lockPendingReview id sp) e s Q.
Proof.
  intros Hr Hst Hd Hsp HQ. unfold lockPendingReview. apply twp_bind, (twp_query _ Hok).
  unfold find_review. rewrite Hr. simpl. unfold rr_live, rr_in_space.
  rewrite Hst, Hd, Hsp, String.eqb_refl. by apply twp_ret.
Qed.
Lemma insertAudit_twp t p a m b c s (Q : unit → St → Prop) :
  (∀ n, audits (db s) !! ids e n = None) →
  (∀ m s', db s' = set_audits m (db s) → Q tt s') → twp (insertAudit t p a m b c) e s Q.
Proof.
  intros Hf HQ. unfold insertAudit. apply twp_bind, twp_newID.
  eapply (twp_execE _ Hok); [unfold insert_audit; simpl; by rewrite Hf|]. by eapply HQ.
Qed.
(** The decision time. *)
Lemma decided_at_twp (o : option Z) s (Q : Z → St → Prop) :
  (∀ t s', db s' = db s → Q t s') →
  twp (match o with Some t => mret t | None => now end) e s Q.
Proof. intros HQ. destruct o; [apply twp_ret|apply twp_now]; by apply HQ. Qed.

(** ** Submission *)

(** An admissible submission is never refused. With no server fault, when
    the caller owns the live plugin, the plugin is reviewable, the draft
    revision named (if any) is current, an upgrade of a published plugin
    declares its content, the label neither regresses nor was published, and no
    request is open, the submission commits. *)
Theorem submission_admitted scope req snap current d :
  (∀ n, reviews d !! ids e n = None) →
  plugins d !! sub_plugin_id req = Some current → owned_by scope current = true →
  live current = true → reviewable current = true →
  (fs_expected_draft_revision snap = "" ∨ fs_expected_draft_revision snap = PluginDraftRevision current) →
  (ListingState current = Published → fs_declared_content snap = true) →
  not_regressed_from (CurrentVersion current) (sub_version req) = true →
  sub_version req ∉ publishedLabels (sub_plugin_id req) current d →
  pending_exists (sub_plugin_id req) d = false →
  ∃ row d', InsertReviewRequest scope req snap e d = (Ok row, d').
Proof.
  intros Hf Hp Ho Hl Hrev Hexp Hdecl Hreg Hlab Hpend.
  apply (transact_commits e Hok _ d (λ _ _, True)). unfold insertReviewInTx.
  apply twp_bind. eapply getOwned_twp; [done..|].
  apply twp_bind, twp_require.
  { destruct Hexp as [->| ->]; [done|]. by rewrite String.eqb_refl, orb_true_r. }
  apply twp_bind, twp_require; [done|]. cbv zeta.
  apply twp_bind, twp_require.
  { case_bool_decide; [by rewrite Hdecl|]. by rewrite orb_true_r. }
  apply twp_bind, twp_require; [done|].
  apply twp_bind, (twp_query _ Hok), twp_bind, twp_require.
  { by apply negb_true_iff, mem_false. }
  apply twp_bind. unfold checkPendingReview.
  apply twp_bind, (twp_query _ Hok), twp_require; [simpl; by rewrite Hpend|].
  apply twp_bind, twp_now, twp_bind, twp_newID, twp_bind, twp_catch.
  eapply (twp_execE _ Hok); [|by apply twp_ret].
  unfold insert_review. simpl. by rewrite Hf, Hpend.
Qed.

(** ** Closing a request *)

Lemma no_group_twp id sp st uid name reason t s (Q : unit → St → Prop) :
  groups (db s) !! id = None → Q tt (bump s) →
  twp (finishVisibilityGroup id sp st uid name reason t) e s Q.
Proof.
  intros Hg HQ. unfold finishVisibilityGroup, visibilityGroup.
  apply twp_bind, twp_bind, (twp_query _ Hok). rewrite Hg. by do 2 apply twp_ret.
Qed.

(** No request is stuck. With no server fault, an open request on a live
    plugin of its Space can be rejected by a reviewer of the Space, and
    withdrawn by its applicant. *)
Theorem open_requests_closable scope p uid rr current d :
  (∀ n, audits d !! ids e n = None) → groups d !! ReviewID p = None →
  reviews d !! ReviewID p = Some rr → rr_status rr = Pending → rr_deleted_at rr = None →
  rr_space_id rr = ScopeSpaceID scope → rr_applicant_uid rr = uid →
  plugins d !! rr_plugin_id rr = Some current → SpaceID current = Some (ScopeSpaceID scope) →
  live current = true → CardReceipt p = None →
  (∃ keys d', RejectReview scope p e d = (Ok keys, d'))
  ∧ (∃ keys d', CancelReview scope (ReviewID p) uid e d = (Ok keys, d')).
Proof.
  intros Hf Hg Hr Hst Hdel Hsp Hap Hp Hps Hl Hcard. split.
  - apply (transact_commits e Hok _ d (λ _ _, True)). unfold rejectInTx.
    apply twp_bind, twp_now, twp_bind. rewrite Hcard. apply twp_ret. unfold rejectBody.
    apply twp_bind. eapply lockPending_twp; [done..|].
    apply twp_bind. eapply getReviewed_twp; [done..|].
    apply twp_bind, decided_at_twp. intros t s1 E1.
    apply twp_bind. eapply (twp_execN _ Hok).
    { apply update_review_row; [by rewrite E1|done]. }
    apply twp_bind, twp_require; [done|].
    apply twp_bind, insertAudit_twp; [simpl; by rewrite E1|]. intros m s2 E2.
    apply twp_bind, no_group_twp; [by rewrite E2; simpl; rewrite E1|].
    apply twp_bind, (twp_query _ Hok). by apply twp_ret.
  - apply (transact_commits e Hok _ d (λ _ _, True)). unfold cancelInTx.
    apply twp_bind, (twp_query _ Hok). unfold find_review, rr_live, rr_in_space. simpl. rewrite Hr. simpl.
    rewrite Hap, Hdel, Hsp, !String.eqb_refl. simpl. rewrite Hst.
    apply twp_bind, twp_require; [done|].
    apply twp_bind. eapply getReviewed_twp; [done..|].
    apply twp_bind, twp_now, twp_bind. eapply (twp_execN _ Hok).
    { apply update_review_row; [done|]. by rewrite Hap, Hdel, Hsp, Hst, !String.eqb_refl. }
    apply twp_bind, twp_require; [done|].
    apply twp_bind, no_group_twp; [done|]. apply twp_bind, (twp_query _ Hok). by apply twp_ret.
Qed.

(** ** Approval *)

(** The reviewed name is valid and free. *)
Definition name_admitted (d : Db) (current : Plugin) (rr : ReviewRow) : Prop :=
  ∃ key nscope,
    pluginNameColumns (manifestNameAndTags (rr_manifest rr)).1 (SpaceID current) = Ok (key, nscope)
    ∧ (IsEmbedded current = true ∨ name_collides d current key nscope = false).

Lemma applyApproved_twp sp current rr t s (Q : unit → St → Prop) :
  plugins (db s) !! rr_plugin_id rr = Some current → SpaceID current = Some sp →
  live current = true → name_admitted (db s) current rr →
  (∀ q s', db s' = set_plugins (<[rr_plugin_id rr := q]> (plugins (db s))) (db s) →
     listed q = true → live q = true → SpaceID q = Some sp → Q tt s') →
  twp (applyApprovedSnapshot sp current rr t (negb (listed current))) e s Q.
Proof.
  intros Hp Hsp Hl (key & ns & Hk & Hn) HQ. unfold applyApprovedSnapshot.
  destruct (manifestNameAndTags (rr_manifest rr)) as [fname ftags] eqn:Hm. simpl in Hk.
  unfold live in Hl. apply andb_true_iff in Hl as [Hs%bool_decide_eq_true Hd%bool_decide_eq_true].
  assert (not_deleted current = true) as Hnd by by apply not_deleted_true.
  assert (in_space sp current = true) as His by by apply bool_decide_eq_true.
  apply twp_bind. apply twp_mono with (P := λ kn s', kn = (key, ns) ∧ db s' = db s).
  { unfold checkedNameColumns. rewrite Hk. apply twp_bind. destruct (IsEmbedded current) eqn:He.
    - apply twp_ret, twp_ret. done.
    - destruct Hn as [Hn|Hn]; [congruence|]. unfold rejectPluginNameCollision.
      apply twp_bind, (twp_query _ Hok), twp_require; [by rewrite Hn|]. by apply twp_ret. }
  intros ? s1 [-> E1]. cbn beta iota.
  assert (∀ q, live (apply_snapshot rr t key ns q) = live q) as Hlive.
  { intros q. unfold apply_snapshot. rewrite Hm. by destruct q. }
  assert (live current = true) as Hlc by (unfold live; by rewrite Hs, Hd).
  destruct (apply_snapshot_identity rr t key ns current) as (Hid & _ & Hlist).
  destruct (listed current) eqn:Hli; simpl.
  - apply twp_bind, twp_catch. eapply (twp_execN _ Hok).
    { apply (update_plugin_row _ _ _ _ current); [by rewrite E1|by rewrite His, Hnd]. }
    apply twp_ret. eapply HQ; [by simpl; rewrite E1|by rewrite Hlist|by rewrite Hlive|].
    unfold apply_snapshot. rewrite Hm. by destruct current.
  - apply twp_bind, twp_catch. eapply (twp_execN _ Hok).
    { apply (update_plugin_row _ _ _ _ current); [by rewrite E1|]. by rewrite His, Hnd, Hli. }
    apply twp_require; [done|]. eapply HQ; [by simpl; rewrite E1|done| |].
    + rewrite <-Hlc, <-(Hlive current). by destruct (apply_snapshot rr t key ns current).
    + unfold apply_snapshot. rewrite Hm. by destruct current.
Qed.

(** The number of the next snapshot is free. *)
Lemma next_number_free id d :
  numbered d →
  existsb (λ w, String.eqb (pv_version w) (Itoa (S (length (versions_of id d))))) (versions_of id d) = false.
Proof.
  intros Hn. apply not_true_iff_false. intros (w & Hw & Hv%String.eqb_eq)%existsb_exists.
  apply list_elem_of_In in Hw. assert (pv_version w ∈ Itoa <$> seq 1 (length (versions_of id d))) as Hin.
  { rewrite <-(Hn id). by apply list_elem_of_fmap_2. }
  apply list_elem_of_fmap in Hin as (n & Hw' & Hin%elem_of_seq). rewrite Hv in Hw'.
  apply (inj pretty) in Hw'. lia.
Qed.

Lemma snapshotVersion_twp t p rels note by_ q s (Q : string → St → Prop) :
  (∀ n, versions (db s) !! ids e n = None) → numbered (db s) →
  (Type_ p ≠ Connector → ∃ a, snapshotArtifacts p = Ok a) →
  plugins (db s) !! ID p = Some q → live q = true →
  (∀ v q' vs s', db s' = set_plugins (<[ID p := q']> (plugins (db s))) (set_versions vs (db s)) →
     live q' = true → SpaceID q' = SpaceID q → Q v s') →
  CurrentVersion p ≠ None → CurrentVersion p ≠ Some "" →
  twp (snapshotVersion t p rels note by_) e s Q.
Proof.
  intros Hf Hnum Ha Hq Hl HQ Hv1 Hv2.
  assert (not_deleted q = true) as Hnd.
  { unfold live in Hl. apply andb_true_iff in Hl as [_ ?%bool_decide_eq_true]. by apply not_deleted_true. }
  unfold snapshotVersion. case_decide as Ht.
  - destruct (CurrentVersion p) as [l|]; [|done].
    destruct (String.eqb_spec l "") as [->|]; [done|]. apply twp_bind. eapply (twp_execN _ Hok).
    { by apply (update_plugin_row _ _ _ _ q). }
    apply twp_ret. eapply (HQ _ _ (versions (db s))); [by destruct (db s)| |]; by destruct q.
  - destruct (Ha Ht) as [a ->]. apply twp_bind, (twp_query _ Hok), twp_bind, twp_newID, twp_bind.
    eapply (twp_execE _ Hok).
    { unfold insert_version. simpl. by rewrite Hf, next_number_free. }
    apply twp_bind. eapply (twp_execN _ Hok).
    { by apply (update_plugin_row _ _ _ _ q). }
    apply twp_ret. eapply HQ; [done| |]; by destruct q.
Qed.

(** The tables the middle of an approval leaves alone. *)
Definition same_records (d d' : Db) : Prop :=
  reviews d' = reviews d ∧ versions d' = versions d ∧ audits d' = audits d.

Lemma listing_records d d' : changes [KList; KPlace; KEdge] d d' → same_records d d'.
Proof.
  intros Hc. split_and!; [by eapply reviews_kept|by eapply versions_kept|].
  eapply (keeps_of_changes audits [KList; KPlace; KEdge]); [|done|done].
  intros k x y Hk Hxy. destruct Hxy; done || (exfalso; set_solver).
Qed.

(** Promoting the embedded children never fails. *)
Lemma sure_promote id ty sp a t : sure (promoteEmbeddedChildren id ty sp a t) e.
Proof.
  unfold promoteEmbeddedChildren, promoteEmbeddedIDs, collectEmbeddedChildren, embeddedRelationTargets.
  apply sure_bind; [|intros ?; sure_tac Hok]. destruct ty; try apply sure_ret; [sure_tac Hok|].
  apply sure_bind; [sure_tac Hok|]. intros l.
  induction l as [|m l IH]; simpl; [apply sure_ret|]. unfold embeddedRelationTargets.
  apply sure_bind; [sure_tac Hok|]. intros ?. apply sure_bind; [done|]. intros ?. apply sure_ret.
Qed.

(** Nor do revealing the placement and dropping the edges before it. *)
Lemma listing_twp id ty c o sp a t b q s {B} (k : RelationSync → Tx B) (Q : B → St → Prop) :
  plugins (db s) !! id = Some q → ListingState q = Published →
  (∀ sync s', plugins (db s') !! id = Some q → same_records (db s) (db s') → twp (k sync) e s' Q) →
  twp (ensureVisibleDefaultPlacement t id c;;
       sync ← syncRelations t id o [];
       (if negb b then promoteEmbeddedChildren id ty sp a t else mret tt);;
       k sync) e s Q.
Proof.
  intros Hq Hpub HQ.
  apply twp_bind, twp_sure; [unfold ensureVisibleDefaultPlacement; sure_tac Hok|].
  eapply (wp_evolves (changes [KPlace])); [evolve|]. intros _ s1 C1.
  apply twp_bind, twp_sure; [unfold syncRelations; simpl; sure_tac Hok|].
  eapply (wp_evolves (changes [KEdge])); [evolve|]. intros sync s2 C2.
  apply twp_bind, twp_sure; [destruct b; [apply sure_ret|apply sure_promote]|].
  eapply wp_mono; [apply wp_promote_first|]. intros [] s3 (Hk & C3 & _). apply HQ.
  - apply Hk; [|done]. by rewrite (plugins_kept _ _ _ C2), (plugins_kept _ _ _ C1).
  - apply listing_records. eapply changes_mono in C1, C2, C3; [by etrans; [|etrans]|done..].
Qed.

(** C32: an approvable request can be approved. With no server fault, a pending
    request without frozen relations on a live plugin of the reviewer's Space,
    whose label does not regress and is not published, whose reviewed name is
    valid and free and whose artifacts can be snapshotted, is approved. *)
Theorem approval_possible scope p rr current d :
  (∀ n, audits d !! ids e n = None) → (∀ n, versions d !! ids e n = None) → numbered d →
  reviews d !! ReviewID p = Some rr → rr_status rr = Pending → rr_deleted_at rr = None →
  rr_space_id rr = ScopeSpaceID scope → rr_kind rr ≠ KindVisibility → rr_relations rr = [] →
  rr_version rr ≠ "" →
  plugins d !! rr_plugin_id rr = Some current → ID current = rr_plugin_id rr →
  SpaceID current = Some (ScopeSpaceID scope) → live current = true → CardReceipt p = None →
  not_regressed_from (CurrentVersion current) (rr_version rr) = true →
  rr_version rr ∉ publishedLabels (rr_plugin_id rr) current d →
  name_admitted d current rr →
  (∃ a, snapshotArtifacts (snapshot_plugin current rr) = Ok a) →
  ∃ plugin d', ApproveReview scope p e d = (Ok plugin, d').
Proof.
  intros Hfa Hfv Hnum Hr Hst Hdel Hsp Hkind Hrels Hver Hp Hid Hps Hl Hcard Hreg Hlab Hname [a Hart].
  apply (transact_commits e Hok _ d (λ _ _, True)). unfold approveInTx.
  apply twp_bind, twp_now, twp_bind. rewrite Hcard. apply twp_ret. unfold approveBody.
  apply twp_bind. eapply lockPending_twp; [done..|].
  apply twp_bind. eapply getReviewed_twp; [done..|].
  apply twp_bind. unfold approveGuards. apply twp_bind, twp_require; [by rewrite bool_decide_false|].
  apply twp_bind, twp_require; [done|].
  apply twp_bind, (twp_query _ Hok), twp_require; [by apply negb_true_iff, mem_false|].
  apply twp_bind, decided_at_twp. intros t s1 E1. simpl in E1.
  apply twp_bind, (twp_query _ Hok). rewrite Hrels. apply twp_bind, twp_ret. simpl.
  apply twp_bind, twp_ret. cbv zeta. apply twp_bind.
  eapply applyApproved_twp; [by simpl; rewrite E1|done|done|by simpl; rewrite E1|].
  intros q s2 E2 Hlq Hliveq Hspq. simpl in E2. rewrite E1 in E2.
  destruct (listed_published _ Hlq) as [Hpub _].
  eapply listing_twp; [by rewrite E2; simpl; apply lookup_insert_eq|done|].
  intros sync s3 Hq3 (R1 & R2 & R3). rewrite E2 in R1, R2, R3. simpl in R1, R2, R3.
  apply twp_bind. unfold approveFinish. cbv zeta.
  destruct (snapshot_plugin_fields current rr) as (Hsid & _ & Hscv). apply twp_bind.
  eapply snapshotVersion_twp; rewrite ?R2; [done| |by eauto|by rewrite Hsid, Hid|done| | |];
    [by unfold numbered, versions_of in *; rewrite R2| |by rewrite Hscv|by rewrite Hscv; intros [=]].
  intros v q' vs s4 E4 Hl4 Hsp4. rewrite Hsid, Hid in E4.
  apply twp_bind. eapply (twp_execN _ Hok).
  { apply update_review_row; [by rewrite E4; simpl; rewrite R1|done]. }
  apply twp_bind, twp_require; [done|].
  apply insertAudit_twp; [simpl; rewrite E4; simpl; by rewrite R3|]. intros m s5 E5.
  eapply getReviewed_twp; [|by rewrite Hsp4, Hspq|done|done].
  rewrite E5. simpl. rewrite E4. simpl. by rewrite lookup_insert_eq.
Qed.

End Enabled.
