(* ===== verification/Scenario.v ===== *)
(** * A run of the catalog

    A concrete host, concrete environments and a run of the repository, on
    which the theorems of the other files are instantiated: an expert with a
    bundled skill is created, submitted, approved, taken down and resubmitted;
    a private skill is created, published, edited and deleted. Two runs at the
    end exhibit behaviours the source's comments exclude. *)

From S2P Require Import Prelude GoStrings Version Model Store Rows RowWrites Write Review Listing Changes Operations Sync Children Lifecycle Decisions Outcomes Typing Reads Enabled.
Local Open Scope string_scope.

(** A host over documents that are just names. *)
#[export] Instance demo_text : TextNorm := {| NFKC := λ s, s; Fold := λ s, s |}.
#[export] Instance demo_host : Host := {|
  host_text := demo_text;
  unmarshal_manifest := λ m, (m, None);
  marshal_labels := λ _, "[]";
  unmarshal_sidecar := λ raw, (if String.eqb raw "" then ∅ else {[ "f" := raw ]}, true);
  json_valid := λ _, true;
  json_canonical := λ m, Some m;
  json_plugin_name := λ m, m;
  revision_digest := λ ds, ds_id ds ++ ds_plugin_hash ds;
  snapshotArtifacts := λ _, Ok "[]";
  publishedIncoming := λ _ _, None
|}.

(** The environment of the [k]-th operation: fresh identifiers, a clock, no faults. *)
Definition env (k : string) : Env :=
  mkEnv (λ n, k ++ pretty n) (λ n, Z.of_nat n) (λ _, None).

Definition empty_db : Db := mkDb ∅ ∅ ∅ ∅ ∅ ∅ ∅ ∅ ∅ ∅ ∅.

Definition row (id name : string) (ty : PluginType) (embedded : bool) (v : PluginVisibility) : Plugin :=
  mkPlugin id name ty embedded None "[]" "pub" "u1" (Some "s1") v LUnset "U" "user" None None "" 0
    None name "pkg" "" "mh" "ph" None None (Some "1.0.0") 1 0 0 None None None "".

Definition op1 : Operator := mkOperator "u1" "U" "req" None.
Definition admin1 : Operator := mkOperator "a1" "A" "req" None.
Definition owner : Scope := mkScope "u1" "s1" false.
Definition admin : Scope := mkScope "a1" "s1" false.

Definition edge (target : string) : PluginRelation :=
  mkRelation "" "" None target None None "expert_skill" 0 "" 1 "" 0 0 None.

Definition node (p : Plugin) (rels : list PluginRelation) : Mutation :=
  mkMutation None "" p rels [] op1 true None false false true true.

(** The graph: expert "x" bundling skill "k". *)
Definition graph (v : PluginVisibility) : list Mutation :=
  [ node (row "x" "Expert" Expert false v) [edge "k"]; node (row "k" "Skill" Skill true v) [] ].

Definition d1 : Db := run (OpCreateGraph owner (graph VSpace)) (env "1-") empty_db.

Definition submit (label : string) : SubmitRequest := mkSubmit "x" "s1" "" label None "u1" "U".
Definition frozen (name : string) (d : Db) : FrozenSnapshot :=
  mkFrozen "" name "pkg2" "" (map_to_list (liveEdges "x" d)).*2 "mh2" "ph2" true.

Definition snap1 : FrozenSnapshot := frozen "Expert" d1.
Definition d2 : Db := run (OpSubmit owner (submit "1.1.0") snap1) (env "2-") d1.
Definition review2 : string := "2-5".

Definition receipt : CardActionReceipt := mkCardReceipt "ev1" "{}" review2 "approve" None.
Definition decision : DecisionParams :=
  mkDecision (Some receipt) review2 "a1" "A" "" (Some SourceIM) "req" None.
Definition d3 : Db := run (OpApprove admin decision) (env "3-") d2.

Definition takedown : DelistParams := mkDelist "x" "a1" "A" "req" "".
Definition d4 : Db := run (OpDelist admin takedown) (env "4-") d3.

Definition snap4 : FrozenSnapshot := frozen "Expert" d4.
Definition d5 : Db := run (OpSubmit owner (submit "1.2.0") snap4) (env "5-") d4.

(** The value of a successful operation. *)
Definition value {A} (dflt : A) (r : result Err A * Db) : A :=
  match r.1 with Ok a => a | Error _ => dflt end.

Example run_ok :
  is_ok (CreateGraph owner (graph VSpace) (env "1-") empty_db).1 = true
  ∧ is_ok (InsertReviewRequest owner (submit "1.1.0") snap1 (env "2-") d1).1 = true
  ∧ is_ok (ApproveReview admin decision (env "3-") d2).1 = true
  ∧ is_ok (DelistPlugin admin takedown (env "4-") d3).1 = true
  ∧ is_ok (InsertReviewRequest owner (submit "1.2.0") snap4 (env "5-") d4).1 = true.
Proof. vm_compute. split_and!; reflexivity. Qed.

(** The same, as steps. *)
Lemma step_1 : step empty_db d1.
Proof. exact (step_op (OpCreateGraph owner (graph VSpace)) (env "1-") empty_db). Defined.
Lemma step_2 : step d1 d2.
Proof. exact (step_op (OpSubmit owner (submit "1.1.0") snap1) (env "2-") d1). Defined.
Lemma step_3 : step d2 d3.
Proof. exact (step_op (OpApprove admin decision) (env "3-") d2). Defined.
Lemma step_4 : step d3 d4.
Proof. exact (step_op (OpDelist admin takedown) (env "4-") d3). Defined.
Lemma step_5 : step d4 d5.
Proof. exact (step_op (OpSubmit owner (submit "1.2.0") snap4) (env "5-") d4). Defined.

Lemma steps_0_3 : steps empty_db d3.
Proof. exact (rtc_l _ _ _ _ step_1 (rtc_l _ _ _ _ step_2 (rtc_once _ _ step_3))). Defined.
Lemma steps_3_5 : steps d3 d5.
Proof. exact (rtc_l _ _ _ _ step_4 (rtc_once _ _ step_5)). Defined.

(** ** The theorems on the run *)

Lemma edges_typed_forever_witness :
  well_typed d3 ∧ type_of d3 "x" = Some Expert ∧ bool_decide (is_Some (relations d3 !! "1-6")) = true.
Proof.
  destruct (edges_typed_forever empty_db d3 steps_0_3) as (_ & H & _).
  { intros k r Hr. discriminate Hr. }
  split; [exact H|]. split; vm_compute; reflexivity.
Defined.

Lemma plugin_rows_persist_witness : steps d3 d5 ∧ plugins_persist d3 d5.
Proof. split; [apply steps_3_5|apply (plugin_rows_persist d3 d5), steps_3_5]. Defined.

Lemma review_decisions_final_witness : steps d3 d5 ∧ reviews_persist d3 d5.
Proof. split; [apply steps_3_5|apply (review_decisions_final d3 d5), steps_3_5]. Defined.

Lemma history_append_only_witness : steps d3 d5 ∧ append_only d3 d5 ∧ edges_persist d3 d5.
Proof. split; [apply steps_3_5|apply (history_append_only d3 d5), steps_3_5]. Defined.

Lemma single_pending_witness : one_pending empty_db ∧ one_pending d3.
Proof.
  assert (one_pending empty_db) by (intros ? ? ? ? [=]).
  split; [done|apply (single_pending empty_db d3 steps_0_3); done].
Defined.

Lemma approved_labels_unique_witness : labels_unique empty_db ∧ labels_unique d3.
Proof.
  assert (labels_unique empty_db) by (intros ? ? ? ? [=]).
  split; [done|apply (approved_labels_unique empty_db d3 steps_0_3); done].
Defined.

Lemma versions_numbered_witness : numbered empty_db ∧ numbered d3.
Proof.
  assert (numbered empty_db) by (intros id; reflexivity).
  split; [done|apply (versions_numbered empty_db d3 steps_0_3); done].
Defined.

Lemma open_requests_witness : open_on_live [] empty_db ∧ open_on_live [] d3.
Proof.
  assert (open_on_live [] empty_db) by (intros ? ? [=]).
  split; [done|apply (open_requests_on_live_plugins empty_db d3 steps_0_3); done].
Defined.

Lemma only_review_lists_witness :
  (∃ scope q, OpApprove admin decision = OpApprove scope q)
  ∨ (∃ scope m, OpApprove admin decision = OpUpdate scope m ∧ EnforceListingGate m = false).
Proof.
  eapply (only_review_lists (OpApprove admin decision) (env "3-") d2 "x");
    [vm_compute; reflexivity..].
Defined.

Definition plugin3 : Plugin := value (row "" "" Skill false VSpace) (ApproveReview admin decision (env "3-") d2).

Lemma plugins_d2_keyed : map_Forall (λ id q, ID q = id) (plugins d2).
Proof. apply (bool_decide_unpack _). vm_compute. exact I. Defined.

Lemma approval_ships_frozen_witness : ∃ rr current, approval admin decision d2 d3 plugin3 rr current.
Proof.
  apply (approval_ships_frozen admin decision (env "3-") d2 plugin3 d3).
  - intros id q Hq. by apply plugins_d2_keyed.
  - intros n. change (placements d2) with (∅ : gmap string PlacementRow). apply lookup_empty.
  - intros r Hr. assert (rr_version r = "1.1.0") as ->; [|done].
    revert Hr. vm_compute. by intros [= <-].
  - vm_compute. reflexivity.
Defined.

Definition refusal : DecisionParams := mkDecision None review2 "a1" "A" "no" None "req" None.

Lemma rejection_leaves_catalog_witness :
  ∃ rr current, closing review2 "s1" Rejected d2 (RejectReview admin refusal (env "3-") d2).2
    (value ("", []) (RejectReview admin refusal (env "3-") d2)) rr current.
Proof.
  apply (rejection_leaves_catalog admin refusal (env "3-") d2). vm_compute. reflexivity.
Defined.

Lemma withdrawal_leaves_catalog_witness :
  ∃ rr current, rr_applicant_uid rr = "u1"
    ∧ closing review2 "s1" Canceled d2 (CancelReview owner review2 "u1" (env "3-") d2).2
        (value ("", []) (CancelReview owner review2 "u1" (env "3-") d2)) rr current.
Proof.
  apply (withdrawal_leaves_catalog owner review2 "u1" (env "3-") d2). vm_compute. reflexivity.
Defined.

Lemma card_event_decides_once_witness :
  (∃ err, ApproveReview admin decision (env "6-") d5 = (Error err, d5))
  ∧ (∃ err, RejectReview admin decision (env "6-") d5 = (Error err, d5)).
Proof.
  apply (card_event_decides_once admin decision receipt (env "3-") d2 d3 d5 admin decision receipt);
    [reflexivity| |apply steps_3_5|reflexivity..].
  left. exists plugin3. vm_compute. reflexivity.
Defined.

Definition plugin4 : Plugin := value (row "" "" Skill false VSpace) (DelistPlugin admin takedown (env "4-") d3).

Lemma takedown_delists_witness :
  ∃ current t, plugins d3 !! "x" = Some current
    ∧ SpaceID current = Some "s1" ∧ listed current = true
    ∧ IsEmbedded current = false ∧ DeletedAt current = None
    ∧ plugin4 = set_ListingState Delisted (set_UpdatedAt t current)
    ∧ plugins d4 !! "x" = Some plugin4
    ∧ pending_exists "x" d4 = false
    ∧ versions d4 = versions d3
    ∧ ∀ c q, c ∈ children "x" (Type_ current) d3 → plugins d4 !! c = Some q →
        SpaceID q = Some "s1" → DeletedAt q = None → ListingState q ≠ Published.
Proof. apply (takedown_delists admin takedown (env "4-") d3). vm_compute. reflexivity. Defined.

Definition row5 : ReviewRow :=
  match (InsertReviewRequest owner (submit "1.2.0") snap4 (env "5-") d4).1 with
  | Ok r => r
  | Error _ => mkReview "" "" "" "" Pending KindFirst "" None "" "" "" [] "" "" "" "" None None None
                 None 0 None 0 0 None
  end.

Lemma submission_freezes_witness :
  ∃ current, plugins d4 !! "x" = Some current
    ∧ owned_by owner current = true ∧ DeletedAt current = None ∧ reviewable current = true
    ∧ not_regressed_from (CurrentVersion current) "1.2.0" = true
    ∧ ("1.2.0" ∉ publishedLabels "x" current d4)
    ∧ pending_exists "x" d4 = false
    ∧ (ListingState current = Published → true = true)
    ∧ (rr_kind row5 = KindUpgrade ↔ ListingState current = Published)
    ∧ freezes (submit "1.2.0") snap4 row5
    ∧ reviews d4 !! rr_id row5 = None
    ∧ d5 = set_reviews (<[rr_id row5 := row5]> (reviews d4)) d4.
Proof. apply (submission_freezes owner (submit "1.2.0") snap4 (env "5-")). vm_compute. reflexivity. Defined.

(** ** A private skill *)

Definition p1 : Db := run (OpCreate owner (node (row "y" "Mine" Skill false VPrivate) [])) (env "1-") empty_db.

Definition publish : PublishParams := mkPublish "" "y" op1.
Definition p2 : Db := run (OpPublish owner publish) (env "2-") p1.
Definition plugin_p2 : Plugin := value (row "" "" Skill false VSpace) (PublishPlugin owner publish (env "2-") p1).

Lemma publication_stays_private_witness :
  ∃ current t, plugins p1 !! "y" = Some current
    ∧ OwnerUID current = "u1" ∧ SpaceID current = Some "s1"
    ∧ Visibility current = VPrivate ∧ ListingState current ≠ Published
    ∧ pending_exists "y" p1 = false
    ∧ plugin_p2 = set_ListingState Published (set_UpdatedAt t current)
    ∧ listed plugin_p2 = false
    ∧ plugins p2 = <["y" := plugin_p2]> (plugins p1)
    ∧ placed "y" p2 ∧ reviews p2 = reviews p1 ∧ versions p2 = versions p1.
Proof.
  apply (publication_stays_private owner publish (env "2-") p1).
  - intros n. change (placements p1) with (∅ : gmap string PlacementRow). apply lookup_empty.
  - vm_compute. reflexivity.
Defined.

(** A gated save that changes the audience of the published private row. *)
Definition save : Mutation :=
  mkMutation None "" (row "y" "Ours" Skill false VSpace) [] [] op1 true None false true true true.
Definition p3 : Db := run (OpUpdate owner save) (env "3-") p2.

Lemma gated_save_outcome_witness :
  ∃ before p', plugins p2 !! "y" = Some before
    ∧ owned_by owner before = true ∧ listed before = false
    ∧ (∀ rev, None = Some rev → rev = PluginDraftRevision before)
    ∧ (true = true → pending_exists "y" p2 = false)
    ∧ (true = true → ∀ cur nxt, CurrentVersion before = Some cur →
         Some "1.0.0" = Some nxt → VersionNotRegressed cur nxt = true)
    ∧ plugins p3 !! "y" = Some p' ∧ saved save before p'.
Proof.
  apply (gated_save_outcome owner save (env "3-") p2
    (value (mkSync "" [] [] [] [] "") (Update owner save (env "3-") p2)));
    vm_compute; reflexivity.
Defined.

Definition p4 : Db := run (OpDelete owner "y" op1) (env "4-") p3.

Lemma deletion_complete_witness :
  ∃ before t, plugins p3 !! "y" = Some before ∧ owned_by owner before = true
    ∧ DeletedAt before = None
    ∧ (∀ k r, relations p3 !! k = Some r → TargetPluginID r = "y" → RelStatus r = 1%Z →
         RelDeletedAt r = None → source_live p3 r = false)
    ∧ plugins p4 = <["y" := soft_delete t before]> (plugins p3)
    ∧ (∀ k r, relations p4 !! k = Some r → SourcePluginID r = "y" → RelDeletedAt r ≠ None)
    ∧ pending_exists "y" p4 = false ∧ versions p4 = versions p3.
Proof. apply (deletion_complete owner "y" op1 (env "4-") p3 tt). vm_compute. reflexivity. Defined.

(** ** What must succeed *)

Lemma env_healthy k : healthy (env k).
Proof. done. Defined.

(** The identifiers of an environment are new where no key has its prefix. *)
Lemma env_fresh {A} (m : gmap string A) k n :
  bool_decide (map_Forall (λ key _, String.prefix k key = false) m) = true → m !! ids (env k) n = None.
Proof.
  intros Hm%bool_decide_eq_true. destruct (m !! ids (env k) n) as [a|] eqn:E; [|done].
  apply Hm in E. exfalso. revert E. unfold env; simpl. generalize (pretty n) as x. clear.
  induction k as [|c k IH]; intros x; simpl; [by destruct x|].
  destruct (Ascii.ascii_dec c c); [apply IH|done].
Defined.

Definition z1 : Db := run (OpCreate owner (node (row "z" "Zed" Skill false VSpace) [])) (env "1-") empty_db.
Definition submit_z : SubmitRequest := mkSubmit "z" "s1" "" "1.1.0" None "u1" "U".
Definition snap_z : FrozenSnapshot := mkFrozen "" "Zed" "pkg2" "" [] "mh2" "ph2" true.
Definition z2 : Db := run (OpSubmit owner submit_z snap_z) (env "2-") z1.
Definition review_z : string := "2-5".
Definition decision_z : DecisionParams := mkDecision None review_z "a1" "A" "no" None "req" None.
Definition current_z : Plugin := default (row "" "" Skill false VSpace) (plugins z2 !! "z").
Definition request_z : ReviewRow := default row5 (reviews z2 !! review_z).

Lemma numbered_z2 : numbered z2.
Proof.
  apply (steps_invariant numbered empty_db z2 change_numbered); [|by intros id].
  apply (rtc_l _ _ z1); [exact (step_op (OpCreate owner _) (env "1-") empty_db)|].
  apply rtc_once. exact (step_op (OpSubmit owner submit_z snap_z) (env "2-") z1).
Defined.

Lemma submission_admitted_witness :
  ∃ row d', InsertReviewRequest owner submit_z snap_z (env "2-") z1 = (Ok row, d').
Proof.
  apply (submission_admitted (env "2-") (env_healthy _) owner submit_z snap_z
    (default (row "" "" Skill false VSpace) (plugins z1 !! "z")) z1);
    try (by left); try (by vm_compute). apply mem_false. by vm_compute.
Defined.

Lemma open_requests_closable_witness :
  (∃ keys d', RejectReview admin decision_z (env "3-") z2 = (Ok keys, d'))
  ∧ (∃ keys d', CancelReview admin review_z "u1" (env "3-") z2 = (Ok keys, d')).
Proof.
  apply (open_requests_closable (env "3-") (env_healthy _) admin decision_z "u1" request_z current_z z2);
    by vm_compute.
Defined.

Lemma approval_possible_witness :
  ∃ plugin d', ApproveReview admin decision_z (env "3-") z2 = (Ok plugin, d').
Proof.
  apply (approval_possible (env "3-") (env_healthy _) admin decision_z request_z current_z z2);
    try (intros n; apply env_fresh; by vm_compute); try (by vm_compute); try apply numbered_z2.
  - apply mem_false. by vm_compute.
  - exists "Zed", "s1". split; [by vm_compute|]. right. by vm_compute.
  - by eexists.
Defined.

(** ** Edges *)

(** The edge of "x" replaced by a new one to the same target. *)
Definition sync1 : RelationSync * St :=
  match syncRelations 9 "x" "u1" [edge "k"] (env "9-") (mkSt 0 d1) with
  | Ok r => r
  | Error _ => (mkSync "" [] [] [] [] "", mkSt 0 d1)
  end.

Lemma sync_relations_exact_witness :
  Forall2 assigned [edge "k"] (SyncRelations sync1.1)
  ∧ (∀ r, r ∈ SyncRelations sync1.1 →
       ∃ row, liveEdges "x" (db sync1.2) !! RelID r = Some row ∧ matches_edge r row)
  ∧ (∀ k, is_Some (liveEdges "x" (db sync1.2) !! k) ↔ k ∈ RelID <$> SyncRelations sync1.1).
Proof.
  apply (sync_relations_exact 9 "x" "u1" [edge "k"] (env "9-") (mkSt 0 d1)).
  vm_compute. reflexivity.
Defined.

Lemma relation_targets_checked_witness :
  db (mkSt 1 d1) = d1
  ∧ Forall (target_allowed owner (row "x" "Expert" Expert false VSpace) ["k"] d1) [edge "k"]
  ∧ NoDup [("expert_skill", "k")].
Proof.
  apply (relation_targets_checked owner (row "x" "Expert" Expert false VSpace) [edge "k"] ["k"]
    (env "9-") (mkSt 0 d1) tt (mkSt 1 d1)).
  vm_compute. reflexivity.
Defined.

(** ** Labels, names and the queue *)

Lemma label_history_monotone_witness :
  ∃ b, ParseVersion "2.0.0" = Some b ∧ parts_le (1, 0, 9)%Z b.
Proof.
  apply (label_history_monotone ["1.2.0"; "2.0.0"] "1.0.9" (1, 0, 9)%Z).
  - vm_compute. reflexivity.
  - repeat constructor.
  - right. left.
Defined.

Lemma reservation_keys_witness :
  NoDup ["a"; "b"]
  ∧ (∀ k, k ∈ ["a"; "b"] ↔ NormalizePluginName " a" = Ok k
                     ∨ ("b" ≠ "" ∧ NormalizePluginName "b" = Ok k))
  ∧ ∀ k, k ∈ ["a"; "b"] → k ≠ "" ∧ (GoStrings.Go.RuneCountInString k ≤ PluginNameMaxLength)%nat.
Proof. apply (reservation_keys " a" "b"). vm_compute. reflexivity. Defined.

Definition queue : ReviewListFilter := mkReviewFilter "s1" "" (Some Pending) 0 0.
Definition page1 : list ReviewRow * nat := ListReviewRequests queue d5.

Lemma review_queue_pages_witness :
  (length page1.1 ≤ page_limit queue)%nat ∧ (page_limit queue ≤ 100)%nat
  ∧ Sorted review_newer page1.1
  ∧ (∀ r, r ∈ page1.1 → review_matches queue d5 r = true)
  ∧ page1.2 = length (matching queue d5)
  ∧ ∃ before after, (before ++ page1.1 ++ after)%list ≡ₚ matching queue d5
      ∧ length before = Nat.min (Z.to_nat (rf_offset queue)) page1.2
      ∧ (length page1.1 < page_limit queue → after = [])%nat.
Proof. apply (review_queue_pages queue d5). vm_compute. reflexivity. Defined.

(** ** Behaviours the comments exclude *)

(** A delisted plugin can carry a pending request. model/plugin.go says of
    [DisplayStatus] that a delisted plugin cannot, so that its first rule never
    decides; a resubmission after a takedown reaches that state, and the plugin
    then displays as pending although it is delisted. *)
Theorem delisted_with_pending_request :
  steps empty_db d5
  ∧ ∃ p, plugins d5 !! "x" = Some p ∧ ListingState p = Delisted
      ∧ pending_exists "x" d5 = true
      ∧ LatestReviewForPlugin owner "x" d5 = Some ("5-5", Pending)
      ∧ DisplayStatus p (HasPendingReview owner "x" d5) (Some Pending) = DisplayPendingReview.
Proof.
  split; [unfold steps; etrans; [exact steps_0_3|exact steps_3_5]|].
  eexists. split; [vm_compute; reflexivity|]. vm_compute. auto 6.
Qed.

(** The recovery path: a private expert is published by its owner, submitted
    and approved. *)
Definition q1 : Db := run (OpCreateGraph owner (graph VPrivate)) (env "1-") empty_db.
Definition q2 : Db := run (OpPublish owner (mkPublish "" "x" op1)) (env "2-") q1.
Definition q3 : Db := run (OpSubmit owner (submit "1.1.0") (frozen "Expert" q2)) (env "3-") q2.
Definition decide_q : DecisionParams := mkDecision None "3-5" "a1" "A" "" None "req" None.
Definition q4 : Db := run (OpApprove admin decide_q) (env "4-") q3.

Lemma steps_q : steps empty_db q4.
Proof.
  exact (rtc_l _ _ _ _ (step_op (OpCreateGraph owner (graph VPrivate)) (env "1-") empty_db : step empty_db q1)
        (rtc_l _ _ _ _ (step_op (OpPublish owner (mkPublish "" "x" op1)) (env "2-") q1 : step q1 q2)
        (rtc_l _ _ _ _ (step_op (OpSubmit owner (submit "1.1.0") (frozen "Expert" q2)) (env "3-") q2 : step q2 q3)
        (rtc_once _ _ (step_op (OpApprove admin decide_q) (env "4-") q3 : step q3 q4))))).
Qed.

(** Approving a published private container lists the container but not
    its bundled children. The promotion passes the container's old audience
    (private), so another member of the Space sees the expert and not its skill,
    which the comment at the call says must not happen. *)
Theorem recovered_container_hides_children :
  steps empty_db q4
  ∧ ∃ x k, plugins q4 !! "x" = Some x ∧ plugins q4 !! "k" = Some k
      ∧ "k" ∈ children "x" Expert q4
      ∧ listed x = true ∧ Visibility k = VPrivate
      ∧ visibilitySQL "s1" "other" x = true ∧ visibilitySQL "s1" "other" k = false.
Proof.
  split; [exact steps_q|].
  eexists _, _. split; [vm_compute; reflexivity|]. split; [vm_compute; reflexivity|].
  split; [|vm_compute; auto].
  apply mem_true. vm_compute. reflexivity.
Qed.
