(* ===== verification/ServiceScenario.v ===== *)
(** * Runs of the service layer, the card endpoint, sessions and storage

    The theorems of the service files at concrete inputs: on the catalog of
    [Scenario], a concrete encoding of stored card answers, a concrete hash and
    concrete answers of octo-server. *)

From S2P Require Import Prelude GoStrings Version Model Notify Objects Store Rows RowWrites Write Review Listing Changes Operations Sync Children Lifecycle Service Decisions Settlement Outcomes CardAction ReviewService Auth ReviewApi Scenario.
From Stdlib Require Import Ascii.
Import Go.
Local Open Scope string_scope.

(** ** The environment of a service operation *)

Definition demo_client : Client := NewClient "http://octo" "internal" "notify".
Definition svc_env (k : string) : SvcEnv :=
  mkSvcEnv (λ _, []) (λ n, env (k ++ pretty n ++ "-")) (λ n, Z.of_nat n) (Some demo_client)
    (λ _ _ uid, Ok (Some (if String.eqb uid "a1" then Some SpaceRoleAdmin else None))).
Definition svc_state (d : Db) : SvcSt := mkSvcSt 0 d [].

Definition reviewer : Caller := mkCaller "a1" "A" "s1" "" "" "req" false SpaceRoleAdmin.
Definition applicant : Caller := mkCaller "u1" "U" "s1" "" "" "req" false SpaceRoleMember.

(** The state an operation leaves. *)
Definition after {A} (m : Svc A) (k : string) (d : Db) : SvcSt := (m (svc_env k) (svc_state d)).2.


Lemma withdrawal_by_applicant_witness :
  ∃ rr deleted, closed_cleanly (TrimSpace review2) Canceled applicant (found (svc_env "7-") (svc_state d2))
      (after (web_op applicant (WCancel review2)) "7-" d2) rr deleted.
Proof.
  destruct (withdrawal_by_applicant applicant review2 (svc_env "7-") (svc_state d2)
    (after (web_op applicant (WCancel review2)) "7-" d2)) as (rr & deleted & H & _);
    [vm_compute; reflexivity|].
  exists rr, deleted. exact H.
Defined.

(** The request of [d2] as the submission returns it. *)
Definition submitted : ReviewProjection :=
  mkProjection (mkReview review2 "x" "s1" "" Pending KindFirst "1.1.0" None "" "" "" [] "" "" "u1" "U"
    None None None None 0 None 0 0 None) "Expert" Expert None.
Definition auto_run : result SvcErr Plugin * SvcSt :=
  autoApproveReview applicant submitted "task1" (svc_env "7-") (svc_state d2).

Lemma auto_approval_compensates_witness :
  ∃ plugin, auto_run.1 = Ok plugin ∧ effects auto_run.2 = []
  ∧ ∃ rr p t, reviews d2 !! review2 = Some rr ∧ rr_status rr = Pending ∧ decision_source p = SourcePolicy
      ∧ reviews (tables auto_run.2) !! review2 = Some (settle Approved p None t rr).
Proof.
  pose proof (auto_approval_compensates applicant submitted "task1" (svc_env "7-") (svc_state d2)
    auto_run.1 auto_run.2 (surjective_pairing _)) as H.
  destruct auto_run.1 as [plugin|err] eqn:E; [|vm_compute in E; discriminate E].
  exists plugin. split; [reflexivity|exact H].
Defined.

(** ** Card decisions *)

(** A stored answer as text: its fields as a number, in binary. *)
Fixpoint bits_of (p : positive) : string :=
  match p with xH => "" | xO p => String "0" (bits_of p) | xI p => String "1" (bits_of p) end.
Fixpoint of_bits (s : string) : positive :=
  match s with "" => xH | String c s => if Ascii.eqb c "0" then xO (of_bits s) else xI (of_bits s) end.
Lemma of_bits_of p : of_bits (bits_of p) = p.
Proof. induction p; simpl; by f_equal. Qed.

Definition fields (a : storedCardAction) : string * string * string * string * gmap string string :=
  (sc_operator a, Disposition (sc_result a), State (sc_result a), Requester (sc_result a), Display (sc_result a)).
Definition of_fields (t : string * string * string * string * gmap string string) : storedCardAction :=
  let '(op, d, s, r, m) := t in mkStored (mkCardResult d s r m) op.

#[export] Instance demo_codec : CardCodec := {|
  marshal_card a := bits_of (encode (fields (wire_stored a)));
  unmarshal_card s := of_fields <$> decode (of_bits s)
|}.
#[export] Instance demo_codec_laws : CardCodecLaws.
Proof.
  split. intros [[d s r m] op]. cbn [unmarshal_card marshal_card demo_codec].
  by rewrite of_bits_of, decode_encode.
Qed.

Definition approve_card (k : string) (d : Db) : result SvcErr CardActionResult * SvcSt :=
  DecideReviewFromCard "ev7" "a1" "approve" review2 (svc_env k) (svc_state d).
Definition approved_card : CardActionResult := mkCardResult "applied" "approved" "u1" {[ "title" := "Expert" ]}.

Lemma approve_card_ok : (approve_card "7-" d2).1 = Ok approved_card.
Proof. vm_compute. reflexivity. Defined.

Lemma card_endpoint_refines_log_witness :
  event_log d2 ⊆ event_log (tables (approve_card "7-" d2).2)
  ∧ ∃ entry, event_log (tables (approve_card "7-" d2).2) !! "ev7" = Some entry
       ∧ answers entry review2 "approve" "a1" approved_card.
Proof.
  destruct (card_endpoint_refines_log "ev7" "a1" "approve" review2 (svc_env "7-") (svc_state d2)
    (approve_card "7-" d2).1 (approve_card "7-" d2).2) as (H1 & H2 & _);
    [vm_compute; reflexivity|apply surjective_pairing|].
  split; [exact H1|exact (H2 _ approve_card_ok)].
Defined.

Lemma card_applied_means_decided_witness :
  events_decide d2
  ∧ ∃ rr, reviews (tables (approve_card "7-" d2).2) !! review2 = Some rr
      ∧ rr_decision_source rr = Some SourceIM ∧ rr_reviewer_uid rr = Some "a1"
      ∧ outcome_of "approve" (rr_status rr) "approved".
Proof.
  assert (events_decide d2) as H0.
  { split; intros ev; change (receipts d2) with (∅ : gmap string ReceiptRow); intros *; by rewrite lookup_empty. }
  destruct (card_applied_means_decided "ev7" "a1" "approve" review2 (svc_env "7-") (svc_state d2)
    (approve_card "7-" d2).1 (approve_card "7-" d2).2) as [_ H];
    [vm_compute; reflexivity|intros n; constructor|exact H0|apply surjective_pairing|].
  split; [exact H0|]. apply (H _ approve_card_ok). vm_compute. reflexivity.
Defined.

(** ** The card endpoint *)

(** A digest of the right shape, and a keyed one. *)
Definition zeros : string := of_runes (repeat "0" 64).
Definition demo_digest (s : string) : string :=
  take 64 (bits_of (Pos.of_nat (S (String.length s))) ++ zeros).
#[export] Instance demo_crypto : Crypto := {|
  sha256_hex := demo_digest;
  hmac_hex k m := k ++ m
|}.

Definition demo_body (raw : string) : option DecisionRequest :=
  if String.eqb raw "{decision}" then Some (mkDecisionRequest "42" "approve" "a1" review2) else None.
Definition card_handler : CardActionHandler := NewCardAction "secret" 0.
Definition card_request : CardRequest :=
  mkCardRequest (Some "{decision}")
    (Sign "secret" "POST" CardActionPath "1700000000" "42" "{decision}") "1700000000" "42" 1700000010.
Definition card_run : result SvcErr (Z * option CardActionResult) * SvcSt :=
  Decide demo_body card_handler card_request (svc_env "7-") (svc_state d2).

Lemma card_callback_authentic_witness :
  card_run.1 = Ok (200%Z, Some approved_card)
  ∧ ∃ raw body, q_body card_request = Some raw ∧ demo_body raw = Some body
    ∧ q_signature card_request
      = "v1=" ++ hmac_hex "secret" (Join ["v1"; "POST"; CardActionPath; "1700000000"; "42"; sha256_hex raw] (String newline "")).
Proof.
  assert (card_run = (Ok (200%Z, Some approved_card), card_run.2)) as Hrun by (vm_compute; reflexivity).
  assert (0 <= q_now card_request < 2 ^ 63)%Z as Hnow by (vm_compute; split; congruence).
  destruct (card_callback_authentic demo_body card_handler card_request (svc_env "7-") (svc_state d2) 200
    (Some approved_card) card_run.2 Hnow Hrun (or_introl eq_refl))
    as (raw & body & ts & H1 & _ & _ & _ & _ & _ & _ & H2 & H3 & _).
  split; [vm_compute; reflexivity|]. exists raw, body. split_and!; [exact H1|exact H3|exact H2].
Defined.

(** ** Sessions *)

Definition session : Identity :=
  mkIdentity "a1" "A" "" ["s1"] ∅ {[ "s1" := SpaceRoleAdmin ]} true.
Definition demo_reply (t : Z) (token : string) : Auth.Reply Identity :=
  if String.eqb token "token" then Replied 200 (Some session) else Replied 401 None.
Definition warm : World :=
  mkWorld 5 (cache_store 60 10 5 [] "token" (clamp_identity session) ∅).

Lemma warm_reached : reached demo_reply 60 10 warm.
Proof.
  exists 0%Z. eapply rtc_l; [apply (w_tick _ _ _ (started_at 0) 5); vm_compute; discriminate|].
  apply rtc_once. apply (w_store demo_reply 60 10 (mkWorld 5 ∅) "token" 5 5 (clamp_identity session) []);
    vm_compute; try split; discriminate || reflexivity.
Defined.

Lemma cached_resolver_fresh_witness :
  reached demo_reply 60 10 warm ∧ CachedResolve demo_reply warm 40 "token" = Ok (clamp_identity session)
  ∧ ∃ raw, asserted_within demo_reply 60 warm 40 "token" raw ∧ clamp_identity session = clamp_identity raw.
Proof.
  destruct (cached_resolver_fresh demo_reply 60 10 warm 40 "token" warm_reached) as [H _];
    [vm_compute; reflexivity|vm_compute; discriminate|].
  split; [exact warm_reached|]. split; [vm_compute; reflexivity|]. exact H.
Defined.

Definition demo_auth : Authenticator :=
  mkAuthenticator true (Some (http_resolver (demo_reply 0))) None session "s1".
Definition demo_headers : Headers := mkHeaders "token" "" "s1".
Definition approve_run : result SvcErr (result Failure unit) * SvcSt :=
  serve demo_auth demo_headers "req" (RApprove review2) (svc_env "7-") (svc_state d2).

Lemma review_authority_end_to_end_witness :
  approve_run.1 = Ok (Ok tt) ∧ ∃ raw, vouched demo_auth demo_headers raw ∧ grants raw "s1".
Proof.
  assert (serve demo_auth demo_headers "req" (RApprove review2) (svc_env "7-") (svc_state d2)
    = (Ok (Ok tt), approve_run.2)) as Hrun by (vm_compute; reflexivity).
  destruct (review_authority_end_to_end demo_auth demo_headers "req" (RApprove review2) (svc_env "7-")
    (svc_state d2) (Ok tt) approve_run.2 eq_refl Hrun (or_intror eq_refl))
    as (o & Ho & [(raw & Hv & Hg)|[Hb _]]).
  - split; [vm_compute; reflexivity|]. exists raw. split; [exact Hv|]. apply Hg.
    vm_compute in Ho. injection Ho as <-. reflexivity.
  - vm_compute in Hb. discriminate Hb.
Defined.

(** ** Stored objects *)

Lemma bits_hex p : all_bytes hex_byte (bits_of p) = true.
Proof. induction p; simpl; by rewrite ?IHp. Qed.

#[export] Instance demo_crypto_laws : CryptoLaws.
Proof.
  split. intros s. cbn [sha256_hex demo_crypto]. unfold demo_digest, digest64. apply andb_true_iff. split.
  - apply Nat.eqb_eq, take_length. rewrite append_length. change (String.length zeros) with 64%nat. lia.
  - apply all_bytes_take. rewrite all_bytes_append, bits_hex. reflexivity.
Qed.

Definition source_key : string := "plugins/s1/attachments/draft.bin".
Definition bucket0 : gmap string string := {[ source_key := "content" ]}.
Definition calm : FreezeEnv := mkFreezeEnv (λ _, Clean_run) true (λ _, []).
Definition freeze_run : result FreezeError (string * Z * string) * Z * gmap string string :=
  freezeArtifact "" "s1" source_key 100 5 1000 [] calm bucket0.
Definition frozen_key : string := "plugins/s1/attachments/versions/" ++ demo_digest "content".
Definition bucket1 : gmap string string := freeze_run.2.
(** An overwrite and a deletion, under other spellings of the key. *)
Definition bucket2 : gmap string string :=
  oss_run "" (OPut ("/" ++ frozen_key) "forged") Clean_run (oss_run "" (ODelete frozen_key) Ambiguous bucket1).

Lemma bucket_steps : oss_steps "" bucket1 bucket2.
Proof.
  exact (rtc_l _ _ _ _ (oss_step_run "" (ODelete frozen_key) Ambiguous bucket1)
    (rtc_once _ _ (oss_step_run "" (OPut ("/" ++ frozen_key) "forged") Clean_run _))).
Defined.

Lemma freeze_sound_witness :
  freeze_run.1 = (Ok (frozen_key, 7, "sha256:" ++ demo_digest "content"), 12)%Z
  ∧ frozen_object "" frozen_key 7 ("sha256:" ++ demo_digest "content") bucket2.
Proof.
  assert (freeze_run.1 = (Ok (frozen_key, 7, "sha256:" ++ demo_digest "content"), 12)%Z) as H1 by (vm_compute; reflexivity).
  assert (freezeArtifact "" "s1" source_key 100 5 1000 [] calm bucket0
    = (Ok (frozen_key, 7%Z, "sha256:" ++ demo_digest "content"), 12%Z, bucket1)) as Hrun.
  { change (freeze_run = ((Ok (frozen_key, 7, "sha256:" ++ demo_digest "content"), 12)%Z, freeze_run.2)).
    rewrite <-H1. apply surjective_pairing. }
  destruct (freeze_sound "" "s1" source_key 100 5 1000 [] calm bucket0 _ _ _ _ _ bucket2
    (ltac:(lia)) Hrun bucket_steps) as (_ & _ & H & _).
  split; [exact H1|exact H].
Defined.

Lemma frozen_key_canonical : canonical frozen_key.
Proof.
  exists ["plugins"; "s1"; "attachments"; "versions"; demo_digest "content"].
  split; [done|]. split; [|by vm_compute]. repeat constructor; try (by vm_compute); discriminate.
Qed.

Lemma version_objects_immutable_witness :
  bucket1 !! oss_key "" frozen_key = Some "content" ∧ bucket2 !! oss_key "" frozen_key = Some "content".
Proof.
  split; [vm_compute; reflexivity|].
  apply (version_objects_immutable "" frozen_key "content" bucket1 bucket2 frozen_key_canonical);
    [vm_compute; reflexivity|exact bucket_steps|vm_compute; reflexivity].
Defined.
