(* ===== verification/CatalogScenario.v ===== *)
(** * Runs of the catalog queries

    A team with an expert and its skill, and the same with the skill withdrawn
    into privacy: the theorems of [Closure], [Availability], [Grid] and
    [CatalogService] on them, and a container its owner cannot tell is hidden. *)

From S2P Require Import Prelude GoStrings Model Store Rows Listing Operations Lifecycle Service Reads Queries Closure Availability Grid CatalogService Scenario ServiceScenario.
Local Open Scope string_scope.

#[export] Instance demo_sql : Sql := {|
  like := λ pattern s, true;
  json_contains_tag := λ tags t, mem t (if String.eqb tags "[]" then [] else [tags]);
  json_description := λ _, None;
  json_tags := λ tags, if String.eqb tags "[]" then [] else [tags];
  name_cmp := String.compare;
  score_cmp := λ a b, (a.2 ?= b.2)%Z
|}.
Definition no_counters (id : string) : Counters := mkCounters 0 0 0.

(** ** The tables *)

Definition crow (id : string) (ty : PluginType) (v : PluginVisibility) (tags : string) : Plugin :=
  mkPlugin id id ty false None tags "pub" "u1" (Some "s1") v Published "U" "user" None None "" 0
    None id "pkg" "" "mh" "ph" None None (Some "1.0.0") 1 0 0 None None None "".
Definition link (id source target ty : string) : PluginRelation :=
  mkRelation id source None target None None ty 0 "" 1 "" 0 0 None.

Definition catalog (v : PluginVisibility) : Db :=
  set_relations (list_to_map [ ("r1", link "r1" "t" "x" "expert_team_expert"); ("r2", link "r2" "x" "k" "expert_skill") ])
    (set_plugins (list_to_map [ ("t", crow "t" ExpertTeam VSpace "ops"); ("x", crow "x" Expert VSpace "ops");
                                ("k", crow "k" Skill v "go") ]) empty_db).
Definition shared : Db := catalog VSpace.
Definition hidden : Db := catalog VPrivate.

Definition keyed_b (d : Db) : bool :=
  bool_decide (map_Forall (λ i p, ID p = i) (plugins d))
  && bool_decide (map_Forall (λ i r, rr_id r = i) (reviews d))
  && bool_decide (map_Forall (λ i v, pv_id v = i) (versions d))
  && bool_decide (map_Forall (λ i r, RelID r = i) (relations d)).
Lemma keyed_of d : keyed_b d = true → keyed d.
Proof. unfold keyed_b, keyed. intros Hb. bool_facts. split_and!; intros i x Hx; by eauto. Qed.

Definition unpinned_b (d : Db) : bool :=
  bool_decide (map_Forall (λ _ r, TargetVersionID r = None) (relations d))
  && bool_decide (map_Forall (λ _ p, PublishedVersionID p = None) (plugins d)).
Lemma unpinned_of d : unpinned_b d = true → unpinned d.
Proof. unfold unpinned_b, unpinned. intros Hb. bool_facts. split; intros i x Hx; by eauto. Qed.

Definition matrix_b (d : Db) : bool :=
  bool_decide (map_Forall (λ _ r,
    match plugins d !! SourcePluginID r, plugins d !! TargetPluginID r with
    | Some p, Some q => validPersistedRelation (RelType r) (Type_ p) (Type_ q)
    | _, _ => false
    end = true) (relations d)).
Lemma shaped_of d : matrix_b d = true → shaped d.
Proof.
  unfold matrix_b. intros Hb%bool_decide_eq_true k r p q Hr _ _ Hp _ Hq _.
  specialize (Hb _ _ Hr). simpl in Hb. by rewrite Hp, Hq in Hb.
Qed.
Lemma team_edges_of d : matrix_b d = true → team_edges d.
Proof.
  unfold matrix_b. intros Hb%bool_decide_eq_true k r p Hr _ _ Ht Hp. specialize (Hb _ _ Hr). simpl in Hb.
  rewrite Hp, Ht in Hb. destruct (plugins d !! TargetPluginID r) as [q|]; [|done].
  unfold validPersistedRelation in Hb. simpl in Hb. bool_facts. split; [done|]. by intros ? [= <-].
Qed.

Definition rest_at (d : Db) : Reads := mkReads (λ _, d) (λ _, None).
Lemma rest_at_rest d : at_rest (rest_at d) d.
Proof. done. Qed.

(** ** Queries *)

Definition guest : Scope := mkScope "u2" "s1" false.

(** The skill becomes private after the edges were read. *)
Definition withdrawing : Reads := mkReads (λ n, if (n <? 3)%nat then shared else hidden) (λ _, None).
Definition seen : Closure :=
  match (GetGraphClosure guest "t" withdrawing 0%nat).1 with
  | Ok c => c
  | Error _ => mkClosure (mkNode (crow "" Skill VSpace "") no_review) [] []
  end.

Lemma closure_shows_only_readable_witness :
  node_ids seen = ["x"] ∧ RelID <$> c_rels seen = ["r1"] ∧ NoDup (node_ids seen).
Proof.
  split; [vm_compute; reflexivity|]. split; [vm_compute; reflexivity|].
  apply (closure_shows_only_readable guest "t" withdrawing 0%nat seen 4%nat).
  - intros k. apply keyed_of. unfold withdrawing. cbn [snap]. destruct (k <? 3)%nat; vm_compute; reflexivity.
  - vm_compute. reflexivity.
Defined.

Definition whole : Closure :=
  match (GetGraphClosure guest "t" (rest_at shared) 0%nat).1 with
  | Ok c => c
  | Error _ => mkClosure (mkNode (crow "" Skill VSpace "") no_review) [] []
  end.
Lemma closure_is_reachability_witness :
  node_ids whole = ["x"; "k"] ∧ ∀ x, x ∈ node_ids whole ↔ x ≠ "t" ∧ reaches guest shared "t" x.
Proof.
  split; [vm_compute; reflexivity|].
  pose proof (closure_is_reachability guest shared "t" (rest_at shared) 0%nat (rest_at_rest shared)
    (keyed_of shared eq_refl) (shaped_of shared eq_refl)) as H.
  assert ((GetGraphClosure guest "t" (rest_at shared) 0%nat).1 = Ok whole) as E by (vm_compute; reflexivity).
  rewrite E in H. exact (proj1 (proj2 (proj2 (proj2 (proj2 H))))).
Defined.


Example blocked_without_issue :
  issues_at owner hidden (crow "x" Expert VSpace "ops") "x" = []
  ∧ (svcDetail applicant "x" true (svc_env "1-") (svc_state hidden)).1
    = Ok (detail_of hidden applicant true (crow "x" Expert VSpace "ops") [])
  ∧ (svcDetail reviewer "x" true (svc_env "1-") (svc_state hidden)).1 = Error SErrNotFound.
Proof. split_and!; vm_compute; reflexivity. Qed.

Definition all_tags : TagListFilter := mkTagFilter "" None "" false 0.
Lemma demo_unnested : contains_unnested.
Proof. done. Qed.
Lemma chips_match_grid_witness :
  ListTags guest all_tags (rest_at shared) 0%nat = (Ok [("ops", 2%Z); ("go", 1%Z)], 1%nat)
  ∧ ∃ page, rests (List no_counters guest (chip_filter all_tags "ops" "newest" 1 0)) (rest_at shared) (page, 2%Z)
            ∧ page ≠ [].
Proof.
  split; [vm_compute; reflexivity|].
  destruct (chips_match_grid no_counters guest all_tags shared (rest_at shared) 0%nat
    [("ops", 2%Z); ("go", 1%Z)] 1%nat demo_unnested (rest_at_rest shared)) as (_ & _ & _ & H); [vm_compute; reflexivity|].
  destruct (H "ops" 2%Z (list_elem_of_here _ _)) as (_ & _ & Hpage). destruct (Hpage "newest" 1%Z 0%Z) as (page & H1 & H2).
  exists page. split; [exact H1|]. apply H2. done.
Defined.

(** ** Pages *)

Lemma svc_env_undisturbed k : undisturbed (svc_env k).
Proof. intros n. split; [reflexivity|]. intros m. reflexivity. Qed.

Lemma grid_rows_open_witness :
  (∃ det, (svcDetail reviewer "x" true (svc_env "1-") (svc_state shared)).1 = Ok det
          ∧ dt_plugin det = scanned (crow "x" Expert VSpace "ops"))
  ∧ crow "x" Expert VSpace "ops" ∈ list_rows (caller_scope reviewer) (whole_grid "newest" 20 0) shared.
Proof.
  assert (crow "x" Expert VSpace "ops" ∈ list_rows (caller_scope reviewer) (whole_grid "newest" 20 0) shared) as Hin
    by (apply elem_of_list_rows; [by apply keyed_of|split; vm_compute; reflexivity]).
  split; [|exact Hin].
  destruct (grid_rows_open (svc_env "1-") (svc_state shared) reviewer "x" (crow "x" Expert VSpace "ops")
    (whole_grid "newest" 20 0) true) as (H & _);
    [apply svc_env_undisturbed|by apply keyed_of|reflexivity..|]. apply H, Hin.
Defined.

Lemma install_sees_dependencies_witness :
  (resolveInstallDetail reviewer "x" (svc_env "1-") (svc_state hidden)).1 = Error SErrDependencyHidden
  ∧ hidden_dependency (caller_scope reviewer) "x" hidden.
Proof.
  assert ((resolveInstallDetail reviewer "x" (svc_env "1-") (svc_state hidden)).1 = Error SErrDependencyHidden) as E
    by (vm_compute; reflexivity).
  split; [exact E|].
  pose proof (install_sees_dependencies (svc_env "1-") (svc_state hidden) reviewer "x" (svc_env_undisturbed _)
    (keyed_of hidden eq_refl) eq_refl eq_refl) as H. cbv zeta in H. rewrite E in H. destruct H as [[? _]|(_ & H & _)]; [done|exact H].
Defined.
