(* ===== verification/EditorScenario.v ===== *)
(** * A run of the plugin editor

    A concrete text form of JSON, a contract library and a host over it, and
    the editing of a skill with a storage attachment: created from an upload,
    fetched, saved again with other words, and refused. The theorems of
    Documents.v, VersionArtifacts.v and Saving.v are instantiated on it. *)

From S2P Require Import Prelude GoStrings Version Model Notify Objects Store Rows RowWrites Write Review Changes Operations Sync Lifecycle Service Outcomes CardAction Json Documents VersionArtifacts Reads Queries Closure Availability Grid CatalogService Editing Zip Parse ParseTasks SkillTree SkillFiles Saving Importing Administration Scenario ServiceScenario.
From Stdlib Require Import Ascii.
Import Go.
Local Open Scope string_scope.

(** ** A text form: the binary encoding of the value *)

Fixpoint to_tree (v : json) : gen_tree string :=
  match v with
  | JNull => GenNode 0 []
  | JBool b => GenNode (if b then 2 else 1) []
  | JNum t => GenNode 3 [GenLeaf t]
  | JStr s => GenNode 4 [GenLeaf s]
  | JArr l => GenNode 5 (map to_tree l)
  | JObj l => GenNode 6 (map (λ kv, GenNode 7 [GenLeaf kv.1; to_tree kv.2]) l)
  end.

Fixpoint of_tree (t : gen_tree string) : json :=
  match t with
  | GenNode 1 _ => JBool false
  | GenNode 2 _ => JBool true
  | GenNode 3 [GenLeaf t] => JNum t
  | GenNode 4 [GenLeaf s] => JStr s
  | GenNode 5 l => JArr (map of_tree l)
  | GenNode 6 l => JObj (map (λ t, match t with
                                   | GenNode _ [GenLeaf k; v] => (k, of_tree v)
                                   | _ => ("", JNull)
                                   end) l)
  | _ => JNull
  end.

Fixpoint of_to_tree (v : json) : of_tree (to_tree v) = v.
Proof.
  destruct v as [|[]| | |l|l]; try reflexivity; simpl; f_equal; rewrite map_map.
  - induction l as [|x l IH]; [done|]. simpl. by rewrite of_to_tree, IH.
  - induction l as [|[k x] l IH]; [done|]. simpl. by rewrite of_to_tree, IH.
Qed.

Definition demo_parse (s : string) : option json :=
  match s with
  | String "J" bits =>
      t ← decode (of_bits bits);
      let v := of_tree t in if text_ok v then Some v else None
  | _ => None
  end.
#[export] Instance demo_json : JsonText := {|
  json_parse := demo_parse;
  json_print v := String "J" (bits_of (encode (to_tree v)))
|}.

Definition str_member (v : json) : option string := match v with JStr s => Some s | _ => None end.

(** The host of Scenario.v with sidecars that are JSON. *)
#[export] Instance editor_host : Host := {|
  host_text := demo_text;
  unmarshal_manifest := λ m, (m, None);
  marshal_labels := λ _, "[]";
  unmarshal_sidecar := λ raw,
    match json_parse raw with
    | Some (JObj l) => (omap str_member (members_map l), forallb (λ kv, match kv.2 with JStr _ => true | _ => false end) l)
    | _ => (∅, false)
    end;
  json_valid := λ _, true;
  json_canonical := λ m, Some m;
  json_plugin_name := λ m, m;
  revision_digest := λ ds, ds_id ds ++ ds_plugin_hash ds;
  snapshotArtifacts := λ _, Ok "[]";
  publishedIncoming := λ _ _, None
|}.

Lemma demo_parse_ok s v : demo_parse s = Some v → text_ok v = true.
Proof.
  destruct s as [|c bits]; [done|]. unfold demo_parse. repeat case_match; try done.
  destruct (decode (of_bits bits)) as [t|]; [|done]. simpl. case_match; [|done]. by intros [= <-].
Qed.
Lemma demo_parse_print v : text_ok v = true → demo_parse (json_print v) = Some v.
Proof.
  intros Hv. cbn [json_print demo_json]. unfold demo_parse. rewrite of_bits_of, decode_encode. simpl.
  by rewrite of_to_tree, Hv.
Qed.

#[export] Instance demo_json_laws : JsonLaws.
Proof.
  split.
  - apply demo_parse_ok.
  - apply demo_parse_print.
  - done.
  - intros v. apply Valid_ascii. simpl. generalize (encode (to_tree v)). intros p. induction p; simpl; done.
  - intros raw m ok. cbn [unmarshal_sidecar editor_host]. destruct (json_parse raw) as [[| | | | |l]|] eqn:E;
      try (intros [= <- _]; apply map_Forall_empty).
    apply demo_parse_ok, members_good in E. intros [= <- _] k v Hk.
    apply lookup_omap_Some in Hk as (x & Hx & Hm). destruct (E _ _ Hm) as [? Hs]. destruct x; simplify_eq/=; done.
  - intros m Hm. cbn [unmarshal_sidecar editor_host].
    assert (good_map (JStr <$> m)) as Hg.
    { intros k v Hk. apply lookup_fmap_Some in Hk as (s & <- & Hs). apply (Hm k s Hs). }
    assert (json_parse (json_print (of_map (JStr <$> m))) = Some (of_map (JStr <$> m))) as ->
      by by apply demo_parse_print, of_map_text.
    pose proof (as_of_fields (Some (JStr <$> m))) as Hf. unfold of_fields, of_map in Hf. simpl in Hf.
    unfold of_map. injection Hf as ->. f_equal.
    + apply map_eq. intros k. rewrite lookup_omap, lookup_fmap. by destruct (m !! k).
    + apply forallb_forall. intros [k v]. rewrite <-list_elem_of_In, (merge_sort_Permutation key_le), elem_of_map_to_list.
      intros Hk. apply lookup_fmap_Some in Hk as (s & <- & _). done.
Qed.

(** ** A contract library *)

Definition member (doc : RawMessage) (k : string) : string :=
  default "" (m ← json_parse doc ≫= as_fields; Some (string_field m k)).

#[export] Instance demo_lib : LibPlugin := {|
  DecodeManifest m := Some (member m "plugin_name", Some Skill, Some []);
  CanonicalJSON s := json_print <$> json_parse s;
  DecodePackage _ p := match package_attachments p with
                       | Some atts => bool_decide (NoDup ((λ a, string_field a "path") <$> atts))
                       | None => false
                       end;
  ComputePluginHash m p := Some (sha256_hex (m ++ p))
|}.
#[export] Instance demo_editor : EditorLibs := {|
  url_host _ := Some "host";
  ValidateRelationEndpoints := validPersistedRelation
|}.

(** ** The skill *)

Definition manifest (name : string) : RawMessage := json_print (JObj [("plugin_name", JStr name)]).
Definition frozen_name : string := "sha256:" ++ demo_digest "content".
Definition attachment (uri : list (string * json)) : json :=
  JObj ([("path", JStr "skill/pack.zip"); ("content_type", JStr "storage"); ("content_size", JNum "7");
         ("content_hash", JStr frozen_name)] ++ uri).
Definition package (words : string) (uri : list (string * json)) : RawMessage :=
  json_print (JObj [("readme", JStr words); ("attachments", JArr [attachment uri])]).
Definition uploaded : list (string * json) := [("storage_uri", JStr source_key)].

Definition save_request (words : string) (uri : list (string * json)) : WriteRequest :=
  mkWriteRequest None "Pack" Skill None (json_print (JArr [])) "pub" "" VPrivate (manifest "Pack") (package words uri) [] "1.0.0" None.

Definition save_env (k : string) : SaveEnv := mkSaveEnv (svc_env k) (λ _, calm) "p1".
Definition save0 : SaveSt := mkSaveSt (svc_state empty_db) (mkFz bucket0 0 0).
Definition creating : result SvcErr Saved * SaveSt :=
  svcCreate "" 100 1000 applicant (save_request "first" uploaded) (save_env "c1-") save0.
Definition save1 : SaveSt := creating.2.
Definition stored (s : SaveSt) : option Plugin := plugins (tables (sv_svc s)) !! "p1".
(** What a client fetched, saved again with other words. *)
Definition updating : result SvcErr Saved * SaveSt :=
  svcUpdate "" 100 1000 applicant "p1" (save_request "second" []) (save_env "u1-") save1.
Definition save2 : SaveSt := updating.2.

(** ** The theorems at this run *)

Lemma creating_ok : is_ok creating.1 = true.
Proof. vm_compute. reflexivity. Qed.
Lemma updating_ok : is_ok updating.1 = true.
Proof. vm_compute. reflexivity. Qed.

Lemma editor_client : CIsSystemAdmin applicant = false ∧ polite tenant_op (sv_env (save_env "u1-")).
Proof. split; [reflexivity|]. intros n. constructor. Defined.


(** An administrator corrects the row: another name, the words of the client,
    under a later label. *)
Definition administrator : Caller := mkCaller "root" "Root" "" "" "" "req" true SpaceRoleMember.
Definition correction : WriteRequest :=
  mkWriteRequest None "Pack" Skill None (json_print (JArr [])) "" "icon.png" VSystem (manifest "Pack") (package "third" []) []
    "1.0.1" None.
Definition correcting : result SvcErr Saved * SaveSt :=
  AdminUpdate "" 100 1000 administrator "p1" correction (save_env "a1-") save2.
Definition save3 : SaveSt := correcting.2.
Lemma correcting_ok : is_ok correcting.1 = true.
Proof. vm_compute. reflexivity. Qed.


(** The documents of the upload, frozen, and the bucket after an overwrite and
    a deletion of the version object. *)
Definition fresh_docs : CanonicalDocuments :=
  default (mkDocuments "" "" "" "" "" "")
    (canonicalizePluginDocuments None "Pack" Skill (json_print (JArr [])) (manifest "Pack") (package "first" uploaded) "s1").
Definition freezing : result FreezeError CanonicalDocuments * FzSt :=
  freezeVersionArtifacts "" 100 1000 "s1" [None] Skill fresh_docs (λ _, calm) (mkFz bucket0 0 0).
Definition bucket_later : gmap string string :=
  oss_run "" (OPut ("/" ++ frozen_key) "forged") Clean_run (oss_run "" (ODelete frozen_key) Ambiguous (fz_bucket freezing.2)).

Lemma freezing_ok : is_ok freezing.1 = true.
Proof. vm_compute. reflexivity. Qed.
Lemma later_steps : oss_steps "" (fz_bucket freezing.2) bucket_later.
Proof.
  exact (rtc_l _ _ _ _ (oss_step_run "" (ODelete frozen_key) Ambiguous (fz_bucket freezing.2))
    (rtc_once _ _ (oss_step_run "" (OPut ("/" ++ frozen_key) "forged") Clean_run _))).
Qed.

Lemma saved_artifacts_stay_witness : ∃ docs', frozen_documents "" bucket_later fresh_docs docs'.
Proof.
  destruct freezing.1 as [docs'|err] eqn:E; [|pose proof freezing_ok as Hok; rewrite E in Hok; discriminate Hok].
  exists docs'. apply (saved_artifacts_stay "" 100 1000 ltac:(lia) "s1" [None] Skill fresh_docs (λ _, calm)
    (mkFz bucket0 0 0) docs' freezing.2 bucket_later); [discriminate| |exact later_steps].
  rewrite <-E. apply surjective_pairing.
Defined.

Lemma editor_cannot_list_witness :
  none_listed (tables (sv_svc save1))
    (tables (sv_svc (edit "" 100 1000 applicant (EdUpdate "p1" (save_request "second" [])) (save_env "u1-") save1).2)).
Proof.
  destruct editor_client as [Hc He].
  apply (editor_cannot_list "" 100 1000 applicant (EdUpdate "p1" (save_request "second" [])) (save_env "u1-") save1 Hc He).
Defined.

(** A save whose package names a key outside the caller's Space is refused. *)
Definition stealing : WriteRequest := save_request "second" [("storage_uri", JStr "plugins/s2/attachments/draft.bin")].
Definition refused : result SvcErr unit * SaveSt := edit "" 100 1000 applicant (EdUpdate "p1" stealing) (save_env "u1-") save1.
Lemma refused_err : refused.1 = Error SErrInvalidRequest.
Proof. vm_compute. reflexivity. Qed.

Lemma failed_save_changes_nothing_witness : tables (sv_svc refused.2) = tables (sv_svc save1).
Proof.
  destruct editor_client as [_ He].
  destruct (failed_save_changes_nothing "" 100 1000 tenant_op applicant (EdUpdate "p1" stealing) (save_env "u1-") save1
    SErrInvalidRequest refused.2 He) as [_ Hsame].
  { rewrite <-refused_err. apply surjective_pairing. }
  apply Hsame. reflexivity.
Defined.

(** The upload split, and split again after the fetch. *)
Definition uploaded_pkg : RawMessage := package "first" uploaded.
Definition split_pkg : RawMessage * RawMessage :=
  default ("", "") (splitStorageKeysScoped uploaded_pkg (artifactWriteScope "s1" [])).
Lemma split_ok : splitStorageKeysScoped uploaded_pkg (artifactWriteScope "s1" []) = Some (split_pkg.1, split_pkg.2).
Proof. vm_compute. reflexivity. Qed.

Lemma split_keys : attachmentKeyMap split_pkg.2 = {[ "skill/pack.zip" := source_key ]}.
Proof. vm_compute. reflexivity. Qed.
(** The attachment without its key. *)
Definition bare : GoMap :=
  Some {[ "path" := JStr "skill/pack.zip"; "content_type" := JStr "storage"; "content_size" := JNum "7";
          "content_hash" := JStr frozen_name ]}.
Lemma split_atts : package_attachments split_pkg.1 = Some [bare].
Proof. vm_compute. reflexivity. Qed.

Lemma storage_keys_accounted_witness :
  is_Some (attachmentKeyMap split_pkg.2 !! "skill/pack.zip")
  ∧ ∀ path key, attachmentKeyMap split_pkg.2 !! path = Some key → artifactWriteScope "s1" [] key = true.
Proof.
  destruct (storage_keys_accounted uploaded_pkg "" "" "s1" [] split_pkg.1 split_pkg.2) as (atts & _ & _ & _ & H).
  { vm_compute. reflexivity. }
  split; [vm_compute; eauto|]. intros path key Hk. apply (H path key Hk).
Defined.

Lemma fetch_edit_save_witness :
  ∃ pkg' keys', splitStorageKeysScoped (reinjectUpdateStorageKeys split_pkg.1 split_pkg.1 split_pkg.2)
      (artifactWriteScope "s1" []) = Some (pkg', keys')
    ∧ attachmentKeyMap keys' = attachmentKeyMap split_pkg.2.
Proof.
  destruct (fetch_edit_save uploaded_pkg "s1" [] split_pkg.1 split_pkg.2 (artifactWriteScope "s1" []) split_ok)
    as (pkg' & keys' & H1 & _ & H2).
  - intros path key Hk. rewrite split_keys in Hk. apply lookup_singleton_Some in Hk as [_ <-]. vm_compute. reflexivity.
  - intros atts a Hatts Ha _. rewrite split_atts in Hatts. injection Hatts as <-.
    apply list_elem_of_singleton in Ha as ->. split; [discriminate|]. vm_compute. reflexivity.
  - exists pkg', keys'. split; [exact H1|exact H2].
Defined.
