(* ===== verification/UploadScenario.v ===== *)
(** * An upload, imported and downloaded

    Archives for the text forms of EditorScenario.v: an archive of a SKILL.md
    and a picture is imported as a new skill and downloaded again. *)

From S2P Require Import Prelude GoStrings Version Model Notify Objects Store Rows RowWrites Write Review Listing Changes Operations Lifecycle Service Outcomes CardAction ReviewService Json Documents VersionArtifacts Zip Parse ParseTasks SkillTree Reads Queries CatalogService Editing SkillFiles Saving Importing Uploads Imported ImportRollback Submitting Submission Rewriting Scenario ServiceScenario EditorScenario.
From Stdlib Require Import Ascii.
Import Go.
Local Open Scope string_scope.

(** ** An archive format: the binary encoding of the entries *)

Definition header (fd : File * string) : string * bool * bool * string :=
  (FileName fd.1, IsDir fd.1, IsSymlink fd.1, fd.2).
Definition of_header (h : string * bool * bool * string) : File :=
  let '(name, dir, sym, data) := h in mkFile name (blen data) dir sym data false false.

#[export] Instance demo_packages : PackageLibs := {|
  zip_open s := match s with String "Z" bits => map of_header <$> decode (of_bits bits) | _ => None end;
  zip_write es := Some (String "Z" (bits_of (encode (map header es))));
  yaml_marshal m := Some ("fields: " ++ pretty (Z.of_nat (size m)) ++ String lf "")
|}.

#[export] Instance demo_package_laws : PackageLaws.
Proof.
  split. intros es data. cbn [zip_write zip_open demo_packages]. intros [= <-].
  rewrite of_bits_of, decode_encode. simpl. f_equal. rewrite map_map. by apply map_ext.
Qed.

#[export] Instance demo_lib_laws : LibLaws.
Proof.
  split.
  - intros v c _. cbn [CanonicalJSON demo_lib]. destruct (json_parse (json_print v)) as [w|] eqn:E; [|done].
    simpl. intros [= <-]. cbn [json_parse json_print demo_json] in E. unfold demo_parse in E.
    rewrite of_bits_of, decode_encode in E. cbn [mbind option_bind] in E. rewrite of_to_tree in E.
    destruct (text_ok v) eqn:Ht; [|done]. injection E as <-. by apply demo_parse_print.
  - intros typ pkg atts. cbn [DecodePackage demo_lib]. destruct (package_attachments pkg) as [l|]; [|done].
    intros Hd%bool_decide_eq_true [= <-]. exact Hd.
Qed.

(** ** The upload *)

Definition skill_md : string := "---" ++ String lf ("name: pack" ++ String lf ("---" ++ String lf "Use it.")).
Definition picture : string := String "137" "PNG".
Definition upload : string :=
  default "" (zip_write [(mkFile "pack/SKILL.md" 0 false false "" false false, skill_md);
                         (mkFile "pack/logo.png" 0 false false "" false false, picture)]).

Definition parsed : ParsedSkill := mkParsed "Pack" (Some "A pack") "1.2.0" "" None (sha256_hex upload) "" "" None.
Definition finished : TaskRow :=
  mkTask "up1" "pack.zip" (blen upload) "uploads/up1.zip" Success None (Some parsed) 1 "u1" "s1" "" 0 0.
Definition import0 : ImportSt :=
  mkImportSt (mkSaveSt (svc_state empty_db) (mkFz {[ "uploads/up1.zip" := upload ]} 0 0))
    {[ "t1" := finished; "t2" := finished ]} 0.
Definition import_env : ImportEnv := mkImportEnv (save_env "i1-") (λ _, SqlOk) (λ _, 9%Z) (λ _ ts, ts).
Definition params : ImportParams := mkImport "t1" "" "" "" "" None None (Some VSpace) "" "" None.
Definition importing : result SvcErr Saved * ImportSt := Import "" 1000 100000 applicant params import_env import0.
Definition import1 : ImportSt := importing.2.

Lemma importing_ok : is_ok importing.1 = true.
Proof. vm_compute. reflexivity. Qed.

(** The files of a download of the stored skill. *)
Definition download_result : result FreezeError (list (File * string)) :=
  match stored (im_st import1) with
  | Some p => (skill_zip_entries "" 1000 100000 p (decodePackageAttachments (Package p)) (λ _, calm)
                 (sv_fz (im_st import1))).1
  | None => Error FDocument
  end.
Lemma downloaded_files :
  download_result
  = Ok [(download_header "SKILL.md", "---" ++ String lf ("fields: 4" ++ String lf ("---" ++ String lf "Use it.")));
        (download_header "logo.png", picture)].
Proof. vm_compute. reflexivity. Qed.

Lemma imported_skill_downloads_witness :
  ∃ task f zip items p', task_taken applicant "t1" task import_env import0 (im_tasks import1)
    ∧ fetched "" {[ "uploads/up1.zip" := upload ]} task zip
    ∧ unpacked 1000 100000 zip (rewrite_params f "p1" task) items
    ∧ stored (im_st import1) = Some p' ∧ Type_ p' = Skill
    ∧ downloads "" 1000 100000 p' items (fz_bucket (sv_fz (im_st import1))).
Proof.
  destruct importing.1 as [ans|err] eqn:E; [|pose proof importing_ok as Hok; rewrite E in Hok; discriminate Hok].
  destruct (imported_skill_downloads "" 1000 100000 ltac:(lia) applicant params import_env import0 ans import1
    (eq_refl _) (eq_refl _)) as (task & f & old & zip & items & p' & Htask & _ & _ & Hrec & Hun & Hp & Hty & _ & _ & _ & Hd).
  { rewrite <-E. apply surjective_pairing. }
  exists task, f, zip, items, p'. split; [exact Htask|]. split; [exact Hrec|]. split; [exact Hun|].
  split; [exact Hp|]. split; [exact Hty|exact Hd].
Defined.

(** The same upload when files of the picture's size are not accepted: the build
    fails after the task was consumed. *)
Definition failing : result SvcErr Saved * ImportSt := Import "" 3 100000 applicant params import_env import0.
Lemma failing_err : failing.1 = Error SErrInvalidRequest.
Proof. vm_compute. reflexivity. Qed.

Lemma failed_import_changes_nothing_witness :
  tables (sv_svc (im_st failing.2)) = empty_db
  ∧ fz_bucket (sv_fz (im_st import0)) ⊆ fz_bucket (sv_fz (im_st failing.2))
  ∧ untimed <$> im_tasks failing.2 = untimed <$> im_tasks import0.
Proof.
  assert (polite tenant_op (sv_env (im_save import_env))) as He by (intros n; constructor).
  destruct (failed_import_changes_nothing "" 3 100000 tenant_op applicant params import_env import0
    SErrInvalidRequest failing.2 He) as (_ & Hb & Ht).
  { rewrite <-failing_err. apply surjective_pairing. }
  split; [vm_compute; reflexivity|]. split; [apply Hb; intros n k; reflexivity|].
  apply Ht. split; [intros n ts; reflexivity|intros n; reflexivity].
Defined.

(** ** The archive rewritten *)

Definition identity : RewriteParams := mkRewrite "Pack" "A pack" "1.2.0" [] "p1" "" None.
Definition rewritten : option RewriteResult := RewriteZipPackage upload identity.
Lemma rewritten_some : match rewritten with Some _ => true | None => false end = true.
Proof. vm_compute. reflexivity. Qed.

Lemma rewrite_changes_only_skill_md_witness :
  ∃ r files md f files', rewritten = Some r ∧ zip_open upload = Some files ∧ skill_entry files md
    ∧ zip_open (ZipBytes r) = Some files' ∧ Forall2 (kept_but md (SkillMD r)) (numbered files) files'
    ∧ splitFrontmatterAndBody (SkillMD r) = ("fields: 4", (splitFrontmatterAndBody (Stream f)).2).
Proof.
  destruct rewritten as [r|] eqn:E; [|pose proof rewritten_some as Hok; rewrite E in Hok; discriminate Hok].
  destruct (rewrite_changes_only_skill_md upload identity r E) as (files & md & f & files' & H1' & H2' & _ & H3' & _ & _ & H4' & _ & _ & H5').
  exists r, files, md, f, files'. split; [reflexivity|]. split; [exact H1'|]. split; [exact H2'|]. split; [exact H3'|].
  split; [exact H4'|]. apply H5'; [vm_compute; reflexivity|]. repeat constructor.
Defined.

(** ** A new version of it, submitted for review *)

Definition new_version : SubmitParams := mkSubmitParams "" "p1" "1.3.0" "" "t2" "" "" None.
Definition review_env : ImportEnv := mkImportEnv (save_env "r1-") (λ _, SqlOk) (λ _, 9%Z) (λ _ ts, ts).
Definition submission : result SvcErr ReviewProjection * ImportSt :=
  submitReview "" 1000 100000 applicant new_version true review_env import1.
Lemma submission_ok : is_ok submission.1 = true.
Proof. vm_compute. reflexivity. Qed.


(** ** A build on its own *)

Definition building : result FreezeError (list GoMap * list string * list string * option Z) * FzSt :=
  buildSkillAttachmentTree "" 1000 100000 "s1" "p1" upload None None (λ _, calm) (mkFz ∅ 0 0).
Lemma build_cleans_up_witness :
  ∃ atts up spl left, building.1 = Ok (atts, up, spl, left)
    ∧ ∀ k, k ∉ oss_key "" <$> up → fz_bucket building.2 !! k = None.
Proof.
  destruct building.1 as [[[[atts up] spl] left]|err] eqn:E.
  2:{ assert (is_ok building.1 = true) as Hok by (vm_compute; reflexivity). rewrite E in Hok. discriminate Hok. }
  destruct (build_cleans_up "" 1000 100000 "s1" "p1" upload None None (λ _, calm) (mkFz ∅ 0 0)
    (Ok (atts, up, spl, left)) building.2) as [_ Hb].
  - intros n k. reflexivity.
  - rewrite <-E. apply surjective_pairing.
  - exists atts, up, spl, left. split; [reflexivity|]. intros k Hk.
    destruct Hb as [_ Hb]; [intros n i; reflexivity|]. exact (eq_trans (Hb k Hk) (lookup_empty k)).
Defined.
