(* ===== verification/Addresses.v ===== *)
(** * Probe addresses: the IP policy of service/probe.go

    IP addresses and their textual forms, the networks a probe may not reach,
    and DNS names. The parts of Go's net package the policy calls (IP, IPNet,
    ParseIP) are written out. *)

From S2P Require Import Prelude GoStrings.
From Stdlib Require Import Ascii.
Import Go.
Local Open Scope string_scope.

(** ** Addresses (net.IP): four or sixteen bytes, as numbers *)

Inductive IP := IPv4 (a : Z) | IPv6 (a : Z).

Definition wf_ip (ip : IP) : Prop :=
  match ip with IPv4 a => (0 ≤ a < 2 ^ 32)%Z | IPv6 a => (0 ≤ a < 2 ^ 128)%Z end.

Definition v4_mapped : Z := Z.shiftl 65535 32.
Definition To4 (ip : IP) : option Z :=
  match ip with
  | IPv4 a => Some a
  | IPv6 a => if (Z.shiftr a 32 =? 65535)%Z then Some (Z.land a (Z.ones 32)) else None
  end.
Definition To16 (ip : IP) : Z := match ip with IPv4 a => (v4_mapped + a)%Z | IPv6 a => a end.

(** The [i]-th byte, from the least significant. *)
Definition byte_at (a i : Z) : Z := Z.land (Z.shiftr a (8 * i)) 255.

(** ** Predicates of net.IP, for the four-byte and the sixteen-byte form *)

Definition IsUnspecified4 (a : Z) : bool := (a =? 0)%Z.
Definition IsLoopback4 (a : Z) : bool := (byte_at a 3 =? 127)%Z.
Definition IsPrivate4 (a : Z) : bool :=
  ((byte_at a 3 =? 10) || ((byte_at a 3 =? 172) && (Z.land (byte_at a 2) 240 =? 16))
   || ((byte_at a 3 =? 192) && (byte_at a 2 =? 168)))%Z.
Definition IsLinkLocalUnicast4 (a : Z) : bool := ((byte_at a 3 =? 169) && (byte_at a 2 =? 254))%Z.
Definition IsLinkLocalMulticast4 (a : Z) : bool :=
  ((byte_at a 3 =? 224) && (byte_at a 2 =? 0) && (byte_at a 1 =? 0))%Z.
Definition IsMulticast4 (a : Z) : bool := (Z.land (byte_at a 3) 240 =? 224)%Z.

Definition IsUnspecified6 (a : Z) : bool := (a =? 0)%Z.
Definition IsLoopback6 (a : Z) : bool := (a =? 1)%Z.
Definition IsPrivate6 (a : Z) : bool := (Z.land (byte_at a 15) 254 =? 252)%Z.
Definition IsLinkLocalUnicast6 (a : Z) : bool :=
  ((byte_at a 15 =? 254) && (Z.land (byte_at a 14) 192 =? 128))%Z.
Definition IsLinkLocalMulticast6 (a : Z) : bool :=
  ((byte_at a 15 =? 255) && (Z.land (byte_at a 14) 15 =? 2))%Z.
Definition IsMulticast6 (a : Z) : bool := (byte_at a 15 =? 255)%Z.

(** ** Networks (net.IPNet) of either width *)

Record IPNet := mkNet { net_width : Z; net_base : Z; net_bits : Z }.
Definition net_mask (n : IPNet) : Z := Z.shiftl (Z.ones (net_bits n)) (net_width n - net_bits n).
(** [IPNet.Contains] of an address of the network's own width. *)
Definition net_contains (n : IPNet) (a : Z) : bool :=
  (Z.land a (net_mask n) =? Z.land (net_base n) (net_mask n))%Z.

Definition ipv4 (a b c d : Z) : Z :=
  Z.lor (Z.lor (Z.shiftl a 24) (Z.shiftl b 16)) (Z.lor (Z.shiftl c 8) d).
Definition cgnatPrefix : IPNet := mkNet 32 (ipv4 100 64 0 0) 10.
Definition reservedV4Prefix : IPNet := mkNet 32 (ipv4 240 0 0 0) 4.
Definition ietfProtoV4Prefix : IPNet := mkNet 32 (ipv4 192 0 0 0) 24.
Definition benchmarkV4Prefix : IPNet := mkNet 32 (ipv4 198 18 0 0) 15.
Definition v4TranslatedPrefix : IPNet := mkNet 128 (Z.shiftl 65535 48) 96.
Definition nat64WKPrefix : IPNet := mkNet 128 (Z.shiftl 6619035 96) 96.
Definition nat64LocalPrefix : IPNet :=
  mkNet 128 (Z.lor (Z.shiftl 6619035 96) (Z.shiftl 1 80)) 48.
Definition v4CompatPrefix : IPNet := mkNet 128 0 96.
Definition siteLocalV6Prefix : IPNet := mkNet 128 (Z.shiftl 65216 112) 10.

(** ** The policy *)

Definition isUnsafeProbeIPv4 (a : Z) : bool :=
  IsUnspecified4 a || IsLoopback4 a || IsPrivate4 a
  || IsLinkLocalUnicast4 a || IsLinkLocalMulticast4 a || IsMulticast4 a
  || net_contains cgnatPrefix a || net_contains reservedV4Prefix a
  || net_contains ietfProtoV4Prefix a || net_contains benchmarkV4Prefix a.

(** The caller has ruled out the four-byte form. *)
Definition embeddedProbeIPv4 (a : Z) : option Z :=
  if net_contains v4TranslatedPrefix a || net_contains nat64WKPrefix a || net_contains v4CompatPrefix a
  then Some (Z.land a (Z.ones 32)) else None.

Definition isUnsafeProbeIP (ip : IP) : bool :=
  match To4 ip with
  | Some a => isUnsafeProbeIPv4 a
  | None =>
      let a := To16 ip in
      net_contains nat64LocalPrefix a
      || match embeddedProbeIPv4 a with Some e => isUnsafeProbeIPv4 e | None => false end
      || (IsUnspecified6 a || IsLoopback6 a || IsPrivate6 a
          || IsLinkLocalUnicast6 a || IsLinkLocalMulticast6 a || IsMulticast6 a
          || net_contains siteLocalV6Prefix a)
  end.

(** ** Textual forms *)

Definition colon : ascii := ":".
Definition dot : ascii := ".".

Definition digit_in (base : Z) (c : ascii) : option Z :=
  let n := Z.of_nat (nat_of_ascii c) in
  let v := (if is_digit c then n - 48
            else if (97 <=? n) && (n <=? 122) then n - 87
            else if (65 <=? n) && (n <=? 90) then n - 55 else 99)%Z in
  if (v <? base)%Z then Some v else None.

(** [strconv.ParseUint(s, base, 64)] for the bases 8, 10 and 16. *)
Fixpoint parse_base (base acc : Z) (s : string) : option Z :=
  match s with
  | "" => Some acc
  | String c s' =>
      match digit_in base c with
      | Some v => let acc := (acc * base + v)%Z in
                  if (max_uint64 <? acc)%Z then None else parse_base base acc s'
      | None => None
      end
  end.
Definition ParseUintBase (base : Z) (s : string) : option Z :=
  match s with "" => None | _ => parse_base base 0 s end.

Definition parseInetPart (p : string) : option Z :=
  match p with
  | "" => None
  | String c s =>
      if HasPrefix p "0x" || HasPrefix p "0X" then
        match drop 2 p with "" => None | digits => ParseUintBase 16 digits end
      else if (1 <? String.length p)%nat && Ascii.eqb c "0" then ParseUintBase 8 s
      else ParseUintBase 10 p
  end.

Fixpoint map_option {A B} (f : A → option B) (l : list A) : option (list B) :=
  match l with
  | [] => Some []
  | x :: l => match f x, map_option f l with Some y, Some r => Some (y :: r) | _, _ => None end
  end.

Definition inet_address (vals : list Z) : option Z :=
  match vals with
  | [a] => if (4294967295 <? a)%Z then None else Some a
  | [a; b] => if ((255 <? a) || (16777215 <? b))%Z then None else Some (Z.lor (Z.shiftl a 24) b)
  | [a; b; c] => if ((255 <? a) || (255 <? b) || (65535 <? c))%Z then None
                 else Some (Z.lor (Z.lor (Z.shiftl a 24) (Z.shiftl b 16)) c)
  | [a; b; c; d] => if ((255 <? a) || (255 <? b) || (255 <? c) || (255 <? d))%Z then None
                    else Some (ipv4 a b c d)
  | _ => None
  end.

Definition parseInetAtonIPv4 (host : string) : option IP :=
  match map_option parseInetPart (Split host dot) with
  | Some vals => IPv4 <$> inet_address vals
  | None => None
  end.

(** [net.ParseIP]: dotted decimal without leading zeros, or IPv6. *)
Definition parse_octet (p : string) : option Z :=
  match p with
  | "" => None
  | String c s =>
      if Ascii.eqb c "0" && negb (String.eqb s "") then None
      else if (3 <? String.length p)%nat then None
      else match ParseUintBase 10 p with
           | Some v => if (255 <? v)%Z then None else Some v
           | None => None
           end
  end.
Definition parse_ipv4 (s : string) : option Z :=
  match map_option parse_octet (Split s dot) with
  | Some [a; b; c; d] => Some (ipv4 a b c d)
  | _ => None
  end.

(** Up to four hexadecimal digits, and what follows them. *)
Fixpoint hex_group (fuel : nat) (acc : Z) (n : nat) (s : string) : option (Z * nat * string) :=
  match s with
  | String c s' =>
      match digit_in 16 c with
      | Some v => match fuel with
                  | 0 => None
                  | S f => hex_group f (acc * 16 + v) (S n) s'
                  end
      | None => Some (acc, n, s)
      end
  | "" => Some (acc, n, "")
  end.

(** [groups] read so far, most significant first; [ellipsis] is how many of
    them came before the "::". *)
Definition close_groups (groups : list Z) (ellipsis : option nat) : option (list Z) :=
  match ellipsis with
  | None => if (length groups =? 8)%nat then Some groups else None
  | Some k => if (length groups <? 8)%nat
              then Some (firstn k groups ++ repeat 0%Z (8 - length groups) ++ skipn k groups)%list
              else None
  end.

Fixpoint parse_groups (fuel : nat) (groups : list Z) (ellipsis : option nat) (s : string)
    : option (list Z) :=
  match fuel with
  | 0 => None
  | S f =>
      if (8 <=? length groups)%nat then if String.eqb s "" then close_groups groups ellipsis else None
      else
        match hex_group 4 0 0 s with
        | None | Some (_, 0, _) => None
        | Some (v, _, rest) =>
            match rest with
            | "" => close_groups (groups ++ [v])%list ellipsis
            | String c rest' =>
                if Ascii.eqb c dot then
                  if bool_decide (ellipsis = None) && negb (length groups =? 6)%nat then None
                  else if (6 <? length groups)%nat then None
                  else match parse_ipv4 s with
                       | Some a => close_groups (groups ++ [Z.shiftr a 16; Z.land a 65535])%list ellipsis
                       | None => None
                       end
                else if Ascii.eqb c colon then
                  match rest' with
                  | "" => None
                  | String c' rest'' =>
                      if Ascii.eqb c' colon then
                        match ellipsis with
                        | Some _ => None
                        | None =>
                            let groups := (groups ++ [v])%list in
                            if String.eqb rest'' "" then close_groups groups (Some (length groups))
                            else parse_groups f groups (Some (length groups)) rest''
                        end
                      else parse_groups f (groups ++ [v])%list ellipsis rest'
                  end
                else None
            end
        end
  end.

Definition groups_value (l : list Z) : Z := foldl (λ acc g, acc * 65536 + g)%Z 0%Z l.
Definition parse_ipv6 (s : string) : option Z :=
  groups_value <$>
  (if HasPrefix s "::" then
     let s := drop 2 s in
     if String.eqb s "" then close_groups [] (Some 0%nat) else parse_groups 9 [] (Some 0%nat) s
   else parse_groups 9 [] None s).

(** The first of the separators decides; a zone is refused. *)
Fixpoint first_sep (s : string) : option ascii :=
  match s with
  | "" => None
  | String c s' => if Ascii.eqb c dot || Ascii.eqb c colon || Ascii.eqb c "%" then Some c else first_sep s'
  end.
Definition ParseIP (s : string) : option IP :=
  match first_sep s with
  | Some c =>
      if Ascii.eqb c dot then (λ a, IPv6 (v4_mapped + a)) <$> parse_ipv4 s
      else if Ascii.eqb c colon && negb (ContainsByte s "%") then IPv6 <$> parse_ipv6 s
      else None
  | None => None
  end.

Definition parseHostIP (host : string) : option IP :=
  if String.eqb host "" then None
  else match ParseIP host with
       | Some ip => Some ip
       | None => if ContainsByte host colon then None else parseInetAtonIPv4 host
       end.

(** ** DNS names *)

Definition last_is (f : ascii → bool) : string → bool :=
  fix go s := match s with "" => false | String c "" => f c | String _ s' => go s' end.
Definition dash : ascii := "-".
Definition valid_label (l : string) : bool :=
  negb (String.eqb l "") && (String.length l <=? 63)%nat
  && negb (HasPrefix l "-") && negb (last_is (λ c, Ascii.eqb c dash) l)
  && all_bytes (λ c, is_letter c || is_digit c || Ascii.eqb c dash) l.
Definition isValidDNSName (host : string) : bool :=
  negb (String.eqb host "") && (String.length host <=? 253)%nat
  && forallb valid_label (Split host dot)
  && match last (Split host dot) with
     | Some label => negb (all_bytes is_digit label)
     | None => false
     end.

(** ** The policy as ranges *)

Definition between (a : Z) (r : Z * Z) : bool := ((r.1 <=? a) && (a <=? r.2))%Z.
Definition block (base size : Z) : Z * Z := (base, base + size - 1)%Z.
Definition shift_range (base : Z) (r : Z * Z) : Z * Z := (base + r.1, base + r.2)%Z.

(** What a probe may not reach over IPv4: 0.0.0.0, 127/8, 10/8, 172.16/12,
    192.168/16, 169.254/16, 224/4, 100.64/10, 240/4, 192.0.0/24 and 198.18/15. *)
Definition forbidden_v4 : list (Z * Z) :=
  [block 0 1; block (127 * 2 ^ 24) (2 ^ 24); block (10 * 2 ^ 24) (2 ^ 24);
   block (172 * 2 ^ 24 + 16 * 2 ^ 16) (2 ^ 20); block (192 * 2 ^ 24 + 168 * 2 ^ 16) (2 ^ 16);
   block (169 * 2 ^ 24 + 254 * 2 ^ 16) (2 ^ 16); block (224 * 2 ^ 24) (2 ^ 28);
   block (100 * 2 ^ 24 + 64 * 2 ^ 16) (2 ^ 22); block (240 * 2 ^ 24) (2 ^ 28);
   block (192 * 2 ^ 24) (2 ^ 8); block (198 * 2 ^ 24 + 18 * 2 ^ 16) (2 ^ 17)]%Z.

(** The same addresses inside ::ffff:0:0/96, ::ffff:0:0:0/96, 64:ff9b::/96 and
    ::/96; and 64:ff9b:1::/48, ::, ::1, fc00::/7, fe80::/10, ff00::/8 and
    fec0::/10. *)
Definition v4_bases : list Z := [65535 * 2 ^ 32; 65535 * 2 ^ 48; 6619035 * 2 ^ 96; 0]%Z.
Definition forbidden_v6 : list (Z * Z) :=
  [block (6619035 * 2 ^ 96 + 2 ^ 80) (2 ^ 80); block 0 1; block 1 1; block (252 * 2 ^ 120) (2 ^ 121);
   block (1018 * 2 ^ 118) (2 ^ 118); block (255 * 2 ^ 120) (2 ^ 120); block (1019 * 2 ^ 118) (2 ^ 118)]%Z.
Definition forbidden : list (Z * Z) :=
  (v4_bases ≫= (λ b, shift_range b <$> forbidden_v4)) ++ forbidden_v6.

(** *** Masks and bytes as ranges *)

Lemma land_mask w k a :
  (0 ≤ k ≤ w)%Z → (0 ≤ a < 2 ^ w)%Z →
  Z.land a (Z.shiftl (Z.ones k) (w - k)) = (a / 2 ^ (w - k) * 2 ^ (w - k))%Z.
Proof.
  intros Hk Ha. apply Z.bits_inj'. intros i Hi. rewrite Z.land_spec, Z.shiftl_spec by done.
  rewrite <-Z.shiftr_div_pow2, <-Z.shiftl_mul_pow2, Z.shiftl_spec by lia.
  destruct (Z.lt_ge_cases i (w - k)).
  { rewrite (Z.testbit_neg_r (Z.ones k)), (Z.testbit_neg_r (Z.shiftr _ _)), andb_false_r by lia. done. }
  rewrite Z.shiftr_spec by lia. replace (i - (w - k) + (w - k))%Z with i by lia.
  destruct (Z.lt_ge_cases i w).
  - rewrite Z.ones_spec_low by lia. apply andb_true_r.
  - rewrite Z.ones_spec_high by lia. rewrite andb_false_r. symmetry.
    destruct (decide (a = 0)%Z) as [->|]; [apply Z.testbit_0_l|]. apply Z.bits_above_log2; [lia|].
    enough (Z.log2 a < w)%Z by lia. apply Z.log2_lt_pow2; lia.
Qed.

Lemma contains_between n a :
  (0 ≤ net_bits n ≤ net_width n)%Z → (0 ≤ net_base n < 2 ^ net_width n)%Z → (0 ≤ a < 2 ^ net_width n)%Z →
  (net_base n mod 2 ^ (net_width n - net_bits n) = 0)%Z →
  net_contains n a = between a (block (net_base n) (2 ^ (net_width n - net_bits n))).
Proof.
  intros Hb Hbase Ha Hm. unfold net_contains, net_mask, between, block. rewrite !land_mask by done. simpl.
  assert (0 < 2 ^ (net_width n - net_bits n))%Z as Hp by (apply Z.pow_pos_nonneg; lia).
  generalize dependent (2 ^ (net_width n - net_bits n))%Z. intros p Hm Hp.
  assert (net_base n / p * p = net_base n)%Z as -> by (pose proof (Z.div_mod (net_base n) p); lia).
  apply eq_true_iff_eq. rewrite andb_true_iff, Z.eqb_eq, !Z.leb_le.
  pose proof (Z.div_mod (net_base n) p) as H1. pose proof (Z.div_mod a p) as H2. pose proof (Z.mod_pos_bound a p Hp).
  split; [lia|]. intros. assert (net_base n / p = a / p)%Z; [|nia].
  apply Z.div_unique with (a - net_base n)%Z; [lia|]. nia.
Qed.

Lemma byte_at_div a i : (0 ≤ i)%Z → byte_at a i = ((a / 2 ^ (8 * i)) mod 256)%Z.
Proof. intros Hi. unfold byte_at. rewrite Z.shiftr_div_pow2 by lia. by rewrite (Z.land_ones _ 8). Qed.

Lemma byte_at_bounds a i : (0 ≤ i)%Z → (0 ≤ byte_at a i < 2 ^ 8)%Z.
Proof. intros Hi. rewrite byte_at_div by done. apply Z.mod_pos_bound. lia. Qed.

Lemma land_high k a : (0 ≤ k ≤ 8)%Z → (0 ≤ a < 2 ^ 8)%Z →
  Z.land a (Z.shiftl (Z.ones k) (8 - k)) = (a / 2 ^ (8 - k) * 2 ^ (8 - k))%Z.
Proof. apply (land_mask 8). Qed.

(** Byte tests into inequalities. *)
Ltac bytes_to_ranges :=
  apply eq_true_iff_eq; unfold between, block; cbn [fst snd];
  rewrite ?(land_high 4), ?(land_high 7), ?(land_high 2) by (lia || (apply byte_at_bounds; lia));
  rewrite ?byte_at_div by lia; rewrite ?orb_true_iff, ?andb_true_iff, ?Z.eqb_eq, ?Z.leb_le;
  Z.to_euclidean_division_equations; lia.

(** A fact about constants. *)
Ltac concrete := vm_compute; repeat split; congruence.

Section V4.
Context (a : Z) (Ha : (0 ≤ a < 2 ^ 32)%Z).

Lemma loopback4 : IsLoopback4 a = between a (block (127 * 2 ^ 24) (2 ^ 24)).
Proof using Ha. unfold IsLoopback4. bytes_to_ranges. Qed.
Lemma private4 :
  IsPrivate4 a = between a (block (10 * 2 ^ 24) (2 ^ 24))
                 || between a (block (172 * 2 ^ 24 + 16 * 2 ^ 16) (2 ^ 20))
                 || between a (block (192 * 2 ^ 24 + 168 * 2 ^ 16) (2 ^ 16)).
Proof using Ha.
  unfold IsPrivate4. change 240%Z with (Z.shiftl (Z.ones 4) (8 - 4)). bytes_to_ranges.
Qed.
Lemma linklocal4 : IsLinkLocalUnicast4 a = between a (block (169 * 2 ^ 24 + 254 * 2 ^ 16) (2 ^ 16)).
Proof using Ha. unfold IsLinkLocalUnicast4. bytes_to_ranges. Qed.
Lemma multicast4 : IsLinkLocalMulticast4 a || IsMulticast4 a = between a (block (224 * 2 ^ 24) (2 ^ 28)).
Proof using Ha.
  unfold IsLinkLocalMulticast4, IsMulticast4. change 240%Z with (Z.shiftl (Z.ones 4) (8 - 4)). bytes_to_ranges.
Qed.

Lemma unsafe_v4_ranges : isUnsafeProbeIPv4 a = existsb (between a) forbidden_v4.
Proof using Ha.
  unfold isUnsafeProbeIPv4, forbidden_v4. rewrite loopback4, private4, linklocal4.
  rewrite (contains_between cgnatPrefix), (contains_between reservedV4Prefix),
    (contains_between ietfProtoV4Prefix), (contains_between benchmarkV4Prefix)
    by first [exact Ha|concrete].
  rewrite <-(orb_assoc _ (IsLinkLocalMulticast4 a) (IsMulticast4 a)), multicast4.
  assert (IsUnspecified4 a = between a (block 0 1)) as -> by (unfold IsUnspecified4; bytes_to_ranges).
  cbn [existsb]. rewrite orb_false_r, !orb_assoc. reflexivity.
Qed.
End V4.

Lemma existsb_shift base x l :
  existsb (between x) (shift_range base <$> l) = existsb (between (x - base)) l.
Proof.
  induction l as [|r l IH]; [done|]. rewrite fmap_cons. simpl. rewrite IH. f_equal.
  unfold between, shift_range. simpl. apply eq_true_iff_eq. rewrite !andb_true_iff, !Z.leb_le. lia.
Qed.

Lemma forbidden_v4_small x : existsb (between x) forbidden_v4 = true → (0 ≤ x < 2 ^ 32)%Z.
Proof.
  unfold forbidden_v4, between, block. cbn [existsb fst snd]. rewrite !orb_true_iff, !andb_true_iff, !Z.leb_le. lia.
Qed.

(** The ranges of one embedding. *)
Lemma embedded_ranges base x :
  existsb (between x) (shift_range base <$> forbidden_v4)
  = between x (block base (2 ^ 32)) && existsb (between (x - base)) forbidden_v4.
Proof.
  rewrite existsb_shift. destruct (existsb _ forbidden_v4) eqn:E; [|by rewrite andb_false_r].
  apply forbidden_v4_small in E. rewrite andb_true_r. symmetry. unfold between, block. simpl.
  apply andb_true_iff. rewrite !Z.leb_le. lia.
Qed.

Lemma forbidden_split x :
  existsb (between x) forbidden
  = (between x (block (65535 * 2 ^ 32) (2 ^ 32)) && existsb (between (x - 65535 * 2 ^ 32)) forbidden_v4)
    || (between x (block (65535 * 2 ^ 48) (2 ^ 32)) && existsb (between (x - 65535 * 2 ^ 48)) forbidden_v4)
    || (between x (block (6619035 * 2 ^ 96) (2 ^ 32)) && existsb (between (x - 6619035 * 2 ^ 96)) forbidden_v4)
    || (between x (block 0 (2 ^ 32)) && existsb (between (x - 0)) forbidden_v4)
    || existsb (between x) forbidden_v6.
Proof.
  unfold forbidden, v4_bases. rewrite existsb_app. f_equal. cbn [mbind list_bind].
  rewrite !existsb_app, !embedded_ranges, orb_false_r. by rewrite !orb_assoc.
Qed.

Section V6.
Context (a : Z) (Ha : (0 ≤ a < 2 ^ 128)%Z).

Lemma private6 : IsPrivate6 a = between a (block (252 * 2 ^ 120) (2 ^ 121)).
Proof using Ha. unfold IsPrivate6. change 254%Z with (Z.shiftl (Z.ones 7) (8 - 7)). bytes_to_ranges. Qed.
Lemma linklocal6 : IsLinkLocalUnicast6 a = between a (block (1018 * 2 ^ 118) (2 ^ 118)).
Proof using Ha. unfold IsLinkLocalUnicast6. change 192%Z with (Z.shiftl (Z.ones 2) (8 - 2)). bytes_to_ranges. Qed.
Lemma multicast6_range : IsMulticast6 a = between a (block (255 * 2 ^ 120) (2 ^ 120)).
Proof using Ha. unfold IsMulticast6. bytes_to_ranges. Qed.
Lemma multicast6 :
  IsLinkLocalMulticast6 a || IsMulticast6 a = between a (block (255 * 2 ^ 120) (2 ^ 120)).
Proof using Ha.
  rewrite <-multicast6_range. unfold IsLinkLocalMulticast6, IsMulticast6.
  destruct (byte_at a 15 =? 255)%Z; [apply orb_true_r|done].
Qed.

Lemma own_v6_ranges :
  net_contains nat64LocalPrefix a
  || (IsUnspecified6 a || IsLoopback6 a || IsPrivate6 a || IsLinkLocalUnicast6 a
      || IsLinkLocalMulticast6 a || IsMulticast6 a || net_contains siteLocalV6Prefix a)
  = existsb (between a) forbidden_v6.
Proof using Ha.
  rewrite <-(orb_assoc _ (IsLinkLocalMulticast6 a) (IsMulticast6 a)), multicast6, private6, linklocal6.
  rewrite (contains_between nat64LocalPrefix), (contains_between siteLocalV6Prefix) by first [exact Ha|concrete].
  assert (IsUnspecified6 a = between a (block 0 1)) as -> by (unfold IsUnspecified6; bytes_to_ranges).
  assert (IsLoopback6 a = between a (block 1 1)) as -> by (unfold IsLoopback6; bytes_to_ranges).
  unfold forbidden_v6. cbn [existsb]. rewrite orb_false_r, !orb_assoc. reflexivity.
Qed.

Lemma mapped_shift : (Z.shiftr a 32 =? 65535)%Z = between a (block (65535 * 2 ^ 32) (2 ^ 32)).
Proof using Ha. rewrite Z.shiftr_div_pow2 by lia. bytes_to_ranges. Qed.
Lemma low_bits : Z.land a (Z.ones 32) = (a mod 2 ^ 32)%Z.
Proof using. apply Z.land_ones. lia. Qed.

Lemma embedded_spec :
  match embeddedProbeIPv4 a with Some e => isUnsafeProbeIPv4 e | None => false end
  = (between a (block (65535 * 2 ^ 48) (2 ^ 32)) && existsb (between (a - 65535 * 2 ^ 48)) forbidden_v4)
    || (between a (block (6619035 * 2 ^ 96) (2 ^ 32)) && existsb (between (a - 6619035 * 2 ^ 96)) forbidden_v4)
    || (between a (block 0 (2 ^ 32)) && existsb (between (a - 0)) forbidden_v4).
Proof using Ha.
  unfold embeddedProbeIPv4.
  rewrite (contains_between v4TranslatedPrefix), (contains_between nat64WKPrefix), (contains_between v4CompatPrefix)
    by first [exact Ha|concrete].
  change (2 ^ (net_width v4TranslatedPrefix - net_bits v4TranslatedPrefix))%Z with (2 ^ 32)%Z.
  change (2 ^ (net_width nat64WKPrefix - net_bits nat64WKPrefix))%Z with (2 ^ 32)%Z.
  change (2 ^ (net_width v4CompatPrefix - net_bits v4CompatPrefix))%Z with (2 ^ 32)%Z.
  change (net_base v4TranslatedPrefix) with (65535 * 2 ^ 48)%Z. change (net_base nat64WKPrefix) with (6619035 * 2 ^ 96)%Z.
  change (net_base v4CompatPrefix) with 0%Z. rewrite low_bits.
  assert (∀ k, between a (block (k * 2 ^ 32) (2 ^ 32)) = true → (a mod 2 ^ 32)%Z = (a - k * 2 ^ 32)%Z) as Hmod.
  { intros k. unfold between, block. cbn [fst snd]. rewrite andb_true_iff, !Z.leb_le. intros Hr. symmetry.
    apply Z.mod_unique_pos with k; lia. }
  pose proof (Hmod (65535 * 2 ^ 16)%Z) as H1. pose proof (Hmod (6619035 * 2 ^ 64)%Z) as H2. pose proof (Hmod 0%Z) as H3.
  replace (65535 * 2 ^ 16 * 2 ^ 32)%Z with (65535 * 2 ^ 48)%Z in H1 by lia.
  replace (6619035 * 2 ^ 64 * 2 ^ 32)%Z with (6619035 * 2 ^ 96)%Z in H2 by lia.
  change (0 * 2 ^ 32)%Z with 0%Z in H3.
  destruct (between a (block (65535 * 2 ^ 48) (2 ^ 32))) eqn:B1, (between a (block (6619035 * 2 ^ 96) (2 ^ 32))) eqn:B2,
    (between a (block 0 (2 ^ 32))) eqn:B3; cbn [orb andb]; try done;
    try (exfalso; unfold between, block in *; cbn [fst snd] in *; rewrite ?andb_true_iff, ?Z.leb_le in *; lia).
  - rewrite unsafe_v4_ranges by (apply Z.mod_pos_bound; lia). by rewrite H1, !orb_false_r.
  - rewrite unsafe_v4_ranges by (apply Z.mod_pos_bound; lia). by rewrite H2, !orb_false_r.
  - rewrite unsafe_v4_ranges by (apply Z.mod_pos_bound; lia). by rewrite H3.
Qed.
End V6.

(** Inside the mapped block no other range applies. *)
Lemma forbidden_mapped e : (0 ≤ e < 2 ^ 32)%Z →
  existsb (between (65535 * 2 ^ 32 + e)) forbidden = existsb (between e) forbidden_v4.
Proof.
  intros He. rewrite forbidden_split. replace (65535 * 2 ^ 32 + e - 65535 * 2 ^ 32)%Z with e by lia.
  assert (∀ lo hi, (hi < 65535 * 2 ^ 32)%Z ∨ (65535 * 2 ^ 32 + 2 ^ 32 <= lo)%Z → between (65535 * 2 ^ 32 + e) (lo, hi) = false) as Hout.
  { intros lo hi Hr. apply not_true_iff_false. unfold between. cbn [fst snd]. rewrite andb_true_iff, !Z.leb_le. lia. }
  unfold forbidden_v6, block. cbn [existsb].
  rewrite !(Hout (65535 * 2 ^ 48)%Z), !(Hout (6619035 * 2 ^ 96)%Z), !(Hout 0%Z) by lia.
  rewrite !(Hout (_ * 2 ^ 120)%Z), !(Hout (_ * 2 ^ 118)%Z), !(Hout 1%Z), !(Hout (6619035 * 2 ^ 96 + 2 ^ 80)%Z) by lia.
  assert (between (65535 * 2 ^ 32 + e) (65535 * 2 ^ 32, 65535 * 2 ^ 32 + 2 ^ 32 - 1)%Z = true) as ->.
  { unfold between. cbn [fst snd]. rewrite andb_true_iff, !Z.leb_le. lia. }
  cbn [orb andb]. by rewrite !orb_false_r.
Qed.

(** C22: the address policy is a list of ranges. Whatever form an address
    comes in, it is refused exactly when it lies in one of the ranges of
    [forbidden]: the reserved IPv4 blocks, the same blocks seen through the
    IPv4-mapped, IPv4-translated, NAT64 and IPv4-compatible prefixes, and the
    reserved IPv6 blocks. *)
Theorem probe_policy_is_ranges ip :
  wf_ip ip → isUnsafeProbeIP ip = existsb (between (To16 ip)) forbidden.
Proof.
  unfold isUnsafeProbeIP. destruct ip as [a|a]; cbn [To4 To16 wf_ip]; intros Ha.
  - rewrite unsafe_v4_ranges by done. symmetry. by apply forbidden_mapped.
  - rewrite mapped_shift by done. destruct (between a (block (65535 * 2 ^ 32) (2 ^ 32))) eqn:B.
    + pose proof B as Hr. unfold between, block in Hr. cbn [fst snd] in Hr. rewrite andb_true_iff, !Z.leb_le in Hr.
      rewrite low_bits, unsafe_v4_ranges by (apply Z.mod_pos_bound; lia).
      rewrite <-forbidden_mapped by (apply Z.mod_pos_bound; lia). f_equal. f_equal.
      rewrite <-(Z.mod_unique_pos a (2 ^ 32) 65535 (a - 65535 * 2 ^ 32)) by lia. lia.
    + rewrite forbidden_split, B. cbn [andb orb]. rewrite embedded_spec, <-own_v6_ranges by done.
      set (x := net_contains nat64LocalPrefix a). set (y := IsUnspecified6 a || _ || _ || _ || _ || _ || _).
      generalize x y. intros [] []; rewrite ?orb_true_r, ?orb_false_r; try done; by rewrite ?orb_true_r, ?orb_false_l.
Qed.

(** ** Spellings of an address *)

(** The grammar of [inet_aton], written down apart from the code: the digits,
    in either case, and what a sequence of them denotes. *)
Definition denotes (c : ascii) (v : Z) : Prop :=
  (0 ≤ v)%Z ∧ (String.get (Z.to_nat v) "0123456789abcdef" = Some c
               ∨ String.get (Z.to_nat v) "0123456789ABCDEF" = Some c).
Inductive numeral (base : Z) : string → Z → Prop :=
  | numeral_nil : numeral base "" 0
  | numeral_snoc s n c v : numeral base s n → denotes c v → (v < base)%Z →
      numeral base (s ++ String c "") (n * base + v).

(** One part of a spelling: decimal without a leading zero, octal behind a
    zero, hexadecimal behind [0x] or [0X]; any padding, digits of any case. *)
Inductive spells : string → Z → Prop :=
  | spells_decimal s n : numeral 10 s n → s ≠ "" → HasPrefix s "0" = false ∨ s = "0" → spells s n
  | spells_octal s n : numeral 8 s n → s ≠ "" → spells ("0" ++ s) n
  | spells_hex x s n : x = "x" ∨ x = "X" → numeral 16 s n → s ≠ "" → spells ("0" ++ x ++ s) n.

(** The ways to divide an address into one to four parts, the last taking the
    remaining bytes. *)
Definition splits (a : Z) : list (list Z) :=
  [[a]; [a / 2 ^ 24; a mod 2 ^ 24]; [a / 2 ^ 24; a / 2 ^ 16 mod 2 ^ 8; a mod 2 ^ 16];
   [a / 2 ^ 24; a / 2 ^ 16 mod 2 ^ 8; a / 2 ^ 8 mod 2 ^ 8; a mod 2 ^ 8]]%Z.

Lemma below_ind (P : Z → Prop) (n : nat) :
  (∀ k, (k < n)%nat → P (Z.of_nat k)) → ∀ v, (0 ≤ v < Z.of_nat n)%Z → P v.
Proof. intros HP v Hv. rewrite <-(Z2Nat.id v) by lia. apply HP. lia. Qed.

Definition part_byte (c : ascii) : bool := is_letter c || is_digit c.

Lemma digit_in_denotes base c v : (base ≤ 16)%Z → digit_in base c = Some v ↔ denotes c v ∧ (v < base)%Z.
Proof.
  intros Hb. assert (∀ v, digit_in 16 c = Some v ↔ denotes c v) as H16.
  { clear v. intros v. split.
    - destruct c as [[] [] [] [] [] [] [] []]; vm_compute; first [discriminate|intros [= <-]; split; [done|by auto]].
    - intros [Hv Hc]. rewrite <-(Z2Nat.id v) by done. revert Hc. generalize (Z.to_nat v). clear v Hv. intros k Hc.
      do 16 (destruct k as [|k]; [destruct Hc as [Hc|Hc]; vm_compute in Hc; injection Hc as <-; vm_compute; reflexivity|]).
      destruct Hc as [Hc|Hc]; by vm_compute in Hc. }
  rewrite <-H16. unfold digit_in. cbv zeta.
  set (x := if is_digit c then _ else _). split.
  - destruct (Z.ltb_spec x base); [|done]. intros [= <-]. by rewrite (proj2 (Z.ltb_lt _ _)) by lia.
  - destruct (Z.ltb_spec x 16); [|by intros [? _]]. intros [[= ->] ?]. by rewrite (proj2 (Z.ltb_lt _ _)) by lia.
Qed.

Lemma denotes_byte c v : denotes c v → part_byte c = true.
Proof.
  intros Hc. assert (digit_in 16 c = Some v) as H.
  { apply digit_in_denotes; [done|]. split; [done|]. destruct Hc as [Hv Hc].
    destruct (Z.lt_ge_cases v 16) as [|Hge]; [done|]. exfalso.
    rewrite <-(Z2Nat.id v) in Hge by done. revert Hc Hge. generalize (Z.to_nat v). intros k Hc Hge.
    do 16 (destruct k as [|k]; [lia|]). destruct Hc as [Hc|Hc]; by vm_compute in Hc. }
  destruct c as [[] [] [] [] [] [] [] []]; vm_compute in H |- *; first [reflexivity|discriminate].
Qed.

Lemma parse_base_snoc base acc s c :
  parse_base base acc (s ++ String c "") = match parse_base base acc s with
                                           | Some v => parse_base base v (String c "")
                                           | None => None
                                           end.
Proof.
  revert acc. induction s as [|b s IH]; intros acc; [done|]. rewrite append_cons. cbn [parse_base].
  destruct (digit_in base b); [|done]. destruct (_ <? _)%Z; [done|]. apply IH.
Qed.

Lemma numeral_nonneg base s n : (0 < base)%Z → numeral base s n → (0 ≤ n)%Z.
Proof. intros Hb. induction 1 as [|? ? ? ? ? IH [Hv _]]; [done|]. nia. Qed.

(** The code reads exactly the numerals whose value fits 64 bits. *)
Lemma parse_base_numeral base s n : (2 ≤ base ≤ 16)%Z →
  parse_base base 0 s = Some n ↔ numeral base s n ∧ (n ≤ max_uint64)%Z.
Proof.
  intros Hb. split.
  - revert n. induction s as [|s c IH] using string_snoc_ind; intros n.
    { intros [= <-]. split; [constructor|done]. }
    rewrite parse_base_snoc. destruct (parse_base base 0 s) as [m|]; [|done]. cbn [parse_base].
    destruct (digit_in base c) as [v|] eqn:E; [|done]. apply digit_in_denotes in E as [Hc Hv]; [|lia].
    destruct (Z.ltb_spec max_uint64 (m * base + v)%Z); [done|]. intros [= <-].
    split; [|done]. constructor; [by apply IH|done|done].
  - intros [Hn Hm]. induction Hn as [|s n c v Hn IH Hc Hv]; [done|].
    rewrite parse_base_snoc. pose proof (numeral_nonneg base s n ltac:(lia) Hn) as Hn0. pose proof Hc as [Hv0 _].
    assert (n ≤ max_uint64)%Z as Hn1 by nia. rewrite IH by done. cbn [parse_base]. assert (digit_in base c = Some v) as -> by (apply digit_in_denotes; [lia|done]).
    by rewrite (proj2 (Z.ltb_ge _ _)) by done.
Qed.

Lemma ParseUintBase_numeral base s n : (2 ≤ base ≤ 16)%Z →
  ParseUintBase base s = Some n ↔ numeral base s n ∧ s ≠ "" ∧ (n ≤ max_uint64)%Z.
Proof.
  intros Hb. unfold ParseUintBase. destruct s as [|c s]; [split; [done|by intros (_ & ? & _)]|].
  rewrite parse_base_numeral by done. naive_solver.
Qed.

Lemma numeral_bytes base s n : numeral base s n → all_bytes part_byte s = true.
Proof.
  induction 1 as [|? ? ? ? ? IH Hc ?]; [done|]. rewrite all_bytes_append, IH. cbn [all_bytes].
  by rewrite (denotes_byte _ _ Hc).
Qed.
Lemma spells_bytes s n : spells s n → all_bytes part_byte s = true.
Proof.
  intros [t m H _ _|t m H _|x t m [->| ->] H _]; rewrite ?all_bytes_append; by rewrite (numeral_bytes _ _ _ H).
Qed.
Lemma spells_nonneg s n : spells s n → (0 ≤ n)%Z.
Proof. intros [t m H _ _|t m H _|x t m _ H _]; eapply numeral_nonneg in H; lia. Qed.

(** An octal numeral does not begin with an x. *)
Lemma octal_no_x s n x : (x = "x" ∨ x = "X") → numeral 8 s n → HasPrefix s x = false.
Proof.
  intros Hx Hn. assert (all_bytes is_digit s = true) as Hd.
  { induction Hn as [|s n c v _ IH Hc Hv]; [done|]. rewrite all_bytes_append, IH. cbn [all_bytes].
    assert (digit_in 8 c = Some v) as H by (by apply digit_in_denotes).
    destruct c as [[] [] [] [] [] [] [] []]; vm_compute in H |- *; first [reflexivity|discriminate]. }
  destruct s as [|c s]; [by destruct Hx as [->| ->]|]. cbn [all_bytes] in Hd. apply andb_true_iff in Hd as [Hd _].
  destruct Hx as [->| ->]; cbn [HasPrefix]; apply andb_false_iff; left; apply Ascii.eqb_neq; intros <-; by vm_compute in Hd.
Qed.

(** The code reads exactly the parts of the grammar whose value fits 64 bits. *)
Lemma spells_parsed s n : parseInetPart s = Some n ↔ spells s n ∧ (n ≤ max_uint64)%Z.
Proof.
  split.
  - destruct s as [|c s]; [done|]. unfold parseInetPart.
    destruct (HasPrefix (String c s) "0x" || HasPrefix (String c s) "0X") eqn:Ex.
    + assert (∃ x t, (x = "x" ∨ x = "X") ∧ String c s = "0" ++ x ++ t) as (x & t & Hx & E).
      { apply orb_true_iff in Ex as [[t ->]%HasPrefix_split|[t ->]%HasPrefix_split]; eexists _, t; split; [by left|done|by right|done]. }
      rewrite E. assert (drop 2 ("0" ++ x ++ t) = t) as -> by (by destruct Hx as [->| ->]).
      destruct t as [|d t]; [done|]. intros (Hn & Ht & Hm)%ParseUintBase_numeral; [|done].
      split; [|done]. by constructor.
    + clear Ex. destruct (_ && _) eqn:Eo.
      * apply andb_true_iff in Eo as [_ ->%Ascii.eqb_eq]. intros (Hn & Ht & Hm)%ParseUintBase_numeral; [|done].
        split; [|done]. by apply (spells_octal s).
      * intros (Hn & Ht & Hm)%ParseUintBase_numeral; [|done]. split; [|done]. constructor; [done|done|].
        cbn [HasPrefix]. destruct (Ascii.eqb_spec c "0") as [->|Hc].
        { right. by destruct s. }
        left. assert (Ascii.eqb "0" c = false) as -> by (apply Ascii.eqb_neq; congruence). done.
  - intros [[t m H Hne Hz|t m H Hne|x t m Hx H Hne] Hm].
    + assert (ParseUintBase 10 t = Some m) as Hp by (by apply ParseUintBase_numeral).
      destruct Hz as [Hz| ->]; [|exact Hp]. destruct t as [|c t]; [done|]. unfold parseInetPart. cbn [HasPrefix] in *.
      assert (Ascii.eqb "0" c = false) as E by (destruct t; by rewrite andb_true_r in Hz). rewrite E. cbn [andb orb].
      assert (Ascii.eqb c "0" = false) as -> by (apply Ascii.eqb_neq; intros ->; by vm_compute in E). by rewrite andb_false_r.
    + assert (ParseUintBase 8 t = Some m) as Hp by (by apply ParseUintBase_numeral).
      pose proof (octal_no_x t m "x" (or_introl eq_refl) H) as H1. pose proof (octal_no_x t m "X" (or_intror eq_refl) H) as H2.
      destruct t as [|c t]; [done|]. change ("0" ++ String c t) with (String "0" (String c t)). unfold parseInetPart.
      change (HasPrefix (String "0" (String c t)) "0x") with (HasPrefix (String c t) "x").
      change (HasPrefix (String "0" (String c t)) "0X") with (HasPrefix (String c t) "X"). rewrite H1, H2. exact Hp.
    + assert (ParseUintBase 16 t = Some m) as Hp by (by apply ParseUintBase_numeral).
      destruct t as [|c t]; [done|]. destruct Hx as [->| ->]; exact Hp.
Qed.

Lemma lor_shift x y n : (0 ≤ n)%Z → (0 ≤ y < 2 ^ n)%Z → Z.lor (Z.shiftl x n) y = (x * 2 ^ n + y)%Z.
Proof.
  intros Hn Hy. rewrite <-Z.lxor_lor, <-Z.add_nocarry_lxor.
  - by rewrite Z.shiftl_mul_pow2.
  - apply Z.bits_inj'. intros i Hi. rewrite Z.land_spec, Z.bits_0.
    destruct (Z.lt_ge_cases i n); [rewrite Z.shiftl_spec_low by done; done|].
    destruct (decide (y = 0)%Z) as [->|]; [by rewrite Z.testbit_0_l, andb_false_r|].
    rewrite (Z.bits_above_log2 y), andb_false_r; [done|lia|].
    enough (Z.log2 y < n)%Z by lia. apply Z.log2_lt_pow2; lia.
  - apply Z.bits_inj'. intros i Hi. rewrite Z.land_spec, Z.bits_0.
    destruct (Z.lt_ge_cases i n); [rewrite Z.shiftl_spec_low by done; done|].
    destruct (decide (y = 0)%Z) as [->|]; [by rewrite Z.testbit_0_l, andb_false_r|].
    rewrite (Z.bits_above_log2 y), andb_false_r; [done|lia|].
    enough (Z.log2 y < n)%Z by lia. apply Z.log2_lt_pow2; lia.
Qed.

Lemma ipv4_sum a b c d : (0 ≤ b < 256)%Z → (0 ≤ c < 256)%Z → (0 ≤ d < 256)%Z →
  ipv4 a b c d = (a * 2 ^ 24 + b * 2 ^ 16 + c * 2 ^ 8 + d)%Z.
Proof.
  intros Hb Hc Hd. unfold ipv4. rewrite (lor_shift c) by lia.
  assert (Z.lor (Z.shiftl a 24) (Z.shiftl b 16) = Z.shiftl (a * 2 ^ 8 + b) 16) as ->.
  { rewrite (Z.shiftl_mul_pow2 b) by lia. rewrite lor_shift, (Z.shiftl_mul_pow2 _ 16) by lia. lia. }
  rewrite lor_shift by lia. lia.
Qed.

(** Each split of an address is read back as that address. *)
Lemma inet_address_split a vals : (0 ≤ a < 2 ^ 32)%Z → vals ∈ splits a → inet_address vals = Some a.
Proof.
  intros Ha Hv. unfold splits in Hv. rewrite !elem_of_cons in Hv.
  assert (∀ x y : Z, (x <= y)%Z → (y <? x)%Z = false) as Hle by (intros; apply Z.ltb_ge; lia).
  destruct Hv as [->|[->|[->|[->|Hv]]]]; [..|set_solver]; cbn [inet_address];
    rewrite !Hle by (Z.to_euclidean_division_equations; lia); cbn [orb]; f_equal.
  - rewrite lor_shift by (Z.to_euclidean_division_equations; lia). Z.to_euclidean_division_equations; lia.
  - assert (Z.lor (Z.shiftl (a / 2 ^ 24) 24) (Z.shiftl (a / 2 ^ 16 mod 2 ^ 8) 16)
            = Z.shiftl (a / 2 ^ 16) 16) as ->.
    { rewrite (Z.shiftl_mul_pow2 (a / 2 ^ 16 mod 2 ^ 8)), (Z.shiftl_mul_pow2 (a / 2 ^ 16)) by lia.
      rewrite lor_shift by (Z.to_euclidean_division_equations; lia). Z.to_euclidean_division_equations; lia. }
    rewrite lor_shift by (Z.to_euclidean_division_equations; lia). Z.to_euclidean_division_equations; lia.
  - rewrite ipv4_sum by (Z.to_euclidean_division_equations; lia). Z.to_euclidean_division_equations; lia.
Qed.

Lemma splits_bounds a vals : (0 ≤ a < 2 ^ 32)%Z → vals ∈ splits a →
  vals ≠ [] ∧ Forall (λ v, 0 ≤ v < 2 ^ 32)%Z vals.
Proof.
  intros Ha Hv. unfold splits in Hv. rewrite !elem_of_cons in Hv.
  destruct Hv as [->|[->|[->|[->|Hv]]]]; [..|set_solver]; (split; [done|]);
    repeat constructor; Z.to_euclidean_division_equations; lia.
Qed.

Lemma octet_is_part p v : parse_octet p = Some v → parseInetPart p = Some v.
Proof.
  destruct p as [|c s]; [done|]. unfold parse_octet, parseInetPart. cbn [HasPrefix].
  destruct (Ascii.eqb_spec c "0") as [->|Hc].
  - destruct s; [|done]. simpl. done.
  - assert (Ascii.eqb "0" c = false) as -> by (apply Ascii.eqb_neq; congruence). cbn [andb orb]. rewrite andb_false_r.
    destruct (_ <? _)%nat; [done|]. destruct (ParseUintBase 10 (String c s)); [|done]. by destruct (_ <? _)%Z.
Qed.

Lemma map_option_mono {A B} (f g : A → option B) l r :
  (∀ x y, f x = Some y → g x = Some y) → map_option f l = Some r → map_option g l = Some r.
Proof.
  intros Hfg. revert r. induction l as [|x l IH]; intros r; [done|]. simpl.
  destruct (f x) eqn:E; [|done]. rewrite (Hfg _ _ E). destruct (map_option f l); [|done]. by rewrite (IH _ eq_refl).
Qed.

(** Parts joined by dots contain no other separator. *)
Definition host_byte (c : ascii) : bool := part_byte c || Ascii.eqb c dot.
Lemma Join_bytes l : Forall (λ s, all_bytes part_byte s = true) l → all_bytes host_byte (Join l ".") = true.
Proof.
  assert (∀ s, all_bytes part_byte s = true → all_bytes host_byte s = true) as Hh.
  { intros s. apply all_bytes_impl. intros c Hc. unfold host_byte. by rewrite Hc. }
  induction 1 as [|x l Hx Hl IH]; [done|]. destruct l as [|y l]; [by apply Hh|].
  change (Join (x :: y :: l) ".") with (x ++ String dot (Join (y :: l) ".")).
  rewrite all_bytes_append. cbn [all_bytes]. rewrite Hh by done. rewrite IH. done.
Qed.

Lemma host_bytes_sep s : all_bytes host_byte s = true →
  ContainsByte s colon = false ∧ (first_sep s = None ∨ first_sep s = Some dot).
Proof.
  induction s as [|c s IH]; [by auto|]. cbn [all_bytes]. intros [Hc Hs]%andb_true_iff. destruct (IH Hs) as [H1 H2].
  assert (Ascii.eqb c colon = false ∧ Ascii.eqb c "%" = false) as [E1 E2].
  { split; apply not_true_iff_false; intros ->%Ascii.eqb_eq; by vm_compute in Hc. }
  cbn [ContainsByte first_sep]. rewrite E1, E2, H1. split; [done|].
  destruct (Ascii.eqb_spec c dot) as [->|]; [by right|done].
Qed.

Lemma inet_address_bounds vals a : inet_address vals = Some a → Forall (λ v, 0 ≤ v)%Z vals → (0 ≤ a < 2 ^ 32)%Z.
Proof.
  intros Hi Hv. destruct vals as [|x [|y [|z [|w [|? ?]]]]]; try done; cbn [inet_address] in Hi;
    repeat match goal with H : Forall _ (_ :: _) |- _ => inversion H; clear H; subst end.
  - destruct (Z.ltb_spec 4294967295 x); [done|]. injection Hi as <-. lia.
  - destruct (Z.ltb_spec 255 x), (Z.ltb_spec 16777215 y); try done. injection Hi as <-. rewrite lor_shift; lia.
  - destruct (Z.ltb_spec 255 x), (Z.ltb_spec 255 y), (Z.ltb_spec 65535 z); try done. injection Hi as <-.
    rewrite (Z.shiftl_mul_pow2 y), lor_shift by lia.
    replace (x * 2 ^ 24 + y * 2 ^ 16)%Z with (Z.shiftl (x * 2 ^ 8 + y) 16) by (rewrite Z.shiftl_mul_pow2; lia).
    rewrite lor_shift; lia.
  - destruct (Z.ltb_spec 255 x), (Z.ltb_spec 255 y), (Z.ltb_spec 255 z), (Z.ltb_spec 255 w); try done.
    injection Hi as <-. rewrite ipv4_sum; lia.
Qed.

Lemma To4_mapped a : (0 ≤ a < 2 ^ 32)%Z → To4 (IPv6 (v4_mapped + a)) = Some a.
Proof.
  intros Ha. unfold To4, v4_mapped. rewrite Z.shiftl_mul_pow2 by lia.
  rewrite Z.shiftr_div_pow2, Z.land_ones by lia.
  assert ((65535 * 2 ^ 32 + a) / 2 ^ 32 = 65535)%Z as -> by (symmetry; apply Z.div_unique with a; lia).
  simpl. f_equal. symmetry. apply Z.mod_unique_pos with 65535%Z; lia.
Qed.

Lemma spelled_address a parts vals :
  (0 ≤ a < 2 ^ 32)%Z → Forall2 spells parts vals → vals ∈ splits a →
  ∃ ip, parseHostIP (Join parts ".") = Some ip ∧ To4 ip = Some a.
Proof.
  intros Ha Hspell Hsplit. destruct (splits_bounds _ _ Ha Hsplit) as [Hne Hall]. pose proof (inet_address_split _ _ Ha Hsplit) as Hi.
  assert (Forall (λ s, all_bytes part_byte s = true) parts) as Hbytes.
  { clear -Hspell. induction Hspell; constructor; eauto using spells_bytes. }
  assert (Split (Join parts ".") dot = parts) as Hsp.
  { apply Split_Join; [by inversion Hspell; subst|]. eapply Forall_impl; [exact Hbytes|]. intros s. apply all_bytes_impl.
    intros c Hc. destruct (Ascii.eqb_spec c dot) as [->|]; [by vm_compute in Hc|done]. }
  assert (map_option parseInetPart parts = Some vals) as Hparse.
  { clear -Hspell Hall. induction Hspell as [|p v l r Hp _ IH]; [done|]. inversion Hall as [|? ? Hv Hr]; subst. cbn [map_option].
    rewrite (proj2 (spells_parsed p v)), IH by (unfold max_uint64; first [done|split; [done|lia]]). done. }
  apply Join_bytes, host_bytes_sep in Hbytes as [Hcolon Hsep].
  set (host := Join parts ".") in *.
  assert (host ≠ "") as Hhost.
  { intros E. rewrite E in Hsp. change (Split "" dot) with [""] in Hsp. rewrite <-Hsp in Hparse. done. }
  unfold parseHostIP. destruct (String.eqb_spec host "") as [|_]; [done|]. destruct (ParseIP host) as [ip|] eqn:E.
  - eexists; split; [done|]. unfold ParseIP in E. destruct Hsep as [Hsep|Hsep]; rewrite Hsep in E; [done|].
    simpl in E. unfold parse_ipv4 in E. rewrite Hsp in E.
    destruct (map_option parse_octet parts) as [vs|] eqn:Ev; [|done].
    apply (map_option_mono _ parseInetPart) in Ev; [|exact octet_is_part]. rewrite Hparse in Ev. injection Ev as <-.
    destruct vals as [|x [|y [|z [|w [|? ?]]]]]; try done. injection E as <-.
    cbn [inet_address] in Hi. destruct (_ || _); [done|]. injection Hi as Hi. rewrite Hi. by apply To4_mapped.
  - rewrite Hcolon. unfold parseInetAtonIPv4. rewrite Hsp, Hparse, Hi. by eexists.
Qed.

(** C29: no spelling of an IPv4 address escapes the policy. A part is read
    exactly when it is one of the grammar (decimal, octal behind a zero,
    hexadecimal behind 0x or 0X, padded or not, digits of either case) with a
    value of 64 bits, and with that value; and however an address is written as
    one to four such parts joined by dots, it is read back as that address. *)
Theorem host_spellings :
  (∀ s n, parseInetPart s = Some n ↔ spells s n ∧ (n ≤ max_uint64)%Z)
  ∧ ∀ a parts vals,
      (0 ≤ a < 2 ^ 32)%Z → Forall2 spells parts vals → vals ∈ splits a →
      ∃ ip, parseHostIP (Join parts ".") = Some ip ∧ To4 ip = Some a
            ∧ isUnsafeProbeIP ip = isUnsafeProbeIPv4 a.
Proof.
  split; [exact spells_parsed|]. intros a parts vals Ha Hs Hv.
  destruct (spelled_address a parts vals Ha Hs Hv) as (ip & Hip & H4). exists ip.
  split_and!; [done|done|]. unfold isUnsafeProbeIP. by rewrite H4.
Qed.
