(* ===== verification/Sse.v ===== *)
(** * Server-sent events: the readers of service/probe.go

    A body as it arrives, line by line, with the error that ends it; the
    event reader of the persistent stream and the reader of a streamed
    response; and that what a server writes as an event is what is read. *)

From S2P Require Import Prelude GoStrings.
From Stdlib Require Import Ascii.
Import Go.
Local Open Scope string_scope.

(** ** Errors of a probe: whether the error is a timeout, whether its text is
    kept from the caller, the text. *)
Record Perr := mkPerr { pe_timeout : bool; pe_opaque : bool; pe_text : string }.
Definition app_error (text : string) : Perr := mkPerr false false text.
(** [fmt.Errorf("...: %w", err)] *)
Definition wrap (prefix : string) (e : Perr) : Perr :=
  mkPerr (pe_timeout e) (pe_opaque e) (prefix ++ ": " ++ pe_text e).

Inductive ReadErr := EOF | Broken (e : Perr).

(** A response body, and [io.LimitReader] of it. *)
Record Body := mkBody { b_text : string; b_end : ReadErr }.
Definition LimitReader (b : Body) (n : N) : Body :=
  if (N.of_nat (String.length (b_text b)) <? n)%N then b
  else mkBody (take (N.to_nat n) (b_text b)) EOF.

(** ** Lines of a stream

    The complete lines still to come, without their line feeds, the rest after
    the last line feed, and what ends the stream. *)
Record Stream := mkStream { s_lines : list string; s_tail : string; s_end : ReadErr }.

Fixpoint split_last (x : string) (l : list string) : list string * string :=
  match l with
  | [] => ([], x)
  | y :: l => let '(ls, t) := split_last y l in (x :: ls, t)
  end.
Definition stream_of (b : Body) : Stream :=
  let '(ls, t) := match Split (b_text b) lf with [] => ([], "") | x :: l => split_last x l end in
  mkStream ls t (b_end b).
Definition ended (e : ReadErr) : Stream := mkStream [] "" e.

(** [strings.TrimRight(line, "\r\n")] *)
Fixpoint TrimRightCRLF (s : string) : string :=
  match s with
  | "" => ""
  | String c s' =>
      let t := TrimRightCRLF s' in
      if String.eqb t "" && (Ascii.eqb c cr || Ascii.eqb c lf) then "" else String c t
  end.

(** ** Events *)

Record sseEvent := mkEvent { ev_event : string; ev_data : string }.

Definition splitSSEField (line : string) : string * string :=
  match Cut line ":" with
  | None => (line, "")
  | Some (name, value) => (name, if HasPrefix value " " then drop 1 value else value)
  end.

Inductive SseErr := SseRead (e : ReadErr) | SseTooLarge.

Definition joined (data : string) : string :=
  if String.eqb data "" then data else data ++ String lf "".
Definition data_line (max : Z) (data value : string) : option string :=
  let data := joined data in
  if (max <? Z.of_nat (String.length data) + Z.of_nat (String.length value))%Z then None
  else Some (data ++ value).

(** What a nonblank line does to the event under construction. *)
Definition sse_line (max : Z) (line event data : string) : option (string * string) :=
  if HasPrefix line ":" then Some (event, data)
  else let '(field, value) := splitSSEField line in
       if String.eqb field "event" then Some (value, data)
       else if String.eqb field "data" then (λ d, (event, d)) <$> data_line max data value
       else Some (event, data).

(** The loop of [readSSEEvent]: over the complete lines, then over the rest,
    which comes with the error that ends the stream. *)
Fixpoint read_event (max : Z) (lines : list string) (tail : string) (e : ReadErr) (event data : string)
    : result SseErr sseEvent * Stream :=
  match lines with
  | l :: ls =>
      let line := TrimRightCRLF l in
      if String.eqb line "" then (Ok (mkEvent event data), mkStream ls tail e)
      else match sse_line max line event data with
           | Some (event, data) => read_event max ls tail e event data
           | None => (Error SseTooLarge, mkStream ls tail e)
           end
  | [] =>
      if String.eqb tail "" then (Error (SseRead e), ended e)
      else
        let line := TrimRightCRLF tail in
        let at_eof := match e with EOF => true | _ => false end in
        if String.eqb line "" then
          (if String.eqb data "" && String.eqb event "message" && at_eof
           then Error (SseRead EOF) else Ok (mkEvent event data), ended e)
        else if HasPrefix line ":" then (Error (SseRead e), ended e)
        else match sse_line max line event data with
             | Some (event, data) =>
                 (if at_eof && negb (String.eqb data "") then Ok (mkEvent event data)
                  else Error (SseRead e), ended e)
             | None => (Error SseTooLarge, ended e)
             end
  end.
Definition readSSEEvent (max : Z) (s : Stream) : result SseErr sseEvent * Stream :=
  read_event max (s_lines s) (s_tail s) (s_end s) "message" "".

(** ** A response framed as events (readSSEResponse)

    [bufio.Scanner] with lines of less than one MiB; a read error ends the
    scan after the rest was delivered as a line. *)
Definition max_token : N := 1048576.
Fixpoint scan_body (lines : list string) (tail : string) (e : ReadErr) : list string * option Perr :=
  let too_long l := (max_token <=? N.of_nat (String.length l))%N in
  let failed := Some (app_error "bufio.Scanner: token too long") in
  match lines with
  | l :: ls => if too_long l then ([], failed)
               else let '(r, err) := scan_body ls tail e in (dropCR l :: r, err)
  | [] => if too_long tail then ([], failed)
          else (if String.eqb tail "" then [] else [dropCR tail],
                match e with EOF => None | Broken err => Some err end)
  end.

(** The events dispatched by blank lines, and what is left at the end. *)
Fixpoint dispatch {A} (accept : string → option A) (lines : list string) (buf : string)
    : A + string :=
  match lines with
  | [] => inr buf
  | line :: ls =>
      if String.eqb line "" then
        if String.eqb buf "" then dispatch accept ls buf
        else match accept buf with Some a => inl a | None => dispatch accept ls "" end
      else if HasPrefix line "data:" then
        let piece := drop 5 line in
        dispatch accept ls (buf ++ (if HasPrefix piece " " then drop 1 piece else piece))
      else dispatch accept ls buf
  end.

Definition no_match : Perr := app_error "sse stream closed without a matching response".
Definition readSSEResponse {A} (accept : string → option A) (b : Body) : result Perr A :=
  let s := stream_of b in
  let '(lines, err) := scan_body (s_lines s) (s_tail s) (s_end s) in
  match dispatch accept lines "" with
  | inl a => Ok a
  | inr buf =>
      match err with
      | Some e => Error (wrap "read sse" e)
      | None => if String.eqb buf "" then Error no_match
                else match accept buf with Some a => Ok a | None => Error no_match end
      end
  end.

(** ** What an event reader returns *)

(** A reader only moves forward, and an event's data is within the limit. *)
Definition pending (s : Stream) : nat := length (s_lines s) + (if String.eqb (s_tail s) "" then 0 else 1).

Lemma read_event_progress max lines tail e event data ev s' :
  read_event max lines tail e event data = (Ok ev, s') →
  (pending s' < pending (mkStream lines tail e))%nat
  ∧ ((Z.of_nat (String.length data) ≤ max)%Z → (Z.of_nat (String.length (ev_data ev)) ≤ max)%Z).
Proof.
  assert (∀ line event data event' data', sse_line max line event data = Some (event', data') →
    (Z.of_nat (String.length data) ≤ max)%Z → (Z.of_nat (String.length data') ≤ max)%Z) as Hline.
  { intros line ev0 d0 ev1 d1. unfold sse_line, data_line. destruct (HasPrefix line ":"); [naive_solver|].
    destruct (splitSSEField line) as [field value]. destruct (String.eqb field "event"); [naive_solver|].
    destruct (String.eqb field "data"); [|naive_solver].
    destruct (Z.ltb_spec max (Z.of_nat (String.length (joined d0)) + Z.of_nat (String.length value))); [done|].
    intros [= <- <-] _. rewrite append_length. lia. }
  revert event data. induction lines as [|l ls IH]; intros event data; cbn [read_event].
  - unfold pending. cbn [s_lines s_tail length]. destruct (String.eqb tail ""); [done|].
    destruct (String.eqb (TrimRightCRLF tail) "").
    { destruct (_ && _ && _); [done|]. intros [= <- <-]. cbn [s_lines s_tail ended length ev_data]. simpl. split; [lia|done]. }
    destruct (HasPrefix _ ":"); [done|]. destruct (sse_line _ _ _ _) as [[event' data']|] eqn:E; [|done].
    destruct (_ && _); [|done]. intros [= <- <-]. simpl. split; [lia|]. by eapply Hline.
  - destruct (String.eqb (TrimRightCRLF l) "").
    { intros [= <- <-]. unfold pending. simpl. split; [lia|done]. }
    destruct (sse_line _ _ _ _) as [[event' data']|] eqn:E; [|done]. intros Hr.
    destruct (IH _ _ Hr) as [Hp Hb]. split; [unfold pending in *; simpl in *; lia|]. intros Hd. apply Hb. by eapply Hline.
Qed.

(** ** Round trip *)

Definition clean (s : string) : Prop :=
  all_bytes (λ c, negb (Ascii.eqb c lf)) s = true ∧ TrimRightCRLF s = s.

Definition field_line (name value : string) : string := name ++ ": " ++ value.
Fixpoint event_lines (datas : list string) (rest : string) : string :=
  match datas with
  | [] => String lf rest
  | d :: ds => field_line "data" d ++ String lf (event_lines ds rest)
  end.
(** An event as a server writes it, before [rest]. *)
Definition encode_event (name : string) (datas : list string) (rest : string) : string :=
  field_line "event" name ++ String lf (event_lines datas rest).

Lemma Split_nonempty s c : Split s c ≠ [].
Proof. destruct s as [|b s]; simpl; [done|]. by repeat case_match. Qed.

Lemma stream_cons l rest e :
  all_bytes (λ c, negb (Ascii.eqb c lf)) l = true →
  stream_of (mkBody (l ++ String lf rest) e)
  = let s := stream_of (mkBody rest e) in mkStream (l :: s_lines s) (s_tail s) e.
Proof.
  intros Hl. unfold stream_of. cbn [b_text b_end]. rewrite Split_append by done.
  destruct (Split rest lf) as [|x xs] eqn:E; [by destruct rest; simpl in E; repeat case_match|].
  cbn [split_last]. by destruct (split_last x xs).
Qed.

Lemma stream_eta rest e :
  let s := stream_of (mkBody rest e) in s = mkStream (s_lines s) (s_tail s) e.
Proof. unfold stream_of. simpl. by destruct (match Split rest lf with [] => _ | x :: l => _ end). Qed.

Lemma trim_prefix a d : TrimRightCRLF a = a → TrimRightCRLF d = d → TrimRightCRLF (a ++ d) = a ++ d.
Proof.
  intros Ha Hd. induction a as [|c a IH]; [done|]. rewrite append_cons. simpl in *.
  destruct (String.eqb (TrimRightCRLF a) "" && _) eqn:E; [done|]. injection Ha as Ha. rewrite IH by done.
  destruct (String.eqb_spec (a ++ d) "") as [Had|]; [|done]. destruct a; [|done].
  simpl in E. by rewrite E.
Qed.

Lemma field_line_clean name value : clean name → clean value →
  clean (field_line name value).
Proof.
  intros [Hn1 Hn2] [Hv1 Hv2]. unfold field_line. split.
  - by rewrite !all_bytes_append, Hn1, Hv1.
  - apply trim_prefix; [done|]. by apply (trim_prefix ": ").
Qed.

Lemma field_split name value : all_bytes (λ c, negb (Ascii.eqb c ":")) name = true →
  splitSSEField (field_line name value) = (name, value).
Proof.
  intros Hn. unfold splitSSEField, field_line.
  assert (Cut (name ++ ": " ++ value) ":" = Some (name, " " ++ value)) as ->; [|by destruct value].
  induction name as [|c s IH]; [done|]. rewrite append_cons. cbn [Cut all_bytes] in *.
  apply andb_true_iff in Hn as [Hc%negb_true_iff Hs]. by rewrite Hc, IH.
Qed.

Definition joined_data (data : string) (datas : list string) : string :=
  match datas with [] => data | _ => joined data ++ Join datas (String lf "") end.

Lemma read_datas max datas rest e event data :
  Forall clean datas → (datas = [] ∨ data ≠ "" ∨ ∃ d ds, datas = d :: ds ∧ (d ≠ "" ∨ ds = [])) →
  (Z.of_nat (String.length (joined_data data datas)) ≤ max)%Z →
  let s := stream_of (mkBody rest e) in
  let s0 := stream_of (mkBody (event_lines datas rest) e) in
  read_event max (s_lines s0) (s_tail s0) e event data = (Ok (mkEvent event (joined_data data datas)), s).
Proof.
  intros Hd. revert data. induction Hd as [|d ds Hc Hds IH]; intros data Hne Hlen s.
  - cbn [event_lines]. change (String lf rest) with ("" ++ String lf rest). rewrite stream_cons by done. cbn [s_lines s_tail read_event].
    change (String.eqb (TrimRightCRLF "") "") with true. cbv iota. by rewrite <-stream_eta.
  - cbn [event_lines]. pose proof (field_line_clean "data" d) as [Hf1 Hf2]; [by split|done|].
    rewrite stream_cons by done. cbn [s_lines s_tail read_event]. rewrite Hf2.
    change (String.eqb (field_line "data" d) "") with false. cbv iota. unfold sse_line.
    change (HasPrefix (field_line "data" d) ":") with false. cbv iota. rewrite field_split by done.
    change (String.eqb "data" "event") with false. change (String.eqb "data" "data") with true. cbv iota.
    assert (joined_data data (d :: ds) = joined_data (joined data ++ d) ds) as Heq.
    { unfold joined_data. destruct ds as [|d' ds]; [done|].
      change (Join (d :: d' :: ds) (String lf "")) with (d ++ String lf (Join (d' :: ds) (String lf ""))).
      rewrite <-append_assoc. unfold joined at 2. destruct (String.eqb_spec (joined data ++ d) "") as [E|_].
      - exfalso. destruct Hne as [?|[?|(x & xs & [= <- <-] & [?|?])]]; [done| |by destruct (joined data)|done].
        unfold joined in E. destruct (String.eqb_spec data ""); [done|]. destruct data; done.
      - by rewrite (append_assoc _ (String lf "")). }
    assert (Z.of_nat (String.length (joined data ++ d)) ≤ max)%Z as Hmax.
    { rewrite Heq in Hlen. etrans; [|exact Hlen]. unfold joined_data. destruct ds; [done|].
      rewrite append_length. unfold joined at 2. destruct (String.eqb_spec (joined data ++ d) ""); rewrite ?append_length; lia. }
    unfold data_line. rewrite append_length in Hmax. rewrite (proj2 (Z.ltb_ge _ _)) by lia. rewrite Heq in Hlen |- *.
    cbn [fmap option_fmap option_map]. apply IH; [|done]. destruct ds as [|d' ds]; [by left|]. right; left.
    destruct Hne as [?|[Hne|(x & xs & [= <- <-] & [?|?])]]; [done| |by destruct (joined data)|done].
    unfold joined. destruct (String.eqb_spec data ""); [done|]. by destruct data.
Qed.

(** An event is read as it was written. Whatever name and data lines a
    server sends, free of line ends and within the limit, and whatever
    follows, the reader returns that name and the lines joined, and is left
    exactly before what follows; only a leading empty data line before others
    would be lost. *)
Theorem sse_roundtrip max name datas rest e :
  clean name → Forall clean datas → (∀ d ds, datas = d :: ds → d ≠ "" ∨ ds = []) →
  (Z.of_nat (String.length (Join datas (String lf ""))) ≤ max)%Z →
  readSSEEvent max (stream_of (mkBody (encode_event name datas rest) e))
  = (Ok (mkEvent name (Join datas (String lf ""))), stream_of (mkBody rest e)).
Proof.
  intros Hname Hd Hfirst Hlen. unfold readSSEEvent, encode_event.
  pose proof (field_line_clean "event" name) as [Hf1 Hf2]; [by split|done|].
  rewrite stream_cons by done. cbn [s_lines s_tail s_end read_event]. rewrite Hf2.
  change (String.eqb (field_line "event" name) "") with false. cbv iota. unfold sse_line.
  change (HasPrefix (field_line "event" name) ":") with false. cbv iota. rewrite field_split by done.
  change (String.eqb "event" "event") with true. cbv iota.
  assert (joined_data "" datas = Join datas (String lf "")) as Hj by (by destruct datas).
  rewrite <-Hj. apply read_datas; [done| |by rewrite Hj]. destruct datas as [|d ds]; [by left|].
  right; right. exists d, ds. split; [done|]. by apply Hfirst.
Qed.
