(* ===== verification/Probe.v ===== *)
(** * The MCP probe: service/probe.go, and the URL checks of service/mcp.go

    A probe makes outbound requests a caller chose, so what it may reach, and
    what it may carry there, is the subject: URL validation, the dialer, the
    redirect policy, the two transports, and the answer. [url.Parse] and its
    inverses, the Unicode folding of [strings.EqualFold], JSON and the network
    are parameters. *)

From S2P Require Import Prelude GoStrings Addresses Sse.
From Stdlib Require Import Ascii.
From stdpp Require Import pretty.
Import Go.
Local Open Scope string_scope.

(** ** URLs (net/url)

    What is not scheme, user information or host plays no role here. *)
Record URL := mkURL { Scheme : string; User : bool; UHost : string; u_rest : string }.

(** [dial_host]: the host the transport dials for a URL, after IDNA and the
    default port; [None] if [net.SplitHostPort] refuses the address.
    [fold_rune]: one representative of each orbit of [unicode.SimpleFold]. *)
Class Urls := {
  url_Parse : string → option URL;
  url_String : URL → string;
  ResolveReference : URL → URL → URL;
  dial_host : URL → option string;
  fold_rune : string → string
}.

Record RpcMsg := mkRpc { m_id : option string; m_result : string; m_error : option (Z * string) }.
Record InitResult := mkInit { ir_caps : string; ir_name : string; ir_version : string }.

(** [id_number]: a JSON number truncated to an int. *)
Class ProbeJson := {
  decode_rpc : Body → result Perr RpcMsg;
  unmarshal_rpc : string → option RpcMsg;
  unmarshal_init : string → result Perr InitResult;
  unmarshal_caps : string → option (list string);
  unmarshal_tools : string → result Perr (list (string * string));
  id_number : string → option Z;
  id_string : string → option string
}.

Section Probe.
Context `{Urls} `{ProbeJson}.

(** [strings.EqualFold] *)
Definition SameFold (a b : string) : bool := bool_decide (fold_rune <$> Runes a = fold_rune <$> Runes b).

(** The index of the last [c]: what precedes it and what follows it. *)
Fixpoint CutLast (s : string) (c : ascii) : option (string * string) :=
  match s with
  | "" => None
  | String a s' =>
      match CutLast s' c with
      | Some (h, t) => Some (String a h, t)
      | None => if Ascii.eqb a c then Some ("", s') else None
      end
  end.

(** [url.splitHostPort], behind [Hostname] and [Port]. *)
Definition splitHostPort (hostPort : string) : string * string :=
  let '(host, port) := match CutLast hostPort colon with
                       | Some (h, p) => if all_bytes is_digit p then (h, p) else (hostPort, "")
                       | None => (hostPort, "")
                       end in
  (if HasPrefix host "[" && HasSuffix host "]"
   then take (String.length host - 2) (drop 1 host) else host, port).
Definition Hostname (u : URL) : string := (splitHostPort (UHost u)).1.
Definition Port (u : URL) : string := (splitHostPort (UHost u)).2.

(** ** Validation *)

Inductive ApiErr :=
| InvalidTransport | ProbeUnsupported (msg : string) | InvalidRequest (msg field reason : string).

Definition validateProbeURL (raw : string) (allowPrivate : bool) : result ApiErr string :=
  let raw := TrimSpace raw in
  if String.eqb raw "" then Error (InvalidRequest "url is required for remote transports" "url" "required")
  else
    match url_Parse raw with
    | None => Error (InvalidRequest "url is not a valid absolute URL" "url" "malformed")
    | Some u =>
        if String.eqb (UHost u) "" then Error (InvalidRequest "url is not a valid absolute URL" "url" "malformed")
        else if negb (mem (ToLower (Scheme u)) ["http"; "https"])
        then Error (InvalidRequest "url must be http or https" "url" "scheme")
        else if User u then Error (InvalidRequest "url must not include credentials" "url" "credentials")
        else if negb allowPrivate
                && match parseHostIP (Hostname u) with Some ip => isUnsafeProbeIP ip | None => false end
        then Error (InvalidRequest "url targets a private or local network address" "url" "private_address")
        else Ok (url_String u)
    end.

(** validateConnectionURL (mcp.go); [lookup] is the resolver's answer. *)
Definition validateConnectionURL (allowPrivate remote : bool) (rawURL : string)
    (lookup : string → option (list IP)) : result ApiErr unit :=
  if negb remote then Ok tt
  else
    match validateProbeURL rawURL allowPrivate with
    | Error e => Error e
    | Ok normalized =>
        if allowPrivate then Ok tt
        else
          match url_Parse normalized with
          | None => Ok tt
          | Some u =>
              let host := Hostname u in
              match parseHostIP host with
              | Some _ => Ok tt
              | None =>
                  match lookup host with
                  | None | Some [] =>
                      if isValidDNSName host then Ok tt
                      else Error (InvalidRequest "url host is not a valid domain or address" "url" "private_address")
                  | Some ips =>
                      if existsb isUnsafeProbeIP ips
                      then Error (InvalidRequest "url resolves to a private or local network address" "url" "private_address")
                      else Ok tt
                  end
              end
          end
    end.

(** ** Origins *)

Definition sameProbeOrigin (a b : URL) : bool := SameFold (Scheme a) (Scheme b) && SameFold (UHost a) (UHost b).

Definition canonicalHostPort (u : URL) : string :=
  let port := if String.eqb (Port u) "" then
                if String.eqb (ToLower (Scheme u)) "http" then "80"
                else if String.eqb (ToLower (Scheme u)) "https" then "443" else ""
              else Port u in
  ToLower (Hostname u) ++ ":" ++ port.
Definition sameEndpointOrigin (base resolved : URL) : bool :=
  SameFold (Scheme base) (Scheme resolved) && SameFold (canonicalHostPort base) (canonicalHostPort resolved).

Definition resolveEndpoint (sseURL endpointData : string) : result Perr string :=
  let endpointData := TrimSpace endpointData in
  if String.eqb endpointData "" then Error (app_error "empty endpoint data")
  else match url_Parse sseURL with
       | None => Error (app_error "parse base url")
       | Some base =>
           match url_Parse endpointData with
           | None => Error (app_error "parse endpoint")
           | Some ref =>
               let resolved := ResolveReference base ref in
               if sameEndpointOrigin base resolved then Ok (url_String resolved)
               else Error (app_error "endpoint must remain on the original probe origin")
           end
       end.

(** ** The network

    The [i]-th round trip of a probe: the resolver's answer, which of the
    addresses accepts a connection, and the reply. *)
Record Reply := mkReply {
  rp_status : Z;
  rp_location : string;
  rp_session : string;
  rp_ctype : string;
  rp_body : Body
}.
Record World := mkWorld {
  lookup : nat → string → option (list IP);
  connect : nat → nat → option Perr;
  reply : nat → result Perr Reply
}.

(** A round trip: the URL and headers it carried and the addresses dialled;
    [h_sent] if one replied. A connection kept open was dialled before. *)
Record Hop := mkHop {
  h_method : string;
  h_url : URL;
  h_headers : list (string * string);
  h_dialed : list IP;
  h_sent : bool
}.

Record NetSt := mkNetSt { hops : list Hop; stream : Stream; session : string }.
Definition Net (A : Type) : Type := World → NetSt → result Perr A * NetSt.

#[export] Instance net_ret : MRet Net := λ A a _ s, (Ok a, s).
#[export] Instance net_bind : MBind Net := λ A B f m w s,
  match m w s with (Ok a, s') => f a w s' | (Error e, s') => (Error e, s') end.
Definition net_fail {A} (e : Perr) : Net A := λ _ s, (Error e, s).
Definition net_lift {A} (r : result Perr A) : Net A := λ _ s, (r, s).
Definition net_require (b : bool) (e : Perr) : Net unit := if b then mret tt else net_fail e.

Lemma net_bind_error {A B} (m : Net A) (f : A → Net B) w s e s' :
  m w s = (Error e, s') → (a ← m; f a) w s = (Error e, s').
Proof using . unfold mbind, net_bind. by intros ->. Qed.

(** ** The HTTP client (newProbeHTTPClient) *)

Definition errProbeTargetBlocked : Perr := mkPerr false true "probe target is not permitted".

(** The addresses are tried in turn; the last failure is reported. *)
Fixpoint dial_each (ips : list IP) (conn : nat → option Perr) (i : nat) (last_err : Perr)
    : option Perr * list IP :=
  match ips with
  | [] => (Some last_err, [])
  | ip :: rest =>
      match conn i with
      | None => (None, [ip])
      | Some e => let '(r, l) := dial_each rest conn (S i) e in (r, ip :: l)
      end
  end.

Definition DialContext (allowPrivate : bool) (answer : option (list IP)) (conn : nat → option Perr)
    : option Perr * list IP :=
  match answer with
  | None | Some [] => (Some errProbeTargetBlocked, [])
  | Some ips =>
      if negb allowPrivate && existsb isUnsafeProbeIP ips then (Some errProbeTargetBlocked, [])
      else dial_each ips conn 0 errProbeTargetBlocked
  end.

Definition CheckRedirect (allowPrivate : bool) (via : list URL) (u : URL) : option Perr :=
  if (10 <=? length via)%nat then Some (app_error "too many redirects")
  else match validateProbeURL (url_String u) allowPrivate with
       | Error _ => Some errProbeTargetBlocked
       | Ok _ =>
           match last via with
           | Some prev => if sameProbeOrigin prev u then None
                          else Some (app_error "cross-origin redirects are not allowed")
           | None => None
           end
       end.

Definition round_trip (allowPrivate : bool) (method : string) (u : URL) (headers : list (string * string))
    : Net Reply := λ w s,
  let i := length (hops s) in
  let '(err, dialed) := match dial_host u with
                        | None => (Some errProbeTargetBlocked, [])
                        | Some host => DialContext allowPrivate (lookup w i host) (connect w i)
                        end in
  let hop := mkHop method u headers dialed (bool_decide (err = None)) in
  (match err with Some e => Error e | None => reply w i end,
   mkNetSt (hops s ++ [hop]) (stream s) (session s)).

(** Where net/http follows a reply: the Location, against the request's URL,
    and the method of the next request. The headers are copied (those of
    credentials only to the same domain). *)
Definition redirects (status : Z) : bool := bool_decide (status ∈ [301; 302; 303; 307; 308]%Z).
Definition redirect_method (status : Z) (method : string) : string :=
  if bool_decide (status ∈ [301; 302; 303]%Z) then "GET" else method.

Fixpoint client_do (fuel : nat) (allowPrivate : bool) (via : list URL) (method : string) (u : URL)
    (headers : list (string * string)) : Net Reply :=
  r ← round_trip allowPrivate method u headers;
  if redirects (rp_status r) && negb (String.eqb (rp_location r) "") then
    match url_Parse (rp_location r) with
    | None => net_fail (app_error "failed to parse Location header")
    | Some ref =>
        let next := ResolveReference u ref in
        let via := (via ++ [u])%list in
        match CheckRedirect allowPrivate via next with
        | Some e => net_fail e
        | None =>
            match fuel with
            | 0 => net_fail (app_error "too many redirects")
            | S f => client_do f allowPrivate via (redirect_method (rp_status r) method) next headers
            end
        end
    end
  else mret r.

(** A failed exchange is opaque to the caller. *)
Definition probeTransportError {A} (m : Net A) : Net A := λ w s,
  let '(r, s') := m w s in
  (match r with Ok a => Ok a | Error e => Error (mkPerr (pe_timeout e) true (pe_text e)) end, s').

(** [http.NewRequest]: the URL with an empty port removed. *)
Definition hasPort (host : string) : bool :=
  match CutLast host colon with Some (_, port) => negb (ContainsByte port "]") | None => false end.
Definition removeEmptyPort (host : string) : string :=
  if hasPort host && HasSuffix host ":" then take (String.length host - 1) host else host.
Definition request_url (u : URL) : URL := mkURL (Scheme u) (User u) (removeEmptyPort (UHost u)) (u_rest u).

Definition send (allowPrivate : bool) (method target : string) (headers : list (string * string)) : Net Reply :=
  match url_Parse target with
  | None => net_fail (app_error "parse")
  | Some u => probeTransportError (client_do 10 allowPrivate [] method (request_url u) headers)
  end.

Definition success (status : Z) : bool := ((200 <=? status) && (status <? 300))%Z.
Definition bad_status (status : Z) : Perr := app_error ("probe target returned http " ++ pretty status).

(** ** Sessions *)

Definition SecretPlaceholderSentinel : string := "__OCTO_SECRET_PLACEHOLDER__".
Definition sanitizedHeaders (h : list (string * string)) : list (string * string) :=
  filter (λ kv, kv.2 ≠ SecretPlaceholderSentinel) h.

Inductive Transport := Stdio | StreamableHTTP | SSE.
#[export] Instance Transport_eq_dec : EqDecision Transport.
Proof. solve_decision. Defined.

Record ProbeSession := mkSession {
  ps_allowPrivate : bool;
  ps_url : string;
  ps_headers : list (string * string);
  ps_transport : Transport;
  ps_endpoint : string
}.

Definition probeMaxRespBytes : Z := 4194304.
Definition get_stream : Net Stream := λ _ s, (Ok (stream s), s).
Definition set_stream (st : Stream) : Net unit := λ _ s, (Ok tt, mkNetSt (hops s) st (session s)).
Definition get_session : Net string := λ _ s, (Ok (session s), s).
Definition set_session (id : string) : Net unit := λ _ s, (Ok tt, mkNetSt (hops s) (stream s) id).

(** The wait for the [endpoint] event. Every event moves the stream forward, so
    the lines still to come bound the iterations. *)
Fixpoint find_endpoint (fuel : nat) (url : string) (s : Stream) : result Perr string * Stream :=
  match readSSEEvent probeMaxRespBytes s with
  | (Ok ev, s') =>
      if String.eqb (ev_event ev) "endpoint" && negb (String.eqb (ev_data ev) "") then
        (match resolveEndpoint url (ev_data ev) with
         | Ok u => Ok u
         | Error e => Error (wrap "endpoint event" e)
         end, s')
      else match fuel with
           | 0 => (Error (app_error ""), s')
           | S f => find_endpoint f url s'
           end
  | (Error (SseRead EOF), s') => (Error (app_error "sse stream closed before endpoint event"), s')
  | (Error (SseRead (Broken e)), s') => (Error (wrap "sse endpoint discovery" e), s')
  | (Error SseTooLarge, s') => (Error (wrap "sse endpoint discovery" (app_error "sse event exceeded 4194304 bytes")), s')
  end.

Definition openSSE (allowPrivate : bool) (url : string) (headers : list (string * string)) : Net string :=
  r ← send allowPrivate "GET" url ([("Accept", "text/event-stream"); ("Cache-Control", "no-cache")] ++ headers)%list;
  net_require (success (rp_status r)) (bad_status (rp_status r));;
  let s := stream_of (LimitReader (rp_body r) (Z.to_N probeMaxRespBytes)) in
  let '(res, s') := find_endpoint (pending s) url s in
  set_stream s';; net_lift res.

(** idsEqual, for the integers the probe sends. *)
Definition idsEqual (raw : string) (want : Z) : bool :=
  match id_number raw with
  | Some n => (n =? want)%Z
  | None => match id_string raw with Some s => String.eqb (pretty want) s | None => false end
  end.

Definition accept (want : Z) (data : string) : option RpcMsg :=
  match unmarshal_rpc data with
  | Some msg => match m_id msg with
                | Some raw => if idsEqual raw want then Some msg else None
                | None => None
                end
  | None => None
  end.

(** The wait for the matching message on the persistent stream. *)
Fixpoint find_message (fuel : nat) (want : Z) (s : Stream) : result Perr RpcMsg * Stream :=
  match readSSEEvent probeMaxRespBytes s with
  | (Ok ev, s') =>
      let continue := match fuel with 0 => (Error (app_error ""), s') | S f => find_message f want s' end in
      if negb (String.eqb (ev_event ev) "message") && negb (String.eqb (ev_event ev) "") then continue
      else if String.eqb (ev_data ev) "" then continue
      else match accept want (ev_data ev) with Some msg => (Ok msg, s') | None => continue end
  | (Error (SseRead EOF), s') => (Error no_match, s')
  | (Error (SseRead (Broken e)), s') => (Error (wrap "read sse" e), s')
  | (Error SseTooLarge, s') => (Error (wrap "read sse" (app_error "sse event exceeded 4194304 bytes")), s')
  end.

Definition rpcSSE (p : ProbeSession) (id : option Z) (method : string) : Net (option RpcMsg) :=
  net_require (negb (String.eqb (ps_endpoint p) "")) (app_error "sse session not established");;
  r ← send (ps_allowPrivate p) "POST" (ps_endpoint p) (("Content-Type", "application/json") :: ps_headers p);
  net_require (success (rp_status r)) (bad_status (rp_status r));;
  match id with
  | None => mret None
  | Some want =>
      s ← get_stream;
      let '(res, s') := find_message (pending s) want s in
      set_stream s';; msg ← net_lift res; mret (Some msg)
  end.

Definition rpc (p : ProbeSession) (id : option Z) (method : string) : Net (option RpcMsg) :=
  if decide (ps_transport p = SSE) then rpcSSE p id method
  else
    sid ← get_session;
    r ← send (ps_allowPrivate p) "POST" (ps_url p)
          ([("Content-Type", "application/json"); ("Accept", "application/json, text/event-stream")]
           ++ ps_headers p ++ (if String.eqb sid "" then [] else [("Mcp-Session-Id", sid)]))%list;
    (if negb (String.eqb (rp_session r) "") && String.eqb sid "" then set_session (rp_session r) else mret tt);;
    match id with
    | None => mret None
    | Some want =>
        net_require (negb (bool_decide (rp_status r ∈ [202; 204]%Z)))
          (app_error ("server returned " ++ pretty (rp_status r) ++ " with no body for request " ++ method));;
        net_require (success (rp_status r)) (bad_status (rp_status r));;
        let limited := LimitReader (rp_body r) (Z.to_N probeMaxRespBytes) in
        msg ← net_lift
          (if Contains (ToLower (rp_ctype r)) "text/event-stream" then readSSEResponse (accept want) limited
           else match decode_rpc limited with Ok m => Ok m | Error e => Error (wrap "decode response" e) end);
        mret (Some msg)
    end.

Definition rpcErrorFrom (m : option RpcMsg) : Perr :=
  match m with
  | None => app_error "no response"
  | Some msg => match m_error msg with
                | None => app_error "empty response"
                | Some (code, text) => app_error ("rpc error " ++ pretty code ++ ": " ++ text)
                end
  end.
Definition replied (m : option RpcMsg) : Net RpcMsg :=
  match m with
  | Some msg => if bool_decide (m_error msg = None) then mret msg else net_fail (rpcErrorFrom m)
  | None => net_fail (rpcErrorFrom m)
  end.

Definition initialize (p : ProbeSession) : Net InitResult :=
  r ← rpc p (Some 1%Z) "initialize"; msg ← replied r;
  net_lift (match unmarshal_init (m_result msg) with Ok i => Ok i | Error e => Error (wrap "initialize response" e) end).
Definition notifyInitialized (p : ProbeSession) : Net unit := λ w s,
  let '(_, s') := rpc p None "notifications/initialized" w s in (Ok tt, s').
Definition listTools (p : ProbeSession) : Net (list (string * string)) :=
  r ← rpc p (Some 2%Z) "tools/list"; msg ← replied r;
  net_lift (match unmarshal_tools (m_result msg) with Ok l => Ok l | Error e => Error (wrap "tools/list response" e) end).

(** ** The answer *)

Definition hasToolsCapability (r : InitResult) : bool :=
  negb (String.eqb (ir_caps r) "")
  && match unmarshal_caps (ir_caps r) with Some keys => mem "tools" keys | None => false end.

Inductive ProbeErrorCode := ProbeErrTimeout | ProbeErrInitFailed | ProbeErrNoToolsCapability.
Record ProbeResponse := mkResponse {
  pr_ok : bool;
  pr_tools : list (string * string);
  pr_info : option (string * string);
  pr_error : option (ProbeErrorCode * string)
}.
Definition serverInfo (r : InitResult) : option (string * string) :=
  if String.eqb (ir_name r) "" && String.eqb (ir_version r) "" then None else Some (ir_name r, ir_version r).

Definition truncateErr (s : string) : string :=
  if (String.length s <=? 200)%nat then s else take 200 s ++ of_bytes [226; 128; 166].

Definition probeFail (e : Perr) : ProbeResponse :=
  mkResponse false [] None (Some
    (if pe_timeout e then (ProbeErrTimeout, "probe timed out")
     else if pe_opaque e then (ProbeErrInitFailed, "probe target is not reachable")
     else (ProbeErrInitFailed, truncateErr (pe_text e)))).

Record ProbeRequest := mkProbeRequest {
  rq_transport : option Transport;
  rq_url : string;
  rq_headers : list (string * string)
}.

Definition handshake (p : ProbeSession) : Net ProbeResponse :=
  init ← initialize p;
  if negb (hasToolsCapability init) then
    mret (mkResponse false [] (serverInfo init)
            (Some (ProbeErrNoToolsCapability, "server does not advertise a tools capability")))
  else notifyInitialized p;; tools ← listTools p; mret (mkResponse true tools (serverInfo init) None).

Definition start : NetSt := mkNetSt [] (ended EOF) "".

(** The session of a remote transport. *)
Definition run_session (allowPrivate : bool) (endpoint : string) (headers : list (string * string))
    (t : Transport) : Net ProbeResponse :=
  if decide (t = SSE) then
    post ← openSSE allowPrivate endpoint headers;
    handshake (mkSession allowPrivate endpoint headers t post)
  else handshake (mkSession allowPrivate endpoint headers t "").

Definition Probe (allowPrivate : bool) (req : ProbeRequest) (w : World)
    : result ApiErr ProbeResponse * list Hop :=
  match rq_transport req with
  | None => (Error InvalidTransport, [])
  | Some Stdio => (Error (ProbeUnsupported "stdio probing must run in the local runtime; the marketplace server does not spawn user commands"), [])
  | Some t =>
      match validateProbeURL (rq_url req) allowPrivate with
      | Error e => (Error e, [])
      | Ok endpoint =>
          let '(r, s) := run_session allowPrivate endpoint (sanitizedHeaders (rq_headers req)) t w start in
          (Ok match r with Ok resp => resp | Error e => probeFail e end, hops s)
      end
  end.

(** ** The loops end

    More fuel than the events still to come changes nothing. *)
Lemma read_idle max s ev s' : readSSEEvent max s = (Ok ev, s') → (pending s' < pending s)%nat.
Proof. intros Hr. apply read_event_progress in Hr as [Hr _]. by destruct s. Qed.

Lemma find_endpoint_enough f url s :
  (pending s ≤ f)%nat → find_endpoint f url s = find_endpoint (pending s) url s.
Proof.
  remember (pending s) as n eqn:Hn. revert s f Hn. induction n as [n IH] using lt_wf_ind. intros s f -> Hf.
  assert (∀ k, (pending s ≤ k)%nat → find_endpoint k url s =
    match readSSEEvent probeMaxRespBytes s with
    | (Ok ev, s') =>
        if String.eqb (ev_event ev) "endpoint" && negb (String.eqb (ev_data ev) "") then
          (match resolveEndpoint url (ev_data ev) with Ok u => Ok u | Error e => Error (wrap "endpoint event" e) end, s')
        else find_endpoint (pending s') url s'
    | (Error _, _) => find_endpoint 0 url s
    end) as Hstep; [|by rewrite (Hstep f), (Hstep (pending s))].
  intros k Hk. destruct (readSSEEvent probeMaxRespBytes s) as [[ev|err] s'] eqn:E.
  - pose proof (read_idle _ _ _ _ E). destruct k as [|k]; [lia|]. cbn [find_endpoint]. rewrite E.
    destruct (_ && _); [done|]. apply (IH (pending s')); lia.
  - destruct k; cbn [find_endpoint]; rewrite E; done.
Qed.

Lemma find_message_enough f want s :
  (pending s ≤ f)%nat → find_message f want s = find_message (pending s) want s.
Proof.
  remember (pending s) as n eqn:Hn. revert s f Hn. induction n as [n IH] using lt_wf_ind. intros s f -> Hf.
  assert (∀ k, (pending s ≤ k)%nat → find_message k want s =
    match readSSEEvent probeMaxRespBytes s with
    | (Ok ev, s') =>
        if (negb (String.eqb (ev_event ev) "message") && negb (String.eqb (ev_event ev) ""))
           || String.eqb (ev_data ev) "" then find_message (pending s') want s'
        else match accept want (ev_data ev) with Some msg => (Ok msg, s') | None => find_message (pending s') want s' end
    | (Error _, _) => find_message 0 want s
    end) as Hstep; [|by rewrite (Hstep f), (Hstep (pending s))].
  intros k Hk. destruct (readSSEEvent probeMaxRespBytes s) as [[ev|err] s'] eqn:E.
  - pose proof (read_idle _ _ _ _ E). destruct k as [|k]; [lia|]. cbn [find_message]. rewrite E.
    rewrite (IH (pending s')) by lia. destruct (negb _ && negb _); [done|]. cbn [orb].
    by destruct (String.eqb (ev_data ev) "").
  - destruct k; cbn [find_message]; rewrite E; done.
Qed.

(** One iteration of each loop: its answer, or [None] to go on. *)
Definition endpoint_body (url : string) (r : result SseErr sseEvent * Stream)
    : option (result Perr string * Stream) :=
  match r with
  | (Ok ev, s') =>
      if String.eqb (ev_event ev) "endpoint" && negb (String.eqb (ev_data ev) "") then
        Some (match resolveEndpoint url (ev_data ev) with
              | Ok u => Ok u
              | Error e => Error (wrap "endpoint event" e)
              end, s')
      else None
  | (Error (SseRead EOF), s') => Some (Error (app_error "sse stream closed before endpoint event"), s')
  | (Error (SseRead (Broken e)), s') => Some (Error (wrap "sse endpoint discovery" e), s')
  | (Error SseTooLarge, s') => Some (Error (wrap "sse endpoint discovery" (app_error "sse event exceeded 4194304 bytes")), s')
  end.

Definition message_body (want : Z) (r : result SseErr sseEvent * Stream)
    : option (result Perr RpcMsg * Stream) :=
  match r with
  | (Ok ev, s') =>
      if (negb (String.eqb (ev_event ev) "message") && negb (String.eqb (ev_event ev) ""))
         || String.eqb (ev_data ev) "" then None
      else (λ msg, (Ok msg, s')) <$> accept want (ev_data ev)
  | (Error (SseRead EOF), s') => Some (Error no_match, s')
  | (Error (SseRead (Broken e)), s') => Some (Error (wrap "read sse" e), s')
  | (Error SseTooLarge, s') => Some (Error (wrap "read sse" (app_error "sse event exceeded 4194304 bytes")), s')
  end.

(** [for { ev, err := readSSEEvent(r); body }], without fuel. *)
Inductive event_loop {A} (body : result SseErr sseEvent * Stream → option A) : Stream → A → Prop :=
| loop_answer s a : body (readSSEEvent probeMaxRespBytes s) = Some a → event_loop body s a
| loop_again s ev s' a :
    readSSEEvent probeMaxRespBytes s = (Ok ev, s') → body (Ok ev, s') = None →
    event_loop body s' a → event_loop body s a.

(** A loop that cannot go on after an error answers, and once. *)
Lemma event_loop_total {A} (body : result SseErr sseEvent * Stream → option A) (f : Stream → A) :
  (∀ e s', body (Error e, s') ≠ None) →
  (∀ s a, body (readSSEEvent probeMaxRespBytes s) = Some a → f s = a) →
  (∀ s ev s', readSSEEvent probeMaxRespBytes s = (Ok ev, s') → body (Ok ev, s') = None → f s = f s') →
  ∀ s, event_loop body s (f s) ∧ ∀ a, event_loop body s a → a = f s.
Proof.
  intros Herr Hstop Hnext s. remember (pending s) as n eqn:Hn. revert s Hn.
  induction n as [n IH] using lt_wf_ind. intros s ->.
  destruct (body (readSSEEvent probeMaxRespBytes s)) as [a|] eqn:Hb.
  - rewrite (Hstop s a Hb). split; [by apply loop_answer|].
    intros a' Hl. inversion Hl; subst; congruence.
  - destruct (readSSEEvent probeMaxRespBytes s) as [[ev|e] s'] eqn:E; [|by apply Herr in Hb].
    destruct (IH (pending s') (read_idle _ _ _ _ E) s' eq_refl) as [H1 H2].
    rewrite (Hnext s ev s' E Hb). split; [by eapply loop_again|].
    intros a Hl. inversion Hl; subst; [congruence|]. rewrite E in *. simplify_eq. by apply H2.
Qed.

(** C27: the probe's loops over an event stream end. Whatever a server sends, of
    any length and broken anywhere, the wait for the endpoint event and the wait for the
    matching message both come to exactly one answer, the one computed by the
    definitions with the number of lines still to come as fuel; the loops are those of the
    code, without a bound of their own. *)
Theorem event_loops_end url want s :
  (event_loop (endpoint_body url) s (find_endpoint (pending s) url s)
   ∧ ∀ a, event_loop (endpoint_body url) s a → a = find_endpoint (pending s) url s)
  ∧ (event_loop (message_body want) s (find_message (pending s) want s)
     ∧ ∀ a, event_loop (message_body want) s a → a = find_message (pending s) want s).
Proof.
  split.
  - apply (event_loop_total _ (λ s, find_endpoint (pending s) url s)).
    + by intros [[]|] s'.
    + intros s0 a. unfold endpoint_body. destruct (pending s0); cbn [find_endpoint];
        destruct (readSSEEvent _ s0) as [[ev|[[]|]] s']; repeat case_match; by intros [= <-].
    + intros s0 ev s' E Hb. pose proof (read_idle _ _ _ _ E).
      destruct (pending s0) as [|k] eqn:Hk; [lia|]. cbn [find_endpoint]. rewrite E.
      unfold endpoint_body in Hb. destruct (_ && _); [done|]. apply find_endpoint_enough. lia.
  - apply (event_loop_total _ (λ s, find_message (pending s) want s)).
    + by intros [[]|] s'.
    + intros s0 a. unfold message_body. destruct (pending s0); cbn [find_message];
        destruct (readSSEEvent _ s0) as [[ev|[[]|]] s']; try (by intros [= <-]);
        destruct (negb _ && negb _), (String.eqb (ev_data ev) ""); try done; cbn [orb];
        destruct (accept want _); try done; by intros [= <-].
    + intros s0 ev s' E Hb. pose proof (read_idle _ _ _ _ E).
      destruct (pending s0) as [|k] eqn:Hk; [lia|]. cbn [find_message]. rewrite E.
      assert (find_message k want s' = find_message (pending s') want s') as -> by (apply find_message_enough; lia).
      unfold message_body in Hb. destruct (negb _ && negb _); [done|]. cbn [orb] in Hb.
      destruct (String.eqb (ev_data ev) ""); [done|]. by destruct (accept want _).
Qed.

(** ** What a probe sends, and where *)

(** [m] makes at most [k] round trips, all with [P], and answers with [Q]. *)
Definition emits (k : nat) (P : Hop → Prop) {A} (Q : A → Prop) (m : Net A) : Prop := ∀ w s, ∃ new,
  hops (m w s).2 = (hops s ++ new)%list ∧ (length new ≤ k)%nat ∧ Forall P new
  ∧ ∀ a, (m w s).1 = Ok a → Q a.

Section Emits.
Context (P : Hop → Prop).

Lemma emits_quiet {A} k (Q : A → Prop) (m : Net A) :
  (∀ w s, hops (m w s).2 = hops s ∧ ∀ a, (m w s).1 = Ok a → Q a) → emits k P Q m.
Proof. intros Hm w s. exists []. destruct (Hm w s) as [Hh HQ]. rewrite app_nil_r. split_and!; [done|simpl; lia|constructor|done]. Qed.
Lemma emits_ret {A} k (Q : A → Prop) a : Q a → emits k P Q (mret a).
Proof. intros HQ. apply emits_quiet. intros w s. by split; [|intros ? [= <-]]. Qed.
Lemma emits_fail {A} k (Q : A → Prop) e : emits k P Q (net_fail e).
Proof. apply emits_quiet. by intros w s. Qed.
Lemma emits_lift {A} k (Q : A → Prop) r : (∀ a, r = Ok a → Q a) → emits k P Q (net_lift r).
Proof. intros HQ. by apply emits_quiet. Qed.
Lemma emits_require k b e : emits k P (λ _, True) (net_require b e).
Proof. apply emits_quiet. by destruct b. Qed.

Lemma emits_mono {A} k k' (Q Q' : A → Prop) m :
  (k ≤ k')%nat → (∀ a, Q a → Q' a) → emits k P Q m → emits k' P Q' m.
Proof. intros Hk HQ Hm w s. destruct (Hm w s) as (new & H1 & H2 & H3 & H4). exists new. split_and!; [done|lia|done|eauto]. Qed.

Lemma emits_bind {A B} k1 k2 (Q : A → Prop) (R : B → Prop) (m : Net A) (f : A → Net B) :
  emits k1 P Q m → (∀ a, Q a → emits k2 P R (f a)) → emits (k1 + k2) P R (a ← m; f a).
Proof.
  intros Hm Hf w s. destruct (Hm w s) as (new & H1 & H2 & H3 & H4). unfold mbind, net_bind.
  destruct (m w s) as [[a|e] s']; cbn [fst snd] in *.
  - destruct (Hf a (H4 a eq_refl) w s') as (new' & G1 & G2 & G3 & G4). exists (new ++ new')%list.
    rewrite G1, H1, app_assoc. split_and!; [done|rewrite length_app; lia|by apply Forall_app|done].
  - exists new. split_and!; [done|lia|done|done].
Qed.

Lemma emits_opaque {A} k (Q : A → Prop) m : emits k P Q m → emits k P Q (probeTransportError m).
Proof.
  intros Hm w s. destruct (Hm w s) as (new & H1 & H2 & H3 & H4). exists new. unfold probeTransportError.
  destruct (m w s) as [[a|e] s']; cbn [fst snd] in *; split_and!; naive_solver.
Qed.
End Emits.

Lemma dial_each_incl ips conn i e : ∀ ip, ip ∈ (dial_each ips conn i e).2 → ip ∈ ips.
Proof.
  revert i e. induction ips as [|x ips IH]; intros i e ip; cbn [dial_each]; [done|].
  destruct (conn i) as [e'|]; [|set_solver]. pose proof (IH (S i) e' ip) as IH'.
  destruct (dial_each ips conn (S i) e'). set_solver.
Qed.

(** Only allowed addresses are dialled: one refused address among the answers
    refuses them all. *)
Lemma DialContext_safe answer conn :
  Forall (λ ip, isUnsafeProbeIP ip = false) (DialContext false answer conn).2.
Proof.
  unfold DialContext. destruct answer as [[|x ips]|]; [constructor| |constructor].
  destruct (existsb isUnsafeProbeIP (x :: ips)) eqn:E; cbn [negb andb]; [constructor|].
  apply Forall_forall. intros ip Hip. apply dial_each_incl in Hip. apply not_true_iff_false. intros Hu.
  apply not_true_iff_false in E. apply E, existsb_exists. exists ip. split; [by apply list_elem_of_In|done].
Qed.

Lemma SameFold_spec a b : SameFold a b = true ↔ fold_rune <$> Runes a = fold_rune <$> Runes b.
Proof. apply bool_decide_eq_true. Qed.

Section Confined.
Context (allowPrivate : bool).

(** A URL of the origin of [origin]. *)
Definition on_origin (origin u : URL) : Prop :=
  SameFold (Scheme u) (Scheme origin) = true ∧ SameFold (UHost u) (removeEmptyPort (UHost origin)) = true.

Lemma request_on_origin u : on_origin u (request_url u).
Proof. split; by apply SameFold_spec. Qed.
Lemma redirect_on_origin origin u v : on_origin origin u → sameProbeOrigin u v = true → on_origin origin v.
Proof.
  unfold on_origin, sameProbeOrigin. rewrite andb_true_iff, !SameFold_spec. intros [H1 H2] [H3 H4]. split; congruence.
Qed.

(** What a hop to [origin] with [headers] may be. *)
Definition hop_to (origin : URL) (headers : list (string * string)) (h : Hop) : Prop :=
  on_origin origin (h_url h) ∧ h_headers h = headers
  ∧ (allowPrivate = false → Forall (λ ip, isUnsafeProbeIP ip = false) (h_dialed h)).

Lemma round_trip_emits origin method u headers :
  on_origin origin u → emits 1 (hop_to origin headers) (λ _, True) (round_trip allowPrivate method u headers).
Proof using .
  intros Hu w s. unfold round_trip.
  set (d := match dial_host u with None => _ | Some host => _ end).
  assert (allowPrivate = false → Forall (λ ip, isUnsafeProbeIP ip = false) d.2) as Hsafe.
  { intros ->. unfold d. destruct (dial_host u); [apply DialContext_safe|constructor]. }
  destruct d as [err dialed]. cbn [fst snd hops]. eexists. split; [done|]. split_and!; [simpl; lia| |done].
  constructor; [|constructor]. by split_and!.
Qed.

Lemma client_do_emits origin headers fuel via method u :
  on_origin origin u → (length via ≤ 9)%nat →
  emits (10 - length via) (hop_to origin headers) (λ _, True) (client_do fuel allowPrivate via method u headers).
Proof using .
  revert via method u. induction fuel as [|f IH]; intros via method u Hu Hlen; cbn [client_do];
    (eapply (emits_mono _ (1 + (9 - length via)) _ (λ _, True)); [lia|done|]); (eapply emits_bind; [by apply round_trip_emits|]);
    intros r _; (destruct (_ && _); [|by apply emits_ret]);
    (destruct (url_Parse (rp_location r)) as [ref|]; [|apply emits_fail]);
    (destruct (CheckRedirect allowPrivate (via ++ [u]) (ResolveReference u ref)) as [e|] eqn:Hc;
       [apply emits_fail|]).
  - apply emits_fail.
  - unfold CheckRedirect in Hc. destruct (Nat.leb_spec 10 (length (via ++ [u])%list)) as [|Hvia]; [done|].
    destruct (validateProbeURL _ _); [|done]. rewrite last_snoc in Hc.
    destruct (sameProbeOrigin u (ResolveReference u ref)) eqn:Hs; [|done].
    rewrite length_app in Hvia. simpl in Hvia.
    eapply (emits_mono _ (10 - length (via ++ [u])%list)); [rewrite length_app; simpl; lia|done|].
    apply IH; [by eapply redirect_on_origin|rewrite length_app; simpl; lia].
Qed.

(** The origins of a probe's requests. *)
Definition confined (endpoint : string) (headers : list (string * string)) (h : Hop) : Prop :=
  ∃ base origin, url_Parse endpoint = Some base
  ∧ SameFold (Scheme base) (Scheme origin) = true
  ∧ SameFold (canonicalHostPort base) (canonicalHostPort origin) = true
  ∧ on_origin origin (h_url h)
  ∧ (allowPrivate = false → Forall (λ ip, isUnsafeProbeIP ip = false) (h_dialed h))
  ∧ Forall (λ kv, kv ∈ headers ∨ kv.1 ∈ ["Accept"; "Cache-Control"; "Content-Type"; "Mcp-Session-Id"]) (h_headers h).

Definition own_headers (headers extra : list (string * string)) : Prop :=
  Forall (λ kv, kv ∈ headers ∨ kv.1 ∈ ["Accept"; "Cache-Control"; "Content-Type"; "Mcp-Session-Id"]) extra.

(** A target of the probe's origin. *)
Definition same_site (endpoint target : string) : Prop := ∀ base u,
  url_Parse endpoint = Some base → url_Parse target = Some u →
  SameFold (Scheme base) (Scheme u) = true ∧ SameFold (canonicalHostPort base) (canonicalHostPort u) = true.

Lemma same_site_refl endpoint : same_site endpoint endpoint.
Proof. intros base u -> [= ->]. split; by apply SameFold_spec. Qed.

Lemma send_emits endpoint headers method target hdrs :
  is_Some (url_Parse endpoint) → same_site endpoint target → own_headers headers hdrs →
  emits 10 (confined endpoint headers) (λ _, True) (send allowPrivate method target hdrs).
Proof using .
  intros [base Hb] Hsite Hh. unfold send. destruct (url_Parse target) as [u|] eqn:Hu.
  2:{ apply emits_fail. }
  apply emits_opaque. destruct (Hsite _ _ Hb Hu) as [H1 H2].
  intros w s. destruct (client_do_emits u hdrs 10 [] method (request_url u) (request_on_origin u) ltac:(simpl; lia) w s)
    as (new & G1 & G2 & G3 & G4).
  exists new. split_and!; [done|simpl in G2; lia| |done]. eapply Forall_impl; [exact G3|].
  intros h (Ho & Hhd & Hd). exists base, u. rewrite Hhd. by split_and!.
Qed.
End Confined.

(** A URL printed and parsed again has the same scheme and host. *)
Definition url_roundtrip : Prop := ∀ u v,
  url_Parse (url_String u) = Some v → Scheme v = Scheme u ∧ UHost v = UHost u.

Lemma resolveEndpoint_site endpoint data target :
  url_roundtrip → resolveEndpoint endpoint data = Ok target → same_site endpoint target.
Proof.
  unfold resolveEndpoint. intros Hlaw Hr base u Hb Hu. destruct (String.eqb _ ""); [done|]. rewrite Hb in Hr.
  destruct (url_Parse (TrimSpace data)) as [ref|]; [|done].
  destruct (sameEndpointOrigin base (ResolveReference base ref)) eqn:Hs; [|done]. injection Hr as <-.
  destruct (Hlaw _ _ Hu) as [H1 H2]. unfold sameEndpointOrigin in Hs. apply andb_true_iff in Hs as [Hs1 Hs2].
  unfold canonicalHostPort, Port, Hostname in *. by rewrite H1, H2.
Qed.

Lemma find_endpoint_site f endpoint s target s' :
  url_roundtrip → find_endpoint f endpoint s = (Ok target, s') → same_site endpoint target.
Proof.
  intros Hlaw. revert s. induction f as [|f IH]; intros s; cbn [find_endpoint];
    (destruct (readSSEEvent probeMaxRespBytes s) as [[ev|[[|e]|]] s1]; try done);
    (destruct (_ && _); [destruct (resolveEndpoint endpoint (ev_data ev)) eqn:E; [|done]; intros [= <- <-];
       by eapply resolveEndpoint_site|]); [done|apply IH].
Qed.

Section Session.
Context (allowPrivate : bool) (endpoint : string) (headers : list (string * string)).
Context (Hlaw : url_roundtrip) (Hbase : is_Some (url_Parse endpoint)).
Local Abbreviation safe := (confined allowPrivate endpoint headers).

Lemma own_headers_app l l' : own_headers headers l → own_headers headers l' → own_headers headers (l ++ l').
Proof. intros. by apply Forall_app. Qed.
Lemma own_headers_self : own_headers headers headers.
Proof. apply Forall_forall. intros kv Hkv. by left. Qed.
Lemma own_headers_protocol l :
  Forall (λ kv : string * string, kv.1 ∈ ["Accept"; "Cache-Control"; "Content-Type"; "Mcp-Session-Id"]) l →
  own_headers headers l.
Proof. intros Hl. eapply Forall_impl; [exact Hl|]. intros kv Hkv. by right. Qed.

Ltac protocol := apply own_headers_protocol; repeat constructor; set_solver.

Lemma openSSE_emits : emits 10 safe (same_site endpoint) (openSSE allowPrivate endpoint headers).
Proof using Hlaw Hbase.
  unfold openSSE. change 10%nat with (10 + (0 + (0 + 0)))%nat. eapply emits_bind.
  { apply send_emits; [done|apply same_site_refl|]. apply own_headers_app; [protocol|apply own_headers_self]. }
  intros r _. eapply emits_bind; [apply emits_require|]. intros _ _.
  destruct (find_endpoint _ endpoint _) as [res s'] eqn:E. eapply emits_bind with (Q := λ _, True).
  { by apply emits_quiet. }
  intros _ _. apply emits_lift. intros target ->. by eapply find_endpoint_site.
Qed.

Definition session_ok (p : ProbeSession) : Prop :=
  ps_allowPrivate p = allowPrivate ∧ ps_url p = endpoint ∧ ps_headers p = headers
  ∧ (ps_transport p = SSE → same_site endpoint (ps_endpoint p)).

Lemma rpc_emits p id method : session_ok p → emits 10 safe (λ _, True) (rpc p id method).
Proof using Hbase.
  intros (Ha & Hu & Hh & Hs). unfold rpc. rewrite Ha, Hu, Hh. destruct (decide (ps_transport p = SSE)) as [Ht|_].
  - unfold rpcSSE. rewrite Ha, Hh. change 10%nat with (0 + (10 + (0 + 0)))%nat.
    eapply emits_bind; [apply emits_require|]. intros _ _. eapply emits_bind.
    { apply send_emits; [done|by apply Hs|]. apply (own_headers_app [_]); [protocol|apply own_headers_self]. }
    intros r _. eapply emits_bind; [apply emits_require|]. intros _ _. destruct id as [want|]; [|by apply emits_ret].
    change 0%nat with (0 + (0 + (0 + 0)))%nat. eapply emits_bind with (Q := λ _, True); [by apply emits_quiet|]. intros s _.
    destruct (find_message _ want s) as [res s']. eapply emits_bind with (Q := λ _, True); [by apply emits_quiet|].
    intros _ _. eapply emits_bind with (Q := λ _, True); [by apply emits_lift|]. intros m _. by apply emits_ret.
  - change 10%nat with (0 + (10 + (0 + 0)))%nat. eapply emits_bind with (Q := λ _, True); [by apply emits_quiet|].
    intros sid _. eapply emits_bind.
    { apply send_emits; [done|apply same_site_refl|]. apply own_headers_app; [protocol|].
      apply own_headers_app; [apply own_headers_self|]. destruct (String.eqb sid ""); protocol. }
    intros r _. eapply emits_bind with (Q := λ _, True).
    { destruct (_ && _); [by apply emits_quiet|by apply emits_ret]. }
    intros _ _. destruct id as [want|]; [|by apply emits_ret]. change 0%nat with (0 + (0 + (0 + 0)))%nat.
    eapply emits_bind; [apply emits_require|]. intros _ _. eapply emits_bind; [apply emits_require|]. intros _ _.
    eapply emits_bind with (Q := λ _, True); [by apply emits_lift|]. intros m _. by apply emits_ret.
Qed.

Lemma answered_emits m : emits 0 safe (λ _, True) (replied m).
Proof using . unfold replied. destruct m as [msg|]; [case_bool_decide|]; by apply emits_quiet. Qed.

Lemma handshake_emits p : session_ok p → emits 30 safe (λ _, True) (handshake p).
Proof using Hbase.
  intros Hp. unfold handshake. change 30%nat with (10 + (10 + (10 + 0)))%nat. eapply emits_bind with (Q := λ _, True).
  { unfold initialize. change 10%nat with (10 + (0 + 0))%nat. eapply emits_bind; [by apply rpc_emits|]. intros m _.
    eapply emits_bind; [apply answered_emits|]. intros msg _. by apply emits_lift. }
  intros init _. destruct (negb _); [by apply emits_ret|]. eapply emits_bind with (Q := λ _, True).
  { intros w s. destruct (rpc_emits p None "notifications/initialized" Hp w s) as (new & G1 & G2 & G3 & _).
    exists new. unfold notifyInitialized. by destruct (rpc p None _ w s). }
  intros _ _. eapply emits_bind with (Q := λ _, True).
  { unfold listTools. change 10%nat with (10 + (0 + 0))%nat. eapply emits_bind; [by apply rpc_emits|]. intros m _.
    eapply emits_bind; [apply answered_emits|]. intros msg _. by apply emits_lift. }
  intros tools _. by apply emits_ret.
Qed.
End Session.

Lemma validateProbeURL_ok raw allowPrivate endpoint :
  validateProbeURL raw allowPrivate = Ok endpoint →
  ∃ u, url_Parse (TrimSpace raw) = Some u ∧ endpoint = url_String u ∧ User u = false
       ∧ UHost u ≠ "" ∧ ToLower (Scheme u) ∈ ["http"; "https"]
       ∧ (allowPrivate = false → ∀ ip, parseHostIP (Hostname u) = Some ip → isUnsafeProbeIP ip = false).
Proof.
  unfold validateProbeURL. destruct (String.eqb _ ""); [done|]. destruct (url_Parse _) as [u|]; [|done].
  destruct (String.eqb_spec (UHost u) ""); [done|]. destruct (negb (mem _ _)) eqn:Hm; [done|].
  destruct (User u) eqn:Hu; [done|]. destruct (negb allowPrivate && _) eqn:Hp; [done|]. intros [= <-].
  exists u. apply negb_false_iff, mem_true in Hm. split_and!; try done.
  intros -> ip Hip. rewrite Hip in Hp. done.
Qed.

Lemma handshake_unparsed P p :
  ps_transport p ≠ SSE → url_Parse (ps_url p) = None → emits 40 P (λ _, True) (handshake p).
Proof.
  intros Ht Hu w s. exists []. rewrite app_nil_r. unfold handshake, initialize, rpc.
  rewrite decide_False by done. unfold send. rewrite Hu. split_and!; [done|simpl; lia|constructor|done].
Qed.

Lemma run_session_emits allowPrivate endpoint headers t :
  url_roundtrip →
  emits 40 (confined allowPrivate endpoint headers) (λ _, True) (run_session allowPrivate endpoint headers t).
Proof.
  intros Hlaw. unfold run_session. destruct (url_Parse endpoint) as [base|] eqn:Hb.
  - destruct (decide (t = SSE)).
    + change 40%nat with (10 + 30)%nat. eapply emits_bind; [by apply openSSE_emits|].
      intros post Hpost. apply handshake_emits; [by eexists|by split_and!].
    + eapply emits_mono; [|done|apply handshake_emits; [by eexists|by split_and!]]. lia.
  - destruct (decide (t = SSE)); [|by apply handshake_unparsed].
    intros w s. exists []. rewrite app_nil_r. unfold openSSE, send. rewrite Hb.
    split_and!; [done|simpl; lia|constructor|done].
Qed.

(** C14: a probe is confined. Whatever the resolver, the servers and the
    redirects answer, a probe of a deployment that does not allow private
    targets dials no address outside the policy; every request it makes goes
    to the origin of the URL it was given (after the endpoint a server names
    and the redirects it orders); it carries the caller's headers, less the
    secret placeholders, and the protocol's, and nothing else; and there are
    at most forty of them. *)
Theorem probe_confined allowPrivate req w resp trace :
  url_roundtrip → Probe allowPrivate req w = (Ok resp, trace) →
  (length trace ≤ 40)%nat
  ∧ ∃ u, url_Parse (TrimSpace (rq_url req)) = Some u ∧ User u = false ∧ ToLower (Scheme u) ∈ ["http"; "https"]
         ∧ Forall (confined allowPrivate (url_String u)
                     (filter (λ kv, kv.2 ≠ SecretPlaceholderSentinel) (rq_headers req))) trace.
Proof.
  intros Hlaw. unfold Probe. destruct (rq_transport req) as [t|]; [|done].
  destruct (validateProbeURL (rq_url req) allowPrivate) as [endpoint|] eqn:Hv; [|by destruct t].
  pose proof (validateProbeURL_ok _ _ _ Hv) as (u & Hu & -> & Huser & _ & Hscheme & _).
  destruct (run_session_emits allowPrivate (url_String u) (sanitizedHeaders (rq_headers req)) t Hlaw w start)
    as (new & G1 & G2 & G3 & _).
  destruct t; [done|..]; destruct (run_session _ _ _ _ w start) as [r s]; intros [= _ <-]; simpl in G1; rewrite G1;
    (split; [done|]); exists u; by split_and!.
Qed.

(** The first dial of a probe is refused: the resolver failed, knew no address,
    or named one outside the policy. *)
Definition first_refused (w : World) (endpoint : string) : Prop := ∃ u host,
  url_Parse endpoint = Some u ∧ dial_host (request_url u) = Some host
  ∧ match lookup w 0 host with None => True | Some ips => ips = [] ∨ existsb isUnsafeProbeIP ips = true end.

(** A refused target reveals nothing. When the target of a probe does not
    resolve, or resolves to any address outside the policy, nothing is
    dialled and the answer is one and the same, whatever the resolver knew. *)
Theorem refused_probe_opaque req w endpoint t :
  rq_transport req = Some t → t ≠ Stdio → validateProbeURL (rq_url req) false = Ok endpoint →
  first_refused w endpoint →
  ∃ hop, Probe false req w
    = (Ok (mkResponse false [] None (Some (ProbeErrInitFailed, "probe target is not reachable"))), [hop])
  ∧ h_dialed hop = [] ∧ h_sent hop = false.
Proof.
  intros Ht Hne Hv (u & host & Hu & Hhost & Hl). unfold Probe. rewrite Ht, Hv.
  assert (∀ method headers s, hops s = [] → ∃ hop,
    send false method endpoint headers w s
    = (Error (mkPerr false true "probe target is not permitted"), mkNetSt [hop] (stream s) (session s))
    ∧ h_dialed hop = [] ∧ h_sent hop = false) as Hsend.
  { intros method headers s Hs. unfold send. rewrite Hu. unfold probeTransportError, client_do, mbind, net_bind, round_trip.
    rewrite Hs, Hhost. cbn [length].
    assert (DialContext false (lookup w 0 host) (connect w 0) = (Some errProbeTargetBlocked, [])) as ->.
    { unfold DialContext. destruct (lookup w 0 host) as [[|x ips]|]; [done| |done].
      destruct Hl as [?|Hl]; [done|]. by rewrite Hl. }
    simpl. eexists. split_and!; done. }
  destruct t; [done|unfold run_session; rewrite decide_False by done|unfold run_session; rewrite decide_True by done].
  - set (h := ([("Content-Type", "application/json"); ("Accept", "application/json, text/event-stream")]
           ++ sanitizedHeaders (rq_headers req) ++ [])%list).
    destruct (Hsend "POST" h start eq_refl) as (hop & E & Hd & Hse). unfold handshake.
    set (p := mkSession false endpoint (sanitizedHeaders (rq_headers req)) StreamableHTTP "").
    assert (rpc p (Some 1%Z) "initialize" w start
            = (Error (mkPerr false true "probe target is not permitted"), mkNetSt [hop] (stream start) (session start))) as Hrpc.
    { unfold rpc. rewrite decide_False by done. exact (net_bind_error _ _ _ _ _ _ E). }
    rewrite (net_bind_error (initialize p) _ _ _ _ _ (net_bind_error _ _ _ _ _ _ Hrpc)). exists hop. by split_and!.
  - set (h := ([("Accept", "text/event-stream"); ("Cache-Control", "no-cache")]
           ++ sanitizedHeaders (rq_headers req))%list).
    destruct (Hsend "GET" h start eq_refl) as (hop & E & Hd & Hse).
    rewrite (net_bind_error (openSSE _ _ _) _ _ _ _ _ (net_bind_error _ _ _ _ _ _ E)). exists hop. by split_and!.
Qed.

(** No spelling of a refused IPv4 address passes validation. *)
Theorem spelled_targets_rejected raw u a parts vals :
  url_Parse (TrimSpace raw) = Some u → TrimSpace raw ≠ "" →
  (0 ≤ a < 2 ^ 32)%Z → Forall2 spells parts vals → vals ∈ splits a → Hostname u = Join parts "." →
  isUnsafeProbeIPv4 a = true → ∃ e, validateProbeURL raw false = Error e.
Proof.
  intros Hu Hne Ha Hs Hv' Hh Hun. destruct (validateProbeURL raw false) as [endpoint|e] eqn:Hv; [|by eexists]. exfalso.
  apply validateProbeURL_ok in Hv as (u' & Hu' & _ & _ & _ & _ & Hsafe). rewrite Hu in Hu'. injection Hu' as <-.
  rewrite Hh in Hsafe. assert (∃ ip, parseHostIP (Join parts ".") = Some ip ∧ isUnsafeProbeIP ip = true)
    as (ip & Hip & Hbad).
  { destruct (spelled_address a parts vals Ha Hs Hv') as (ip & H1 & H2). exists ip. split; [done|].
    unfold isUnsafeProbeIP. by rewrite H2. }
  rewrite (Hsafe eq_refl ip Hip) in Hbad. done.
Qed.

End Probe.
