(* ===== verification/ProbeScenario.v ===== *)
(** * Runs of the probe

    A probe over the legacy transport, a target with a mixed resolution, and
    spellings of the loopback address, with simple URLs and messages. *)

From S2P Require Import Prelude GoStrings Addresses Sse Probe.
From Stdlib Require Import Ascii.
Import Go.
Local Open Scope string_scope.

(** URLs of the form scheme://host/path, and paths. *)
Definition split_path (s : string) : string * string :=
  match Cut s "/" with Some (h, t) => (h, "/" ++ t) | None => (s, "") end.
Definition demo_parse (s : string) : option URL :=
  match CutPrefix s "http://" with
  | Some r => let '(h, t) := split_path r in Some (mkURL "http" false h t)
  | None => if HasPrefix s "/" then Some (mkURL "" false "" s) else None
  end.
Definition demo_print (u : URL) : string :=
  let s := Scheme u ++ "://" ++ UHost u ++ u_rest u in
  match demo_parse s with
  | Some v => if String.eqb (Scheme v) (Scheme u) && String.eqb (UHost v) (UHost u) then s else ""
  | None => ""
  end.
#[export] Instance demo_urls : Urls := {|
  url_Parse := demo_parse;
  url_String := demo_print;
  ResolveReference := λ base ref,
    if String.eqb (Scheme ref) "" then mkURL (Scheme base) (User base) (UHost base) (u_rest ref) else ref;
  dial_host := λ u, Some (splitHostPort (UHost u)).1;
  fold_rune := lower_rune
|}.

Lemma demo_url_roundtrip : url_roundtrip.
Proof.
  intros u v. unfold url_String, url_Parse, demo_urls, demo_print.
  set (s := Scheme u ++ _). destruct (demo_parse s) as [v'|] eqn:E; [|done].
  destruct (_ && _) eqn:B; [|done]. rewrite E. intros [= ->].
  apply andb_true_iff in B as [B1%String.eqb_eq B2%String.eqb_eq]. done.
Qed.

(** Messages are the number of the request they answer. *)
Definition demo_rpc (data : string) : option RpcMsg :=
  if String.eqb data "1" || String.eqb data "2" then Some (mkRpc (Some data) "result" None) else None.
#[export] Instance demo_json : ProbeJson := {|
  decode_rpc := λ b, match demo_rpc (b_text b) with Some m => Ok m | None => Error (app_error "invalid") end;
  unmarshal_rpc := demo_rpc;
  unmarshal_init := λ _, Ok (mkInit "{tools}" "server" "1");
  unmarshal_caps := λ _, Some ["tools"];
  unmarshal_tools := λ _, Ok [("search", "finds things")];
  id_number := λ raw, if String.eqb raw "1" then Some 1%Z else if String.eqb raw "2" then Some 2%Z else None;
  id_string := λ _, None
|}.

(** ** A probe over server-sent events *)

Definition public_ip : IP := IPv4 (ipv4 93 184 216 34).
Definition sse_text : string :=
  encode_event "endpoint" ["/messages?s=1"] (encode_event "message" ["1"] (encode_event "message" ["2"] "")).
Definition sse_world : World := mkWorld (λ _ _, Some [public_ip]) (λ _ _, None)
  (λ _, Ok (mkReply 200 "" "" "text/event-stream" (mkBody sse_text EOF))).
Definition sse_request : ProbeRequest :=
  mkProbeRequest (Some SSE) " http://mcp.example:80/sse " [("Authorization", "token"); ("X-Key", "__OCTO_SECRET_PLACEHOLDER__")].
Definition sse_run : result ApiErr ProbeResponse * list Hop := Probe false sse_request sse_world.
Definition sse_answer : ProbeResponse := mkResponse true [("search", "finds things")] (Some ("server", "1")) None.

Lemma probe_confined_witness :
  sse_run.1 = Ok sse_answer ∧ length sse_run.2 = 4%nat
  ∧ Forall (confined false "http://mcp.example:80/sse" [("Authorization", "token")]) sse_run.2.
Proof.
  assert (sse_run.1 = Ok sse_answer) as E by (vm_compute; reflexivity).
  split; [exact E|]. split; [vm_compute; reflexivity|].
  destruct (probe_confined false sse_request sse_world sse_answer sse_run.2 demo_url_roundtrip) as (_ & u & Hu & _ & _ & H).
  { rewrite <-E. apply surjective_pairing. }
  vm_compute in Hu. injection Hu as <-. exact H.
Defined.

(** A resolution with one private address. *)
Definition mixed_world : World := mkWorld (λ _ _, Some [public_ip; IPv4 (ipv4 10 0 0 1)]) (λ _ _, None)
  (λ _, Ok (mkReply 200 "" "" "application/json" (mkBody "1" EOF))).
Definition http_request : ProbeRequest := mkProbeRequest (Some StreamableHTTP) "http://mcp.example/" [].

Lemma refused_probe_opaque_witness : ∃ hop,
  Probe false http_request mixed_world
  = (Ok (mkResponse false [] None (Some (ProbeErrInitFailed, "probe target is not reachable"))), [hop])
  ∧ h_dialed hop = [] ∧ h_sent hop = false.
Proof.
  apply (refused_probe_opaque http_request mixed_world "http://mcp.example/" StreamableHTTP);
    [reflexivity|discriminate|vm_compute; reflexivity|].
  exists (mkURL "http" false "mcp.example" "/"), "mcp.example". split; [reflexivity|]. split; [reflexivity|].
  right. vm_compute. reflexivity.
Defined.

(** ** Addresses *)

(** 64:ff9b::10.0.0.1 *)
Definition nat64_private : IP := IPv6 (6619035 * 2 ^ 96 + ipv4 10 0 0 1)%Z.
Lemma probe_policy_is_ranges_witness :
  isUnsafeProbeIP nat64_private = true ∧ existsb (between (To16 nat64_private)) forbidden = true.
Proof.
  assert (wf_ip nat64_private) as Hwf by (vm_compute; split; congruence).
  split; [vm_compute; reflexivity|]. rewrite <-(probe_policy_is_ranges nat64_private Hwf). vm_compute. reflexivity.
Defined.

(** 127.0.0.1 as [0X7F.01] and as [0x0000007f.1]. *)
Lemma host_spellings_witness :
  ∃ ip ip', parseHostIP "0X7F.01" = Some ip ∧ isUnsafeProbeIP ip = true
            ∧ parseHostIP "0x0000007f.1" = Some ip' ∧ isUnsafeProbeIP ip' = true.
Proof.
  destruct host_spellings as [Hread Haddr].
  assert (∀ p n, parseInetPart p = Some n → spells p n) as Hp by (intros p n H; exact (proj1 (proj1 (Hread p n) H))).
  destruct (Haddr 2130706433%Z ["0X7F"; "01"] [127; 1]%Z) as (ip & H1 & _ & H2);
    [split; lia|constructor; [apply Hp; vm_compute; reflexivity|constructor; [apply Hp; vm_compute; reflexivity|constructor]]|apply list_elem_of_lookup; exists 1%nat; vm_compute; reflexivity|].
  destruct (Haddr 2130706433%Z ["0x0000007f"; "1"] [127; 1]%Z) as (ip' & H1' & _ & H2');
    [split; lia|constructor; [apply Hp; vm_compute; reflexivity|constructor; [apply Hp; vm_compute; reflexivity|constructor]]|apply list_elem_of_lookup; exists 1%nat; vm_compute; reflexivity|].
  exists ip, ip'. split_and!; [exact H1| |exact H1'|]; [rewrite H2|rewrite H2']; vm_compute; reflexivity.
Defined.

(** What the policy does not refuse: 6to4 of a private address, the rest of
    0.0.0.0/8, a documentation block. *)
Example policy_leaves_open :
  isUnsafeProbeIP (IPv6 (Z.lor (Z.shiftl 8194 112) (Z.shiftl (ipv4 10 0 0 1) 80))) = false
  ∧ isUnsafeProbeIP (IPv4 (ipv4 0 0 0 1)) = false
  ∧ isUnsafeProbeIP (IPv4 (ipv4 192 0 2 1)) = false.
Proof. split_and!; vm_compute; reflexivity. Qed.

Lemma sse_roundtrip_witness :
  readSSEEvent 100 (stream_of (mkBody (encode_event "message" ["a"; ""; "b"] "rest") EOF))
  = (Ok (mkEvent "message" (Join ["a"; ""; "b"] (String lf ""))), stream_of (mkBody "rest" EOF)).
Proof.
  apply (sse_roundtrip 100 "message" ["a"; ""; "b"] "rest" EOF).
  - split; reflexivity.
  - repeat constructor.
  - intros d ds [= <- <-]. left. discriminate.
  - vm_compute. discriminate.
Defined.

(** A redirect to another origin ends the exchange, and its text is withheld. *)
Definition redirect_world : World := mkWorld (λ _ _, Some [public_ip]) (λ _ _, None)
  (λ _, Ok (mkReply 307 "http://elsewhere.example/" "" "" (mkBody "" EOF))).
Example redirect_refused :
  (Probe false http_request redirect_world).1
  = Ok (mkResponse false [] None (Some (ProbeErrInitFailed, "probe target is not reachable")))
  ∧ length (Probe false http_request redirect_world).2 = 1%nat.
Proof. split; vm_compute; reflexivity. Qed.
