(* ===== verification/Metrics.v ===== *)
(** * Write-back of usage counters

    internal/redis/client.go, internal/service/metrics/flush_worker.go and
    internal/repository/metrics/repo.go: the tracker counts an event of a
    resource in Redis and marks the resource dirty; the worker drains the
    counters of a dirty resource into a pending record, applies the record
    once to the database under its flush identifier, and acknowledges it.
    Every remote call is atomic and may be refused, or take effect although
    its answer is lost; the context may be cancelled at any check; events are
    tracked between any two steps of the worker. Counters are unbounded
    integers. The Redis keys "metrics:<type>:<id>:<metric>" of a resource are
    modelled by one record of three counts. One worker runs at a time: the
    expiry of its lock is not modelled. *)

From Stdlib Require Import Ascii.
From S2P Require Import Prelude GoStrings.
Import Go.
Local Open Scope string_scope.

(** ** Data *)

Record Counts := mkCounts { c_view : Z; c_download : Z; c_install : Z }.
Definition zeroC : Counts := mkCounts 0 0 0.
Definition addC (a b : Counts) : Counts :=
  mkCounts (c_view a + c_view b) (c_download a + c_download b) (c_install a + c_install b).
#[export] Instance Counts_eq_dec : EqDecision Counts.
Proof. solve_decision. Defined.

Definition Resource : Type := string * string.

(** [pendingDelta], without the flush identifier it is stored under. *)
Record pendingDelta := mkDelta {
  Member : string;
  ResourceType : string;
  ResourceID : string;
  Delta : Counts
}.
Definition delta_of (p : pendingDelta) : Resource := (ResourceType p, ResourceID p).

(** Redis and the two database tables. [resource_metric_flushes] maps a flush
    identifier to its creation time. *)
Record World := mkWorld {
  counters : gmap Resource Counts;
  dirtySet : gset string;
  pendingHash : gmap string pendingDelta;
  pendingSet : gset string;
  lock : option string;
  cleanupKey : option string;
  resource_metrics : gmap Resource Counts;
  resource_metric_flushes : gmap string Z
}.

(** ** Calls *)

Inductive Answer := Done | Refused | Lost.

(** An event is tracked by one script: the counter of its type is incremented
    and the resource marked dirty ([trackEvent]). *)
Inductive Event := EvView | EvDownload | EvInstall.
Definition unit_of (ev : Event) : Counts :=
  match ev with
  | EvView => mkCounts 1 0 0
  | EvDownload => mkCounts 0 1 0
  | EvInstall => mkCounts 0 0 1
  end.
Definition count_of (r : Resource) (m : gmap Resource Counts) : Counts := default zeroC (m !! r).
Definition trackEvent (w : World) (x : Resource * Event) : World :=
  let '(r, ev) := x in
  mkWorld (<[r := addC (count_of r (counters w)) (unit_of ev)]> (counters w))
    ({[ r.1 ++ ":" ++ r.2 ]} ∪ dirtySet w)
    (pendingHash w) (pendingSet w) (lock w) (cleanupKey w)
    (resource_metrics w) (resource_metric_flushes w).

(** What the worker draws from its environment: how each call is answered,
    whether the context is cancelled at a check, fresh identifiers, the clock,
    the members a random sample of a set returns, and the events tracked
    before the next step. *)
Record WEnv := mkWEnv {
  answer : nat → Answer;
  cancelled : nat → bool;
  fresh : nat → string;
  clock : nat → Z;
  sample : nat → gset string → list string;
  arrivals : nat → list (Resource * Event)
}.

(** The worker's state: the world, the number of choices drawn and the two
    counters of a flush. *)
Record WSt := mkWSt { wtick : nat; world : World; totalProcessed : Z; totalDBFails : Z }.

Definition M (A : Type) : Type := WEnv → WSt → A * WSt.
#[export] Instance m_ret : MRet M := λ A a _ s, (a, s).
#[export] Instance m_bind : MBind M := λ A B f m e s, let '(a, s') := m e s in f a e s'.

Definition tock (e : WEnv) (s : WSt) : WSt :=
  mkWSt (S (wtick s)) (foldl trackEvent (world s) (arrivals e (wtick s)))
    (totalProcessed s) (totalDBFails s).
Definition set_world (w : World) (s : WSt) : WSt :=
  mkWSt (wtick s) w (totalProcessed s) (totalDBFails s).

(** A remote call: [None] is an error, with or without the effect. *)
Definition call {A} (f : World → A * World) : M (option A) := λ e s,
  match answer e (wtick s) with
  | Done => (Some (f (world s)).1, tock e (set_world (f (world s)).2 s))
  | Refused => (None, tock e s)
  | Lost => (None, tock e (set_world (f (world s)).2 s))
  end.
Definition ctxErr : M bool := λ e s, (cancelled e (wtick s), tock e s).
Definition freshID : M string := λ e s, (fresh e (wtick s), tock e s).
Definition wnow : M Z := λ e s, (clock e (wtick s), tock e s).
Definition addFail : M unit := λ _ s,
  (tt, mkWSt (wtick s) (world s) (totalProcessed s) (totalDBFails s + 1)).
Definition addProcessed : M unit := λ _ s,
  (tt, mkWSt (wtick s) (world s) (totalProcessed s + 1) (totalDBFails s)).
Definition fails : M Z := λ _ s, (totalDBFails s, s).
Definition sampleOf (f : World → gset string) : M (option (list string)) := λ e s,
  call (λ w, (sample e (wtick s) (f w), w)) e s.

(** ** The remote operations *)

(** [drainToPendingScript] *)
Definition drain (member ty id flushID : string) (w : World) : (Counts * bool) * World :=
  let c := count_of (ty, id) (counters w) in
  let w1 := mkWorld (<[(ty, id) := zeroC]> (counters w)) (dirtySet w ∖ {[ member ]})
              (pendingHash w) (pendingSet w) (lock w) (cleanupKey w)
              (resource_metrics w) (resource_metric_flushes w) in
  if decide (c = zeroC) then ((c, false), w1)
  else ((c, true),
        mkWorld (counters w1) (dirtySet w1)
          (<[flushID := mkDelta member ty id c]> (pendingHash w1))
          ({[ flushID ]} ∪ pendingSet w1) (lock w) (cleanupKey w)
          (resource_metrics w) (resource_metric_flushes w)).

(** [ackPendingScript] *)
Definition ack (flushID : string) (w : World) : World :=
  mkWorld (counters w) (dirtySet w) (delete flushID (pendingHash w))
    (pendingSet w ∖ {[ flushID ]}) (lock w) (cleanupKey w)
    (resource_metrics w) (resource_metric_flushes w).

Definition srem_dirty (member : string) (w : World) : World :=
  mkWorld (counters w) (dirtySet w ∖ {[ member ]}) (pendingHash w) (pendingSet w) (lock w)
    (cleanupKey w) (resource_metrics w) (resource_metric_flushes w).

Definition srem_pending (flushID : string) (w : World) : World :=
  mkWorld (counters w) (dirtySet w) (pendingHash w) (pendingSet w ∖ {[ flushID ]}) (lock w)
    (cleanupKey w) (resource_metrics w) (resource_metric_flushes w).

(** [UpsertCountsOnce]: one transaction, a no-op when the flush is on record. *)
Definition UpsertCountsOnce (t : Z) (flushID : string) (p : pendingDelta) (w : World) : World :=
  match resource_metric_flushes w !! flushID with
  | Some _ => w
  | None =>
      mkWorld (counters w) (dirtySet w) (pendingHash w) (pendingSet w) (lock w) (cleanupKey w)
        (<[delta_of p := addC (count_of (delta_of p) (resource_metrics w)) (Delta p)]>
           (resource_metrics w))
        (<[flushID := t]> (resource_metric_flushes w))
  end.

(** [DeleteAppliedFlushesBefore] *)
Definition DeleteAppliedFlushesBefore (cutoff : Z) (w : World) : World :=
  mkWorld (counters w) (dirtySet w) (pendingHash w) (pendingSet w) (lock w) (cleanupKey w)
    (resource_metrics w)
    (filter (λ kt, (cutoff ≤ kt.2)%Z) (resource_metric_flushes w)).

(** [SETNX] and the compare-and-delete of the lock. *)
Definition setnx_lock (owner : string) (w : World) : bool * World :=
  match lock w with
  | Some _ => (false, w)
  | None => (true, mkWorld (counters w) (dirtySet w) (pendingHash w) (pendingSet w) (Some owner)
                     (cleanupKey w) (resource_metrics w) (resource_metric_flushes w))
  end.
Definition del_lock (owner : string) (w : World) : World :=
  if decide (lock w = Some owner)
  then mkWorld (counters w) (dirtySet w) (pendingHash w) (pendingSet w) None (cleanupKey w)
         (resource_metrics w) (resource_metric_flushes w)
  else w.
Definition setnx_cleanup (owner : string) (w : World) : bool * World :=
  match cleanupKey w with
  | Some _ => (false, w)
  | None => (true, mkWorld (counters w) (dirtySet w) (pendingHash w) (pendingSet w) (lock w)
                     (Some owner) (resource_metrics w) (resource_metric_flushes w))
  end.

(** ** The worker *)

Section Worker.
Context (instanceID : string) (retention : Z).

(** [flushableResourceTypes] *)
Definition flushable (ty : string) : bool := mem ty ["skill"; "expert"; "squad"; "plugin"].

Definition newFlushID : M string := i ← freshID; mret (instanceID ++ ":" ++ i).

(** [drainToPending]: the flush identifier with the drained delta, and whether
    there is one; [None] is an error. *)
Definition drainToPending (member ty id : string) : M (option (string * pendingDelta * bool)) :=
  flushID ← newFlushID;
  r ← call (drain member ty id flushID);
  mret (match r with
        | None => None
        | Some (c, has) => Some (flushID, mkDelta member ty id c, has)
        end).

Definition ackPending (flushID : string) : M bool :=
  r ← call (λ w, (tt, ack flushID w)); mret (bool_decide (is_Some r)).

(** [loadPendingDelta]: [Some None] is a missing record, removed from the set. *)
Definition loadPendingDelta (flushID : string) : M (option (option pendingDelta)) :=
  r ← call (λ w, (pendingHash w !! flushID, w));
  match r with
  | None => mret None
  | Some None =>
      r' ← call (λ w, (tt, srem_pending flushID w));
      mret (match r' with None => None | Some _ => Some None end)
  | Some (Some p) =>
      if String.eqb (Member p) "" || String.eqb (ResourceType p) "" || String.eqb (ResourceID p) ""
      then mret None else mret (Some (Some p))
  end.

(** [upsertWithRetry]: up to [n] attempts ([maxRetries] is 3). *)
Fixpoint upsertWithRetry (n : nat) (flushID : string) (p : pendingDelta) : M bool :=
  match n with
  | 0 => mret false
  | S n' =>
      c ← ctxErr;
      if c : bool then mret false
      else
        t ← wnow;
        r ← call (λ w, (tt, UpsertCountsOnce t flushID p w));
        match r with
        | Some _ => mret true
        | None => upsertWithRetry n' flushID p
        end
  end.

Definition processPendingDelta (flushID : string) (p : pendingDelta) : M bool :=
  if decide (Delta p = zeroC) then
    ok ← ackPending flushID;
    if ok : bool then mret true else addFail;; mret false
  else
    ok ← upsertWithRetry 3 flushID p;
    if ok : bool then
      ok' ← ackPending flushID;
      if ok' : bool then addProcessed;; mret true else addFail;; mret false
    else addFail;; mret false.

(** The inner loop of [processPending]: [false] when it returns early. *)
Fixpoint pendingBatch (flushIDs : list string) : M bool :=
  match flushIDs with
  | [] => mret true
  | flushID :: rest =>
      c ← ctxErr;
      if c : bool then mret false
      else
        r ← loadPendingDelta flushID;
        match r with
        | None => addFail;; mret false
        | Some None => pendingBatch rest
        | Some (Some p) =>
            ok ← processPendingDelta flushID p;
            if ok : bool then pendingBatch rest else mret false
        end
  end.

(** [processPending], for at most [fuel] samples. *)
Fixpoint processPending (fuel : nat) : M unit :=
  match fuel with
  | 0 => mret tt
  | S fuel' =>
      c ← ctxErr;
      if c : bool then mret tt
      else
        r ← sampleOf pendingSet;
        match r with
        | None => addFail
        | Some [] => mret tt
        | Some flushIDs =>
            ok ← pendingBatch flushIDs;
            if ok : bool then processPending fuel' else mret tt
        end
  end.

Definition processDirtyMember (member : string) : M bool :=
  match Cut member ":"%char with
  | Some (ty, id) =>
      if String.eqb ty "" || String.eqb id "" then
        call (λ w, (tt, srem_dirty member w));; mret true
      else if negb (flushable ty) then
        call (λ w, (tt, srem_dirty member w));; mret true
      else
        r ← drainToPending member ty id;
        match r with
        | None => addFail;; mret false
        | Some (flushID, p, has) =>
            if negb has then mret true else processPendingDelta flushID p
        end
  | None => call (λ w, (tt, srem_dirty member w));; mret true
  end.

(** One sampled batch of dirty members: whether any made progress. *)
Fixpoint dirtyBatch (members : list string) (progress : bool) : M bool :=
  match members with
  | [] => mret progress
  | member :: rest =>
      c ← ctxErr;
      if c : bool then mret progress
      else
        ok ← processDirtyMember member;
        dirtyBatch rest (progress || ok)
  end.

(** The dirty loop of [flush], for at most [fuel] samples; [false] when the
    fuel ran out. *)
Fixpoint dirtyLoop (fuel : nat) : M bool :=
  match fuel with
  | 0 => mret false
  | S fuel' =>
      c ← ctxErr;
      if c : bool then mret true
      else
        r ← sampleOf dirtySet;
        match r with
        | None => mret true
        | Some [] => mret true
        | Some members =>
            progress ← dirtyBatch members false;
            n ← fails;
            if (n >? 0)%Z || negb progress then mret true else dirtyLoop fuel'
        end
  end.

(** [cleanupFlushLedger]: only when no record is pending, and throttled. *)
Definition cleanupFlushLedger : M unit :=
  r ← call (λ w, (size (pendingSet w), w));
  match r with
  | Some 0%nat =>
      ok ← call (setnx_cleanup instanceID);
      match ok with
      | Some true =>
          t ← wnow;
          call (λ w, (tt, DeleteAppliedFlushesBefore (t - retention) w));; mret tt
      | _ => mret tt
      end
  | _ => mret tt
  end.

Definition flush (fuel : nat) : M unit :=
  acquired ← call (setnx_lock instanceID);
  match acquired with
  | Some true =>
      call (λ w, (size (dirtySet w), w));;
      call (λ w, (size (pendingSet w), w));;
      cleanupFlushLedger;;
      processPending fuel;;
      n ← fails;
      (if (n >? 0)%Z then mret true else dirtyLoop fuel);;
      call (λ w, (tt, del_lock instanceID w));; mret tt
  | _ => mret tt
  end.

End Worker.
