(* ===== verification/Flush.v ===== *)
(** * Write-back of usage counters: theorems

    No event is lost or counted twice by the worker of Metrics.v, whatever
    fails ([flush_conserves]); an undisturbed flush settles every dirty
    resource ([flush_settles]); an entry that cannot be removed keeps the
    dirty loop running ([dirty_loop_spins]). *)

From Stdlib Require Import Ascii.
From S2P Require Import Prelude GoStrings Metrics.
Import Go.
Local Open Scope string_scope.
Local Open Scope nat_scope.

(** ** Sums of counts *)

Ltac counts :=
  repeat match goal with c : Counts |- _ => destruct c end;
  unfold addC, zeroC in *; simpl in *; f_equal; lia.

Lemma addC_assoc a b c : addC a (addC b c) = addC (addC a b) c.
Proof. counts. Qed.
Lemma addC_comm a b : addC a b = addC b a.
Proof. counts. Qed.
Lemma addC_zero_l a : addC zeroC a = a.
Proof. counts. Qed.
Lemma addC_zero_r a : addC a zeroC = a.
Proof. counts. Qed.

Definition sumC (g : string → pendingDelta → Counts) (m : gmap string pendingDelta) : Counts :=
  map_fold (λ f p acc, addC (g f p) acc) zeroC m.

Lemma sumC_insert g m f p : m !! f = None → sumC g (<[f := p]> m) = addC (g f p) (sumC g m).
Proof.
  intros. unfold sumC.
  apply (map_fold_insert_L (λ f p acc, addC (g f p) acc)); [|done].
  intros j1 j2 z1 z2 y _ _ _. by rewrite !addC_assoc, (addC_comm (g j1 z1)).
Qed.
Lemma sumC_delete g m f p : m !! f = Some p → sumC g m = addC (g f p) (sumC g (delete f m)).
Proof. intros Hf. rewrite <-(insert_delete_id m f p Hf) at 1. apply sumC_insert, lookup_delete_eq. Qed.
Lemma sumC_ext g g' m :
  (∀ f p, m !! f = Some p → g f p = g' f p) → sumC g m = sumC g' m.
Proof.
  induction m as [|f p m Hf IH] using map_ind; intros H; [done|].
  rewrite !sumC_insert by done. f_equal; [apply H, lookup_insert_eq|].
  apply IH. intros f' p' Hp. apply H. rewrite lookup_insert_ne; congruence.
Qed.

(** ** What is counted

    The events of a resource are in its counters, in a pending record not yet
    applied, or in the database. *)
Definition share (r : Resource) (ledger : gmap string Z) (f : string) (p : pendingDelta) : Counts :=
  if decide (delta_of p = r ∧ ledger !! f = None) then Delta p else zeroC.
Definition owed (r : Resource) (w : World) : Counts :=
  sumC (share r (resource_metric_flushes w)) (pendingHash w).
Definition total (r : Resource) (w : World) : Counts :=
  addC (count_of r (counters w)) (addC (owed r w) (count_of r (resource_metrics w))).

Definition event_count (r : Resource) (x : Resource * Event) : Counts :=
  if decide (x.1 = r) then unit_of x.2 else zeroC.
Definition events_count (r : Resource) (l : list (Resource * Event)) : Counts :=
  foldr (λ x acc, addC (event_count r x) acc) zeroC l.
(** The events of [r] tracked in the [n] steps from [t]. *)
Fixpoint arrived (e : WEnv) (r : Resource) (t n : nat) : Counts :=
  match n with
  | 0 => zeroC
  | S n' => addC (events_count r (arrivals e t)) (arrived e r (S t) n')
  end.

Lemma arrived_add e r n n' t :
  arrived e r t (n + n') = addC (arrived e r t n) (arrived e r (t + n) n').
Proof.
  revert t. induction n as [|n IH]; intros t; simpl; [by rewrite Nat.add_0_r, addC_zero_l|].
  by rewrite IH, <-addC_assoc, Nat.add_succ_comm.
Qed.

Lemma count_of_insert_eq r c m : count_of r (<[r := c]> m) = c.
Proof. unfold count_of. by rewrite lookup_insert_eq. Qed.
Lemma count_of_insert_ne r r' c m : r' ≠ r → count_of r (<[r' := c]> m) = count_of r m.
Proof. intros. unfold count_of. by rewrite lookup_insert_ne. Qed.
#[local] Hint Rewrite count_of_insert_eq : market.
#[local] Hint Rewrite count_of_insert_ne using done : market.

Lemma total_trackEvent r w x : total r (trackEvent w x) = addC (total r w) (event_count r x).
Proof.
  destruct x as [r' ev]. unfold total, owed, event_count; simpl.
  destruct (decide (r' = r)) as [->|]; autorewrite with market; [|by rewrite addC_zero_r].
  by rewrite <-!addC_assoc, (addC_comm (unit_of ev)), <-!addC_assoc.
Qed.
Lemma total_tracked r l w : total r (foldl trackEvent w l) = addC (total r w) (events_count r l).
Proof.
  revert w. induction l as [|x l IH]; intros w; simpl; [by rewrite addC_zero_r|].
  by rewrite IH, total_trackEvent, addC_assoc.
Qed.
Lemma tracked_frame l w :
  let w' := foldl trackEvent w l in
  pendingHash w' = pendingHash w ∧ pendingSet w' = pendingSet w ∧
  resource_metric_flushes w' = resource_metric_flushes w.
Proof. revert w. induction l as [|[r ev] l IH]; intros w; [done|]. simpl. by apply (IH (trackEvent w (r, ev))). Qed.

(** ** Effects of the remote operations on the total *)

Lemma total_drain r member ty id f w :
  f ∉ dom (pendingHash w) → f ∉ dom (resource_metric_flushes w) →
  total r (drain member ty id f w).2 = total r w.
Proof.
  intros Hp%not_elem_of_dom Hl%not_elem_of_dom. unfold drain. case_decide as Hc; simpl.
  - unfold total, owed; simpl. destruct (decide ((ty, id) = r)) as [<-|];
      autorewrite with market; [by rewrite Hc|done].
  - unfold total, owed; simpl. rewrite sumC_insert by done. unfold share at 1; simpl.
    destruct (decide ((ty, id) = r)) as [<-|Hr]; autorewrite with market.
    + rewrite decide_True by done. by rewrite addC_zero_l, <-!addC_assoc.
    + rewrite decide_False by (intros [? ?]; done). by rewrite addC_zero_l.
Qed.

(** A record may be dropped once it is applied or when it is empty. *)
Definition settled (f : string) (w : World) : Prop :=
  ∀ p, pendingHash w !! f = Some p → Delta p = zeroC ∨ is_Some (resource_metric_flushes w !! f).

Lemma total_ack r f w : settled f w → total r (ack f w) = total r w.
Proof.
  intros H. unfold total, owed; simpl. destruct (pendingHash w !! f) as [p|] eqn:Hp.
  - rewrite (sumC_delete _ (pendingHash w) f p Hp). do 2 f_equal.
    assert (share r (resource_metric_flushes w) f p = zeroC) as ->; [|by rewrite addC_zero_l].
    unfold share. case_decide as Hd; [|done]. destruct Hd as [_ Hd].
    destruct (H p Hp) as [?|[? ?]]; congruence.
  - by rewrite delete_id.
Qed.

Lemma total_upsert r t f p w :
  pendingHash w !! f = Some p → total r (UpsertCountsOnce t f p w) = total r w.
Proof.
  intros Hp. unfold UpsertCountsOnce. destruct (resource_metric_flushes w !! f) eqn:Hl; [done|].
  unfold total, owed; simpl. rewrite !(sumC_delete _ (pendingHash w) f p Hp).
  rewrite (sumC_ext (share r (<[f := t]> _)) (share r (resource_metric_flushes w)) (delete f _)).
  2: { intros f' p' [??]%lookup_delete_Some. unfold share. by rewrite lookup_insert_ne. }
  unfold share at 1 3. rewrite lookup_insert_eq.
  rewrite decide_False by (intros [? ?]; done). rewrite addC_zero_l.
  destruct (decide (delta_of p = r)) as [<-|Hr]; autorewrite with market.
  - rewrite decide_True by done. f_equal. rewrite (addC_comm _ (Delta p)), addC_assoc.
    by rewrite (addC_comm (sumC _ _) (Delta p)).
  - rewrite decide_False by (intros [? ?]; done). by rewrite addC_zero_l.
Qed.

Lemma total_cleanup r cutoff w :
  pendingHash w = ∅ → total r (DeleteAppliedFlushesBefore cutoff w) = total r w.
Proof. intros Hp. unfold total, owed; simpl. by rewrite Hp. Qed.

(** ** Exactly-once application *)

Section Conservation.
Context (e : WEnv) (instanceID : string) (retention : Z).

Definition flush_id (t : nat) : string := instanceID ++ ":" ++ fresh e t.
Definition names (w : World) : gset string :=
  dom (pendingHash w) ∪ dom (resource_metric_flushes w).

(** Every pending record is listed, and no identifier still to be drawn is in
    use. *)
Record sound (s : WSt) : Prop := {
  listed : dom (pendingHash (world s)) ⊆ pendingSet (world s);
  unused : ∀ t, wtick s ≤ t → flush_id t ∉ names (world s)
}.

Definition conserves (s s' : WSt) : Prop :=
  wtick s ≤ wtick s' ∧
  ∀ r, total r (world s') =
       addC (total r (world s)) (arrived e r (wtick s) (wtick s' - wtick s)).

(** Identifiers are random; two draws never give the same one. *)
Hypothesis no_collision : ∀ t t', fresh e t = fresh e t' → t = t'.

(** A triple: from a sound state that satisfies [P], [m] keeps the state
    sound, conserves the events, and ends with [Q]. *)
Definition keeps {A} (P : World → Prop) (m : M A) (Q : A → World → Prop) : Prop :=
  ∀ s, sound s → P (world s) →
    sound (m e s).2 ∧ conserves s (m e s).2 ∧ Q (m e s).1 (world (m e s).2).

Definition stable (P : World → Prop) : Prop := ∀ w x, P w → P (trackEvent w x).

Lemma conserves_refl s w p f : world s = w → conserves s (mkWSt (wtick s) w p f).
Proof.
  intros <-. split; [done|]. intros r. simpl. by rewrite Nat.sub_diag, addC_zero_r.
Qed.
Lemma conserves_trans s1 s2 s3 : conserves s1 s2 → conserves s2 s3 → conserves s1 s3.
Proof.
  intros [L1 H1] [L2 H2]. split; [lia|]. intros r. rewrite H2, H1, <-addC_assoc.
  f_equal. replace (wtick s3 - wtick s1) with ((wtick s2 - wtick s1) + (wtick s3 - wtick s2)) by lia.
  rewrite arrived_add. by replace (wtick s1 + (wtick s2 - wtick s1)) with (wtick s2) by lia.
Qed.

Lemma tock_conserves w' s :
  (∀ r, total r w' = total r (world s)) → conserves s (tock e (set_world w' s)).
Proof.
  intros H. split; [simpl; lia|]. intros r. simpl.
  replace (S (wtick s) - wtick s) with 1 by lia. simpl.
  by rewrite total_tracked, H, addC_zero_r.
Qed.
Lemma tock_sound w' s :
  sound s → dom (pendingHash w') ⊆ pendingSet w' → names w' ⊆ names (world s) →
  sound (tock e (set_world w' s)).
Proof.
  intros [? Hu] Hl Hn. destruct (tracked_frame (arrivals e (wtick s)) w') as (E1 & E2 & E3).
  split; simpl; [by rewrite E1, E2|].
  intros t Ht. specialize (Hu t ltac:(lia)). unfold names in *. rewrite E1, E3. set_solver.
Qed.
Lemma tracked_stable P l w : stable P → P w → P (foldl trackEvent w l).
Proof. intros Hs. revert w. induction l; simpl; auto. Qed.

Lemma keeps_ret {A} (a : A) (P : World → Prop) (Q : A → World → Prop) :
  (∀ w, P w → Q a w) → keeps P (mret a) Q.
Proof.
  intros HQ s Hs HP. split; [done|]. split; [by destruct s; apply conserves_refl|]. by apply HQ.
Qed.
Lemma keeps_bind {A B} P Q R (m : M A) (f : A → M B) :
  keeps P m Q → (∀ a, keeps (Q a) (f a) R) → keeps P (mbind f m) R.
Proof.
  intros Hm Hf s Hs HP. destruct (Hm s Hs HP) as (S1 & C1 & HQ).
  unfold mbind, m_bind. destruct (m e s) as [a s']. simpl in *.
  destruct (Hf a s' S1 HQ) as (S2 & C2 & HR). split_and!; [done| |done].
  by eapply conserves_trans.
Qed.
Lemma keeps_mono {A} (P P' : World → Prop) (Q Q' : A → World → Prop) (m : M A) :
  keeps P m Q → (∀ w, P' w → P w) → (∀ a w, Q a w → Q' a w) → keeps P' m Q'.
Proof. intros H HP HQ s Hs HP'. destruct (H s Hs (HP _ HP')) as (?&?&?). auto. Qed.

Lemma keeps_call {A} (f : World → A * World) P Q :
  (∀ w, dom (pendingHash w) ⊆ pendingSet w → P w →
     (∀ r, total r (f w).2 = total r w) ∧
     dom (pendingHash (f w).2) ⊆ pendingSet (f w).2 ∧ names (f w).2 ⊆ names w ∧
     Q (Some (f w).1) (f w).2 ∧ Q None (f w).2 ∧ Q None w) →
  (∀ a, stable (Q a)) → keeps P (call f) Q.
Proof.
  intros Hf Hst s Hs HP. destruct (Hf _ (listed _ Hs) HP) as (HT & HL & HN & Q1 & Q2 & Q3).
  unfold call. destruct (answer e (wtick s)); simpl; split_and!;
    try (by apply tracked_stable); try (by apply tock_sound); try (by apply tock_conserves).
  apply (tock_sound (world s) s Hs); [by destruct Hs|done].
Qed.
Lemma keeps_read {A} (f : World → A) P :
  stable P → (∀ a, stable (λ w, f w = a)) →
  keeps P (call (λ w, (f w, w))) (λ r w, P w ∧ ∀ a, r = Some a → f w = a).
Proof.
  intros Hst Hf. apply keeps_call; [by intros w HL HP; simpl; split_and!; try done; intros; simplify_eq|].
  intros r w x [HP H]. split; [by apply Hst|]. intros a Ha. by apply Hf, H.
Qed.
Lemma keeps_tick {A} (g : nat → A) P :
  stable P → keeps P (λ e' s, (g (wtick s), tock e' s)) (λ _, P).
Proof.
  intros Hst s Hs HP. simpl. split_and!; [|by apply (tock_conserves (world s) s)|by apply tracked_stable].
  apply (tock_sound (world s) s Hs); [by destruct Hs|done].
Qed.

Lemma keeps_count {A} (a : A) (g h : Z → Z) P :
  keeps P (λ _ s, (a, mkWSt (wtick s) (world s) (g (totalProcessed s)) (h (totalDBFails s))))
    (λ _, P).
Proof. intros s [Hl Hu] HP. split; [by split|]. split; [by apply conserves_refl|done]. Qed.
Lemma keeps_fails P : keeps P fails (λ _, P).
Proof. intros s Hs HP. split; [done|]. split; [|done]. by destruct s; apply conserves_refl. Qed.
Lemma keeps_ctxErr P : stable P → keeps P ctxErr (λ _, P).
Proof. apply keeps_tick. Qed.
Lemma keeps_wnow P : stable P → keeps P wnow (λ _, P).
Proof. apply keeps_tick. Qed.
Lemma keeps_addFail P : keeps P addFail (λ _, P).
Proof. apply (keeps_count tt (λ z, z) (λ z, z + 1)%Z). Qed.
Lemma keeps_addProcessed P : keeps P addProcessed (λ _, P).
Proof. apply (keeps_count tt (λ z, z + 1)%Z (λ z, z)). Qed.

Ltac stably := lazymatch goal with |- stable _ => idtac | _ => intros ? end; by intros ? [? ?]; simpl; auto.
Ltac retk := apply keeps_ret; try (by intuition (subst; eauto)).
Abbreviation any := (λ _ : World, True).
Abbreviation anyr := (λ _ _, True).

Lemma stable_any : stable any.
Proof. stably. Qed.
Hint Resolve stable_any : core.

(** A call whose effect leaves the records, their list and the ledger as they
    are and moves no count. *)
Lemma keeps_aside {A} (f : World → A * World) P :
  stable P →
  (∀ w, counters (f w).2 = counters w ∧ pendingHash (f w).2 = pendingHash w ∧
        pendingSet (f w).2 = pendingSet w ∧ resource_metrics (f w).2 = resource_metrics w ∧
        resource_metric_flushes (f w).2 = resource_metric_flushes w) →
  (∀ w, P w → P (f w).2) → keeps P (call f) (λ _, P).
Proof.
  intros Hst Hf HP. apply keeps_call; [|done]. intros w HL Hw.
  destruct (Hf w) as (E1 & E2 & E3 & E4 & E5). split_and!; auto.
  - intros r. unfold total, owed. by rewrite E1, E2, E4, E5.
  - by rewrite E2, E3.
  - unfold names. by rewrite E2, E5.
Qed.

Lemma keeps_ackPending f : keeps (settled f) (ackPending f) anyr.
Proof.
  eapply keeps_bind; [eapply (keeps_call _ _ anyr)|intros a; retk]; [|done].
  intros w HL Hs. simpl. split_and!; try done.
  - intros r. by apply total_ack.
  - rewrite dom_delete. set_solver.
  - unfold names; simpl. rewrite dom_delete. set_solver.
Qed.

Lemma keeps_upsertWithRetry n f p :
  keeps (λ w, pendingHash w !! f = Some p) (upsertWithRetry n f p)
    (λ ok w, pendingHash w !! f = Some p ∧ (ok = true → is_Some (resource_metric_flushes w !! f))).
Proof.
  induction n as [|n IH]; simpl; [retk|].
  eapply keeps_bind; [apply keeps_ctxErr; stably|]. intros [|]; [retk|].
  eapply keeps_bind; [apply keeps_wnow; stably|]. intros t.
  eapply keeps_bind with (Q := λ r w, pendingHash w !! f = Some p ∧
    (r ≠ None → is_Some (resource_metric_flushes w !! f))).
  - apply keeps_call; [|stably]. intros w HL Hp; simpl. split_and!.
    + intros r. by apply total_upsert.
    + unfold UpsertCountsOnce. by case_match.
    + unfold names, UpsertCountsOnce. case_match; [done|]. simpl.
      apply elem_of_dom_2 in Hp. rewrite dom_insert. set_solver.
    + unfold UpsertCountsOnce. by case_match.
    + intros _. unfold UpsertCountsOnce. case_match; [done|]. simpl. by rewrite lookup_insert_eq.
    + unfold UpsertCountsOnce. by case_match.
    + done.
    + done.
    + done.
  - intros [[]|]; [retk; intros w [? H]; split; [done|]; intros _; by apply H|].
    eapply keeps_mono; [apply IH|by intros ? []|done].
Qed.

Lemma keeps_fail P : keeps P (addFail;; mret false) (λ _ _, True).
Proof. eapply keeps_bind; [apply keeps_addFail|]. intros []. retk. Qed.

Lemma keeps_processPendingDelta f p :
  keeps (λ w, pendingHash w !! f = Some p) (processPendingDelta f p) anyr.
Proof.
  unfold processPendingDelta. case_decide as Hz.
  - eapply keeps_bind; [eapply keeps_mono; [apply keeps_ackPending| |by intros ??; exact id]|].
    + intros w Hp p' Hp'. simplify_eq. by left.
    + intros [|]; [retk|apply keeps_fail].
  - eapply keeps_bind; [apply keeps_upsertWithRetry|]. intros [|]; [|apply keeps_fail].
    eapply keeps_bind; [eapply keeps_mono; [apply keeps_ackPending| |by intros ??; exact id]|].
    + intros w [Hp Hl] p' Hp'. right. by apply Hl.
    + intros [|]; [|apply keeps_fail]. eapply keeps_bind; [apply keeps_addProcessed|]. intros []. retk.
Qed.

Lemma keeps_loadPendingDelta f :
  keeps any (loadPendingDelta f) (λ r w, ∀ p, r = Some (Some p) → pendingHash w !! f = Some p).
Proof.
  eapply keeps_bind; [apply (keeps_read (λ w, pendingHash w !! f) any); [done|stably]|].
  intros [[p|]|]; simpl.
  - case_match; [retk|]. retk.
  - eapply keeps_bind with (Q := anyr).
    + apply keeps_call; [|done]. intros w HL [_ H]. specialize (H None eq_refl).
      apply not_elem_of_dom in H. simpl. split_and!; try done. set_solver.
    + intros [[]|]; retk.
  - retk.
Qed.

Lemma keeps_pendingBatch l : keeps any (pendingBatch l) anyr.
Proof.
  induction l as [|f l IH]; simpl; [retk|].
  eapply keeps_bind; [by apply keeps_ctxErr|]. intros [|]; [retk|].
  eapply keeps_bind; [apply keeps_loadPendingDelta|]. intros [[p|]|].
  - eapply keeps_bind; [eapply keeps_mono; [apply (keeps_processPendingDelta f p)|intros w H; by apply H|by intros ??; exact id]|].
    intros [|]; [|retk]. eapply keeps_mono; [apply IH|done|done].
  - eapply keeps_mono; [apply IH|done|done].
  - apply keeps_fail.
Qed.

Lemma keeps_sampleOf g : keeps any (sampleOf g) anyr.
Proof.
  intros s Hs HP. unfold sampleOf.
  by apply (keeps_aside (λ w, (sample e (wtick s) (g w), w)) any).
Qed.

Lemma keeps_processPending fuel : keeps any (processPending fuel) anyr.
Proof.
  induction fuel as [|fuel IH]; simpl; [retk|].
  eapply keeps_bind; [by apply keeps_ctxErr|]. intros [|]; [retk|].
  eapply keeps_bind; [apply keeps_sampleOf|]. intros [[|f l]|]; [retk| |].
  - eapply keeps_bind; [apply keeps_pendingBatch|]. intros [|]; [apply IH|retk].
  - eapply keeps_mono; [apply (keeps_addFail any)|done|done].
Qed.

Lemma keeps_drain member ty id f w :
  dom (pendingHash w) ⊆ pendingSet w →
  let w' := (drain member ty id f w).2 in
  dom (pendingHash w') ⊆ pendingSet w' ∧ names w' ⊆ {[ f ]} ∪ names w ∧
  ((drain member ty id f w).1.2 = true →
   pendingHash w' !! f = Some (mkDelta member ty id (drain member ty id f w).1.1)).
Proof.
  intros HL. unfold drain, names. case_decide; simpl.
  - split_and!; [done|set_solver|done].
  - rewrite dom_insert. split_and!; [set_solver|set_solver|]. intros _. by rewrite lookup_insert_eq.
Qed.

(** A drawn identifier is never drawn again. *)
Lemma drain_tock_sound w' s :
  sound s → dom (pendingHash w') ⊆ pendingSet w' →
  names w' ⊆ {[ flush_id (wtick s) ]} ∪ names (world s) →
  sound (tock e (set_world w' (tock e s))).
Proof.
  intros [_ Hu] HL HN. destruct (tracked_frame (arrivals e (S (wtick s))) w') as (E1 & E2 & E3).
  split; simpl; [by rewrite E1, E2|].
  intros t Ht. unfold names in *. rewrite E1, E3. intros Hin. apply HN in Hin.
  apply elem_of_union in Hin as [Hin%elem_of_singleton|Hin].
  - unfold flush_id in Hin. apply (inj (String.append instanceID)) in Hin.
    apply (inj (String.append ":")) in Hin. apply no_collision in Hin. lia.
  - by apply (Hu t ltac:(lia)).
Qed.

Lemma keeps_drainToPending member ty id :
  keeps any (drainToPending instanceID member ty id)
    (λ r w, ∀ f p, r = Some (f, p, true) → pendingHash w !! f = Some p).
Proof.
  intros s Hs _. set (f := flush_id (wtick s)). set (w1 := world (tock e s)).
  destruct (tracked_frame (arrivals e (wtick s)) (world s)) as (E1 & E2 & E3).
  assert (dom (pendingHash w1) ⊆ pendingSet w1) as HL1.
  { unfold w1; simpl. rewrite E1, E2. by destruct Hs. }
  destruct (keeps_drain member ty id f w1 HL1) as (HL & HN & HP).
  assert (names w1 = names (world s)) as HE by (unfold names, w1; simpl; by rewrite E1, E3).
  assert (f ∉ names w1) as Hf by (rewrite HE; by apply Hs).
  unfold names in Hf.
  assert (∀ r, total r (drain member ty id f w1).2 = total r w1) as HT.
  { intros r. apply total_drain; set_solver. }
  assert (conserves s (tock e s)) as C0 by (by apply (tock_conserves (world s) s)).
  assert (sound (tock e s)) as S0.
  { apply (tock_sound (world s) s Hs); [by destruct Hs|done]. }
  unfold drainToPending, newFlushID, freshID, call, mbind, m_bind, mret, m_ret. cbn [fst snd].
  fold (flush_id (wtick s)); fold f; fold w1.
  destruct (answer e (wtick (tock e s))); simpl; (split; [|split]);
    try (by apply drain_tock_sound; rewrite <-?HE); try (by eapply conserves_trans; [|apply tock_conserves]);
    try (by intros ???).
  - intros f0 p Hp. destruct (drain member ty id f w1) as [[c has] w']; simpl in *. simplify_eq.
    destruct (tracked_frame (arrivals e (S (wtick s))) w') as (-> & _). by apply HP.
  - apply (tock_sound (world (tock e s)) (tock e s) S0); [by destruct S0|done].
  - eapply conserves_trans; [exact C0|]. by apply (tock_conserves w1 (tock e s)).
Qed.

Lemma keeps_srem_dirty member (b : bool) :
  keeps any (call (λ w, (tt, srem_dirty member w));; mret b) anyr.
Proof. eapply keeps_bind; [by apply keeps_aside|]. intros ?. retk. Qed.

Lemma keeps_processDirtyMember member :
  keeps any (processDirtyMember instanceID member) anyr.
Proof.
  unfold processDirtyMember. destruct (Cut member ":") as [[ty id]|]; [|apply keeps_srem_dirty].
  case_match; [apply keeps_srem_dirty|]. case_match; [apply keeps_srem_dirty|].
  eapply keeps_bind; [apply keeps_drainToPending|]. intros [[[f p] [|]]|]; simpl.
  - eapply keeps_mono; [apply keeps_processPendingDelta|intros w Hw; by apply Hw|done].
  - retk.
  - apply keeps_fail.
Qed.

Lemma keeps_dirtyBatch l b : keeps any (dirtyBatch instanceID l b) anyr.
Proof.
  revert b. induction l as [|x l IH]; intros b; simpl; [retk|].
  eapply keeps_bind; [by apply keeps_ctxErr|]. intros [|]; [retk|].
  eapply keeps_bind; [apply keeps_processDirtyMember|]. intros ok. apply IH.
Qed.

Lemma keeps_dirtyLoop fuel : keeps any (dirtyLoop instanceID fuel) anyr.
Proof.
  induction fuel as [|fuel IH]; simpl; [retk|].
  eapply keeps_bind; [by apply keeps_ctxErr|]. intros [|]; [retk|].
  eapply keeps_bind; [apply keeps_sampleOf|]. intros [[|x l]|]; [retk| |retk].
  eapply keeps_bind; [apply keeps_dirtyBatch|]. intros ok.
  eapply keeps_bind; [apply keeps_fails|]. intros n. case_match; [retk|apply IH].
Qed.

(** The ledger is only pruned when nothing is pending. *)
Lemma keeps_cleanup : keeps any (cleanupFlushLedger instanceID retention) anyr.
Proof.
  eapply keeps_bind; [apply (keeps_read (λ w, size (pendingSet w)) any); [done|stably]|].
  intros [[|n]|]; [|retk|retk]. cbn.
  eapply keeps_mono with (P := λ w, pendingSet w = ∅) (Q := anyr); [|intros w [_ H]; by apply leibniz_equiv, size_empty_inv, H|done].
  eapply keeps_bind; [apply keeps_aside with (P := λ w, pendingSet w = ∅); [stably| |]|];
    try (intros w; unfold setnx_cleanup; by destruct (cleanupKey w)).
  intros [[|]|]; [|retk|retk].
  eapply keeps_bind; [apply keeps_wnow; stably|]. intros t.
  eapply keeps_bind with (Q := anyr); [|intros ?; retk].
  apply keeps_call; [|done]. intros w HL Hw. simpl. split_and!; try done.
  - intros r. apply total_cleanup, dom_empty_inv_L. set_solver.
  - unfold names; simpl. apply union_mono_l, dom_filter_subseteq.
Qed.

Lemma keeps_flush fuel : keeps any (flush instanceID retention fuel) anyr.
Proof.
  unfold flush.
  eapply keeps_bind; [apply keeps_aside with (P := any); [done| |done]|].
  { intros w. unfold setnx_lock. by destruct (lock w). }
  intros [[|]|]; [|retk|retk].
  do 2 (eapply keeps_bind; [by apply keeps_aside with (P := any)|intros ?]).
  eapply keeps_bind; [apply keeps_cleanup|]. intros ?.
  eapply keeps_bind; [apply keeps_processPending|]. intros ?.
  eapply keeps_bind; [apply keeps_fails|]. intros n.
  eapply keeps_bind with (Q := anyr); [case_match; [retk|apply keeps_dirtyLoop]|]. intros ?.
  eapply keeps_bind; [apply keeps_aside with (P := any); [done| |done]|intros ?; retk].
  intros w. unfold del_lock. simpl. by case_decide.
Qed.

(** C23: No event is lost and none is counted twice. Whatever calls are refused
    or lose their answer, wherever the context is cancelled, whatever members
    are sampled and for however long the worker runs: the counts of a resource
    still in Redis, in records not yet applied and in the database add up,
    after a flush, to what they were plus the events tracked meanwhile. *)
Theorem flush_conserves fuel s r :
  sound s →
  let s' := (flush instanceID retention fuel e s).2 in
  sound s' ∧
  total r (world s') = addC (total r (world s)) (arrived e r (wtick s) (wtick s' - wtick s)).
Proof. intros Hs. destruct (keeps_flush fuel s Hs I) as (? & [_ H] & _). split; [done|apply H]. Qed.

End Conservation.

(** ** An undisturbed flush *)

Section Calm.
Context (e : WEnv) (instanceID : string) (retention : Z).
Hypothesis no_collision : ∀ t t', fresh e t = fresh e t' → t = t'.
(** Every call is answered, nothing is cancelled or tracked meanwhile, and a
    sample of a set consists of members, at least one if there is any. *)
Hypothesis answered : ∀ t, answer e t = Done.
Hypothesis not_cancelled : ∀ t, cancelled e t = false.
Hypothesis quiet : ∀ t, arrivals e t = [].
Hypothesis sampled : ∀ t X,
  (∀ x, x ∈ sample e t X → x ∈ X) ∧ (X ≠ ∅ → sample e t X ≠ []).

(** From the world [w], [m] ends without a failure counted, with [Q]. *)
Definition does {A} (m : M A) (w : World) (Q : A → World → Prop) : Prop :=
  ∀ s, world s = w → totalDBFails s = 0%Z →
    totalDBFails (m e s).2 = 0%Z ∧ Q (m e s).1 (world (m e s).2).

Lemma does_ret {A} (a : A) w (Q : A → World → Prop) : Q a w → does (mret a) w Q.
Proof. by intros ? s <- ?. Qed.
Lemma does_bind {A B} (m : M A) (f : A → M B) w Q R :
  does m w Q → (∀ a w', Q a w' → does (f a) w' R) → does (mbind f m) w R.
Proof.
  intros Hm Hf s Hw H0. destruct (Hm s Hw H0) as [H1 HQ]. unfold mbind, m_bind.
  destruct (m e s) as [a s']; simpl in *. by apply (Hf a (world s')).
Qed.
Lemma does_mono {A} (m : M A) w (Q Q' : A → World → Prop) :
  does m w Q → (∀ a w', Q a w' → Q' a w') → does m w Q'.
Proof. intros H HQ s Hw H0. destruct (H s Hw H0). auto. Qed.
Lemma does_call {A} (f : World → A * World) w :
  does (call f) w (λ r w', r = Some (f w).1 ∧ w' = (f w).2).
Proof. intros s <- H0. unfold call. rewrite answered. simpl. by rewrite quiet. Qed.
Lemma does_ctxErr w : does ctxErr w (λ c w', c = false ∧ w' = w).
Proof. intros s <- H0. simpl. by rewrite not_cancelled, quiet. Qed.
Lemma does_wnow w : does wnow w (λ _ w', w' = w).
Proof. intros s <- H0. simpl. by rewrite quiet. Qed.
Lemma does_freshID w : does freshID w (λ _ w', w' = w).
Proof. intros s <- H0. simpl. by rewrite quiet. Qed.
Lemma does_addProcessed w : does addProcessed w (λ _ w', w' = w).
Proof. by intros s <- H0. Qed.
Lemma does_fails w : does fails w (λ n w', n = 0%Z ∧ w' = w).
Proof. by intros s <- H0. Qed.
Lemma does_sampleOf g w :
  does (sampleOf g) w (λ r w', w' = w ∧ ∃ l, r = Some l ∧ (∀ x, x ∈ l → x ∈ g w) ∧ (g w ≠ ∅ → l ≠ [])).
Proof.
  intros s <- H0. unfold sampleOf, call. rewrite answered. simpl. rewrite quiet.
  split_and!; [done..|]. eexists. split; [done|]. apply sampled.
Qed.

(** Sequence with the lemma that runs the first step. *)
Tactic Notation "next" uconstr(H) "as" simple_intropattern(p) :=
  eapply does_bind; [apply H|intros ? ? p].

(** Records as [drainToPending] writes them. *)
Definition well_formed (w : World) : Prop :=
  ∀ f p, pendingHash w !! f = Some p → Member p ≠ "" ∧ ResourceType p ≠ "" ∧ ResourceID p ≠ "".

(** The records [X] are no longer pending; nothing else moved in Redis. *)
Definition dropped (X : gset string) (w w' : World) : Prop :=
  pendingSet w' = pendingSet w ∖ X ∧ pendingHash w' ⊆ pendingHash w ∧
  dirtySet w' = dirtySet w ∧ counters w' = counters w ∧ lock w' = lock w.

Lemma dropped_trans X Y w1 w2 w3 : dropped X w1 w2 → dropped Y w2 w3 → dropped (X ∪ Y) w1 w3.
Proof.
  intros (E1 & Hs1 & ? & ? & ?) (E2 & Hs2 & ? & ? & ?). unfold dropped. split_and!; try congruence.
  - rewrite E2, E1. set_solver.
  - by etrans.
Qed.
Lemma dropped_well_formed X w w' : dropped X w w' → well_formed w → well_formed w'.
Proof. intros (_ & H & _) Hw f p Hp. eapply Hw, lookup_weaken; eauto. Qed.

Lemma does_upsertWithRetry n f p w :
  does (upsertWithRetry (S n) f p) w (λ ok w', ok = true ∧ dropped ∅ w w').
Proof.
  simpl. next does_ctxErr as [-> ->]. next does_wnow as ->. next does_call as [-> ->].
  apply does_ret. split; [done|]. simpl. unfold UpsertCountsOnce, dropped.
  case_match; simpl; split_and!; set_solver.
Qed.

Lemma does_ackPending f w :
  does (ackPending f) w (λ ok w', ok = true ∧ dropped {[ f ]} w w').
Proof.
  unfold ackPending. next does_call as [-> ->]. apply does_ret.
  split; [done|]. unfold dropped; simpl. split_and!; try done. apply delete_subseteq.
Qed.

Lemma does_processPendingDelta f p w :
  does (processPendingDelta f p) w (λ ok w', ok = true ∧ dropped {[ f ]} w w').
Proof.
  unfold processPendingDelta. case_decide.
  - next does_ackPending as [-> Hd]. by apply does_ret.
  - next does_upsertWithRetry as [-> Hd].
    next does_ackPending as [-> Hd'].
    next does_addProcessed as ->. apply does_ret. split; [done|].
    rewrite <-(union_empty_l_L {[ f ]}). by eapply dropped_trans.
Qed.

Lemma does_pendingBatch l w :
  well_formed w →
  does (pendingBatch l) w (λ ok w', ok = true ∧ dropped (list_to_set l) w w').
Proof.
  revert w. induction l as [|f l IH]; intros w Hwf; simpl.
  - apply does_ret. split; [done|]. unfold dropped. split_and!; set_solver.
  - next does_ctxErr as [-> ->]. unfold loadPendingDelta.
    eapply does_bind with (Q := λ r w1, (∃ p, r = Some (Some p) ∧ w1 = w) ∨
      (r = Some None ∧ dropped {[ f ]} w w1)).
    + next does_call as [-> ->]. simpl. destruct (pendingHash w !! f) as [p|] eqn:Hp.
      * destruct (Hwf f p Hp) as (H1%String.eqb_neq & H2%String.eqb_neq & H3%String.eqb_neq).
        rewrite H1, H2, H3. apply does_ret. left. eauto.
      * next does_call as [-> ->]. apply does_ret. right. split; [done|].
        unfold dropped; simpl. split_and!; set_solver.
    + intros ? w1 [(p & -> & ->)|[-> Hd]].
      * next does_processPendingDelta as [-> Hd].
        eapply does_mono; [by eapply IH, dropped_well_formed|].
        intros ok w2 [-> Hd']. split; [done|]. by eapply dropped_trans.
      * eapply does_mono; [by eapply IH, dropped_well_formed|].
        intros ok w2 [-> Hd']. split; [done|]. by eapply dropped_trans.
Qed.

Lemma does_processPending fuel w :
  well_formed w → size (pendingSet w) < fuel →
  does (processPending fuel) w (λ _ w', pendingSet w' = ∅ ∧ ∃ X, dropped X w w').
Proof.
  revert w. induction fuel as [|fuel IH]; intros w Hwf Hsz; [lia|]. simpl.
  next does_ctxErr as [-> ->]. next does_sampleOf as (-> & l & -> & Hin & Hne).
  destruct l as [|f l].
  - apply does_ret. split; [|exists ∅; unfold dropped; set_solver].
    destruct (decide (pendingSet w = ∅)); [done|]. by destruct Hne.
  - next does_pendingBatch as [-> Hd]; [done|]. eapply does_mono; [apply IH|].
    + by eapply dropped_well_formed.
    + destruct Hd as [-> _]. assert (f ∈ pendingSet w) by (apply Hin; left).
      eapply Nat.lt_le_trans; [apply subset_size|apply Nat.lt_succ_r, Hsz]. set_solver.
    + intros _ w2 [E [X HX]]. split; [done|]. eexists. by eapply dropped_trans.
Qed.

(** The dirty members [X] are taken: their counters are at zero, no other
    counter grew, and nothing is left pending. *)
Definition cleaned (X : gset string) (w w' : World) : Prop :=
  dirtySet w' = dirtySet w ∖ X ∧ pendingSet w' ⊆ pendingSet w ∧ lock w' = lock w ∧
  ∀ ty id, flushable ty = true → id ≠ "" →
    (ty ++ ":" ++ id ∈ X ∨ count_of (ty, id) (counters w) = zeroC) →
    count_of (ty, id) (counters w') = zeroC.

Lemma cleaned_trans X Y w1 w2 w3 : cleaned X w1 w2 → cleaned Y w2 w3 → cleaned (X ∪ Y) w1 w3.
Proof.
  intros (E1 & Hs1 & L1 & H1) (E2 & Hs2 & L2 & H2). unfold cleaned.
  split_and!; [rewrite E2, E1; set_solver|set_solver|congruence|].
  intros ty id Hty Hid [[?|?]%elem_of_union|?]; apply H2; auto.
Qed.

Lemma flushable_member ty id :
  flushable ty = true → Cut (ty ++ ":" ++ id) ":" = Some (ty, id) ∧ ty ≠ "".
Proof.
  unfold flushable. intros H%mem_true. rewrite !elem_of_cons, elem_of_nil in H.
  by destruct H as [->|[->|[->|[->|[]]]]].
Qed.

Lemma cut_member member ty id : Cut member ":" = Some (ty, id) → member = ty ++ ":" ++ id.
Proof.
  revert ty id. induction member as [|a s IH]; intros ty id; simpl; [done|].
  destruct (Ascii.eqb_spec a ":") as [->|]; [by intros [= <- <-]|].
  destruct (Cut s ":") as [[h t]|]; [|done]. intros [= <- <-]. by rewrite (IH h t eq_refl).
Qed.

Lemma does_srem_dirty member w :
  (∀ ty id, Cut member ":" = Some (ty, id) → flushable ty = true → id = "") →
  does (call (λ w, (tt, srem_dirty member w));; mret true) w
    (λ ok w', ok = true ∧ cleaned {[ member ]} w w').
Proof.
  intros Hm. next does_call as [-> ->]. apply does_ret. split; [done|].
  split_and!; [done..|]. intros ty id Hty Hid [H|H]; [|done]. exfalso.
  apply elem_of_singleton in H as <-. destruct (flushable_member ty id Hty) as [HC _]. eauto.
Qed.

(** A drained resource whose record, if there is one, was settled. *)
Lemma drained_cleaned member ty id f w w' :
  Cut member ":" = Some (ty, id) →
  let '((c, has), w1) := drain member ty id f w in
  (if has : bool then dropped {[ f ]} w1 w' else w' = w1) → cleaned {[ member ]} w w'.
Proof.
  intros Hc. destruct (drain member ty id f w) as [[c has] w1] eqn:Hd. intros Hw'.
  assert (dirtySet w' = dirtySet w ∖ {[ member ]} ∧ pendingSet w' ⊆ pendingSet w ∧
    lock w' = lock w ∧ counters w' = <[(ty, id) := zeroC]> (counters w)) as (H1 & H2 & H3 & H4).
  { unfold drain in Hd. case_decide; simplify_eq; simpl in *; [by subst|].
    destruct Hw' as (-> & _ & -> & -> & ->). simpl. split_and!; [done|set_solver|done|done]. }
  split_and!; [done..|]. intros ty' id' Hty Hid H. rewrite H4.
  destruct (decide ((ty, id) = (ty', id'))) as [<-|Hne]; autorewrite with market; [done|].
  destruct H as [<-%elem_of_singleton|]; [|done].
  destruct (flushable_member ty' id' Hty) as [HC _]. congruence.
Qed.

Lemma does_processDirtyMember member w :
  does (processDirtyMember instanceID member) w (λ ok w', ok = true ∧ cleaned {[ member ]} w w').
Proof.
  unfold processDirtyMember. destruct (Cut member ":") as [[ty id]|] eqn:HC;
    [|apply does_srem_dirty; congruence].
  destruct (String.eqb_spec ty "") as [->|Hty]; simpl.
  { apply does_srem_dirty. intros ?? H1 H2. rewrite HC in H1. by simplify_eq. }
  destruct (String.eqb_spec id "") as [->|Hid].
  { apply does_srem_dirty. intros ?? H1 H2. rewrite HC in H1. by simplify_eq. }
  destruct (flushable ty) eqn:Hf; simpl.
  2: { apply does_srem_dirty. intros ?? H1 H2. rewrite HC in H1. simplify_eq. congruence. }
  unfold drainToPending. eapply does_bind with (Q := λ r w1, ∃ f, r =
    Some (f, mkDelta member ty id (drain member ty id f w).1.1, (drain member ty id f w).1.2) ∧
    w1 = (drain member ty id f w).2).
  - unfold newFlushID. eapply does_bind with (Q := λ _ w1, w1 = w).
    + next does_freshID as ->. by apply does_ret.
    + intros f ? ->. next does_call as [-> ->]. apply does_ret. exists f.
      by destruct (drain member ty id f w) as [[c has] w1].
  - intros ? ? (f & -> & ->). pose proof (drained_cleaned member ty id f w) as Hcl.
    destruct (drain member ty id f w) as [[c [|]] w1]; simpl.
    + eapply does_mono; [apply does_processPendingDelta|]. intros ok w' [-> Hd].
      split; [done|]. by apply (Hcl w').
    + apply does_ret. split; [done|]. by apply (Hcl w1).
Qed.

Lemma does_dirtyBatch l b w :
  does (dirtyBatch instanceID l b) w
    (λ ok w', ok = b || bool_decide (l ≠ []) ∧ cleaned (list_to_set l) w w').
Proof.
  revert b w. induction l as [|x l IH]; intros b w; simpl.
  - apply does_ret. split; [by rewrite orb_false_r|]. split_and!; set_solver.
  - next does_ctxErr as [-> ->]. next does_processDirtyMember as [-> Hc].
    eapply does_mono; [apply IH|]. intros ok w2 [-> Hc']. rewrite orb_true_r.
    split; [done|]. by eapply cleaned_trans.
Qed.

Lemma does_dirtyLoop fuel w :
  size (dirtySet w) < fuel →
  does (dirtyLoop instanceID fuel) w
    (λ ok w', ok = true ∧ dirtySet w' = ∅ ∧ cleaned (dirtySet w) w w').
Proof.
  revert w. induction fuel as [|fuel IH]; intros w Hsz; [lia|]. simpl.
  next does_ctxErr as [-> ->]. next does_sampleOf as (-> & l & -> & Hin & Hne).
  destruct l as [|x l].
  - destruct (decide (dirtySet w = ∅)) as [E|]; [|by destruct Hne].
    apply does_ret. unfold cleaned. rewrite E. split_and!; set_solver.
  - next does_dirtyBatch as [-> Hc]. next does_fails as [-> ->]. rewrite orb_true_r by done. simpl.
    assert (list_to_set (x :: l) ⊆ dirtySet w) as HX by set_solver.
    eapply does_mono; [apply IH|].
    + destruct Hc as [-> _]. eapply Nat.lt_le_trans; [apply subset_size|apply Nat.lt_succ_r, Hsz]. set_solver.
    + intros ok w2 (-> & HE & Hc'). split_and!; [done|done|].
      rewrite (union_difference_L _ _ HX). destruct (Hc) as [HD _]. rewrite <-HD.
      by eapply cleaned_trans.
Qed.

Lemma does_cleanup w :
  does (cleanupFlushLedger instanceID retention) w
    (λ _ w', pendingSet w' = pendingSet w ∧ pendingHash w' = pendingHash w ∧
             dirtySet w' = dirtySet w ∧ counters w' = counters w ∧ lock w' = lock w).
Proof.
  unfold cleanupFlushLedger. next does_call as [-> ->]. simpl.
  destruct (size (pendingSet w)); [|by apply does_ret].
  next does_call as [-> ->]. unfold setnx_cleanup. destruct (cleanupKey w); simpl; [by apply does_ret|].
  next does_wnow as ->. next does_call as [-> ->]. by apply does_ret.
Qed.

Lemma does_flush fuel w :
  lock w = None → well_formed w → size (pendingSet w) < fuel → size (dirtySet w) < fuel →
  does (flush instanceID retention fuel) w (λ _ w', pendingSet w' = ∅ ∧ dirtySet w' = ∅ ∧
    lock w' = None ∧ ∀ ty id, flushable ty = true → id ≠ "" →
      ty ++ ":" ++ id ∈ dirtySet w → count_of (ty, id) (counters w') = zeroC).
Proof.
  intros Hlock Hwf Hp Hd. unfold flush. next does_call as [-> ->].
  unfold setnx_lock. rewrite Hlock. simpl.
  next does_call as [-> ->]. next does_call as [-> ->]. simpl.
  next does_cleanup as (C1 & C2 & C3 & C4 & C5). simpl in *.
  next does_processPending as (HP & X & _ & _ & D3 & D4 & D5); [intros f p; rewrite C2; apply Hwf|by rewrite C1|].
  next does_fails as [-> ->]. simpl.
  next does_dirtyLoop as (-> & HD & K1 & K2 & K3 & K4); [by rewrite D3, C3|].
  next does_call as [-> ->]. apply does_ret. simpl. unfold del_lock.
  rewrite decide_True by congruence. simpl. split_and!; [set_solver|done|done|].
  intros ty id Hty Hid Hin. apply K4; [done..|]. left. by rewrite D3, C3.
Qed.

Lemma arrived_quiet r t n : arrived e r t n = zeroC.
Proof. revert t. induction n as [|n IH]; intros t; simpl; [done|]. by rewrite quiet, IH. Qed.

(** C36: An undisturbed flush settles everything. With no call failing and no
    event tracked meanwhile, one flush over more rounds than there are pending
    records and dirty members leaves nothing pending and nothing dirty, gives
    the lock back and counts no failure; and the database then holds, for
    every dirty resource of a flushable type, all of its events. *)
Theorem flush_settles fuel s :
  sound e instanceID s → lock (world s) = None → totalDBFails s = 0%Z → well_formed (world s) →
  size (pendingSet (world s)) < fuel → size (dirtySet (world s)) < fuel →
  let s' := (flush instanceID retention fuel e s).2 in
  pendingSet (world s') = ∅ ∧ dirtySet (world s') = ∅ ∧ lock (world s') = None ∧
  totalDBFails s' = 0%Z ∧
  ∀ ty id, flushable ty = true → id ≠ "" → ty ++ ":" ++ id ∈ dirtySet (world s) →
    count_of (ty, id) (resource_metrics (world s')) = total (ty, id) (world s).
Proof.
  intros Hs Hlock H0 Hwf Hp Hd s'.
  destruct (does_flush fuel (world s) Hlock Hwf Hp Hd s eq_refl H0) as (F & E1 & E2 & E3 & HC).
  destruct (keeps_flush e instanceID retention no_collision fuel s Hs I) as ([HL _] & [_ HT] & _).
  fold s' in F, E1, E2, E3, HC, HL, HT. split_and!; [done..|]. intros ty id Hty Hid Hin.
  specialize (HT (ty, id)). rewrite arrived_quiet, addC_zero_r in HT. rewrite <-HT.
  assert (pendingHash (world s') = ∅) as HE by (apply dom_empty_inv_L; set_solver).
  unfold total, owed. rewrite (HC ty id Hty Hid Hin), HE. by rewrite !addC_zero_l.
Qed.

End Calm.

(** ** A loop that does not end *)

(** The set can be read, but the member cannot be removed: each round takes
    four steps, the fourth of which is the refused removal. *)
Definition readonly : WEnv :=
  mkWEnv (λ t, if t mod 4 =? 3 then Refused else Done) (λ _, false) (λ _, "") (λ _, 0%Z)
    (λ _ X, elements X) (λ _, []).
Definition polluted : World := mkWorld ∅ {[ "stray" ]} ∅ ∅ None None ∅ ∅.

Lemma bind_eq {A B} (m : M A) (f : A → M B) e s a s' :
  m e s = (a, s') → mbind f m e s = f a e s'.
Proof. unfold mbind, m_bind. by intros ->. Qed.

Lemma round_of_readonly e n fuel p :
  (∀ t, cancelled e t = false) → (∀ t, arrivals e t = []) → (∀ t X, sample e t X = elements X) →
  answer e (S n) = Done → answer e (S (S (S n))) = Refused →
  dirtyLoop "w" (S fuel) e (mkWSt n polluted p 0) =
  dirtyLoop "w" fuel e (mkWSt (S (S (S (S n)))) polluted p 0).
Proof.
  intros Hc Ha Hs H1 H3. set (at_ k := mkWSt k polluted p 0).
  assert (∀ k, tock e (at_ k) = at_ (S k)) as Ht by (intros k; unfold tock; simpl; by rewrite Ha).
  assert (∀ k, ctxErr e (at_ k) = (false, at_ (S k))) as Hctx.
  { intros k. unfold ctxErr. by rewrite Hc, Ht. }
  assert (sampleOf dirtySet e (at_ (S n)) = (Some ["stray"], at_ (S (S n)))) as Hsm.
  { unfold sampleOf, call. simpl wtick. rewrite H1, Hs. f_equal. apply Ht. }
  assert (processDirtyMember "w" "stray" e (at_ (S (S (S n)))) = (true, at_ (S (S (S (S n)))))) as Hm.
  { unfold processDirtyMember. assert (Cut "stray" ":" = None) as -> by done.
    erewrite bind_eq; [done|].
    unfold call. simpl wtick. rewrite H3. f_equal. apply Ht. }
  assert (dirtyBatch "w" ["stray"] false e (at_ (S (S n))) = (true, at_ (S (S (S (S n)))))) as Hb.
  { cbn [dirtyBatch]. by rewrite (bind_eq _ _ _ _ _ _ (Hctx _)), (bind_eq _ _ _ _ _ _ Hm). }
  cbn [dirtyLoop]. rewrite (bind_eq _ _ _ _ _ _ (Hctx n)).
  by rewrite (bind_eq _ _ _ _ _ _ Hsm), (bind_eq _ _ _ _ _ _ Hb).
Qed.

(** A dirty member that cannot be parsed counts as progress even when its
    removal fails: as long as the set can be read and the removal is refused,
    the loop over the dirty members never ends by itself, whatever the number
    of rounds. *)
Theorem dirty_loop_spins fuel :
  (dirtyLoop "w" fuel readonly (mkWSt 0 polluted 0 0)).1 = false.
Proof.
  enough (∀ k, (dirtyLoop "w" fuel readonly (mkWSt (4 * k) polluted 0 0)).1 = false) as H by exact (H 0).
  induction fuel as [|fuel IH]; intros k; [done|].
  assert (∀ i, (4 * k + i) mod 4 = i mod 4) as Hmod.
  { intros i. by rewrite Nat.add_comm, Nat.mul_comm, Nat.Div0.mod_add. }
  rewrite round_of_readonly; try done.
  - by replace (S (S (S (S (4 * k))))) with (4 * S k) by lia.
  - cbn [answer readonly]. by rewrite <-Nat.add_1_r, Hmod.
  - cbn [answer readonly]. by replace (S (S (S (4 * k)))) with (4 * k + 3) by lia; rewrite Hmod.
Qed.

(** ** Concrete flushes *)

Fixpoint tally (n : nat) : string :=
  match n with 0 => "" | S n' => String "1" (tally n') end.
Lemma tally_inj n n' : tally n = tally n' → n = n'.
Proof. revert n'. induction n; intros [|n'] H; simplify_eq/=; auto. Qed.

Definition p1 : Resource := ("plugin", "p1").
Definition counted : World :=
  mkWorld {[ p1 := mkCounts 3 1 0 ]} {[ "plugin:p1"; "stray" ]}
    {[ "w:0" := mkDelta "plugin:p1" "plugin" "p1" (mkCounts 0 0 2) ]} {[ "w:0" ]} None None ∅ ∅.

(** Every third call loses its answer, and an event comes in meanwhile. *)
Definition flaky : WEnv :=
  mkWEnv (λ t, if t mod 3 =? 2 then Lost else Done) (λ _, false) tally (λ _, 0%Z)
    (λ _ X, elements X) (λ t, if t =? 5 then [(p1, EvView)] else []).
Definition calm : WEnv :=
  mkWEnv (λ _, Done) (λ _, false) tally (λ _, 0%Z) (λ _ X, elements X) (λ _, []).

Lemma counted_sound e : fresh e = tally → sound e "w" (mkWSt 0 counted 0 0).
Proof.
  intros He. split; [by vm_compute|]. intros t _. unfold flush_id. rewrite He.
  by destruct t as [|t]; vm_compute.
Qed.

Lemma flush_conserves_witness :
  total p1 (world (flush "w" 0 3 flaky (mkWSt 0 counted 0 0)).2) = mkCounts 4 1 2.
Proof.
  pose proof (counted_sound flaky eq_refl) as Hs.
  destruct (flush_conserves flaky "w" 0 tally_inj 3 _ p1 Hs) as [_ H].
  rewrite H. by vm_compute.
Defined.

Lemma flush_settles_witness :
  count_of p1 (resource_metrics (world (flush "w" 0 3 calm (mkWSt 0 counted 0 0)).2)) = mkCounts 3 1 2.
Proof.
  pose proof (counted_sound calm eq_refl) as Hs.
  assert (∀ (t : nat) (X : gset string), (∀ x, x ∈ elements X → x ∈ X) ∧ (X ≠ ∅ → elements X ≠ [])) as Hsm.
  { intros _ X. split; [by intros x; rewrite elem_of_elements|]. intros HX HE. by apply HX, leibniz_equiv, elements_empty_inv. }
  assert (well_formed counted) as Hwf.
  { intros f p Hp. unfold counted in Hp; simpl in Hp. apply lookup_singleton_Some in Hp as [_ <-]. done. }
  destruct (flush_settles calm "w" 0 tally_inj (λ _, eq_refl) (λ _, eq_refl) (λ _, eq_refl) Hsm 3 _ Hs
    eq_refl eq_refl Hwf ltac:(by vm_compute; lia) ltac:(by vm_compute; lia)) as (_ & _ & _ & _ & H).
  etransitivity; [apply (H "plugin" "p1" eq_refl ltac:(done) ltac:(by vm_compute))|]. by vm_compute.
Defined.
